(* ===== verification/_CoqProject ===== *)
-Q . S2P
Prelude.v
Json.v
Types.v
FsmEngine.v
ElementFsm.v
ModuleFsm.v
TrayFsm.v
Reporting.v
SubscriberList.v
Hal.v
Lines.v
Drivers.v
Descriptor.v
Orchestrator.v
OrchInit.v
GpioClient.v
Manager.v
Hierarchy.v
OrchInvariant.v
OrchSteps.v
OrchBoot.v
Replies.v
Daemon.v
ServerRun.v
Bytes.v
Text.v
Tlv.v
Tokens.v
Trace.v
Registry.v
UsbIo.v
ProgressCode.v
ProgressQueue.v
UsbDevices.v
RcmRecovery.v
ForceRecovery.v
RcmMain.v
Mctp.v
MctpProofs.v
TokenLog.v
TokenVdm.v
TokenDiscovery.v
TokenNsm.v
TokenMain.v
DfuStatus.v
DfuRecovery.v
DfuLines.v
DfuOrder.v
DfuImage.v
DfuMain.v
DfuWorker.v
DfuExample.v
McuManager.v
McuRecovery.v
McuMain.v
McuUpdate.v
McuFlow.v
McuReset.v
McuExample.v
Threads.v
OcpIo.v
OcpCommands.v
OcpTool.v
OcpRecovery.v
OcpSeen.v
OcpImage.v
OcpOutcome.v
OcpStatus.v
OcpExample.v
Crc32.v
GlacierCommands.v
GlacierFile.v
GlacierTransfer.v
GlacierMain.v
GlacierImage.v
GlacierOutcome.v
GlacierExample.v
NvConfig.v
NvManager.v
NvDelivery.v
