(* ===== verification/Prelude.v ===== *)
(** * nvidia-code-mgmt: verification development

    The repository holds the firmware-management and platform daemons of a BMC.
    This development models nine of its programs:

    - the power-sequence monitor, [src/pwrseq-monitor]: the daemon that follows
      the power-good and boot-complete lines of the accelerators (LPUs) and
      FPGAs of a tray, runs a finite state machine for every element, module and
      tray, publishes their status on D-Bus, drives reset lines on request, and
      bounds every boot and every reset by a deadline;
    - the USB recovery tool, [src/recovery_tool/usbrcm_recovery_tool]: it finds
      the CPUs that wait in their boot ROM, sends them images over USB while it
      watches the progress codes they log, and says how that went;
    - the USB DFU recovery tool, [src/recovery_tool/usbdfu_recovery_tool]: it
      holds the HMC in recovery by its straps, sends it boot images and a flash
      image through dfu-util, and gives the straps back;
    - the MCU recovery tool, [src/recovery_tool/mcu_recovery_tool]: it holds
      MCUs in their boot loader by a strap and a reset, checks and flashes them
      through blhost, and resets them until they are healthy;
    - the OCP recovery tools, [src/recovery_tool/ocp_recovery_tool]: a service
      that sends GPUs in recovery their images over I2C, a thread for each, and
      an interactive tool;
    - the Glacier recovery tools, [src/recovery_tool/glacier_recovery_tool]: a
      service that sends roots of trust their image in checked frames, one
      device after the other, and an interactive tool;
    - the debug token tool, [src/debug_token]: it reads packages of debug
      tokens and the TLV containers they hold, finds the endpoints that take
      tokens, and queries, installs and erases them over MCTP vendor messages
      or the NSM service;
    - the MCTP requester of [src/fw-status]: queries to endpoints, with instance
      ids, retries and timeouts;
    - the NVSwitch configuration manager, [src/nvswitch-config]: it stores a
      configuration file and sends its blobs, one at a time, to every switch
      that asks for its configuration.

    ** Parts of the power-sequence monitor

    An edge of a line reaches a [SharedLine], whose subscribers are drivers;
    the driver emits semantic events to the orchestrator; the orchestrator
    dispatches them to the element's FSM; the FSM's hooks arm timers, publish
    the status and tell the parent FSM. In dependency order:

    - Types.v: enumerations, instance identifiers and their packing
      (include/core/types.hpp, src/types.cpp).
    - FsmEngine.v: the generic table-driven dispatch (include/fsm/transition_table.hpp).
    - ElementFsm.v, ModuleFsm.v, TrayFsm.v: the three tables with their actions
      and dispatch functions (src/element_fsm.cpp, src/module_fsm.cpp,
      src/tray_fsm.cpp). [element_spec] is the abstract transition function the
      element table refines.
    - Reporting.v: state to status mapping and reporters (src/reporting/).
    - SubscriberList.v: the subscriber list and the latch of boot-complete
      (include/hal/subscriber_list.hpp, pg_bc_latch.hpp).
    - Hal.v: device results, GPIO chips and the reset-line actuation with its
      chip cache (include/hal/i_device.hpp, src/hal/driver_common.cpp,
      src/i_device.cpp).
    - Lines.v: D-Bus line sources, shared lines and the registry that lets
      drivers share them, over a heap of reference-counted lines
      (src/hal/driver_common.cpp).
    - Drivers.v: the LPU and FPGA drivers (src/hal/lpu_driver.cpp,
      src/hal/fpga_driver.cpp, src/gpio_monitor_read.cpp); the class [IDevice]
      is the interface the orchestrator uses, [IDeviceLaws] what it relies on,
      both discharged by the drivers.
    - Json.v: JSON values, as their library shows them.
    - Descriptor.v: the platform descriptor and its loader over a JSON value
      (include/config/descriptor.hpp, src/config/descriptor_loader.cpp).
    - Orchestrator.v: the orchestrator's state and every call on it
      (src/orchestrator.cpp), over any [IDevice].
    - OrchInit.v: [initFromDescriptor], with the two drivers.
    - GpioClient.v: the cached line properties and the snapshot machine
      (include/gpio_property_logic.hpp), and the client of the property service
      (src/gpio_monitor_client.cpp), over any world it can inject into.
    - Manager.v: the D-Bus methods and the edge queue (src/dbus_manager.cpp),
      and the server main.cpp puts together.

    The proofs about the whole daemon are split by concern: Hierarchy.v (timer maps
    and loop sources agree, parents and status bus mirror the FSMs), OrchInvariant.v (the invariant [orch_inv] is kept by dispatches and
    edges), OrchSteps.v (and by timers and requests), OrchBoot.v (and holds
    after start-up), Replies.v (the books of the reset requests), Daemon.v (the
    properties of every reachable state), ServerRun.v (the server is a run of
    the orchestrator).

    ** Parts of the other programs

    - Bytes.v: bytes, words of a width, little-endian fields; shared by what
      follows.
    - Tlv.v: the TLV decoder (src/debug_token/tlv/). Tokens.v: token packages
      (token_utility.hpp, and updateTokenMap of update_debug_token.cpp).
    - Text.v: reading and printing of numbers, trimming, splitting and joining.
    - Trace.v: programs that make calls to an environment and record a trace;
      the logic of what a program does, of how many calls it makes and of the
      protocols it respects. The clients below instantiate it with calls of
      their own.
    - TokenLog.v: the calls of the token tool and its log entries.
      TokenVdm.v: the commands of mctp-vdm-util and the reading of their output
      (update_debug_token.cpp). TokenDiscovery.v: endpoints, devices and their
      names (update_debug_token.cpp, .hpp). TokenNsm.v: tokens over the NSM
      service, both versions (nsm_debug_token.cpp). TokenMain.v: the command
      line (main.cpp).
    - UsbIo.v: the calls of libusb and of the file system as an environment
      ([UsbEnv], with what the library documents in [UsbLaws]), the monad [M]
      of programs that make them and record a trace, and the register reads of
      usb_io.cpp and ecid_parser.hpp over it.
    - ProgressCode.v, ProgressQueue.v: progress codes and the ring of the
      device that logs them (progress_code_parser.hpp,
      progress_code_queue.cpp).
    - UsbDevices.v: contexts, device handles and searches
      (usb_device_manager.cpp), and the automaton of the calls libusb allows.
    - RcmRecovery.v, ForceRecovery.v, RcmMain.v: the recovery of a device
      (perform_rcm_recovery.cpp), the GPIO sequences (force_recovery.cpp), the
      status of a device (get_recovery_status.cpp) and the D-Bus entry point
      (main_dbus.cpp).
    - Registry.v: the message registry of the recovery tools, with the tables
      of their error codes (src/recovery_tool/common).
    - DfuStatus.v, DfuRecovery.v: the calls of the USB DFU recovery
      tool with its polls, lines and sysfs searches (process_utils.cpp,
      common/usb_sysfs.hpp); the status of the HMC and the listing of dfu-util
      (usbdfu_status.cpp); the recovery (perform_dfu_recovery.cpp). DfuMain.v:
      its configuration, its package, the command and the worker (main.cpp,
      main_dbus.cpp). The proofs: the end of DfuStatus.v (polls, the listing),
      DfuLines.v (the lines), DfuOrder.v (what is driven and sent, in order), DfuImage.v
      (the staged image, the reports), DfuWorker.v (the entries of the worker,
      the package); DfuExample.v is a bench on which a recovery runs.
    - McuManager.v, McuRecovery.v, McuMain.v: the calls of the MCU
      recovery tool and the monad of its methods; the manager, with its devices
      and lines, and the flows (mcu_recovery_manager.cpp, .hpp); the
      configuration and the programs (utils.cpp, mcu_recovery_app.cpp,
      mcu_recovery_interfaces.cpp). The proofs: McuUpdate.v (what an update
      holds and finds), McuFlow.v (what a recovery says and runs), McuReset.v
      (the lines), the end of McuMain.v (what is read); McuExample.v holds
      benches.
    - Threads.v: programs as trees of calls, which threads interleave: a pool of
      them runs under a schedule, one call at a time. The calculus [wp] of what
      a program does, its protocols ([keeps]), what a thread of a pool has done,
      and that a fair schedule ends. The two tools below are such programs.
    - OcpIo.v: the calls of both tools to an I2C bus, the file system and D-Bus.
      OcpCommands.v: the transfers (common/i2c_utils.cpp), the registers and the
      transfer of an image (recovery_commands.cpp). OcpTool.v: the interactive
      tool (recoverytool_utils.cpp, recoverytool_interface.cpp,
      usb_i2c_mapper.cpp). OcpRecovery.v: the recovery of a device and the
      service (recovery_commandline.cpp, ocp_commandline.cpp). The proofs:
      OcpSeen.v (the calculus [sees] of what matters of a run), OcpImage.v (the
      images), OcpOutcome.v (one device at a time, outcomes, the service), OcpStatus.v (the tool and the registers); OcpExample.v is a
      bench of two devices.
    - Crc32.v: the checksum of Glacier, with its table. GlacierCommands.v:
      frames and responses. GlacierFile.v: the image read from its file.
      GlacierTransfer.v: the operations on a device (all of
      glacier_recovery_commands.cpp). GlacierMain.v: the interactive tool
      (glacier_recovery_utils.cpp, glacier_recovery_interface.cpp) and the
      service (main.cpp). The proofs: GlacierImage.v (a device that reads the
      frames, the course of a recovery, what the device holds),
      GlacierOutcome.v (outcomes, the service);
      GlacierExample.v is a bench.
    - Mctp.v: the requester (src/fw-status/mctp_util), one function per
      operation and one step per turn of the event loop; MctpProofs.v what it
      keeps.
    - NvConfig.v: the parser of the configuration of the NVSwitches, with what it
      accepts and the round trip. NvManager.v: the manager, as the handlers of
      the inputs of its event loop, each a program of the calls it makes
      (nvswitch_config_manager.cpp); what is stored. NvDelivery.v: what reaches a
      device, and a bench.

    ** How code is modelled

    - A function that may throw is a function into [res]; the exception is
      data. An exception that leaves a D-Bus handler ends the daemon, so a
      [Throw] of an orchestrator call carries no state.
    - Calls on shared objects are state passing on one record, [Orch]; the
      callbacks the C++ registers are data ([TimerCallback], [ResetCallback],
      [ElementHook]) interpreted where the code calls them, so the order of
      effects is the code's.
    - Pointers between objects become keys: [packInstance] for elements,
      devices and modules, a number for a line, a timer source, a tracker.
    - uint16_t and uint64_t keep their width where a value could leave it
      ([u16], [packInstance] with its shifts and masks); times are
      microseconds in Z.
    - The environment of a call is the class [Env]: the GPIO chips, the kernel
      module's ioctls, the property service, the clock, the event loop's
      refusals. It may change between any two inputs, and no property assumes
      anything of it beyond what its statement says.
    - A call of libusb is an event of a trace, answered by the environment from
      the events so far; resources the C++ releases in destructors are released
      where the scope ends, so that the trace shows it.
    - A suspended coroutine is a number; resuming it is recorded.
    - A method of an object that may throw is a function on the state of the
      object, with the calls it makes recorded ([McuManager.T]): what it throws
      leaves the state as it then is.
    - The threads of a service are a list of programs; a schedule says whose call
      is next. Nothing is assumed of it, but for termination, where it is fair.
    - What a variable that is read uninitialised holds is a parameter
      ([load_image]).
    - The loops of the code run over lists, or for a number of iterations the
      code bounds itself, or recur on a measure (the bytes left to send or to
      decode, the requests that are registered). The loops over the chunks of an
      image ([OcpCommands.write_chunks], [GlacierTransfer.write_from]) have the
      length of the image as fuel: a chunk has at least a byte, and their
      theorems are about all chunks of the image. The loop that reads a
      configuration file ([NvManager.read_loop]) has the limit of its size as
      fuel, which [read_loop_spec] shows it does not use up.
    - The bounds are those of the code: three attempts of five polls for a chunk
      of 252 bytes (32 behind a CP2112, so that the size is a parameter) in an
      OCP recovery, five polls for a frame of 128 bytes in a Glacier recovery.
      The width of size_t, in which a progress overflows, is a parameter.

    ** What is shown

    - ElementFsm, ModuleFsm, TrayFsm: the tables refine a transition function;
      what each state requires (online only on boot-complete, maintenance exit
      faithful to the children, ...); recovery from every state.
    - Hal, Lines, Drivers: outcomes of an actuation, sharing of lines, the
      telemetry poll mask.
    - Descriptor: what is loaded is consistent; every consistent descriptor
      loads back from its encoding.
    - Daemon: for every descriptor that fits ([desc_fits]: distinct report
      paths, counts below 2^16), every environment and every sequence of
      inputs: the bus mirrors the FSMs, parents mirror children, an element is
      booting when its deadline is armed, and exactly then when every timer was
      granted, a passed deadline leaves nothing booting, every reset request is answered exactly once and 20 s
      after the last input nothing is unanswered, a batch reports on each
      element it covers, and a latched boot-complete does not outlive a power
      loss.
    - GpioClient, ServerRun: the last level injected is the last one heard, as
      long as lines are named before they change; bursts are delivered in
      order; every behaviour of the server is one of the daemon, so that what
      Daemon.v shows holds for the clients on the bus, with one reply to each
      method call.
    - Tlv, Tokens: a buffer is accepted exactly when it is a serialised
      container, and packages parse to the tokens they were built from.
    - TokenVdm, TokenDiscovery, TokenNsm, TokenMain: a query reads the status
      the device reports in the newest version it answers; of the endpoints of
      a device the fastest is used; an installation gives to an endpoint only
      tokens that bear its serial number, whole, and its result says what was
      done; the waits are bounded; the log claims a success only when the
      service has told of one for every token.
    - UsbDevices, RcmRecovery, RcmMain: every run respects the protocol of
      libusb and releases all it holds; a recovery sends the files that the ECID
      calls for in order and nothing else; the status follows from the boot mode last logged and the
      endpoints found. ProgressQueue: the entries read are those of the ring.
      ForceRecovery: no reset is released before the straps are set. RcmMain:
      every device is reported on as its status and its recovery came out.
    - DfuLines, DfuOrder, DfuImage, DfuStatus, DfuWorker: every run gives the lines
      back and transfers only under the straps; a recovery that succeeds has
      driven and sent its plan and nothing else; the tail of the image is never
      sent; a failure says its cause and its code; polls are bounded; a package
      resolves exactly when it is complete; the worker answers for every device.
    - McuUpdate, McuFlow, McuReset, McuMain: an update is bounded and
      gives back what it holds; what a recovery says and runs is a word of a
      grammar, in which an image follows the checks of the device; straps are
      asserted before resets; a reset gives every line back once; the key and
      the configuration are read as they were printed.
    - OcpImage, OcpOutcome, OcpStatus: the images are loaded and activated one
      by one, whole and in order, within a bounded number of transfers; whatever
      the schedule, a thread speaks to its own device and closes what it opens,
      every device comes to an outcome of its own, and the code of the service
      says whether one failed; under a fair schedule it ends, after as many
      transfers as its images call for; the failures that
      leave no entry are told apart; the tool decodes what a device encodes.
    - Crc32, GlacierFile, GlacierImage, GlacierOutcome: the table computes the CRC
      of the polynomial, which tells apart messages that differ in four bytes in
      a row; an image is loaded from the places its file names, whatever the
      uninitialised variables hold; a device that follows the protocol holds
      complete parts of the image in their order and runs only all of it; each
      frame waits for an intact and clear answer to the one before; a damaged
      response is no success; the service answers for every device.
    - MctpProofs: every query is resumed exactly once; the requests of an
      endpoint are sent one at a time and none is left waiting behind nothing.
    - NvConfig, NvManager, NvDelivery: a configuration that is printed is read
      back, and what is accepted is bounded by its text; a file is stored whole,
      readable and where there was none, and a method that throws changes
      nothing; at most one delivery runs for a device; it offers the blobs of
      the configuration in their order, all of them once its service is found,
      and ends after a bounded number of answers.
    - Some theorems state what the code does where a comment says otherwise or
      where it falls short:
      [single_child_never_online], [module_online_wedge],
      [silent_module_blocks_tray], [shutdown_blocks_reinit],
      [source_check_dead], [failed_batch_stays_resetting],
      [expired_boot_timer_leaks], [early_change_loses_seed],
      [dispatch_failures_unbounded], [redecode_fails], [short_file_throws],
      [offset_past_end_throws], [error_hides_completion],
      [silent_recovery_successful], [late_response_faults],
      [stray_response_fails_query], [error_reads_installed],
      [missing_binding_throws], [strap_left_asserted],
      [device_used_after_list], [failure_untold], [chunk_repeated],
      [unmarked_never_recovered], [locked_device_unnoticed], [readme_refused],
      [empty_entry_ignored], [lost_write_unnoticed], [unresolved_reads_complete].

    ** Not modelled

    - The state dump (src/state_dump.cpp), the signal handlers and the set-up of
      main.cpp, the construction of D-Bus messages. A message that cannot be
      read is not an event: the code logs it and returns.
    - The text of log messages, except where it is the value of an exception.
    - JSON parsing (a library): the loader starts from a JSON value.
    - The command line of the USB recovery tool (main.cpp) and verbose output;
      memory that runs out; the threads of main_dbus.cpp, whose results are an
      argument of [RcmMain.main].
    - The command line of the USB DFU recovery tool is parsed by a library; the
      printing of its result and the last command kept for a listing are left
      out, and seconds are integers of any size, whose product by a thousand
      overflows in the code beyond 24 days.
    - The command line of the MCU recovery tool is parsed by a library; what
      its status command prints is left out. The width of an unsigned long is a
      parameter of its configuration.
    - A query that a resumed coroutine makes before it returns: it is a step
      after the one that resumed it. The discovery of endpoints.
    - In the debug token tool, the text of log messages other than the
      identifiers and arguments of registry entries, and the construction of
      D-Bus messages: a method call is a call of the environment, a signal what
      the bus delivers when it is processed.
    - The command lines of the OCP and Glacier tools are parsed by a library;
      verbose output and the journal are left out, but for the progress of a
      transfer. The path of an object in the inventory is split as a path; the
      name that sdbusplus takes from it is a parameter of the Glacier service.
    - In the NVSwitch manager, the watchdog of main.cpp, the journal but for the
      summary of a delivery, and a timer that is cancelled, which only happens
      when the service ends.
    - The other programs of the repository: the firmware status service, the key
      daemon, the flash wrapper, the diagnostics, the small tools for SPI flashes
      and baseboards, and the firmware updaters. They are sequences
      of calls of D-Bus, GPIO, SPI and external programs with little logic of
      their own, or objects whose behaviour is that of sdbusplus and systemd. *)

From stdpp Require Export base option list gmap strings sorting.
From Stdlib Require Export ZArith Lia.

#[global] Open Scope Z_scope.
#[global] Set Default Goal Selector "!".

(** ** Results of fallible code

    A C++ function that may throw is a function into [res E A]: the exception
    it throws, or the value it returns. *)
Inductive res (E A : Type) : Type :=
| Ok (a : A)
| Throw (e : E).
Arguments Ok {E A} a.
Arguments Throw {E A} e.

#[export] Instance res_ret E : MRet (res E) := λ A a, Ok a.
#[export] Instance res_bind E : MBind (res E) := λ A B f m,
  match m with Ok a => f a | Throw e => Throw e end.

Definition is_ok {E A} (r : res E A) : bool :=
  match r with Ok _ => true | Throw _ => false end.

(** [guard_ b e]: [if (!b) throw e;] *)
Definition guard_ {E} (b : bool) (e : E) : res E unit :=
  if b then Ok () else Throw e.

Lemma res_bind_ok {E A B} (m : res E A) (f : A → res E B) b :
  m ≫= f = Ok b ↔ ∃ a, m = Ok a ∧ f a = Ok b.
Proof.
  split; [|by intros (a & -> & ?)].
  destruct m as [a|]; [by exists a|done].
Qed.

Lemma guard_ok {E} b (e : E) u : guard_ b e = Ok u ↔ b = true.
Proof. by destruct b, u. Qed.

Lemma string_compare_refl s : String.compare s s = Eq.
Proof. induction s as [|c s IH]; [done|]. cbn. unfold Ascii.compare. by rewrite N.compare_refl. Qed.

(** The next state, if a condition holds. *)
Definition allow {S} (P : Prop) `{Decision P} (s : S) : option S := if decide P then Some s else None.

Lemma allow_true {S} (P : Prop) `{Decision P} (s : S) : P → allow P s = Some s.
Proof. intros HP. unfold allow. by rewrite decide_True. Qed.

(** ** Reflexive transitive closure along labelled steps *)
Section Runs.
Context {S L : Type} (step : S → L → S).

(** The state after a sequence of inputs. *)
Definition run (s : S) (ls : list L) : S := foldl step s ls.

Lemma run_app s l1 l2 : run s (l1 ++ l2) = run (run s l1) l2.
Proof. apply foldl_app. Qed.

(** An invariant of every step holds along every run. *)
Lemma run_invariant (I : S → Prop) (P : L → Prop) s ls :
  I s → Forall P ls → (∀ s l, I s → P l → I (step s l)) → I (run s ls).
Proof.
  intros Hs Hls Hstep. revert s Hs.
  induction Hls as [|l ls Hl Hls IH]; intros s Hs; cbn; auto.
Qed.
End Runs.

(** ** Tactics *)

(** Split the matches and conditionals of the goal, closing what computation
    closes. *)
Ltac case_all :=
  repeat (case_match || case_decide); simplify_eq/=; try done.

(** Turn boolean equations of the context into propositions. *)
Ltac bool_to_prop :=
  repeat match goal with
  | H : _ && _ = true |- _ => apply andb_true_iff in H as [? ?]
  | H : _ || _ = false |- _ => apply orb_false_iff in H as [? ?]
  | H : negb _ = true |- _ => apply negb_true_iff in H
  | H : negb _ = false |- _ => apply negb_false_iff in H
  | H : bool_decide _ = true |- _ => apply bool_decide_eq_true in H
  | H : bool_decide _ = false |- _ => apply bool_decide_eq_false in H
  | H : (_ =? _)%Z = true |- _ => apply Z.eqb_eq in H
  | H : (_ =? _)%Z = false |- _ => apply Z.eqb_neq in H
  | H : (_ <? _)%Z = true |- _ => apply Z.ltb_lt in H
  | H : (_ <? _)%Z = false |- _ => apply Z.ltb_ge in H
  | H : (_ <=? _)%Z = true |- _ => apply Z.leb_le in H
  | H : (_ <=? _)%Z = false |- _ => apply Z.leb_gt in H
  end.

(** ** Lists *)

Lemma lookup_app_skip {A} (l1 l2 : list A) i :
  (l1 ++ l2) !! (length l1 + i)%nat = l2 !! i.
Proof. rewrite lookup_app_r by lia; f_equal; lia. Qed.

(** [std::find_if] by a boolean test: the first element that passes. *)
Definition find_if {A} (p : A → bool) (l : list A) : option (nat * A) :=
  list_find (λ x, p x = true) l.

(** [std::all_of] and [std::any_of]. *)
Definition all_of {A} (p : A → bool) (l : list A) : bool := forallb p l.
Definition any_of {A} (p : A → bool) (l : list A) : bool := existsb p l.

Lemma all_of_Forall {A} (p : A → bool) l :
  all_of p l = true ↔ Forall (λ x, p x = true) l.
Proof. unfold all_of. rewrite forallb_forall, List.Forall_forall. done. Qed.

Lemma any_of_Exists {A} (p : A → bool) l :
  any_of p l = true ↔ Exists (λ x, p x = true) l.
Proof. unfold any_of. rewrite existsb_exists, List.Exists_exists. done. Qed.

Lemma any_of_false_Forall {A} (p : A → bool) l :
  any_of p l = false ↔ Forall (λ x, p x = false) l.
Proof.
  unfold any_of. induction l as [|x l IH]; cbn.
  - split; [constructor|done].
  - rewrite orb_false_iff, IH, Forall_cons. done.
Qed.

Lemma all_of_decide {A} (P : A → Prop) `{∀ x, Decision (P x)} l :
  all_of (λ x, bool_decide (P x)) l = bool_decide (Forall P l).
Proof.
  apply eq_bool_prop_intro. rewrite !Is_true_true, bool_decide_eq_true, all_of_Forall.
  apply Forall_proper; [|done]. intros x. apply bool_decide_eq_true.
Qed.

Lemma any_of_decide {A} (P : A → Prop) `{∀ x, Decision (P x)} l :
  any_of (λ x, bool_decide (P x)) l = bool_decide (Exists P l).
Proof.
  apply eq_bool_prop_intro. rewrite !Is_true_true, bool_decide_eq_true, any_of_Exists.
  apply Exists_proper; [|done]. intros x. apply bool_decide_eq_true.
Qed.

(** ** Integers *)

Lemma land_shiftl_low a b n : 0 ≤ n → 0 ≤ b < 2 ^ n → Z.land (Z.shiftl a n) b = 0.
Proof.
  intros Hn Hb. apply Z.bits_inj'. intros i Hi. rewrite Z.land_spec, Z.bits_0.
  destruct (Z.ltb_spec i n).
  - by rewrite Z.shiftl_spec_low by lia.
  - rewrite <-(Z.mod_small b (2 ^ n)), Z.mod_pow2_bits_high by lia.
    apply andb_false_r.
Qed.
