(* ===== verification/Json.v ===== *)
(** * JSON values

    The values of nlohmann::json as the programs read and build them. Parsing
    and printing are the library's. *)

From stdpp Require Import list strings.
From Stdlib Require Import Ascii.
From S2P Require Import Prelude.

(** An object lists its members in key order, each key once; [find] on a value
    that is no object finds nothing. *)
Inductive json :=
| JNull
| JBool (b : bool)
| JUnsigned (n : Z)
| JInteger (n : Z)
| JFloat
| JString (s : string)
| JArray (l : list json)
| JObject (m : list (string * json)).

Abbreviation members := (list (string * json)).

Fixpoint members_find (m : members) (key : string) : option json :=
  match m with
  | [] => None
  | (k, v) :: m => if String.eqb k key then Some v else members_find m key
  end.

Definition json_find (obj : json) (key : string) : option json :=
  match obj with JObject m => members_find m key | _ => None end.

(** [find] where null counts as absent. *)
Definition json_find_value (obj : json) (key : string) : option json :=
  match json_find obj key with Some JNull => None | o => o end.

Definition is_object (v : json) : bool := match v with JObject _ => true | _ => false end.

(** [obj[key] = v] for an object. *)
Fixpoint members_set (key : string) (v : json) (m : members) : members :=
  match m with
  | [] => [(key, v)]
  | (k, u) :: rest =>
      match String.compare key k with
      | Lt => (key, v) :: m
      | Eq => (key, v) :: rest
      | Gt => (k, u) :: members_set key v rest
      end
  end.

(** [obj.value(key, default)] of a string; a member of another type throws. *)
Definition value_string (m : members) (key dflt : string) : option string :=
  match members_find m key with
  | None => Some dflt
  | Some (JString s) => Some s
  | Some _ => None
  end.

#[local] Open Scope string_scope.

Definition dquote : string := String (ascii_of_nat 34) "".
Definition quoted (s : string) : string := dquote +:+ s +:+ dquote.

(** ** Laws *)

Lemma members_find_set key v m : members_find (members_set key v m) key = Some v.
Proof.
  induction m as [|[k u] m IH]; cbn; [by rewrite String.eqb_refl|].
  destruct (String.compare key k) eqn:Hc; cbn; rewrite ?String.eqb_refl; [done|done|].
  destruct (String.eqb_spec k key) as [->|_]; [|done].
  by rewrite string_compare_refl in Hc.
Qed.

Lemma members_find_set_ne key key' v m :
  key ≠ key' → members_find (members_set key v m) key' = members_find m key'.
Proof.
  intros Hne. apply String.eqb_neq in Hne as Hne'.
  induction m as [|[k u] m IH]; cbn; [by rewrite Hne'|].
  destruct (String.compare key k) eqn:Hc; cbn.
  - apply String.compare_eq_iff in Hc as <-. by rewrite Hne'.
  - by rewrite Hne'.
  - by rewrite IH.
Qed.

(** Look members up among those that were set. *)
Ltac find_members :=
  repeat match goal with
  | |- context [members_find (members_set ?k ?v ?m) ?k] => rewrite (members_find_set k v m)
  | |- context [members_find (members_set ?k ?v ?m) ?k'] =>
      rewrite (members_find_set_ne k k' v m) by discriminate
  end.
