(* ===== verification/Types.v ===== *)
(** * Types of the power-sequencing monitor

    The enumerations, instance identifiers and semantic events that every
    other file of the monitor shares (pwrseq-monitor/include/core/types.hpp),
    their names (pwrseq-monitor/src/types.cpp), and the packing of an
    instance identifier into the 64-bit key of the orchestrator's maps.

    A bracketed path at the head of a definition's comment names the lines of
    src/ it models. *)

From stdpp Require Import pretty.
From S2P Require Import Prelude.

(** [pwrseq-monitor/include/core/types.hpp:44-50 InstanceId::Class] *)
Inductive Class_ := Lpu | Fpga | Module_ | Tray.

(** [pwrseq-monitor/include/core/types.hpp:42-57 InstanceId] [index] is a
    uint16_t; [InstanceId_wf] states its range. *)
Record InstanceId := mkInstanceId { cls : Class_; index : Z }.

Definition InstanceId_wf (id : InstanceId) : Prop := 0 ≤ index id < 2 ^ 16.

(** [pwrseq-monitor/include/core/types.hpp:65-72 ElementState] *)
Inductive ElementState := E_Stby | E_Powered | E_Online | E_Resetting | E_Fault.

(** [pwrseq-monitor/include/core/types.hpp:76-83 ModuleState] *)
Inductive ModuleState := M_Stby | M_Powered | M_Online | M_Resetting | M_Fault.

(** [pwrseq-monitor/include/core/types.hpp:87-94 TrayState] *)
Inductive TrayState := T_Stby | T_Booting | T_Online | T_Fault | T_Maintenance.

(** [pwrseq-monitor/include/core/types.hpp:102-121 EventKind] *)
Inductive EventKind :=
| PgHi | PgLo | BcHi | BcLo | RstAsserted | RstReleased | TBootExpired
| LpuStateChanged | ModuleStateChanged | FpgaStateChanged
| OpMaintenanceEnter | OpMaintenanceExit.

(** [pwrseq-monitor/include/core/types.hpp:129-141 FaultCode] *)
Inductive FaultCode :=
| FC_None | BootTimeout | BootHaltedDtlfsrMismatch | BootHaltedMemRepairTimeout
| BootHaltedPromLoadFailure | BootHaltedPllFailure | BootHaltedLabDebugPortBoot
| BootRegress | PgoodDrop | InitDoneTimeout.

#[export] Instance Class_eq_dec : EqDecision Class_.
Proof. solve_decision. Defined.
#[export] Instance InstanceId_eq_dec : EqDecision InstanceId.
Proof. solve_decision. Defined.
#[export] Instance ElementState_eq_dec : EqDecision ElementState.
Proof. solve_decision. Defined.
#[export] Instance ModuleState_eq_dec : EqDecision ModuleState.
Proof. solve_decision. Defined.
#[export] Instance TrayState_eq_dec : EqDecision TrayState.
Proof. solve_decision. Defined.
#[export] Instance EventKind_eq_dec : EqDecision EventKind.
Proof. solve_decision. Defined.
#[export] Instance FaultCode_eq_dec : EqDecision FaultCode.
Proof. solve_decision. Defined.

(** [pwrseq-monitor/include/core/types.hpp:145-161 EventPayload] The variant
    of no payload, [ChildElementPayload] and [ChildModulePayload]. *)
Inductive EventPayload :=
| monostate
| ChildElementPayload (child : InstanceId) (newState : ElementState)
| ChildModulePayload (child : InstanceId) (newState : ModuleState).

(** [pwrseq-monitor/include/core/types.hpp:167-179 SemanticEvent] *)
Record SemanticEvent := mkEvent {
  kind : EventKind;
  target : InstanceId;
  payload : EventPayload;
}.

(** The two-argument constructor: the payload defaults to monostate. *)
Definition event (k : EventKind) (t : InstanceId) : SemanticEvent :=
  mkEvent k t monostate.

(** ** Names *)

(** [pwrseq-monitor/src/types.cpp:13-27 to_string(InstanceId::Class)] *)
Definition Class_to_string (c : Class_) : string :=
  match c with
  | Lpu => "lpu" | Fpga => "fpga" | Module_ => "module" | Tray => "tray"
  end.

(** [pwrseq-monitor/src/types.cpp:29-34 to_string(InstanceId)] *)
Definition InstanceId_to_string (id : InstanceId) : string :=
  (Class_to_string (cls id) +:+ "/" +:+ pretty (index id))%string.

(** [pwrseq-monitor/src/types.cpp:36-52 to_string(ElementState)] *)
Definition ElementState_to_string (s : ElementState) : string :=
  match s with
  | E_Stby => "S_STBY" | E_Powered => "S_POWERED" | E_Online => "S_ONLINE"
  | E_Resetting => "S_RESETTING" | E_Fault => "S_FAULT"
  end.

(** [pwrseq-monitor/src/types.cpp:54-70 to_string(ModuleState)] *)
Definition ModuleState_to_string (s : ModuleState) : string :=
  match s with
  | M_Stby => "M_STBY" | M_Powered => "M_POWERED" | M_Online => "M_ONLINE"
  | M_Resetting => "M_RESETTING" | M_Fault => "M_FAULT"
  end.

(** [pwrseq-monitor/src/types.cpp:72-88 to_string(TrayState)] *)
Definition TrayState_to_string (s : TrayState) : string :=
  match s with
  | T_Stby => "T_STBY" | T_Booting => "T_BOOTING" | T_Online => "T_ONLINE"
  | T_Fault => "T_FAULT" | T_Maintenance => "T_MAINTENANCE"
  end.

(** [pwrseq-monitor/src/types.cpp:90-120 to_string(EventKind)] *)
Definition EventKind_to_string (e : EventKind) : string :=
  match e with
  | PgHi => "EV_PG_HI" | PgLo => "EV_PG_LO"
  | BcHi => "EV_BC_HI" | BcLo => "EV_BC_LO"
  | RstAsserted => "EV_RST_ASSERTED" | RstReleased => "EV_RST_RELEASED"
  | TBootExpired => "EV_T_BOOT_EXPIRED"
  | LpuStateChanged => "EV_LPU_STATE_CHANGED"
  | ModuleStateChanged => "EV_MODULE_STATE_CHANGED"
  | FpgaStateChanged => "EV_FPGA_STATE_CHANGED"
  | OpMaintenanceEnter => "EV_OPERATOR_MAINTENANCE_ENTER"
  | OpMaintenanceExit => "EV_OPERATOR_MAINTENANCE_EXIT"
  end.

(** [pwrseq-monitor/src/types.cpp:122-148 to_string(FaultCode)] *)
Definition FaultCode_to_string (f : FaultCode) : string :=
  match f with
  | FC_None => "NONE"
  | BootTimeout => "BOOT_TIMEOUT"
  | BootHaltedDtlfsrMismatch => "BOOT_HALTED_DTLFSR_MISMATCH"
  | BootHaltedMemRepairTimeout => "BOOT_HALTED_MEM_REPAIR_TIMEOUT"
  | BootHaltedPromLoadFailure => "BOOT_HALTED_PROM_LOAD_FAILURE"
  | BootHaltedPllFailure => "BOOT_HALTED_PLL_FAILURE"
  | BootHaltedLabDebugPortBoot => "BOOT_HALTED_LAB_DEBUG_PORT_BOOT"
  | BootRegress => "BOOT_REGRESS"
  | PgoodDrop => "PGOOD_DROP"
  | InitDoneTimeout => "INIT_DONE_TIMEOUT"
  end.

(** ** Packed keys *)

(** The enumerators' values, in declaration order. *)
Definition Class_to_Z (c : Class_) : Z :=
  match c with Lpu => 0 | Fpga => 1 | Module_ => 2 | Tray => 3 end.

(** A value outside the enumerators names no class. *)
Definition Class_of_Z (z : Z) : option Class_ :=
  match z with
  | 0 => Some Lpu | 1 => Some Fpga | 2 => Some Module_ | 3 => Some Tray
  | _ => None
  end.

(** [pwrseq-monitor/src/orchestrator.cpp:52-55 packInstance] *)
Definition packInstance (id : InstanceId) : Z :=
  Z.lor (Z.shiftl (Class_to_Z (cls id)) 16) (index id).

(** [pwrseq-monitor/src/orchestrator.cpp:57-63 unpackInstance] The class byte
    is the uint8_t cast of [key >> 16]; [None] when it names no class. *)
Definition unpackInstance (key : Z) : option InstanceId :=
  c ← Class_of_Z (Z.land (Z.shiftr key 16) 255);
  Some (mkInstanceId c (Z.land key 65535)).

(** ** Lemmas *)

Lemma packInstance_arith id :
  InstanceId_wf id → packInstance id = Class_to_Z (cls id) * 2 ^ 16 + index id.
Proof.
  intros Hwf. unfold packInstance.
  pose proof (land_shiftl_low (Class_to_Z (cls id)) (index id) 16 ltac:(lia) Hwf) as H0.
  rewrite <-Z.lxor_lor, <-Z.add_nocarry_lxor by done.
  by rewrite Z.shiftl_mul_pow2 by lia.
Qed.

Lemma Class_of_to_Z c : Class_of_Z (Class_to_Z c) = Some c.
Proof. by destruct c. Qed.

Lemma Class_to_Z_range c : 0 ≤ Class_to_Z c < 4.
Proof. destruct c; cbn; lia. Qed.

Lemma unpackInstance_arith key :
  unpackInstance key =
    c ← Class_of_Z ((key / 2 ^ 16) mod 256); Some (mkInstanceId c (key mod 2 ^ 16)).
Proof.
  unfold unpackInstance. rewrite Z.shiftr_div_pow2 by lia.
  change 255 with (Z.ones 8). change 65535 with (Z.ones 16).
  by rewrite !Z.land_ones by lia.
Qed.

Lemma unpack_pack id : InstanceId_wf id → unpackInstance (packInstance id) = Some id.
Proof.
  intros Hwf. rewrite unpackInstance_arith, packInstance_arith by done.
  pose proof (Class_to_Z_range (cls id)). unfold InstanceId_wf in Hwf.
  rewrite Z.div_add_l, (Z.div_small (index id)), Z.add_0_r by lia.
  rewrite (Z.mod_small (Class_to_Z _)) by lia.
  rewrite Z.add_comm, Z.mod_add, Z.mod_small by lia.
  rewrite Class_of_to_Z. by destruct id.
Qed.

Lemma packInstance_inj id1 id2 :
  InstanceId_wf id1 → InstanceId_wf id2 →
  packInstance id1 = packInstance id2 → id1 = id2.
Proof.
  intros H1 H2 Heq. apply (f_equal unpackInstance) in Heq.
  rewrite !unpack_pack in Heq by done. congruence.
Qed.
