(* ===== verification/FsmEngine.v ===== *)
(** * The table-driven FSM engine

    pwrseq-monitor/include/fsm/transition_table.hpp: a transition table is a
    list of rows, and [dispatch] fires the first row whose source state, event
    and guard match.  The hooks an action calls (timers, state-change
    callbacks) are returned as the list of calls, in order; the owner of the
    FSM runs them. *)

From S2P Require Import Prelude Types.

(** [pwrseq-monitor/include/fsm/transition_table.hpp:26-34 TransitionRow]
    [row_guard = None] is the null guard; an action updates the context and
    returns the hooks it called. *)
Record TransitionRow (State Context Hook : Type) := Row {
  row_from : State;
  row_event : EventKind;
  row_guard : option (Context → SemanticEvent → bool);
  row_to : State;
  row_action : option (Context → SemanticEvent → Context * list Hook);
}.
Arguments Row {State Context Hook}.
Arguments row_from {State Context Hook}.
Arguments row_event {State Context Hook}.
Arguments row_guard {State Context Hook}.
Arguments row_to {State Context Hook}.
Arguments row_action {State Context Hook}.

Section Engine.
Context {State Context Hook : Type} `{EqDecision State}.
Implicit Types (table : list (TransitionRow State Context Hook)) (row : TransitionRow State Context Hook) (s : State) (ctx : Context).

(** The test the engine makes of one row. *)
Definition row_matches row s ctx ev : bool :=
  if decide (row_from row ≠ s ∨ row_event row ≠ kind ev) then false
  else match row_guard row with Some g => g ctx ev | None => true end.

Lemma row_matches_true row s ctx ev :
  row_matches row s ctx ev = true ↔
    row_from row = s ∧ row_event row = kind ev ∧
    (∀ g, row_guard row = Some g → g ctx ev = true).
Proof.
  unfold row_matches.
  destruct (decide (row_from row = s)), (decide (row_event row = kind ev));
    case_decide; destruct (row_guard row); naive_solver.
Qed.

(** What firing a row does to the context. *)
Definition row_run row ctx ev : Context * list Hook :=
  match row_action row with Some a => a ctx ev | None => (ctx, []) end.

(** [pwrseq-monitor/include/fsm/transition_table.hpp:60-80 FsmEngine::dispatch]
    The new state and context, the hooks called, and whether a row fired. *)
Fixpoint FsmEngine_dispatch table s ctx ev : State * Context * list Hook * bool :=
  match table with
  | [] => (s, ctx, [], false)
  | row :: rest =>
      if row_matches row s ctx ev then
        let '(ctx', hooks) := row_run row ctx ev in (row_to row, ctx', hooks, true)
      else FsmEngine_dispatch rest s ctx ev
  end.

(** What a table promises about an event: the first matching row. *)
Definition first_match table s ctx ev : option (TransitionRow State Context Hook) :=
  match find_if (λ row, row_matches row s ctx ev) table with
  | Some (_, row) => Some row
  | None => None
  end.

Lemma first_match_cons row rest s ctx ev :
  first_match (row :: rest) s ctx ev =
    if row_matches row s ctx ev then Some row else first_match rest s ctx ev.
Proof.
  unfold first_match, find_if. cbn [list_find].
  destruct (row_matches row s ctx ev); case_decide; try done.
  by destruct (list_find _ rest) as [[? ?]|].
Qed.

(** The engine fires the first matching row, and only then. *)
Lemma FsmEngine_dispatch_first_match table s ctx ev :
  FsmEngine_dispatch table s ctx ev =
    match first_match table s ctx ev with
    | Some row => let '(ctx', hooks) := row_run row ctx ev in
                  (row_to row, ctx', hooks, true)
    | None => (s, ctx, [], false)
    end.
Proof.
  induction table as [|row rest IH]; [done|].
  rewrite first_match_cons. cbn [FsmEngine_dispatch].
  by destruct (row_matches row s ctx ev).
Qed.

(** An event that no row matches changes nothing and calls nothing. *)
Lemma FsmEngine_dispatch_ignored table s ctx ev s' ctx' hooks :
  FsmEngine_dispatch table s ctx ev = (s', ctx', hooks, false) →
  s' = s ∧ ctx' = ctx ∧ hooks = [].
Proof.
  rewrite FsmEngine_dispatch_first_match.
  destruct (first_match table s ctx ev) as [row|]; [|naive_solver].
  by destruct (row_run row ctx ev).
Qed.

(** A row that fires is a row of the table, from this state, on this kind of
    event, whose guard holds. *)
Lemma FsmEngine_dispatch_fired table s ctx ev s' ctx' hooks :
  FsmEngine_dispatch table s ctx ev = (s', ctx', hooks, true) →
  ∃ row, row ∈ table ∧ row_from row = s ∧ row_event row = kind ev ∧
    row_matches row s ctx ev = true ∧
    row_to row = s' ∧ row_run row ctx ev = (ctx', hooks).
Proof.
  rewrite FsmEngine_dispatch_first_match. unfold first_match, find_if.
  destruct (list_find _ table) as [[i row]|] eqn:Hf; [|done].
  apply list_find_Some in Hf as (Hl & Hm & _).
  destruct (row_run row ctx ev) as [c h] eqn:Hr. intros [= <- <- <-].
  exists row. split_and!; try done; [by eapply list_elem_of_lookup_2|..].
  all: apply row_matches_true in Hm; naive_solver.
Qed.
End Engine.
