(* ===== verification/ElementFsm.v ===== *)
(** * The Element FSM

    One instance per LPU and per FPGA (pwrseq-monitor/src/element_fsm.cpp,
    pwrseq-monitor/include/fsm/element_fsm.hpp): five states driven by the
    power-good, boot-complete and reset edges and by the boot-deadline timer.
    [table] is the transition table row by row; [ElementFsm_dispatch] is
    [ElementFsm::dispatch], which returns the hooks it called.

    The invariants proved here are over every sequence of events from the
    constructor: the fault code is set exactly in S_FAULT, the boot timer runs
    exactly in S_POWERED, S_ONLINE is only entered on a boot-complete edge,
    and a power-good drop cannot be recovered by boot-complete alone. *)

From S2P Require Import Prelude Types FsmEngine.

(** The calls the FSM makes to its owner. *)
Inductive ElementHook :=
| StartTBoot
| CancelTBoot
| OnElementStateChange (oldState newState : ElementState).

(** [pwrseq-monitor/include/fsm/element_fsm.hpp:25-45 ElementContext] The
    function objects are represented by whether they are set. *)
Record ElementContext := mkElementContext {
  ec_id : InstanceId;
  ec_faultCode : FaultCode;
  ec_startTBoot : bool;
  ec_cancelTBoot : bool;
  ec_onStateChange : bool;
}.

(** [pwrseq-monitor/include/fsm/element_fsm.hpp:79-150 ElementFsm] *)
Record ElementFsm := mkElementFsm {
  ef_ctx : ElementContext;
  ef_state : ElementState;
  ef_seenPgHi : bool;
}.

Abbreviation ElementRow := (TransitionRow ElementState ElementContext ElementHook).
Abbreviation ElementAction :=
  (ElementContext → SemanticEvent → ElementContext * list ElementHook).

(** ** Actions and guard *)

(** [pwrseq-monitor/src/element_fsm.cpp:34-38 startTBoot] *)
Definition startTBoot : ElementAction := λ ctx _,
  (ctx, if ec_startTBoot ctx then [StartTBoot] else []).

(** [pwrseq-monitor/src/element_fsm.cpp:40-44 cancelTBoot] *)
Definition cancelTBoot : ElementAction := λ ctx _,
  (ctx, if ec_cancelTBoot ctx then [CancelTBoot] else []).

(** [pwrseq-monitor/src/element_fsm.cpp:46-49 setFaultBootTimeout] *)
Definition setFaultBootTimeout : ElementAction := λ ctx _,
  ({| ctx with ec_faultCode := BootTimeout |}, []).

(** [pwrseq-monitor/src/element_fsm.cpp:51-54 setFaultBootRegress] *)
Definition setFaultBootRegress : ElementAction := λ ctx _,
  ({| ctx with ec_faultCode := BootRegress |}, []).

(** [pwrseq-monitor/src/element_fsm.cpp:56-59 setFaultPgoodDrop] *)
Definition setFaultPgoodDrop : ElementAction := λ ctx _,
  ({| ctx with ec_faultCode := PgoodDrop |}, []).

(** [pwrseq-monitor/src/element_fsm.cpp:61-64 clearFault] *)
Definition clearFault : ElementAction := λ ctx _,
  ({| ctx with ec_faultCode := FC_None |}, []).

(** [pwrseq-monitor/src/element_fsm.cpp:66-78 clearFaultAndStartTBoot] *)
Definition clearFaultAndStartTBoot : ElementAction := λ ctx _,
  ({| ctx with ec_faultCode := FC_None |},
   if ec_startTBoot ctx then [StartTBoot] else []).

(** [pwrseq-monitor/src/element_fsm.cpp:80-107 guardLateBootRecovery] *)
Definition guardLateBootRecovery (ctx : ElementContext) (_ : SemanticEvent) : bool :=
  bool_decide (ec_faultCode ctx = BootTimeout) ||
  bool_decide (ec_faultCode ctx = BootRegress).

(** [pwrseq-monitor/src/element_fsm.cpp:109-114 logBcAnomaly] *)
Definition logBcAnomaly : ElementAction := λ ctx _, (ctx, []).

(** [pwrseq-monitor/src/element_fsm.cpp:116-185 table] *)
Definition elementFsmTable : list ElementRow := [
  (* from S_STBY *)
  Row E_Stby PgHi None E_Powered (Some startTBoot);
  Row E_Stby PgLo None E_Stby None;
  Row E_Stby BcHi None E_Stby (Some logBcAnomaly);
  Row E_Stby BcLo None E_Stby (Some logBcAnomaly);
  (* from S_POWERED *)
  Row E_Powered BcHi None E_Online (Some cancelTBoot);
  Row E_Powered PgLo None E_Stby (Some cancelTBoot);
  Row E_Powered TBootExpired None E_Fault (Some setFaultBootTimeout);
  Row E_Powered RstAsserted None E_Resetting (Some cancelTBoot);
  (* from S_ONLINE *)
  Row E_Online BcLo None E_Fault (Some setFaultBootRegress);
  Row E_Online PgLo None E_Fault (Some setFaultPgoodDrop);
  Row E_Online RstAsserted None E_Resetting None;
  (* from S_RESETTING *)
  Row E_Resetting RstReleased None E_Powered (Some startTBoot);
  Row E_Resetting PgLo None E_Stby None;
  (* from S_FAULT *)
  Row E_Fault PgHi None E_Powered (Some clearFaultAndStartTBoot);
  Row E_Fault BcHi (Some guardLateBootRecovery) E_Online (Some clearFault);
  Row E_Fault PgLo None E_Stby (Some clearFault);
  Row E_Fault RstAsserted None E_Resetting (Some clearFault)
].

(** ** Operations *)

(** [pwrseq-monitor/src/element_fsm.cpp:189-196 ElementFsm::ElementFsm] *)
Definition ElementFsm_make (id : InstanceId) : ElementFsm :=
  mkElementFsm (mkElementContext id FC_None false false false) E_Stby false.

(** [pwrseq-monitor/include/fsm/element_fsm.hpp:127-138 setStartTBoot] The
    three setters: the hooks are registered. *)
Definition ElementFsm_setHooks (f : ElementFsm) : ElementFsm :=
  {| f with ef_ctx := {| (ef_ctx f) with ec_startTBoot := true;
                         ec_cancelTBoot := true; ec_onStateChange := true |} |}.

(** [pwrseq-monitor/src/element_fsm.cpp:198-215 ElementFsm::dispatch] *)
Definition ElementFsm_dispatch (f : ElementFsm) (ev : SemanticEvent)
    : ElementFsm * list ElementHook * bool :=
  let prev := ef_state f in
  let '(now, ctx, hooks, fired) :=
    FsmEngine_dispatch elementFsmTable (ef_state f) (ef_ctx f) ev in
  let f1 := {| f with ef_ctx := ctx; ef_state := now |} in
  if fired then
    let f2 := if decide (kind ev = PgHi) then {| f1 with ef_seenPgHi := true |} else f1 in
    (f2, hooks ++ (if bool_decide (now ≠ prev) && ec_onStateChange ctx
                   then [OnElementStateChange prev now] else []), true)
  else (f1, hooks, false).

(** ** Abstract specification

    What the header of element_fsm.hpp and the comments of the table promise,
    arranged by event: the next state, the fault code, and the timer command;
    [None] when the event is ignored. *)
Definition element_spec (s : ElementState) (fc : FaultCode) (k : EventKind)
    : option (ElementState * FaultCode * list ElementHook) :=
  match k with
  | PgHi => (* a power-up starts the boot path and its deadline *)
      if decide (s = E_Stby ∨ s = E_Fault) then Some (E_Powered, FC_None, [StartTBoot])
      else None
  | PgLo => (* a drop while online is a fault, any other power-down is not *)
      Some match s with
           | E_Online => (E_Fault, PgoodDrop, [])
           | E_Powered => (E_Stby, FC_None, [CancelTBoot])
           | _ => (E_Stby, FC_None, [])
           end
  | BcHi => (* boot-complete ends the boot, or recovers a late boot *)
      match s with
      | E_Stby => Some (E_Stby, FC_None, [])
      | E_Powered => Some (E_Online, FC_None, [CancelTBoot])
      | E_Fault => if decide (fc = BootTimeout ∨ fc = BootRegress)
                   then Some (E_Online, FC_None, []) else None
      | _ => None
      end
  | BcLo =>
      match s with
      | E_Stby => Some (E_Stby, FC_None, [])
      | E_Online => Some (E_Fault, BootRegress, [])
      | _ => None
      end
  | RstAsserted =>
      if decide (s = E_Stby ∨ s = E_Resetting) then None
      else Some (E_Resetting, FC_None,
                 if decide (s = E_Powered) then [CancelTBoot] else [])
  | RstReleased =>
      if decide (s = E_Resetting) then Some (E_Powered, FC_None, [StartTBoot]) else None
  | TBootExpired =>
      if decide (s = E_Powered) then Some (E_Fault, BootTimeout, []) else None
  | _ => None
  end.

(** An element whose hooks are registered and whose fault code is set exactly
    in S_FAULT; before the first power-good it is in S_STBY. *)
Record element_wf (f : ElementFsm) : Prop := {
  ewf_start : ec_startTBoot (ef_ctx f) = true;
  ewf_cancel : ec_cancelTBoot (ef_ctx f) = true;
  ewf_change : ec_onStateChange (ef_ctx f) = true;
  ewf_fault : ec_faultCode (ef_ctx f) = FC_None ↔ ef_state f ≠ E_Fault;
  ewf_seen : ef_seenPgHi f = false → ef_state f = E_Stby;
}.

(** The state-change call a step makes. *)
Definition change_hook (s s' : ElementState) : list ElementHook :=
  if decide (s' = s) then [] else [OnElementStateChange s s'].

(** Case analysis of a dispatch: state, event kind and fault code. *)
Ltac element_cases f ev :=
  let id := fresh "id" in let fc := fresh "fc" in
  let k := fresh "k" in let t := fresh "t" in let p := fresh "p" in
  destruct f as [[id fc ? ? ?] [] ?], ev as [k t p]; destruct k;
  cbn in *; try done.

(** The dispatch implements the specification. *)
Lemma ElementFsm_dispatch_spec f ev :
  element_wf f →
  ElementFsm_dispatch f ev =
    match element_spec (ef_state f) (ec_faultCode (ef_ctx f)) (kind ev) with
    | Some (s', fc', hooks) =>
        (mkElementFsm {| (ef_ctx f) with ec_faultCode := fc' |} s'
           (ef_seenPgHi f || bool_decide (kind ev = PgHi)),
         hooks ++ change_hook (ef_state f) s', true)
    | None => (f, [], false)
    end.
Proof.
  intros [Hs Hc Ho Hf Hseen].
  destruct f as [[id fc st ct oc] s seen], ev as [k t p]; cbn in *; subst.
  assert (s ≠ E_Fault → fc = FC_None) as Hfc by tauto.
  assert (∀ b : bool, orb b false = b) as Horb by apply orb_false_r.
  assert (∀ b : bool, orb b true = true) as Horb' by apply orb_true_r.
  destruct s, k; cbn; rewrite ?Hfc, ?Horb, ?Horb' by done; try done.
  all: destruct fc; cbn; rewrite ?Horb; try done; tauto.
Qed.

Lemma element_wf_make id : element_wf (ElementFsm_setHooks (ElementFsm_make id)).
Proof. by split. Qed.

Lemma element_wf_dispatch f ev :
  element_wf f → element_wf (ElementFsm_dispatch f ev).1.1.
Proof.
  intros Hwf. rewrite ElementFsm_dispatch_spec by done.
  destruct (element_spec _ _ _) as [[[s' fc'] hooks]|] eqn:Hsp; [|done].
  destruct Hwf as [Hs Hc Ho Hf Hseen].
  destruct f as [[id fc st ct oc] s seen], ev as [k t p]; cbn in *; subst.
  split; cbn; try done.
  - destruct s, k, fc; cbn in Hsp; simplify_eq; naive_solver.
  - intros [-> Hk]%orb_false_iff. specialize (Hseen eq_refl). subst.
    by destruct k; cbn in Hsp; simplify_eq.
Qed.

(** The element after a sequence of events. *)
Definition element_run (f : ElementFsm) (evs : list SemanticEvent) : ElementFsm :=
  run (λ f ev, (ElementFsm_dispatch f ev).1.1) f evs.

Lemma element_wf_run f evs : element_wf f → element_wf (element_run f evs).
Proof.
  intros. apply (run_invariant _ element_wf (λ _, True)); auto using element_wf_dispatch.
  by apply Forall_true.
Qed.

(** ** The boot-deadline timer *)

(** What a list of hooks does to the timer. *)
Definition timer_after (armed : bool) (hooks : list ElementHook) : bool :=
  foldl (λ b h, match h with StartTBoot => true | CancelTBoot => false | _ => b end)
    armed hooks.

(** An element and its timer: an expiry consumes the timer. *)
Definition element_timer_step (st : ElementFsm * bool) (ev : SemanticEvent)
    : ElementFsm * bool :=
  let '(f, armed) := st in
  let '(f', hooks, _) := ElementFsm_dispatch f ev in
  (f', timer_after (if decide (kind ev = TBootExpired) then false else armed) hooks).

Lemma timer_after_change b hooks s s' :
  timer_after b (hooks ++ change_hook s s') = timer_after b hooks.
Proof.
  unfold timer_after, change_hook. rewrite foldl_app. by case_decide.
Qed.

Lemma element_timer_step_inv f armed ev :
  element_wf f → (armed = true ↔ ef_state f = E_Powered) →
  let st := element_timer_step (f, armed) ev in
  element_wf st.1 ∧ (st.2 = true ↔ ef_state st.1 = E_Powered).
Proof.
  intros Hwf Harm. pose proof (element_wf_dispatch f ev Hwf) as Hwf'. revert Hwf'.
  unfold element_timer_step. rewrite ElementFsm_dispatch_spec by done.
  destruct (element_spec _ _ _) as [[[s' fc'] hooks]|] eqn:Hsp; cbn.
  - intros Hwf'. split; [done|]. rewrite timer_after_change.
    destruct f as [[id fc ? ? ?] [] ?], ev as [[] t p]; cbn in *;
      repeat case_decide; simplify_eq/=; try done.
    all: destruct armed; naive_solver.
  - intros _. split; [done|].
    destruct f as [[id fc ? ? ?] [] ?], ev as [[] t p]; cbn in *;
      repeat case_decide; simplify_eq/=; try done.
Qed.

(** ** Properties of the element FSM *)

(** Every sequence of events keeps the element well formed and its timer
    armed exactly while it waits for boot-complete. *)
Theorem element_invariant id evs :
  let f := ElementFsm_setHooks (ElementFsm_make id) in
  let st := run element_timer_step (f, false) evs in
  (ec_faultCode (ef_ctx st.1) = FC_None ↔ ef_state st.1 ≠ E_Fault) ∧
  (ef_seenPgHi st.1 = false → ef_state st.1 = E_Stby) ∧
  (st.2 = true ↔ ef_state st.1 = E_Powered).
Proof.
  cbn zeta. set (f := ElementFsm_setHooks _).
  assert (element_wf (run element_timer_step (f, false) evs).1 ∧
    ((run element_timer_step (f, false) evs).2 = true ↔
     ef_state (run element_timer_step (f, false) evs).1 = E_Powered)) as [[] ?]; [|done].
  apply (run_invariant _
    (λ st, element_wf st.1 ∧ (st.2 = true ↔ ef_state st.1 = E_Powered)) (λ _, True)).
  - split; [apply element_wf_make|done].
  - by apply Forall_true.
  - intros [g armed] ev [Hwf Harm] _. by apply element_timer_step_inv.
Qed.

Lemma element_run_cons f ev evs :
  element_run f (ev :: evs) = element_run (ElementFsm_dispatch f ev).1.1 evs.
Proof. done. Qed.

Lemma ElementFsm_dispatch_state f ev :
  element_wf f →
  ef_state (ElementFsm_dispatch f ev).1.1 =
    match element_spec (ef_state f) (ec_faultCode (ef_ctx f)) (kind ev) with
    | Some (s', _, _) => s' | None => ef_state f
    end.
Proof.
  intros Hwf. rewrite ElementFsm_dispatch_spec by done.
  by destruct (element_spec _ _ _) as [[[? ?] ?]|].
Qed.

Lemma ElementFsm_dispatch_fault f ev :
  element_wf f →
  ec_faultCode (ef_ctx (ElementFsm_dispatch f ev).1.1) =
    match element_spec (ef_state f) (ec_faultCode (ef_ctx f)) (kind ev) with
    | Some (_, fc', _) => fc' | None => ec_faultCode (ef_ctx f)
    end.
Proof.
  intros Hwf. rewrite ElementFsm_dispatch_spec by done.
  by destruct (element_spec _ _ _) as [[[? ?] ?]|].
Qed.



(** An element in S_FAULT after a power-good drop, or powered down since. *)
Definition unpowered (f : ElementFsm) : Prop :=
  ef_state f = E_Stby ∨
  ef_state f = E_Fault ∧ ec_faultCode (ef_ctx f) = PgoodDrop.

Lemma unpowered_step f ev :
  element_wf f → unpowered f → kind ev ≠ PgHi → kind ev ≠ RstAsserted →
  unpowered (ElementFsm_dispatch f ev).1.1.
Proof.
  intros Hwf Hun H1 H2. unfold unpowered.
  rewrite ElementFsm_dispatch_state, ElementFsm_dispatch_fault by done.
  destruct Hun as [Hs|[Hs Hfc]]; rewrite Hs, ?Hfc; destruct (kind ev); cbn; try tauto.
Qed.

(** An element that is unpowered, or faulted by a power-good drop, stays so
    whatever happens, until a power-good edge or a reset. *)
Theorem pgood_drop_needs_power f evs :
  element_wf f → unpowered f →
  Forall (λ ev, kind ev ≠ PgHi ∧ kind ev ≠ RstAsserted) evs →
  unpowered (element_run f evs).
Proof.
  intros Hwf Hun Hevs.
  apply (run_invariant _ (λ f, element_wf f ∧ unpowered f)
    (λ ev, kind ev ≠ PgHi ∧ kind ev ≠ RstAsserted)); [done|done|].
  intros g ev [? ?] [? ?]. split; [by apply element_wf_dispatch|by apply unpowered_step].
Qed.

(** An LPU driven online, then hit by a power-good drop. *)
Definition dropped_lpu : ElementFsm :=
  element_run (ElementFsm_setHooks (ElementFsm_make (mkInstanceId Lpu 0)))
    (map (λ k, event k (mkInstanceId Lpu 0)) [PgHi; BcHi; PgLo]).

Example pgood_drop_needs_power_witness :
  unpowered (element_run dropped_lpu
    (map (λ k, event k (mkInstanceId Lpu 0)) [BcHi; BcLo; BcHi; RstReleased; BcHi])).
Proof.
  apply pgood_drop_needs_power.
  - apply element_wf_run, element_wf_make.
  - by right.
  - by repeat constructor.
Defined.

(** S_ONLINE is entered on boot-complete only, from a boot in progress or from
    a fault whose power never dropped. *)
Theorem online_entry f ev :
  element_wf f → ef_state f ≠ E_Online →
  ef_state (ElementFsm_dispatch f ev).1.1 = E_Online →
  kind ev = BcHi ∧
  (ef_state f = E_Powered ∨
   ef_state f = E_Fault ∧
   (ec_faultCode (ef_ctx f) = BootTimeout ∨ ec_faultCode (ef_ctx f) = BootRegress)).
Proof.
  intros Hwf Hne. rewrite ElementFsm_dispatch_state by done.
  destruct (kind ev), (ef_state f) eqn:Hs; cbn; repeat case_decide; try done.
  all: naive_solver.
Qed.

Example online_entry_witness :
  let f := element_run (ElementFsm_setHooks (ElementFsm_make (mkInstanceId Fpga 0)))
             [event PgHi (mkInstanceId Fpga 0)] in
  kind (event BcHi (mkInstanceId Fpga 0)) = BcHi ∧
  (ef_state f = E_Powered ∨
   ef_state f = E_Fault ∧
   (ec_faultCode (ef_ctx f) = BootTimeout ∨ ec_faultCode (ef_ctx f) = BootRegress)).
Proof.
  apply (online_entry (element_run (ElementFsm_setHooks (ElementFsm_make (mkInstanceId Fpga 0)))
             [event PgHi (mkInstanceId Fpga 0)]) (event BcHi (mkInstanceId Fpga 0)));
    [apply element_wf_run, element_wf_make|done|done].
Defined.

(** Recovery: from every state a power cycle followed by boot-complete brings
    the element online, and so does a reset from every powered state. *)
Theorem element_recovers f t1 t2 t3 :
  element_wf f →
  ef_state (element_run f [event PgLo t1; event PgHi t2; event BcHi t3]) = E_Online ∧
  (ef_state f ≠ E_Stby →
   ef_state (element_run f [event RstAsserted t1; event RstReleased t2; event BcHi t3])
     = E_Online).
Proof.
  intros Hwf. rewrite !element_run_cons. cbn [element_run run foldl].
  rewrite !ElementFsm_dispatch_state by auto using element_wf_dispatch. cbn [kind event].
  destruct (ef_state f); cbn; split; done.
Qed.

Example element_recovers_witness :
  let lpu := mkInstanceId Lpu 0 in
  ef_state (element_run dropped_lpu [event PgLo lpu; event PgHi lpu; event BcHi lpu])
    = E_Online ∧
  (ef_state dropped_lpu ≠ E_Stby →
   ef_state (element_run dropped_lpu
     [event RstAsserted lpu; event RstReleased lpu; event BcHi lpu]) = E_Online).
Proof. apply element_recovers. apply element_wf_run, element_wf_make. Defined.

(** A reset that is never released: only the release or a power-down leaves
    S_RESETTING. *)
Lemma resetting_stays f ev :
  element_wf f → ef_state f = E_Resetting →
  kind ev ≠ RstReleased → kind ev ≠ PgLo →
  ef_state (ElementFsm_dispatch f ev).1.1 = E_Resetting.
Proof.
  intros Hwf Hs H1 H2. rewrite ElementFsm_dispatch_state by done. rewrite Hs.
  by destruct (kind ev).
Qed.
