(* ===== verification/ModuleFsm.v ===== *)
(** * The Module FSM

    One instance per LPU module (pwrseq-monitor/src/module_fsm.cpp,
    pwrseq-monitor/include/fsm/module_fsm.hpp): an aggregator over exactly two
    child elements. [ModuleFsm_dispatch] records the child state the event
    carries and only then runs the transition table, whose guards look at the
    event's child or at both recorded states.

    The theorems say what an event does to each aggregate state, and what the
    aggregate says about the children: S_ONLINE is entered only with both
    children online.  Two more show where it does not keep saying it: a module
    stays online while a child powers down during its reset, and a module
    built with one child in both slots never comes online. *)

From S2P Require Import Prelude Types FsmEngine.

(** The call the FSM makes to its owner. *)
Inductive ModuleHook := OnModuleStateChange (oldState newState : ModuleState).

(** [pwrseq-monitor/include/fsm/module_fsm.hpp:25-35 ModuleContext] The two
    arrays of two entries are lists; [module_wf] states their length. *)
Record ModuleContext := mkModuleContext {
  mc_id : InstanceId;
  mc_childIds : list InstanceId;
  mc_childStates : list ElementState;
  mc_onStateChange : bool;
}.

(** [pwrseq-monitor/include/fsm/module_fsm.hpp:44-89 ModuleFsm] *)
Record ModuleFsm := mkModuleFsm {
  mf_ctx : ModuleContext;
  mf_state : ModuleState;
}.

Abbreviation ModuleRow := (TransitionRow ModuleState ModuleContext ModuleHook).

(** ** Guards *)

(** [pwrseq-monitor/src/module_fsm.cpp:39-43 eventChildHasState] *)
Definition eventChildHasState (ev : SemanticEvent) (s : ElementState) : bool :=
  match payload ev with
  | ChildElementPayload _ newState => bool_decide (newState = s)
  | _ => false
  end.

(** [pwrseq-monitor/src/module_fsm.cpp:45-49 allChildrenAre] *)
Definition allChildrenAre (ctx : ModuleContext) (s : ElementState) : bool :=
  all_of (λ x, bool_decide (x = s)) (mc_childStates ctx).

(** [pwrseq-monitor/src/module_fsm.cpp:55-58 eventChildPowered] *)
Definition eventChildPowered (_ : ModuleContext) (ev : SemanticEvent) : bool :=
  eventChildHasState ev E_Powered.

(** [pwrseq-monitor/src/module_fsm.cpp:59-62 eventChildFault] *)
Definition eventChildFault (_ : ModuleContext) (ev : SemanticEvent) : bool :=
  eventChildHasState ev E_Fault.

(** [pwrseq-monitor/src/module_fsm.cpp:63-66 allOnline] *)
Definition allOnline (ctx : ModuleContext) (_ : SemanticEvent) : bool :=
  allChildrenAre ctx E_Online.

(** [pwrseq-monitor/src/module_fsm.cpp:67-70 allResetting] *)
Definition allResetting (ctx : ModuleContext) (_ : SemanticEvent) : bool :=
  allChildrenAre ctx E_Resetting.

(** [pwrseq-monitor/src/module_fsm.cpp:71-74 allStby] *)
Definition allStby (ctx : ModuleContext) (_ : SemanticEvent) : bool :=
  allChildrenAre ctx E_Stby.

(** [pwrseq-monitor/src/module_fsm.cpp:76-128 table] *)
Definition moduleFsmTable : list ModuleRow := [
  (* from M_STBY *)
  Row M_Stby LpuStateChanged (Some eventChildPowered) M_Powered None;
  (* from M_POWERED *)
  Row M_Powered LpuStateChanged (Some eventChildFault) M_Fault None;
  Row M_Powered LpuStateChanged (Some allOnline) M_Online None;
  (* from M_ONLINE *)
  Row M_Online LpuStateChanged (Some eventChildFault) M_Fault None;
  Row M_Online LpuStateChanged (Some allResetting) M_Resetting None;
  Row M_Online LpuStateChanged (Some eventChildPowered) M_Powered None;
  (* from M_RESETTING *)
  Row M_Resetting LpuStateChanged (Some eventChildFault) M_Fault None;
  Row M_Resetting LpuStateChanged (Some eventChildPowered) M_Powered None;
  Row M_Resetting LpuStateChanged (Some allStby) M_Stby None;
  (* from M_FAULT *)
  Row M_Fault LpuStateChanged (Some allOnline) M_Online None;
  Row M_Fault LpuStateChanged (Some eventChildPowered) M_Powered None;
  Row M_Fault LpuStateChanged (Some allStby) M_Stby None
].

(** ** Operations *)

(** [pwrseq-monitor/src/module_fsm.cpp:132-139 ModuleFsm::ModuleFsm] *)
Definition ModuleFsm_make (moduleId childA childB : InstanceId) : ModuleFsm :=
  mkModuleFsm
    (mkModuleContext moduleId [childA; childB] [E_Stby; E_Stby] false) M_Stby.

(** [pwrseq-monitor/include/fsm/module_fsm.hpp:75-78 setOnStateChange] *)
Definition ModuleFsm_setOnStateChange (f : ModuleFsm) : ModuleFsm :=
  {| f with mf_ctx := {| (mf_ctx f) with mc_onStateChange := true |} |}.

(** [pwrseq-monitor/src/module_fsm.cpp:141-182 ModuleFsm::dispatch] *)
Definition ModuleFsm_dispatch (f : ModuleFsm) (ev : SemanticEvent)
    : ModuleFsm * list ModuleHook * bool :=
  if decide (kind ev ≠ LpuStateChanged) then (f, [], false) else
  match payload ev with
  | ChildElementPayload child newState =>
      match find_if (λ i, bool_decide (i = child)) (mc_childIds (mf_ctx f)) with
      | None => (f, [], false)
      | Some (slot, _) =>
          let ctx := {| (mf_ctx f) with
            mc_childStates := <[slot:=newState]> (mc_childStates (mf_ctx f)) |} in
          let prev := mf_state f in
          let '(now, ctx', hooks, fired) :=
            FsmEngine_dispatch moduleFsmTable prev ctx ev in
          (mkModuleFsm ctx' now,
           if fired then
             hooks ++ (if bool_decide (now ≠ prev) && mc_onStateChange ctx'
                       then [OnModuleStateChange prev now] else [])
           else hooks,
           fired)
      end
  | _ => (f, [], false)
  end.

(** ** What an event does to the aggregate *)

(** The reaction to a child that reached [s], the recorded states being [l]. *)
Definition module_next (m : ModuleState) (s : ElementState) (l : list ElementState)
    : option ModuleState :=
  let all x := bool_decide (Forall (λ y, y = x) l) in
  match m with
  | M_Stby => if decide (s = E_Powered) then Some M_Powered else None
  | M_Powered =>
      if decide (s = E_Fault) then Some M_Fault
      else if all E_Online then Some M_Online else None
  | M_Online =>
      if decide (s = E_Fault) then Some M_Fault
      else if all E_Resetting then Some M_Resetting
      else if decide (s = E_Powered) then Some M_Powered else None
  | M_Resetting =>
      if decide (s = E_Fault) then Some M_Fault
      else if decide (s = E_Powered) then Some M_Powered
      else if all E_Stby then Some M_Stby else None
  | M_Fault =>
      if all E_Online then Some M_Online
      else if decide (s = E_Powered) then Some M_Powered
      else if all E_Stby then Some M_Stby else None
  end.

Lemma allChildrenAre_decide ctx s :
  allChildrenAre ctx s = bool_decide (Forall (λ y, y = s) (mc_childStates ctx)).
Proof. apply all_of_decide. Qed.

(** A module with two distinct children; the callback is registered. *)
Record module_wf (f : ModuleFsm) : Prop := {
  mwf_ids : ∃ a b, a ≠ b ∧ mc_childIds (mf_ctx f) = [a; b];
  mwf_states : length (mc_childStates (mf_ctx f)) = 2%nat;
  mwf_change : mc_onStateChange (mf_ctx f) = true;
}.

(** The event that tells a module its child reached a state. *)
Definition child_event (m child : InstanceId) (s : ElementState) : SemanticEvent :=
  mkEvent LpuStateChanged m (ChildElementPayload child s).

Lemma module_table_next ctx m t child s :
  FsmEngine_dispatch moduleFsmTable m ctx (child_event t child s) =
    match module_next m s (mc_childStates ctx) with
    | Some m' => (m', ctx, [], true)
    | None => (m, ctx, [], false)
    end.
Proof.
  assert (∀ x, eventChildHasState (child_event t child s) x = bool_decide (s = x)) as Hs by done.
  destruct m;
    cbv -[eventChildHasState allChildrenAre module_next child_event mc_childStates];
    rewrite ?allChildrenAre_decide, ?Hs; unfold module_next;
    repeat (case_bool_decide || case_decide); done.
Qed.

(** A module reached by its child's event: the slot is overwritten first, then
    the aggregate moves. *)
Lemma ModuleFsm_dispatch_child f t child slot s :
  list_find (λ i, i = child) (mc_childIds (mf_ctx f)) = Some (slot, child) →
  mc_onStateChange (mf_ctx f) = true →
  let l := <[slot:=s]> (mc_childStates (mf_ctx f)) in
  let m := mf_state f in
  ModuleFsm_dispatch f (child_event t child s) =
    match module_next m s l with
    | Some m' => (mkModuleFsm {| (mf_ctx f) with mc_childStates := l |} m',
                  if decide (m' = m) then [] else [OnModuleStateChange m m'], true)
    | None => (mkModuleFsm {| (mf_ctx f) with mc_childStates := l |} m, [], false)
    end.
Proof.
  intros Hf Hcb. cbn zeta. unfold ModuleFsm_dispatch. cbn [kind child_event payload].
  rewrite decide_False by naive_solver.
  replace (find_if _ _) with (Some (slot, child)).
  - rewrite module_table_next. cbn [mc_childStates].
    destruct (module_next _ _ _); [|done]. cbn. rewrite Hcb, andb_true_r.
    by case_bool_decide; case_decide.
  - rewrite <-Hf. unfold find_if. apply list_find_ext. intros x.
    rewrite bool_decide_eq_true. done.
Qed.

(** An event that is not a child's: another kind, another payload, or a child
    of another module. *)
Definition module_foreign (f : ModuleFsm) (ev : SemanticEvent) : Prop :=
  kind ev ≠ LpuStateChanged ∨
  (∀ c s, payload ev ≠ ChildElementPayload c s) ∨
  (∃ c s, payload ev = ChildElementPayload c s ∧ c ∉ mc_childIds (mf_ctx f)).

Lemma ModuleFsm_dispatch_foreign f ev :
  module_foreign f ev → ModuleFsm_dispatch f ev = (f, [], false).
Proof.
  intros Hfor. unfold ModuleFsm_dispatch. case_decide; [done|].
  destruct (payload ev) as [|c s|c s] eqn:Hp; try done.
  destruct Hfor as [?|[Hn|(c' & s' & Heq & Hin)]]; [done|by destruct (Hn c s)|].
  rewrite Hp in Heq. injection Heq as -> ->. unfold find_if.
  destruct (list_find _ _) as [[i x]|] eqn:Hf; [|done].
  apply list_find_Some in Hf as (Hl & Hx & _). rewrite bool_decide_eq_true in Hx. subst.
  exfalso. apply Hin. revert Hl. apply list_elem_of_lookup_2.
Qed.

(** Every dispatch is one of the two: foreign, or a child's. *)
Lemma ModuleFsm_dispatch_cases f ev :
  module_foreign f ev ∨
  ∃ child slot s, ev = child_event (target ev) child s ∧
    list_find (λ i, i = child) (mc_childIds (mf_ctx f)) = Some (slot, child).
Proof.
  destruct (decide (kind ev = LpuStateChanged)) as [Hk|]; [|by left; left].
  destruct ev as [k t p]; cbn in *; subst. destruct p as [|c s|c s].
  - left; right; left. done.
  - destruct (list_find (λ i, i = c) (mc_childIds (mf_ctx f))) as [[i x]|] eqn:Hf.
    + right. exists c, i, s. split; [done|].
      by apply list_find_Some in Hf as Hf'; destruct Hf' as (_ & -> & _).
    + left; right; right. exists c, s. split; [done|]. intros Hin.
      apply list_find_None in Hf. rewrite Forall_forall in Hf. by apply (Hf c).
  - left; right; left. done.
Qed.

Lemma ModuleFsm_dispatch_ctx f ev :
  let f' := (ModuleFsm_dispatch f ev).1.1 in
  mc_onStateChange (mf_ctx f) = true →
  mc_id (mf_ctx f') = mc_id (mf_ctx f) ∧
  mc_childIds (mf_ctx f') = mc_childIds (mf_ctx f) ∧
  length (mc_childStates (mf_ctx f')) = length (mc_childStates (mf_ctx f)) ∧
  mc_onStateChange (mf_ctx f') = true.
Proof.
  cbn zeta. intros Hcb.
  destruct (ModuleFsm_dispatch_cases f ev) as [Hfor|(c & i & s & -> & Hf)].
  - by rewrite ModuleFsm_dispatch_foreign.
  - rewrite (ModuleFsm_dispatch_child _ _ _ _ _ Hf Hcb).
    destruct (module_next _ _ _); cbn; by rewrite length_insert.
Qed.

Lemma module_wf_dispatch f ev : module_wf f → module_wf (ModuleFsm_dispatch f ev).1.1.
Proof.
  intros [Hids Hlen Hcb]. destruct (ModuleFsm_dispatch_ctx f ev Hcb) as (? & Hc & Hl & ?).
  split; [by rewrite Hc|by rewrite Hl|done].
Qed.

Lemma module_wf_make m a b :
  a ≠ b → module_wf (ModuleFsm_setOnStateChange (ModuleFsm_make m a b)).
Proof. intros. split; [by exists a, b|done|done]. Qed.

(** ** Properties of the module FSM *)

(** A dispatch to a module, on every branch: an event that names no child of
    the module is ignored; otherwise the child's state is recorded first, and
    the aggregate moves, with one report if it changes, as the recorded
    children call for. *)
Theorem module_dispatch_functional f ev :
  mc_onStateChange (mf_ctx f) = true →
  (module_foreign f ev ∧ ModuleFsm_dispatch f ev = (f, [], false)) ∨
  ∃ child slot s,
    payload ev = ChildElementPayload child s ∧
    list_find (λ i, i = child) (mc_childIds (mf_ctx f)) = Some (slot, child) ∧
    let l := <[slot:=s]> (mc_childStates (mf_ctx f)) in
    let '(f', hooks, fired) := ModuleFsm_dispatch f ev in
    mc_childStates (mf_ctx f') = l ∧
    match module_next (mf_state f) s l with
    | Some m' => fired = true ∧ mf_state f' = m' ∧
        hooks = (if decide (m' = mf_state f) then []
                 else [OnModuleStateChange (mf_state f) m'])
    | None => fired = false ∧ mf_state f' = mf_state f ∧ hooks = []
    end.
Proof.
  intros Hcb. destruct (ModuleFsm_dispatch_cases f ev) as [Hfor|(c & i & s & Hev & Hf)].
  - left. by rewrite ModuleFsm_dispatch_foreign.
  - right. exists c, i, s. destruct ev as [k t p]. injection Hev as -> ->.
    fold (child_event t c s). rewrite (ModuleFsm_dispatch_child _ _ _ _ _ Hf Hcb).
    split; [done|]. split; [done|]. cbn zeta. destruct (module_next _ _ _); cbn; split_and!; done.
Qed.

(** The module of the witnesses: LPU 0 and LPU 1. *)
Definition module01 : ModuleFsm :=
  ModuleFsm_setOnStateChange
    (ModuleFsm_make (mkInstanceId Module_ 0) (mkInstanceId Lpu 0) (mkInstanceId Lpu 1)).

(** The module after events of its children. *)
Definition module_run (f : ModuleFsm) (evs : list SemanticEvent) : ModuleFsm :=
  run (λ f ev, (ModuleFsm_dispatch f ev).1.1) f evs.

(** The events of a list of (child, new state). *)
Definition child_events (m : InstanceId) (l : list (InstanceId * ElementState))
    : list SemanticEvent := map (λ '(c, s), child_event m c s) l.

Example module_dispatch_functional_witness :
  let ev := child_event (mkInstanceId Module_ 0) (mkInstanceId Lpu 1) E_Powered in
  (module_foreign module01 ev ∧ ModuleFsm_dispatch module01 ev = (module01, [], false)) ∨
  ∃ child slot s,
    payload ev = ChildElementPayload child s ∧
    list_find (λ i, i = child) (mc_childIds (mf_ctx module01)) = Some (slot, child) ∧
    let l := <[slot:=s]> (mc_childStates (mf_ctx module01)) in
    let '(f', hooks, fired) := ModuleFsm_dispatch module01 ev in
    mc_childStates (mf_ctx f') = l ∧
    match module_next (mf_state module01) s l with
    | Some m' => fired = true ∧ mf_state f' = m' ∧
        hooks = (if decide (m' = mf_state module01) then []
                 else [OnModuleStateChange (mf_state module01) m'])
    | None => fired = false ∧ mf_state f' = mf_state module01 ∧ hooks = []
    end.
Proof. exact (module_dispatch_functional module01 _ eq_refl). Defined.

(** The aggregate moves to M_ONLINE only when both children are online, and to
    M_FAULT only on a child's fault. *)
Theorem module_entry f ev :
  module_wf f →
  let f' := (ModuleFsm_dispatch f ev).1.1 in
  mf_state f' ≠ mf_state f →
  (mf_state f' = M_Online → mc_childStates (mf_ctx f') = [E_Online; E_Online]) ∧
  (mf_state f' = M_Stby → mc_childStates (mf_ctx f') = [E_Stby; E_Stby]) ∧
  (mf_state f' = M_Resetting → mc_childStates (mf_ctx f') = [E_Resetting; E_Resetting]) ∧
  (mf_state f' = M_Fault → ∃ child, payload ev = ChildElementPayload child E_Fault).
Proof.
  intros [_ Hlen Hcb]. cbn zeta.
  destruct (ModuleFsm_dispatch_cases f ev) as [Hfor|(c & i & s & -> & Hf)].
  { by rewrite ModuleFsm_dispatch_foreign. }
  rewrite (ModuleFsm_dispatch_child _ _ _ _ _ Hf Hcb).
  rewrite <-(length_insert _ i s) in Hlen.
  destruct (<[i:=s]> _) as [|x [|y [|]]] eqn:Hl; try done.
  destruct (module_next _ _ _) as [m'|] eqn:Hn; cbn; [|done]. intros Hne.
  destruct (mf_state f); cbn in Hn; repeat (case_bool_decide || case_decide);
    simplify_eq; decompose_Forall; subst; split_and!; try done; eauto.
Qed.

Example module_entry_witness :
  let f := module_run module01 (child_events (mkInstanceId Module_ 0)
             [(mkInstanceId Lpu 0, E_Powered); (mkInstanceId Lpu 1, E_Powered);
              (mkInstanceId Lpu 0, E_Online)]) in
  let ev := child_event (mkInstanceId Module_ 0) (mkInstanceId Lpu 1) E_Online in
  let f' := (ModuleFsm_dispatch f ev).1.1 in
  (mf_state f' = M_Online → mc_childStates (mf_ctx f') = [E_Online; E_Online]) ∧
  (mf_state f' = M_Stby → mc_childStates (mf_ctx f') = [E_Stby; E_Stby]) ∧
  (mf_state f' = M_Resetting → mc_childStates (mf_ctx f') = [E_Resetting; E_Resetting]) ∧
  (mf_state f' = M_Fault → ∃ child, payload ev = ChildElementPayload child E_Fault).
Proof.
  apply module_entry.
  - apply (run_invariant _ module_wf (λ _, True)); auto using module_wf_dispatch.
    + by apply module_wf_make.
    + by repeat constructor.
  - done.
Defined.

(** A module whose two slots name the same child only ever fills the first. *)
Lemma single_child_inv m a evs :
  let f := module_run (ModuleFsm_setOnStateChange (ModuleFsm_make m a a)) evs in
  mc_childIds (mf_ctx f) = [a; a] ∧ mc_onStateChange (mf_ctx f) = true ∧
  (∃ s, mc_childStates (mf_ctx f) = [s; E_Stby]) ∧ mf_state f ≠ M_Online.
Proof.
  cbn zeta. apply (run_invariant _ (λ f, mc_childIds (mf_ctx f) = [a; a] ∧
    mc_onStateChange (mf_ctx f) = true ∧
    (∃ s, mc_childStates (mf_ctx f) = [s; E_Stby]) ∧ mf_state f ≠ M_Online) (λ _, True)).
  - cbn. eauto.
  - by apply Forall_true.
  - intros f ev (Hids & Hcb & (s0 & Hst) & Hne) _.
    destruct (ModuleFsm_dispatch_cases f ev) as [Hfor|(c & i & s & -> & Hf)].
    { rewrite ModuleFsm_dispatch_foreign by done. eauto. }
    rewrite (ModuleFsm_dispatch_child _ _ _ _ _ Hf Hcb).
    rewrite Hids in Hf. cbn in Hf. repeat case_decide; simplify_eq/=; rewrite Hst; cbn.
    destruct (module_next _ _ _) as [m'|] eqn:Hn; cbn; split_and!; eauto.
    destruct (mf_state f); cbn in Hn; repeat (case_bool_decide || case_decide);
      simplify_eq; try done; decompose_Forall; done.
Qed.

(** The orchestrator builds a one-element module with that element in both
    slots; whatever its child reports, such a module never comes online. *)
Theorem single_child_never_online m a evs :
  mf_state (module_run (ModuleFsm_setOnStateChange (ModuleFsm_make m a a)) evs) ≠ M_Online.
Proof. apply single_child_inv. Qed.

(** A child that is reset and then loses power leaves its module online with
    an unpowered child. *)
Theorem module_online_wedge f t a b :
  a ≠ b → mc_childIds (mf_ctx f) = [a; b] → mc_onStateChange (mf_ctx f) = true →
  mf_state f = M_Online → mc_childStates (mf_ctx f) = [E_Online; E_Online] →
  let f' := module_run f (child_events t [(a, E_Resetting); (a, E_Stby)]) in
  mf_state f' = M_Online ∧ mc_childStates (mf_ctx f') = [E_Stby; E_Online].
Proof.
  intros Hab Hids Hcb Hs Hl. cbn zeta. unfold module_run, child_events, run. cbn [map foldl].
  assert (list_find (λ i, i = a) [a; b] = Some (0%nat, a)) as Hfind.
  { cbn. by rewrite decide_True. }
  rewrite (ModuleFsm_dispatch_child f t a 0) by (by rewrite ?Hids).
  rewrite Hs, Hl. cbn [module_next insert list_insert].
  rewrite decide_False, bool_decide_false by (try by inversion 1; decompose_Forall).
  rewrite decide_False by done. cbn [fst].
  rewrite (ModuleFsm_dispatch_child _ t a 0) by (cbn; by rewrite ?Hids).
  done.
Qed.

Example module_online_wedge_witness :
  let f := module_run module01 (child_events (mkInstanceId Module_ 0)
             [(mkInstanceId Lpu 0, E_Powered); (mkInstanceId Lpu 1, E_Powered);
              (mkInstanceId Lpu 0, E_Online); (mkInstanceId Lpu 1, E_Online)]) in
  let f' := module_run f (child_events (mkInstanceId Module_ 0)
             [(mkInstanceId Lpu 0, E_Resetting); (mkInstanceId Lpu 0, E_Stby)]) in
  mf_state f' = M_Online ∧ mc_childStates (mf_ctx f') = [E_Stby; E_Online].
Proof.
  apply (module_online_wedge _ _ (mkInstanceId Lpu 0) (mkInstanceId Lpu 1)); done.
Defined.
