(* ===== verification/TrayFsm.v ===== *)
(** * The Tray FSM

    One instance per chassis (pwrseq-monitor/src/tray_fsm.cpp,
    pwrseq-monitor/include/fsm/tray_fsm.hpp): an aggregator over all modules
    and all FPGAs, with an operator-driven maintenance mode.

    [tray_next] is what an event does to the tray; the theorems say that the
    tray comes online only with every child online, that child updates are
    still recorded during maintenance, and that leaving maintenance picks the
    state the recorded children call for. *)

From S2P Require Import Prelude Types FsmEngine.

(** The call the FSM makes to its owner. *)
Inductive TrayHook := OnTrayStateChange (oldState newState : TrayState).

(** [pwrseq-monitor/include/fsm/tray_fsm.hpp:24-31 TrayContext] *)
Record TrayContext := mkTrayContext {
  tc_id : InstanceId;
  tc_moduleStates : list ModuleState;
  tc_fpgaStates : list ElementState;
  tc_onStateChange : bool;
}.

(** [pwrseq-monitor/include/fsm/tray_fsm.hpp:40-83 TrayFsm] *)
Record TrayFsm := mkTrayFsm {
  tf_ctx : TrayContext;
  tf_state : TrayState;
}.

Abbreviation TrayRow := (TransitionRow TrayState TrayContext TrayHook).

(** ** Guards *)

(** [pwrseq-monitor/src/tray_fsm.cpp:27-33 eventModuleHasState] *)
Definition eventModuleHasState (ev : SemanticEvent) (s : ModuleState) : bool :=
  if decide (kind ev ≠ ModuleStateChanged) then false else
  match payload ev with
  | ChildModulePayload _ newState => bool_decide (newState = s)
  | _ => false
  end.

(** [pwrseq-monitor/src/tray_fsm.cpp:35-41 eventFpgaHasState] *)
Definition eventFpgaHasState (ev : SemanticEvent) (s : ElementState) : bool :=
  if decide (kind ev ≠ FpgaStateChanged) then false else
  match payload ev with
  | ChildElementPayload _ newState => bool_decide (newState = s)
  | _ => false
  end.

(** [pwrseq-monitor/src/tray_fsm.cpp:43-47 allModulesOnline] *)
Definition allModulesOnline (ctx : TrayContext) : bool :=
  all_of (λ s, bool_decide (s = M_Online)) (tc_moduleStates ctx).

(** [pwrseq-monitor/src/tray_fsm.cpp:49-54 allFpgasOnline] *)
Definition allFpgasOnline (ctx : TrayContext) : bool :=
  all_of (λ s, bool_decide (s = E_Online)) (tc_fpgaStates ctx).

(** [pwrseq-monitor/src/tray_fsm.cpp:56-59 allChildrenOnline] *)
Definition allChildrenOnline (ctx : TrayContext) : bool :=
  allModulesOnline ctx && allFpgasOnline ctx.

(** [pwrseq-monitor/src/tray_fsm.cpp:65-72 eventChildPowered] *)
Definition eventChildPowered (_ : TrayContext) (ev : SemanticEvent) : bool :=
  eventModuleHasState ev M_Powered || eventFpgaHasState ev E_Powered.

(** [pwrseq-monitor/src/tray_fsm.cpp:74-79 eventChildFault] *)
Definition eventChildFault (_ : TrayContext) (ev : SemanticEvent) : bool :=
  eventModuleHasState ev M_Fault || eventFpgaHasState ev E_Fault.

(** [pwrseq-monitor/src/tray_fsm.cpp:81-86 allOnline] Also the guard
    [allChildrenOnlineGuard] of the maintenance-exit row. *)
Definition allOnline (ctx : TrayContext) (_ : SemanticEvent) : bool :=
  allChildrenOnline ctx.

(** [pwrseq-monitor/src/tray_fsm.cpp:88-91 always] *)
Definition always (_ : TrayContext) (_ : SemanticEvent) : bool := true.

(** [pwrseq-monitor/src/tray_fsm.cpp:132-148 anyChildFault] *)
Definition anyChildFault (ctx : TrayContext) (_ : SemanticEvent) : bool :=
  any_of (λ s, bool_decide (s = M_Fault)) (tc_moduleStates ctx) ||
  any_of (λ s, bool_decide (s = E_Fault)) (tc_fpgaStates ctx).

(** [pwrseq-monitor/src/tray_fsm.cpp:93-126 kTable] *)
Definition trayTable : list TrayRow := [
  (* from T_STBY *)
  Row T_Stby ModuleStateChanged (Some eventChildPowered) T_Booting None;
  Row T_Stby FpgaStateChanged (Some eventChildPowered) T_Booting None;
  (* from T_BOOTING *)
  Row T_Booting ModuleStateChanged (Some eventChildFault) T_Fault None;
  Row T_Booting FpgaStateChanged (Some eventChildFault) T_Fault None;
  Row T_Booting ModuleStateChanged (Some allOnline) T_Online None;
  Row T_Booting FpgaStateChanged (Some allOnline) T_Online None;
  (* from T_ONLINE *)
  Row T_Online ModuleStateChanged (Some eventChildFault) T_Fault None;
  Row T_Online FpgaStateChanged (Some eventChildFault) T_Fault None;
  Row T_Online OpMaintenanceEnter (Some always) T_Maintenance None;
  (* from T_FAULT *)
  Row T_Fault ModuleStateChanged (Some allOnline) T_Online None;
  Row T_Fault FpgaStateChanged (Some allOnline) T_Online None
].

(** [pwrseq-monitor/src/tray_fsm.cpp:149-193 kFullTable] The rows above, then
    the operator-reset and maintenance-exit rows. *)
Definition trayFsmTable : list TrayRow := trayTable ++ [
  Row T_Fault ModuleStateChanged (Some eventChildPowered) T_Booting None;
  Row T_Fault FpgaStateChanged (Some eventChildPowered) T_Booting None;
  Row T_Maintenance OpMaintenanceExit (Some anyChildFault) T_Fault None;
  Row T_Maintenance OpMaintenanceExit (Some allOnline) T_Online None;
  Row T_Maintenance OpMaintenanceExit (Some always) T_Booting None
].

(** ** Operations *)

(** [pwrseq-monitor/src/tray_fsm.cpp:197-204 TrayFsm::TrayFsm] *)
Definition TrayFsm_make (trayId : InstanceId) (numModules numFpgas : nat) : TrayFsm :=
  mkTrayFsm
    (mkTrayContext trayId (replicate numModules M_Stby) (replicate numFpgas E_Stby) false)
    T_Stby.

(** [pwrseq-monitor/include/fsm/tray_fsm.hpp:69-72 setOnStateChange] *)
Definition TrayFsm_setOnStateChange (f : TrayFsm) : TrayFsm :=
  {| f with tf_ctx := {| (tf_ctx f) with tc_onStateChange := true |} |}.

(** [pwrseq-monitor/src/tray_fsm.cpp:206-243 TrayFsm::dispatch] The switch
    that records the child state: [None] is its early return. *)
Definition TrayFsm_record (ctx : TrayContext) (ev : SemanticEvent) : option TrayContext :=
  match kind ev with
  | ModuleStateChanged =>
      match payload ev with
      | ChildModulePayload child newState =>
          if decide (index child < Z.of_nat (length (tc_moduleStates ctx))) then
            Some {| ctx with tc_moduleStates :=
              <[Z.to_nat (index child):=newState]> (tc_moduleStates ctx) |}
          else None
      | _ => None
      end
  | FpgaStateChanged =>
      match payload ev with
      | ChildElementPayload child newState =>
          if decide (index child < Z.of_nat (length (tc_fpgaStates ctx))) then
            Some {| ctx with tc_fpgaStates :=
              <[Z.to_nat (index child):=newState]> (tc_fpgaStates ctx) |}
          else None
      | _ => None
      end
  | OpMaintenanceEnter | OpMaintenanceExit => Some ctx
  | _ => None
  end.

(** [pwrseq-monitor/src/tray_fsm.cpp:206-256 TrayFsm::dispatch] *)
Definition TrayFsm_dispatch (f : TrayFsm) (ev : SemanticEvent)
    : TrayFsm * list TrayHook * bool :=
  match TrayFsm_record (tf_ctx f) ev with
  | None => (f, [], false)
  | Some ctx =>
      let prev := tf_state f in
      let '(now, ctx', hooks, fired) := FsmEngine_dispatch trayFsmTable prev ctx ev in
      (mkTrayFsm ctx' now,
       if fired then
         hooks ++ (if bool_decide (now ≠ prev) && tc_onStateChange ctx'
                   then [OnTrayStateChange prev now] else [])
       else hooks,
       fired)
  end.

(** ** What an event does to the tray *)

(** The child an event reports, by its effect on the tray. *)
Inductive child_news := NewsPowered | NewsFault | NewsOther | NewsEnter | NewsExit.

Definition news_of (ev : SemanticEvent) : option child_news :=
  match kind ev, payload ev with
  | ModuleStateChanged, ChildModulePayload _ s =>
      Some match s with M_Powered => NewsPowered | M_Fault => NewsFault | _ => NewsOther end
  | FpgaStateChanged, ChildElementPayload _ s =>
      Some match s with E_Powered => NewsPowered | E_Fault => NewsFault | _ => NewsOther end
  | OpMaintenanceEnter, _ => Some NewsEnter
  | OpMaintenanceExit, _ => Some NewsExit
  | _, _ => None
  end.

Definition is_child_news (n : child_news) : bool :=
  match n with NewsEnter | NewsExit => false | _ => true end.

(** Every child online; some child in fault. *)
Definition tray_online (ctx : TrayContext) : Prop :=
  Forall (λ s, s = M_Online) (tc_moduleStates ctx) ∧
  Forall (λ s, s = E_Online) (tc_fpgaStates ctx).

Definition tray_faulty (ctx : TrayContext) : Prop :=
  Exists (λ s, s = M_Fault) (tc_moduleStates ctx) ∨
  Exists (λ s, s = E_Fault) (tc_fpgaStates ctx).

#[export] Instance tray_online_dec ctx : Decision (tray_online ctx).
Proof. unfold tray_online. apply _. Defined.
#[export] Instance tray_faulty_dec ctx : Decision (tray_faulty ctx).
Proof. unfold tray_faulty. apply _. Defined.

(** The reaction to a piece of news, the recorded children being [ctx]. *)
Definition tray_next (t : TrayState) (n : child_news) (ctx : TrayContext)
    : option TrayState :=
  match t, n with
  | T_Stby, NewsPowered => Some T_Booting
  | (T_Booting | T_Online), NewsFault => Some T_Fault
  | T_Booting, (NewsPowered | NewsOther) =>
      if decide (tray_online ctx) then Some T_Online else None
  | T_Online, NewsEnter => Some T_Maintenance
  | T_Fault, (NewsPowered | NewsFault | NewsOther) =>
      if decide (tray_online ctx) then Some T_Online
      else match n with NewsPowered => Some T_Booting | _ => None end
  | T_Maintenance, NewsExit =>
      Some (if decide (tray_faulty ctx) then T_Fault
            else if decide (tray_online ctx) then T_Online else T_Booting)
  | _, _ => None
  end.

Lemma allOnline_decide ctx ev : allOnline ctx ev = bool_decide (tray_online ctx).
Proof.
  unfold allOnline, allChildrenOnline, allModulesOnline, allFpgasOnline, tray_online.
  rewrite !all_of_decide, <-bool_decide_and. by apply bool_decide_ext.
Qed.

Lemma anyChildFault_decide ctx ev : anyChildFault ctx ev = bool_decide (tray_faulty ctx).
Proof.
  unfold anyChildFault, tray_faulty.
  rewrite !any_of_decide, <-bool_decide_or. by apply bool_decide_ext.
Qed.

Lemma tray_table_next ctx t ev n :
  news_of ev = Some n →
  FsmEngine_dispatch trayFsmTable t ctx ev =
    match tray_next t n ctx with
    | Some t' => (t', ctx, [], true)
    | None => (t, ctx, [], false)
    end.
Proof.
  intros Hn. destruct ev as [k tg p]. unfold news_of in Hn.
  destruct k; cbn in Hn; try done; destruct p as [|c s|c s]; simplify_eq;
    try (destruct s); destruct t;
    cbv -[allOnline anyChildFault tray_next];
    rewrite ?allOnline_decide, ?anyChildFault_decide; unfold tray_next;
    repeat (case_bool_decide || case_decide); done.
Qed.

(** A dispatch records the child, then moves the tray. *)
Lemma TrayFsm_dispatch_news f ev :
  tc_onStateChange (tf_ctx f) = true →
  TrayFsm_dispatch f ev =
    match TrayFsm_record (tf_ctx f) ev with
    | None => (f, [], false)
    | Some ctx =>
        match news_of ev ≫= λ n, tray_next (tf_state f) n ctx with
        | Some t' => (mkTrayFsm ctx t',
            if decide (t' = tf_state f) then [] else [OnTrayStateChange (tf_state f) t'], true)
        | None => (mkTrayFsm ctx (tf_state f), [], false)
        end
    end.
Proof.
  intros Hcb. unfold TrayFsm_dispatch.
  destruct (TrayFsm_record (tf_ctx f) ev) as [ctx|] eqn:Hr; [|done].
  assert (tc_onStateChange ctx = true) as Hcb'.
  { revert Hr. unfold TrayFsm_record. repeat (case_match; try done); by intros [= <-]. }
  assert (∃ n, news_of ev = Some n) as [n Hn].
  { revert Hr. unfold TrayFsm_record, news_of. repeat (case_match; try done); eauto. }
  rewrite (tray_table_next _ _ _ n) by done. rewrite Hn. cbn [mbind option_bind].
  destruct (tray_next _ _ _) as [t'|]; [|done].
  rewrite Hcb', andb_true_r. cbn. by case_bool_decide; case_decide.
Qed.

(** ** Runs *)

Definition tray_run (f : TrayFsm) (evs : list SemanticEvent) : TrayFsm :=
  run (λ f ev, (TrayFsm_dispatch f ev).1.1) f evs.

(** A tray with its callback registered; its vectors keep their lengths. *)
Record tray_wf (nm nf : nat) (f : TrayFsm) : Prop := {
  twf_modules : length (tc_moduleStates (tf_ctx f)) = nm;
  twf_fpgas : length (tc_fpgaStates (tf_ctx f)) = nf;
  twf_change : tc_onStateChange (tf_ctx f) = true;
}.

Lemma tray_wf_make id nm nf :
  tray_wf nm nf (TrayFsm_setOnStateChange (TrayFsm_make id nm nf)).
Proof. split; cbn; by rewrite ?length_replicate. Qed.

Lemma TrayFsm_record_ctx ctx ev ctx' :
  TrayFsm_record ctx ev = Some ctx' →
  tc_id ctx' = tc_id ctx ∧ tc_onStateChange ctx' = tc_onStateChange ctx ∧
  length (tc_moduleStates ctx') = length (tc_moduleStates ctx) ∧
  length (tc_fpgaStates ctx') = length (tc_fpgaStates ctx).
Proof.
  unfold TrayFsm_record. intros Hr. repeat (case_match; try done);
    injection Hr as <-; cbn; rewrite ?length_insert; done.
Qed.

(** The context after a dispatch is what the record step left. *)
Lemma TrayFsm_dispatch_ctx f ev :
  tc_onStateChange (tf_ctx f) = true →
  tf_ctx (TrayFsm_dispatch f ev).1.1 = default (tf_ctx f) (TrayFsm_record (tf_ctx f) ev).
Proof.
  intros Hcb. rewrite TrayFsm_dispatch_news by done.
  destruct (TrayFsm_record _ _); [|done]. by destruct (news_of ev ≫= _).
Qed.

Lemma tray_wf_dispatch nm nf f ev :
  tray_wf nm nf f → tray_wf nm nf (TrayFsm_dispatch f ev).1.1.
Proof.
  intros [Hm Hf Hcb]. pose proof (TrayFsm_dispatch_ctx f ev Hcb) as Hc.
  destruct (TrayFsm_record _ _) as [ctx|] eqn:Hr; cbn in Hc.
  - apply TrayFsm_record_ctx in Hr as (_ & Hcb' & ? & ?).
    split; rewrite Hc; congruence.
  - split; by rewrite Hc.
Qed.

Lemma tray_wf_run nm nf f evs : tray_wf nm nf f → tray_wf nm nf (tray_run f evs).
Proof.
  intros. apply (run_invariant _ (tray_wf nm nf) (λ _, True)); auto using tray_wf_dispatch.
  by apply Forall_true.
Qed.

Lemma TrayFsm_dispatch_state f ev :
  tc_onStateChange (tf_ctx f) = true →
  tf_state (TrayFsm_dispatch f ev).1.1 =
    default (tf_state f)
      (ctx ← TrayFsm_record (tf_ctx f) ev; n ← news_of ev; tray_next (tf_state f) n ctx).
Proof.
  intros Hcb. rewrite TrayFsm_dispatch_news by done.
  destruct (TrayFsm_record _ _) as [ctx|]; [|done]. cbn [mbind option_bind].
  by destruct (news_of ev ≫= _).
Qed.

(** ** Properties of the tray FSM *)

(** A tray that changes to T_ONLINE has every recorded child online; one that
    changes to T_FAULT has just heard of a fault, or is leaving maintenance
    with a child in fault. *)
Theorem tray_entry f ev :
  tc_onStateChange (tf_ctx f) = true →
  let f' := (TrayFsm_dispatch f ev).1.1 in
  tf_state f' ≠ tf_state f →
  (tf_state f' = T_Online → tray_online (tf_ctx f')) ∧
  (tf_state f' = T_Fault →
     news_of ev = Some NewsFault ∨
     tf_state f = T_Maintenance ∧ kind ev = OpMaintenanceExit ∧ tray_faulty (tf_ctx f')) ∧
  (tf_state f' = T_Maintenance →
     tf_state f = T_Online ∧ kind ev = OpMaintenanceEnter).
Proof.
  intros Hcb. cbn zeta. rewrite TrayFsm_dispatch_state, TrayFsm_dispatch_ctx by done.
  destruct (TrayFsm_record _ _) as [ctx|]; [|done]. cbn.
  destruct (news_of ev) as [n|] eqn:Hn; [|done]. cbn.
  assert (n = NewsExit → kind ev = OpMaintenanceExit) as Hx.
  { intros ->. revert Hn. unfold news_of. repeat (case_match; try done). }
  assert (n = NewsEnter → kind ev = OpMaintenanceEnter) as Hen.
  { intros ->. revert Hn. unfold news_of. repeat (case_match; try done). }
  destruct (tf_state f), n; cbn; repeat case_decide; cbn; intros ?; split_and!; try done;
    intros _; auto.
Qed.

(** The tray of the witnesses: one module, one FPGA. *)
Definition tray11 : TrayFsm :=
  TrayFsm_setOnStateChange (TrayFsm_make (mkInstanceId Tray 0) 1 1).
Definition module_news (i : Z) (s : ModuleState) : SemanticEvent :=
  mkEvent ModuleStateChanged (mkInstanceId Tray 0)
    (ChildModulePayload (mkInstanceId Module_ i) s).
Definition fpga_news (i : Z) (s : ElementState) : SemanticEvent :=
  mkEvent FpgaStateChanged (mkInstanceId Tray 0)
    (ChildElementPayload (mkInstanceId Fpga i) s).

Example tray_entry_witness :
  let f := tray_run tray11 [module_news 0 M_Powered; module_news 0 M_Online;
                            fpga_news 0 E_Powered] in
  let ev := fpga_news 0 E_Online in
  let f' := (TrayFsm_dispatch f ev).1.1 in
  (tf_state f' = T_Online → tray_online (tf_ctx f')) ∧
  (tf_state f' = T_Fault →
     news_of ev = Some NewsFault ∨
     tf_state f = T_Maintenance ∧ kind ev = OpMaintenanceExit ∧ tray_faulty (tf_ctx f')) ∧
  (tf_state f' = T_Maintenance →
     tf_state f = T_Online ∧ kind ev = OpMaintenanceEnter).
Proof. apply tray_entry; done. Defined.

(** The recorded children after a run, whatever the tray's state. *)
Definition tray_record_run (ctx : TrayContext) (evs : list SemanticEvent) : TrayContext :=
  foldl (λ ctx ev, default ctx (TrayFsm_record ctx ev)) ctx evs.

Lemma tray_run_ctx nm nf f evs :
  tray_wf nm nf f → tf_ctx (tray_run f evs) = tray_record_run (tf_ctx f) evs.
Proof.
  intros Hwf. revert f Hwf. induction evs as [|ev evs IH]; intros f Hwf; [done|].
  change (tray_run f (ev :: evs)) with (tray_run (TrayFsm_dispatch f ev).1.1 evs).
  rewrite IH by auto using tray_wf_dispatch.
  rewrite TrayFsm_dispatch_ctx by apply Hwf. done.
Qed.

Lemma tray_maintenance_stays nm nf f evs :
  tray_wf nm nf f → tf_state f = T_Maintenance →
  Forall (λ ev, kind ev ≠ OpMaintenanceExit) evs →
  tf_state (tray_run f evs) = T_Maintenance.
Proof.
  intros Hwf Hs Hevs.
  apply (run_invariant _ (λ f, tray_wf nm nf f ∧ tf_state f = T_Maintenance)
    (λ ev, kind ev ≠ OpMaintenanceExit)); [done|done|].
  intros g ev [Hg Hgs] Hne. split; [by apply tray_wf_dispatch|].
  rewrite TrayFsm_dispatch_state by apply Hg. rewrite Hgs.
  destruct (TrayFsm_record _ _); [|done]. unfold news_of. cbn.
  repeat (case_match; try done).
Qed.

(** Maintenance: whatever the children do while it lasts is recorded, the tray
    stays in T_MAINTENANCE, and on exit it goes where the recorded children
    call for. *)
Theorem maintenance_exit_faithful nm nf f evs ex :
  tray_wf nm nf f → tf_state f = T_Maintenance →
  Forall (λ ev, kind ev ≠ OpMaintenanceExit) evs → kind ex = OpMaintenanceExit →
  let ctx := tray_record_run (tf_ctx f) evs in
  tf_state (tray_run f evs) = T_Maintenance ∧
  tf_ctx (tray_run f (evs ++ [ex])) = ctx ∧
  tf_state (tray_run f (evs ++ [ex])) =
    (if decide (tray_faulty ctx) then T_Fault
     else if decide (tray_online ctx) then T_Online else T_Booting).
Proof.
  intros Hwf Hs Hevs Hex. cbn zeta.
  pose proof (tray_maintenance_stays nm nf f evs Hwf Hs Hevs) as Hst.
  pose proof (tray_wf_run nm nf f evs Hwf) as Hwf'.
  pose proof (tray_run_ctx nm nf f evs Hwf) as Hctx.
  unfold tray_run in *. rewrite run_app. cbn [run foldl].
  rewrite TrayFsm_dispatch_ctx, TrayFsm_dispatch_state by apply Hwf'.
  unfold TrayFsm_record, news_of. rewrite Hex. cbn. unfold tray_run in *.
  rewrite Hst, Hctx. done.
Qed.

Example maintenance_exit_faithful_witness :
  let f := tray_run tray11 [module_news 0 M_Powered; fpga_news 0 E_Online;
             module_news 0 M_Online; event OpMaintenanceEnter (mkInstanceId Tray 0)] in
  let evs := [module_news 0 M_Fault; fpga_news 0 E_Powered] in
  let ex := event OpMaintenanceExit (mkInstanceId Tray 0) in
  let ctx := tray_record_run (tf_ctx f) evs in
  tf_state (tray_run f evs) = T_Maintenance ∧
  tf_ctx (tray_run f (evs ++ [ex])) = ctx ∧
  tf_state (tray_run f (evs ++ [ex])) =
    (if decide (tray_faulty ctx) then T_Fault
     else if decide (tray_online ctx) then T_Online else T_Booting).
Proof.
  apply (maintenance_exit_faithful 1 1).
  - apply tray_wf_run, tray_wf_make.
  - done.
  - by repeat constructor.
  - done.
Defined.

(** A module slot that no event ever reports stays in M_STBY. *)
Lemma silent_module_inv nm nf i evs f :
  tray_wf nm nf f → tc_moduleStates (tf_ctx f) !! i = Some M_Stby → tf_state f ≠ T_Online →
  Forall (λ ev, ∀ c s, payload ev = ChildModulePayload c s → Z.to_nat (index c) ≠ i) evs →
  tc_moduleStates (tf_ctx (tray_run f evs)) !! i = Some M_Stby ∧
  tf_state (tray_run f evs) ≠ T_Online.
Proof.
  intros Hwf Hi Hne Hevs.
  enough (tray_wf nm nf (tray_run f evs) ∧
    tc_moduleStates (tf_ctx (tray_run f evs)) !! i = Some M_Stby ∧
    tf_state (tray_run f evs) ≠ T_Online) by tauto.
  apply (run_invariant _ (λ f, tray_wf nm nf f ∧
    tc_moduleStates (tf_ctx f) !! i = Some M_Stby ∧ tf_state f ≠ T_Online)
    (λ ev, ∀ c s, payload ev = ChildModulePayload c s → Z.to_nat (index c) ≠ i));
    [done|done|].
  clear. intros f ev (Hwf & Hi & Hne) Hev. split; [by apply tray_wf_dispatch|].
  rewrite TrayFsm_dispatch_ctx, TrayFsm_dispatch_state by apply Hwf.
  assert (tc_moduleStates (default (tf_ctx f) (TrayFsm_record (tf_ctx f) ev)) !! i
    = Some M_Stby) as Hi'.
  { unfold TrayFsm_record. repeat (case_match; try done); cbn.
    rewrite list_lookup_insert_ne; [done|]. by eapply Hev. }
  split; [done|]. destruct (TrayFsm_record _ _) as [ctx|]; [|done]. cbn in *.
  destruct (news_of ev) as [n|]; [|done]. cbn.
  assert (¬ tray_online ctx) as Hno.
  { intros [Hm _]. rewrite Forall_lookup in Hm. by specialize (Hm _ _ Hi'). }
  destruct (tf_state f), n; cbn; repeat case_decide; done.
Qed.

(** A module slot whose FSM was never built (more than two or no elements in
    the descriptor) keeps the tray out of T_ONLINE for ever. *)
Theorem silent_module_blocks_tray id nm nf i evs :
  (i < nm)%nat →
  Forall (λ ev, ∀ c s, payload ev = ChildModulePayload c s → Z.to_nat (index c) ≠ i) evs →
  tf_state (tray_run (TrayFsm_setOnStateChange (TrayFsm_make id nm nf)) evs) ≠ T_Online.
Proof.
  intros Hi Hevs. apply (silent_module_inv nm nf i evs); [apply tray_wf_make| |done|done].
  cbn. by apply lookup_replicate.
Qed.

Example silent_module_blocks_tray_witness :
  tf_state (tray_run (TrayFsm_setOnStateChange (TrayFsm_make (mkInstanceId Tray 0) 2 0))
    [module_news 0 M_Powered; module_news 0 M_Online]) ≠ T_Online.
Proof.
  apply (silent_module_blocks_tray _ 2 0 1); [lia|].
  repeat constructor; intros c s; inversion 1; subst; cbn; lia.
Defined.
