(* ===== verification/Reporting.v ===== *)
(** * Status reporting

    The map from FSM states to the D-Bus Health and OperationalStatus values
    (pwrseq-monitor/src/reporting/state_mapper.cpp) and the reporter that
    writes them (pwrseq-monitor/src/reporting/resource_interfaces.cpp). The
    D-Bus objects are the map from object path to the last tuple written. *)

From S2P Require Import Prelude Types.

(** The values of the generated sdbusplus enumerations that the code names. *)
Inductive HealthType := Health_OK | Health_Critical.
Inductive StateType :=
| State_Enabled | State_Disabled | State_StandbyOffline | State_Starting
| State_UnavailableOffline.

(** [pwrseq-monitor/include/reporting/state_mapper.hpp:24-29 StatusTuple] *)
Record StatusTuple := mkStatusTuple {
  st_health : HealthType;
  st_state : StateType;
  st_functional : bool;
}.

(** [pwrseq-monitor/src/reporting/state_mapper.cpp:11-32 toStatus(ElementState)]
    [present] is not looked at. *)
Definition toStatus_element (s : ElementState) (present : bool) : StatusTuple :=
  if decide (s = E_Online) then mkStatusTuple Health_OK State_Enabled true
  else mkStatusTuple Health_OK State_Disabled false.

(** [pwrseq-monitor/src/reporting/state_mapper.cpp:34-50 toStatus(ModuleState)] *)
Definition toStatus_module (s : ModuleState) : StatusTuple :=
  match s with
  | M_Stby => mkStatusTuple Health_OK State_StandbyOffline false
  | M_Powered => mkStatusTuple Health_OK State_Starting false
  | M_Online => mkStatusTuple Health_OK State_Enabled true
  | M_Resetting => mkStatusTuple Health_OK State_StandbyOffline false
  | M_Fault => mkStatusTuple Health_Critical State_UnavailableOffline false
  end.

(** [pwrseq-monitor/src/reporting/state_mapper.cpp:52-68 toStatus(TrayState)] *)
Definition toStatus_tray (s : TrayState) : StatusTuple :=
  match s with
  | T_Stby => mkStatusTuple Health_OK State_StandbyOffline false
  | T_Booting => mkStatusTuple Health_OK State_Starting false
  | T_Online => mkStatusTuple Health_OK State_Enabled true
  | T_Fault => mkStatusTuple Health_Critical State_UnavailableOffline false
  | T_Maintenance => mkStatusTuple Health_OK State_StandbyOffline false
  end.

(** The objects on the bus. *)
Abbreviation StatusBus := (gmap string StatusTuple).

(** [pwrseq-monitor/include/reporting/resource_interfaces.hpp:77-92 Reporter::writeTuple_]
    The object is created on the first write, then its three properties are
    set. *)
Definition writeTuple_ (path : string) (t : StatusTuple) (bus : StatusBus) : StatusBus :=
  <[path := t]> bus.

(** [pwrseq-monitor/src/reporting/resource_interfaces.cpp:11-14 Reporter::applyStatus(ElementState)] *)
Definition applyStatus_element (path : string) (s : ElementState) (present : bool)
    (bus : StatusBus) : StatusBus := writeTuple_ path (toStatus_element s present) bus.

(** [pwrseq-monitor/src/reporting/resource_interfaces.cpp:16-19 Reporter::applyStatus(ModuleState)] *)
Definition applyStatus_module (path : string) (s : ModuleState)
    (bus : StatusBus) : StatusBus := writeTuple_ path (toStatus_module s) bus.

(** [pwrseq-monitor/src/reporting/resource_interfaces.cpp:21-24 Reporter::applyStatus(TrayState)] *)
Definition applyStatus_tray (path : string) (s : TrayState)
    (bus : StatusBus) : StatusBus := writeTuple_ path (toStatus_tray s) bus.

(** [functional] is written true exactly for an online resource. *)
Lemma toStatus_functional :
  (∀ s p, st_functional (toStatus_element s p) = true ↔ s = E_Online) ∧
  (∀ s, st_functional (toStatus_module s) = true ↔ s = M_Online) ∧
  (∀ s, st_functional (toStatus_tray s) = true ↔ s = T_Online).
Proof. split_and!; intros []; cbn; naive_solver. Qed.
