(* ===== verification/SubscriberList.v ===== *)
(** * Subscriber lists, and the latch of boot-complete

    pwrseq-monitor/include/hal/subscriber_list.hpp: an ordered list of callbacks with
    slot identifiers. [notify] runs a snapshot of the list, so a callback that
    subscribes or unsubscribes does not change who is called, and a callback that
    throws does not keep the others from running.
    pwrseq-monitor/include/hal/pg_bc_latch.hpp, over any event sink: a rising
    power-good also reports a boot-complete level that was latched before it, a falling
    one invalidates the latch first. *)

From S2P Require Import Prelude Types.

(** * Subscriber lists *)

(** [pwrseq-monitor/include/hal/subscriber_list.hpp:32-106 SubscriberList]
    Slots with their callbacks, in registration order, and the next slot
    identifier (a uint64_t counter that starts at 1). *)
Record SubscriberList (C : Type) := mkSubscriberList {
  subs_ : list (Z * C);
  nextSlot_ : Z;
}.
Arguments mkSubscriberList {C}.
Arguments subs_ {C}.
Arguments nextSlot_ {C}.

Section SubscriberList.
Context {C W : Type}.
Implicit Types (l : SubscriberList C) (c : C).

Definition SubscriberList_empty : SubscriberList C := mkSubscriberList [] 1.

(** [pwrseq-monitor/include/hal/subscriber_list.hpp:36-41 SubscriberList::add] *)
Definition SubscriberList_add c l : Z * SubscriberList C :=
  (nextSlot_ l, mkSubscriberList (subs_ l ++ [(nextSlot_ l, c)])
                  ((nextSlot_ l + 1) mod 2 ^ 64)).

(** Erasing the first slot with this identifier. *)
Fixpoint erase_slot (slot : Z) (s : list (Z * C)) : list (Z * C) :=
  match s with
  | [] => []
  | (i, c) :: s => if decide (i = slot) then s else (i, c) :: erase_slot slot s
  end.

(** [pwrseq-monitor/include/hal/subscriber_list.hpp:44-52 SubscriberList::remove] *)
Definition SubscriberList_remove (slot : Z) l : SubscriberList C :=
  mkSubscriberList (erase_slot slot (subs_ l)) (nextSlot_ l).

(** [pwrseq-monitor/include/hal/subscriber_list.hpp:64-87 SubscriberList::notify]
    [call c asserted w] runs one callback in the world [w] and says what it
    threw, which is swallowed. *)
Definition SubscriberList_notify {E} (call : C → bool → W → W * option E)
    (asserted : bool) l (w : W) : W :=
  let snapshot := subs_ l in
  foldl (λ w s, (call s.2 asserted w).1) w snapshot.

(** [pwrseq-monitor/include/hal/subscriber_list.hpp:89-92 SubscriberList::size] *)
Definition SubscriberList_size l : nat := length (subs_ l).

(** [pwrseq-monitor/include/hal/subscriber_list.hpp:93-96 SubscriberList::empty] *)
Definition SubscriberList_is_empty l : bool :=
  match subs_ l with [] => true | _ => false end.

(** Live slots are distinct and below the counter. *)
Definition subs_wf l : Prop :=
  NoDup (subs_ l).*1 ∧ Forall (λ s, 0 < s.1 < nextSlot_ l) (subs_ l) ∧
  0 < nextSlot_ l < 2 ^ 64.

Lemma subs_wf_empty : subs_wf SubscriberList_empty.
Proof. split_and!; cbn; [constructor|constructor|lia|lia]. Qed.

Lemma subs_wf_add c l :
  subs_wf l → nextSlot_ l + 1 < 2 ^ 64 → subs_wf (SubscriberList_add c l).2.
Proof.
  intros (Hnd & Hlt & Hn) Hb. unfold subs_wf; cbn.
  rewrite Z.mod_small by lia. split_and!; [|..|lia|lia].
  - rewrite fmap_app. apply NoDup_app. split_and!; [done| |apply NoDup_singleton].
    intros i Hi Heq%list_elem_of_singleton. cbn in Heq. subst i.
    apply list_elem_of_fmap in Hi as (s & Heq & Hs).
    rewrite Forall_forall in Hlt. specialize (Hlt _ Hs). cbn in Hlt. lia.
  - apply Forall_app. split; [|repeat constructor; cbn; lia].
    eapply Forall_impl; [exact Hlt|]. cbn. lia.
Qed.

Lemma erase_slot_sublist slot s : erase_slot slot s `sublist_of` s.
Proof.
  induction s as [|[i c] s IH]; cbn; [constructor|].
  case_decide; [by constructor|by constructor].
Qed.

Lemma subs_wf_remove slot l : subs_wf l → subs_wf (SubscriberList_remove slot l).
Proof.
  intros (Hnd & Hlt & Hn). pose proof (erase_slot_sublist slot (subs_ l)) as Hsub.
  split_and!; cbn; [|..|lia|lia].
  - eapply sublist_NoDup; [exact Hnd|by apply fmap_sublist].
  - rewrite Forall_forall in *. intros x Hx. apply Hlt.
    by eapply elem_of_sublist.
Qed.

(** Removing the slot just added gives back the same subscribers. *)
Lemma erase_add slot c s : slot ∉ s.*1 → erase_slot slot (s ++ [(slot, c)]) = s.
Proof.
  induction s as [|[i d] s IH]; cbn.
  - intros _. by rewrite decide_True.
  - intros [? ?]%not_elem_of_cons. rewrite decide_False by done. by rewrite IH.
Qed.

Lemma remove_add c l :
  subs_wf l → subs_ (SubscriberList_remove (nextSlot_ l) (SubscriberList_add c l).2) = subs_ l.
Proof.
  intros (_ & Hlt & _). cbn. apply erase_add. intros (s & Heq & Hs)%list_elem_of_fmap.
  rewrite Forall_forall in Hlt. specialize (Hlt _ Hs). cbn in Hlt. lia.
Qed.

Lemma erase_slot_absent slot (s : list (Z * C)) : slot ∉ s.*1 → erase_slot slot s = s.
Proof.
  induction s as [|[i c] s IH]; cbn; [done|]. intros [? ?]%not_elem_of_cons.
  rewrite decide_False by done. by rewrite IH.
Qed.

(** [remove] takes out the slot and leaves the others in order. *)
Lemma remove_slots slot l :
  NoDup (subs_ l).*1 →
  subs_ (SubscriberList_remove slot l) = filter (λ s, s.1 ≠ slot) (subs_ l).
Proof.
  unfold SubscriberList_remove. cbn [subs_].
  induction (subs_ l) as [|[i c] s IH]; [done|].
  cbn [fmap list_fmap fst erase_slot].
  intros [Hi Hnd]%NoDup_cons. rewrite filter_cons. cbn [fst]. repeat case_decide; try done.
  - subst. rewrite <-IH by done. symmetry. apply erase_slot_absent. done.
  - by rewrite IH.
Qed.

(** The callbacks run are those subscribed when [notify] starts, each once,
    in order, whatever they do or throw. *)
Lemma notify_runs_snapshot {E} (call : C → bool → W → W * option E) asserted l w :
  SubscriberList_notify call asserted l w =
    foldl (λ w c, (call c asserted w).1) w (subs_ l).*2.
Proof.
  unfold SubscriberList_notify. revert w.
  induction (subs_ l) as [|[i c] s IH]; intros w; cbn; [done|]. apply IH.
Qed.
End SubscriberList.

(** * Power-good edges with the boot-complete latch *)

Section Latch.
Context {W : Type} (emit : SemanticEvent → W → W).

(** [pwrseq-monitor/include/hal/pg_bc_latch.hpp:46-62 emitPowerGoodEdge] *)
Definition emitPowerGoodEdge (id : InstanceId) (pgAsserted bcAlreadyAsserted : bool)
    (invalidateBcLatch : W → W) (w : W) : W :=
  if pgAsserted then
    let w := emit (event PgHi id) w in
    if bcAlreadyAsserted then emit (event BcHi id) w else w
  else
    let w := invalidateBcLatch w in
    emit (event PgLo id) w.
End Latch.

(** [pwrseq-monitor/include/hal/pg_bc_latch.hpp:66-70 bootCompleteLogicallyAsserted] *)
Definition bootCompleteLogicallyAsserted (electrical activeLow : bool) : bool :=
  if activeLow then negb electrical else electrical.

(** [pwrseq-monitor/include/hal/pg_bc_latch.hpp:82-91 tryRecoverStickyBootComplete]
    [inject] runs in the world and says whether a line was updated. *)
Definition tryRecoverStickyBootComplete {W} (electrical : option bool) (activeLow : bool)
    (inject : bool → W → bool * W) (w : W) : bool * W :=
  match electrical with
  | Some e => if bootCompleteLogicallyAsserted e activeLow then inject e w else (false, w)
  | None => (false, w)
  end.

(** The events an edge emits, in order. *)
Lemma emitPowerGoodEdge_events id pg bc inv :
  emitPowerGoodEdge (λ ev l, l ++ [ev]) id pg bc (λ l, l ++ [inv]) [] =
    if pg then event PgHi id :: (if bc then [event BcHi id] else [])
    else [inv; event PgLo id].
Proof. by destruct pg, bc. Qed.
