(* ===== verification/Hal.v ===== *)
(** * Hardware access

    The HAL's result codes and configuration (pwrseq-monitor/include/hal/
    i_device.hpp, src/i_device.cpp), the environment the daemon runs in (GPIO
    chips, the lpu850 log device, gpio-mon, the event loop's timers), the
    reading of a gpio-mon line (src/gpio_monitor_read.cpp), and the reset
    output lines with their chip cache (src/hal/driver_common.cpp).

    What the daemon does to the hardware is a list of [HwEvent]. *)

From Stdlib Require Import Ascii.
From S2P Require Import Prelude Types.

(** [pwrseq-monitor/include/hal/i_device.hpp:27-38 Result] *)
Inductive Result :=
| R_Ok | R_NotPresent | R_Absent | R_AlreadyInitialized | R_InitFailed
| R_NotReady | R_HwError | R_BadArgument | R_NotSupported.

#[export] Instance Result_eq_dec : EqDecision Result.
Proof. solve_decision. Defined.

(** [pwrseq-monitor/src/i_device.cpp:11-35 to_string(Result)] *)
Definition Result_to_string (r : Result) : string :=
  match r with
  | R_Ok => "Ok" | R_NotPresent => "NotPresent" | R_Absent => "Absent"
  | R_AlreadyInitialized => "AlreadyInitialized" | R_InitFailed => "InitFailed"
  | R_NotReady => "NotReady" | R_HwError => "HwError"
  | R_BadArgument => "BadArgument" | R_NotSupported => "NotSupported"
  end.

(** [pwrseq-monitor/include/hal/i_device.hpp:43-48 ResetKind] *)
Inductive ResetKind := Warm | Cold | PowerCycle.

#[export] Instance ResetKind_eq_dec : EqDecision ResetKind.
Proof. solve_decision. Defined.

(** [pwrseq-monitor/include/hal/i_device.hpp:54-64 Capabilities] *)
Record Capabilities := mkCapabilities {
  cap_powerGood : bool; cap_bootComplete : bool; cap_warmReset : bool;
  cap_coldReset : bool; cap_powerCycle : bool; cap_perRailHealth : bool;
  cap_presenceDetect : bool; cap_pmbusAlert : bool;
}.

Definition no_capabilities : Capabilities :=
  mkCapabilities false false false false false false false false.

(** [pwrseq-monitor/include/hal/i_device.hpp:69-76 DeviceStatus] *)
Record DeviceStatus := mkDeviceStatus {
  ds_present : bool; ds_powerGood : bool; ds_bootComplete : bool;
  ds_bootStateRegister : Z;
}.

(** [pwrseq-monitor/include/hal/i_device.hpp:81-109 DeviceConfig] The two
    registry pointers are represented by whether they are non-null. *)
Record DeviceConfig := mkDeviceConfig {
  cfg_instanceId : InstanceId;
  cfg_initTimeoutMs : Z;
  cfg_driverParams : list (string * string);
  cfg_sharedLines : bool;
  cfg_resetChips : bool;
}.

(** [pwrseq-monitor/src/i_device.cpp:37-45 DeviceConfig::param] *)
Fixpoint params_lookup (params : list (string * string)) (key : string) : string :=
  match params with
  | [] => ""
  | (k, v) :: rest => if decide (k = key) then v else params_lookup rest key
  end.
Definition DeviceConfig_param (cfg : DeviceConfig) (key : string) : string :=
  params_lookup (cfg_driverParams cfg) key.

(** [pwrseq-monitor/src/hal/lpu_driver.cpp:30-34 paramFlag] *)
Definition paramFlag (cfg : DeviceConfig) (key : string) : bool :=
  let v := DeviceConfig_param cfg key in
  bool_decide (v = "1") || bool_decide (v = "true").

(** ** The environment *)

(** A D-Bus property value: the alternatives the monitor looks at, and the rest. *)
Inductive PropValue := PropBool (b : bool) | PropString (s : string) | PropOther.

(** What the code asks of the kernel, of libgpiod and of the bus while one
    event is handled.  [env_dev] lists the entries of /dev with the line names
    each gpiochip exposes, [None] when the chip cannot be opened;
    [env_requestOk] and [env_setOk] say whether a line request and a line
    write succeed; [env_open] is open(2) on a log device; the [env_ioctl]
    fields are the lpu850 ioctls, [uapi_poll_all] and [uapi_poll_vr] the poll
    masks of its header; [env_getAll] is the Properties.GetAll call on a
    gpio-mon line object; [env_now] the monotonic clock in microseconds and
    [env_addTime] whether the n-th timer source can be added. *)
Class Env := mkEnv {
  env_dev : list (string * option (list string));
  env_requestOk : string → string → bool;
  env_setOk : string → string → bool;
  env_open : string → option Z;
  env_fwVersion : Z → option (Z * Z * Z);
  env_setPolling : Z → Z → bool;
  env_drain : Z → bool;
  uapi_poll_all : Z;
  uapi_poll_vr : Z;
  env_getAll : string → option (gmap string PropValue);
  env_now : Z;
  env_addTime : nat → bool;
}.

(** What reaches the hardware. *)
Inductive HwEvent :=
| HwRequest (chip line : string) (value : Z)  (* line requested as output *)
| HwSet (chip line : string) (value : Z)      (* output level driven *)
| HwPolling (fd mask : Z)                     (* poll mask of a log device *)
| HwDrain (fd : Z)                            (* log drain of a log device *)
| HwClose (fd : Z).

(** ** gpio-mon reads *)

(** [pwrseq-monitor/src/gpio_monitor_read.cpp:24-33 boolProperty] *)
Definition boolProperty (props : gmap string PropValue) (key : string) : option bool :=
  match props !! key with
  | Some (PropBool b) => Some b
  | _ => None
  end.

(** std::isalnum in the C locale. *)
Definition isalnum (c : Ascii.ascii) : bool :=
  let n := Ascii.N_of_ascii c in
  ((48 <=? n)%N && (n <=? 57)%N) || ((65 <=? n)%N && (n <=? 90)%N)
  || ((97 <=? n)%N && (n <=? 122)%N).

Fixpoint sanitize (s : string) : string :=
  match s with
  | EmptyString => EmptyString
  | String c s => String (if isalnum c || bool_decide (c = "_"%char) then c else "_"%char)
                    (sanitize s)
  end.

(** [pwrseq-monitor/src/gpio_monitor_read.cpp:37-53 lineObjectPath] *)
Definition lineObjectPath (lineName : string) : string :=
  let element := sanitize lineName in
  let element := if decide (element = "") then "line" else element in
  ("/xyz/openbmc_project/gpio/monitor/lines" +:+ "/" +:+ element)%string.

Section WithEnv.
Context `{Env}.

(** [pwrseq-monitor/src/gpio_monitor_read.cpp:55-86 readLineLevel] *)
Definition readLineLevel (lineName : string) : option bool :=
  if decide (lineName = "") then None else
  match env_getAll (lineObjectPath lineName) with
  | None => None
  | Some props =>
      match boolProperty props "Bound", boolProperty props "Value" with
      | Some true, Some value => Some value
      | _, _ => None
      end
  end.

(** ** Finding the chip of a line *)

Definition chip_path (name : string) : string := ("/dev/" +:+ name)%string.

(** The chips that expose the line, in directory order. *)
Definition chips_exposing (lineName : string) : list string :=
  omap (λ e : string * option (list string),
    if String.prefix "gpiochip" e.1 then
      match e.2 with
      | Some names => if decide (lineName ∈ names) then Some (chip_path e.1) else None
      | None => None
      end
    else None) env_dev.

(** [pwrseq-monitor/src/hal/driver_common.cpp:19-90 findChipForLine] The
    exception of the ambiguous case carries no more than the line name. *)
Definition findChipForLine (lineName : string) : res string string :=
  match chips_exposing lineName with
  | [] => Ok ""
  | [chip] => Ok chip
  | _ => Throw ("findChipForLine: line name '" +:+ lineName +:+ "' is ambiguous")%string
  end.

(** [pwrseq-monitor/src/hal/driver_common.cpp:137-140 probeChipForLine] *)
Definition probeChipForLine (lineName : string) : res string string :=
  findChipForLine lineName.
End WithEnv.

(** ** The chip cache *)

(** The [ResetChipRegistry] of driver_common.hpp: line name to gpiochip path. *)
Abbreviation ResetChipRegistry := (gmap string string).

(** [pwrseq-monitor/src/hal/driver_common.cpp:144-150 ResetChipRegistry::get] *)
Definition registry_get (lines_ : ResetChipRegistry) (lineName : string) : string :=
  default "" (lines_ !! lineName).

(** [pwrseq-monitor/src/hal/driver_common.cpp:178-181 ResetChipRegistry::invalidateLine] *)
Definition registry_invalidateLine (lineName : string) (lines_ : ResetChipRegistry)
    : ResetChipRegistry := delete lineName lines_.

(** [pwrseq-monitor/src/hal/driver_common.cpp:167-176 ResetChipRegistry::store] *)
Definition registry_store (lineName chipPath : string) (lines_ : ResetChipRegistry)
    : ResetChipRegistry :=
  if decide (chipPath = "") then registry_invalidateLine lineName lines_
  else <[lineName := chipPath]> lines_.

(** [pwrseq-monitor/src/hal/driver_common.cpp:183-196 ResetChipRegistry::invalidateChip] *)
Definition registry_invalidateChip (chipPath : string) (lines_ : ResetChipRegistry)
    : ResetChipRegistry := filter (λ kv, kv.2 ≠ chipPath) lines_.

(** [pwrseq-monitor/src/hal/driver_common.cpp:152-165 ResetChipRegistry::probeOrStore] *)
Definition registry_probeOrStore `{Env} (lineName : string) (lines_ : ResetChipRegistry)
    : res string (string * ResetChipRegistry) :=
  let cached := registry_get lines_ lineName in
  if decide (cached ≠ "") then Ok (cached, lines_) else
  chip ← findChipForLine lineName;
  Ok (chip, if decide (chip ≠ "") then <[lineName := chip]> lines_ else lines_).

(** ** Reset output lines *)

(** [pwrseq-monitor/include/hal/driver_common.hpp:42-46 GpioLine] *)
Record GpioLine := mkGpioLine { gl_name : string; gl_activeLow : bool }.

(** [pwrseq-monitor/include/hal/driver_common.hpp:137-142 ResetLineOp] *)
Inductive ResetLineOp := Trigger | AssertOnly | ReleaseElectrical.

(** [pwrseq-monitor/include/hal/driver_common.hpp:100-134 OutputLine] A
    requested output: its chip, name, polarity and whether it is asserted. *)
Record OutputLine := mkOutputLine {
  ol_chip : string; ol_name : string; ol_active_low : bool; ol_asserted : bool;
}.

(** [pwrseq-monitor/include/hal/driver_common.hpp:120-123 electricalValueForAssert_] *)
Definition electricalValueForAssert_ (active_low : bool) : Z := if active_low then 0 else 1.

(** [pwrseq-monitor/include/hal/driver_common.hpp:124-127 electricalValueForRelease_] *)
Definition electricalValueForRelease_ (active_low : bool) : Z := if active_low then 1 else 0.

Section Output.
Context `{Env}.

(** Opening a chip by path: its line names. *)
Definition open_chip (path : string) : option (list string) :=
  match find_if (λ e : string * option (list string),
          bool_decide (chip_path e.1 = path)) env_dev with
  | Some (_, (_, names)) => names
  | None => None
  end.

(** [pwrseq-monitor/src/hal/driver_common.cpp:94-118 OutputLine::OutputLine]
    Fails when the chip cannot be opened, does not expose the line, or
    refuses the request; the request drives the release level. *)
Definition OutputLine_make (chip : string) (gl : GpioLine)
    : res string OutputLine * list HwEvent :=
  match open_chip chip with
  | None => (Throw "gpiod::chip", [])
  | Some names =>
      if decide (gl_name gl ∈ names) then
        if env_requestOk chip (gl_name gl) then
          (Ok (mkOutputLine chip (gl_name gl) (gl_activeLow gl) false),
           [HwRequest chip (gl_name gl) (electricalValueForRelease_ (gl_activeLow gl))])
        else (Throw "gpiod::line::request", [])
      else (Throw ("OutputLine: line '" +:+ gl_name gl +:+ "' not found on " +:+ chip)%string, [])
  end.

(** Driving a level: throws when the write fails. *)
Definition OutputLine_set (l : OutputLine) (asserted : bool) (value : Z)
    : res string OutputLine * list HwEvent :=
  if env_setOk (ol_chip l) (ol_name l) then
    (Ok {| l with ol_asserted := asserted |}, [HwSet (ol_chip l) (ol_name l) value])
  else (Throw "gpiod::line::set_value", []).

(** [pwrseq-monitor/src/hal/driver_common.cpp:120-124 OutputLine::assert_] *)
Definition OutputLine_assert_ (l : OutputLine) :=
  OutputLine_set l true (electricalValueForAssert_ (ol_active_low l)).

(** [pwrseq-monitor/src/hal/driver_common.cpp:126-130 OutputLine::release] *)
Definition OutputLine_release (l : OutputLine) :=
  OutputLine_set l false (electricalValueForRelease_ (ol_active_low l)).

(** [pwrseq-monitor/src/hal/driver_common.cpp:132-135 OutputLine::trigger] *)
Definition OutputLine_trigger (l : OutputLine) := OutputLine_assert_ l.

(** [pwrseq-monitor/src/hal/driver_common.cpp:201-215 driveResetLine] *)
Definition driveResetLine (l : OutputLine) (op : ResetLineOp)
    : res string OutputLine * list HwEvent :=
  match op with
  | Trigger => OutputLine_trigger l
  | AssertOnly => OutputLine_assert_ l
  | ReleaseElectrical => OutputLine_release l
  end.

(** [pwrseq-monitor/src/hal/driver_common.cpp:217-223 actuateOnChip] The
    request is dropped when the function returns. *)
Definition actuateOnChip (chip : string) (gl : GpioLine) (op : ResetLineOp)
    : res string Result * list HwEvent :=
  match OutputLine_make chip gl with
  | (Throw e, hw) => (Throw e, hw)
  | (Ok line, hw) =>
      match driveResetLine line op with
      | (Throw e, hw') => (Throw e, hw ++ hw')
      | (Ok _, hw') => (Ok R_Ok, hw ++ hw')
      end
  end.

(** [pwrseq-monitor/src/hal/driver_common.cpp:255-285 actuateResetOutputLine]
    The rescan: the exception of an ambiguous line name leaves the function. *)
Definition rescanAndActuate (gl : GpioLine) (op : ResetLineOp)
    (chips : option ResetChipRegistry) (hw0 : list HwEvent)
    : res string (Result * option ResetChipRegistry * list HwEvent) :=
  chip ← findChipForLine (gl_name gl);
  if decide (chip = "") then
    Ok (R_Absent, registry_invalidateLine (gl_name gl) <$> chips, hw0)
  else match actuateOnChip chip gl op with
       | (Ok r, hw) => Ok (r, registry_store (gl_name gl) chip <$> chips, hw0 ++ hw)
       | (Throw _, hw) => Ok (R_HwError, chips, hw0 ++ hw)
       end.

(** [pwrseq-monitor/src/hal/driver_common.cpp:227-286 actuateResetOutputLine]
    [chips = None] is the null cache. *)
Definition actuateResetOutputLine (lineName : string) (activeLow : bool)
    (op : ResetLineOp) (chips : option ResetChipRegistry)
    : res string (Result * option ResetChipRegistry * list HwEvent) :=
  let gl := mkGpioLine lineName activeLow in
  let cached := match chips with Some c => registry_get c lineName | None => "" end in
  if decide (cached ≠ "") then
    match actuateOnChip cached gl op with
    | (Ok r, hw) => Ok (r, chips, hw)
    | (Throw _, hw) => rescanAndActuate gl op (registry_invalidateChip cached <$> chips) hw
    end
  else rescanAndActuate gl op chips [].
End Output.

(** ** Lemmas *)

Definition op_value (op : ResetLineOp) (activeLow : bool) : Z :=
  match op with
  | ReleaseElectrical => electricalValueForRelease_ activeLow
  | _ => electricalValueForAssert_ activeLow
  end.

(** The hardware trace of a successful actuation: the line requested at its
    release level, then driven. *)
Definition actuated (chip line : string) (activeLow : bool) (op : ResetLineOp) : list HwEvent :=
  [HwRequest chip line (electricalValueForRelease_ activeLow);
   HwSet chip line (op_value op activeLow)].

Section Lemmas.
Context `{Env}.

Lemma actuateOnChip_cases chip gl op :
  actuateOnChip chip gl op = (Ok R_Ok, actuated chip (gl_name gl) (gl_activeLow gl) op) ∨
  (∃ e, actuateOnChip chip gl op = (Throw e, [])) ∨
  (∃ e, actuateOnChip chip gl op =
     (Throw e, [HwRequest chip (gl_name gl)
                  (electricalValueForRelease_ (gl_activeLow gl))])).
Proof.
  unfold actuateOnChip, OutputLine_make.
  destruct (open_chip chip); [|right; left; by eexists].
  case_decide; [|right; left; by eexists].
  destruct (env_requestOk _ _); [|right; left; by eexists].
  destruct op; cbn; unfold OutputLine_trigger, OutputLine_assert_, OutputLine_release,
    OutputLine_set; cbn; destruct (env_setOk _ _); cbn; eauto.
Qed.

Lemma chips_exposing_nonempty line chip : chip ∈ chips_exposing line → chip ≠ "".
Proof.
  unfold chips_exposing. rewrite list_elem_of_omap. intros ([n names] & _ & Heq).
  repeat (case_match; try done). by injection Heq as <-.
Qed.

Lemma registry_invalidateChip_lookup chip lines_ l c :
  registry_invalidateChip chip lines_ !! l = Some c ↔ lines_ !! l = Some c ∧ c ≠ chip.
Proof. unfold registry_invalidateChip. rewrite map_lookup_filter_Some. done. Qed.

Lemma registry_get_store lines_ l c :
  registry_get (registry_store l c lines_) l = c.
Proof.
  unfold registry_get, registry_store, registry_invalidateLine.
  case_decide; by simplify_map_eq.
Qed.
End Lemmas.

(** No line was driven. *)
Definition no_drive (hw : list HwEvent) : Prop := ∀ chip line v, HwSet chip line v ∉ hw.

Section Rescan.
Context `{Env}.

Lemma rescan_outcomes gl op cache hw0 r chips hw :
  no_drive hw0 →
  rescanAndActuate gl op (Some cache) hw0 = Ok (r, chips, hw) →
  (r = R_Absent ∧ chips_exposing (gl_name gl) = [] ∧
     chips = Some (registry_invalidateLine (gl_name gl) cache) ∧ no_drive hw) ∨
  (∃ chip, chips_exposing (gl_name gl) = [chip] ∧
     (r = R_HwError ∧ chips = Some cache ∧ no_drive hw ∨
      r = R_Ok ∧ chips = Some (<[gl_name gl := chip]> cache) ∧
        hw = hw0 ++ actuated chip (gl_name gl) (gl_activeLow gl) op)).
Proof.
  intros Hnd. unfold rescanAndActuate, findChipForLine.
  destruct (chips_exposing (gl_name gl)) as [|chip [|]] eqn:Hce; cbn; [| |done].
  - intros [= <- <- <-]. by left.
  - assert (chip ≠ "") as Hne.
    { apply (chips_exposing_nonempty (gl_name gl)). rewrite Hce. by left. }
    rewrite decide_False by done. intros Heq. right. exists chip. split; [done|]. revert Heq.
    destruct (actuateOnChip_cases chip gl op) as [->|[[e ->]|[e ->]]]; intros [= <- <- <-].
    + right. split_and!; [done| |done]. unfold registry_store. by rewrite decide_False.
    + left. split_and!; [done|done|]. by rewrite app_nil_r.
    + left. split_and!; [done|done|]. intros c l v. rewrite elem_of_app, elem_of_cons.
      specialize (Hnd c l v). set_solver.
Qed.
End Rescan.

(** ** Properties *)

(** What a caller of an actuation may rely on: success means the line was
    requested and driven, on the chip the cache now names; any other result
    means no line was driven, a missing line leaves no cache entry, and a
    chip whose cached entry failed has been purged from the whole cache. *)
Theorem actuate_outcomes `{Env} line al op cache r chips hw :
  actuateResetOutputLine line al op (Some cache) = Ok (r, chips, hw) →
  ∃ cache', chips = Some cache' ∧
  (r = R_Ok → ∃ chip hw0, hw = hw0 ++ actuated chip line al op ∧ no_drive hw0 ∧
     cache' !! line = Some chip) ∧
  (r ≠ R_Ok → no_drive hw ∧ ∀ l c, cache' !! l = Some c →
     cache !! l = Some c ∧ (registry_get cache line ≠ "" → c ≠ registry_get cache line)) ∧
  (r = R_Absent → chips_exposing line = [] ∧ cache' !! line = None) ∧
  (r = R_Ok ∨ r = R_Absent ∨ r = R_HwError).
Proof.
  unfold actuateResetOutputLine. set (cached := registry_get cache line).
  set (gl := mkGpioLine line al). intros Hact.
  assert (no_drive []) as Hnil by (intros ? ? ?; apply not_elem_of_nil).
  assert (∃ cache0 hw0, no_drive hw0 ∧
    (∀ l c, cache0 !! l = Some c → cache !! l = Some c ∧ (cached ≠ "" → c ≠ cached)) ∧
    rescanAndActuate gl op (Some cache0) hw0 = Ok (r, chips, hw) ∨
    cached ≠ "" ∧ r = R_Ok ∧ chips = Some cache ∧ hw = actuated cached line al op)
    as (cache0 & hw0 & [(Hnd & Hsub & Hre)|(Hne & -> & -> & ->)]).
  { case_decide as Hc; [|exists cache, []; left; split_and!; [done|naive_solver|done]].
    destruct (actuateOnChip_cases cached gl op) as [Ha|[[e Ha]|[e Ha]]];
      rewrite Ha in Hact; [injection Hact as <- <- <-; by exists ∅, []; right| |];
      eexists (registry_invalidateChip cached cache), _; left; (split_and!; [..|exact Hact]);
      try done; try (intros l c; rewrite registry_invalidateChip_lookup; naive_solver).
    intros c l v. set_solver. }
  - destruct (rescan_outcomes _ _ _ _ _ _ _ Hnd Hre)
      as [(-> & Hce & -> & Hhw)|(chip & Hce & [(-> & -> & Hhw)|(-> & -> & ->)])];
      eexists; (split; [done|]); split_and!; try done; eauto.
    + intros _. split; [done|]. intros l c. unfold registry_invalidateLine.
      rewrite lookup_delete_Some. naive_solver.
    + intros _. split; [done|]. unfold registry_invalidateLine. by simplify_map_eq.
    + intros _. exists chip, hw0. split_and!; [done|done|]. by simplify_map_eq.
  - exists cache. split; [done|]. split_and!; try done; [|by left]. intros _.
    exists cached, []. split_and!; [done|done|].
    unfold cached, registry_get in *. by destruct (cache !! line).
Qed.

(** A bench to evaluate on: one gpiochip with the reset lines of two LPUs and
    an FPGA, a log device that answers, every timer granted. *)
Definition bench_env : Env := {|
  env_dev := [("null", None); ("gpiochip0", Some ["LPU0_RST"; "LPU1_RST"; "FPGA0_RST"]);
              ("gpiochip1", None)];
  env_requestOk := λ _ _, true;
  env_setOk := λ _ _, true;
  env_open := λ _, Some 7;
  env_fwVersion := λ _, Some (11, 4, 0);
  env_setPolling := λ _ _, true;
  env_drain := λ _, true;
  uapi_poll_all := 3;
  uapi_poll_vr := 4;
  env_getAll := λ _, Some {[ "Bound" := PropBool true; "Value" := PropBool true ]};
  env_now := 0;
  env_addTime := λ _, true;
|}.

(** The same bench with the reset line gone. *)
Definition empty_bench : Env :=
  mkEnv [("gpiochip0", Some [])] (λ _ _, true) (λ _ _, true) (λ _, None) (λ _, None)
    (λ _ _, false) (λ _, false) 3 4 (λ _, None) 0 (λ _, true).

Example actuate_outcomes_witness :
  ∃ cache', Some ({["LPU0_RST" := "/dev/gpiochip0"]} : gmap string string) = Some cache' ∧
  (R_Ok = R_Ok → ∃ chip hw0, [HwRequest "/dev/gpiochip0" "LPU0_RST" 1;
                              HwSet "/dev/gpiochip0" "LPU0_RST" 0]
       = hw0 ++ actuated chip "LPU0_RST" true Trigger ∧ no_drive hw0 ∧
     cache' !! "LPU0_RST" = Some chip) ∧
  (R_Ok ≠ R_Ok → no_drive [HwRequest "/dev/gpiochip0" "LPU0_RST" 1;
                           HwSet "/dev/gpiochip0" "LPU0_RST" 0] ∧
     ∀ l c, cache' !! l = Some c →
     ({["LPU0_RST" := "/dev/gpiochip9"; "LPU1_RST" := "/dev/gpiochip9"]}
        : gmap string string) !! l = Some c ∧
     (registry_get {["LPU0_RST" := "/dev/gpiochip9"; "LPU1_RST" := "/dev/gpiochip9"]}
        "LPU0_RST" ≠ "" →
      c ≠ registry_get {["LPU0_RST" := "/dev/gpiochip9"; "LPU1_RST" := "/dev/gpiochip9"]}
            "LPU0_RST")) ∧
  (R_Ok = R_Absent → @chips_exposing bench_env "LPU0_RST" = [] ∧
     cache' !! "LPU0_RST" = None) ∧
  (R_Ok = R_Ok ∨ R_Ok = R_Absent ∨ R_Ok = R_HwError).
Proof.
  apply (@actuate_outcomes bench_env "LPU0_RST" true Trigger
    {["LPU0_RST" := "/dev/gpiochip9"; "LPU1_RST" := "/dev/gpiochip9"]}).
  vm_compute. reflexivity.
Defined.
