(* ===== verification/Lines.v ===== *)
(** * Shared input lines

    The refcounted input lines fed by gpio-mon edges
    (pwrseq-monitor/include/hal/driver_common.hpp, src/hal/driver_common.cpp):
    a [SharedLine] caches the logical level and notifies its subscribers, the
    [SharedLineRegistry] hands the same line to every driver that names it.

    The objects live in a heap: an identifier stands for a shared_ptr, an
    object is kept while its reference count is positive, and the registry's
    weak_ptr locks while the object is in the heap. Identifiers are not
    reused, so a dead entry never locks again. *)

From S2P Require Import Prelude Types SubscriberList Hal.

(** [pwrseq-monitor/include/hal/driver_common.hpp:52-97 DbusLineSource] *)
Record DbusLineSource := mkDbusLineSource {
  ls_name : string;
  ls_activeLow : bool;
  ls_cached : bool;
  ls_hasValue : bool;
}.

(** [pwrseq-monitor/include/hal/driver_common.hpp:86-90 DbusLineSource::setCached] *)
Definition DbusLineSource_setCached (asserted : bool) (s : DbusLineSource) : DbusLineSource :=
  {| s with ls_cached := asserted; ls_hasValue := true |}.

(** [pwrseq-monitor/include/hal/driver_common.hpp:237-284 SharedLine] *)
Record SharedLine (C : Type) := mkSharedLine {
  sl_source : DbusLineSource;
  sl_consumer : string;
  sl_subs : SubscriberList C;
}.
Arguments mkSharedLine {C}.
Arguments sl_source {C}.
Arguments sl_consumer {C}.
Arguments sl_subs {C}.

(** [pwrseq-monitor/src/hal/driver_common.cpp:290-293 SharedLine::SharedLine] *)
Definition SharedLine_make {C} (gl : GpioLine) (initialAsserted : bool) (consumer : string)
    : SharedLine C :=
  mkSharedLine (mkDbusLineSource (gl_name gl) (gl_activeLow gl) initialAsserted false)
    consumer SubscriberList_empty.

(** The heap of line objects with their reference counts, the registry's
    weak entries by name, and the next object identifier. *)
Record LineHeap (C : Type) := mkLineHeap {
  lh_objs : gmap nat (SharedLine C * nat);
  lh_lines : gmap string nat;
  lh_next : nat;
}.
Arguments mkLineHeap {C}.
Arguments lh_objs {C}.
Arguments lh_lines {C}.
Arguments lh_next {C}.

(** [pwrseq-monitor/include/hal/driver_common.hpp:189-234 Subscription] *)
Record Subscription := mkSubscription { sub_line : nat; sub_slot : Z; sub_valid : bool }.

Definition no_subscription : Subscription := mkSubscription 0 0 false.

Section Heap.
Context {C : Type}.
Implicit Types (h : LineHeap C) (l : SharedLine C).

Definition LineHeap_empty : LineHeap C := mkLineHeap ∅ ∅ 0.

(** The object behind a shared_ptr, or a weak_ptr that locks. *)
Definition line_at h (i : nat) : option (SharedLine C) := fst <$> lh_objs h !! i.

(** Rewriting an object in place. *)
Definition line_update (f : SharedLine C → SharedLine C) (i : nat) h : LineHeap C :=
  {| h with lh_objs := alter (λ o, (f o.1, o.2)) i (lh_objs h) |}.

(** Copying a shared_ptr, and dropping one: the last drop frees the object. *)
Definition line_retain (i : nat) h : LineHeap C :=
  {| h with lh_objs := alter (λ o, (o.1, S o.2)) i (lh_objs h) |}.
Definition line_release (i : nat) h : LineHeap C :=
  {| h with lh_objs :=
       match lh_objs h !! i with
       | Some (l, S (S n)) => <[i := (l, S n)]> (lh_objs h)
       | Some _ => delete i (lh_objs h)
       | None => lh_objs h
       end |}.

(** [pwrseq-monitor/src/hal/driver_common.cpp:295-298 SharedLine::read] *)
Definition SharedLine_read l : bool := ls_cached (sl_source l).

(** [pwrseq-monitor/src/hal/driver_common.cpp:300-303 SharedLine::hasValue] *)
Definition SharedLine_hasValue l : bool := ls_hasValue (sl_source l).

(** [pwrseq-monitor/src/hal/driver_common.cpp:305-308 SharedLine::name] *)
Definition SharedLine_name l : string := ls_name (sl_source l).

(** [pwrseq-monitor/src/hal/driver_common.cpp:310-313 SharedLine::activeLow] *)
Definition SharedLine_activeLow l : bool := ls_activeLow (sl_source l).

(** [pwrseq-monitor/include/hal/driver_common.hpp:263-266 SharedLine::setCachedSilently] *)
Definition SharedLine_setCachedSilently (asserted : bool) (i : nat) h : LineHeap C :=
  line_update (λ l, {| l with sl_source :=
    DbusLineSource_setCached asserted (sl_source l) |}) i h.

(** [pwrseq-monitor/src/hal/driver_common.cpp:320-325 SharedLine::notifyExternal]
    The cache takes the logical level, then the subscribers run in the world
    that holds the heap. *)
Definition SharedLine_notifyExternal {W E} (heap : W → LineHeap C)
    (with_heap : LineHeap C → W → W) (call : C → bool → W → W * option E)
    (i : nat) (asserted : bool) (w : W) : W :=
  match line_at (heap w) i with
  | None => w
  | Some l =>
      let logical := if SharedLine_activeLow l then negb asserted else asserted in
      let w := with_heap (SharedLine_setCachedSilently logical i (heap w)) w in
      SubscriberList_notify call logical (sl_subs l) w
  end.

(** [pwrseq-monitor/src/hal/driver_common.cpp:327-331 SharedLine::subscribe] *)
Definition SharedLine_subscribe (c : C) (i : nat) h : Subscription * LineHeap C :=
  match line_at h i with
  | None => (no_subscription, h)
  | Some l =>
      let '(slot, subs) := SubscriberList_add c (sl_subs l) in
      (mkSubscription i slot true, line_update (λ l, {| l with sl_subs := subs |}) i h)
  end.

(** [pwrseq-monitor/src/hal/driver_common.cpp:333-336 SharedLine::unsubscribe] *)
Definition SharedLine_unsubscribe (slot : Z) (i : nat) h : LineHeap C :=
  line_update (λ l, {| l with sl_subs := SubscriberList_remove slot (sl_subs l) |}) i h.

(** [pwrseq-monitor/src/hal/driver_common.cpp:340-350 Subscription::reset] *)
Definition Subscription_reset (s : Subscription) h : Subscription * LineHeap C :=
  if sub_valid s then
    ({| s with sub_valid := false |},
     match line_at h (sub_line s) with
     | Some _ => SharedLine_unsubscribe (sub_slot s) (sub_line s) h
     | None => h
     end)
  else (s, h).

(** ** The registry *)

(** [pwrseq-monitor/src/hal/driver_common.cpp:357-380 warnIfDescriptorMismatch]
    A consumer mismatch is only logged. *)
Definition warnIfDescriptorMismatch (existing : SharedLine C) (gl : GpioLine)
    : res string unit :=
  if decide (SharedLine_activeLow existing ≠ gl_activeLow gl) then
    Throw ("SharedLineRegistry::acquire: descriptor mismatch for '" +:+ gl_name gl +:+ "'")%string
  else Ok ().

Definition alloc_line (l : SharedLine C) (name : string) h : nat * LineHeap C :=
  (lh_next h, mkLineHeap (<[lh_next h := (l, 1%nat)]> (lh_objs h))
                (<[name := lh_next h]> (lh_lines h)) (S (lh_next h))).

(** [pwrseq-monitor/src/hal/driver_common.cpp:384-406 SharedLineRegistry::acquire]
    The returned identifier carries a reference. *)
Definition Registry_acquire (gl : GpioLine) (consumer : string) h
    : res string (nat * LineHeap C) :=
  match i ← lh_lines h !! gl_name gl; l ← line_at h i; Some (i, l) with
  | Some (i, l) =>
      _ ← warnIfDescriptorMismatch l gl; Ok (i, line_retain i h)
  | None => Ok (alloc_line (SharedLine_make gl false consumer) (gl_name gl) h)
  end.

(** The live lines, in the order the map is walked. *)
Definition live_lines h : list (nat * SharedLine C) :=
  omap (λ e : string * nat, (λ l, (e.2, l)) <$> line_at h e.2) (map_to_list (lh_lines h)).

(** [pwrseq-monitor/src/hal/driver_common.cpp:408-424 SharedLineRegistry::findByName]
    The first live line of that name; the caller takes a reference. *)
Definition Registry_findByName (lineName : string) h : option nat :=
  match find_if (λ e : nat * SharedLine C,
          bool_decide (SharedLine_name e.2 = lineName)) (live_lines h) with
  | Some (_, (i, _)) => Some i
  | None => None
  end.

(** [pwrseq-monitor/src/hal/driver_common.cpp:426-435 SharedLineRegistry::live_count] *)
Definition Registry_live_count h : nat := length (live_lines h).

(** ** Invariant

    Objects are below the counter with a positive count and a well-formed
    subscriber list; a registry entry that locks names its object. *)
Record heap_wf h : Prop := {
  hwf_next : ∀ i o, lh_objs h !! i = Some o → (i < lh_next h)%nat;
  hwf_refs : ∀ i l n, lh_objs h !! i = Some (l, n) → (0 < n)%nat;
  hwf_names : ∀ s i l, lh_lines h !! s = Some i → line_at h i = Some l →
    SharedLine_name l = s;
  hwf_entries : ∀ s i, lh_lines h !! s = Some i → (i < lh_next h)%nat;
}.

Lemma heap_wf_empty : heap_wf LineHeap_empty.
Proof. by split; cbn. Qed.

Lemma line_at_update f i h j :
  line_at (line_update f i h) j = if decide (i = j) then f <$> line_at h j else line_at h j.
Proof.
  unfold line_at, line_update; cbn. rewrite lookup_alter.
  case_decide; [|done]. subst. by destruct (lh_objs h !! j) as [[]|].
Qed.

Lemma heap_wf_update f i h :
  (∀ l, ls_name (sl_source (f l)) = ls_name (sl_source l)) →
  heap_wf h → heap_wf (line_update f i h).
Proof.
  intros Hf [Hn Hr Hs He]. split.
  - intros j o. unfold line_update; cbn. rewrite lookup_alter_Some.
    intros [(-> & o' & Ho & ->)|[_ Ho]]; by eapply Hn.
  - intros j l n. unfold line_update; cbn. rewrite lookup_alter_Some.
    intros [(-> & [l' n'] & Ho & [= -> ->])|[_ Ho]]; by eapply Hr.
  - intros s j l Hl. rewrite line_at_update. case_decide; [|by apply Hs].
    intros (l' & Hl' & ->)%fmap_Some. unfold SharedLine_name. rewrite Hf. by eapply Hs.
  - exact He.
Qed.

Lemma heap_wf_retain i h : heap_wf h → heap_wf (line_retain i h).
Proof.
  intros [Hn Hr Hs He]. unfold line_retain. split; cbn.
  - intros j o. rewrite lookup_alter_Some.
    intros [(-> & o' & Ho & ->)|[_ Ho]]; by eapply Hn.
  - intros j l n. rewrite lookup_alter_Some.
    intros [(-> & [l' n'] & Ho & [= -> ->])|[_ Ho]]; [lia|by eapply Hr].
  - intros s j l Hl. unfold line_at; cbn. rewrite lookup_alter. case_decide.
    + subst. destruct (lh_objs h !! j) as [[l' n]|] eqn:Ho; [|done]. intros [= <-].
      apply (Hs s j); [done|]. unfold line_at. by rewrite Ho.
    + intros Ha. by apply (Hs s j).
  - exact He.
Qed.

Lemma line_at_release i h j l :
  line_at (line_release i h) j = Some l → line_at h j = Some l.
Proof.
  unfold line_at, line_release; cbn.
  destruct (lh_objs h !! i) as [[l' [|[|n]]]|] eqn:Hi; try done.
  1,2: rewrite lookup_delete; case_decide; done.
  rewrite lookup_insert. case_decide; [|done]. subst. by rewrite Hi.
Qed.

Lemma heap_wf_release i h : heap_wf h → heap_wf (line_release i h).
Proof.
  intros [Hn Hr Hs He]. split; [| | |exact He].
  - intros j o. unfold line_release; cbn.
    destruct (lh_objs h !! i) as [[l' [|[|n]]]|] eqn:Hi; try apply Hn.
    1,2: rewrite lookup_delete_Some; intros [_ ?]; by eapply Hn.
    rewrite lookup_insert_Some. intros [[-> _]|[_ ?]]; by eapply Hn.
  - intros j l n. unfold line_release; cbn.
    destruct (lh_objs h !! i) as [[l' [|[|m]]]|] eqn:Hi; try apply Hr.
    1,2: rewrite lookup_delete_Some; intros [_ ?]; by eapply Hr.
    rewrite lookup_insert_Some. intros [[-> [= _ <-]]|[_ ?]]; [lia|by eapply Hr].
  - intros s j l Hl Ha%line_at_release. by eapply Hs.
Qed.

Lemma line_at_alloc l name h i :
  heap_wf h →
  line_at (alloc_line l name h).2 i = if decide (i = lh_next h) then Some l else line_at h i.
Proof.
  intros Hwf. unfold line_at, alloc_line; cbn. rewrite lookup_insert.
  repeat case_decide; by subst.
Qed.

Lemma heap_wf_alloc l h :
  heap_wf h → heap_wf (alloc_line l (SharedLine_name l) h).2.
Proof.
  intros Hwf. pose proof Hwf as [Hn Hr Hs He]. split.
  - intros i o. cbn. rewrite lookup_insert_Some.
    intros [[<- _]|[_ Ho]]; [lia|]. apply Hn in Ho. lia.
  - intros i l' n. cbn. rewrite lookup_insert_Some.
    intros [[<- [= _ <-]]|[_ Ho]]; [lia|by eapply Hr].
  - intros s i l'. rewrite line_at_alloc by done. cbn.
    rewrite lookup_insert_Some. intros [[<- <-]|[Hne Hi]].
    + rewrite decide_True by done. by intros [= <-].
    + apply He in Hi as Hlt. rewrite decide_False by lia. by apply Hs.
  - intros s i. cbn. rewrite lookup_insert_Some.
    intros [[_ <-]|[_ Hi]]; [lia|]. apply He in Hi. lia.
Qed.

Lemma line_at_retain i h j : line_at (line_retain i h) j = line_at h j.
Proof.
  unfold line_at, line_retain; cbn. rewrite lookup_alter.
  case_decide; [|done]. subst. by destruct (lh_objs h !! j) as [[]|].
Qed.

Lemma heap_wf_acquire gl c h i h' :
  heap_wf h → Registry_acquire gl c h = Ok (i, h') →
  heap_wf h' ∧ lh_lines h' !! gl_name gl = Some i ∧
  ∃ l, line_at h' i = Some l ∧ SharedLine_name l = gl_name gl ∧
       SharedLine_activeLow l = gl_activeLow gl.
Proof.
  intros Hwf. unfold Registry_acquire.
  assert (Ok (E:=string) (alloc_line (SharedLine_make gl false c) (gl_name gl) h)
    = Ok (i, h') → heap_wf h' ∧ lh_lines h' !! gl_name gl = Some i ∧
    ∃ l, line_at h' i = Some l ∧ SharedLine_name l = gl_name gl ∧
       SharedLine_activeLow l = gl_activeLow gl) as Halloc.
  { intros Heq. assert (i = lh_next h) as -> by (by injection Heq).
    assert (h' = (alloc_line (SharedLine_make gl false c) (gl_name gl) h).2) as ->
      by (by injection Heq). clear Heq.
    split; [by apply (heap_wf_alloc (SharedLine_make gl false c))|].
    split; [cbn; by simplify_map_eq|].
    exists (SharedLine_make gl false c).
    by rewrite (line_at_alloc (SharedLine_make gl false c)), decide_True. }
  destruct (lh_lines h !! gl_name gl) as [j|] eqn:Hj; cbn; [|done].
  destruct (line_at h j) as [l|] eqn:Hl; cbn; [|done].
  unfold warnIfDescriptorMismatch. case_decide as Hal; [done|].
  intros [= <- <-]. split; [by apply heap_wf_retain|]. split; [done|].
  exists l. rewrite line_at_retain. split_and!; [done|by eapply hwf_names|].
  destruct (decide (SharedLine_activeLow l = gl_activeLow gl)); [done|tauto].
Qed.

Lemma live_lines_elem h i l :
  (i, l) ∈ live_lines h ↔ ∃ s, lh_lines h !! s = Some i ∧ line_at h i = Some l.
Proof.
  unfold live_lines. rewrite list_elem_of_omap. split.
  - intros ([s j] & Hin & Heq). apply elem_of_map_to_list in Hin. cbn in Heq.
    destruct (line_at h j) eqn:Hj; [|done]. injection Heq as -> ->. eauto.
  - intros (s & Hs & Hl). exists (s, i). split; [by apply elem_of_map_to_list|].
    cbn. by rewrite Hl.
Qed.

Lemma findByName_spec h s i :
  heap_wf h →
  Registry_findByName s h = Some i ↔ lh_lines h !! s = Some i ∧ is_Some (line_at h i).
Proof.
  intros Hwf. unfold Registry_findByName, find_if. split.
  - destruct (list_find _ _) as [[k [j l]]|] eqn:Hf; [|done]. intros [= <-].
    apply list_find_Some in Hf as (Hl & Hx & _). rewrite bool_decide_eq_true in Hx.
    apply list_elem_of_lookup_2, live_lines_elem in Hl as (s' & Hs' & Hj).
    cbn in Hx; rewrite (hwf_names _ Hwf _ _ _ Hs' Hj) in Hx; subst. by eauto.
  - intros [Hs [l Hl]].
    destruct (list_find _ (live_lines h)) as [[k [j l']]|] eqn:Hf.
    + apply list_find_Some in Hf as (Hl' & Hx & _). rewrite bool_decide_eq_true in Hx.
      apply list_elem_of_lookup_2, live_lines_elem in Hl' as (s' & Hs' & Hj).
      cbn in Hx; rewrite (hwf_names _ Hwf _ _ _ Hs' Hj) in Hx; subst. congruence.
    + apply list_find_None in Hf. rewrite Forall_forall in Hf.
      destruct (Hf (i, l)); [apply live_lines_elem; eauto|].
      apply bool_decide_eq_true. by eapply hwf_names.
Qed.

Lemma heap_wf_subscribe c i h : heap_wf h → heap_wf (SharedLine_subscribe c i h).2.
Proof.
  intros Hwf. unfold SharedLine_subscribe. destruct (line_at h i); [|done].
  cbn. by apply heap_wf_update.
Qed.

Lemma subscribe_lines c i h : lh_lines (SharedLine_subscribe c i h).2 = lh_lines h.
Proof. unfold SharedLine_subscribe. by destruct (line_at h i). Qed.

(** A subscription adds its callback at the end of the line's list. *)
Lemma line_at_subscribe c i h j :
  line_at (SharedLine_subscribe c i h).2 j =
    if decide (i = j) then
      (λ l, {| l with sl_subs := (SubscriberList_add c (sl_subs l)).2 |}) <$> line_at h j
    else line_at h j.
Proof.
  unfold SharedLine_subscribe. destruct (line_at h i) as [l|] eqn:Hl; cbn.
  - rewrite line_at_update. case_decide; [|done]. subst. by rewrite Hl.
  - case_decide; [|done]. subst. by rewrite Hl.
Qed.

(** Acquiring leaves the other lines alone. *)
Lemma acquire_lines gl c h i h' j l :
  heap_wf h → Registry_acquire gl c h = Ok (i, h') → line_at h j = Some l →
  line_at h' j = Some l.
Proof.
  intros Hwf Hacq Hj. revert Hacq. unfold Registry_acquire.
  assert (Ok (E:=string) (alloc_line (SharedLine_make gl false c) (gl_name gl) h)
    = Ok (i, h') → line_at h' j = Some l) as Halloc.
  { intros Heq. assert (h' = (alloc_line (SharedLine_make gl false c) (gl_name gl) h).2) as ->
      by (by injection Heq).
    rewrite line_at_alloc by done. rewrite decide_False; [done|]. intros ->.
    unfold line_at in Hj. apply fmap_Some in Hj as ([l' n] & Hj & ->).
    apply (hwf_next _ Hwf) in Hj. lia. }
  destruct (lh_lines h !! gl_name gl) as [k|] eqn:Hk; cbn; [|done].
  destruct (line_at h k) as [l'|] eqn:Hl; cbn; [|done].
  unfold warnIfDescriptorMismatch. case_decide; [done|]. intros [= <- <-].
  by rewrite line_at_retain.
Qed.

(** A live registry entry survives an acquisition. *)
Lemma acquire_keeps_name gl c h i h' s j l :
  Registry_acquire gl c h = Ok (i, h') → lh_lines h !! s = Some j → line_at h j = Some l →
  lh_lines h' !! s = Some j.
Proof.
  intros Hacq Hs Hl. revert Hacq. unfold Registry_acquire.
  destruct (lh_lines h !! gl_name gl) as [k|] eqn:Hk; cbn.
  - destruct (line_at h k) as [l'|] eqn:Hlk; cbn.
    + unfold warnIfDescriptorMismatch. case_decide; [done|]. by intros [= <- <-].
    + intros Heq. assert (h' = (alloc_line (SharedLine_make gl false c) (gl_name gl) h).2) as ->
        by (by injection Heq).
      cbn. rewrite lookup_insert_ne; [done|]. intros <-. congruence.
  - intros Heq. assert (h' = (alloc_line (SharedLine_make gl false c) (gl_name gl) h).2) as ->
      by (by injection Heq).
    cbn. rewrite lookup_insert_ne; [done|]. intros <-. congruence.
Qed.

(** ** Properties *)

(** Two drivers that name the same live line with the same polarity share
    one object; another polarity is refused. *)
Theorem acquire_shares gl1 gl2 c1 c2 h i h1 :
  heap_wf h → Registry_acquire gl1 c1 h = Ok (i, h1) → gl_name gl2 = gl_name gl1 →
  (gl_activeLow gl2 = gl_activeLow gl1 →
     ∃ h2, Registry_acquire gl2 c2 h1 = Ok (i, h2) ∧ heap_wf h2 ∧
           (∀ j, line_at h2 j = line_at h1 j) ∧
           Registry_findByName (gl_name gl1) h2 = Some i) ∧
  (gl_activeLow gl2 ≠ gl_activeLow gl1 → is_ok (Registry_acquire gl2 c2 h1) = false).
Proof.
  intros Hwf Hacq Hname.
  destruct (heap_wf_acquire _ _ _ _ _ Hwf Hacq) as (Hwf1 & Hlk & l & Hl & Hn & Hal).
  unfold Registry_acquire. rewrite Hname, Hlk; cbn. rewrite Hl; cbn.
  unfold warnIfDescriptorMismatch. rewrite Hal. split; intros Hpol.
  - rewrite decide_False by (rewrite Hpol; tauto). eexists; split; [done|].
    split; [by apply heap_wf_retain|]. split; [intros; apply line_at_retain|].
    apply findByName_spec; [by apply heap_wf_retain|].
    rewrite line_at_retain, Hl. split; [done|by eexists].
  - by rewrite decide_True by congruence.
Qed.
End Heap.

Example acquire_shares_witness :
  let pgood := mkGpioLine "MODULE_PGOOD_R" false in
  let h1 := (alloc_line (C:=Z) (SharedLine_make pgood false "pwrseq-monitor")
               "MODULE_PGOOD_R" LineHeap_empty).2 in
  (gl_activeLow pgood = gl_activeLow pgood →
     ∃ h2, Registry_acquire pgood "pwrseq-monitor" h1 = Ok (0%nat, h2) ∧ heap_wf h2 ∧
           (∀ j, line_at h2 j = line_at h1 j) ∧
           Registry_findByName (gl_name pgood) h2 = Some 0%nat) ∧
  (gl_activeLow pgood ≠ gl_activeLow pgood →
     is_ok (Registry_acquire pgood "pwrseq-monitor" h1) = false).
Proof.
  cbn zeta. apply (acquire_shares _ _ "pwrseq-monitor" _ LineHeap_empty);
    [apply heap_wf_empty|done|done].
Defined.
