(* ===== verification/Drivers.v ===== *)
(** * The element drivers

    LpuDriver and FpgaDriver (pwrseq-monitor/src/hal/lpu_driver.cpp,
    src/hal/fpga_driver.cpp) over the hardware state [HalState]: the line heap,
    the reset-chip cache and the trace of what reached the hardware.

    [IDevice] is the interface the orchestrator programs against, with the laws
    it relies on; both drivers, and their union [Device], are instances. The
    theorems give the functional behaviour of initialisation on every branch,
    the telemetry poll mask and its firmware gate, and the outcomes of a
    reset. *)

From S2P Require Import Prelude Types SubscriberList Hal Lines.

(** The closures subscribed to a line capture the driver, named here by its
    packed instance key. *)
Inductive LineCallback := PgCallback (dev : Z) | BcCallback (dev : Z).

#[export] Instance LineCallback_eq_dec : EqDecision LineCallback.
Proof. solve_decision. Defined.

(** What the drivers share with the rest of the daemon. *)
Record HalState := mkHalState {
  hs_lines : LineHeap LineCallback;
  hs_chips : ResetChipRegistry;
  hs_hw : list HwEvent;
}.

Definition HalState_init : HalState := mkHalState LineHeap_empty ∅ [].

(** [pwrseq-monitor/include/hal/fpga_driver.hpp:53-69 FpgaDriver] The members
    both drivers declare; the configuration is absent before [init]. *)
Record DriverCore := mkDriverCore {
  dc_id : InstanceId;
  dc_sink : bool;
  dc_cfg : option DeviceConfig;
  dc_caps : Capabilities;
  dc_pgLine : option nat;
  dc_bcLine : option nat;
  dc_pgSub : Subscription;
  dc_bcSub : Subscription;
  dc_pgLineName : string;
  dc_bcLineName : string;
  dc_resetLineName : string;
  dc_resetActiveLow : bool;
}.

(** [pwrseq-monitor/include/hal/lpu_driver.hpp:29-86 LpuDriver] *)
Record LpuDriver := mkLpuDriver {
  lpu_core : DriverCore;
  lpu_vrTelemetryConfigured : bool;
  lpu_vrPollingSelected : bool;
  lpu_logFd : Z;
}.

(** [pwrseq-monitor/include/hal/fpga_driver.hpp:29-70 FpgaDriver] *)
Record FpgaDriver := mkFpgaDriver { fpga_core : DriverCore }.

Definition core_make (id : InstanceId) : DriverCore :=
  mkDriverCore id false None no_capabilities None None no_subscription no_subscription
    "" "" "" false.

(** [pwrseq-monitor/include/hal/lpu_driver.hpp:31-32 LpuDriver::LpuDriver] *)
Definition LpuDriver_make (id : InstanceId) : LpuDriver :=
  mkLpuDriver (core_make id) false false (-1).

Definition FpgaDriver_make (id : InstanceId) : FpgaDriver := mkFpgaDriver (core_make id).

(** The registry the driver's configuration points to. *)
Definition core_chips (c : DriverCore) (hs : HalState) : option ResetChipRegistry :=
  match dc_cfg c with
  | Some cfg => if cfg_resetChips cfg then Some (hs_chips hs) else None
  | None => None
  end.

(** [pwrseq-monitor/include/hal/lpu_driver.hpp:58-63 LpuDriver::VrPollingDecision] *)
Inductive VrPollingDecision := VrDisabled | VrEnabled | VrRetry.

#[export] Instance VrPollingDecision_eq_dec : EqDecision VrPollingDecision.
Proof. solve_decision. Defined.

Section Drivers.
Context `{Env}.
Implicit Types (c : DriverCore) (hs : HalState) (h : LineHeap LineCallback).

(** ** Code the two drivers have in common *)

(** [pwrseq-monitor/src/hal/lpu_driver.cpp:85-120 LpuDriver::init] The try
    block: both lines acquired and subscribed to, or neither kept. *)
Definition acquireLines (pg bc : GpioLine) (id : InstanceId) h
    : option (nat * nat * Subscription * Subscription) * LineHeap LineCallback :=
  match Registry_acquire pg "pwrseq-monitor" h with
  | Throw _ => (None, h)
  | Ok (newPgLine, h) =>
      match Registry_acquire bc "pwrseq-monitor" h with
      | Throw _ => (None, line_release newPgLine h)
      | Ok (newBcLine, h) =>
          let '(newPgSub, h) := SharedLine_subscribe (PgCallback (packInstance id)) newPgLine h in
          let '(newBcSub, h) := SharedLine_subscribe (BcCallback (packInstance id)) newBcLine h in
          (Some (newPgLine, newBcLine, newPgSub, newBcSub), h)
      end
  end.

(** A reset line driven through the process-wide chip cache. *)
Definition core_actuate (op : ResetLineOp) c hs : res string (Result * HalState) :=
  '(r, chips, hw) ← actuateResetOutputLine (dc_resetLineName c) (dc_resetActiveLow c) op
                      (core_chips c hs);
  Ok (r, {| hs with hs_chips := default (hs_chips hs) chips; hs_hw := hs_hw hs ++ hw |}).

(** [pwrseq-monitor/src/hal/lpu_driver.cpp:368-374 LpuDriver::clearBootCompleteCache] *)
Definition core_clearBootCompleteCache c hs : HalState :=
  match dc_bcLine c with
  | Some i => {| hs with hs_lines := SharedLine_setCachedSilently false i (hs_lines hs) |}
  | None => hs
  end.

(** [pwrseq-monitor/src/hal/lpu_driver.cpp:381-384 LpuDriver::bootCompleteActiveLow] *)
Definition core_bootCompleteActiveLow c hs : bool :=
  match dc_bcLine c ≫= line_at (hs_lines hs) with
  | Some l => SharedLine_activeLow l
  | None => false
  end.

(** The latched boot-complete level a power-good edge samples. *)
Definition core_bcHigh c hs : bool :=
  match dc_bcLine c ≫= line_at (hs_lines hs) with
  | Some l => SharedLine_hasValue l && SharedLine_read l
  | None => false
  end.

Definition core_read (i : option nat) hs : bool :=
  match i ≫= line_at (hs_lines hs) with Some l => SharedLine_read l | None => false end.

(** [pwrseq-monitor/src/hal/lpu_driver.cpp:396-410 LpuDriver::get_status] *)
Definition core_get_status c hs : DeviceStatus :=
  mkDeviceStatus (bool_decide (is_Some (dc_pgLine c)) && bool_decide (is_Some (dc_bcLine c)))
    (core_read (dc_pgLine c) hs) (core_read (dc_bcLine c) hs) 255.

(** [pwrseq-monitor/src/hal/lpu_driver.cpp:412-428 LpuDriver::fds] A shared
    line's descriptor is -1. *)
Definition core_fds c : list Z :=
  let fd_of (i : option nat) := match i with
                                | Some _ => let fd := -1 in if 0 <=? fd then [fd] else []
                                | None => []
                                end in
  fd_of (dc_pgLine c) ++ fd_of (dc_bcLine c).

Definition core_release_lines c h : DriverCore * LineHeap LineCallback :=
  let '(pgSub, h) := Subscription_reset (dc_pgSub c) h in
  let '(bcSub, h) := Subscription_reset (dc_bcSub c) h in
  let h := match dc_pgLine c with Some i => line_release i h | None => h end in
  let h := match dc_bcLine c with Some i => line_release i h | None => h end in
  ({| c with dc_pgSub := pgSub; dc_bcSub := bcSub; dc_pgLine := None; dc_bcLine := None |}, h).

(** ** LpuDriver *)

(** [pwrseq-monitor/src/hal/lpu_driver.cpp:227-272 LpuDriver::selectLpuVrPolling] *)
Definition selectLpuVrPolling (d : LpuDriver) : VrPollingDecision :=
  if negb (lpu_vrTelemetryConfigured d) || (lpu_logFd d <? 0) then VrDisabled else
  match env_fwVersion (lpu_logFd d) with
  | None => VrRetry
  | Some (major, minor, patch) =>
      if (major =? 255) && (minor =? 255) && (patch =? 255) then VrRetry
      else if (11 <? major) || ((major =? 11) && (3 <=? minor)) then VrEnabled
      else VrDisabled
  end.

(** [pwrseq-monitor/src/hal/lpu_driver.cpp:274-295 LpuDriver::applyTelemetryPolling]
    The mask is a uint8_t. *)
Definition applyTelemetryPolling (enable : bool) (d : LpuDriver) hs : Result * HalState :=
  let mask := if enable then Z.land uapi_poll_all 255 else 0 in
  let mask := if enable && lpu_vrPollingSelected d
              then Z.land (Z.lor mask uapi_poll_vr) 255 else mask in
  if env_setPolling (lpu_logFd d) mask then
    (R_Ok, {| hs with hs_hw := hs_hw hs ++ [HwPolling (lpu_logFd d) mask] |})
  else (R_HwError, hs).

(** [pwrseq-monitor/src/hal/lpu_driver.cpp:316-340 LpuDriver::setTelemetryPolling] *)
Definition LpuDriver_setTelemetryPolling (enable : bool) (d : LpuDriver) hs
    : Result * LpuDriver * HalState :=
  if lpu_logFd d <? 0 then (R_NotSupported, d, hs) else
  if enable then
    let decision := selectLpuVrPolling d in
    let d := {| d with lpu_vrPollingSelected :=
                  match decision with VrEnabled => true | _ => false end |} in
    let '(result, hs) := applyTelemetryPolling true d hs in
    if decide (result ≠ R_Ok) then (result, d, hs)
    else (match decision with VrRetry => R_NotReady | _ => R_Ok end, d, hs)
  else
    let d := {| d with lpu_vrPollingSelected := false |} in
    let '(result, hs) := applyTelemetryPolling enable d hs in
    (result, d, hs).

(** [pwrseq-monitor/src/hal/lpu_driver.cpp:342-348 LpuDriver::setVrTelemetryConfigured] *)
Definition LpuDriver_setVrTelemetryConfigured (enable : bool) (d : LpuDriver)
    : Result * LpuDriver :=
  (R_Ok, {| d with lpu_vrTelemetryConfigured := enable |}).

(** [pwrseq-monitor/src/hal/lpu_driver.cpp:297-314 LpuDriver::requestLogDrain] *)
Definition LpuDriver_requestLogDrain (d : LpuDriver) hs : Result * HalState :=
  if lpu_logFd d <? 0 then (R_NotSupported, hs) else
  if env_drain (lpu_logFd d) then
    (R_Ok, {| hs with hs_hw := hs_hw hs ++ [HwDrain (lpu_logFd d)] |})
  else (R_HwError, hs).

(** [pwrseq-monitor/src/hal/lpu_driver.cpp:153-174 LpuDriver::init] The log
    device opened, its polling switched off. *)
Definition LpuDriver_openLog (cfg : DeviceConfig) (d : LpuDriver) hs : LpuDriver * HalState :=
  let logDev := DeviceConfig_param cfg "log_dev" in
  if decide (logDev = "") then (d, hs) else
  match env_open logDev with
  | None => ({| d with lpu_logFd := -1 |}, hs)
  | Some fd =>
      let d := {| d with lpu_logFd := fd |} in
      if fd <? 0 then (d, hs)
      else
        let d := {| d with lpu_vrPollingSelected := false |} in
        (d, (applyTelemetryPolling false d hs).2)
  end.

(** [pwrseq-monitor/src/hal/lpu_driver.cpp:42-174 LpuDriver::init] The
    exception of an ambiguous reset line leaves the function. *)
Definition LpuDriver_init (cfg : DeviceConfig) (d : LpuDriver) hs
    : res string (Result * LpuDriver * HalState) :=
  let c := lpu_core d in
  if dc_sink c || bool_decide (is_Some (dc_pgLine c)) || bool_decide (is_Some (dc_bcLine c))
  then Ok (R_BadArgument, d, hs) else
  let pgLineName := DeviceConfig_param cfg "pg_line" in
  let bcLineName := DeviceConfig_param cfg "bc_line" in
  let resetLineName := DeviceConfig_param cfg "reset_line" in
  let d := {| d with lpu_vrTelemetryConfigured := false; lpu_vrPollingSelected := false |} in
  if bool_decide (pgLineName = "") || bool_decide (bcLineName = "")
     || bool_decide (resetLineName = "") then Ok (R_BadArgument, d, hs) else
  if negb (cfg_sharedLines cfg) then Ok (R_BadArgument, d, hs) else
  if negb (cfg_resetChips cfg) then Ok (R_BadArgument, d, hs) else
  let pg := mkGpioLine pgLineName (paramFlag cfg "pg_active_low") in
  let bc := mkGpioLine bcLineName (paramFlag cfg "bc_active_low") in
  match acquireLines pg bc (dc_id c) (hs_lines hs) with
  | (None, h) => Ok (R_InitFailed, d, {| hs with hs_lines := h |})
  | (Some (pgLine, bcLine, pgSub, bcSub), h) =>
      let caps := {| (dc_caps c) with cap_powerGood := true; cap_bootComplete := true;
                                      cap_warmReset := true; cap_powerCycle := false |} in
      let c := mkDriverCore (dc_id c) true (Some cfg) caps (Some pgLine) (Some bcLine)
                 pgSub bcSub pgLineName bcLineName resetLineName
                 (paramFlag cfg "reset_active_low") in
      '(_, chips) ← registry_probeOrStore resetLineName (hs_chips hs);
      let hs := {| hs with hs_lines := h; hs_chips := chips |} in
      let '(d, hs) := LpuDriver_openLog cfg {| d with lpu_core := c |} hs in
      Ok (R_Ok, d, hs)
  end.

(** [pwrseq-monitor/src/hal/lpu_driver.cpp:176-193 LpuDriver::reset] *)
Definition LpuDriver_reset (kind : ResetKind) (d : LpuDriver) hs
    : res string (Result * HalState) :=
  if decide (kind ≠ Warm) then Ok (R_NotSupported, hs) else
  if decide (dc_resetLineName (lpu_core d) = "") then Ok (R_NotSupported, hs) else
  core_actuate Trigger (lpu_core d) hs.

(** [pwrseq-monitor/src/hal/lpu_driver.cpp:195-211 LpuDriver::resetAssert] *)
Definition LpuDriver_resetAssert (kind : ResetKind) (d : LpuDriver) hs
    : res string (Result * HalState) :=
  if decide (kind ≠ Warm) then Ok (R_NotSupported, hs) else
  if decide (dc_resetLineName (lpu_core d) = "") then Ok (R_NotSupported, hs) else
  core_actuate AssertOnly (lpu_core d) hs.

(** [pwrseq-monitor/src/hal/lpu_driver.cpp:213-225 LpuDriver::resetRelease] *)
Definition LpuDriver_resetRelease (d : LpuDriver) : Result :=
  if decide (dc_resetLineName (lpu_core d) = "") then R_NotSupported else R_Ok.

(** [pwrseq-monitor/src/hal/lpu_driver.cpp:350-366 LpuDriver::shutdown] *)
Definition LpuDriver_shutdown (d : LpuDriver) hs : Result * LpuDriver * HalState :=
  let '(d, hs) :=
    if 0 <=? lpu_logFd d then
      let d := {| d with lpu_vrPollingSelected := false |} in
      let hs := (applyTelemetryPolling false d hs).2 in
      ({| d with lpu_logFd := -1 |},
       {| hs with hs_hw := hs_hw hs ++ [HwClose (lpu_logFd d)] |})
    else (d, hs) in
  let '(c, h) := core_release_lines (lpu_core d) (hs_lines hs) in
  (R_Ok, mkLpuDriver c false false (lpu_logFd d), {| hs with hs_lines := h |}).

(** ** FpgaDriver *)

(** [pwrseq-monitor/src/hal/fpga_driver.cpp:31-138 FpgaDriver::init] The line
    names are stored before they are checked. *)
Definition FpgaDriver_init (cfg : DeviceConfig) (d : FpgaDriver) hs
    : res string (Result * FpgaDriver * HalState) :=
  let c := fpga_core d in
  if dc_sink c || bool_decide (is_Some (dc_pgLine c)) || bool_decide (is_Some (dc_bcLine c))
  then Ok (R_BadArgument, d, hs) else
  let c := {| c with dc_pgLineName := DeviceConfig_param cfg "pg_line";
                     dc_bcLineName := DeviceConfig_param cfg "bc_line";
                     dc_resetLineName := DeviceConfig_param cfg "reset_line" |} in
  if bool_decide (dc_pgLineName c = "") || bool_decide (dc_bcLineName c = "")
     || bool_decide (dc_resetLineName c = "") then Ok (R_BadArgument, mkFpgaDriver c, hs) else
  if negb (cfg_sharedLines cfg) then Ok (R_BadArgument, mkFpgaDriver c, hs) else
  if negb (cfg_resetChips cfg) then Ok (R_BadArgument, mkFpgaDriver c, hs) else
  let pg := mkGpioLine (dc_pgLineName c) (paramFlag cfg "pg_active_low") in
  let bc := mkGpioLine (dc_bcLineName c) (paramFlag cfg "bc_active_low") in
  match acquireLines pg bc (dc_id c) (hs_lines hs) with
  | (None, h) => Ok (R_InitFailed, mkFpgaDriver c, {| hs with hs_lines := h |})
  | (Some (pgLine, bcLine, pgSub, bcSub), h) =>
      let caps := {| (dc_caps c) with cap_powerGood := true; cap_bootComplete := true;
                       cap_warmReset := true; cap_coldReset := true;
                       cap_powerCycle := true; cap_perRailHealth := false |} in
      let c := mkDriverCore (dc_id c) true (Some cfg) caps (Some pgLine) (Some bcLine)
                 pgSub bcSub (dc_pgLineName c) (dc_bcLineName c) (dc_resetLineName c)
                 (paramFlag cfg "reset_active_low") in
      '(_, chips) ← registry_probeOrStore (dc_resetLineName c) (hs_chips hs);
      Ok (R_Ok, mkFpgaDriver c, {| hs with hs_lines := h; hs_chips := chips |})
  end.

(** [pwrseq-monitor/src/hal/fpga_driver.cpp:140-159 FpgaDriver::reset] *)
Definition FpgaDriver_reset (kind : ResetKind) (d : FpgaDriver) hs
    : res string (Result * HalState) :=
  if decide (kind ≠ Warm ∧ kind ≠ Cold ∧ kind ≠ PowerCycle) then Ok (R_NotSupported, hs) else
  if decide (dc_resetLineName (fpga_core d) = "") then Ok (R_NotSupported, hs) else
  core_actuate Trigger (fpga_core d) hs.

(** [pwrseq-monitor/src/hal/fpga_driver.cpp:161-180 FpgaDriver::resetAssert] *)
Definition FpgaDriver_resetAssert (kind : ResetKind) (d : FpgaDriver) hs
    : res string (Result * HalState) :=
  if decide (kind ≠ Warm ∧ kind ≠ Cold ∧ kind ≠ PowerCycle) then Ok (R_NotSupported, hs) else
  if decide (dc_resetLineName (fpga_core d) = "") then Ok (R_NotSupported, hs) else
  core_actuate AssertOnly (fpga_core d) hs.

(** [pwrseq-monitor/src/hal/fpga_driver.cpp:182-192 FpgaDriver::resetRelease] *)
Definition FpgaDriver_resetRelease (d : FpgaDriver) : Result :=
  if decide (dc_resetLineName (fpga_core d) = "") then R_NotSupported else R_Ok.

(** [pwrseq-monitor/src/hal/fpga_driver.cpp:194-201 FpgaDriver::shutdown] *)
Definition FpgaDriver_shutdown (d : FpgaDriver) hs : Result * FpgaDriver * HalState :=
  let '(c, h) := core_release_lines (fpga_core d) (hs_lines hs) in
  (R_Ok, mkFpgaDriver c, {| hs with hs_lines := h |}).

(** [pwrseq-monitor/src/hal/fpga_driver.cpp:203-209 FpgaDriver::clearBootCompleteCache] *)
Definition FpgaDriver_clearBootCompleteCache (d : FpgaDriver) hs : HalState :=
  core_clearBootCompleteCache (fpga_core d) hs.

(** [pwrseq-monitor/src/hal/fpga_driver.cpp:216-219 FpgaDriver::bootCompleteActiveLow] *)
Definition FpgaDriver_bootCompleteActiveLow (d : FpgaDriver) hs : bool :=
  core_bootCompleteActiveLow (fpga_core d) hs.

(** [pwrseq-monitor/src/hal/fpga_driver.cpp:231-245 FpgaDriver::get_status] *)
Definition FpgaDriver_get_status (d : FpgaDriver) hs : DeviceStatus :=
  core_get_status (fpga_core d) hs.

(** [pwrseq-monitor/src/hal/fpga_driver.cpp:247-263 FpgaDriver::fds] *)
Definition FpgaDriver_fds (d : FpgaDriver) : list Z := core_fds (fpga_core d).
End Drivers.

(** ** The interface

    What the orchestrator calls on a device. [dev_bcLine] is the line
    [injectBootCompleteElectrical] notifies, if any; [dev_sink] says whether
    the subscribed closures find a sink; [dev_bcHigh] is the latch a power-good
    edge samples. *)

(** [pwrseq-monitor/include/hal/i_device.hpp:128-243 IDevice] *)
Class IDevice (D : Type) := {
  dev_id : D → InstanceId;
  dev_sink : D → bool;
  dev_reset `{Env} : ResetKind → D → HalState → res string (Result * HalState);
  dev_resetAssert `{Env} : ResetKind → D → HalState → res string (Result * HalState);
  dev_setTelemetryPolling `{Env} : bool → D → HalState → Result * D * HalState;
  dev_setVrTelemetryConfigured : bool → D → Result * D;
  dev_requestLogDrain `{Env} : D → HalState → Result * HalState;
  dev_shutdown `{Env} : D → HalState → Result * D * HalState;
  dev_clearBootCompleteCache : D → HalState → HalState;
  dev_bootCompleteLineName : D → string;
  dev_bootCompleteActiveLow : D → HalState → bool;
  dev_bcLine : D → option nat;
  dev_bcHigh : D → HalState → bool;
  dev_fds : D → list Z;
}.

(** What the orchestrator relies on: the calls below leave the lines alone,
    and no call changes what a device is; clearing the boot-complete cache
    writes the injection line, and only that; the polarity and the latch are
    the injection line's. *)
Class IDeviceLaws (D : Type) `{!IDevice D} : Prop := {
  law_reset_lines `{Env} k d hs r hs' :
    dev_reset k d hs = Ok (r, hs') → hs_lines hs' = hs_lines hs;
  law_assert_lines `{Env} k d hs r hs' :
    dev_resetAssert k d hs = Ok (r, hs') → hs_lines hs' = hs_lines hs;
  law_polling_lines `{Env} b d hs :
    hs_lines (dev_setTelemetryPolling b d hs).2 = hs_lines hs;
  law_polling_same `{Env} b d hs : let d' := (dev_setTelemetryPolling b d hs).1.2 in
    dev_id d' = dev_id d ∧ dev_sink d' = dev_sink d ∧ dev_bcLine d' = dev_bcLine d ∧
    dev_bootCompleteLineName d' = dev_bootCompleteLineName d;
  law_vr_same b d : let d' := (dev_setVrTelemetryConfigured b d).2 in
    dev_id d' = dev_id d ∧ dev_sink d' = dev_sink d ∧ dev_bcLine d' = dev_bcLine d ∧
    dev_bootCompleteLineName d' = dev_bootCompleteLineName d;
  law_drain_lines `{Env} d hs : hs_lines (dev_requestLogDrain d hs).2 = hs_lines hs;
  law_clear d hs : hs_lines (dev_clearBootCompleteCache d hs) =
    match dev_bcLine d with
    | Some i => SharedLine_setCachedSilently false i (hs_lines hs)
    | None => hs_lines hs
    end;
  law_activeLow d hs : dev_bootCompleteActiveLow d hs =
    match dev_bcLine d ≫= line_at (hs_lines hs) with
    | Some l => SharedLine_activeLow l | None => false
    end;
  law_bcHigh d hs : dev_bcHigh d hs =
    match dev_bcLine d ≫= line_at (hs_lines hs) with
    | Some l => SharedLine_hasValue l && SharedLine_read l | None => false
    end;
}.

#[export] Instance LpuDriver_IDevice : IDevice LpuDriver := {
  dev_id d := dc_id (lpu_core d);
  dev_sink d := dc_sink (lpu_core d);
  dev_reset _ := LpuDriver_reset;
  dev_resetAssert _ := LpuDriver_resetAssert;
  dev_setTelemetryPolling _ := LpuDriver_setTelemetryPolling;
  dev_setVrTelemetryConfigured := LpuDriver_setVrTelemetryConfigured;
  dev_requestLogDrain _ := LpuDriver_requestLogDrain;
  dev_shutdown _ := LpuDriver_shutdown;
  dev_clearBootCompleteCache d := core_clearBootCompleteCache (lpu_core d);
  dev_bootCompleteLineName d := dc_bcLineName (lpu_core d);
  dev_bootCompleteActiveLow d := core_bootCompleteActiveLow (lpu_core d);
  dev_bcLine d := dc_bcLine (lpu_core d);
  dev_bcHigh d := core_bcHigh (lpu_core d);
  dev_fds d := core_fds (lpu_core d);
}.

(** The telemetry calls keep the defaults of the interface. *)
#[export] Instance FpgaDriver_IDevice : IDevice FpgaDriver := {
  dev_id d := dc_id (fpga_core d);
  dev_sink d := dc_sink (fpga_core d);
  dev_reset _ := FpgaDriver_reset;
  dev_resetAssert _ := FpgaDriver_resetAssert;
  dev_setTelemetryPolling _ _ d hs := (R_NotSupported, d, hs);
  dev_setVrTelemetryConfigured _ d := (R_NotSupported, d);
  dev_requestLogDrain _ _ hs := (R_NotSupported, hs);
  dev_shutdown _ := FpgaDriver_shutdown;
  dev_clearBootCompleteCache := FpgaDriver_clearBootCompleteCache;
  dev_bootCompleteLineName d := dc_bcLineName (fpga_core d);
  dev_bootCompleteActiveLow := FpgaDriver_bootCompleteActiveLow;
  dev_bcLine d := dc_bcLine (fpga_core d);
  dev_bcHigh d := core_bcHigh (fpga_core d);
  dev_fds := FpgaDriver_fds;
}.

(** A device of either class. *)
Inductive Device := DevLpu (d : LpuDriver) | DevFpga (d : FpgaDriver).

#[export] Instance Device_IDevice : IDevice Device := {
  dev_id d := match d with DevLpu d => dev_id d | DevFpga d => dev_id d end;
  dev_sink d := match d with DevLpu d => dev_sink d | DevFpga d => dev_sink d end;
  dev_reset _ k d := match d with DevLpu d => dev_reset k d | DevFpga d => dev_reset k d end;
  dev_resetAssert _ k d :=
    match d with DevLpu d => dev_resetAssert k d | DevFpga d => dev_resetAssert k d end;
  dev_setTelemetryPolling _ b d hs :=
    match d with
    | DevLpu d => let '(r, d, hs) := dev_setTelemetryPolling b d hs in (r, DevLpu d, hs)
    | DevFpga d => let '(r, d, hs) := dev_setTelemetryPolling b d hs in (r, DevFpga d, hs)
    end;
  dev_setVrTelemetryConfigured b d :=
    match d with
    | DevLpu d => let '(r, d) := dev_setVrTelemetryConfigured b d in (r, DevLpu d)
    | DevFpga d => let '(r, d) := dev_setVrTelemetryConfigured b d in (r, DevFpga d)
    end;
  dev_requestLogDrain _ d :=
    match d with DevLpu d => dev_requestLogDrain d | DevFpga d => dev_requestLogDrain d end;
  dev_shutdown _ d hs :=
    match d with
    | DevLpu d => let '(r, d, hs) := dev_shutdown d hs in (r, DevLpu d, hs)
    | DevFpga d => let '(r, d, hs) := dev_shutdown d hs in (r, DevFpga d, hs)
    end;
  dev_clearBootCompleteCache d :=
    match d with
    | DevLpu d => dev_clearBootCompleteCache d | DevFpga d => dev_clearBootCompleteCache d
    end;
  dev_bootCompleteLineName d :=
    match d with
    | DevLpu d => dev_bootCompleteLineName d | DevFpga d => dev_bootCompleteLineName d
    end;
  dev_bootCompleteActiveLow d :=
    match d with
    | DevLpu d => dev_bootCompleteActiveLow d | DevFpga d => dev_bootCompleteActiveLow d
    end;
  dev_bcLine d := match d with DevLpu d => dev_bcLine d | DevFpga d => dev_bcLine d end;
  dev_bcHigh d := match d with DevLpu d => dev_bcHigh d | DevFpga d => dev_bcHigh d end;
  dev_fds d := match d with DevLpu d => dev_fds d | DevFpga d => dev_fds d end;
}.

(** ** The drivers keep the laws *)

Section Laws.
Context `{Env}.

Lemma core_actuate_lines op c hs r hs' :
  core_actuate op c hs = Ok (r, hs') → hs_lines hs' = hs_lines hs.
Proof.
  unfold core_actuate. intros ([[r' chips] hw] & _ & Heq)%res_bind_ok. by injection Heq as <- <-.
Qed.

Lemma core_clear_lines c hs :
  hs_lines (core_clearBootCompleteCache c hs) =
    match dc_bcLine c with
    | Some i => SharedLine_setCachedSilently false i (hs_lines hs)
    | None => hs_lines hs
    end.
Proof. unfold core_clearBootCompleteCache. by destruct (dc_bcLine c). Qed.

Lemma applyTelemetryPolling_lines b d hs :
  hs_lines (applyTelemetryPolling b d hs).2 = hs_lines hs.
Proof. unfold applyTelemetryPolling. cbn zeta. by case_match. Qed.

End Laws.

#[export] Instance LpuDriver_laws : IDeviceLaws LpuDriver.
Proof.
  split; cbn.
  - intros E k d hs r hs'. unfold LpuDriver_reset. repeat case_decide; try by intros [= <- <-].
    apply core_actuate_lines.
  - intros E k d hs r hs'. unfold LpuDriver_resetAssert.
    repeat case_decide; try by intros [= <- <-]. apply core_actuate_lines.
  - intros E b d hs. unfold LpuDriver_setTelemetryPolling. case_match; [done|].
    destruct b; cbn zeta;
      (destruct (applyTelemetryPolling _ _ _) as [r hs'] eqn:Ha;
       pose proof (f_equal snd Ha) as Ha'; cbn in Ha'; subst hs';
       try case_decide; apply applyTelemetryPolling_lines).
  - intros E b d hs. unfold LpuDriver_setTelemetryPolling. case_match; [done|].
    destruct b; cbn zeta; destruct (applyTelemetryPolling _ _ _); [by case_decide|done].
  - done.
  - intros E d hs. unfold LpuDriver_requestLogDrain. by repeat case_match.
  - intros d hs. apply core_clear_lines.
  - done.
  - done.
Qed.

#[export] Instance FpgaDriver_laws : IDeviceLaws FpgaDriver.
Proof.
  split; cbn; try done.
  - intros E k d hs r hs'. unfold FpgaDriver_reset. repeat case_decide; try by intros [= <- <-].
    apply core_actuate_lines.
  - intros E k d hs r hs'. unfold FpgaDriver_resetAssert.
    repeat case_decide; try by intros [= <- <-]. apply core_actuate_lines.
  - intros d hs. apply core_clear_lines.
Qed.

#[export] Instance Device_laws : IDeviceLaws Device.
Proof.
  split.
  - intros E k [d|d]; [apply (law_reset_lines (D:=LpuDriver))|apply (law_reset_lines (D:=FpgaDriver))].
  - intros E k [d|d]; [apply (law_assert_lines (D:=LpuDriver))|apply (law_assert_lines (D:=FpgaDriver))].
  - intros E b [d|d] hs; [|done]. pose proof (law_polling_lines b d hs) as Hl. cbn in *.
    by destruct (LpuDriver_setTelemetryPolling b d hs) as [[? ?] ?].
  - intros E b [d|d] hs; [|done]. pose proof (law_polling_same b d hs) as Hl. cbn in *.
    by destruct (LpuDriver_setTelemetryPolling b d hs) as [[? ?] ?].
  - intros b [d|d]; done.
  - intros E [d|d]; [apply (law_drain_lines (D:=LpuDriver))|done].
  - intros [d|d]; [apply (law_clear (D:=LpuDriver))|apply (law_clear (D:=FpgaDriver))].
  - by intros [d|d].
  - by intros [d|d].
Qed.

(** ** Initialisation *)

(** A line the registry holds under a name, with a callback subscribed to it. *)
Definition wired (h : LineHeap LineCallback) (name : string) (i : nat) (cb : LineCallback)
    : Prop :=
  lh_lines h !! name = Some i ∧
  ∃ l, line_at h i = Some l ∧ SharedLine_name l = name ∧ cb ∈ (subs_ (sl_subs l)).*2.

Section Init.
Context `{Env}.

Lemma acquireLines_wired pg bc id h a b sa sb h' :
  heap_wf h → acquireLines pg bc id h = (Some (a, b, sa, sb), h') →
  heap_wf h' ∧ wired h' (gl_name pg) a (PgCallback (packInstance id)) ∧
  wired h' (gl_name bc) b (BcCallback (packInstance id)).
Proof.
  intros Hwf. unfold acquireLines.
  destruct (Registry_acquire pg _ h) as [[i h1]|] eqn:H1; [|done].
  destruct (Registry_acquire bc _ h1) as [[j h2]|] eqn:H2; [|done].
  destruct (heap_wf_acquire _ _ _ _ _ Hwf H1) as (Hwf1 & Hl1 & l1 & Ha1 & Hn1 & _).
  destruct (heap_wf_acquire _ _ _ _ _ Hwf1 H2) as (Hwf2 & Hl2 & l2 & Ha2 & Hn2 & _).
  pose proof (acquire_lines _ _ _ _ _ _ _ Hwf1 H2 Ha1) as Ha1'.
  pose proof (acquire_keeps_name _ _ _ _ _ _ _ _ H2 Hl1 Ha1) as Hl1'.
  destruct (SharedLine_subscribe _ i h2) as [s1 h3] eqn:H3.
  destruct (SharedLine_subscribe _ j h3) as [s2 h4] eqn:H4. intros [= <- <- <- <- <-].
  pose proof (f_equal snd H3) as E3. pose proof (f_equal snd H4) as E4. cbn in E3, E4. subst h4 h3.
  split; [by repeat apply heap_wf_subscribe|]. unfold wired.
  rewrite !subscribe_lines. split; (split; [done|]).
  - rewrite !line_at_subscribe, Ha1'. repeat case_decide; try done; eexists;
      (split; [done|]); (split; [exact Hn1|]); cbn; rewrite ?fmap_app; set_solver.
  - rewrite !line_at_subscribe, Ha2. repeat case_decide; try done; eexists;
      (split; [done|]); (split; [exact Hn2|]); cbn; rewrite ?fmap_app; set_solver.
Qed.
End Init.

(** A configuration a driver can start from. *)
Definition cfg_complete (cfg : DeviceConfig) : bool :=
  bool_decide (DeviceConfig_param cfg "pg_line" ≠ "") &&
  bool_decide (DeviceConfig_param cfg "bc_line" ≠ "") &&
  bool_decide (DeviceConfig_param cfg "reset_line" ≠ "") &&
  cfg_sharedLines cfg && cfg_resetChips cfg.

Definition cfg_pg (cfg : DeviceConfig) : GpioLine :=
  mkGpioLine (DeviceConfig_param cfg "pg_line") (paramFlag cfg "pg_active_low").
Definition cfg_bc (cfg : DeviceConfig) : GpioLine :=
  mkGpioLine (DeviceConfig_param cfg "bc_line") (paramFlag cfg "bc_active_low").

(** What a started driver holds: a sink, and both lines of the registry with
    its callbacks subscribed. *)
Definition core_started (cfg : DeviceConfig) (id : InstanceId) (c : DriverCore)
    (h : LineHeap LineCallback) : Prop :=
  dc_id c = id ∧ dc_sink c = true ∧ dc_cfg c = Some cfg ∧
  dc_bcLineName c = DeviceConfig_param cfg "bc_line" ∧
  dc_resetLineName c = DeviceConfig_param cfg "reset_line" ∧
  ∃ pg bc, dc_pgLine c = Some pg ∧ dc_bcLine c = Some bc ∧
    wired h (gl_name (cfg_pg cfg)) pg (PgCallback (packInstance id)) ∧
    wired h (gl_name (cfg_bc cfg)) bc (BcCallback (packInstance id)).

(** The argument checks of init, in one. *)
Lemma cfg_gate {A} cfg (x y : A) :
  (if bool_decide (DeviceConfig_param cfg "pg_line" = "")
      || bool_decide (DeviceConfig_param cfg "bc_line" = "")
      || bool_decide (DeviceConfig_param cfg "reset_line" = "") then y else
   if negb (cfg_sharedLines cfg) then y else if negb (cfg_resetChips cfg) then y else x) =
  if cfg_complete cfg then x else y.
Proof.
  unfold cfg_complete.
  by destruct (cfg_sharedLines cfg), (cfg_resetChips cfg); repeat case_bool_decide.
Qed.

Section InitProperties.
Context `{Env}.

Lemma acquireLines_wf pg bc id h : heap_wf h → heap_wf (acquireLines pg bc id h).2.
Proof.
  intros Hwf. unfold acquireLines.
  destruct (Registry_acquire pg _ h) as [[i h1]|] eqn:H1; [|done].
  destruct (heap_wf_acquire _ _ _ _ _ Hwf H1) as (Hwf1 & _).
  destruct (Registry_acquire bc _ h1) as [[j h2]|] eqn:H2; [|by apply heap_wf_release].
  destruct (heap_wf_acquire _ _ _ _ _ Hwf1 H2) as (Hwf2 & _).
  destruct (SharedLine_subscribe _ i h2) as [s1 h3] eqn:H3.
  destruct (SharedLine_subscribe _ j h3) as [s2 h4] eqn:H4. cbn.
  pose proof (f_equal snd H3) as E3. pose proof (f_equal snd H4) as E4. cbn in E3, E4. subst.
  by repeat apply heap_wf_subscribe.
Qed.

(** Opening the log device at most switches its polling off. *)
Lemma LpuDriver_openLog_effect cfg d hs :
  let '(d', hs') := LpuDriver_openLog cfg d hs in
  lpu_core d' = lpu_core d ∧ hs_lines hs' = hs_lines hs ∧ hs_chips hs' = hs_chips hs ∧
  (hs_hw hs' = hs_hw hs ∨ ∃ fd, hs_hw hs' = hs_hw hs ++ [HwPolling fd 0]).
Proof.
  unfold LpuDriver_openLog. case_decide; [by auto|].
  destruct (env_open _) as [fd|]; [|by auto]. destruct (fd <? 0); [by auto|].
  unfold applyTelemetryPolling; cbn. destruct (env_setPolling _ _); cbn; eauto 10.
Qed.

(** The lines an unsuccessful initialisation could not have: one of them is
    live in the registry under the other polarity. *)
Lemma acquireLines_fail pg bc id h :
  heap_wf h → (acquireLines pg bc id h).1 = None →
  ∃ gl h', gl ∈ [pg; bc] ∧ is_ok (Registry_acquire (C:=LineCallback) gl "pwrseq-monitor" h') = false.
Proof.
  intros Hwf. unfold acquireLines.
  destruct (Registry_acquire pg _ h) as [[i h1]|] eqn:H1.
  - destruct (Registry_acquire bc _ h1) as [[j h2]|] eqn:H2.
    + destruct (SharedLine_subscribe _ i h2). by destruct (SharedLine_subscribe _ j _).
    + intros _. exists bc, h1. split; [set_solver|by rewrite H2].
  - intros _. exists pg, h. split; [set_solver|by rewrite H1].
Qed.

(** Initialising a fresh LPU driver has three outcomes: it starts, holding
    both lines with its callbacks subscribed, and the hardware at most sees
    its log polling switched off; it refuses an incomplete configuration and
    touches nothing; or a line is live under another polarity and it keeps
    nothing. No reset line is driven in any of them. *)
Theorem lpu_init_outcomes cfg id hs r d hs' :
  heap_wf (hs_lines hs) → LpuDriver_init cfg (LpuDriver_make id) hs = Ok (r, d, hs') →
  heap_wf (hs_lines hs') ∧
  match r with
  | R_Ok => cfg_complete cfg = true ∧ core_started cfg id (lpu_core d) (hs_lines hs') ∧
      (hs_hw hs' = hs_hw hs ∨ ∃ fd, hs_hw hs' = hs_hw hs ++ [HwPolling fd 0])
  | R_BadArgument => cfg_complete cfg = false ∧ hs' = hs ∧ dc_sink (lpu_core d) = false
  | R_InitFailed => cfg_complete cfg = true ∧ lpu_core d = core_make id ∧
      hs_chips hs' = hs_chips hs ∧ hs_hw hs' = hs_hw hs
  | _ => False
  end.
Proof.
  intros Hwf. unfold LpuDriver_init. cbn [LpuDriver_make lpu_core core_make dc_sink dc_pgLine
    dc_bcLine dc_id dc_caps orb]. rewrite !bool_decide_false by (by intros [? ?]). cbn [orb].
  rewrite cfg_gate. destruct (cfg_complete cfg) eqn:Hc; [|by intros [= <- <- <-]].
  fold (cfg_pg cfg) (cfg_bc cfg).
  pose proof (acquireLines_wf (cfg_pg cfg) (cfg_bc cfg) id _ Hwf) as Hwf'.
  destruct (acquireLines _ _ _ _) as [[[[[a b] sa] sb]|] h'] eqn:Ha; cbn in Hwf'.
  - destruct (acquireLines_wired _ _ _ _ _ _ _ _ _ Hwf Ha) as (_ & Hpg & Hbc).
    intros ([chip chips] & _ & Heq)%res_bind_ok. revert Heq.
    pose proof (LpuDriver_openLog_effect cfg) as Hlog.
    match goal with |- context [LpuDriver_openLog cfg ?d0 ?hs0] =>
      specialize (Hlog d0 hs0); destruct (LpuDriver_openLog cfg d0 hs0) as [d1 hs1] end.
    destruct Hlog as (Hcore & Hl & _ & Hhw). intros [= <- <- <-]. rewrite Hl, Hcore.
    cbn in *. split; [done|]. split; [done|]. split; [|done].
    unfold core_started; cbn. split_and!; try done. by exists a, b.
  - intros [= <- <- <-]. done.
Qed.

(** After a shutdown the driver cannot be initialised again, although init asks
    for a shutdown first: the sink is never cleared. *)
Theorem shutdown_blocks_reinit cfg d hs hs' :
  dc_sink (lpu_core d) = true →
  let '(r, d', _) := LpuDriver_shutdown d hs in
  r = R_Ok ∧ dc_pgLine (lpu_core d') = None ∧ dc_bcLine (lpu_core d') = None ∧
  LpuDriver_init cfg d' hs' = Ok (R_BadArgument, d', hs').
Proof.
  intros Hs. unfold LpuDriver_shutdown.
  assert (∀ d1 hs1, lpu_core d1 = lpu_core d →
    let '(c, h) := core_release_lines (lpu_core d1) (hs_lines hs1) in
    dc_pgLine c = None ∧ dc_bcLine c = None ∧ dc_sink c = true) as Hrel.
  { intros d1 hs1 ->. unfold core_release_lines.
    destruct (Subscription_reset _ _). by destruct (Subscription_reset _ _). }
  destruct (0 <=? lpu_logFd d).
  - match goal with |- context [core_release_lines (lpu_core ?d1) (hs_lines ?hs1)] =>
      specialize (Hrel d1 hs1 eq_refl); destruct (core_release_lines _ _) as [c h] end.
    destruct Hrel as (Hp & Hb & Hsk). split_and!; try done.
    unfold LpuDriver_init. cbn [lpu_core]. by rewrite Hsk.
  - specialize (Hrel d hs eq_refl). destruct (core_release_lines _ _) as [c h].
    destruct Hrel as (Hp & Hb & Hsk). split_and!; try done.
    unfold LpuDriver_init. cbn [lpu_core]. by rewrite Hsk.
Qed.
End InitProperties.

Section FpgaInit.
Context `{Env}.

(** The FPGA driver starts under the same conditions. *)
Lemma fpga_init_outcomes cfg id hs r d hs' :
  heap_wf (hs_lines hs) → FpgaDriver_init cfg (FpgaDriver_make id) hs = Ok (r, d, hs') →
  heap_wf (hs_lines hs') ∧ hs_hw hs' = hs_hw hs ∧
  match r with
  | R_Ok => cfg_complete cfg = true ∧ core_started cfg id (fpga_core d) (hs_lines hs')
  | R_BadArgument => cfg_complete cfg = false ∧ hs' = hs ∧ dc_sink (fpga_core d) = false
  | R_InitFailed => cfg_complete cfg = true ∧ dc_sink (fpga_core d) = false ∧
      hs_chips hs' = hs_chips hs
  | _ => False
  end.
Proof.
  intros Hwf. unfold FpgaDriver_init. cbn [FpgaDriver_make fpga_core core_make dc_sink dc_pgLine
    dc_bcLine dc_id dc_caps dc_pgLineName dc_bcLineName dc_resetLineName orb].
  rewrite !bool_decide_false by (by intros [? ?]). cbn [orb]. rewrite cfg_gate.
  destruct (cfg_complete cfg) eqn:Hc; [|by intros [= <- <- <-]].
  fold (cfg_pg cfg) (cfg_bc cfg).
  pose proof (acquireLines_wf (cfg_pg cfg) (cfg_bc cfg) id _ Hwf) as Hwf'.
  destruct (acquireLines _ _ _ _) as [[[[[a b] sa] sb]|] h'] eqn:Ha; cbn in Hwf'.
  - destruct (acquireLines_wired _ _ _ _ _ _ _ _ _ Hwf Ha) as (_ & Hpg & Hbc).
    intros ([chip chips] & _ & Heq)%res_bind_ok. revert Heq. intros [= <- <- <-].
    cbn. split_and!; try done. unfold core_started; cbn. split_and!; try done. by exists a, b.
  - intros [= <- <- <-]. done.
Qed.
End FpgaInit.

(** ** Telemetry polling *)

(** Firmware 11.3 and later polls the voltage regulators; an answer of all
    ones is no answer. *)
Definition fw_available (v : option (Z * Z * Z)) : Prop :=
  ∃ major minor patch, v = Some (major, minor, patch) ∧
    (major, minor, patch) ≠ (255, 255, 255).
Definition fw_polls_vr (v : option (Z * Z * Z)) : Prop :=
  ∃ major minor patch, v = Some (major, minor, patch) ∧
    (major, minor, patch) ≠ (255, 255, 255) ∧ (11 < major ∨ major = 11 ∧ 3 ≤ minor).

Section Polling.
Context `{Env}.

Lemma selectLpuVrPolling_spec d :
  match selectLpuVrPolling d with
  | VrEnabled => lpu_vrTelemetryConfigured d = true ∧ 0 ≤ lpu_logFd d ∧
                 fw_polls_vr (env_fwVersion (lpu_logFd d))
  | VrRetry => lpu_vrTelemetryConfigured d = true ∧ 0 ≤ lpu_logFd d ∧
               ¬ fw_available (env_fwVersion (lpu_logFd d))
  | VrDisabled => lpu_vrTelemetryConfigured d = true → 0 ≤ lpu_logFd d →
      fw_available (env_fwVersion (lpu_logFd d)) ∧
      ¬ fw_polls_vr (env_fwVersion (lpu_logFd d))
  end.
Proof.
  unfold selectLpuVrPolling.
  destruct (lpu_vrTelemetryConfigured d); [|done].
  destruct (Z.ltb_spec (lpu_logFd d) 0); [cbn; intros; lia|]. cbn.
  destruct (env_fwVersion _) as [[[maj mi] pa]|].
  - destruct ((maj =? 255) && (mi =? 255) && (pa =? 255)) eqn:Hff.
    + bool_to_prop. subst. split_and!; [done|done|]. intros (? & ? & ? & [= <- <- <-] & ?). done.
    + assert ((maj, mi, pa) ≠ (255, 255, 255)) by (intros [= -> -> ->]; done).
      destruct ((11 <? maj) || ((maj =? 11) && (3 <=? mi))) eqn:Hv.
      * split_and!; [done|done|]. exists maj, mi, pa. split_and!; [done|done|].
        apply orb_true_iff in Hv as [Hv|Hv]; bool_to_prop; lia.
      * intros _ _. split; [by exists maj, mi, pa|]. intros (? & ? & ? & [= <- <- <-] & _ & Hge).
        apply orb_false_iff in Hv as [? [?|?]%andb_false_iff]; bool_to_prop; lia.
  - split_and!; [done|done|]. by intros (? & ? & ? & ? & ?).
Qed.

Lemma select_enabled d :
  0 ≤ lpu_logFd d →
  selectLpuVrPolling d = VrEnabled ↔
    lpu_vrTelemetryConfigured d = true ∧ fw_polls_vr (env_fwVersion (lpu_logFd d)).
Proof.
  intros Hge. pose proof (selectLpuVrPolling_spec d) as Hsel.
  assert (∀ v, fw_polls_vr v → fw_available v) as Hav.
  { intros v (a & b & c & ? & ? & _). by exists a, b, c. }
  destruct (selectLpuVrPolling d); split; try done; try tauto.
  all: intros [Hc Hp]; exfalso; try (by destruct (Hsel Hc Hge)).
  destruct Hsel as (_ & _ & Hn). by apply Hn, Hav.
Qed.

(** Switching telemetry polling, on every branch: without a log device it is
    not supported; otherwise the poll mask written carries the voltage
    regulator bit exactly when polling goes on, the platform delegates VR
    telemetry and the firmware is known to be 11.3 or later; NotReady means
    polling is on but the firmware could not be read yet. *)
Theorem polling_mask en d hs r d' hs' :
  LpuDriver_setTelemetryPolling en d hs = (r, d', hs') →
  (lpu_logFd d < 0 → r = R_NotSupported ∧ d' = d ∧ hs' = hs) ∧
  (0 ≤ lpu_logFd d →
   let vr := lpu_vrPollingSelected d' in
   let mask := if en then Z.land (Z.lor (Z.land uapi_poll_all 255) (if vr then uapi_poll_vr else 0)) 255
               else 0 in
   (vr = true ↔ en = true ∧ lpu_vrTelemetryConfigured d = true ∧
                fw_polls_vr (env_fwVersion (lpu_logFd d))) ∧
   (env_setPolling (lpu_logFd d) mask = false → r = R_HwError ∧ hs_hw hs' = hs_hw hs) ∧
   (env_setPolling (lpu_logFd d) mask = true →
      hs_hw hs' = hs_hw hs ++ [HwPolling (lpu_logFd d) mask] ∧
      r = if decide (en = true ∧ selectLpuVrPolling d = VrRetry) then R_NotReady else R_Ok)).
Proof.
  unfold LpuDriver_setTelemetryPolling.
  destruct (Z.ltb_spec (lpu_logFd d) 0) as [Hlt|Hge].
  { intros [= <- <- <-]. split; [done|]. lia. }
  pose proof (select_enabled d Hge) as Hen.
  intros Heq. split; [lia|]. intros _. revert Heq. cbn zeta. unfold applyTelemetryPolling.
  assert (Z.land (Z.lor (Z.land uapi_poll_all 255) 0) 255 = Z.land uapi_poll_all 255) as Hm.
  { by rewrite Z.lor_0_r, <-Z.land_assoc. }
  destruct en; cbn [andb lpu_vrPollingSelected lpu_logFd].
  - destruct (selectLpuVrPolling d) eqn:Hs; rewrite ?Hm;
      (destruct (env_setPolling _ _) eqn:Hp; cbn;
       [rewrite decide_False by (intros Hx; by apply Hx)|rewrite decide_True by done]);
      intros [= <- <- <-]; cbn [lpu_vrPollingSelected snd fst hs_hw]; rewrite ?Hm, ?Hp;
      repeat match goal with |- _ ∧ _ => split end; try done.
    all: rewrite ?Hs in Hen; rewrite <-Hen.
    all: split; [done || tauto|by intros [_ ?] || tauto].
  - destruct (env_setPolling _ _) eqn:Hp; intros [= <- <- <-]; cbn; rewrite ?Hp;
      repeat match goal with |- _ ∧ _ => split end; try done; try naive_solver.
Qed.
End Polling.

(** ** Examples *)

Definition lpu0_cfg : DeviceConfig :=
  mkDeviceConfig (mkInstanceId Lpu 0) 12000
    [("pg_line", "MODULE_PGOOD_R"); ("pg_active_low", "0");
     ("bc_line", "LPU0_BOOT_COMPLETE"); ("bc_active_low", "0");
     ("reset_line", "LPU0_RST"); ("reset_active_low", "1"); ("log_dev", "/dev/lpu0-log")]
    true true.

(** A driver started on the bench. *)
Definition lpu0_started : res string (Result * LpuDriver * HalState) :=
  @LpuDriver_init bench_env lpu0_cfg (LpuDriver_make (mkInstanceId Lpu 0)) HalState_init.

Definition lpu0 : LpuDriver * HalState :=
  match lpu0_started with
  | Ok (_, d, hs) => (d, hs)
  | Throw _ => (LpuDriver_make (mkInstanceId Lpu 0), HalState_init)
  end.

Example lpu_init_outcomes_witness :
  heap_wf (hs_lines lpu0.2) ∧ cfg_complete lpu0_cfg = true ∧
  core_started lpu0_cfg (mkInstanceId Lpu 0) (lpu_core lpu0.1) (hs_lines lpu0.2) ∧
  (hs_hw lpu0.2 = [] ∨ ∃ fd, hs_hw lpu0.2 = [] ++ [HwPolling fd 0]).
Proof.
  apply (@lpu_init_outcomes bench_env lpu0_cfg (mkInstanceId Lpu 0) HalState_init R_Ok
           lpu0.1 lpu0.2).
  - apply heap_wf_empty.
  - vm_compute. reflexivity.
Defined.

Example shutdown_blocks_reinit_witness :
  let '(r, d', _) := @LpuDriver_shutdown bench_env lpu0.1 lpu0.2 in
  r = R_Ok ∧ dc_pgLine (lpu_core d') = None ∧ dc_bcLine (lpu_core d') = None ∧
  @LpuDriver_init bench_env lpu0_cfg d' HalState_init = Ok (R_BadArgument, d', HalState_init).
Proof. apply (@shutdown_blocks_reinit bench_env lpu0_cfg). reflexivity. Defined.

(** The bench answers firmware 11.4: VR polling goes on once configured. *)
Definition lpu0_vr : LpuDriver := (LpuDriver_setVrTelemetryConfigured true lpu0.1).2.

Example polling_mask_witness :
  let '(r, d', hs') := @LpuDriver_setTelemetryPolling bench_env true lpu0_vr lpu0.2 in
  (lpu_logFd lpu0_vr < 0 → r = R_NotSupported ∧ d' = lpu0_vr ∧ hs' = lpu0.2) ∧
  (0 ≤ lpu_logFd lpu0_vr →
   let vr := lpu_vrPollingSelected d' in
   let mask := Z.land (Z.lor (Z.land 3 255) (if vr then 4 else 0)) 255 in
   (vr = true ↔ true = true ∧ lpu_vrTelemetryConfigured lpu0_vr = true ∧
                fw_polls_vr (@env_fwVersion bench_env (lpu_logFd lpu0_vr))) ∧
   (@env_setPolling bench_env (lpu_logFd lpu0_vr) mask = false →
      r = R_HwError ∧ hs_hw hs' = hs_hw lpu0.2) ∧
   (@env_setPolling bench_env (lpu_logFd lpu0_vr) mask = true →
      hs_hw hs' = hs_hw lpu0.2 ++ [HwPolling (lpu_logFd lpu0_vr) mask] ∧
      r = if decide (true = true ∧ @selectLpuVrPolling bench_env lpu0_vr = VrRetry)
          then R_NotReady else R_Ok)).
Proof. apply (@polling_mask bench_env true lpu0_vr lpu0.2). reflexivity. Defined.
