(* ===== verification/Descriptor.v ===== *)
(** * The platform descriptor

    The descriptor records (pwrseq-monitor/include/config/descriptor.hpp) and
    their loader (pwrseq-monitor/src/config/descriptor_loader.cpp), from a
    parsed JSON value to the descriptor or the text of the exception. The JSON
    parser is nlohmann's: an argument of the two entry points.

    The theorems: what is loaded is structurally consistent, and every
    consistent descriptor can be loaded, from its encoding; an unknown key is
    always refused. *)

From stdpp Require Import pretty.
From Stdlib Require Import Ascii.
From S2P Require Import Prelude Json.

(** ** The records *)

(** [pwrseq-monitor/include/config/descriptor.hpp:81-90 LineRef] *)
Record LineRef := mkLineRef { lr_line : string; lr_activeLow : bool }.

Definition LineRef_empty (r : LineRef) : bool := String.eqb (lr_line r) "".

Definition LineRef_default : LineRef := mkLineRef "" false.

(** [pwrseq-monitor/include/config/descriptor.hpp:93-101 TelemetryDescriptor] *)
Record TelemetryDescriptor := mkTelemetryDescriptor { td_logDev : string }.

(** [pwrseq-monitor/include/config/descriptor.hpp:106-110 BootStatusDescriptor]
    An array of four. *)
Record BootStatusDescriptor := mkBootStatusDescriptor {
  bs_bits : list LineRef;
  bs_enabled : bool;
}.

Definition BootStatus_default : BootStatusDescriptor :=
  mkBootStatusDescriptor (replicate 4 LineRef_default) false.

(** [pwrseq-monitor/include/config/descriptor.hpp:117-122 ElementDescriptor::Kind] *)
Inductive ElementKind := K_Lpu | K_Mcu | K_Gpu.

(** [pwrseq-monitor/include/config/descriptor.hpp:115-132 ElementDescriptor] *)
Record ElementDescriptor := mkElementDescriptor {
  el_kind : ElementKind;
  el_id : string;
  el_pg : LineRef;
  el_bc : LineRef;
  el_resetLine : LineRef;
  el_telemetry : TelemetryDescriptor;
  el_bootStatus : BootStatusDescriptor;
}.

(** [pwrseq-monitor/include/config/descriptor.hpp:136-140 ModuleDescriptor] *)
Record ModuleDescriptor := mkModuleDescriptor {
  md_id : string;
  md_elements : list ElementDescriptor;
}.

(** [pwrseq-monitor/include/config/descriptor.hpp:144-152 FpgaDescriptor] *)
Record FpgaDescriptor := mkFpgaDescriptor {
  fd_id : string;
  fd_pg : LineRef;
  fd_bc : LineRef;
  fd_resetLine : LineRef;
  fd_bootStatus : BootStatusDescriptor;
}.

(** [pwrseq-monitor/include/config/descriptor.hpp:155-163 PlatformDescriptor] *)
Record PlatformDescriptor := mkPlatformDescriptor {
  pd_platform : string;
  pd_chassisId : string;
  pd_tBootMs : Z;
  pd_modules : list ModuleDescriptor;
  pd_fpgas : list FpgaDescriptor;
}.

(** The exception is a DescriptorError with this text. *)
Abbreviation loaded := (res string).

#[local] Open Scope string_scope.

(** [pwrseq-monitor/src/config/descriptor_loader.cpp:32-35 fail] *)
Definition fail_ {A} (path msg : string) : loaded A := Throw (path +:+ ": " +:+ msg).

(** [pwrseq-monitor/src/config/descriptor_loader.cpp:43-53 requireField] *)
Definition requireField (obj : json) (key path : string) : loaded json :=
  match json_find obj key with
  | Some v => Ok v
  | None => fail_ path ("missing required field " +:+ quoted key)
  end.

(** [pwrseq-monitor/src/config/descriptor_loader.cpp:55-64 requireString] *)
Definition requireString (obj : json) (key path : string) : loaded string :=
  v ← requireField obj key path;
  match v with
  | JString s => Ok s
  | _ => fail_ (path +:+ "." +:+ key) "expected string"
  end.

(** [pwrseq-monitor/src/config/descriptor_loader.cpp:66-77 optionalUint] *)
Definition optionalUint (obj : json) (key : string) (dflt : Z) (path : string) : loaded Z :=
  match json_find_value obj key with
  | None => Ok dflt
  | Some (JUnsigned n) => Ok n
  | Some _ => fail_ (path +:+ "." +:+ key) "expected non-negative integer"
  end.

(** [pwrseq-monitor/src/config/descriptor_loader.cpp:79-90 optionalString] *)
Definition optionalString (obj : json) (key dflt path : string) : loaded string :=
  match json_find_value obj key with
  | None => Ok dflt
  | Some (JString s) => Ok s
  | Some _ => fail_ (path +:+ "." +:+ key) "expected string"
  end.

(** [pwrseq-monitor/src/config/descriptor_loader.cpp:92-103 optionalBool] *)
Definition optionalBool (obj : json) (key : string) (dflt : bool) (path : string)
    : loaded bool :=
  match json_find_value obj key with
  | None => Ok dflt
  | Some (JBool b) => Ok b
  | Some _ => fail_ (path +:+ "." +:+ key) "expected boolean"
  end.

(** A documentation key. *)
Definition is_comment_key (k : string) : bool :=
  match k with String c _ => Ascii.eqb c "_"%char | EmptyString => false end.

Definition known_key (allowed : list string) (k : string) : bool :=
  is_comment_key k || any_of (String.eqb k) allowed.

Definition unknown_key_msg (allowed : list string) : string :=
  "unknown key (allowed: " +:+ String.concat ", " allowed +:+
  "). The descriptor loader is strict: typos on optional keys would otherwise silently fall through to defaults.".

(** [pwrseq-monitor/src/config/descriptor_loader.cpp:116-151 rejectUnknownKeys]
    The members are walked in key order. *)
Fixpoint rejectUnknownMembers (m : list (string * json)) (path : string)
    (allowed : list string) : loaded unit :=
  match m with
  | [] => Ok ()
  | (k, _) :: m =>
      if known_key allowed k then rejectUnknownMembers m path allowed
      else fail_ (path +:+ "." +:+ k) (unknown_key_msg allowed)
  end.

Definition rejectUnknownKeys (obj : json) (path : string) (allowed : list string)
    : loaded unit :=
  match obj with JObject m => rejectUnknownMembers m path allowed | _ => Ok () end.

Definition source_msg : string :=
  "field " +:+ quoted "source" +:+
  " is no longer supported; PG/BC inputs are always monitored by phosphor-multi-gpio-monitor (Gpio.Monitor.Line PropertiesChanged → lpu-pwrseq-monitord)".

(** [pwrseq-monitor/src/config/descriptor_loader.cpp:157-179 parseLineRef] *)
Definition parseLineRef (obj : json) (path : string) : loaded LineRef :=
  _ ← (if is_object obj then Ok ()
       else fail_ path ("expected object with " +:+ quoted "line" +:+ " field"));
  _ ← rejectUnknownKeys obj path ["line"; "active_low"];
  _ ← match json_find obj "source" with
      | Some _ => fail_ (path +:+ ".source") source_msg
      | None => Ok ()
      end;
  line ← requireString obj "line" path;
  activeLow ← optionalBool obj "active_low" false path;
  if String.eqb line "" then fail_ (path +:+ ".line") "must be non-empty"
  else Ok (mkLineRef line activeLow).

Definition index_path (path : string) (i : nat) : string :=
  path +:+ "[" +:+ pretty (Z.of_nat i) +:+ "]".

(** The loops over an array: the elements are parsed in order. *)
Fixpoint parse_all {A} (f : json → string → loaded A) (path : string) (i : nat)
    (l : list json) : loaded (list A) :=
  match l with
  | [] => Ok []
  | v :: l =>
      a ← f v (index_path path i);
      rest ← parse_all f path (S i) l;
      Ok (a :: rest)
  end.

(** [pwrseq-monitor/src/config/descriptor_loader.cpp:181-196 parseBootStatus] *)
Definition parseBootStatus (obj : json) (path : string) : loaded BootStatusDescriptor :=
  match obj with
  | JArray l =>
      if decide (length l = 4%nat) then
        bits ← parse_all parseLineRef path 0 l;
        Ok (mkBootStatusDescriptor bits true)
      else fail_ path "expected array of exactly four LineRef objects"
  | _ => fail_ path "expected array of exactly four LineRef objects"
  end.

(** [pwrseq-monitor/src/config/descriptor_loader.cpp:200-211 parseKind] *)
Definition parseKind (s path : string) : loaded ElementKind :=
  if String.eqb s "LPU" then Ok K_Lpu
  else if String.eqb s "MCU" then Ok K_Mcu
  else if String.eqb s "GPU" then Ok K_Gpu
  else fail_ (path +:+ ".kind") ("unrecognised element kind " +:+ quoted s +:+
                                 " (expected one of: LPU, MCU, GPU)").

(** A required identifier. *)
Definition requireId (obj : json) (path : string) : loaded string :=
  id ← requireString obj "id" path;
  if String.eqb id "" then fail_ (path +:+ ".id") "must be non-empty" else Ok id.

(** A required line. *)
Definition requireLine (obj : json) (key path : string) : loaded LineRef :=
  v ← requireField obj key path;
  parseLineRef v (path +:+ "." +:+ key).

(** The optional telemetry object of an element. *)
Definition parseTelemetry (obj : json) (path : string) : loaded TelemetryDescriptor :=
  match json_find_value obj "telemetry" with
  | None => Ok (mkTelemetryDescriptor "")
  | Some tel =>
      if is_object tel then
        _ ← rejectUnknownKeys tel (path +:+ ".telemetry") ["log_dev"];
        logDev ← optionalString tel "log_dev" "" (path +:+ ".telemetry");
        Ok (mkTelemetryDescriptor logDev)
      else fail_ (path +:+ ".telemetry") "expected object or null"
  end.

(** The optional boot-status bus of an element or FPGA. *)
Definition optionalBootStatus (obj : json) (path : string) : loaded BootStatusDescriptor :=
  match json_find_value obj "boot_status_bits" with
  | None => Ok BootStatus_default
  | Some v => parseBootStatus v (path +:+ ".boot_status_bits")
  end.

(** [pwrseq-monitor/src/config/descriptor_loader.cpp:215-248 parseElement] *)
Definition parseElement (obj : json) (path : string) : loaded ElementDescriptor :=
  _ ← rejectUnknownKeys obj path
        ["kind"; "id"; "pg"; "bc"; "reset_line"; "telemetry"; "boot_status_bits"];
  s ← requireString obj "kind" path;
  kind ← parseKind s path;
  id ← requireId obj path;
  pg ← requireLine obj "pg" path;
  bc ← requireLine obj "bc" path;
  resetLine ← requireLine obj "reset_line" path;
  telemetry ← parseTelemetry obj path;
  bootStatus ← optionalBootStatus obj path;
  Ok (mkElementDescriptor kind id pg bc resetLine telemetry bootStatus).

(** [pwrseq-monitor/src/config/descriptor_loader.cpp:250-272 parseModule] *)
Definition parseModule (obj : json) (path : string) : loaded ModuleDescriptor :=
  _ ← rejectUnknownKeys obj path ["id"; "elements"];
  id ← requireId obj path;
  elements ← requireField obj "elements" path;
  match elements with
  | JArray ((_ :: _) as l) =>
      els ← parse_all parseElement (path +:+ ".elements") 0 l;
      Ok (mkModuleDescriptor id els)
  | _ => fail_ (path +:+ ".elements") "expected non-empty array"
  end.

(** [pwrseq-monitor/src/config/descriptor_loader.cpp:274-294 parseFpga] *)
Definition parseFpga (obj : json) (path : string) : loaded FpgaDescriptor :=
  _ ← rejectUnknownKeys obj path ["id"; "pg"; "bc"; "reset_line"; "boot_status_bits"];
  id ← requireId obj path;
  pg ← requireLine obj "pg" path;
  bc ← requireLine obj "bc" path;
  resetLine ← requireLine obj "reset_line" path;
  bootStatus ← optionalBootStatus obj path;
  Ok (mkFpgaDescriptor id pg bc resetLine bootStatus).

(** ** Cross-field checks *)

(** Inserting a list of identifiers into a set: fails on the first one already
    there. *)
Fixpoint insert_ids (ids : list string) (path msg : string) (i : nat) (seen : gset string)
    : loaded (gset string) :=
  match ids with
  | [] => Ok seen
  | id :: ids =>
      if decide (id ∈ seen) then
        fail_ (index_path path i +:+ ".id") (msg +:+ " " +:+ quoted id)
      else insert_ids ids path msg (S i) ({[id]} ∪ seen)
  end.

(** The loop over the modules: each module's identifier, then its elements'. *)
Fixpoint checkModules (ms : list ModuleDescriptor) (i : nat)
    (moduleIds elementIds : gset string) : loaded unit :=
  match ms with
  | [] => Ok ()
  | m :: ms =>
      let mPath := index_path "modules" i in
      moduleIds ← (if decide (md_id m ∈ moduleIds) then
                     fail_ (mPath +:+ ".id") ("duplicate module ID " +:+ quoted (md_id m))
                   else Ok ({[md_id m]} ∪ moduleIds));
      elementIds ← insert_ids (map el_id (md_elements m)) (mPath +:+ ".elements")
                     "duplicate element ID" 0 elementIds;
      checkModules ms (S i) moduleIds elementIds
  end.

(** [pwrseq-monitor/src/config/descriptor_loader.cpp:304-350 validateConsistency] *)
Definition validateConsistency (d : PlatformDescriptor) : loaded unit :=
  match pd_modules d with
  | [] => Throw "modules: descriptor has no modules"
  | ms =>
      _ ← checkModules ms 0 ∅ ∅;
      _ ← insert_ids (map fd_id (pd_fpgas d)) "fpgas" "duplicate FPGA ID" 0 ∅;
      Ok ()
  end.

Definition kMaxBootMs : Z := 60 * 60 * 1000.

(** The boot deadline, in its range. *)
Definition parseTBoot (root : json) : loaded Z :=
  raw ← optionalUint root "t_boot_ms" 12000 "$";
  if (raw =? 0)%Z then fail_ "$.t_boot_ms" "must be > 0"
  else if (kMaxBootMs <? raw)%Z then
    fail_ "$.t_boot_ms"
      ("value " +:+ pretty raw +:+ " ms exceeds the upper bound (3600000 ms = 1 h); rejecting to avoid integer overflow / runaway boot deadlines")
  else Ok raw.

(** [pwrseq-monitor/src/config/descriptor_loader.cpp:352-415 parseRoot] *)
Definition parseRoot (root : json) : loaded PlatformDescriptor :=
  _ ← (if is_object root then Ok ()
       else fail_ "$" "top-level value must be a JSON object");
  _ ← rejectUnknownKeys root "$" ["platform"; "chassis_id"; "t_boot_ms"; "modules"; "fpgas"];
  platform ← requireString root "platform" "$";
  chassisId ← optionalString root "chassis_id" "HGX_Chassis_0" "$";
  tBootMs ← parseTBoot root;
  modules ← requireField root "modules" "$";
  modules ← match modules with
            | JArray l => parse_all parseModule "$.modules" 0 l
            | _ => fail_ "$.modules" "expected array"
            end;
  fpgas ← match json_find_value root "fpgas" with
          | None => Ok []
          | Some (JArray l) => parse_all parseFpga "$.fpgas" 0 l
          | Some _ => fail_ "$.fpgas" "expected array or null"
          end;
  let d := mkPlatformDescriptor platform chassisId tBootMs modules fpgas in
  _ ← validateConsistency d;
  Ok d.

(** ** Entry points *)

Section Load.
(** nlohmann's parser: the value, or the text of its parse error. *)
Context (json_parse : string → res string json).

(** [pwrseq-monitor/src/config/descriptor_loader.cpp:442-454 loadFromString] *)
Definition loadFromString (jsonText : string) : loaded PlatformDescriptor :=
  match json_parse jsonText with
  | Throw e => Throw ("JSON parse error: " +:+ e)
  | Ok root => parseRoot root
  end.

(** [pwrseq-monitor/src/config/descriptor_loader.cpp:421-440 loadFromFile]
    [read path] is the content of a file that opens. *)
Definition loadFromFile (read : string → option string) (path : string)
    : loaded PlatformDescriptor :=
  match read path with
  | None => Throw ("cannot open descriptor file: " +:+ path)
  | Some text =>
      match json_parse text with
      | Throw e => Throw ("JSON parse error in " +:+ path +:+ ": " +:+ e)
      | Ok root => parseRoot root
      end
  end.
End Load.

#[local] Open Scope Z_scope.

(** ** Consistency *)

Definition LineRef_ok (r : LineRef) : Prop := lr_line r ≠ "".

Definition BootStatus_ok (b : BootStatusDescriptor) : Prop :=
  if bs_enabled b then length (bs_bits b) = 4%nat ∧ Forall LineRef_ok (bs_bits b)
  else b = BootStatus_default.

Record ElementDescriptor_ok (e : ElementDescriptor) : Prop := {
  eok_id : el_id e ≠ "";
  eok_pg : LineRef_ok (el_pg e);
  eok_bc : LineRef_ok (el_bc e);
  eok_reset : LineRef_ok (el_resetLine e);
  eok_boot : BootStatus_ok (el_bootStatus e);
}.

Record ModuleDescriptor_ok (m : ModuleDescriptor) : Prop := {
  mok_id : md_id m ≠ "";
  mok_nonempty : md_elements m ≠ [];
  mok_elements : Forall ElementDescriptor_ok (md_elements m);
}.

Record FpgaDescriptor_ok (f : FpgaDescriptor) : Prop := {
  fok_id : fd_id f ≠ "";
  fok_pg : LineRef_ok (fd_pg f);
  fok_bc : LineRef_ok (fd_bc f);
  fok_reset : LineRef_ok (fd_resetLine f);
  fok_boot : BootStatus_ok (fd_bootStatus f);
}.

(** What the loader guarantees of a descriptor: every required name is there,
    identifiers are unique within modules, elements and FPGAs, there is a
    module and every module has an element, and the boot deadline is in
    range. *)
Record PlatformDescriptor_ok (d : PlatformDescriptor) : Prop := {
  pok_tBoot : 0 < pd_tBootMs d ≤ kMaxBootMs;
  pok_nonempty : pd_modules d ≠ [];
  pok_modules : Forall ModuleDescriptor_ok (pd_modules d);
  pok_fpgas : Forall FpgaDescriptor_ok (pd_fpgas d);
  pok_moduleIds : NoDup (map md_id (pd_modules d));
  pok_elementIds : NoDup (map el_id (concat (map md_elements (pd_modules d))));
  pok_fpgaIds : NoDup (map fd_id (pd_fpgas d));
}.

Lemma fail_not_ok {A} path msg (a : A) : fail_ path msg ≠ Ok a.
Proof. done. Qed.

(** Splits a successful run of the loader into its steps. *)
Ltac loaded_step :=
  repeat match goal with
  | H : fail_ _ _ = Ok _ |- _ => by destruct (fail_not_ok _ _ _ H)
  | H : Throw _ = Ok _ |- _ => discriminate H
  | H : Ok _ = Ok _ |- _ => injection H as H; subst
  | H : _ ≫= _ = Ok _ |- _ => apply res_bind_ok in H as (? & ? & H)
  | H : (if String.eqb ?a ?b then _ else _) = Ok _ |- _ =>
      destruct (String.eqb_spec a b)
  end.

Lemma parse_all_Forall {A} (f : json → string → loaded A) (P : A → Prop) path i l as_ :
  (∀ v p a, f v p = Ok a → P a) → parse_all f path i l = Ok as_ →
  Forall P as_ ∧ length as_ = length l.
Proof.
  intros Hf. revert i as_. induction l as [|v l IH]; intros i as_; cbn.
  - by intros [= <-].
  - intros Hok. loaded_step. edestruct IH; [done|]. cbn. split; [by constructor; eauto|lia].
Qed.

Lemma parseLineRef_ok v p r : parseLineRef v p = Ok r → LineRef_ok r.
Proof. unfold parseLineRef. intros Hok. by loaded_step. Qed.

Lemma parseBootStatus_ok v p b : parseBootStatus v p = Ok b → BootStatus_ok b.
Proof.
  unfold parseBootStatus. intros Hok. destruct v; loaded_step. case_decide; loaded_step.
  edestruct (parse_all_Forall parseLineRef LineRef_ok); [eauto using parseLineRef_ok|done|].
  cbn. split; [congruence|done].
Qed.

Lemma optionalBootStatus_ok v p b : optionalBootStatus v p = Ok b → BootStatus_ok b.
Proof.
  unfold optionalBootStatus. destruct (json_find_value _ _); [apply parseBootStatus_ok|].
  by intros [= <-].
Qed.

Lemma requireId_ok v p id : requireId v p = Ok id → id ≠ "".
Proof. unfold requireId. intros Hok. by loaded_step. Qed.

Lemma requireLine_ok v k p r : requireLine v k p = Ok r → LineRef_ok r.
Proof. unfold requireLine. intros Hok. loaded_step. by eapply parseLineRef_ok. Qed.

Create HintDb descriptor discriminated.
#[export] Hint Resolve parseLineRef_ok parseBootStatus_ok optionalBootStatus_ok
  requireId_ok requireLine_ok : descriptor.

Lemma parseElement_ok v p e : parseElement v p = Ok e → ElementDescriptor_ok e.
Proof. unfold parseElement. intros Hok. loaded_step. split; eauto with descriptor. Qed.

Lemma parseModule_ok v p m : parseModule v p = Ok m → ModuleDescriptor_ok m.
Proof.
  unfold parseModule. intros Hok. loaded_step. destruct x1 as [| | | | | |[|v' l]|]; loaded_step.
  edestruct (parse_all_Forall parseElement ElementDescriptor_ok) as [Hall Hlen];
    [apply parseElement_ok|done|].
  split; cbn; [eauto with descriptor| |done].
  intros Heq. rewrite Heq in Hlen. discriminate.
Qed.

Lemma parseFpga_ok v p f : parseFpga v p = Ok f → FpgaDescriptor_ok f.
Proof. unfold parseFpga. intros Hok. loaded_step. split; eauto with descriptor. Qed.

(** Identifiers that are not in a set yet. *)
Definition fresh (ids : list string) (seen : gset string) : Prop :=
  ∀ id, id ∈ ids → id ∉ seen.

Lemma fresh_nil seen : fresh [] seen.
Proof. intros id ?%not_elem_of_nil. done. Qed.

Lemma fresh_cons id ids seen : fresh (id :: ids) seen ↔ (id ∉ seen) ∧ fresh ids seen.
Proof. unfold fresh. setoid_rewrite elem_of_cons. naive_solver. Qed.

Lemma fresh_app l1 l2 seen : fresh (l1 ++ l2) seen ↔ fresh l1 seen ∧ fresh l2 seen.
Proof. unfold fresh. setoid_rewrite elem_of_app. naive_solver. Qed.

Lemma fresh_union ids l seen :
  fresh ids (list_to_set l ∪ seen) ↔ (∀ id, id ∈ l → id ∉ ids) ∧ fresh ids seen.
Proof.
  unfold fresh. setoid_rewrite not_elem_of_union. setoid_rewrite elem_of_list_to_set.
  split; [|by intros [H1 H2] id Hi; split; [intros Hl; by apply (H1 id)|apply H2]].
  intros Hall. split; [|intros id Hi; by apply Hall]. intros id Hl Hi. by destruct (Hall id Hi).
Qed.

Lemma fresh_insert ids id seen :
  fresh ids ({[id]} ∪ seen) ↔ (id ∉ ids) ∧ fresh ids seen.
Proof.
  unfold fresh. setoid_rewrite not_elem_of_union. setoid_rewrite not_elem_of_singleton.
  split; [|intros [H1 H2] j Hj; split; [by intros ->|by apply H2]].
  intros Hall. split; [|intros j Hj; by apply Hall]. intros Hi. by destruct (Hall id Hi).
Qed.

(** Inserting identifiers succeeds on new, distinct ones. *)
Lemma insert_ids_ok ids path msg i seen s' :
  insert_ids ids path msg i seen = Ok s' ↔
    NoDup ids ∧ fresh ids seen ∧ s' = list_to_set ids ∪ seen.
Proof.
  revert i seen. induction ids as [|id ids IH]; intros i seen; cbn.
  - rewrite (left_id_L ∅ (∪)). split; [intros [= <-]|by intros (_ & _ & ->)].
    split_and!; [constructor|apply fresh_nil|done].
  - rewrite NoDup_cons, fresh_cons. case_decide; [by split; [|tauto]|].
    rewrite IH, fresh_insert. rewrite (assoc_L (∪)), (comm_L (∪) _ {[id]}). tauto.
Qed.

Lemma checkModules_ok ms i mids eids :
  checkModules ms i mids eids = Ok () ↔
    NoDup (map md_id ms) ∧ fresh (map md_id ms) mids ∧
    NoDup (map el_id (concat (map md_elements ms))) ∧
    fresh (map el_id (concat (map md_elements ms))) eids.
Proof.
  revert i mids eids. induction ms as [|m ms IH]; intros i mids eids; cbn.
  - split; [|done]. intros _. split_and!; try constructor; apply fresh_nil.
  - rewrite NoDup_cons, map_app, NoDup_app, fresh_cons, fresh_app, res_bind_ok. split.
    + intros (mids' & Hm & (eids' & He & Hrest)%res_bind_ok). case_decide; [done|].
      injection Hm as <-. apply insert_ids_ok in He as (Hnd & Hn & ->).
      apply IH in Hrest as (H1 & H2 & H3 & H4).
      apply fresh_insert in H2. apply fresh_union in H4. tauto.
    + intros ([Hm Hnm] & [Hmn Hmf] & (He & Hx & Hen) & [Hee Hef]).
      exists ({[md_id m]} ∪ mids). rewrite decide_False by done. split; [done|].
      rewrite res_bind_ok. eexists. rewrite insert_ids_ok. split; [done|].
      apply IH. rewrite fresh_insert, fresh_union. tauto.
Qed.

Lemma validateConsistency_ok d :
  validateConsistency d = Ok () ↔
    pd_modules d ≠ [] ∧ NoDup (map md_id (pd_modules d)) ∧
    NoDup (map el_id (concat (map md_elements (pd_modules d)))) ∧
    NoDup (map fd_id (pd_fpgas d)).
Proof.
  assert (∀ ids, fresh ids ∅) as Hf by (intros ids id _; set_solver).
  unfold validateConsistency. destruct (pd_modules d) as [|m ms]; [naive_solver|].
  rewrite res_bind_ok. split.
  - intros ([] & Hm%checkModules_ok & (s & Hi%insert_ids_ok & _)%res_bind_ok).
    destruct Hm as (? & _ & ? & _), Hi as (? & _ & _). by split_and!.
  - intros (_ & H1 & H2 & H3). exists (). rewrite checkModules_ok. split; [by split_and!|].
    rewrite res_bind_ok. eexists. rewrite insert_ids_ok. split; [by split_and!|done].
Qed.

Lemma parseTBoot_ok root t : parseTBoot root = Ok t → t ≠ 0 ∧ t ≤ kMaxBootMs.
Proof.
  unfold parseTBoot. intros Hok. loaded_step.
  destruct (Z.eqb_spec x 0); loaded_step. destruct (Z.ltb_spec kMaxBootMs x); loaded_step.
  split; [done|lia].
Qed.

(** The unsigned numbers of a JSON value are not negative. *)
Definition json_unsigned (root : json) : Prop :=
  ∀ n, json_find root "t_boot_ms" = Some (JUnsigned n) → 0 ≤ n.

Lemma parseTBoot_nonneg root t : json_unsigned root → parseTBoot root = Ok t → 0 ≤ t.
Proof.
  unfold parseTBoot. intros Hu (raw & Hraw & Hok)%res_bind_ok.
  assert (0 ≤ raw) as Hge.
  { revert Hraw. unfold optionalUint, json_find_value.
    destruct (json_find root "t_boot_ms") as [[]|] eqn:Hf; try done;
      intros [= <-]; [lia|by apply Hu|lia]. }
  destruct (Z.eqb_spec raw 0); loaded_step. destruct (Z.ltb_spec kMaxBootMs raw); loaded_step.
  done.
Qed.

(** Whatever is loaded is consistent. *)
Theorem load_consistent root d :
  json_unsigned root → parseRoot root = Ok d → PlatformDescriptor_ok d.
Proof.
  unfold parseRoot. intros Hu Hok. loaded_step.
  match goal with H : parseTBoot _ = _ |- _ =>
    pose proof (parseTBoot_nonneg _ _ Hu H); apply parseTBoot_ok in H as [? ?] end.
  match goal with H : validateConsistency _ = Ok ?u |- _ =>
    destruct u; apply validateConsistency_ok in H as (? & ? & ? & ?) end.
  split; cbn in *; try done; [lia|..].
  - match goal with H : match ?m with JArray _ => _ | _ => _ end = Ok _ |- Forall _ ?l =>
      destruct m; loaded_step end.
    by eapply parse_all_Forall; [apply parseModule_ok|].
  - match goal with H : match json_find_value _ "fpgas" with Some _ => _ | None => _ end = Ok _ |- _ =>
      destruct (json_find_value _ "fpgas") as [[]|]; loaded_step end; [|constructor].
    by eapply parse_all_Forall; [apply parseFpga_ok|].
Qed.

(** ** Encoding

    A descriptor written out as the loader reads it. *)

Definition encode_line (r : LineRef) : json :=
  JObject [("active_low", JBool (lr_activeLow r)); ("line", JString (lr_line r))].

Definition encode_boot (b : BootStatusDescriptor) : list (string * json) :=
  if bs_enabled b then [("boot_status_bits", JArray (map encode_line (bs_bits b)))] else [].

Definition encode_kind (k : ElementKind) : json :=
  JString match k with K_Lpu => "LPU" | K_Mcu => "MCU" | K_Gpu => "GPU" end.

Definition encode_element (e : ElementDescriptor) : json :=
  JObject ([("bc", encode_line (el_bc e))] ++ encode_boot (el_bootStatus e) ++
    [("id", JString (el_id e)); ("kind", encode_kind (el_kind e));
     ("pg", encode_line (el_pg e)); ("reset_line", encode_line (el_resetLine e));
     ("telemetry", JObject [("log_dev", JString (td_logDev (el_telemetry e)))])]).

Definition encode_module (m : ModuleDescriptor) : json :=
  JObject [("elements", JArray (map encode_element (md_elements m)));
           ("id", JString (md_id m))].

Definition encode_fpga (f : FpgaDescriptor) : json :=
  JObject ([("bc", encode_line (fd_bc f))] ++ encode_boot (fd_bootStatus f) ++
    [("id", JString (fd_id f)); ("pg", encode_line (fd_pg f));
     ("reset_line", encode_line (fd_resetLine f))]).

Definition encode (d : PlatformDescriptor) : json :=
  JObject [("chassis_id", JString (pd_chassisId d));
           ("fpgas", JArray (map encode_fpga (pd_fpgas d)));
           ("modules", JArray (map encode_module (pd_modules d)));
           ("platform", JString (pd_platform d));
           ("t_boot_ms", JUnsigned (pd_tBootMs d))].

Lemma parse_all_encode {A} (f : json → string → loaded A) (enc : A → json) (P : A → Prop)
    path i l :
  (∀ a p, P a → f (enc a) p = Ok a) → Forall P l → parse_all f path i (map enc l) = Ok l.
Proof.
  intros Hf Hl. revert i. induction Hl as [|a l Ha Hl IH]; intros i; [done|].
  cbn. rewrite Hf by done. cbn. by rewrite IH.
Qed.

Lemma eqb_nonempty (s : string) : s ≠ "" → String.eqb s "" = false.
Proof. by destruct s. Qed.

Lemma parse_encode_line r p : LineRef_ok r → parseLineRef (encode_line r) p = Ok r.
Proof. destruct r as [s b]. unfold LineRef_ok. cbn. by destruct s. Qed.

Lemma parse_encode_boot b p :
  BootStatus_ok b → bs_enabled b = true →
  parseBootStatus (JArray (map encode_line (bs_bits b))) p = Ok b.
Proof.
  destruct b as [bits en]. unfold BootStatus_ok. cbn. intros Hok ->.
  destruct Hok as [Hlen Hall].
  rewrite length_map, decide_True by done.
  by rewrite (parse_all_encode _ _ LineRef_ok) by auto using parse_encode_line.
Qed.

Lemma parse_encode_kind k p :
  requireString (JObject [("kind", encode_kind k)]) "kind" p ≫= (λ s, parseKind s p) = Ok k.
Proof. by destruct k. Qed.

Lemma optionalBoot_encode b m p :
  BootStatus_ok b →
  json_find (JObject m) "boot_status_bits" =
    (if bs_enabled b then Some (JArray (map encode_line (bs_bits b))) else None) →
  optionalBootStatus (JObject m) p = Ok b.
Proof.
  intros Hok Hf. unfold optionalBootStatus, json_find_value. rewrite Hf.
  destruct (bs_enabled b) eqn:He; [by apply parse_encode_boot|].
  unfold BootStatus_ok in Hok. by rewrite He in Hok; subst.
Qed.

Lemma requireLine_encode m k p r :
  LineRef_ok r → json_find (JObject m) k = Some (encode_line r) →
  requireLine (JObject m) k p = Ok r.
Proof.
  intros Hok Hf. unfold requireLine, requireField. rewrite Hf. by apply parse_encode_line.
Qed.

Lemma requireId_encode m p id :
  id ≠ "" → json_find (JObject m) "id" = Some (JString id) →
  requireId (JObject m) p = Ok id.
Proof.
  intros Hne Hf. unfold requireId, requireString, requireField. rewrite Hf. cbn.
  by rewrite eqb_nonempty.
Qed.

Lemma parse_encode_element e p :
  ElementDescriptor_ok e → parseElement (encode_element e) p = Ok e.
Proof.
  intros [Hid Hpg Hbc Hrs Hboot]. unfold parseElement, encode_element, encode_boot.
  rewrite (requireId_encode _ _ (el_id e)), !(requireLine_encode _ "pg" _ (el_pg e)),
    (requireLine_encode _ "bc" _ (el_bc e)),
    (requireLine_encode _ "reset_line" _ (el_resetLine e)),
    (optionalBoot_encode (el_bootStatus e)) by (try done; by destruct (bs_enabled _)).
  destruct e as [k ? ? ? ? [tel] b]. cbn. by destruct (bs_enabled b), k.
Qed.

Lemma parse_encode_fpga f p :
  FpgaDescriptor_ok f → parseFpga (encode_fpga f) p = Ok f.
Proof.
  intros [Hid Hpg Hbc Hrs Hboot]. unfold parseFpga, encode_fpga, encode_boot.
  rewrite (requireId_encode _ _ (fd_id f)), !(requireLine_encode _ "pg" _ (fd_pg f)),
    (requireLine_encode _ "bc" _ (fd_bc f)),
    (requireLine_encode _ "reset_line" _ (fd_resetLine f)),
    (optionalBoot_encode (fd_bootStatus f)) by (try done; by destruct (bs_enabled _)).
  destruct f as [? ? ? ? b]. cbn. by destruct (bs_enabled b).
Qed.

Lemma parse_encode_module m p :
  ModuleDescriptor_ok m → parseModule (encode_module m) p = Ok m.
Proof.
  intros [Hid Hne Hels]. unfold parseModule, encode_module.
  rewrite (requireId_encode _ _ (md_id m)) by done. destruct m as [id els]; cbn in *.
  pose proof (parse_all_encode parseElement encode_element ElementDescriptor_ok
    (p +:+ ".elements") 0 els parse_encode_element Hels) as Hp.
  destruct els as [|e els]; [done|]. cbn [map] in *. by rewrite Hp.
Qed.

(** C26: Every consistent descriptor loads back from its encoding. *)
Theorem load_encode d : PlatformDescriptor_ok d → parseRoot (encode d) = Ok d.
Proof.
  intros [Ht Hne Hms Hfs Hmi Hei Hfi].
  assert (validateConsistency d = Ok ()) as Hval by by apply validateConsistency_ok.
  pose proof (parse_all_encode parseModule encode_module _ "$.modules" 0 _
    parse_encode_module Hms) as Hm.
  pose proof (parse_all_encode parseFpga encode_fpga _ "$.fpgas" 0 _
    parse_encode_fpga Hfs) as Hf.
  assert (parseTBoot (encode d) = Ok (pd_tBootMs d)) as Htb.
  { unfold parseTBoot; cbn. destruct (Z.eqb_spec (pd_tBootMs d) 0); [lia|].
    destruct (Z.ltb_spec kMaxBootMs (pd_tBootMs d)); [lia|done]. }
  unfold parseRoot. rewrite Htb. destruct d as [pl ch tb ms fs]. cbn in *.
  rewrite Hm. cbn. rewrite Hf. cbn. by rewrite Hval.
Qed.

(** Strictness: an object that loads has no unknown key, so a misspelt optional
    key never falls back to its default. *)
Lemma rejectUnknownMembers_ok m path allowed :
  rejectUnknownMembers m path allowed = Ok () ↔
    Forall (λ kv, known_key allowed kv.1 = true) m.
Proof.
  induction m as [|[k v] m IH]; cbn; [by split|].
  rewrite Forall_cons. cbn. destruct (known_key allowed k); [rewrite IH; tauto|].
  by split; [|intros [? _]].
Qed.

(** The check of the retired [source] key runs after the unknown keys are
    refused, so its message is never produced. *)
Theorem source_check_dead obj path :
  rejectUnknownKeys obj path ["line"; "active_low"] = Ok () → json_find obj "source" = None.
Proof.
  destruct obj as [| | | | | | |m]; try done.
  unfold rejectUnknownKeys. rewrite rejectUnknownMembers_ok. cbn [json_find].
  induction m as [|[k v] m IH]; [done|]. intros [Hk Hm]%Forall_cons. cbn [members_find].
  destruct (String.eqb_spec k "source") as [->|]; [by vm_compute in Hk|by apply IH].
Qed.

Example source_check_dead_witness :
  json_find (encode_line (mkLineRef "PG0" true)) "source" = None.
Proof. apply (source_check_dead _ "$"). reflexivity. Defined.

(** ** Examples *)

Definition line_ (s : string) : LineRef := mkLineRef s false.
Definition lpu_descriptor (id pg bc rst log : string) : ElementDescriptor :=
  mkElementDescriptor K_Lpu id (line_ pg) (line_ bc) (mkLineRef rst true)
    (mkTelemetryDescriptor log) BootStatus_default.

(** A tray with one two-LPU module and one FPGA. *)
Definition small_tray : PlatformDescriptor :=
  mkPlatformDescriptor "LP30-EB2" "HGX_Chassis_0" 12000
    [mkModuleDescriptor "HGX_LPU_Module_0"
       [lpu_descriptor "HGX_LPU_0" "MODULE0_PGOOD" "LPU0_BC" "LPU0_RST" "/dev/lpu0_log";
        lpu_descriptor "HGX_LPU_1" "MODULE0_PGOOD" "LPU1_BC" "LPU1_RST" "/dev/lpu1_log"]]
    [mkFpgaDescriptor "HGX_FPGA_W" (line_ "FPGA0_PGOOD") (line_ "FPGA0_INIT_DONE")
       (mkLineRef "FPGA0_RST" true) BootStatus_default].

Lemma small_tray_ok : PlatformDescriptor_ok small_tray.
Proof.
  split; cbn; try done; repeat (constructor; try done); set_solver.
Qed.

Example load_encode_witness : parseRoot (encode small_tray) = Ok small_tray.
Proof. apply load_encode. exact small_tray_ok. Defined.

Example load_consistent_witness : PlatformDescriptor_ok small_tray.
Proof.
  apply (load_consistent (encode small_tray)); [by intros n [= <-]|].
  vm_compute. reflexivity.
Defined.
