(* ===== verification/Orchestrator.v ===== *)
(** * The orchestrator

    pwrseq-monitor/src/orchestrator.cpp: the owner of the FSMs, the devices,
    the reporters and the timers, over any device class that implements
    [IDevice].  Its state is the record [Orch]; a call is a function on it.

    The sd-event loop is the set of its timer sources: a source fires once,
    and stays, disabled, until it is unreferenced.  A callback is data: the
    D-Bus reply it sends, or the batch it reports to.  Replies are recorded in
    the order they are sent.

    Calls that reach a reset line may throw (an ambiguous GPIO line name). The
    exception leaves the D-Bus handler and nothing catches it above: the daemon
    ends, so [Throw] carries no state. *)

From S2P Require Import Prelude Types SubscriberList FsmEngine ElementFsm ModuleFsm TrayFsm.
From S2P Require Import Reporting SubscriberList Hal Lines Drivers.

(** ** Data *)

(** [pwrseq-monitor/src/orchestrator.cpp:47-49 kResetCompletionTimeout] *)
Definition kResetCompletionTimeout : Z := 20000.
Definition kTelemetryRetryInterval : Z := 1000.
Definition kMaxTelemetryRetryAttempts : Z := 30.

(** [pwrseq-monitor/include/orchestrator.hpp:90-98 Orchestrator::ResetOutcome] *)
Inductive ResetOutcome :=
| RO_Ok | RO_Timeout | RO_NotPresent | RO_Busy | RO_NotSupported | RO_PulseFailed.

#[export] Instance ResetOutcome_eq_dec : EqDecision ResetOutcome.
Proof. solve_decision. Defined.

(** What a timer source runs. *)
Inductive TimerCallback :=
| BootExpired (id : InstanceId)
| TelemetryRetry (id : InstanceId) (attempt : Z)
| ResetDeadline (key : Z) (target : InstanceId).

Record TimerSource := mkTimerSource { ts_at : Z; ts_enabled : bool; ts_callback : TimerCallback }.

(** The loop: its sources by number, and how many additions were tried. *)
Record EventLoop := mkEventLoop { loop_sources : gmap nat TimerSource; loop_next : nat }.

(** A reset's completion: the deferred reply of a request, or an entry of a
    batch. *)
Inductive ResetCallback :=
| ReplyTo (req : nat)
| ReportTo (tracker : nat) (descId : string).

Abbreviation ResetResults := (list (string * ResetOutcome)).

(** [pwrseq-monitor/include/orchestrator.hpp:286-292 Orchestrator::PendingReset] *)
Record PendingReset := mkPendingReset {
  pr_deadline : nat;
  pr_target : InstanceId;
  pr_callback : ResetCallback;
}.

(** [pwrseq-monitor/src/orchestrator.cpp:927-943 Tracker] The callback is the
    request to answer, [None] once it was moved out. *)
Record Tracker := mkTracker {
  tr_results : ResetResults;
  tr_expected : nat;
  tr_callback : option nat;
}.

Inductive Reply :=
| ResetReply (req : nat) (outcome : ResetOutcome)
| ResetAllReply (req : nat) (results : ResetResults).

(** An element FSM with its reporter's path and whether it is an LPU. *)
Record ElementEntry := mkElementEntry {
  ee_fsm : ElementFsm;
  ee_path : string;
  ee_isLpu : bool;
}.

(** [pwrseq-monitor/include/orchestrator.hpp:229-324 Orchestrator] The lookup
    tables own what they point to. *)
Record Orch (D : Type) := mkOrch {
  o_tBoot : Z;
  o_platform : string;
  o_hal : HalState;
  o_bus : StatusBus;
  o_tray : option (TrayFsm * string);
  o_modules : gmap Z (ModuleFsm * string);
  o_elements : gmap Z ElementEntry;
  o_devices : gmap Z D;
  o_elementToModule : gmap Z Z;
  o_instanceByDescId : gmap string Z;
  o_descIdByInstance : gmap Z string;
  o_loop : EventLoop;
  o_bootTimers : gmap Z nat;
  o_retryTimers : gmap Z nat;
  o_pendingResets : gmap Z PendingReset;
  o_trackers : list Tracker;
  o_replies : list Reply;
}.
Arguments mkOrch {D}.
Arguments o_tBoot {D}.
Arguments o_platform {D}.
Arguments o_hal {D}.
Arguments o_bus {D}.
Arguments o_tray {D}.
Arguments o_modules {D}.
Arguments o_elements {D}.
Arguments o_devices {D}.
Arguments o_elementToModule {D}.
Arguments o_instanceByDescId {D}.
Arguments o_descIdByInstance {D}.
Arguments o_loop {D}.
Arguments o_bootTimers {D}.
Arguments o_retryTimers {D}.
Arguments o_pendingResets {D}.
Arguments o_trackers {D}.
Arguments o_replies {D}.

(** [pwrseq-monitor/src/orchestrator.cpp:77-79 Orchestrator::Orchestrator] *)
Definition Orch_empty {D} : Orch D :=
  mkOrch 12000 "" HalState_init ∅ None ∅ ∅ ∅ ∅ ∅ ∅ (mkEventLoop ∅ 0) ∅ ∅ ∅ [] [].

(** The order of [presentInstances]. *)
Definition by_index (a b : InstanceId) : Prop := index a ≤ index b.
#[export] Instance by_index_dec : RelDecision by_index.
Proof. intros a b. unfold by_index. apply _. Defined.

Section Orchestrator.
Context `{Env} {D : Type} `{!IDevice D}.
Implicit Types (o : Orch D) (id target : InstanceId) (key : Z).

(** ** The event loop *)

(** sd_event_add_time: one-shot, enabled. [None] is a negative return. *)
Definition add_time (at_ : Z) (cb : TimerCallback) o : option nat * Orch D :=
  let n := loop_next (o_loop o) in
  if env_addTime n then
    (Some n, {| o with o_loop :=
       mkEventLoop (<[n := mkTimerSource at_ true cb]> (loop_sources (o_loop o))) (S n) |})
  else (None, {| o with o_loop := mkEventLoop (loop_sources (o_loop o)) (S n) |}).

(** Disabling and unreferencing the only reference of a source. *)
Definition source_unref (n : nat) o : Orch D :=
  {| o with o_loop := mkEventLoop (delete n (loop_sources (o_loop o))) (loop_next (o_loop o)) |}.

(** A one-shot source is disabled when it fires. *)
Definition source_disable (n : nat) o : Orch D :=
  {| o with o_loop := mkEventLoop
       (alter (λ s, {| s with ts_enabled := false |}) n (loop_sources (o_loop o)))
       (loop_next (o_loop o)) |}.

(** ** Boot timers *)

(** [pwrseq-monitor/src/orchestrator.cpp:1231-1285 Orchestrator::startBootTimer_]
    The map entry is overwritten, whatever it held. *)
Definition startBootTimer_ id o : Orch D :=
  match add_time (env_now + o_tBoot o * 1000) (BootExpired id) o with
  | (None, o) => o
  | (Some n, o) => {| o with o_bootTimers := <[packInstance id := n]> (o_bootTimers o) |}
  end.

(** [pwrseq-monitor/src/orchestrator.cpp:1287-1298 Orchestrator::cancelBootTimer_] *)
Definition cancelBootTimer_ id o : Orch D :=
  match o_bootTimers o !! packInstance id with
  | None => o
  | Some n =>
      let o := source_unref n o in
      {| o with o_bootTimers := delete (packInstance id) (o_bootTimers o) |}
  end.

(** ** Telemetry retries *)

(** [pwrseq-monitor/src/orchestrator.cpp:1347-1358 Orchestrator::cancelTelemetryRetry_] *)
Definition cancelTelemetryRetry_ id o : Orch D :=
  match o_retryTimers o !! packInstance id with
  | None => o
  | Some n =>
      let o := source_unref n o in
      {| o with o_retryTimers := delete (packInstance id) (o_retryTimers o) |}
  end.

(** [pwrseq-monitor/src/orchestrator.cpp:1300-1345 Orchestrator::scheduleTelemetryRetry_] *)
Definition scheduleTelemetryRetry_ id (attempt : Z) o : Orch D :=
  let o := cancelTelemetryRetry_ id o in
  match add_time (env_now + kTelemetryRetryInterval * 1000) (TelemetryRetry id attempt) o with
  | (None, o) => o
  | (Some n, o) => {| o with o_retryTimers := <[packInstance id := n]> (o_retryTimers o) |}
  end.

(** A device call, on the device and the hardware in place. *)
Definition call_setTelemetryPolling (enable : bool) key o : option (Result * Orch D) :=
  match o_devices o !! key with
  | None => None
  | Some dev =>
      let '(r, dev, hs) := dev_setTelemetryPolling enable dev (o_hal o) in
      Some (r, {| o with o_devices := <[key := dev]> (o_devices o); o_hal := hs |})
  end.

(** [pwrseq-monitor/src/orchestrator.cpp:1360-1392 Orchestrator::handleTelemetryRetry_] *)
Definition handleTelemetryRetry_ id (attempt : Z) o : Orch D :=
  let key := packInstance id in
  match o_elements o !! key with
  | None => o
  | Some ee =>
      if decide (ef_state (ee_fsm ee) ≠ E_Online) then o else
      match call_setTelemetryPolling true key o with
      | None => o
      | Some (result, o) =>
          if decide (result = R_NotReady) then
            if attempt <? kMaxTelemetryRetryAttempts
            then scheduleTelemetryRetry_ id (attempt + 1) o else o
          else o
      end
  end.

(** ** The state-change callbacks *)

(** [pwrseq-monitor/src/orchestrator.cpp:503-515 Orchestrator::wireTrayFsm_]
    The closure it registers. *)
Definition onTrayStateChange (path : string) (neu : TrayState) o : Orch D :=
  {| o with o_bus := applyStatus_tray path neu (o_bus o) |}.

Definition tray_dispatch (ev : SemanticEvent) o : Orch D :=
  match o_tray o with
  | None => o
  | Some (fsm, path) =>
      let '(fsm, hooks, _) := TrayFsm_dispatch fsm ev in
      foldl (λ o h, match h with OnTrayStateChange _ neu => onTrayStateChange path neu o end)
        {| o with o_tray := Some (fsm, path) |} hooks
  end.

(** The identifier of the tray FSM, when there is one. *)
Definition tray_id o : option InstanceId := (λ f, tc_id (tf_ctx f.1)) <$> o_tray o.

(** [pwrseq-monitor/src/orchestrator.cpp:481-501 Orchestrator::wireModuleFsm_]
    The closure it registers. *)
Definition onModuleStateChange id (path : string) (neu : ModuleState) o : Orch D :=
  let o := {| o with o_bus := applyStatus_module path neu (o_bus o) |} in
  match tray_id o with
  | Some tray => tray_dispatch (mkEvent ModuleStateChanged tray (ChildModulePayload id neu)) o
  | None => o
  end.

Definition module_dispatch (mkey : Z) (ev : SemanticEvent) o : Orch D :=
  match o_modules o !! mkey with
  | None => o
  | Some (fsm, path) =>
      let id := mc_id (mf_ctx fsm) in
      let '(fsm, hooks, _) := ModuleFsm_dispatch fsm ev in
      foldl (λ o h, match h with OnModuleStateChange _ neu => onModuleStateChange id path neu o end)
        {| o with o_modules := <[mkey := (fsm, path)]> (o_modules o) |} hooks
  end.

(** The module identifier rebuilt from its key. *)
Definition module_id_of_key (mkey : Z) : InstanceId :=
  match unpackInstance mkey with Some id => id | None => mkInstanceId Module_ 0 end.

(** The telemetry part of an element's closure: polling follows S_ONLINE. *)
Definition pollOnChange id (old neu : ElementState) o : Orch D :=
  if bool_decide (old = E_Online) || bool_decide (neu = E_Online) then
    let o := cancelTelemetryRetry_ id o in
    let enable := bool_decide (neu = E_Online) in
    match call_setTelemetryPolling enable (packInstance id) o with
    | None => o
    | Some (pr, o) =>
        if enable && bool_decide (pr = R_NotReady) then scheduleTelemetryRetry_ id 1 o else o
    end
  else o.

(** [pwrseq-monitor/src/orchestrator.cpp:396-479 Orchestrator::wireElementFsm_]
    The closure it registers: report, follow with telemetry polling, tell the
    parent. *)
Definition onElementStateChange id (path : string) (isLpu : bool)
    (old neu : ElementState) o : Orch D :=
  let o := {| o with o_bus := applyStatus_element path neu true (o_bus o) |} in
  if isLpu then
    let o := pollOnChange id old neu o in
    match o_elementToModule o !! packInstance id with
    | None => o
    | Some mkey =>
        module_dispatch mkey
          (mkEvent LpuStateChanged (module_id_of_key mkey) (ChildElementPayload id neu)) o
    end
  else
    match tray_id o with
    | Some tray => tray_dispatch (mkEvent FpgaStateChanged tray (ChildElementPayload id neu)) o
    | None => o
    end.

Definition run_element_hook id (path : string) (isLpu : bool) o (h : ElementHook) : Orch D :=
  match h with
  | StartTBoot => startBootTimer_ id o
  | CancelTBoot => cancelBootTimer_ id o
  | OnElementStateChange old neu => onElementStateChange id path isLpu old neu o
  end.

(** An event dispatched to the element FSM of a key, if there is one. *)
Definition element_dispatch key (ev : SemanticEvent) o : Orch D :=
  match o_elements o !! key with
  | None => o
  | Some ee =>
      let id := ec_id (ef_ctx (ee_fsm ee)) in
      let '(fsm, hooks, _) := ElementFsm_dispatch (ee_fsm ee) ev in
      foldl (run_element_hook id (ee_path ee) (ee_isLpu ee))
        {| o with o_elements := <[key := {| ee with ee_fsm := fsm |}]> (o_elements o) |} hooks
  end.

(** ** Pending resets *)

(** [pwrseq-monitor/src/orchestrator.cpp:934-943 Tracker::add] *)
Definition tracker_add (t : nat) (descId : string) (out : ResetOutcome) o : Orch D :=
  match o_trackers o !! t with
  | None => o
  | Some tr =>
      let results := tr_results tr ++ [(descId, out)] in
      match tr_callback tr with
      | Some req =>
          if decide (tr_expected tr ≤ length results)%nat then
            {| o with o_trackers := <[t := mkTracker [] (tr_expected tr) None]> (o_trackers o);
                      o_replies := o_replies o ++ [ResetAllReply req results] |}
          else {| o with o_trackers :=
                    <[t := mkTracker results (tr_expected tr) (Some req)]> (o_trackers o) |}
      | None => {| o with o_trackers :=
                    <[t := mkTracker results (tr_expected tr) None]> (o_trackers o) |}
      end
  end.

Definition run_callback (cb : ResetCallback) (out : ResetOutcome) o : Orch D :=
  match cb with
  | ReplyTo req => {| o with o_replies := o_replies o ++ [ResetReply req out] |}
  | ReportTo t descId => tracker_add t descId out o
  end.

(** [pwrseq-monitor/src/orchestrator.cpp:663-685 Orchestrator::completePending_]
    The entry is erased before the callback runs. *)
Definition completePending_ key (out : ResetOutcome) o : Orch D :=
  match o_pendingResets o !! key with
  | None => o
  | Some pending =>
      let o := {| o with o_pendingResets := delete key (o_pendingResets o) |} in
      let o := source_unref (pr_deadline pending) o in
      run_callback (pr_callback pending) out o
  end.

(** [pwrseq-monitor/src/orchestrator.cpp:571-597 Orchestrator::emit] *)
Definition emit (ev : SemanticEvent) o : Orch D :=
  let key := packInstance (target ev) in
  let o := element_dispatch key ev o in
  if decide (kind ev = BcHi) then
    match o_pendingResets o !! key with
    | Some _ => completePending_ key RO_Ok o
    | None => o
    end
  else o.

(** ** Line edges *)

Definition call_clear key o : Orch D :=
  match o_devices o !! key with
  | Some dev => {| o with o_hal := dev_clearBootCompleteCache dev (o_hal o) |}
  | None => o
  end.

(** [pwrseq-monitor/src/hal/fpga_driver.cpp:80-98 FpgaDriver::init]
    The closures a driver subscribes to its lines; they do nothing without a
    sink. *)
Definition call_subscriber (cb : LineCallback) (asserted : bool) o : Orch D * option string :=
  match cb with
  | PgCallback key =>
      match o_devices o !! key with
      | None => (o, None)
      | Some dev =>
          if negb (dev_sink dev) then (o, None) else
          (emitPowerGoodEdge emit (dev_id dev) asserted (dev_bcHigh dev (o_hal o))
             (call_clear key) o, None)
      end
  | BcCallback key =>
      match o_devices o !! key with
      | None => (o, None)
      | Some dev =>
          if dev_sink dev then (emit (event (if asserted then BcHi else BcLo) (dev_id dev)) o, None)
          else (o, None)
      end
  end.

Definition o_lines o : LineHeap LineCallback := hs_lines (o_hal o).
Definition with_lines (h : LineHeap LineCallback) o : Orch D :=
  {| o with o_hal := {| (o_hal o) with hs_lines := h |} |}.

Definition notifyExternal (i : nat) (asserted : bool) o : Orch D :=
  SharedLine_notifyExternal o_lines with_lines call_subscriber i asserted o.

(** [pwrseq-monitor/src/hal/lpu_driver.cpp:386-394 LpuDriver::injectBootCompleteElectrical] *)
Definition injectBootCompleteElectrical key (electrical : bool) o : bool * Orch D :=
  match o_devices o !! key with
  | None => (false, o)
  | Some dev =>
      match dev_bcLine dev with
      | None => (false, o)
      | Some i => (true, notifyExternal i electrical o)
      end
  end.

(** [pwrseq-monitor/src/orchestrator.cpp:1394-1433 Orchestrator::tryRecoverStickyBc_] *)
Definition tryRecoverStickyBc_ id o : bool * Orch D :=
  match o_devices o !! packInstance id with
  | None => (false, o)
  | Some dev =>
      let lineName := dev_bootCompleteLineName dev in
      if decide (lineName = "") then (false, o) else
      match readLineLevel lineName with
      | None => (false, o)
      | Some electrical =>
          tryRecoverStickyBootComplete (Some electrical)
            (dev_bootCompleteActiveLow dev (o_hal o))
            (injectBootCompleteElectrical (packInstance id)) o
      end
  end.

(** ** Timer callbacks *)

(** [pwrseq-monitor/src/orchestrator.cpp:1255-1274 Orchestrator::startBootTimer_]
    The boot deadline passes: sticky boot-complete, or BOOT_TIMEOUT. *)
Definition onBootExpired id o : Orch D :=
  let key := packInstance id in
  let o :=
    match o_elements o !! key with
    | None => o
    | Some _ =>
        let '(recovered, o) := tryRecoverStickyBc_ id o in
        if recovered then o else element_dispatch key (event TBootExpired id) o
    end in
  {| o with o_bootTimers := delete key (o_bootTimers o) |}.

(** [pwrseq-monitor/src/orchestrator.cpp:1320-1332 Orchestrator::scheduleTelemetryRetry_]
    The entry is erased, the retry handled, the source unreferenced. *)
Definition onTelemetryRetry (n : nat) id (attempt : Z) o : Orch D :=
  let o := {| o with o_retryTimers := delete (packInstance id) (o_retryTimers o) |} in
  source_unref n (handleTelemetryRetry_ id attempt o).

(** [pwrseq-monitor/src/orchestrator.cpp:797-815 Orchestrator::armResetCompletionWait_]
    The completion deadline passes. *)
Definition onResetDeadline key target o : Orch D :=
  let '(recovered, o) := tryRecoverStickyBc_ target o in
  if recovered then
    match o_pendingResets o !! key with
    | Some _ => completePending_ key RO_Ok o
    | None => o
    end
  else completePending_ key RO_Timeout o.

(** The loop runs a source that is due. *)
Definition fire (n : nat) o : Orch D :=
  match loop_sources (o_loop o) !! n with
  | None => o
  | Some src =>
      if ts_enabled src && (ts_at src <=? env_now) then
        let o := source_disable n o in
        match ts_callback src with
        | BootExpired id => onBootExpired id o
        | TelemetryRetry id attempt => onTelemetryRetry n id attempt o
        | ResetDeadline key target => onResetDeadline key target o
        end
      else o
  end.

(** ** Identifiers *)

(** [pwrseq-monitor/src/orchestrator.cpp:1143-1150 Orchestrator::instanceByDescriptorId] *)
Definition instanceByDescriptorId (s : string) o : option InstanceId :=
  o_instanceByDescId o !! s ≫= unpackInstance.

(** [pwrseq-monitor/src/orchestrator.cpp:1152-1158 Orchestrator::descriptorIdByInstance] *)
Definition descriptorIdByInstance id o : string :=
  default "" (o_descIdByInstance o !! packInstance id).

(** The descriptor identifier, or the internal one. *)
Definition descIdOrInternal id o : string :=
  let descId := descriptorIdByInstance id o in
  if decide (descId = "") then InstanceId_to_string id else descId.

(** [pwrseq-monitor/src/orchestrator.cpp:1160-1179 Orchestrator::presentInstances] *)
Definition presentInstances (c : Class_) o : list InstanceId :=
  merge_sort by_index
    (omap (λ e : Z * D, id ← unpackInstance e.1; if decide (cls id = c) then Some id else None)
       (map_to_list (o_devices o))).

(** [pwrseq-monitor/src/orchestrator.cpp:1221-1229 Orchestrator::resetEligible_] *)
Definition resetEligible_ id o : bool :=
  match o_elements o !! packInstance id with
  | None => false
  | Some ee => ef_seenPgHi (ee_fsm ee)
  end.

(** ** Resets *)

(** [pwrseq-monitor/src/orchestrator.cpp:599-629 Orchestrator::requestReset] *)
Definition requestReset target (k : ResetKind) o : res string (Result * Orch D) :=
  let key := packInstance target in
  match o_devices o !! key with
  | None => Ok (R_NotPresent, o)
  | Some _ =>
      let o := call_clear key o in
      let o := element_dispatch key (event RstAsserted target) o in
      match o_devices o !! key with
      | None => Ok (R_NotPresent, o)
      | Some dev =>
          '(r, hs) ← dev_reset k dev (o_hal o);
          let o := {| o with o_hal := hs |} in
          Ok (r, element_dispatch key (event RstReleased target) o)
      end
  end.

(** [pwrseq-monitor/src/orchestrator.cpp:754-836 Orchestrator::armResetCompletionWait_]
    An entry already there is kept. *)
Definition armResetCompletionWait_ target (cb : ResetCallback) o : bool * Orch D :=
  let key := packInstance target in
  match add_time (env_now + kResetCompletionTimeout * 1000) (ResetDeadline key target) o with
  | (None, o) => (false, run_callback cb RO_PulseFailed o)
  | (Some n, o) =>
      (true, {| o with o_pendingResets :=
         match o_pendingResets o !! key with
         | Some _ => o_pendingResets o
         | None => <[key := mkPendingReset n target cb]> (o_pendingResets o)
         end |})
  end.

(** The outcome a trigger result stands for. *)
Definition outcome_of_result (r : Result) : ResetOutcome :=
  match r with
  | R_NotSupported => RO_NotSupported
  | R_Absent => RO_NotPresent
  | _ => RO_PulseFailed
  end.

(** [pwrseq-monitor/src/orchestrator.cpp:687-752 Orchestrator::requestResetAsync] *)
Definition requestResetAsync target (k : ResetKind) (cb : ResetCallback) o
    : res string (Orch D) :=
  let key := packInstance target in
  match o_pendingResets o !! key with
  | Some _ => Ok (run_callback cb RO_Busy o)
  | None =>
      match o_devices o !! key with
      | None => Ok (run_callback cb RO_NotPresent o)
      | Some _ =>
          if negb (resetEligible_ target o) then Ok (run_callback cb RO_NotPresent o) else
          let '(armed, o) := armResetCompletionWait_ target cb o in
          if negb armed then Ok o else
          let o := call_clear key o in
          '(r, o) ← requestReset target k o;
          Ok (if decide (r = R_Ok) then o else completePending_ key (outcome_of_result r) o)
      end
  end.

(** [pwrseq-monitor/src/orchestrator.cpp:906-914 PulseStep] *)
Record PulseStep := mkPulseStep {
  ps_target : InstanceId;
  ps_descId : string;
  ps_waitArmed : bool;
  ps_assertResult : Result;
}.

(** [pwrseq-monitor/src/orchestrator.cpp:959-974 Orchestrator::requestResetAllSync]
    The completion waits are armed and the stale levels cleared. *)
Definition armStep (t : nat) (acc : list PulseStep * Orch D) (s : PulseStep)
    : list PulseStep * Orch D :=
  let '(steps, o) := acc in
  let '(armed, o) := armResetCompletionWait_ (ps_target s) (ReportTo t (ps_descId s)) o in
  if armed then
    (steps ++ [{| s with ps_waitArmed := true |}], call_clear (packInstance (ps_target s)) o)
  else (steps ++ [s], o).

(** [pwrseq-monitor/src/orchestrator.cpp:976-992 Orchestrator::requestResetAllSync]
    Phase 1: the armed lines are asserted back to back. *)
Fixpoint assertSteps (k : ResetKind) (steps : list PulseStep) o
    : res string (list PulseStep * Orch D) :=
  match steps with
  | [] => Ok ([], o)
  | s :: rest =>
      '(s, o) ← (if negb (ps_waitArmed s) then Ok (s, o) else
        let key := packInstance (ps_target s) in
        let o := element_dispatch key (event RstAsserted (ps_target s)) o in
        match o_devices o !! key with
        | None => Ok (s, o)
        | Some dev =>
            '(r, hs) ← dev_resetAssert k dev (o_hal o);
            Ok ({| s with ps_assertResult := r |}, {| o with o_hal := hs |})
        end);
      '(rest, o) ← assertSteps k rest o;
      Ok (s :: rest, o)
  end.

(** [pwrseq-monitor/src/orchestrator.cpp:994-1023 Orchestrator::requestResetAllSync]
    Phase 2: a failed assert completes its wait, the others are released. *)
Definition releaseStep o (s : PulseStep) : Orch D :=
  if negb (ps_waitArmed s) then o else
  let key := packInstance (ps_target s) in
  if decide (ps_assertResult s ≠ R_Ok) then
    completePending_ key (outcome_of_result (ps_assertResult s)) o
  else element_dispatch key (event RstReleased (ps_target s)) o.

(** The batch once the elements to reset are known. *)
Definition resetBatch (k : ResetKind) (req : nat) (early : ResetResults)
    (targets : list InstanceId) o : res string (Orch D) :=
  let steps := map (λ id, mkPulseStep id (descIdOrInternal id o) false R_Ok) targets in
  match steps with
  | [] => Ok {| o with o_replies := o_replies o ++ [ResetAllReply req early] |}
  | _ =>
      let t := length (o_trackers o) in
      let tracker := mkTracker early (length early + length steps) (Some req) in
      let o := {| o with o_trackers := o_trackers o ++ [tracker] |} in
      let '(steps, o) := foldl (armStep t) ([], o) steps in
      '(steps, o) ← assertSteps k steps o;
      Ok (foldl releaseStep o steps)
  end.

(** [pwrseq-monitor/src/orchestrator.cpp:838-957 Orchestrator::requestResetAllSync] *)
Definition requestResetAllSync (c : Class_) (k : ResetKind) (req : nat) o
    : res string (Orch D) :=
  let eligible := base.filter (λ id, resetEligible_ id o = true) (presentInstances c o) in
  match eligible with
  | [] => Ok {| o with o_replies := o_replies o ++ [ResetAllReply req []] |}
  | _ =>
      let busy id := bool_decide (is_Some (o_pendingResets o !! packInstance id)) in
      let early := map (λ id, (descIdOrInternal id o, RO_Busy))
                     (base.filter (λ id, busy id = true) eligible) in
      let targets := base.filter (λ id, busy id = false) eligible in
      resetBatch k req early targets o
  end.

(** ** Other requests *)

(** [pwrseq-monitor/src/orchestrator.cpp:631-659 Orchestrator::requestLogDrain] *)
Definition requestLogDrain target o : Result * Orch D :=
  if decide (cls target ≠ Lpu) then (R_BadArgument, o) else
  let key := packInstance target in
  match o_elements o !! key with
  | None => (R_NotPresent, o)
  | Some ee =>
      if decide (ef_state (ee_fsm ee) ≠ E_Online) then (R_Ok, o) else
      match o_devices o !! key with
      | None => (R_NotPresent, o)
      | Some dev =>
          let '(r, hs) := dev_requestLogDrain dev (o_hal o) in (r, {| o with o_hal := hs |})
      end
  end.

(** [pwrseq-monitor/src/orchestrator.cpp:1181-1219 Orchestrator::setVrTelemetryConfigured] *)
Definition setVrTelemetryConfigured target (enable : bool) o : Result * Orch D :=
  if decide (cls target ≠ Lpu) then (R_BadArgument, o) else
  let key := packInstance target in
  match o_devices o !! key, o_elements o !! key with
  | Some dev, Some ee =>
      let '(configured, dev) := dev_setVrTelemetryConfigured enable dev in
      let o := {| o with o_devices := <[key := dev]> (o_devices o) |} in
      if decide (configured ≠ R_Ok) then (configured, o) else
      let o := cancelTelemetryRetry_ target o in
      if decide (ef_state (ee_fsm ee) ≠ E_Online) then (R_Ok, o) else
      match call_setTelemetryPolling true key o with
      | None => (R_NotPresent, o)
      | Some (polling, o) =>
          if decide (polling = R_NotReady) then (R_Ok, scheduleTelemetryRetry_ target 1 o)
          else (polling, o)
      end
  | _, _ => (R_NotPresent, o)
  end.

(** The bus asks for one of these; the loop fires a timer; a queued line edge
    is delivered. *)
Inductive OrchInput :=
| InEdge (line : nat) (asserted : bool)
| InFire (source : nat)
| InReset (target : InstanceId) (k : ResetKind) (req : nat)
| InResetAll (c : Class_) (k : ResetKind) (req : nat)
| InLogDrain (target : InstanceId)
| InVrTelemetry (target : InstanceId) (enable : bool).

Definition orch_step (i : OrchInput) o : res string (Orch D) :=
  match i with
  | InEdge line asserted => Ok (notifyExternal line asserted o)
  | InFire n => Ok (fire n o)
  | InReset target k req => requestResetAsync target k (ReplyTo req) o
  | InResetAll c k req => requestResetAllSync c k req o
  | InLogDrain target => Ok (requestLogDrain target o).2
  | InVrTelemetry target enable => Ok (setVrTelemetryConfigured target enable o).2
  end.
End Orchestrator.
