(* ===== verification/OrchInit.v ===== *)
(** * Bringing the orchestrator up

    [Orchestrator::initFromDescriptor] (pwrseq-monitor/src/orchestrator.cpp):
    the FSM hierarchy, the drivers and the reporters of a descriptor, with the
    device class [Device]. One definition per part of the function: the tray,
    a module, an element, an FPGA, and the whole. *)

From S2P Require Import Prelude Types ElementFsm ModuleFsm TrayFsm Reporting Hal Lines Drivers.
From S2P Require Import Descriptor Orchestrator.

(** static_cast<uint16_t>. *)
Definition u16 (n : Z) : Z := n mod 2 ^ 16.
Definition u16_size {A} (l : list A) : Z := u16 (Z.of_nat (length l)).

(** ** Configurations *)

(** [pwrseq-monitor/src/orchestrator.cpp:65-73 pushLineRefParams] *)
Definition pushLineRefParams (out : list (string * string)) (prefix : string) (ref : LineRef)
    : list (string * string) :=
  if LineRef_empty ref then out else
  out ++ [((prefix +:+ "_line")%string, lr_line ref);
          ((prefix +:+ "_active_low")%string, if lr_activeLow ref then "1" else "0")].

(** [pwrseq-monitor/src/orchestrator.cpp:114-131 Orchestrator::buildLpuConfig_] *)
Definition buildLpuConfig_ (tBoot : Z) (id : InstanceId) (el : ElementDescriptor)
    : DeviceConfig :=
  let params := pushLineRefParams [] "pg" (el_pg el) in
  let params := pushLineRefParams params "bc" (el_bc el) in
  let params := pushLineRefParams params "reset" (el_resetLine el) in
  let logDev := td_logDev (el_telemetry el) in
  let params := if decide (logDev = "") then params else params ++ [("log_dev", logDev)] in
  mkDeviceConfig id tBoot params true true.

(** [pwrseq-monitor/src/orchestrator.cpp:133-146 Orchestrator::buildFpgaConfig_] *)
Definition buildFpgaConfig_ (tBoot : Z) (id : InstanceId) (f : FpgaDescriptor) : DeviceConfig :=
  let params := pushLineRefParams [] "pg" (fd_pg f) in
  let params := pushLineRefParams params "bc" (fd_bc f) in
  let params := pushLineRefParams params "reset" (fd_resetLine f) in
  mkDeviceConfig id tBoot params true true.

(** ** Paths *)

(** Erasing the prefix HGX_, if there. *)
Definition strip_hgx (s : string) : string :=
  if String.prefix "HGX_" s then String.substring 4 (String.length s - 4) s else s.

(** [pwrseq-monitor/src/orchestrator.cpp:150-173 Orchestrator::elementRedfishPath_] *)
Definition elementRedfishPath_ (e : ElementDescriptor) : string :=
  match el_kind e with
  | K_Lpu => ("/xyz/openbmc_project/inventory/system/accelerator/" +:+ strip_hgx (el_id e))%string
  | _ => ("/xyz/openbmc_project/inventory/system/chassis/" +:+ el_id e)%string
  end.

(** [pwrseq-monitor/src/orchestrator.cpp:175-178 Orchestrator::moduleRedfishPath_] *)
Definition moduleRedfishPath_ (m : ModuleDescriptor) : string :=
  ("/xyz/openbmc_project/inventory/system/chassis/" +:+ md_id m)%string.

(** [pwrseq-monitor/src/orchestrator.cpp:180-183 Orchestrator::fpgaRedfishPath_] *)
Definition fpgaRedfishPath_ (f : FpgaDescriptor) : string :=
  ("/xyz/openbmc_project/inventory/system/chassis/" +:+ fd_id f)%string.

(** [pwrseq-monitor/src/orchestrator.cpp:185-188 Orchestrator::trayRedfishPath_] *)
Definition trayRedfishPath_ (chassisId : string) : string :=
  ("/xyz/openbmc_project/inventory/system/chassis/" +:+ chassisId)%string.

(** ** Construction *)

Abbreviation DaemonState := (Orch Device).

(** The two descriptor maps. *)
Definition name_instance (s : string) (id : InstanceId) (o : DaemonState) : DaemonState :=
  {| o with o_instanceByDescId := <[s := packInstance id]> (o_instanceByDescId o);
            o_descIdByInstance := <[packInstance id := s]> (o_descIdByInstance o) |}.

(** The loop variables of the walk. *)
Record InitState := mkInitState {
  is_orch : DaemonState;
  is_nextElementIdx : Z;
  is_declared : nat;
  is_failed : nat;
}.

(** [pwrseq-monitor/src/orchestrator.cpp:213-225 Orchestrator::initFromDescriptor]
    The tray: its FSM with the callback registered and its first status. *)
Definition initTray (desc : PlatformDescriptor) (o : DaemonState) : DaemonState :=
  let kTrayId := mkInstanceId Tray 0 in
  let fsm := TrayFsm_make kTrayId (Z.to_nat (u16_size (pd_modules desc)))
               (Z.to_nat (u16_size (pd_fpgas desc))) in
  let path := trayRedfishPath_ (pd_chassisId desc) in
  let o := name_instance (pd_chassisId desc) kTrayId o in
  {| o with o_tray := Some (TrayFsm_setOnStateChange fsm, path);
            o_bus := applyStatus_tray path (tf_state fsm) (o_bus o) |}.

(** [pwrseq-monitor/src/orchestrator.cpp:396-479 Orchestrator::wireElementFsm_]
    The hooks registered, the baseline status published, and the element
    entered in the tables. *)
Definition wireElement (id : InstanceId) (path : string) (isLpu : bool) (dev : Device)
    (o : DaemonState) : DaemonState :=
  let fsm := ElementFsm_setHooks (ElementFsm_make id) in
  {| o with o_bus := applyStatus_element path (ef_state fsm) true (o_bus o);
            o_elements := <[packInstance id := mkElementEntry fsm path isLpu]> (o_elements o);
            o_devices := <[packInstance id := dev]> (o_devices o) |}.

(** [pwrseq-monitor/src/orchestrator.cpp:277-332 Orchestrator::initFromDescriptor]
    One element of a module. *)
Definition initElement `{Env} (modId : InstanceId) (st : InitState) (el : ElementDescriptor)
    : res string InitState :=
  let elemId := mkInstanceId Lpu (is_nextElementIdx st) in
  let st := {| st with is_nextElementIdx := u16 (is_nextElementIdx st + 1);
                       is_declared := S (is_declared st) |} in
  match el_kind el with
  | K_Mcu | K_Gpu => Ok {| st with is_failed := S (is_failed st) |}
  | K_Lpu =>
      let o := is_orch st in
      '(ir, driver, hs) ← LpuDriver_init (buildLpuConfig_ (o_tBoot o) elemId el)
                            (LpuDriver_make elemId) (o_hal o);
      let o := {| o with o_hal := hs |} in
      if decide (ir = R_Absent) then Ok {| st with is_orch := o |}
      else if decide (ir ≠ R_Ok) then
        Ok {| st with is_orch := o; is_failed := S (is_failed st) |}
      else
        let o := wireElement elemId (elementRedfishPath_ el) true (DevLpu driver) o in
        let o := {| o with o_elementToModule :=
                      <[packInstance elemId := packInstance modId]> (o_elementToModule o) |} in
        Ok {| st with is_orch := name_instance (el_id el) elemId o |}
  end.

Fixpoint foldM_res {A B} (f : B → A → res string B) (b : B) (l : list A) : res string B :=
  match l with
  | [] => Ok b
  | a :: l => b ← f b a; foldM_res f b l
  end.

(** [pwrseq-monitor/src/orchestrator.cpp:227-333 Orchestrator::initFromDescriptor]
    One module: skipped with more than two elements or none; with one, that
    element fills both slots. *)
Definition initModule `{Env} (st : InitState) (m : Z * ModuleDescriptor)
    : res string InitState :=
  let '(mi, m) := m in
  let modId := mkInstanceId Module_ mi in
  let childCount := u16_size (md_elements m) in
  if 2 <? childCount then
    Ok {| st with is_failed := (is_failed st + Z.to_nat childCount)%nat;
                  is_declared := (is_declared st + Z.to_nat childCount)%nat |}
  else if childCount <? 1 then Ok st
  else
    let childA := mkInstanceId Lpu (is_nextElementIdx st) in
    let childB := if childCount <? 2 then childA
                  else mkInstanceId Lpu (u16 (is_nextElementIdx st + 1)) in
    let modFsm := ModuleFsm_setOnStateChange (ModuleFsm_make modId childA childB) in
    let path := moduleRedfishPath_ m in
    let o := is_orch st in
    let o := {| o with o_bus := applyStatus_module path (mf_state modFsm) (o_bus o);
                       o_modules := <[packInstance modId := (modFsm, path)]> (o_modules o) |} in
    let o := name_instance (md_id m) modId o in
    foldM_res (initElement modId) {| st with is_orch := o |}
      (take (Z.to_nat childCount) (md_elements m)).

(** [pwrseq-monitor/src/orchestrator.cpp:335-376 Orchestrator::initFromDescriptor]
    One FPGA. *)
Definition initFpga `{Env} (st : InitState) (f : Z * FpgaDescriptor) : res string InitState :=
  let '(fi, f) := f in
  let fpgaId := mkInstanceId Fpga fi in
  let st := {| st with is_declared := S (is_declared st) |} in
  let o := is_orch st in
  '(fr, driver, hs) ← FpgaDriver_init (buildFpgaConfig_ (o_tBoot o) fpgaId f)
                        (FpgaDriver_make fpgaId) (o_hal o);
  let o := {| o with o_hal := hs |} in
  if decide (fr = R_Absent) then Ok {| st with is_orch := o |}
  else if decide (fr ≠ R_Ok) then
    Ok {| st with is_orch := o; is_failed := S (is_failed st) |}
  else
    let o := wireElement fpgaId (fpgaRedfishPath_ f) false (DevFpga driver) o in
    Ok {| st with is_orch := name_instance (fd_id f) fpgaId o |}.

(** The members of a list with their positions, as the uint16_t loop counter. *)
Definition indexed {A} (l : list A) : list (Z * A) := imap (λ i a, (Z.of_nat i, a)) l.

(** [pwrseq-monitor/src/orchestrator.cpp:192-392 Orchestrator::initFromDescriptor]
    Fewer than 2^16 modules and FPGAs: the loop counters do not wrap. *)
Definition initFromDescriptor `{Env} (desc : PlatformDescriptor) (o : DaemonState)
    : res string (Result * DaemonState) :=
  let o := {| o with o_tBoot := pd_tBootMs desc; o_platform := pd_platform desc |} in
  let o := initTray desc o in
  st ← foldM_res initModule (mkInitState o 0 0 0) (indexed (pd_modules desc));
  st ← foldM_res initFpga st (indexed (pd_fpgas desc));
  Ok (if decide (0 < is_failed st)%nat then R_InitFailed else R_Ok, is_orch st).

(** ** A tray on the bench *)

(** The environment of the small tray: one chip with its reset lines. *)
Definition tray_env : Env := {| bench_env with
  env_dev := [("gpiochip0", Some ["LPU0_RST"; "LPU1_RST"; "FPGA0_RST"])] |}.

Definition tray_started : res string (Result * DaemonState) :=
  @initFromDescriptor tray_env small_tray Orch_empty.

Definition tray0 : DaemonState :=
  match tray_started with Ok (_, o) => o | Throw _ => Orch_empty end.

Definition summary (o : DaemonState) :=
  (map (λ e, (e.1, ef_state (ee_fsm e.2))) (map_to_list (o_elements o)),
   map (λ e, (e.1, mf_state e.2.1, mc_childStates (mf_ctx e.2.1))) (map_to_list (o_modules o)),
   (λ f, (tf_state f.1, tf_ctx f.1)) <$> o_tray o, map_to_list (o_bus o), o_replies o,
   map_to_list (o_bootTimers o), hs_hw (o_hal o)).
