(* ===== verification/GpioClient.v ===== *)
(** * The client of the GPIO property service

    pwrseq-monitor/include/gpio_property_logic.hpp: the cached view of a line object,
    the decision to inject a level, and the machine that drives the snapshot calls.
    pwrseq-monitor/src/gpio_monitor_client.cpp: the object that follows the line
    properties of gpio-mon. It caches every line object, injects the levels of the
    lines the descriptor names, and seeds the cache with an asynchronous snapshot that
    it retries. The manager it injects into is a world [W] with the operation [inject];
    the bus it calls is the class [BusEnv]. *)

From S2P Require Import Prelude Hal Descriptor.

(** * Line properties and the snapshot machine *)

(** ** Cached lines *)

(** [pwrseq-monitor/include/gpio_property_logic.hpp:34-42 CachedLine] *)
Record CachedLine := mkCachedLine {
  cl_lineName : string;
  cl_bound : bool;
  cl_hasValue : bool;
  cl_value : bool;
}.

Definition CachedLine_empty : CachedLine := mkCachedLine "" false false false.

(** [pwrseq-monitor/include/gpio_property_logic.hpp:44-55 Decision] [None] is
    the action None; an injection carries the line and its level. *)
Definition Decision_ : Type := option (string * bool).

(** [pwrseq-monitor/include/gpio_property_logic.hpp:58-62 isInteresting] *)
Definition isInteresting (lineName : string) (interesting : gset string) : bool :=
  negb (bool_decide (lineName = "")) && bool_decide (lineName ∈ interesting).

(** [pwrseq-monitor/include/gpio_property_logic.hpp:65-75 decideInject] *)
Definition decideInject (cache : CachedLine) (interesting : gset string) : Decision_ :=
  if negb (cl_bound cache) || negb (cl_hasValue cache)
     || negb (isInteresting (cl_lineName cache) interesting) then None
  else Some (cl_lineName cache, cl_value cache).

(** The properties an update carries; a missing one is [None]. *)
Record LineUpdate := mkLineUpdate {
  lu_lineName : option string;
  lu_bound : option bool;
  lu_value : option bool;
}.

(** [pwrseq-monitor/include/gpio_property_logic.hpp:83-105 applyPropertyUpdate]
    The cache after the update, and the decision. *)
Definition applyPropertyUpdate (cache : CachedLine) (u : LineUpdate) (interesting : gset string)
    : CachedLine * Decision_ :=
  let cache := match lu_lineName u with
    | Some n => if decide (n = "") then cache else {| cache with cl_lineName := n |}
    | None => cache
    end in
  let cache := match lu_bound u with
    | Some b => {| cache with cl_bound := b |} | None => cache end in
  let cache := match lu_value u with
    | Some v => {| cache with cl_value := v; cl_hasValue := true |} | None => cache end in
  (cache, decideInject cache interesting).

(** [pwrseq-monitor/include/gpio_property_logic.hpp:110-132 applySnapshotUpdate] *)
Definition applySnapshotUpdate (cache : CachedLine) (u : LineUpdate) (interesting : gset string)
    : CachedLine * Decision_ :=
  let prevHas := cl_hasValue cache in
  let prevBound := cl_bound cache in
  let prevVal := cl_value cache in
  let '(cache, d) := applyPropertyUpdate cache u interesting in
  match d with
  | None => (cache, None)
  | Some _ =>
      if prevHas && prevBound && cl_bound cache && eqb prevVal (cl_value cache)
      then (cache, None) else (cache, d)
  end.

(** ** The snapshot machine *)

(** [pwrseq-monitor/include/gpio_property_logic.hpp:136-142 SnapshotPhase] *)
Inductive SnapshotPhase := SP_Idle | SP_InFlight | SP_Ready | SP_RetryWait.

#[export] Instance SnapshotPhase_eq_dec : EqDecision SnapshotPhase.
Proof. solve_decision. Defined.

(** [pwrseq-monitor/include/gpio_property_logic.hpp:144-154 SnapshotEvent] *)
Inductive SnapshotEvent :=
| StartRequested | CallDispatched | CallSucceeded | CallFailedMissing | CallFailedTransient
| RetryTimerFired | ServiceAppeared | ServiceDeparted.

(** [pwrseq-monitor/include/gpio_property_logic.hpp:156-163 SnapshotActions] *)
Record SnapshotActions := mkSnapshotActions {
  sa_dispatchCall : bool;
  sa_armRetryTimer : bool;
  sa_cancelRetryTimer : bool;
  sa_clearPathMap : bool;
  sa_retryDelayUsec : Z;
}.

(** [pwrseq-monitor/include/gpio_property_logic.hpp:165-174 SnapshotMachine] *)
Record SnapshotMachine := mkSnapshotMachine {
  sm_phase : SnapshotPhase;
  sm_attempts : Z;
  sm_maxAttempts : Z;
  sm_serviceOwned : bool;
  sm_everReady : bool;
}.

Definition kDefaultMaxAttempts : Z := 30.
Definition kRetryDelayUsec : Z := 1000000.

Definition SnapshotMachine_init : SnapshotMachine :=
  mkSnapshotMachine SP_Idle 0 kDefaultMaxAttempts false false.

Definition no_actions : SnapshotActions := mkSnapshotActions false false false false 0.

(** [pwrseq-monitor/include/gpio_property_logic.hpp:176-252 SnapshotMachine::onEvent]
    The attempts are a uint32_t: the increment wraps. *)
Definition onEvent (ev : SnapshotEvent) (m : SnapshotMachine) : SnapshotMachine * SnapshotActions :=
  let waiting := bool_decide (sm_phase m = SP_RetryWait) in
  let idle := negb (bool_decide (sm_phase m = SP_InFlight)) in
  match ev with
  | StartRequested =>
      (m, {| no_actions with sa_cancelRetryTimer := waiting; sa_dispatchCall := idle |})
  | CallDispatched =>
      ({| m with sm_phase := SP_InFlight; sm_attempts := (sm_attempts m + 1) mod 2 ^ 32 |},
       no_actions)
  | CallSucceeded =>
      ({| m with sm_phase := SP_Ready; sm_everReady := true; sm_serviceOwned := true;
                 sm_attempts := 0 |},
       {| no_actions with sa_cancelRetryTimer := true |})
  | CallFailedMissing =>
      ({| m with sm_serviceOwned := false; sm_phase := SP_Idle |},
       {| no_actions with sa_cancelRetryTimer := true |})
  | CallFailedTransient =>
      if sm_maxAttempts m <=? sm_attempts m then
        ({| m with sm_phase := if sm_everReady m then SP_Ready else SP_Idle |},
         {| no_actions with sa_cancelRetryTimer := true |})
      else
        ({| m with sm_phase := SP_RetryWait |},
         {| no_actions with sa_armRetryTimer := true; sa_retryDelayUsec := kRetryDelayUsec |})
  | RetryTimerFired => (m, {| no_actions with sa_dispatchCall := waiting |})
  | ServiceAppeared =>
      ({| m with sm_serviceOwned := true; sm_attempts := 0 |},
       {| no_actions with sa_cancelRetryTimer := waiting; sa_dispatchCall := idle |})
  | ServiceDeparted =>
      ({| m with sm_serviceOwned := false; sm_phase := SP_Idle; sm_attempts := 0 |},
       {| no_actions with sa_clearPathMap := true; sa_cancelRetryTimer := true |})
  end.

(** [pwrseq-monitor/include/gpio_property_logic.hpp:256-260 isServiceMissingError] *)
Definition isServiceMissingError (name : string) : bool :=
  bool_decide (name = "org.freedesktop.DBus.Error.ServiceUnknown")
  || bool_decide (name = "org.freedesktop.DBus.Error.NameHasNoOwner").

(** ** Lemmas *)

(** An injection carries the cached level of an interesting bound line. *)
Lemma decideInject_some c lines n v :
  decideInject c lines = Some (n, v) ↔
  cl_bound c = true ∧ cl_hasValue c = true ∧ n ≠ "" ∧ n ∈ lines ∧
  cl_lineName c = n ∧ cl_value c = v.
Proof.
  unfold decideInject, isInteresting.
  destruct (cl_bound c), (cl_hasValue c); cbn; [|naive_solver..].
  repeat case_bool_decide; cbn; naive_solver.
Qed.

(** The two updates leave the same cache. *)
Lemma applySnapshotUpdate_cache c u lines :
  (applySnapshotUpdate c u lines).1 = (applyPropertyUpdate c u lines).1.
Proof.
  unfold applySnapshotUpdate. destruct (applyPropertyUpdate c u lines) as [c' [d|]]; [|done].
  by case_match.
Qed.

(** An update injects what its cache calls for. *)
Lemma applyPropertyUpdate_decision c u lines :
  (applyPropertyUpdate c u lines).2 = decideInject (applyPropertyUpdate c u lines).1 lines.
Proof. done. Qed.

(** * The client of the GPIO property service *)

(** ** The bus *)

(** The call is dispatched, refused with a D-Bus error that may have a name,
    or fails with another exception. *)
Inductive CallResult := CallOk | CallSdBusError (name : option string) | CallException.

(** What the code asks of sd-bus and of the loop while one event is handled. *)
Class BusEnv := mkBusEnv {
  be_call : CallResult;
  be_loop : bool;
  be_now : bool;
  be_addTime : bool;
  be_addDefer : bool;
}.

Definition kGpioService : string := "xyz.openbmc_project.Gpio.Monitor".
Definition kLineIface : string := "xyz.openbmc_project.Gpio.Monitor.Line".

Abbreviation PropertyMap := (gmap string PropValue).
Abbreviation InterfaceMap := (gmap string PropertyMap).

(** ** Data *)

(** [pwrseq-monitor/src/gpio_monitor_client.cpp:507-520 GpioPropertySubscriber::Impl]
    The slot of the call in flight and the retry timer are there or not. *)
Record Client := mkClient {
  gc_interesting : gset string;
  gc_byPath : gmap string CachedLine;
  gc_machine : SnapshotMachine;
  gc_slot : bool;
  gc_retry : bool;
}.

(** [pwrseq-monitor/src/gpio_monitor_client.cpp:51-58 addUniqueLine] *)
Definition addUniqueLine (ref : LineRef) (lines : gset string) : gset string :=
  if decide (lr_line ref = "") then lines else {[ lr_line ref ]} ∪ lines.

(** [pwrseq-monitor/src/gpio_monitor_client.cpp:63-83 inputLines] *)
Definition inputLines (desc : PlatformDescriptor) : gset string :=
  let lines := foldl (λ lines el, addUniqueLine (el_bc el) (addUniqueLine (el_pg el) lines)) ∅
                 (concat (map md_elements (pd_modules desc))) in
  foldl (λ lines f, addUniqueLine (fd_bc f) (addUniqueLine (fd_pg f) lines)) lines (pd_fpgas desc).

(** [pwrseq-monitor/src/gpio_monitor_client.cpp:85-112 lookupString] *)
Definition lookupString (props : PropertyMap) (key : string) : option string :=
  match props !! key with Some (PropString s) => Some s | _ => None end.

(** [pwrseq-monitor/src/gpio_monitor_client.cpp:94-122 lookupBool] *)
Definition lookupBool (props : PropertyMap) (key : string) : option bool :=
  match props !! key with Some (PropBool b) => Some b | _ => None end.

Definition line_update (props : PropertyMap) : LineUpdate :=
  mkLineUpdate (lookupString props "LineName") (lookupBool props "Bound") (lookupBool props "Value").

(** ** Operations *)

Section Client.
Context `{BusEnv}.
Implicit Types (c : Client).

(** [pwrseq-monitor/src/gpio_monitor_client.cpp:447-455 cancelRetryTimer] *)
Definition cancelRetryTimer c : Client := {| c with gc_retry := false |}.

(** [pwrseq-monitor/src/gpio_monitor_client.cpp:457-492 armRetryTimer] *)
Definition armRetryTimer c : Client :=
  let c := cancelRetryTimer c in
  if negb be_loop then c else
  if negb be_now then c else
  if negb be_addTime then c else {| c with gc_retry := true |}.

(** [pwrseq-monitor/src/gpio_monitor_client.cpp:173-192 applyMachine] The
    actions of an event, with the call left to [dispatch]. *)
Definition applyMachine_ (dispatch : Client → Client) (ev : SnapshotEvent) c : Client :=
  let '(m, a) := onEvent ev (gc_machine c) in
  let c := {| c with gc_machine := m |} in
  let c := if sa_clearPathMap a then {| c with gc_byPath := ∅ |} else c in
  let c := if sa_cancelRetryTimer a then cancelRetryTimer c else c in
  let c := if sa_armRetryTimer a then armRetryTimer c else c in
  if sa_dispatchCall a then dispatch c else c.

(** [pwrseq-monitor/src/gpio_monitor_client.cpp:225-266 dispatchSnapshotCall]
    The failure events never ask for another call (see [failure_no_call]). *)
Definition dispatchSnapshotCall c : Client :=
  match be_call with
  | CallOk =>
      let c := {| c with gc_slot := true |} in
      {| c with gc_machine := (onEvent CallDispatched (gc_machine c)).1 |}
  | CallSdBusError (Some name) =>
      if isServiceMissingError name then applyMachine_ id CallFailedMissing c
      else applyMachine_ id CallFailedTransient c
  | CallSdBusError None | CallException => applyMachine_ id CallFailedTransient c
  end.

Definition applyMachine : SnapshotEvent → Client → Client := applyMachine_ dispatchSnapshotCall.

(** [pwrseq-monitor/src/gpio_monitor_client.cpp:126-165 Impl::Impl] *)
Definition Client_start (interesting : gset string) : Client :=
  applyMachine StartRequested (mkClient interesting ∅ SnapshotMachine_init false false).

(** Injection is the manager's; the path it is made for is passed along. *)
Context {W : Type} (inject : string → string → bool → W → W).

(** [pwrseq-monitor/src/gpio_monitor_client.cpp:194-201 handleDecision] *)
Definition handleDecision (path : string) (d : Decision_) (w : W) : W :=
  match d with Some (line, level) => inject path line level w | None => w end.

(** [pwrseq-monitor/src/gpio_monitor_client.cpp:203-223 applyLineProps] *)
Definition applyLineProps (path : string) (props : PropertyMap) (fromSnapshot : bool)
    (cw : Client * W) : Client * W :=
  let '(c, w) := cw in
  let cache := default CachedLine_empty (gc_byPath c !! path) in
  let '(cache, d) :=
    if fromSnapshot then applySnapshotUpdate cache (line_update props) (gc_interesting c)
    else applyPropertyUpdate cache (line_update props) (gc_interesting c) in
  ({| c with gc_byPath := <[path := cache]> (gc_byPath c) |}, handleDecision path d w).

(** The reply of GetManagedObjects: the objects in path order. *)
Inductive SnapshotReply :=
| ReplyError (name : string)
| ReplyUnreadable
| ReplyTree (tree : list (string * InterfaceMap)).

(** [pwrseq-monitor/src/gpio_monitor_client.cpp:299-322 onSnapshotReply] *)
Definition applySnapshotRow (cw : Client * W) (row : string * InterfaceMap) : Client * W :=
  match row.2 !! kLineIface with
  | None => cw
  | Some props => applyLineProps row.1 props true cw
  end.

(** [pwrseq-monitor/src/gpio_monitor_client.cpp:268-339 onSnapshotReply] *)
Definition onSnapshotReply (reply : SnapshotReply) (cw : Client * W) : Client * W :=
  let '(c, w) := cw in
  let c := {| c with gc_slot := false |} in
  match reply with
  | ReplyError name =>
      if isServiceMissingError name then (applyMachine CallFailedMissing c, w)
      else (applyMachine CallFailedTransient c, w)
  | ReplyUnreadable => (applyMachine CallFailedTransient c, w)
  | ReplyTree tree =>
      let '(c, w) := foldl applySnapshotRow (c, w) tree in
      (applyMachine CallSucceeded c, w)
  end.

(** [pwrseq-monitor/src/gpio_monitor_client.cpp:341-363 onPropertiesChanged] *)
Definition onPropertiesChanged (path iface : string) (changed : PropertyMap)
    (cw : Client * W) : Client * W :=
  if decide (iface ≠ kLineIface) then cw else applyLineProps path changed false cw.

(** [pwrseq-monitor/src/gpio_monitor_client.cpp:365-386 onInterfacesAdded] *)
Definition onInterfacesAdded (path : string) (ifaces : InterfaceMap)
    (cw : Client * W) : Client * W :=
  match ifaces !! kLineIface with
  | None => cw
  | Some props => applyLineProps path props false cw
  end.

(** [pwrseq-monitor/src/gpio_monitor_client.cpp:388-410 onInterfacesRemoved] *)
Definition onInterfacesRemoved (path : string) (ifaces : list string)
    (cw : Client * W) : Client * W :=
  let '(c, w) := cw in
  if bool_decide (kLineIface ∈ ifaces)
  then ({| c with gc_byPath := delete path (gc_byPath c) |}, w) else (c, w).

(** [pwrseq-monitor/src/gpio_monitor_client.cpp:412-445 onNameOwnerChanged] *)
Definition onNameOwnerChanged (name oldOwner newOwner : string) (cw : Client * W) : Client * W :=
  let '(c, w) := cw in
  if decide (name ≠ kGpioService) then (c, w) else
  if decide (newOwner = "") then
    (applyMachine ServiceDeparted {| c with gc_slot := false |}, w)
  else if decide (oldOwner = "") then (applyMachine ServiceAppeared c, w)
  else (c, w).

(** [pwrseq-monitor/src/gpio_monitor_client.cpp:494-505 retryTimerCb] *)
Definition retryTimerCb (cw : Client * W) : Client * W :=
  let '(c, w) := cw in (applyMachine RetryTimerFired (cancelRetryTimer c), w).

(** What the bus and the loop deliver. A reply needs its slot, a retry its
    timer. *)
Inductive ClientEvent :=
| EvPropertiesChanged (path iface : string) (changed : PropertyMap)
| EvInterfacesAdded (path : string) (ifaces : InterfaceMap)
| EvInterfacesRemoved (path : string) (ifaces : list string)
| EvNameOwnerChanged (name oldOwner newOwner : string)
| EvReply (reply : SnapshotReply)
| EvRetry.

Definition client_step (ev : ClientEvent) (cw : Client * W) : Client * W :=
  match ev with
  | EvPropertiesChanged path iface changed => onPropertiesChanged path iface changed cw
  | EvInterfacesAdded path ifaces => onInterfacesAdded path ifaces cw
  | EvInterfacesRemoved path ifaces => onInterfacesRemoved path ifaces cw
  | EvNameOwnerChanged name old new => onNameOwnerChanged name old new cw
  | EvReply reply => if gc_slot cw.1 then onSnapshotReply reply cw else cw
  | EvRetry => if gc_retry cw.1 then retryTimerCb cw else cw
  end.
End Client.

(** ** The machine and the bus agree *)

Section Machine.
Context `{BusEnv}.
Implicit Types (c : Client).

(** A call is in flight exactly when its slot is held; a timer waits only
    before a retry; the attempts are bounded. *)
Record client_ok c : Prop := {
  ok_slot : gc_slot c = true ↔ sm_phase (gc_machine c) = SP_InFlight;
  ok_retry : gc_retry c = true → sm_phase (gc_machine c) = SP_RetryWait;
  ok_attempts : 0 ≤ sm_attempts (gc_machine c) ≤ kDefaultMaxAttempts;
  ok_max : sm_maxAttempts (gc_machine c) = kDefaultMaxAttempts;
  ok_wait : sm_phase (gc_machine c) = SP_RetryWait →
    sm_attempts (gc_machine c) < kDefaultMaxAttempts;
}.

Lemma failure_no_call ev m :
  ev = CallFailedMissing ∨ ev = CallFailedTransient → sa_dispatchCall (onEvent ev m).2 = false.
Proof. intros [->| ->]; cbn; [done|]. by case_match. Qed.

(** A call may be made when none is in flight and attempts are left. *)
Definition may_call c : Prop :=
  gc_slot c = false ∧ gc_retry c = false ∧ sm_phase (gc_machine c) ≠ SP_InFlight ∧
  0 ≤ sm_attempts (gc_machine c) < kDefaultMaxAttempts ∧
  sm_maxAttempts (gc_machine c) = kDefaultMaxAttempts.

(** After a failed call, with its slot given back. *)
Lemma failed_ok dispatch ev c :
  ev = CallFailedMissing ∨ ev = CallFailedTransient →
  gc_slot c = false → 0 ≤ sm_attempts (gc_machine c) ≤ kDefaultMaxAttempts →
  sm_maxAttempts (gc_machine c) = kDefaultMaxAttempts →
  client_ok (applyMachine_ dispatch ev c).
Proof.
  intros Hev Hs Ha Hm. unfold applyMachine_. pose proof (failure_no_call ev (gc_machine c) Hev) as Hd.
  destruct Hev as [->| ->]; cbn in Hd |- *.
  - by split; cbn; rewrite ?Hs.
  - rewrite Hm in Hd |- *. destruct (Z.leb_spec kDefaultMaxAttempts (sm_attempts (gc_machine c))).
    + split; cbn; rewrite ?Hs; try done; destruct (sm_everReady _); done.
    + unfold armRetryTimer. destruct be_loop, be_now, be_addTime; split; cbn; rewrite ?Hs; done || lia.
Qed.

Lemma dispatch_ok c : may_call c → client_ok (dispatchSnapshotCall c).
Proof.
  intros (Hs & Hr & Hp & Ha & Hm). unfold dispatchSnapshotCall.
  destruct be_call as [|[name|]|]; [|destruct (isServiceMissingError name)|..];
    try (apply failed_ok; auto; lia).
  split; cbn; rewrite ?Hr; try done.
  unfold kDefaultMaxAttempts in *. rewrite Z.mod_small by lia. lia.
Qed.

Lemma start_ok lines : client_ok (Client_start lines).
Proof. unfold Client_start, applyMachine, applyMachine_. cbn. by apply dispatch_ok. Qed.

Lemma appeared_ok c : client_ok c → client_ok (applyMachine ServiceAppeared c).
Proof.
  intros [Hs Hr Ha Hm Hw]. unfold applyMachine, applyMachine_. cbn.
  destruct (sm_phase (gc_machine c)) eqn:Hp; cbn.
  2: { split; cbn; rewrite ?Hp; try done; unfold kDefaultMaxAttempts; lia. }
  all: apply dispatch_ok; unfold may_call; cbn; rewrite ?Hp; split_and!; try done;
    try (destruct (gc_slot c); [by destruct Hs as [Hs _]; specialize (Hs eq_refl)|done]);
    try (destruct (gc_retry c); [by specialize (Hr eq_refl)|done]).
Qed.

Lemma departed_ok c : client_ok c → client_ok (applyMachine ServiceDeparted {| c with gc_slot := false |}).
Proof. intros [Hs Hr Ha Hm Hw]. by split. Qed.

Lemma succeeded_ok c :
  gc_slot c = false → sm_maxAttempts (gc_machine c) = kDefaultMaxAttempts →
  client_ok (applyMachine CallSucceeded c).
Proof. intros Hs Hm. by split; cbn; rewrite ?Hs. Qed.

Lemma retried_ok c :
  client_ok c → gc_retry c = true → client_ok (applyMachine RetryTimerFired (cancelRetryTimer c)).
Proof.
  intros [Hs Hr Ha Hm Hw] Ht. specialize (Hr Ht). unfold applyMachine, applyMachine_. cbn.
  rewrite bool_decide_true by done. cbn. apply dispatch_ok. unfold may_call; cbn.
  rewrite Hr in *. split_and!; try done; [|lia|by apply Hw].
  destruct (gc_slot c); [|done]. by destruct Hs as [Hs _]; specialize (Hs eq_refl).
Qed.

Lemma same_machine_ok c c' :
  gc_machine c' = gc_machine c → gc_slot c' = gc_slot c → gc_retry c' = gc_retry c →
  client_ok c → client_ok c'.
Proof. intros H1 H2 H3 [? ? ? ? ?]. by split; rewrite ?H1, ?H2, ?H3. Qed.

Context {W : Type} (inject : string → string → bool → W → W).

(** An update of a line changes the cache alone. *)
Lemma lineProps_frame path props snap c w :
  ∃ cache, (applyLineProps inject path props snap (c, w)).1 =
    {| c with gc_byPath := <[path := cache]> (gc_byPath c) |}.
Proof.
  unfold applyLineProps. destruct (if snap then _ else _) as [cache d]. by exists cache.
Qed.

Lemma rows_frame tree c w :
  ∃ m, (foldl (applySnapshotRow inject) (c, w) tree).1 = {| c with gc_byPath := m |}.
Proof.
  revert c w. induction tree as [|row tree IH]; intros c w; cbn.
  { exists (gc_byPath c). by destruct c. }
  unfold applySnapshotRow at 2. destruct (row.2 !! kLineIface) as [props|]; [|apply IH].
  destruct (lineProps_frame row.1 props true c w) as [cache Hc].
  destruct (applyLineProps inject row.1 props true (c, w)) as [c1 w1]. cbn in Hc. subst c1.
  destruct (IH {| c with gc_byPath := <[row.1 := cache]> (gc_byPath c) |} w1) as [m Hm]. by exists m.
Qed.

Lemma client_step_ok ev cw : client_ok cw.1 → client_ok (client_step inject ev cw).1.
Proof.
  destruct cw as [c w]. intros Hok. cbn [fst] in Hok.
  destruct ev as [path iface changed|path ifaces|path ifaces|name old new|reply|]; cbn [client_step].
  - unfold onPropertiesChanged. case_decide; [done|].
    destruct (lineProps_frame path changed false c w) as [cache ->]. by apply (same_machine_ok c).
  - unfold onInterfacesAdded. destruct (ifaces !! kLineIface) as [props|]; [|done].
    destruct (lineProps_frame path props false c w) as [cache ->]. by apply (same_machine_ok c).
  - cbn. case_match; [by apply (same_machine_ok c)|done].
  - cbn. case_decide; [done|]. case_decide; [by apply departed_ok|].
    case_decide; [by apply appeared_ok|done].
  - cbn [fst]. destruct (gc_slot c) eqn:Hs; [|done]. destruct Hok as [Hsl Hr Ha Hm Hw].
    unfold onSnapshotReply. destruct reply as [name| |tree].
    + destruct (isServiceMissingError name); apply failed_ok; auto.
    + apply failed_ok; auto.
    + destruct (rows_frame tree {| c with gc_slot := false |} w) as [m Hrows].
      destruct (foldl _ _ tree) as [c1 w1]. cbn in Hrows. subst c1. by apply succeeded_ok.
  - cbn [fst]. destruct (gc_retry c) eqn:Hr; [|done]. by apply retried_ok.
Qed.
End Machine.

(** ** Runs *)

(** The injections made, newest first, with the path each was made for. *)
Abbreviation Trace := (list (string * (string * bool))).

Definition trace_inject (path line : string) (level : bool) (w : Trace) : Trace :=
  (path, (line, level)) :: w.

Fixpoint last_injection (path : string) (w : Trace) : option (string * bool) :=
  match w with
  | [] => None
  | (p, x) :: w => if decide (p = path) then Some x else last_injection path w
  end.

Definition trace_step (cw : Client * Trace) (e : BusEnv * ClientEvent) : Client * Trace :=
  @client_step e.1 Trace trace_inject e.2 cw.

Definition client_run (interesting : gset string) (E : BusEnv) (evs : list (BusEnv * ClientEvent))
    : Client * Trace :=
  run trace_step (@Client_start E interesting, []) evs.

(** The snapshot machine, the call slot and the retry timer agree after any
    sequence of events, whatever the bus answers: a call is in flight exactly
    when its slot is held, so at most one is outstanding and its reply is never
    awaited in vain; a retry timer runs only while the machine waits to retry,
    with attempts left; the attempts never exceed their bound. *)
Theorem client_invariant lines E evs :
  let c := (client_run lines E evs).1 in
  (gc_slot c = true ↔ sm_phase (gc_machine c) = SP_InFlight) ∧
  (gc_retry c = true → sm_phase (gc_machine c) = SP_RetryWait) ∧
  0 ≤ sm_attempts (gc_machine c) ≤ kDefaultMaxAttempts ∧
  (sm_phase (gc_machine c) = SP_RetryWait → sm_attempts (gc_machine c) < kDefaultMaxAttempts).
Proof.
  cbn zeta. assert (client_ok (client_run lines E evs).1) as [? ? ? ? ?]; [|done].
  apply (run_invariant trace_step (λ cw, client_ok cw.1) (λ _, True)).
  - apply start_ok.
  - by apply Forall_true.
  - intros cw [E' ev] Hok _. by apply client_step_ok.
Qed.

(** ** What is injected *)

Section Synced.
Context (name_of : string → string).

(** An update that names its object, and a change that may leave it out. *)
Definition announces (path : string) (props : PropertyMap) : Prop :=
  name_of path ≠ "" ∧ lookupString props "LineName" = Some (name_of path).
Definition consistent (path : string) (props : PropertyMap) : Prop :=
  lookupString props "LineName" = None ∨ announces path props.

(** Objects are announced with their name, and change after they are known. *)
Definition named_event (c : Client) (ev : ClientEvent) : Prop :=
  match ev with
  | EvPropertiesChanged path iface changed => iface = kLineIface →
      consistent path changed ∧ (is_Some (gc_byPath c !! path) ∨ announces path changed)
  | EvInterfacesAdded path ifaces => ∀ props, ifaces !! kLineIface = Some props → announces path props
  | EvReply (ReplyTree tree) => Forall (λ row : string * InterfaceMap,
      ∀ props, row.2 !! kLineIface = Some props → announces row.1 props) tree
  | _ => True
  end.

Fixpoint named_run (cw : Client * Trace) (evs : list (BusEnv * ClientEvent)) : Prop :=
  match evs with
  | [] => True
  | e :: evs => named_event cw.1 e.2 ∧ named_run (trace_step cw e) evs
  end.

(** Every cached object has its name, and the last level injected for it is
    the one the cache calls for. *)
Definition synced (cw : Client * Trace) : Prop :=
  ∀ path cache, gc_byPath cw.1 !! path = Some cache →
    cl_lineName cache = name_of path ∧
    ∀ x, decideInject cache (gc_interesting cw.1) = Some x → last_injection path cw.2 = Some x.

Lemma synced_weaken c c' w :
  gc_byPath c' ⊆ gc_byPath c → gc_interesting c' = gc_interesting c → synced (c, w) → synced (c', w).
Proof.
  intros Hsub Hint Hs path cache Hp. cbn in Hp |- *. rewrite Hint. apply (Hs path cache).
  by eapply lookup_weaken.
Qed.

(** The name an update leaves. *)
Lemma update_name cache path props lines :
  consistent path props → cl_lineName cache = name_of path ∨ announces path props →
  cl_lineName (applyPropertyUpdate cache (line_update props) lines).1 = name_of path.
Proof.
  unfold applyPropertyUpdate, line_update. cbn [lu_lineName lu_bound lu_value fst].
  intros Hc Hn. set (cache1 := match lookupString props "LineName" with Some _ => _ | None => _ end).
  assert (cl_lineName cache1 = name_of path) as <-.
  { unfold cache1. destruct Hc as [Hnone|[Hne Hsome]].
    - rewrite Hnone. destruct Hn as [|[_ Hs]]; [done|congruence].
    - rewrite Hsome. by rewrite decide_False. }
  by destruct (lookupBool props "Bound"), (lookupBool props "Value").
Qed.

(** An update keeps the object of its path in step; [snap] updates are
    suppressed only when nothing changed. *)
Lemma lineProps_synced path props (snap : bool) c w :
  synced (c, w) → consistent path props →
  is_Some (gc_byPath c !! path) ∨ announces path props →
  synced (applyLineProps trace_inject path props snap (c, w)).
Proof.
  intros Hs Hcons Hknown. unfold applyLineProps.
  set (cache := default CachedLine_empty (gc_byPath c !! path)).
  set (u := line_update props). set (cache' := (applyPropertyUpdate cache u (gc_interesting c)).1).
  assert (cl_lineName cache' = name_of path) as Hname.
  { apply update_name; [done|]. destruct Hknown as [[c0 Hc0]|]; [left|by right].
    unfold cache. rewrite Hc0. cbn. by apply (Hs path). }
  assert (∀ d, (∀ x, decideInject cache' (gc_interesting c) = Some x →
      d = Some x ∨ d = None ∧ last_injection path w = Some x) →
    (d = None ∨ ∃ x, d = Some x ∧ decideInject cache' (gc_interesting c) = Some x) →
    synced ({| c with gc_byPath := <[path := cache']> (gc_byPath c) |},
            handleDecision trace_inject path d w)) as Hset.
  { intros d Hd _ path0 cache0. cbn. rewrite lookup_insert_Some.
    intros [[<- <-]|[Hne Hp]].
    - split; [done|]. intros x Hx. destruct (Hd x Hx) as [->|[-> Hl]]; [|done].
      destruct x. cbn. by rewrite decide_True.
    - destruct (Hs path0 cache0 Hp) as [Hn0 Hl0]. split; [done|]. intros x Hx.
      specialize (Hl0 x Hx). cbn in Hl0. destruct d as [[line level]|]; [|done].
      cbn. by rewrite decide_False. }
  assert (synced ({| c with gc_byPath := <[path := cache']> (gc_byPath c) |},
    handleDecision trace_inject path (decideInject cache' (gc_interesting c)) w)) as Hplain.
  { apply Hset; [auto|]. destruct (decideInject cache' _); [right; by eexists|by left]. }
  destruct snap; [|exact Hplain].
  unfold applySnapshotUpdate. change (applyPropertyUpdate cache u (gc_interesting c))
    with (cache', decideInject cache' (gc_interesting c)).
  destruct (decideInject cache' (gc_interesting c)) as [[n v]|] eqn:Hd; [|exact Hplain].
  destruct (cl_hasValue cache && cl_bound cache && cl_bound cache' &&
    eqb (cl_value cache) (cl_value cache')) eqn:Hsame; [|exact Hplain].
  apply Hset; [|by left]. intros x [= <-]. right. split; [done|].
  apply andb_true_iff in Hsame as [Hsame Hv%eqb_prop]. bool_to_prop.
  apply decideInject_some in Hd as (_ & _ & Hne & Hin & Hnm & Hvv).
  unfold cache in *. destruct (gc_byPath c !! path) as [c0|] eqn:Hc0; [|done]. cbn in *.
  destruct (Hs path c0 Hc0) as [Hn0 Hl0]. cbn in Hl0. apply Hl0. apply decideInject_some.
  split_and!; congruence.
Qed.

(** The machine clears the cache or leaves it. *)
Lemma applyMachine_synced `{BusEnv} ev c w : synced (c, w) → synced (applyMachine ev c, w).
Proof.
  assert (∀ dispatch, (∀ c w, synced (c, w) → synced (dispatch c, w)) →
    ∀ ev c w, synced (c, w) → synced (applyMachine_ dispatch ev c, w)) as Hgen.
  { clear. intros dispatch Hd ev c w Hs. unfold applyMachine_.
    destruct (onEvent ev (gc_machine c)) as [m a].
    set (c1 := {| c with gc_machine := m |}).
    set (c2 := if sa_clearPathMap a then {| c1 with gc_byPath := ∅ |} else c1).
    set (c3 := if sa_cancelRetryTimer a then cancelRetryTimer c2 else c2).
    assert (synced (c2, w)) as H2.
    { unfold c2. apply (synced_weaken c); [|by destruct (sa_clearPathMap a)|done].
      destruct (sa_clearPathMap a); [apply map_empty_subseteq|done]. }
    assert (synced (c3, w)) as H3.
    { apply (synced_weaken c2); unfold c3; by destruct (sa_cancelRetryTimer a). }
    assert (synced (if sa_armRetryTimer a then armRetryTimer c3 else c3, w)) as H4.
    { apply (synced_weaken c3); unfold armRetryTimer;
        by destruct (sa_armRetryTimer a), be_loop, be_now, be_addTime. }
    destruct (sa_dispatchCall a); [by apply Hd|done]. }
  apply Hgen. clear ev c w. intros c w Hs. unfold dispatchSnapshotCall.
  destruct be_call as [|[name|]|]; [by apply (synced_weaken c)| |by apply Hgen..].
  destruct (isServiceMissingError name); by apply Hgen.
Qed.

Lemma client_step_synced `{BusEnv} ev cw :
  synced cw → named_event cw.1 ev → synced (client_step trace_inject ev cw).
Proof.
  destruct cw as [c w]. intros Hs.
  destruct ev as [path iface changed|path ifaces|path ifaces|name old new|reply|];
    cbn [client_step named_event fst]; intros Hn.
  - unfold onPropertiesChanged. case_decide as Hi; [done|].
    destruct (Hn Hi) as [Hc Hk]. by apply lineProps_synced.
  - unfold onInterfacesAdded. destruct (ifaces !! kLineIface) as [props|] eqn:Hp; [|done].
    apply lineProps_synced; [done|right|right]; by apply Hn.
  - cbn. case_match; [|done]. apply (synced_weaken c); [apply delete_subseteq|done..].
  - unfold onNameOwnerChanged. case_decide; [done|]. case_decide; [|case_decide; [|done]]; apply applyMachine_synced;
      by apply (synced_weaken c).
  - destruct (gc_slot c); [|done].
    assert (synced ({| c with gc_slot := false |}, w)) as Hs' by by apply (synced_weaken c).
    revert Hs'. unfold onSnapshotReply. generalize ({| c with gc_slot := false |}) as c0.
    intros c0 Hs0. destruct reply as [name| |tree].
    + destruct (isServiceMissingError name); by apply applyMachine_synced.
    + by apply applyMachine_synced.
    + assert (synced (foldl (applySnapshotRow trace_inject) (c0, w) tree)) as Hrows.
      { clear -Hn Hs0. revert c0 w Hs0. induction Hn as [|row tree Hrow _ IH]; intros c0 w Hs0; [done|].
        cbn. unfold applySnapshotRow at 2. destruct (row.2 !! kLineIface) as [props|]; [|by apply IH].
        pose proof (lineProps_synced row.1 props true c0 w Hs0) as Hx.
        destruct (applyLineProps trace_inject row.1 props true (c0, w)) as [c1 w1].
        apply IH, Hx; right; by apply Hrow. }
      destruct (foldl _ _ tree) as [c1 w1]. by apply applyMachine_synced.
  - destruct (gc_retry c); [|done]. apply applyMachine_synced. by apply (synced_weaken c).
Qed.

Lemma named_run_synced cw evs : synced cw → named_run cw evs → synced (run trace_step cw evs).
Proof.
  revert cw. induction evs as [|[E ev] evs IH]; intros cw Hs; [done|]. cbn.
  intros [Hn Hr]. apply IH; [|done]. by apply client_step_synced.
Qed.

(** ** What is heard of an object

    From the messages alone: nothing as long as the object is not known or once it is
    gone, with its interface or with the service; otherwise the last value each of its
    two flags was given, in a signal or in a snapshot that was asked for. *)
Definition Heard : Type := option (option bool * option bool).

Definition said (props : PropertyMap) (key : string) (old : option bool) : option bool :=
  match props !! key with Some (PropBool b) => Some b | _ => old end.

Definition hear_props (props : PropertyMap) (h : Heard) : Heard :=
  let '(bound, value) := default (None, None) h in Some (said props "Bound" bound, said props "Value" value).

Definition hear_row (path : string) (h : Heard) (row : string * InterfaceMap) : Heard :=
  if decide (row.1 = path)
  then match row.2 !! "xyz.openbmc_project.Gpio.Monitor.Line" with Some props => hear_props props h | None => h end
  else h.

Definition hear (path : string) (awaited : bool) (ev : ClientEvent) (h : Heard) : Heard :=
  match ev with
  | EvPropertiesChanged path' iface changed =>
      if decide (iface = "xyz.openbmc_project.Gpio.Monitor.Line") then hear_row path h (path', {[ iface := changed ]}) else h
  | EvInterfacesAdded path' ifaces => hear_row path h (path', ifaces)
  | EvInterfacesRemoved path' ifaces =>
      if decide (path' = path) then
        if decide ("xyz.openbmc_project.Gpio.Monitor.Line" ∈ ifaces) then None else h
      else h
  | EvNameOwnerChanged name _ newOwner =>
      if decide (name = "xyz.openbmc_project.Gpio.Monitor" ∧ newOwner = "") then None else h
  | EvReply (ReplyTree tree) => if awaited then foldl (hear_row path) h tree else h
  | _ => h
  end.

(** What has been heard of [path] along a run; a snapshot is delivered if its call is in
    flight. *)
Fixpoint told (path : string) (cw : Client * Trace) (evs : list (BusEnv * ClientEvent)) (h : Heard) : Heard :=
  match evs with
  | [] => h
  | e :: evs => told path (trace_step cw e) evs (hear path (gc_slot cw.1) e.2 h)
  end.

(** The cache of a path holds what was heard of it. *)
Definition holds (h : Heard) (cache : option CachedLine) : Prop :=
  match h, cache with
  | None, None => True
  | Some (bound, value), Some cache =>
      cl_bound cache = default false bound ∧ cl_hasValue cache = bool_decide (is_Some value) ∧
      ∀ v, value = Some v → cl_value cache = v
  | _, _ => False
  end.

Lemma update_holds h c path props lines :
  holds h (gc_byPath c !! path) →
  holds (hear_props props h)
    (Some (applyPropertyUpdate (default CachedLine_empty (gc_byPath c !! path)) (line_update props) lines).1).
Proof.
  intros Hh. unfold hear_props, applyPropertyUpdate, line_update, lookupBool, said. cbn [lu_lineName lu_bound lu_value fst].
  set (c0 := default CachedLine_empty (gc_byPath c !! path)).
  assert (H0 : holds (Some (default (None, None) h)) (Some c0)).
  { unfold c0. destruct h as [[b v]|], (gc_byPath c !! path) as [cache|]; try done. }
  destruct (default (None, None) h) as [b v].
  set (c1 := match lookupString props "LineName" with Some _ => _ | None => _ end).
  assert (H1 : holds (Some (b, v)) (Some c1)).
  { unfold c1. destruct (lookupString props "LineName"); [|done]. by case_decide. }
  destruct H1 as (Hb & Hv & Hx).
  destruct (props !! "Bound") as [[]|], (props !! "Value") as [[]|]; cbn; split_and!; try done; naive_solver.
Qed.

Lemma lineProps_holds path path' props (snap : bool) c w h :
  holds h (gc_byPath c !! path) →
  holds (if decide (path' = path) then hear_props props h else h)
    (gc_byPath (applyLineProps trace_inject path' props snap (c, w)).1 !! path).
Proof.
  intros Hh. unfold applyLineProps. set (cache := default CachedLine_empty (gc_byPath c !! path')).
  assert (Hc : (if snap then applySnapshotUpdate cache (line_update props) (gc_interesting c)
                else applyPropertyUpdate cache (line_update props) (gc_interesting c)).1 =
               (applyPropertyUpdate cache (line_update props) (gc_interesting c)).1).
  { destruct snap; [apply applySnapshotUpdate_cache|done]. }
  destruct (if snap then _ else _) as [cache' d]. cbn [fst] in Hc. subst cache'. cbn [fst gc_byPath].
  case_decide as Hp.
  - subst path'. rewrite lookup_insert_eq. by apply update_holds.
  - by rewrite lookup_insert_ne.
Qed.

(** Only the departure of the service clears the cache. *)
Lemma applyMachine_byPath `{BusEnv} ev c :
  gc_byPath (applyMachine ev c) = match ev with ServiceDeparted => ∅ | _ => gc_byPath c end ∧
  gc_interesting (applyMachine ev c) = gc_interesting c.
Proof.
  assert (Hr : ∀ c, gc_byPath (armRetryTimer c) = gc_byPath c ∧ gc_interesting (armRetryTimer c) = gc_interesting c).
  { intros c0. unfold armRetryTimer. by destruct be_loop, be_now, be_addTime. }
  assert (Hgen : ∀ dispatch, (∀ c, gc_byPath (dispatch c) = gc_byPath c ∧ gc_interesting (dispatch c) = gc_interesting c) →
    ∀ ev c, gc_byPath (applyMachine_ dispatch ev c) = (match ev with ServiceDeparted => ∅ | _ => gc_byPath c end) ∧
            gc_interesting (applyMachine_ dispatch ev c) = gc_interesting c).
  { clear ev c. intros dispatch Hd ev c. unfold applyMachine_.
    assert (Hcl : sa_clearPathMap (onEvent ev (gc_machine c)).2 = match ev with ServiceDeparted => true | _ => false end).
    { destruct ev; cbn; try done. by case_match. }
    destruct (onEvent ev (gc_machine c)) as [m a]. cbn [snd] in Hcl. rewrite Hcl.
    destruct (sa_cancelRetryTimer a), (sa_armRetryTimer a), (sa_dispatchCall a), ev;
      cbn; rewrite ?(proj1 (Hd _)), ?(proj2 (Hd _)), ?(proj1 (Hr _)), ?(proj2 (Hr _)); done. }
  apply Hgen. clear ev c. intros c. unfold dispatchSnapshotCall.
  destruct be_call as [|[name|]|]; [done|destruct (isServiceMissingError name)|..];
    by destruct (Hgen id (λ c, conj eq_refl eq_refl) CallFailedTransient c),
      (Hgen id (λ c, conj eq_refl eq_refl) CallFailedMissing c).
Qed.

Lemma rows_holds path tree c w h :
  holds h (gc_byPath c !! path) →
  holds (foldl (hear_row path) h tree) (gc_byPath (foldl (applySnapshotRow trace_inject) (c, w) tree).1 !! path) ∧
  gc_interesting (foldl (applySnapshotRow trace_inject) (c, w) tree).1 = gc_interesting c.
Proof.
  revert c w h. induction tree as [|row tree IH]; intros c w h Hh; [done|]. cbn [foldl].
  unfold applySnapshotRow at 2 4, hear_row at 2. change kLineIface with "xyz.openbmc_project.Gpio.Monitor.Line"%string.
  destruct (row.2 !! _) as [props|].
  - pose proof (lineProps_holds path row.1 props true c w h Hh) as H1.
    destruct (lineProps_frame trace_inject row.1 props true c w) as [cache Hc].
    destruct (applyLineProps trace_inject row.1 props true (c, w)) as [c1 w1]. cbn [fst] in *. subst c1.
    destruct (IH _ w1 _ H1) as [Ha Hb]. by split.
  - replace (if decide (row.1 = path) then h else h) with h by by case_decide. by apply IH.
Qed.

(** A step of the client leaves what it holds in step with what is heard. *)
Lemma client_step_holds `{BusEnv} path ev cw h :
  holds h (gc_byPath cw.1 !! path) →
  holds (hear path (gc_slot cw.1) ev h) (gc_byPath (client_step trace_inject ev cw).1 !! path) ∧
  gc_interesting (client_step trace_inject ev cw).1 = gc_interesting cw.1.
Proof.
  destruct cw as [c w]. cbn [fst]. intros Hh.
  destruct ev as [path' iface changed|path' ifaces|path' ifaces|name old new|reply|]; cbn [client_step hear].
  - unfold onPropertiesChanged. change kLineIface with "xyz.openbmc_project.Gpio.Monitor.Line"%string.
    destruct (decide (iface = _)) as [->|Hi].
    + rewrite decide_False by auto. unfold hear_row. cbn [fst snd]. rewrite lookup_singleton_eq.
      split; [by apply lineProps_holds|]. by destruct (lineProps_frame trace_inject path' changed false c w) as [cache ->].
    + by rewrite decide_True.
  - unfold onInterfacesAdded, hear_row. cbn [fst snd]. change kLineIface with "xyz.openbmc_project.Gpio.Monitor.Line"%string.
    destruct (ifaces !! _) as [props|]; [|by case_decide].
    split; [by apply lineProps_holds|]. by destruct (lineProps_frame trace_inject path' props false c w) as [cache ->].
  - cbn. change kLineIface with "xyz.openbmc_project.Gpio.Monitor.Line"%string.
    destruct (decide ("xyz.openbmc_project.Gpio.Monitor.Line"%string ∈ ifaces)) as [Hin|Hin].
    + rewrite bool_decide_true by done. cbn. split; [|done]. case_decide as Hp.
      * subst. by rewrite lookup_delete_eq.
      * by rewrite lookup_delete_ne.
    + rewrite bool_decide_false by done. split; [|done]. by case_decide.
  - unfold onNameOwnerChanged. change kGpioService with "xyz.openbmc_project.Gpio.Monitor"%string.
    destruct (decide (name = "xyz.openbmc_project.Gpio.Monitor"%string ∧ new = ""%string)) as [[-> ->]|Hn].
    + case_decide as Hx; [by destruct Hx|]. rewrite decide_True by done. cbn [fst].
      destruct (applyMachine_byPath ServiceDeparted {| c with gc_slot := false |}) as [-> ->]. by rewrite lookup_empty.
    + case_decide as Hx; [done|]. rewrite decide_False by auto. case_decide; [|done]. cbn [fst].
      by destruct (applyMachine_byPath ServiceAppeared c) as [-> ->].
  - cbn [fst]. destruct (gc_slot c); [|by destruct reply]. unfold onSnapshotReply. destruct reply as [name| |tree].
    + destruct (isServiceMissingError name); cbn [fst];
        [destruct (applyMachine_byPath CallFailedMissing {| c with gc_slot := false |}) as [-> ->]
        |destruct (applyMachine_byPath CallFailedTransient {| c with gc_slot := false |}) as [-> ->]]; done.
    + cbn [fst]. by destruct (applyMachine_byPath CallFailedTransient {| c with gc_slot := false |}) as [-> ->].
    + destruct (rows_holds path tree {| c with gc_slot := false |} w h Hh) as [Hr Hi].
      destruct (foldl (applySnapshotRow trace_inject) _ tree) as [c1 w1]. cbn [fst] in *. by destruct (applyMachine_byPath CallSucceeded c1) as [-> ->].
  - cbn [fst]. destruct (gc_retry c); [|done]. cbn [retryTimerCb fst].
    by destruct (applyMachine_byPath RetryTimerFired (cancelRetryTimer c)) as [-> ->].
Qed.

Lemma run_holds path evs cw h :
  holds h (gc_byPath cw.1 !! path) →
  holds (told path cw evs h) (gc_byPath (run trace_step cw evs).1 !! path) ∧
  gc_interesting (run trace_step cw evs).1 = gc_interesting cw.1.
Proof.
  revert cw h. induction evs as [|[E ev] evs IH]; intros cw h Hh; [done|]. cbn [told run].
  destruct (client_step_holds path ev cw h Hh) as [H1 Hi1]. destruct (IH (trace_step cw (E, ev)) _ H1) as [H2 Hi2].
  split; [exact H2|]. etrans; [exact Hi2|exact Hi1].
Qed.

(** C8: Nothing is lost or stale: as long as objects are announced with their name
    before they change, then after any sequence of signals, snapshots, retries
    and restarts of the service, the level of every line of interest that was last
    heard to be bound was injected, and the last level injected for it, under the name
    it was announced with, is the last one that was heard. *)
Theorem injections_in_step lines E evs path v :
  named_run (@Client_start E lines, []) evs →
  told path (@Client_start E lines, []) evs None = Some (Some true, Some v) →
  name_of path ≠ ""%string → name_of path ∈ lines →
  last_injection path (client_run lines E evs).2 = Some (name_of path, v).
Proof.
  intros Hr Ht Hne Hin.
  assert (Hstart : gc_byPath (@Client_start E lines) = ∅ ∧ gc_interesting (@Client_start E lines) = lines).
  { unfold Client_start. by destruct (applyMachine_byPath StartRequested (mkClient lines ∅ SnapshotMachine_init false false)) as [-> ->]. }
  destruct Hstart as [Hby Hint].
  assert (Hs : synced (client_run lines E evs)).
  { apply named_run_synced; [|done]. intros p c Hc. cbn [fst] in Hc. by rewrite Hby in Hc. }
  destruct (run_holds path evs (@Client_start E lines, []) None) as [Hh Hi]; [cbn [fst]; by rewrite Hby|].
  rewrite Ht in Hh. cbn [fst] in Hi. rewrite Hint in Hi.
  change (run trace_step (@Client_start E lines, []) evs) with (client_run lines E evs) in *.
  destruct (gc_byPath (client_run lines E evs).1 !! path) as [cache|] eqn:Hc; [|done]. destruct Hh as (Hb & Hv & Hx).
  destruct (Hs path cache Hc) as [Hn Hl]. apply Hl, decideInject_some. rewrite Hi.
  split_and!; [done|done|done|done|done|by apply Hx].
Qed.
End Synced.

(** ** Examples and limits *)

(** A bus that takes every call, and one that refuses them. *)
Definition bus_up : BusEnv := mkBusEnv CallOk true true true true.
Definition bus_failing : BusEnv := mkBusEnv CallException true true true true.

Definition named_props (bound level : bool) : PropertyMap :=
  {[ "LineName" := PropString "PG0"; "Bound" := PropBool bound; "Value" := PropBool level ]}.
Definition level_props (level : bool) : PropertyMap := {[ "Value" := PropBool level ]}.
Definition snapshot_pg0 : SnapshotReply :=
  ReplyTree [("/gpio/0", {[ kLineIface := named_props true true ]})].

(** The snapshot seeds the line, then two edges follow. *)
Definition pg0_events : list (BusEnv * ClientEvent) :=
  [(bus_up, EvReply snapshot_pg0);
   (bus_up, EvPropertiesChanged "/gpio/0" kLineIface (level_props false));
   (bus_up, EvPropertiesChanged "/gpio/0" kLineIface (level_props true))].

Lemma pg0_named : named_event (λ _, "PG0"%string) (@Client_start bus_up {[ "PG0"%string ]})
  (EvReply snapshot_pg0).
Proof.
  apply Forall_singleton. cbn [fst snd]. intros props Hp.
  rewrite lookup_singleton_eq in Hp. assert (props = named_props true true) as -> by congruence.
  split; [done|]. vm_compute. reflexivity.
Qed.

Example injections_in_step_witness :
  last_injection "/gpio/0" (client_run {[ "PG0" ]} bus_up pg0_events).2 = Some ("PG0"%string, true).
Proof.
  apply (injections_in_step (λ _, "PG0"%string) {[ "PG0"%string ]} bus_up pg0_events "/gpio/0" true).
  - cbn [named_run pg0_events]. split_and!; [| | |exact I].
    + exact pg0_named.
    + intros _. split; [by left|left]. by eexists; vm_compute.
    + intros _. split; [by left|left]. by eexists; vm_compute.
  - vm_compute. reflexivity.
  - done.
  - set_solver.
Defined.

(** The hypothesis is needed: a change that binds an object and gives its level
    before its name is known is cached without an injection; the snapshot then
    brings the name, and is suppressed because the level is the cached one. The
    level of a bound line of interest is never injected until its next edge. *)
Theorem early_change_loses_seed :
  let evs := [(bus_up, EvPropertiesChanged "/gpio/0" kLineIface
                 {[ "Bound" := PropBool true; "Value" := PropBool true ]});
              (bus_up, EvReply snapshot_pg0)] in
  let cw := client_run {[ "PG0" ]} bus_up evs in
  gc_byPath cw.1 !! "/gpio/0" = Some (mkCachedLine "PG0" true true true) ∧
  decideInject (mkCachedLine "PG0" true true true) (gc_interesting cw.1) = Some ("PG0"%string, true) ∧
  sm_phase (gc_machine cw.1) = SP_Ready ∧ cw.2 = [].
Proof. vm_compute. done. Qed.

(** The retries are bounded for calls that fail, not for calls that cannot be
    made: those are not counted as attempts, and are retried for ever. *)
Theorem dispatch_failures_unbounded lines n :
  let c := (client_run lines bus_failing (replicate n (bus_failing, EvRetry))).1 in
  gc_retry c = true ∧ sm_phase (gc_machine c) = SP_RetryWait ∧ sm_attempts (gc_machine c) = 0.
Proof.
  cbn zeta. unfold client_run.
  assert (@Client_start bus_failing lines = mkClient lines ∅
    (mkSnapshotMachine SP_RetryWait 0 30 false false) false true) as -> by done.
  induction n as [|n IH]; [done|]. exact IH.
Qed.
