(* ===== verification/Manager.v ===== *)
(** * The D-Bus manager

    pwrseq-monitor/src/dbus_manager.cpp: the methods clients call on the
    daemon and the queue through which line edges reach the orchestrator; and,
    from main.cpp, the server that puts manager and property client together.

    A method call is known by a number; the replies the manager sends itself
    are recorded with it, those of the orchestrator's callbacks are in
    [o_replies] and become text with [reply_text]. A queued edge holds a
    reference to its line; the drivers hold theirs for the daemon's life, so the
    reference is not counted. *)

From S2P Require Import Prelude Types Hal Lines Drivers Descriptor Orchestrator OrchInit.
From S2P Require Import GpioClient.

(** ** Strings *)

(** [pwrseq-monitor/src/dbus_manager.cpp:32-41 parseKind] *)
Definition Manager_parseKind (s : string) : option ResetKind :=
  if String.eqb s "Warm" then Some Warm else
  if String.eqb s "Cold" then Some Cold else
  if String.eqb s "PowerCycle" then Some PowerCycle else None.

(** [pwrseq-monitor/src/dbus_manager.cpp:43-50 parseElementClass] *)
Definition parseElementClass (s : string) : option Class_ :=
  if String.eqb s "LPU" then Some Lpu else
  if String.eqb s "FPGA" then Some Fpga else None.

(** [pwrseq-monitor/src/dbus_manager.cpp:52-56 validLogDrainReason] *)
Definition validLogDrainReason (reason : string) : bool :=
  String.eqb reason "gpio0" || String.eqb reason "pmbus-alert"
  || String.eqb reason "thermal-warn" || String.eqb reason "thermal-overt".

(** [pwrseq-monitor/src/dbus_manager.cpp:58-76 outcomeToString] *)
Definition outcomeToString (o : ResetOutcome) : string :=
  match o with
  | RO_Ok => "Ok"
  | RO_Timeout => "Timeout"
  | RO_NotPresent => "NotPresent"
  | RO_Busy => "Busy"
  | RO_NotSupported => "NotSupported"
  | RO_PulseFailed => "PulseFailed"
  end.

(** ** Data *)

(** [pwrseq-monitor/src/dbus_manager.cpp:100-140 PendingReply] A string, or a
    dictionary. *)
Inductive BusReply := ReplyString (s : string) | ReplyDict (kvs : list (string * string)).

(** [pwrseq-monitor/src/dbus_manager.cpp:437-452 dispatchResetAll] What the
    callbacks registered with the orchestrator send. *)
Definition reply_text (r : Reply) : nat * BusReply :=
  match r with
  | ResetReply req out => (req, ReplyString (outcomeToString out))
  | ResetAllReply req outcomes =>
      (req, ReplyDict (map (λ e, (e.1, outcomeToString e.2)) outcomes))
  end.

(** [pwrseq-monitor/include/dbus_manager.hpp:124-157 DBusManager] The drain
    source exists or not, and is armed or not. *)
Record Manager := mkManager {
  mg_orch : DaemonState;
  mg_queue : list (nat * bool);
  mg_drain : option bool;
  mg_sent : list (nat * BusReply);
}.

Definition Manager_make (o : DaemonState) : Manager := mkManager o [] None [].

Definition send (req : nat) (r : BusReply) (m : Manager) : Manager :=
  {| m with mg_sent := mg_sent m ++ [(req, r)] |}.

Section Manager.
Context `{Env, BusEnv}.
Implicit Types (m : Manager).

(** ** Edges *)

(** The edges of a list delivered in order. *)
Definition deliver (edges : list (nat * bool)) (o : DaemonState) : DaemonState :=
  foldl (λ o e, notifyExternal e.1 e.2 o) o edges.

(** The queue moved out and delivered. *)
Definition flush m : Manager :=
  {| m with mg_orch := deliver (mg_queue m) (mg_orch m); mg_queue := [] |}.

(** [pwrseq-monitor/src/dbus_manager.cpp:250-318 DBusManager::scheduleDrain_]
    Without a loop or a source the edges are delivered at once. *)
Definition scheduleDrain_ m : Manager :=
  match mg_drain m with
  | Some _ => {| m with mg_drain := Some true |}
  | None =>
      if negb be_loop then flush m else
      if negb be_addDefer then flush m else {| m with mg_drain := Some true |}
  end.

(** [pwrseq-monitor/src/dbus_manager.cpp:223-228 DBusManager::enqueueNotify_] *)
Definition enqueueNotify_ (line : nat) (asserted : bool) m : Manager :=
  scheduleDrain_ {| m with mg_queue := mg_queue m ++ [(line, asserted)] |}.

(** [pwrseq-monitor/src/dbus_manager.cpp:230-248 DBusManager::injectLineState] *)
Definition injectLineState (lineName : string) (asserted : bool) m : bool * Manager :=
  match Registry_findByName lineName (o_lines (mg_orch m)) with
  | None => (false, m)
  | Some line => (true, enqueueNotify_ line asserted m)
  end.

(** [pwrseq-monitor/src/dbus_manager.cpp:320-354 DBusManager::drainPendingNotifies_]
    The one-shot source is disabled when it fires. *)
Definition drainPendingNotifies_ m : Manager := flush {| m with mg_drain := Some false |}.

(** ** Methods *)

(** [pwrseq-monitor/src/dbus_manager.cpp:358-400 DBusManager::dispatchReset] *)
Definition dispatchReset (req : nat) (target kindStr : string) m : res string Manager :=
  match Manager_parseKind kindStr with
  | None => Ok (send req (ReplyString "InvalidKind") m)
  | Some k =>
      match instanceByDescriptorId target (mg_orch m) with
      | None => Ok (send req (ReplyString (outcomeToString RO_NotPresent)) m)
      | Some inst =>
          o ← requestResetAsync inst k (ReplyTo req) (mg_orch m);
          Ok {| m with mg_orch := o |}
      end
  end.

(** [pwrseq-monitor/src/dbus_manager.cpp:402-454 DBusManager::dispatchResetAll] *)
Definition dispatchResetAll (req : nat) (elementClass kindStr : string) m : res string Manager :=
  match parseElementClass elementClass with
  | None => Ok (send req (ReplyDict [("_error", ("InvalidElementClass:" +:+ elementClass)%string)]) m)
  | Some c =>
      match Manager_parseKind kindStr with
      | None => Ok (send req (ReplyDict [("_error", ("InvalidKind:" +:+ kindStr)%string)]) m)
      | Some k =>
          o ← requestResetAllSync c k req (mg_orch m);
          Ok {| m with mg_orch := o |}
      end
  end.

(** [pwrseq-monitor/src/dbus_manager.cpp:456-485 DBusManager::dispatchSetVrTelemetryEnabled] *)
Definition dispatchSetVrTelemetryEnabled (req : nat) (target : string) (enabled : bool) m : Manager :=
  let '(result, m) :=
    match instanceByDescriptorId target (mg_orch m) with
    | Some inst =>
        if decide (cls inst = Lpu) then
          let '(r, o) := setVrTelemetryConfigured inst enabled (mg_orch m) in
          (r, {| m with mg_orch := o |})
        else (R_NotPresent, m)
    | None => (R_NotPresent, m)
    end in
  send req (ReplyString (Result_to_string result)) m.

(** [pwrseq-monitor/src/dbus_manager.cpp:487-524 DBusManager::dispatchRequestLogDrain] *)
Definition dispatchRequestLogDrain (req : nat) (target reason : string) m : Manager :=
  if negb (validLogDrainReason reason) then send req (ReplyString "InvalidReason") m else
  match instanceByDescriptorId target (mg_orch m) with
  | None => send req (ReplyString "NotPresent") m
  | Some inst =>
      let '(result, o) := requestLogDrain inst (mg_orch m) in
      send req (ReplyString (Result_to_string result)) {| m with mg_orch := o |}
  end.
End Manager.

(** ** The server *)

(** The property client and the manager it injects into. *)
Record Server := mkServer { sv_client : Client; sv_manager : Manager }.

Inductive MethodCall :=
| CallReset (target kind : string)
| CallResetAll (elementClass kind : string)
| CallVrTelemetry (target : string) (enabled : bool)
| CallLogDrain (target reason : string).

(** What the event loop runs: a method call, an event of the client, the drain
    source, or a timer of the orchestrator. *)
Inductive ServerEvent :=
| SvCall (req : nat) (call : MethodCall)
| SvClient (ev : ClientEvent)
| SvDrain
| SvTimer (source : nat).

Section Server.
Context `{Env, BusEnv}.

Definition dispatch_call (req : nat) (call : MethodCall) (m : Manager) : res string Manager :=
  match call with
  | CallReset target kind => dispatchReset req target kind m
  | CallResetAll elementClass kind => dispatchResetAll req elementClass kind m
  | CallVrTelemetry target enabled => Ok (dispatchSetVrTelemetryEnabled req target enabled m)
  | CallLogDrain target reason => Ok (dispatchRequestLogDrain req target reason m)
  end.

Definition server_step (ev : ServerEvent) (s : Server) : res string Server :=
  match ev with
  | SvCall req call => m ← dispatch_call req call (sv_manager s); Ok {| s with sv_manager := m |}
  | SvClient ev =>
      let '(c, m) := client_step (λ _ line level m, (injectLineState line level m).2) ev
                       (sv_client s, sv_manager s) in
      Ok (mkServer c m)
  | SvDrain =>
      if decide (mg_drain (sv_manager s) = Some true)
      then Ok {| s with sv_manager := drainPendingNotifies_ (sv_manager s) |} else Ok s
  | SvTimer n =>
      Ok {| s with sv_manager := {| (sv_manager s) with mg_orch := fire n (mg_orch (sv_manager s)) |} |}
  end.

(** [pwrseq-monitor/src/main.cpp:175-205 main] The server starts whatever the
    orchestrator's start-up reported. *)
Definition Server_start (desc : PlatformDescriptor) : res string Server :=
  '(_, o) ← initFromDescriptor desc Orch_empty;
  Ok (mkServer (Client_start (inputLines desc)) (Manager_make o)).
End Server.
