(* ===== verification/Hierarchy.v ===== *)
(** * Timers and the hierarchy of state machines inside the orchestrator

    The orchestrator keeps three maps from instance keys to timer sources: the boot
    deadlines, the telemetry retries and the reset deadlines. [timers_ok own m srcs]
    says that a map and the loop agree on the sources whose callback belongs to the
    class [own]: every enabled source of a key is the one the map names (there is no
    orphan that would fire twice), and every entry names an enabled source, except the
    key [x] whose source is firing.

    [children_ok] says that every parent has recorded its children's states, [bus_ok]
    that the status of every reported resource on the bus is the one its FSM state
    calls for; both are kept by every dispatch. *)

From S2P Require Import Prelude Types FsmEngine ElementFsm ModuleFsm TrayFsm Reporting SubscriberList Hal Lines Drivers Orchestrator.

(** * Timer classes of the event loop *)

Section Timers.
Context (own : TimerCallback → option Z).
Implicit Types (m : gmap Z nat) (srcs : gmap nat TimerSource) (x : option Z).

Record timers_ok (x : option Z) m srcs : Prop := {
  to_enabled : ∀ n src key, srcs !! n = Some src → ts_enabled src = true →
    own (ts_callback src) = Some key → m !! key = Some n;
  to_entry : ∀ key n, m !! key = Some n → ∃ src, srcs !! n = Some src ∧
    own (ts_callback src) = Some key ∧ (Some key ≠ x → ts_enabled src = true);
}.

Lemma timers_ok_empty x : timers_ok x ∅ ∅.
Proof. by split. Qed.

(** Adding a source of the class under a key that has none. *)
Lemma timers_ok_add x m srcs n key at_ cb :
  timers_ok x m srcs → srcs !! n = None → m !! key = None → own cb = Some key →
  timers_ok x (<[key := n]> m) (<[n := mkTimerSource at_ true cb]> srcs).
Proof.
  intros [He Hm] Hn Hk Hcb. split.
  - intros n' src key'. rewrite lookup_insert_Some. intros [[<- <-]|[Hne Hs]] Hen Ho.
    + cbn in Ho. rewrite Hcb in Ho. injection Ho as <-. by simplify_map_eq.
    + pose proof (He _ _ _ Hs Hen Ho). rewrite lookup_insert_ne; [done|]. congruence.
  - intros key' n'. rewrite lookup_insert_Some. intros [[<- <-]|[Hne Hk']].
    + exists (mkTimerSource at_ true cb). by simplify_map_eq.
    + destruct (Hm _ _ Hk') as (src & Hs & ? & ?). exists src.
      rewrite lookup_insert_ne; [done|]. congruence.
Qed.

(** Adding a source of another class. *)
Lemma timers_ok_add_other x m srcs n at_ cb :
  timers_ok x m srcs → srcs !! n = None → own cb = None →
  timers_ok x m (<[n := mkTimerSource at_ true cb]> srcs).
Proof.
  intros [He Hm] Hn Hcb. split.
  - intros n' src key'. rewrite lookup_insert_Some. intros [[<- <-]|[Hne Hs]] Hen Ho; [|eauto].
    cbn in Ho. congruence.
  - intros key' n' Hk'. destruct (Hm _ _ Hk') as (src & Hs & ? & ?). exists src.
    rewrite lookup_insert_ne; [done|]. congruence.
Qed.

(** Cancelling: the entry erased and its source unreferenced. *)
Lemma timers_ok_cancel x m srcs n key :
  timers_ok x m srcs → m !! key = Some n → timers_ok x (delete key m) (delete n srcs).
Proof.
  intros [He Hm] Hk. destruct (Hm _ _ Hk) as (src0 & Hs0 & Ho0 & _). split.
  - intros n' src key'. rewrite lookup_delete_Some. intros [Hne Hs] Hen Ho.
    pose proof (He _ _ _ Hs Hen Ho). rewrite lookup_delete_ne; [done|]. congruence.
  - intros key' n'. rewrite lookup_delete_Some. intros [Hne Hk'].
    destruct (Hm _ _ Hk') as (src & Hs & Ho & ?). exists src.
    rewrite lookup_delete_ne; [done|]. intros ->. congruence.
Qed.

(** Unreferencing a source that no entry names. *)
Lemma timers_ok_unref x m srcs n :
  timers_ok x m srcs → (∀ key, m !! key ≠ Some n) → timers_ok x m (delete n srcs).
Proof.
  intros [He Hm] Hn. split.
  - intros n' src key'. rewrite lookup_delete_Some. intros [Hne Hs]. eauto.
  - intros key' n' Hk'. destruct (Hm _ _ Hk') as (src & Hs & Ho & ?). exists src.
    rewrite lookup_delete_ne; [done|]. intros ->. by apply (Hn key').
Qed.

Lemma timers_ok_unref_other x m srcs n src :
  timers_ok x m srcs → srcs !! n = Some src → own (ts_callback src) = None →
  timers_ok x m (delete n srcs).
Proof.
  intros Hok Hs Ho. apply timers_ok_unref; [done|]. intros key Hk.
  destruct Hok as [_ Hm]. destruct (Hm _ _ Hk) as (src' & Hs' & Ho' & _). congruence.
Qed.

(** A source of the class starts to fire. *)
Lemma timers_ok_fire m srcs n src key :
  timers_ok None m srcs → srcs !! n = Some src → ts_enabled src = true →
  own (ts_callback src) = Some key →
  timers_ok (Some key) m (alter (λ s, {| s with ts_enabled := false |}) n srcs).
Proof.
  intros [He Hm] Hs Hen Ho. pose proof (He _ _ _ Hs Hen Ho) as Hk. split.
  - intros n' src' key'. rewrite lookup_alter_Some. intros [(<- & s & ? & ->)|[? ?]]; [done|eauto].
  - intros key' n' Hk'. destruct (Hm _ _ Hk') as (src' & Hs' & Ho' & Hen').
    destruct (decide (n = n')) as [<-|Hne].
    + exists {| src' with ts_enabled := false |}. rewrite lookup_alter, decide_True, Hs' by done.
      split; [done|]. split; [done|]. congruence.
    + exists src'. rewrite lookup_alter_ne by done. split_and!; [done|done|].
      intros _. by apply Hen'.
Qed.

(** A source of another class starts to fire. *)
Lemma timers_ok_fire_other m srcs n src :
  timers_ok None m srcs → srcs !! n = Some src → own (ts_callback src) = None →
  timers_ok None m (alter (λ s, {| s with ts_enabled := false |}) n srcs).
Proof.
  intros [He Hm] Hs Ho. split.
  - intros n' src' key'. rewrite lookup_alter_Some. intros [(<- & s & ? & ->)|[? ?]]; [done|eauto].
  - intros key' n' Hk'. destruct (Hm _ _ Hk') as (src' & Hs' & Ho' & Hen').
    exists src'. rewrite lookup_alter_ne by congruence. done.
Qed.

(** The firing entry is gone, or erased: the others are in order. *)
Lemma timers_ok_gone m srcs key :
  timers_ok (Some key) m srcs → m !! key = None → timers_ok None m srcs.
Proof.
  intros [He Hm] Hk. split; [done|]. intros key' n' Hk'.
  destruct (Hm _ _ Hk') as (src & ? & ? & Hen). exists src. split_and!; [done|done|].
  intros _. apply Hen. congruence.
Qed.

Lemma timers_ok_erase m srcs n src key :
  timers_ok (Some key) m srcs → m !! key = Some n → srcs !! n = Some src →
  ts_enabled src = false → timers_ok None (delete key m) srcs.
Proof.
  intros [He Hm] Hk Hs Hdis. split.
  - intros n' src' key' Hs' Hen' Ho'. pose proof (He _ _ _ Hs' Hen' Ho').
    rewrite lookup_delete_ne; [done|]. congruence.
  - intros key' n'. rewrite lookup_delete_Some. intros [Hne Hk'].
    destruct (Hm _ _ Hk') as (src' & ? & ? & Hen). exists src'. split_and!; [done|done|].
    intros _. apply Hen. congruence.
Qed.

End Timers.

(** ** The three classes *)

Definition own_boot (cb : TimerCallback) : option Z :=
  match cb with BootExpired id => Some (packInstance id) | _ => None end.
Definition own_retry (cb : TimerCallback) : option Z :=
  match cb with TelemetryRetry id _ => Some (packInstance id) | _ => None end.
Definition own_reset (cb : TimerCallback) : option Z :=
  match cb with ResetDeadline key _ => Some key | _ => None end.

(** The loop and the three maps; [xb] and [xr] are the keys whose boot or
    reset deadline is firing. *)
Record loop_ok {D} (xb xr : option Z) (o : Orch D) : Prop := {
  lo_next : ∀ n, (loop_next (o_loop o) ≤ n)%nat → loop_sources (o_loop o) !! n = None;
  lo_boot : timers_ok own_boot xb (o_bootTimers o) (loop_sources (o_loop o));
  lo_retry : timers_ok own_retry None (o_retryTimers o) (loop_sources (o_loop o));
  lo_reset : timers_ok own_reset xr (pr_deadline <$> o_pendingResets o)
               (loop_sources (o_loop o));
}.

Create HintDb timers discriminated.
#[export] Hint Resolve timers_ok_add_other timers_ok_unref_other timers_ok_fire_other : timers.

Section LoopOps.
Context `{Env} {D : Type}.
Implicit Types (o : Orch D).

Lemma loop_ok_empty : loop_ok (D:=D) None None Orch_empty.
Proof. split; cbn; rewrite ?fmap_empty; auto using timers_ok_empty. Qed.

(** Adding a source: its number is new. *)
Lemma add_time_cases at_ cb o :
  add_time at_ cb o =
    (None, {| o with o_loop := mkEventLoop (loop_sources (o_loop o)) (S (loop_next (o_loop o))) |}) ∨
  add_time at_ cb o = (Some (loop_next (o_loop o)),
     {| o with o_loop := mkEventLoop
          (<[loop_next (o_loop o) := mkTimerSource at_ true cb]> (loop_sources (o_loop o)))
          (S (loop_next (o_loop o))) |}) ∧ env_addTime (loop_next (o_loop o)) = true.
Proof. unfold add_time. destruct (env_addTime _); auto. Qed.

Lemma next_grows n at_ cb (srcs : gmap nat TimerSource) next :
  (∀ n, (next ≤ n)%nat → srcs !! n = None) → (S next ≤ n)%nat →
  <[next := mkTimerSource at_ true cb]> srcs !! n = None.
Proof. intros Hn Hle. rewrite lookup_insert_ne by lia. apply Hn. lia. Qed.

Lemma loop_ok_skip xb xr o :
  loop_ok xb xr o →
  loop_ok xb xr {| o with o_loop := mkEventLoop (loop_sources (o_loop o))
                                      (S (loop_next (o_loop o))) |}.
Proof. intros [Hn Hb Hr Hp]. split; cbn; try done. intros n ?. apply Hn. lia. Qed.

(** Starting a boot timer of a key that has none. *)
Lemma loop_ok_startBoot xb xr id o :
  loop_ok xb xr o → o_bootTimers o !! packInstance id = None →
  loop_ok xb xr (startBootTimer_ id o).
Proof.
  intros Hok Hk. unfold startBootTimer_.
  destruct (add_time_cases (env_now + o_tBoot o * 1000) (BootExpired id) o)
    as [->|[-> _]]; [by apply loop_ok_skip|].
  destruct Hok as [Hn Hb Hr Hp].
  split; cbn; [intros; by apply next_grows| |apply timers_ok_add_other; auto..].
  apply timers_ok_add; auto.
Qed.

Lemma loop_ok_cancelBoot xb xr id o :
  loop_ok xb xr o → loop_ok xb xr (cancelBootTimer_ id o).
Proof.
  intros Hok. unfold cancelBootTimer_.
  destruct (o_bootTimers o !! packInstance id) as [n|] eqn:Hk; [|done].
  destruct Hok as [Hn Hb Hr Hp].
  destruct (to_entry _ _ _ _ Hb _ _ Hk) as ([? ? []] & Hs & Ho & _); try done.
  split; cbn.
  - intros k ?. rewrite lookup_delete. case_decide; auto.
  - by apply timers_ok_cancel.
  - by eapply timers_ok_unref_other.
  - by eapply timers_ok_unref_other.
Qed.

Lemma loop_ok_cancelRetry xb xr id o :
  loop_ok xb xr o → loop_ok xb xr (cancelTelemetryRetry_ id o).
Proof.
  intros Hok. unfold cancelTelemetryRetry_.
  destruct (o_retryTimers o !! packInstance id) as [n|] eqn:Hk; [|done].
  destruct Hok as [Hn Hb Hr Hp].
  destruct (to_entry _ _ _ _ Hr _ _ Hk) as ([? ? []] & Hs & Ho & _); try done.
  split; cbn.
  - intros k ?. rewrite lookup_delete. case_decide; auto.
  - by eapply timers_ok_unref_other.
  - by apply timers_ok_cancel.
  - by eapply timers_ok_unref_other.
Qed.

Lemma cancelRetry_gone id o :
  o_retryTimers (cancelTelemetryRetry_ id o) !! packInstance id = None.
Proof.
  unfold cancelTelemetryRetry_.
  destruct (o_retryTimers o !! packInstance id) eqn:Hk; [|done]. cbn. by simplify_map_eq.
Qed.

Lemma loop_ok_scheduleRetry xb xr id a o :
  loop_ok xb xr o → loop_ok xb xr (scheduleTelemetryRetry_ id a o).
Proof.
  intros Hok%(loop_ok_cancelRetry _ _ id). unfold scheduleTelemetryRetry_.
  pose proof (cancelRetry_gone id o) as Hk.
  destruct (add_time_cases (env_now + kTelemetryRetryInterval * 1000) (TelemetryRetry id a)
    (cancelTelemetryRetry_ id o)) as [->|[-> _]]; [by apply loop_ok_skip|].
  destruct Hok as [Hn Hb Hr Hp].
  split; cbn; [intros; by apply next_grows|apply timers_ok_add_other; auto| |
    apply timers_ok_add_other; auto].
  apply timers_ok_add; auto.
Qed.
End LoopOps.

(** * The hierarchy of state machines inside the orchestrator *)

(** The resources that report a status. *)
Inductive Owner := OwnElement (key : Z) | OwnModule (mkey : Z) | OwnTray.

#[export] Instance Owner_eq_dec : EqDecision Owner.
Proof. solve_decision. Defined.

Section Hierarchy.
Context {D : Type}.
Implicit Types (o : Orch D) (w : Owner).

(** Where a resource reports, and the status its state calls for. *)
Definition owner_path o w : option string :=
  match w with
  | OwnElement key => ee_path <$> o_elements o !! key
  | OwnModule mkey => snd <$> o_modules o !! mkey
  | OwnTray => snd <$> o_tray o
  end.

Definition owner_status o w : option StatusTuple :=
  match w with
  | OwnElement key => (λ ee, toStatus_element (ef_state (ee_fsm ee)) true) <$> o_elements o !! key
  | OwnModule mkey => (λ m, toStatus_module (mf_state m.1)) <$> o_modules o !! mkey
  | OwnTray => (λ t, toStatus_tray (tf_state t.1)) <$> o_tray o
  end.

Definition paths_distinct o : Prop :=
  ∀ w1 w2 p, owner_path o w1 = Some p → owner_path o w2 = Some p → w1 = w2.

Definition bus_ok o : Prop :=
  ∀ w p, owner_path o w = Some p → o_bus o !! p = owner_status o w.

(** Every element is well formed and filed under its key. *)
Definition elements_ok o : Prop :=
  ∀ key ee, o_elements o !! key = Some ee →
    element_wf (ee_fsm ee) ∧ packInstance (ec_id (ef_ctx (ee_fsm ee))) = key ∧
    InstanceId_wf (ec_id (ef_ctx (ee_fsm ee))).

Definition ee_id (ee : ElementEntry) : InstanceId := ec_id (ef_ctx (ee_fsm ee)).
Definition ee_state (ee : ElementEntry) : ElementState := ef_state (ee_fsm ee).

(** What a parent has recorded of an LPU, of an FPGA, of a module. *)
Definition lpu_recorded o key ee : Prop :=
  ∃ mk m p slot, o_elementToModule o !! key = Some mk ∧ o_modules o !! mk = Some (m, p) ∧
    list_find (λ i, i = ee_id ee) (mc_childIds (mf_ctx m)) = Some (slot, ee_id ee) ∧
    mc_childStates (mf_ctx m) !! slot = Some (ee_state ee).

Definition fpga_recorded o ee : Prop :=
  cls (ee_id ee) = Fpga ∧ 0 ≤ index (ee_id ee) ∧
  ∃ t p, o_tray o = Some (t, p) ∧
    tc_fpgaStates (tf_ctx t) !! Z.to_nat (index (ee_id ee)) = Some (ee_state ee).

Definition module_recorded o mk (m : ModuleFsm) : Prop :=
  mc_onStateChange (mf_ctx m) = true ∧
  packInstance (mc_id (mf_ctx m)) = mk ∧ cls (mc_id (mf_ctx m)) = Module_ ∧
  0 ≤ index (mc_id (mf_ctx m)) ∧
  ∃ t p, o_tray o = Some (t, p) ∧
    tc_moduleStates (tf_ctx t) !! Z.to_nat (index (mc_id (mf_ctx m))) = Some (mf_state m).

Record children_ok o : Prop := {
  co_lpu : ∀ key ee, o_elements o !! key = Some ee → ee_isLpu ee = true → lpu_recorded o key ee;
  co_fpga : ∀ key ee, o_elements o !! key = Some ee → ee_isLpu ee = false → fpga_recorded o ee;
  co_module : ∀ mk m p, o_modules o !! mk = Some (m, p) → module_recorded o mk m;
  co_tray : ∀ t p, o_tray o = Some (t, p) → tc_onStateChange (tf_ctx t) = true;
}.

(** ** The tray *)

(** A dispatch to the tray, in closed form. *)
Lemma tray_dispatch_form ev o t p :
  o_tray o = Some (t, p) → tc_onStateChange (tf_ctx t) = true →
  let t' := (TrayFsm_dispatch t ev).1.1 in
  tray_dispatch ev o = {| o with
    o_tray := Some (t', p);
    o_bus := if decide (tf_state t' = tf_state t) then o_bus o
             else applyStatus_tray p (tf_state t') (o_bus o) |}.
Proof.
  intros Ht Hcb. cbn zeta. unfold tray_dispatch. rewrite Ht.
  rewrite TrayFsm_dispatch_news by done.
  destruct (TrayFsm_record (tf_ctx t) ev) as [ctx|]; cbn; [|by rewrite decide_True].
  destruct (news_of ev ≫= _) as [t'|]; cbn; [|by rewrite decide_True].
  by case_decide.
Qed.

(** The bus after a dispatch to the tray. *)
Lemma bus_ok_tray ev o t p :
  o_tray o = Some (t, p) → tc_onStateChange (tf_ctx t) = true →
  paths_distinct o → bus_ok o →
  bus_ok (tray_dispatch ev o) ∧ (∀ w, owner_path (tray_dispatch ev o) w = owner_path o w).
Proof.
  intros Ht Hcb Hd Hbus. rewrite (tray_dispatch_form _ _ t p) by done.
  set (t' := (TrayFsm_dispatch t ev).1.1).
  assert (∀ b, ∀ w, owner_path {| o with o_tray := Some (t', p); o_bus := b |} w
    = owner_path o w) as Hpath by (intros b [| |]; cbn; by rewrite ?Ht).
  split; [|apply Hpath].
  intros w q Hq. rewrite Hpath in Hq. cbn. case_decide as Hs.
  - rewrite (Hbus w q Hq). destruct w; cbn; try done. rewrite Ht; cbn. by rewrite Hs.
  - unfold applyStatus_tray, writeTuple_. destruct (decide (w = OwnTray)) as [->|Hw].
    + cbn in *. rewrite Ht in Hq. injection Hq as <-. by simplify_map_eq.
    + rewrite lookup_insert_ne.
      * rewrite (Hbus w q Hq). by destruct w.
      * intros <-. apply Hw, (Hd _ _ p); [done|]. cbn. by rewrite Ht.
Qed.

(** The news of a module, and of an FPGA, recorded by the tray. *)
Lemma tray_records_module t tid id s x :
  tc_onStateChange (tf_ctx t) = true → 0 ≤ index id →
  tc_moduleStates (tf_ctx t) !! Z.to_nat (index id) = Some x →
  let t' := (TrayFsm_dispatch t (mkEvent ModuleStateChanged tid (ChildModulePayload id s))).1.1 in
  tf_ctx t' = {| (tf_ctx t) with
    tc_moduleStates := <[Z.to_nat (index id) := s]> (tc_moduleStates (tf_ctx t)) |}.
Proof.
  intros Hcb Hge Hx%lookup_lt_Some. cbn zeta. rewrite TrayFsm_dispatch_ctx by done.
  unfold TrayFsm_record; cbn. by rewrite decide_True by lia.
Qed.

Lemma tray_records_fpga t tid id s x :
  tc_onStateChange (tf_ctx t) = true → 0 ≤ index id →
  tc_fpgaStates (tf_ctx t) !! Z.to_nat (index id) = Some x →
  let t' := (TrayFsm_dispatch t (mkEvent FpgaStateChanged tid (ChildElementPayload id s))).1.1 in
  tf_ctx t' = {| (tf_ctx t) with
    tc_fpgaStates := <[Z.to_nat (index id) := s]> (tc_fpgaStates (tf_ctx t)) |}.
Proof.
  intros Hcb Hge Hx%lookup_lt_Some. cbn zeta. rewrite TrayFsm_dispatch_ctx by done.
  unfold TrayFsm_record; cbn. by rewrite decide_True by lia.
Qed.

(** ** A module *)

(** The news a module passes on. *)
Definition module_news_event (tid : InstanceId) (m : ModuleFsm) : SemanticEvent :=
  mkEvent ModuleStateChanged tid (ChildModulePayload (mc_id (mf_ctx m)) (mf_state m)).

(** A dispatch to a module, in closed form. *)
Lemma module_dispatch_form mk ev o m p t tp :
  o_modules o !! mk = Some (m, p) → mc_onStateChange (mf_ctx m) = true →
  o_tray o = Some (t, tp) →
  let m' := (ModuleFsm_dispatch m ev).1.1 in
  module_dispatch mk ev o =
    let o1 := {| o with o_modules := <[mk := (m', p)]> (o_modules o) |} in
    if decide (mf_state m' = mf_state m) then o1
    else tray_dispatch (module_news_event (tc_id (tf_ctx t)) m')
           {| o1 with o_bus := applyStatus_module p (mf_state m') (o_bus o1) |}.
Proof.
  intros Hm Hcb Ht. cbn zeta. unfold module_dispatch, module_news_event. rewrite Hm.
  destruct (ModuleFsm_dispatch_ctx m ev Hcb) as (Hid & _ & _ & _). rewrite Hid.
  destruct (ModuleFsm_dispatch_cases m ev) as [Hfor|(c & i & s & Hev & Hf)].
  { rewrite ModuleFsm_dispatch_foreign by done. cbn. by rewrite decide_True. }
  rewrite Hev. rewrite (ModuleFsm_dispatch_child _ _ _ _ _ Hf Hcb).
  destruct (module_next _ _ _) as [m'|]; cbn; [|by rewrite decide_True].
  case_decide; [done|]. cbn. unfold onModuleStateChange, tray_id; cbn. by rewrite Ht.
Qed.

(** Replacing the FSM of a resource and reporting its state keeps the bus. *)
Lemma bus_ok_module mk m p m' b o :
  o_modules o !! mk = Some (m, p) → paths_distinct o → bus_ok o →
  b = (if decide (mf_state m' = mf_state m) then o_bus o
       else applyStatus_module p (mf_state m') (o_bus o)) →
  let o' := {| o with o_modules := <[mk := (m', p)]> (o_modules o); o_bus := b |} in
  bus_ok o' ∧ (∀ w, owner_path o' w = owner_path o w).
Proof.
  intros Hm Hd Hbus ->. cbn zeta.
  assert (∀ b, ∀ w, owner_path {| o with o_modules := <[mk := (m', p)]> (o_modules o);
    o_bus := b |} w = owner_path o w) as Hpath.
  { intros b [key|mk'|]; cbn; try done. rewrite lookup_insert. case_decide; [|done].
    subst. by rewrite Hm. }
  split; [|apply Hpath]. intros w q Hq. rewrite Hpath in Hq. cbn.
  destruct (decide (w = OwnModule mk)) as [->|Hw].
  - cbn in Hq |- *. rewrite Hm in Hq. injection Hq as <-. rewrite lookup_insert_eq.
    cbn. case_decide as Hs; [|unfold applyStatus_module, writeTuple_; by simplify_map_eq].
    rewrite (Hbus (OwnModule mk) p) by (cbn; by rewrite Hm). cbn. rewrite Hm; cbn. by rewrite Hs.
  - assert (owner_status {| o with o_modules := <[mk := (m', p)]> (o_modules o);
      o_bus := if decide (mf_state m' = mf_state m) then o_bus o
       else applyStatus_module p (mf_state m') (o_bus o) |} w = owner_status o w) as ->.
    { destruct w as [|mk'|]; cbn; try done. rewrite lookup_insert_ne; [done|]. congruence. }
    case_decide; [by apply Hbus|]. unfold applyStatus_module, writeTuple_.
    rewrite lookup_insert_ne; [by apply Hbus|]. intros <-.
    apply Hw, (Hd _ _ p); [done|]. cbn. by rewrite Hm.
Qed.

Lemma bus_ok_element key ee ee' b o :
  o_elements o !! key = Some ee → ee_path ee' = ee_path ee → paths_distinct o → bus_ok o →
  b = (if decide (ee_state ee' = ee_state ee) then o_bus o
       else applyStatus_element (ee_path ee) (ee_state ee') true (o_bus o)) →
  let o' := {| o with o_elements := <[key := ee']> (o_elements o); o_bus := b |} in
  bus_ok o' ∧ (∀ w, owner_path o' w = owner_path o w).
Proof.
  intros Hm Hpe Hd Hbus ->. cbn zeta.
  assert (∀ b, ∀ w, owner_path {| o with o_elements := <[key := ee']> (o_elements o);
    o_bus := b |} w = owner_path o w) as Hpath.
  { intros b [key'|mk'|]; cbn; try done. rewrite lookup_insert. case_decide; [|done].
    subst. rewrite Hm. cbn. by rewrite Hpe. }
  split; [|apply Hpath]. intros w q Hq. rewrite Hpath in Hq. cbn.
  destruct (decide (w = OwnElement key)) as [->|Hw].
  - cbn in Hq |- *. rewrite Hm in Hq. injection Hq as <-. rewrite lookup_insert_eq.
    cbn. fold (ee_state ee').
    case_decide as Hs; [|unfold applyStatus_element, writeTuple_; by simplify_map_eq].
    rewrite (Hbus (OwnElement key) (ee_path ee)) by (cbn; by rewrite Hm). cbn. rewrite Hm; cbn.
    fold (ee_state ee). by rewrite Hs.
  - assert (owner_status {| o with o_elements := <[key := ee']> (o_elements o);
      o_bus := if decide (ee_state ee' = ee_state ee) then o_bus o
       else applyStatus_element (ee_path ee) (ee_state ee') true (o_bus o) |} w
       = owner_status o w) as ->.
    { destruct w as [key'|mk'|]; cbn; try done. rewrite lookup_insert_ne; [done|]. congruence. }
    case_decide; [by apply Hbus|]. unfold applyStatus_element, writeTuple_.
    rewrite lookup_insert_ne; [by apply Hbus|]. intros <-.
    apply Hw, (Hd _ _ (ee_path ee)); [done|]. cbn. by rewrite Hm.
Qed.

Lemma paths_distinct_same o o' :
  (∀ w, owner_path o' w = owner_path o w) → paths_distinct o → paths_distinct o'.
Proof. intros Hp Hd w1 w2 p. rewrite !Hp. apply Hd. Qed.

(** ** One step of the hierarchy *)

(** An element replaced by its successor: same identity, class and path. *)
Definition entry_succ (ee ee' : ElementEntry) : Prop :=
  ee_id ee' = ee_id ee ∧ ee_isLpu ee' = ee_isLpu ee ∧ ee_path ee' = ee_path ee.

(** An element that keeps its state: nothing to record. *)
Lemma children_ok_same key ee ee' o o' :
  children_ok o → o_elements o !! key = Some ee → entry_succ ee ee' →
  ee_state ee' = ee_state ee →
  o_elements o' = <[key := ee']> (o_elements o) → o_modules o' = o_modules o →
  o_tray o' = o_tray o → o_elementToModule o' = o_elementToModule o → children_ok o'.
Proof.
  intros [Hl Hf Hm Ht] He (Hid & Hlpu & _) Hs Hel Hmo Htr Hem. split.
  - intros k e. rewrite Hel, lookup_insert_Some. unfold lpu_recorded. rewrite Hem, Hmo.
    intros [[<- <-]|[_ Hk]] Hb; [|by apply Hl].
    rewrite Hid, Hs. apply Hl; [done|congruence].
  - intros k e. rewrite Hel, lookup_insert_Some. unfold fpga_recorded. rewrite Htr.
    intros [[<- <-]|[_ Hk]] Hb; [|by eapply Hf].
    rewrite Hid, Hs. eapply Hf; [done|congruence].
  - intros mk m p. rewrite Hmo. unfold module_recorded. rewrite Htr. apply Hm.
  - intros t p. rewrite Htr. apply Ht.
Qed.

(** A module slot is one child's. *)
Lemma list_find_inj {A} `{EqDecision A} (l : list A) a b i :
  list_find (λ x, x = a) l = Some (i, a) → list_find (λ x, x = b) l = Some (i, b) → a = b.
Proof. intros (Ha & _)%list_find_Some (Hb & _)%list_find_Some. congruence. Qed.

(** An LPU's change recorded by its module, and the module's by the tray. *)
Lemma children_ok_lpu key ee ee' mk m m' p slot t t' tp tp' o o' :
  children_ok o → elements_ok o → o_elements o !! key = Some ee → entry_succ ee ee' →
  ee_isLpu ee = true → o_elementToModule o !! key = Some mk → o_modules o !! mk = Some (m, p) →
  list_find (λ i, i = ee_id ee) (mc_childIds (mf_ctx m)) = Some (slot, ee_id ee) →
  is_Some (mc_childStates (mf_ctx m) !! slot) →
  mc_id (mf_ctx m') = mc_id (mf_ctx m) → mc_childIds (mf_ctx m') = mc_childIds (mf_ctx m) →
  mc_onStateChange (mf_ctx m') = true →
  mc_childStates (mf_ctx m') = <[slot := ee_state ee']> (mc_childStates (mf_ctx m)) →
  o_tray o = Some (t, tp) → tc_onStateChange (tf_ctx t') = true →
  tc_fpgaStates (tf_ctx t') = tc_fpgaStates (tf_ctx t) →
  tc_moduleStates (tf_ctx t') = <[Z.to_nat (index (mc_id (mf_ctx m))) := mf_state m']>
                                  (tc_moduleStates (tf_ctx t)) →
  o_elements o' = <[key := ee']> (o_elements o) →
  o_modules o' = <[mk := (m', p)]> (o_modules o) → o_tray o' = Some (t', tp') →
  o_elementToModule o' = o_elementToModule o → children_ok o'.
Proof.
  intros [Hl Hf Hm Ht] Hwf He (Hid & Hlpu & _) Hisl Hmk Hmm Hslot Hsl Hmid Hmch Hmcb Hmst Htr Htcb
    Htf Htm Hel Hmo Htr' Hem.
  destruct (Hm _ _ _ Hmm) as (_ & Hpk & Hcl & Hidx & t0 & p0 & Ht0 & Hms).
  rewrite Htr in Ht0. injection Ht0 as <- <-.
  split; [| | |by rewrite Htr'; intros ? ? [= <- <-]].
  - intros k e. rewrite Hel, lookup_insert_Some. unfold lpu_recorded. rewrite Hem, Hmo.
    intros [[<- <-]|[Hne Hk]] Hb.
    + exists mk, m', p, slot. rewrite lookup_insert_eq, Hmch, Hid, Hmst.
      split_and!; [done|done|done|]. rewrite list_lookup_insert_eq; [done|].
      by apply lookup_lt_is_Some.
    + destruct (Hl _ _ Hk Hb) as (mk' & m0 & p0' & s0 & H1 & H2 & H3 & H4).
      destruct (decide (mk' = mk)) as [->|Hmne].
      * rewrite Hmm in H2. injection H2 as <- <-. exists mk, m', p, s0.
        rewrite lookup_insert_eq, Hmch, Hmst. split_and!; [done|done|done|].
        rewrite list_lookup_insert_ne; [done|]. intros <-.
        pose proof (list_find_inj _ _ _ _ Hslot H3) as Heq.
        destruct (Hwf _ _ He) as (_ & Hke & _), (Hwf _ _ Hk) as (_ & Hkk & _).
        unfold ee_id in Heq. congruence.
      * exists mk', m0, p0', s0. by rewrite lookup_insert_ne.
  - intros k e. rewrite Hel, lookup_insert_Some. intros [[<- <-]|[Hne Hk]] Hb.
    + congruence.
    + unfold fpga_recorded in *. rewrite Htr'.
      destruct (Hf _ _ Hk Hb) as (? & ? & t1 & p1 & H1 & H2).
      split_and!; [done|done|]. exists t', tp'. split; [done|]. rewrite Htf. congruence.
  - intros mk' m0 p0. rewrite Hmo, lookup_insert_Some.
    intros [[<- [= <- <-]]|[Hne Hk]].
    + unfold module_recorded. rewrite Hmid. split_and!; try done.
      exists t', tp'. split; [done|]. rewrite Htm, list_lookup_insert_eq; [done|].
      by eapply lookup_lt_Some.
    + destruct (Hm _ _ _ Hk) as (Hcb0 & Hpk0 & Hcl0 & Hidx0 & t1 & p1 & Ht1 & Hms0).
      split_and!; try done. exists t', tp'. split; [done|]. rewrite Htm.
      rewrite list_lookup_insert_ne; [congruence|]. intros Heq%Z2Nat.inj; [|done|done].
      apply Hne. rewrite <-Hpk, <-Hpk0. unfold packInstance. by rewrite Hcl, Hcl0, Heq.
Qed.

(** An FPGA's change recorded by the tray. *)
Lemma children_ok_fpga key ee ee' t t' tp tp' o o' :
  children_ok o → elements_ok o → o_elements o !! key = Some ee → entry_succ ee ee' →
  ee_isLpu ee = false → o_tray o = Some (t, tp) → tc_onStateChange (tf_ctx t') = true →
  tc_moduleStates (tf_ctx t') = tc_moduleStates (tf_ctx t) →
  tc_fpgaStates (tf_ctx t') = <[Z.to_nat (index (ee_id ee)) := ee_state ee']>
                                (tc_fpgaStates (tf_ctx t)) →
  o_elements o' = <[key := ee']> (o_elements o) →
  o_modules o' = o_modules o → o_tray o' = Some (t', tp') →
  o_elementToModule o' = o_elementToModule o → children_ok o'.
Proof.
  intros [Hl Hf Hm Ht] Hwf He (Hid & Hlpu & _) Hisl Htr Htcb Htm Htf Hel Hmo Htr' Hem.
  destruct (Hf _ _ He Hisl) as (Hcl & Hidx & t0 & p0 & Ht0 & Hfs).
  rewrite Htr in Ht0. injection Ht0 as <- <-.
  split; [| | |by rewrite Htr'; intros ? ? [= <- <-]].
  - intros k e. rewrite Hel, lookup_insert_Some. unfold lpu_recorded. rewrite Hem, Hmo.
    intros [[<- <-]|[Hne Hk]] Hb; [congruence|by apply Hl].
  - intros k e. rewrite Hel, lookup_insert_Some. unfold fpga_recorded. rewrite Htr'.
    intros [[<- <-]|[Hne Hk]] Hb.
    + rewrite Hid. split_and!; [done|done|]. eexists _, _; split; [done|].
      rewrite Htf, list_lookup_insert_eq; [done|]. by eapply lookup_lt_Some.
    + destruct (Hf _ _ Hk Hb) as (Hcl0 & Hidx0 & t1 & p1 & Ht1 & Hfs0).
      split_and!; [done|done|]. eexists _, _; split; [done|].
      rewrite Htf, list_lookup_insert_ne; [congruence|]. intros Heq%Z2Nat.inj; [|done|done].
      destruct (Hwf _ _ He) as (_ & Hke & _), (Hwf _ _ Hk) as (_ & Hkk & _).
      apply Hne. rewrite <-Hke, <-Hkk. unfold packInstance. fold (ee_id ee) (ee_id e).
      by rewrite Hcl, Hcl0, Heq.
  - intros mk m p. rewrite Hmo. unfold module_recorded. rewrite Htr'.
    intros (? & ? & ? & ? & t1 & p1 & Ht1 & Hms)%Hm. split_and!; try done.
    eexists _, _; split; [done|]. rewrite Htm. congruence.
Qed.
End Hierarchy.
