(* ===== verification/OrchInvariant.v ===== *)
(** * The invariant of the orchestrator

    [orch_inv] holds between two events: every element is well formed, filed
    under its key and wired to a live boot-complete line; the loop and the
    timer maps agree; a boot deadline is armed exactly in S_POWERED and a
    telemetry retry only in S_ONLINE; every parent mirrors its children and the
    bus mirrors every FSM.

    [granted] stands for the loop granting every timer; without it a deadline
    may be missing, never wrong. [xb] and [xr] are the keys whose boot or reset
    deadline is being handled.

    The lemmas follow the calls, from a dispatch to an element up to
    [orch_step]; the theorems say that every step keeps the invariant. *)

From S2P Require Import Prelude Types SubscriberList FsmEngine ElementFsm ModuleFsm TrayFsm.
From S2P Require Import Reporting SubscriberList Hal Lines Drivers Orchestrator Hierarchy.

(** ** Elements and their hooks *)

(** The timer call of a transition. *)
Lemma element_spec_hooks s fc k s' fc' hooks :
  element_spec s fc k = Some (s', fc', hooks) →
  (hooks = [StartTBoot] ∧ s ≠ E_Powered ∧ s' = E_Powered) ∨
  (hooks = [CancelTBoot] ∧ s = E_Powered ∧ s' ≠ E_Powered) ∨
  (hooks = [] ∧ k ≠ TBootExpired ∧ s ≠ E_Powered ∧ s' ≠ E_Powered) ∨
  (hooks = [] ∧ k = TBootExpired ∧ s = E_Powered ∧ s' = E_Fault).
Proof.
  destruct s, k; cbn; intros Heq; repeat case_decide; simplify_eq/=; naive_solver.
Qed.

Section Invariant.
Context {D : Type} `{!IDevice D}.
Implicit Types (o : Orch D).

(** What no call changes of a device. *)
Definition dev_view (d : D) : InstanceId * bool * option nat * string :=
  (dev_id d, dev_sink d, dev_bcLine d, dev_bootCompleteLineName d).

(** The subscribers of a line, which no event changes. *)
Definition line_subs (h : LineHeap LineCallback) (i : nat) : option (list LineCallback) :=
  (λ l, (subs_ (sl_subs l)).*2) <$> line_at h i.

(** Every element has a started device whose boot-complete line is live and
    calls it; devices are filed under packed identifiers. *)
Definition devices_keyed o : Prop :=
  ∀ key, is_Some (o_devices o !! key) → ∃ id, key = packInstance id ∧ InstanceId_wf id.
Definition wire_ok o : Prop :=
  devices_keyed o ∧
  ∀ key ee, o_elements o !! key = Some ee → ∃ i name subs,
    dev_view <$> o_devices o !! key = Some (ee_id ee, true, Some i, name) ∧
    line_subs (o_lines o) i = Some subs ∧ BcCallback key ∈ subs.

(** Deadlines are armed for the states they guard. *)
Record boot_ok (granted : Prop) o : Prop := {
  bo_armed : ∀ key n, o_bootTimers o !! key = Some n →
    ∃ ee, o_elements o !! key = Some ee ∧ ee_state ee = E_Powered;
  bo_granted : granted → ∀ key ee, o_elements o !! key = Some ee →
    ee_state ee = E_Powered → is_Some (o_bootTimers o !! key);
  bo_retry : ∀ key n, o_retryTimers o !! key = Some n →
    ∃ ee, o_elements o !! key = Some ee ∧ ee_state ee = E_Online ∧ ee_isLpu ee = true;
}.

Record orch_inv (granted : Prop) (xb xr : option Z) o : Prop := {
  oi_elements : elements_ok o;
  oi_wired : wire_ok o;
  oi_loop : loop_ok xb xr o;
  oi_boot : boot_ok granted o;
  oi_children : children_ok o;
  oi_bus : bus_ok o;
  oi_paths : paths_distinct o;
}.

(** The element after a transition. *)
Definition entry_next (ee : ElementEntry) (k : EventKind) (s' : ElementState) (fc' : FaultCode)
    : ElementEntry :=
  {| ee with ee_fsm := mkElementFsm {| (ef_ctx (ee_fsm ee)) with ec_faultCode := fc' |} s'
       (ef_seenPgHi (ee_fsm ee) || bool_decide (k = PgHi)) |}.

Lemma entry_next_succ ee k s' fc' : entry_succ ee (entry_next ee k s' fc').
Proof. done. Qed.

Definition entry_spec (ee : ElementEntry) (k : EventKind) :=
  element_spec (ee_state ee) (ec_faultCode (ef_ctx (ee_fsm ee))) k.

Lemma with_elements_id o key ee :
  o_elements o !! key = Some ee → {| o with o_elements := <[key := ee]> (o_elements o) |} = o.
Proof. intros He. rewrite insert_id by done. by destruct o. Qed.

(** A dispatch to an element, in closed form. *)
Lemma element_dispatch_form `{Env} key ev o ee :
  elements_ok o → o_elements o !! key = Some ee →
  element_dispatch key ev o =
    match entry_spec ee (kind ev) with
    | None => o
    | Some (s', fc', hooks) =>
        let o1 := foldl (run_element_hook (ee_id ee) (ee_path ee) (ee_isLpu ee))
          {| o with o_elements := <[key := entry_next ee (kind ev) s' fc']> (o_elements o) |}
          hooks in
        if decide (s' = ee_state ee) then o1
        else onElementStateChange (ee_id ee) (ee_path ee) (ee_isLpu ee) (ee_state ee) s' o1
    end.
Proof.
  intros Hok He. destruct (Hok _ _ He) as (Hwf & _).
  unfold element_dispatch, entry_spec. rewrite He.
  rewrite ElementFsm_dispatch_spec by done. fold (ee_state ee).
  destruct (element_spec _ _ _) as [[[s' fc'] hooks]|].
  - rewrite foldl_app. unfold change_hook. by case_decide.
  - cbn. destruct ee. by apply with_elements_id.
Qed.
End Invariant.

(** ** What each call leaves alone *)

Section Frames.
Context `{Env} {D : Type} `{!IDevice D, !IDeviceLaws D}.
Implicit Types (o : Orch D).

Lemma startBoot_form id o : ∃ lp bt,
  startBootTimer_ id o = {| o with o_loop := lp; o_bootTimers := bt |}.
Proof.
  unfold startBootTimer_.
  destruct (add_time_cases (env_now + o_tBoot o * 1000) (BootExpired id) o) as [->|[-> _]].
  - eexists _, (o_bootTimers o). reflexivity.
  - by eexists _, _.
Qed.

Lemma cancelBoot_form id o : ∃ lp bt,
  cancelBootTimer_ id o = {| o with o_loop := lp; o_bootTimers := bt |}.
Proof.
  unfold cancelBootTimer_. destruct (_ !! _).
  - by eexists _, _.
  - exists (o_loop o), (o_bootTimers o). by destruct o.
Qed.

Lemma cancelRetry_form id o : ∃ lp rt,
  cancelTelemetryRetry_ id o = {| o with o_loop := lp; o_retryTimers := rt |}.
Proof.
  unfold cancelTelemetryRetry_. destruct (_ !! _).
  - by eexists _, _.
  - exists (o_loop o), (o_retryTimers o). by destruct o.
Qed.

Lemma scheduleRetry_form id a o : ∃ lp rt,
  scheduleTelemetryRetry_ id a o = {| o with o_loop := lp; o_retryTimers := rt |}.
Proof.
  unfold scheduleTelemetryRetry_. destruct (cancelRetry_form id o) as (lp & rt & ->).
  match goal with |- context [add_time ?a ?c ?x] =>
    destruct (add_time_cases a c x) as [->|[-> _]] end; by eexists _, _.
Qed.

(** The devices after a polling call: the same views. *)
Lemma polling_form b key o r o' :
  call_setTelemetryPolling b key o = Some (r, o') → ∃ dv hal,
    o' = {| o with o_devices := dv; o_hal := hal |} ∧
    dev_view <$> dv = dev_view <$> o_devices o ∧ hs_lines hal = hs_lines (o_hal o).
Proof.
  unfold call_setTelemetryPolling. destruct (o_devices o !! key) as [dev|] eqn:Hd; [|done].
  pose proof (law_polling_same b dev (o_hal o)) as Hsame.
  pose proof (law_polling_lines b dev (o_hal o)) as Hlines.
  destruct (dev_setTelemetryPolling b dev (o_hal o)) as [[r1 dev'] hs]. cbn in *.
  intros [= <- <-]. eexists _, _. split; [done|]. split; [|done].
  rewrite fmap_insert. destruct Hsame as (H1 & H2 & H3 & H4).
  apply insert_id. rewrite lookup_fmap, Hd; cbn. unfold dev_view. by rewrite H1, H2, H3, H4.
Qed.

Lemma pollOnChange_form id old neu o : ∃ lp rt dv hal,
  pollOnChange id old neu o =
    {| o with o_loop := lp; o_retryTimers := rt; o_devices := dv; o_hal := hal |} ∧
  dev_view <$> dv = dev_view <$> o_devices o ∧ hs_lines hal = hs_lines (o_hal o).
Proof.
  unfold pollOnChange. destruct (_ || _).
  - destruct (cancelRetry_form id o) as (lp & rt & ->).
    destruct (call_setTelemetryPolling _ _ _) as [[r o1]|] eqn:Hp.
    + apply polling_form in Hp as (dv & hal & -> & Hdv & Hl). cbn in *.
      case_match; [|by eexists _, _, _, _].
      match goal with |- context [scheduleTelemetryRetry_ ?i ?a ?x] =>
        destruct (scheduleRetry_form i a x) as (lp' & rt' & ->) end. by eexists _, _, _, _.
    + by eexists _, _, (o_devices o), (o_hal o).
  - exists (o_loop o), (o_retryTimers o), (o_devices o), (o_hal o). by destruct o.
Qed.

Lemma tray_dispatch_frame ev o : ∃ tr b,
  tray_dispatch ev o = {| o with o_tray := tr; o_bus := b |}.
Proof.
  unfold tray_dispatch. destruct (o_tray o) as [[t p]|] eqn:Ht.
  - destruct (TrayFsm_dispatch t ev) as [[t' hooks] fired]. clear fired Ht.
    assert (∀ x, ∃ tr b, foldl (λ o h, match h with OnTrayStateChange _ neu =>
      onTrayStateChange p neu o end) x hooks = {| x with o_tray := tr; o_bus := b |}) as Hg.
    { induction hooks as [|[a neu] hooks IH]; intros x; cbn.
      - exists (o_tray x), (o_bus x). by destruct x.
      - destruct (IH (onTrayStateChange p neu x)) as (tr & b & ->). by exists tr, b. }
    destruct (Hg {| o with o_tray := Some (t', p) |}) as (tr & b & ->). by exists tr, b.
  - exists (o_tray o), (o_bus o). by destruct o.
Qed.

Lemma module_dispatch_frame mk ev o : ∃ ms tr b,
  module_dispatch mk ev o = {| o with o_modules := ms; o_tray := tr; o_bus := b |}.
Proof.
  unfold module_dispatch. destruct (o_modules o !! mk) as [[m p]|] eqn:Hm.
  - destruct (ModuleFsm_dispatch m ev) as [[m' hooks] fired]. clear fired Hm.
    generalize (mc_id (mf_ctx m)) as id. intros id.
    assert (∀ x, ∃ ms tr b, foldl (λ o h, match h with OnModuleStateChange _ neu =>
      onModuleStateChange id p neu o end) x hooks
      = {| x with o_modules := ms; o_tray := tr; o_bus := b |}) as Hg.
    { induction hooks as [|[a neu] hooks IH]; intros x; cbn.
      - exists (o_modules x), (o_tray x), (o_bus x). by destruct x.
      - destruct (IH (onModuleStateChange id p neu x)) as (ms & tr & b & ->).
        unfold onModuleStateChange. destruct (tray_id _); [|by eexists _, _, _].
        match goal with |- context [tray_dispatch ?e ?y] =>
          destruct (tray_dispatch_frame e y) as (tr' & b' & ->) end. by eexists _, _, _. }
    destruct (Hg {| o with o_modules := <[mk := (m', p)]> (o_modules o) |})
      as (ms & tr & b & ->). by eexists _, _, _.
  - exists (o_modules o), (o_tray o), (o_bus o). by destruct o.
Qed.

(** Telling the parent: the second half of an element's callback. *)
Definition tell_parent (id : InstanceId) (isLpu : bool) (neu : ElementState) o : Orch D :=
  if isLpu then
    match o_elementToModule o !! packInstance id with
    | None => o
    | Some mkey =>
        module_dispatch mkey
          (mkEvent LpuStateChanged (module_id_of_key mkey) (ChildElementPayload id neu)) o
    end
  else
    match tray_id o with
    | Some tray => tray_dispatch (mkEvent FpgaStateChanged tray (ChildElementPayload id neu)) o
    | None => o
    end.

Lemma onElementStateChange_split id path isLpu old neu o :
  onElementStateChange id path isLpu old neu o =
    tell_parent id isLpu neu
      (let o := {| o with o_bus := applyStatus_element path neu true (o_bus o) |} in
       if isLpu then pollOnChange id old neu o else o).
Proof. by destruct isLpu. Qed.

Lemma tell_parent_frame id isLpu neu o : ∃ ms tr b,
  tell_parent id isLpu neu o = {| o with o_modules := ms; o_tray := tr; o_bus := b |}.
Proof.
  unfold tell_parent. destruct isLpu.
  - destruct (_ !! _); [apply module_dispatch_frame|].
    exists (o_modules o), (o_tray o), (o_bus o). by destruct o.
  - destruct (tray_id o).
    + match goal with |- context [tray_dispatch ?e ?y] =>
        destruct (tray_dispatch_frame e y) as (tr' & b' & ->) end. by eexists (o_modules o), _, _.
    + exists (o_modules o), (o_tray o), (o_bus o). by destruct o.
Qed.
End Frames.

(** ** The hierarchy follows *)

Section Mirror.
Context `{Env} {D : Type} `{!IDevice D, !IDeviceLaws D}.
Implicit Types (o x : Orch D).

(** Two states with the same FSMs, paths and bus. *)
Definition same_fsms o x : Prop :=
  o_elements x = o_elements o ∧ o_modules x = o_modules o ∧ o_tray x = o_tray o ∧
  o_bus x = o_bus o ∧ o_elementToModule x = o_elementToModule o.

Lemma same_fsms_bus o x : same_fsms o x → bus_ok o → bus_ok x.
Proof.
  intros (He & Hm & Ht & Hb & _) Hbus w p.
  assert (owner_path x w = owner_path o w) as -> by (destruct w; cbn; congruence).
  assert (owner_status x w = owner_status o w) as -> by (destruct w; cbn; congruence).
  rewrite Hb. apply Hbus.
Qed.

Lemma same_fsms_path o x w : same_fsms o x → owner_path x w = owner_path o w.
Proof. intros (He & Hm & Ht & _). destruct w; cbn; congruence. Qed.

Lemma same_fsms_children o x : same_fsms o x → children_ok o → children_ok x.
Proof.
  intros (He & Hm & Ht & _ & Hem) [Hl Hf Hmo Htr].
  split; rewrite ?He, ?Hm, ?Ht; unfold lpu_recorded, fpga_recorded, module_recorded;
    rewrite ?He, ?Hm, ?Ht, ?Hem; done.
Qed.

(** A child's change told to its module: recorded, reported, passed on. *)
Lemma tell_module_ok key ee ee' mk m p slot o x :
  children_ok o → elements_ok o → o_elements o !! key = Some ee → entry_succ ee ee' →
  ee_isLpu ee = true → o_elementToModule o !! key = Some mk → o_modules o !! mk = Some (m, p) →
  list_find (λ i, i = ee_id ee) (mc_childIds (mf_ctx m)) = Some (slot, ee_id ee) →
  is_Some (mc_childStates (mf_ctx m) !! slot) →
  o_elements x = <[key := ee']> (o_elements o) → o_modules x = o_modules o →
  o_tray x = o_tray o → o_elementToModule x = o_elementToModule o →
  paths_distinct x → bus_ok x →
  let y := module_dispatch mk
    (mkEvent LpuStateChanged (module_id_of_key mk) (ChildElementPayload (ee_id ee) (ee_state ee'))) x in
  children_ok y ∧ bus_ok y ∧ (∀ w, owner_path y w = owner_path x w).
Proof.
  intros Hch Hwf He Hsucc Hlpu Hmk Hm Hslot Hsl Hxe Hxm Hxt Hxem Hxd Hxb. cbn zeta.
  destruct (co_module _ Hch _ _ _ Hm) as (Hcb & _ & _ & Hidx & t & tp & Ht & Hms).
  pose proof (co_tray _ Hch _ _ Ht) as Htcb.
  fold (child_event (module_id_of_key mk) (ee_id ee) (ee_state ee')).
  set (ev := child_event _ _ _).
  assert (o_modules x !! mk = Some (m, p)) as Hxmm by congruence.
  rewrite (module_dispatch_form mk ev x m p t tp) by congruence.
  destruct (ModuleFsm_dispatch_ctx m ev Hcb) as (Hid & Hids & Hlen & Hcb').
  assert (mc_childStates (mf_ctx (ModuleFsm_dispatch m ev).1.1)
    = <[slot := ee_state ee']> (mc_childStates (mf_ctx m))) as Hst.
  { unfold ev. rewrite (ModuleFsm_dispatch_child _ _ _ _ _ Hslot Hcb).
    by destruct (module_next _ _ _). }
  set (m' := (ModuleFsm_dispatch m ev).1.1) in *. cbn zeta. case_decide as Hs.
  - destruct (bus_ok_module mk m p m' (o_bus x) x) as [Hb Hp];
      [done|done|done|by rewrite decide_True|].
    split_and!; [|done|done].
    eapply (children_ok_lpu key ee ee' mk m m' p slot t t tp tp o); try done; cbn; try congruence.
    rewrite Hs. symmetry. apply list_insert_id. done.
  - set (z := {| x with o_modules := <[mk := (m', p)]> (o_modules x);
                        o_bus := applyStatus_module p (mf_state m') (o_bus x) |}).
    destruct (bus_ok_module mk m p m' (applyStatus_module p (mf_state m') (o_bus x)) x)
      as [Hb Hp]; [done|done|done|by rewrite decide_False|]. fold z in Hb, Hp.
    assert (o_tray z = Some (t, tp)) as Hzt by (cbn; congruence).
    destruct (bus_ok_tray (module_news_event (tc_id (tf_ctx t)) m') z t tp) as [Hb' Hp'];
      [done|done|by eapply paths_distinct_same|done|].
    split_and!; [|done|intros w; by rewrite Hp', Hp].
    rewrite (tray_dispatch_form _ _ t tp) by done.
    unfold module_news_event. rewrite Hid.
    pose proof (tray_records_module t (tc_id (tf_ctx t)) (mc_id (mf_ctx m)) (mf_state m') _
      Htcb Hidx Hms) as Hrec.
    set (t' := (TrayFsm_dispatch t _).1.1) in *. cbn zeta in Hrec.
    eapply (children_ok_lpu key ee ee' mk m m' p slot t t' tp tp o); try done; cbn;
      try congruence; by rewrite Hrec.
Qed.

(** An FPGA's change told to the tray. *)
Lemma tell_tray_ok key ee ee' t tp o x :
  children_ok o → elements_ok o → o_elements o !! key = Some ee → entry_succ ee ee' →
  ee_isLpu ee = false → o_tray o = Some (t, tp) →
  o_elements x = <[key := ee']> (o_elements o) → o_modules x = o_modules o →
  o_tray x = o_tray o → o_elementToModule x = o_elementToModule o →
  paths_distinct x → bus_ok x →
  let y := tray_dispatch (mkEvent FpgaStateChanged (tc_id (tf_ctx t))
             (ChildElementPayload (ee_id ee) (ee_state ee'))) x in
  children_ok y ∧ bus_ok y ∧ (∀ w, owner_path y w = owner_path x w).
Proof.
  intros Hch Hwf He Hsucc Hlpu Ht Hxe Hxm Hxt Hxem Hxd Hxb. cbn zeta.
  pose proof (co_tray _ Hch _ _ Ht) as Htcb.
  destruct (co_fpga _ Hch _ _ He Hlpu) as (Hcl & Hidx & t0 & p0 & Ht0 & Hfs).
  rewrite Ht in Ht0. injection Ht0 as <- <-.
  assert (o_tray x = Some (t, tp)) as Hxt' by congruence.
  destruct (bus_ok_tray (mkEvent FpgaStateChanged (tc_id (tf_ctx t))
    (ChildElementPayload (ee_id ee) (ee_state ee'))) x t tp) as [Hb Hp]; [done..|].
  split_and!; [|done|done]. rewrite (tray_dispatch_form _ _ t tp) by done.
  pose proof (tray_records_fpga t (tc_id (tf_ctx t)) (ee_id ee) (ee_state ee') _
    Htcb Hidx Hfs) as Hrec.
  set (t' := (TrayFsm_dispatch t _).1.1) in *. cbn zeta in Hrec.
  eapply (children_ok_fpga key ee ee' t t' tp tp o); try done; cbn; try congruence;
    by rewrite Hrec.
Qed.

(** The whole of a change: reported, told to the parent, mirrored. *)
Lemma tell_parent_ok key ee ee' o x :
  children_ok o → elements_ok o → paths_distinct o → bus_ok o →
  o_elements o !! key = Some ee → entry_succ ee ee' → ee_state ee' ≠ ee_state ee →
  same_fsms {| o with o_elements := <[key := ee']> (o_elements o);
                      o_bus := applyStatus_element (ee_path ee) (ee_state ee') true (o_bus o) |} x →
  let y := tell_parent (ee_id ee) (ee_isLpu ee) (ee_state ee') x in
  children_ok y ∧ bus_ok y ∧ (∀ w, owner_path y w = owner_path o w).
Proof.
  intros Hch Hwf Hd Hbus He Hsucc Hne Hx. cbn zeta. pose proof Hsucc as (Hid & Hlpu & Hpe).
  destruct (bus_ok_element key ee ee'
    (applyStatus_element (ee_path ee) (ee_state ee') true (o_bus o)) o) as [Hb Hp];
    [done|done|done|done|by rewrite decide_False|].
  pose proof (same_fsms_bus _ _ Hx Hb) as Hxb.
  assert (∀ w, owner_path x w = owner_path o w) as Hxp.
  { intros w. rewrite (same_fsms_path _ _ w Hx). apply Hp. }
  pose proof (paths_distinct_same _ _ Hxp Hd) as Hxd.
  destruct Hx as (Hxe & Hxm & Hxt & _ & Hxem). cbn in Hxe, Hxm, Hxt, Hxem.
  unfold tell_parent. destruct (ee_isLpu ee) eqn:Hl.
  - destruct (co_lpu _ Hch _ _ He Hl) as (mk & m & p & slot & Hmk & Hm & Hf & Hs).
    destruct (Hwf _ _ He) as (_ & Hkey & Hidwf). fold (ee_id ee) in Hkey. rewrite Hkey, Hxem, Hmk.
    destruct (tell_module_ok key ee ee' mk m p slot o x) as (? & ? & Hyp); try done.
    split_and!; [done|done|]. intros w. by rewrite Hyp, Hxp.
  - destruct (co_fpga _ Hch _ _ He Hl) as (_ & _ & t & tp & Ht & _).
    unfold tray_id. rewrite Hxt, Ht. cbn.
    destruct (tell_tray_ok key ee ee' t tp o x) as (? & ? & Hyp); try done.
    split_and!; [done|done|]. intros w. by rewrite Hyp, Hxp.
Qed.
End Mirror.

(** ** A dispatch keeps the invariant *)

Section Dispatch.
Context `{Env} {D : Type} `{!IDevice D, !IDeviceLaws D}.
Implicit Types (o x : Orch D).

Record static_ok o : Prop := {
  so_elements : elements_ok o;
  so_wired : wire_ok o;
  so_children : children_ok o;
  so_bus : bus_ok o;
  so_paths : paths_distinct o;
}.

Lemma orch_inv_static g xb xr o :
  orch_inv g xb xr o ↔ static_ok o ∧ loop_ok xb xr o ∧ boot_ok g o.
Proof. split; [intros []; split_and!; try done|intros ([] & ? & ?)]; by split. Qed.

(** The timer calls of a transition touch the boot timers only. *)
Lemma hooks_form id path isLpu s fc k s' fc' hooks o :
  element_spec s fc k = Some (s', fc', hooks) →
  ∃ lp bt, foldl (run_element_hook id path isLpu) o hooks =
    {| o with o_loop := lp; o_bootTimers := bt |}.
Proof.
  intros [(-> & _)|[(-> & _)|[(-> & _)|(-> & _)]]]%element_spec_hooks; cbn.
  - apply startBoot_form.
  - apply cancelBoot_form.
  - exists (o_loop o), (o_bootTimers o). by destruct o.
  - exists (o_loop o), (o_bootTimers o). by destruct o.
Qed.

(** The static half, whatever the event. *)
Lemma elements_ok_insert key ee ee' o x :
  elements_ok o → o_elements o !! key = Some ee → element_wf (ee_fsm ee') →
  ee_id ee' = ee_id ee → o_elements x = <[key := ee']> (o_elements o) → elements_ok x.
Proof.
  intros Hok He Hwf Hid Hx k e. rewrite Hx, lookup_insert_Some.
  intros [[<- <-]|[_ Hk]]; [|by apply Hok]. split; [done|].
  destruct (Hok _ _ He) as (_ & Hkey & Hidwf). unfold ee_id in Hid. by rewrite Hid.
Qed.

Lemma devices_keyed_same o x :
  devices_keyed o → dev_view <$> o_devices x = dev_view <$> o_devices o → devices_keyed x.
Proof.
  intros Hk Hd key [dev Hdev]. apply Hk.
  assert (is_Some ((dev_view <$> o_devices o) !! key)) as Hs.
  { rewrite <-Hd, lookup_fmap, Hdev. by eexists. }
  by rewrite lookup_fmap, fmap_is_Some in Hs.
Qed.

Lemma wire_ok_same key ee ee' o x :
  wire_ok o → o_elements o !! key = Some ee → ee_id ee' = ee_id ee →
  o_elements x = <[key := ee']> (o_elements o) →
  dev_view <$> o_devices x = dev_view <$> o_devices o →
  (∀ i, line_subs (o_lines x) i = line_subs (o_lines o) i) → wire_ok x.
Proof.
  intros [Hkeyed Hok] He Hid Hx Hd Hl.
  split; [by apply (devices_keyed_same o)|]. intros k e Hk.
  assert (∃ e0, o_elements o !! k = Some e0 ∧ ee_id e = ee_id e0) as (e0 & He0 & Heq).
  { rewrite Hx, lookup_insert_Some in Hk. destruct Hk as [[<- <-]|[_ Hk]]; eauto. }
  destruct (Hok _ _ He0) as (i & name & subs & Hv & Hs & Hin).
  exists i, name, subs. rewrite Hl. split_and!; [|done|done].
  rewrite <-lookup_fmap, Hd, lookup_fmap, Heq. done.
Qed.

Lemma entry_next_wf ee k s' fc' hooks :
  element_wf (ee_fsm ee) → entry_spec ee k = Some (s', fc', hooks) →
  element_wf (ee_fsm (entry_next ee k s' fc')).
Proof.
  intros Hwf Hsp. unfold entry_spec in Hsp.
  pose proof (element_wf_dispatch (ee_fsm ee) (event k (ee_id ee)) Hwf) as Hwf'.
  rewrite ElementFsm_dispatch_spec in Hwf' by done. cbn in Hwf'.
  unfold ee_state in Hsp. by rewrite Hsp in Hwf'.
Qed.

(** The state a change leaves for the parent to hear of. *)
Definition changed ee ee' (lpu : bool) o : Orch D :=
  let o := {| o with o_bus := applyStatus_element (ee_path ee) (ee_state ee') true (o_bus o) |} in
  if lpu then pollOnChange (ee_id ee) (ee_state ee) (ee_state ee') o else o.

Lemma changed_form ee ee' lpu o : ∃ lp rt dv hal,
  changed ee ee' lpu o = {| o with
    o_bus := applyStatus_element (ee_path ee) (ee_state ee') true (o_bus o);
    o_loop := lp; o_retryTimers := rt; o_devices := dv; o_hal := hal |} ∧
  dev_view <$> dv = dev_view <$> o_devices o ∧ hs_lines hal = hs_lines (o_hal o).
Proof.
  unfold changed. destruct lpu.
  - destruct (pollOnChange_form (ee_id ee) (ee_state ee) (ee_state ee')
      {| o with o_bus := applyStatus_element (ee_path ee) (ee_state ee') true (o_bus o) |})
      as (lp & rt & dv & hal & -> & Hd & Hl). by eexists _, _, _, _.
  - by exists (o_loop o), (o_retryTimers o), (o_devices o), (o_hal o).
Qed.

Lemma dispatch_static key ev o : static_ok o → static_ok (element_dispatch key ev o).
Proof.
  intros [Hel Hwi Hch Hbus Hd].
  destruct (o_elements o !! key) as [ee|] eqn:He; [|by unfold element_dispatch; rewrite He].
  destruct (Hel _ _ He) as (Hwf & Hkey & Hidwf).
  rewrite (element_dispatch_form key ev o ee) by done.
  destruct (entry_spec ee (kind ev)) as [[[s' fc'] hooks]|] eqn:Hsp; [|done].
  pose proof (entry_next_wf _ _ _ _ _ Hwf Hsp) as Hwf'.
  set (ee' := entry_next ee (kind ev) s' fc') in *. cbn zeta.
  destruct (hooks_form (ee_id ee) (ee_path ee) (ee_isLpu ee) _ _ _ _ _ _
    {| o with o_elements := <[key := ee']> (o_elements o) |} Hsp) as (lp & bt & ->).
  case_decide as Hs.
  - assert (o_bus o = if decide (ee_state ee' = ee_state ee) then o_bus o
      else applyStatus_element (ee_path ee) (ee_state ee') true (o_bus o)) as Hbe
      by by rewrite decide_True.
    destruct (bus_ok_element key ee ee' (o_bus o) o He eq_refl Hd Hbus Hbe) as [Hb Hp].
    split; cbn.
    + by eapply (elements_ok_insert key ee ee').
    + by eapply (wire_ok_same key ee ee' o).
    + by eapply (children_ok_same key ee ee' o).
    + eapply same_fsms_bus; [|exact Hb]. done.
    + eapply (paths_distinct_same o); [|done]. intros w. rewrite <-(Hp w). by destruct w.
  - rewrite onElementStateChange_split.
    match goal with |- context [tell_parent _ _ _ ?z] => set (x := z) end.
    assert (∃ lp rt dv hal, x = {| o with o_elements := <[key := ee']> (o_elements o);
      o_bus := applyStatus_element (ee_path ee) (ee_state ee') true (o_bus o);
      o_loop := lp; o_bootTimers := bt; o_retryTimers := rt; o_devices := dv; o_hal := hal |} ∧
      dev_view <$> dv = dev_view <$> o_devices o ∧ hs_lines hal = hs_lines (o_hal o))
      as (lp' & rt & dv & hal & Hx & Hdv & Hl).
    { destruct (changed_form ee ee' (ee_isLpu ee)
        {| o with o_elements := <[key := ee']> (o_elements o); o_loop := lp; o_bootTimers := bt |})
        as (lp' & rt & dv & hal & Hc & ? & ?). exists lp', rt, dv, hal.
      split; [exact Hc|done]. }
    assert (same_fsms {| o with o_elements := <[key := ee']> (o_elements o);
      o_bus := applyStatus_element (ee_path ee) (ee_state ee') true (o_bus o) |} x) as Hsame
      by by rewrite Hx.
    destruct (tell_parent_ok key ee ee' o x) as (Hch' & Hbus' & Hp'); try done.
    change (ee_state ee') with s' in *.
    destruct (tell_parent_frame (ee_id ee) (ee_isLpu ee) s' x) as (ms & tr & b & Hy).
    split; try done.
    + rewrite Hy, Hx. by eapply (elements_ok_insert key ee ee').
    + rewrite Hy, Hx. eapply (wire_ok_same key ee ee' o); try done.
      unfold o_lines; cbn. by rewrite Hl.
    + by eapply (paths_distinct_same o).
Qed.
End Dispatch.

(** ** Deadlines follow the states *)

Section Deadlines.
Context `{Env} {D : Type} `{!IDevice D, !IDeviceLaws D}.
Implicit Types (o x : Orch D).

(** The map of boot deadlines after each timer call. *)
Lemma startBoot_effect id o :
  (o_bootTimers (startBootTimer_ id o) = o_bootTimers o ∧ ∃ n, env_addTime n = false) ∨
  ∃ n, o_bootTimers (startBootTimer_ id o) = <[packInstance id := n]> (o_bootTimers o).
Proof.
  unfold startBootTimer_, add_time. destruct (env_addTime _) eqn:Hg; cbn; eauto.
Qed.

Lemma cancelBoot_effect id o :
  o_bootTimers (cancelBootTimer_ id o) = delete (packInstance id) (o_bootTimers o).
Proof.
  unfold cancelBootTimer_. destruct (_ !! _) eqn:Hk; [done|].
  symmetry. by apply delete_id.
Qed.

Lemma scheduleRetry_effect id a o k :
  k ≠ packInstance id →
  o_retryTimers (scheduleTelemetryRetry_ id a o) !! k = o_retryTimers o !! k.
Proof.
  intros Hk. unfold scheduleTelemetryRetry_, add_time.
  assert (o_retryTimers (cancelTelemetryRetry_ id o) !! k = o_retryTimers o !! k) as Hc.
  { unfold cancelTelemetryRetry_. destruct (_ !! packInstance id); [|done].
    cbn. by rewrite lookup_delete_ne. }
  destruct (env_addTime _); cbn; [|done]. by rewrite lookup_insert_ne.
Qed.

Lemma cancelRetry_effect id o :
  o_retryTimers (cancelTelemetryRetry_ id o) = delete (packInstance id) (o_retryTimers o).
Proof.
  unfold cancelTelemetryRetry_. destruct (_ !! _) eqn:Hk; [done|].
  symmetry. by apply delete_id.
Qed.

(** A change of state leaves a retry of the element only in S_ONLINE. *)
Lemma pollOnChange_retry id old neu o :
  (∀ k, k ≠ packInstance id →
     o_retryTimers (pollOnChange id old neu o) !! k = o_retryTimers o !! k) ∧
  (∀ n, o_retryTimers (pollOnChange id old neu o) !! packInstance id = Some n →
     neu = E_Online ∨ old ≠ E_Online ∧ o_retryTimers o !! packInstance id = Some n).
Proof.
  unfold pollOnChange. destruct (_ || _) eqn:Hb.
  - destruct (call_setTelemetryPolling _ _ _) as [[r o1]|] eqn:Hp.
    + apply polling_form in Hp as (dv & hal & -> & _ & _).
      destruct (bool_decide (neu = E_Online)) eqn:Hn; cbn; bool_to_prop.
      * split; [|by left]. intros k Hk. case_match; cbn;
          rewrite ?scheduleRetry_effect; cbn; rewrite ?cancelRetry_effect, ?lookup_delete_ne; done.
      * rewrite cancelRetry_effect. split; [intros; by rewrite lookup_delete_ne|].
        intros n. by rewrite lookup_delete_eq.
    + rewrite cancelRetry_effect. split; [intros; by rewrite lookup_delete_ne|].
      intros n. by rewrite lookup_delete_eq.
  - bool_to_prop. split; [done|]. intros n ?. by right.
Qed.

(** [loop_ok] looks at the loop and the timer maps only. *)
Lemma loop_ok_same xb xr o x :
  loop_ok xb xr o → o_loop x = o_loop o → o_bootTimers x = o_bootTimers o →
  o_retryTimers x = o_retryTimers o → o_pendingResets x = o_pendingResets o →
  loop_ok xb xr x.
Proof. intros [] Hl Hb Hr Hp. by split; rewrite ?Hl, ?Hb, ?Hr, ?Hp. Qed.

Lemma loop_ok_poll xb xr id old neu o :
  loop_ok xb xr o → loop_ok xb xr (pollOnChange id old neu o).
Proof.
  intros Hok. unfold pollOnChange. destruct (_ || _); [|done].
  apply (loop_ok_cancelRetry _ _ id) in Hok.
  destruct (call_setTelemetryPolling _ _ _) as [[r o1]|] eqn:Hp; [|done].
  apply polling_form in Hp as (dv & hal & -> & _ & _).
  assert (loop_ok xb xr {| (cancelTelemetryRetry_ id o) with o_devices := dv; o_hal := hal |})
    by (by eapply loop_ok_same).
  case_match; [by apply loop_ok_scheduleRetry|done].
Qed.

Lemma loop_ok_hooks xb xr id path isLpu s fc k s' fc' hooks o :
  loop_ok xb xr o → element_spec s fc k = Some (s', fc', hooks) →
  (s ≠ E_Powered → o_bootTimers o !! packInstance id = None) →
  loop_ok xb xr (foldl (run_element_hook id path isLpu) o hooks).
Proof.
  intros Hok Hsp Hnone. apply element_spec_hooks in Hsp.
  destruct Hsp as [(-> & ? & _)|[(-> & _)|[(-> & _)|(-> & _)]]]; cbn; [| |done|done].
  - apply loop_ok_startBoot; auto.
  - by apply loop_ok_cancelBoot.
Qed.

(** Boot and retry deadlines after a transition that is not an expiry. *)
Lemma boot_ok_next g key ee ee' o x fc k fc' hooks id path isLpu y :
  boot_ok g o → (g → ∀ n, env_addTime n = true) → k ≠ TBootExpired →
  o_elements o !! key = Some ee → packInstance id = key →
  element_spec (ee_state ee) fc k = Some (ee_state ee', fc', hooks) →
  o_bootTimers y = o_bootTimers o →
  o_bootTimers x = o_bootTimers (foldl (run_element_hook id path isLpu) y hooks) →
  o_elements x = <[key := ee']> (o_elements o) →
  (∀ k, k ≠ key → o_retryTimers x !! k = o_retryTimers o !! k) →
  (∀ n, o_retryTimers x !! key = Some n → ee_state ee' = E_Online ∧ ee_isLpu ee' = true ∨
     (ee_state ee ≠ E_Online ∨ ee_isLpu ee = false) ∧ o_retryTimers o !! key = Some n) →
  boot_ok g x.
Proof.
  intros [Ha Hg Hr] Hgr Hk He Hid Hsp Hyb Hb Hel Hrt Hrk.
  apply element_spec_hooks in Hsp.
  assert (∀ k e, k ≠ key → o_elements x !! k = Some e ↔ o_elements o !! k = Some e) as Hother.
  { intros k0 e Hk0. by rewrite Hel, lookup_insert_ne. }
  assert (o_elements x !! key = Some ee') as Hnew by by rewrite Hel, lookup_insert_eq.
  assert ((∀ k, k ≠ key → o_bootTimers x !! k = o_bootTimers o !! k) ∧
    (is_Some (o_bootTimers x !! key) → ee_state ee' = E_Powered) ∧
    (g → ee_state ee' = E_Powered → is_Some (o_bootTimers x !! key))) as (Hbk & Hbn & Hbg).
  { assert (ee_state ee ≠ E_Powered → o_bootTimers o !! key = None) as Hnone.
    { intros Hne. apply eq_None_not_Some. intros [n Hn].
      destruct (Ha _ _ Hn) as (e & He' & ?). congruence. }
    destruct Hsp as [(-> & Hne & Hpw)|[(-> & Hpw & Hne)|[(-> & _ & Hne & Hne')|(-> & -> & _)]]];
      cbn in Hb; [| | |done].
    - destruct (startBoot_effect id y) as [[Hsame [n Hn]]|[n Hins]].
      + rewrite Hb, Hsame, Hyb. split_and!; [done|done|].
        intros Hgg. rewrite (Hgr Hgg) in Hn. done.
      + rewrite Hb, Hins, Hyb, Hid. split_and!; [|done|].
        * intros k0 Hk0. by rewrite lookup_insert_ne.
        * intros _ _. by rewrite lookup_insert_eq.
    - rewrite Hb, cancelBoot_effect, Hyb, Hid. split_and!; [|by intros [? ?%lookup_delete_Some]; tauto|done].
      intros k0 Hk0. by rewrite lookup_delete_ne.
    - rewrite Hb, Hyb, Hnone by done. split_and!; [done|by intros [? ?]|done]. }
  split.
  - intros k0 n Hn. destruct (decide (k0 = key)) as [->|Hk0].
    + exists ee'. split; [done|]. apply Hbn. by eexists.
    + rewrite Hbk in Hn by done. destruct (Ha _ _ Hn) as (e & ? & ?). exists e.
      by rewrite Hother.
  - intros Hgg k0 e Hk0 Hs. destruct (decide (k0 = key)) as [->|Hne].
    + rewrite Hnew in Hk0. injection Hk0 as <-. by apply Hbg.
    + rewrite Hbk by done. eapply Hg; [done|by apply Hother|done].
  - intros k0 n Hn. destruct (decide (k0 = key)) as [->|Hk0].
    + exists ee'. split; [done|]. destruct (Hrk _ Hn) as [?|[Hno Hold]]; [done|].
      destruct (Hr _ _ Hold) as (e & He' & ? & ?). destruct Hno; congruence.
    + rewrite Hrt in Hn by done. destruct (Hr _ _ Hn) as (e & ? & ?). exists e.
      by rewrite Hother.
Qed.
End Deadlines.

(** ** Dispatches and the whole invariant *)

Section DispatchInv.
Context `{Env} {D : Type} `{!IDevice D, !IDeviceLaws D}.
Implicit Types (o x : Orch D).

Lemma boot_none g o key ee :
  boot_ok g o → o_elements o !! key = Some ee → ee_state ee ≠ E_Powered →
  o_bootTimers o !! key = None.
Proof.
  intros [Ha _ _] He Hne. apply eq_None_not_Some. intros [n Hn].
  destruct (Ha _ _ Hn) as (e & He' & ?). congruence.
Qed.

Lemma dispatch_inv g xb xr key ev o :
  orch_inv g xb xr o → (g → ∀ n, env_addTime n = true) → kind ev ≠ TBootExpired →
  orch_inv g xb xr (element_dispatch key ev o).
Proof.
  intros [Hst [Hlo Hbo]]%orch_inv_static Hgr Hk. apply orch_inv_static.
  split; [by apply dispatch_static|]. destruct Hst as [Hel _ _ _ _].
  destruct (o_elements o !! key) as [ee|] eqn:He; [|by unfold element_dispatch; rewrite He].
  destruct (Hel _ _ He) as (_ & Hkey & Hidwf). fold (ee_id ee) in Hkey.
  rewrite (element_dispatch_form key ev o ee) by done.
  destruct (entry_spec ee (kind ev)) as [[[s' fc'] hooks]|] eqn:Hsp; [|done].
  unfold entry_spec in Hsp. set (ee' := entry_next ee (kind ev) s' fc'). cbn zeta.
  set (o0 := {| o with o_elements := <[key := ee']> (o_elements o) |}).
  assert (loop_ok xb xr (foldl (run_element_hook (ee_id ee) (ee_path ee) (ee_isLpu ee)) o0 hooks))
    as Hl1.
  { eapply loop_ok_hooks; [by apply (loop_ok_same _ _ o)|exact Hsp|].
    intros Hne. rewrite Hkey. by eapply (boot_none g o). }
  pose proof (hooks_form (ee_id ee) (ee_path ee) (ee_isLpu ee) _ _ _ _ _ _ o0 Hsp)
    as (lp & bt & Hform).
  set (o1 := foldl (run_element_hook (ee_id ee) (ee_path ee) (ee_isLpu ee)) o0 hooks) in *.
  case_decide as Hs.
  - split; [done|].
    eapply (boot_ok_next g key ee ee' o o1 _ (kind ev) fc' hooks (ee_id ee) _ _ o0);
      try done; rewrite ?Hform; cbn; try done.
    intros n Hn. destruct (bo_retry _ _ Hbo _ _ Hn) as (e & He' & ? & ?).
    rewrite He in He'. injection He' as <-. left. split; [congruence|done].
  - rewrite onElementStateChange_split.
    match goal with |- context [tell_parent _ _ _ ?z] =>
      change z with (changed ee ee' (ee_isLpu ee) o1) end.
    destruct (tell_parent_frame (ee_id ee) (ee_isLpu ee) s' (changed ee ee' (ee_isLpu ee) o1))
      as (ms & tr & b & ->).
    destruct (changed_form ee ee' (ee_isLpu ee) o1) as (lp' & rt & dv & hal & Hch & _ & _).
    split.
    + apply (loop_ok_same _ _ (changed ee ee' (ee_isLpu ee) o1)); [|reflexivity..].
      unfold changed. destruct (ee_isLpu ee); [apply loop_ok_poll|];
        by apply (loop_ok_same _ _ o1).
    + eapply (boot_ok_next g key ee ee' o _ _ (kind ev) fc' hooks (ee_id ee) (ee_path ee)
        (ee_isLpu ee) o0); try done; cbn.
      * by rewrite Hch.
      * by rewrite Hch, Hform.
      * intros k0 Hk0. unfold changed. destruct (ee_isLpu ee); [|by rewrite Hform].
        rewrite (proj1 (pollOnChange_retry _ _ _ _)) by congruence. by rewrite Hform.
      * intros n. unfold changed. destruct (ee_isLpu ee) eqn:Hlpu.
        -- intros Hn. rewrite <-Hkey in Hn.
           apply (proj2 (pollOnChange_retry _ _ _ _)) in Hn as [Hn|[Hn Hr]]; [by left|right].
           split; [by left|]. rewrite Hkey, Hform in Hr. exact Hr.
        -- rewrite Hform; cbn. intros Hn. right. split; [by right|done].
Qed.
End DispatchInv.

(** ** Completions, edges and expiries *)

Section Events.
Context `{Env} {D : Type} `{!IDevice D, !IDeviceLaws D}.
Implicit Types (o x : Orch D).

(** What the invariant looks at on the side of FSMs and devices. *)
Lemma static_ok_same o x :
  static_ok o → same_fsms o x → dev_view <$> o_devices x = dev_view <$> o_devices o →
  (∀ i, line_subs (o_lines x) i = line_subs (o_lines o) i) → static_ok x.
Proof.
  intros [Hel Hwi Hch Hbus Hd] Hsame Hdv Hl. pose proof Hsame as (He & _ & _ & _ & _).
  split.
  - intros key ee. rewrite He. apply Hel.
  - destruct Hwi as [Hkeyed Hwi]. split; [by apply (devices_keyed_same o)|].
    intros key ee. rewrite He. intros (i & name & subs & Hv & Hs & Hin)%Hwi.
    exists i, name, subs. rewrite Hl. split_and!; [|done|done].
    by rewrite <-lookup_fmap, Hdv, lookup_fmap.
  - by eapply same_fsms_children.
  - by eapply same_fsms_bus.
  - eapply (paths_distinct_same o); [|done]. intros w. by eapply same_fsms_path.
Qed.

Lemma run_callback_form cb out o : ∃ ts rs,
  run_callback cb out o = {| o with o_trackers := ts; o_replies := rs |}.
Proof.
  destruct cb as [req|t d]; cbn.
  - by eexists (o_trackers o), _.
  - unfold tracker_add. destruct (o_trackers o !! t) as [tr|].
    + destruct (tr_callback tr); [case_decide|]; first [by eexists _, _|by eexists _, (o_replies o)].
    + exists (o_trackers o), (o_replies o). by destruct o.
Qed.

Lemma boot_ok_same g o x :
  boot_ok g o → o_elements x = o_elements o → o_bootTimers x = o_bootTimers o →
  o_retryTimers x = o_retryTimers o → boot_ok g x.
Proof. intros [] He Hb Hr. by split; rewrite ?He, ?Hb, ?Hr. Qed.

(** An invariant state with other replies. *)
Lemma run_callback_inv g xb xr cb out o :
  orch_inv g xb xr o → orch_inv g xb xr (run_callback cb out o).
Proof.
  destruct (run_callback_form cb out o) as (ts & rs & ->).
  rewrite !orch_inv_static. intros (Hst & Hlo & Hbo).
  split_and!; [by apply (static_ok_same o)|by apply (loop_ok_same _ _ o)|by apply (boot_ok_same _ o)].
Qed.

Lemma completePending_form key out o : ∃ lp pd ts rs,
  completePending_ key out o = {| o with o_loop := lp; o_pendingResets := pd;
    o_trackers := ts; o_replies := rs |} ∧ pd = delete key (o_pendingResets o).
Proof.
  unfold completePending_. destruct (o_pendingResets o !! key) as [p|] eqn:Hp.
  - match goal with |- context [run_callback ?c ?u ?x] =>
      destruct (run_callback_form c u x) as (ts & rs & ->) end. by eexists _, _, _, _.
  - exists (o_loop o), (o_pendingResets o), (o_trackers o), (o_replies o).
    split; [by destruct o|]. symmetry. by apply delete_id.
Qed.

Lemma completePending_inv g xb xr key out o :
  orch_inv g xb xr o → orch_inv g xb xr (completePending_ key out o).
Proof.
  intros Hinv. unfold completePending_.
  destruct (o_pendingResets o !! key) as [p|] eqn:Hp; [|done]. apply run_callback_inv.
  revert Hinv. rewrite !orch_inv_static. intros (Hst & Hlo & Hbo).
  split_and!; [by apply (static_ok_same o)| |by apply (boot_ok_same _ o)].
  destruct Hlo as [Hn Hb Hr Hs].
  assert ((pr_deadline <$> o_pendingResets o) !! key = Some (pr_deadline p)) as Hk
    by by rewrite lookup_fmap, Hp.
  destruct (to_entry _ _ _ _ Hs _ _ Hk) as ([? ? []] & Hsrc & Ho & _); try done.
  split; cbn.
  - intros k ?. rewrite lookup_delete. case_decide; auto.
  - by eapply timers_ok_unref_other.
  - by eapply timers_ok_unref_other.
  - rewrite fmap_delete. by apply timers_ok_cancel.
Qed.

Lemma emit_inv g xb xr ev o :
  orch_inv g xb xr o → (g → ∀ n, env_addTime n = true) → kind ev ≠ TBootExpired →
  orch_inv g xb xr (emit ev o).
Proof.
  intros Hinv Hg Hk. apply (dispatch_inv _ _ _ (packInstance (target ev)) ev) in Hinv; [|done..].
  unfold emit. case_decide; [|done]. case_match; [by apply completePending_inv|done].
Qed.

(** A call that rewrites cached levels leaves the subscribers. *)
Lemma line_subs_setCached b i (h : LineHeap LineCallback) j :
  line_subs (SharedLine_setCachedSilently b i h) j = line_subs h j.
Proof.
  unfold line_subs, SharedLine_setCachedSilently. rewrite line_at_update.
  case_decide; [|done]. by destruct (line_at h j).
Qed.

Lemma with_hal_inv g xb xr hs o :
  (∀ i, line_subs (hs_lines hs) i = line_subs (o_lines o) i) →
  orch_inv g xb xr o → orch_inv g xb xr {| o with o_hal := hs |}.
Proof.
  intros Hl. rewrite !orch_inv_static. intros (Hst & Hlo & Hbo).
  split_and!; [by apply (static_ok_same o)|by apply (loop_ok_same _ _ o)|by apply (boot_ok_same _ o)].
Qed.

Lemma call_clear_inv g xb xr key o :
  orch_inv g xb xr o → orch_inv g xb xr (call_clear key o).
Proof.
  unfold call_clear. destruct (o_devices o !! key) as [dev|]; [|done].
  apply with_hal_inv. intros i. rewrite law_clear. destruct (dev_bcLine dev); [|done].
  apply line_subs_setCached.
Qed.

Lemma call_subscriber_inv g xb xr cb b o :
  orch_inv g xb xr o → (g → ∀ n, env_addTime n = true) →
  orch_inv g xb xr (call_subscriber cb b o).1.
Proof.
  intros Hinv Hg. destruct cb as [key|key]; cbn;
    (destruct (o_devices o !! key) as [dev|]; [|done]).
  - destruct (dev_sink dev); [|done]. cbn. unfold emitPowerGoodEdge. destruct b.
    + case_match; repeat apply emit_inv; done.
    + apply emit_inv; [by apply call_clear_inv|done..].
  - destruct (dev_sink dev); [|done]. cbn. destruct b; by apply emit_inv.
Qed.

Lemma with_lines_inv g xb xr b i o :
  orch_inv g xb xr o →
  orch_inv g xb xr (with_lines (SharedLine_setCachedSilently b i (o_lines o)) o).
Proof. apply with_hal_inv. intros j. apply line_subs_setCached. Qed.

Lemma notifyExternal_inv g xb xr i b o :
  orch_inv g xb xr o → (g → ∀ n, env_addTime n = true) →
  orch_inv g xb xr (notifyExternal i b o).
Proof.
  intros Hinv Hg. unfold notifyExternal, SharedLine_notifyExternal.
  destruct (line_at (o_lines o) i) as [l|]; [|done].
  set (c := if SharedLine_activeLow l then negb b else b).
  rewrite notify_runs_snapshot. apply (with_lines_inv _ _ _ c i) in Hinv.
  revert Hinv. generalize (with_lines (SharedLine_setCachedSilently c i (o_lines o)) o) as x.
  induction ((subs_ (sl_subs l)).*2) as [|cb cbs IH]; intros x Hx; cbn; [done|].
  apply IH. by apply call_subscriber_inv.
Qed.

Lemma tryRecover_inv g xb xr id o :
  orch_inv g xb xr o → (g → ∀ n, env_addTime n = true) →
  orch_inv g xb xr (tryRecoverStickyBc_ id o).2.
Proof.
  intros Hinv Hg. unfold tryRecoverStickyBc_.
  destruct (o_devices o !! packInstance id) as [dev|]; [|done]. case_decide; [done|].
  destruct (readLineLevel _) as [e|]; [|done]. unfold tryRecoverStickyBootComplete.
  case_match; [|done]. unfold injectBootCompleteElectrical.
  destruct (o_devices o !! packInstance id) as [dev'|]; [|done].
  destruct (dev_bcLine dev'); [|done]. by apply notifyExternal_inv.
Qed.
End Events.

(** ** The recovered boot-complete reaches its element *)

Section Recovery.
Context `{Env} {D : Type} `{!IDevice D, !IDeviceLaws D}.
Implicit Types (o x : Orch D).

(** The elements after a dispatch. *)
Lemma dispatch_elements key ev o :
  elements_ok o →
  o_elements (element_dispatch key ev o) =
    match o_elements o !! key ≫= λ ee, (λ r, (ee, r)) <$> entry_spec ee (kind ev) with
    | Some (ee, (s', fc', _)) => <[key := entry_next ee (kind ev) s' fc']> (o_elements o)
    | None => o_elements o
    end.
Proof.
  intros Hel. destruct (o_elements o !! key) as [ee|] eqn:He;
    [|by unfold element_dispatch; rewrite He].
  rewrite (element_dispatch_form key ev o ee) by done. cbn.
  destruct (entry_spec ee (kind ev)) as [[[s' fc'] hooks]|] eqn:Hsp; [|done]. cbn.
  destruct (hooks_form (ee_id ee) (ee_path ee) (ee_isLpu ee) _ _ _ _ _ _
    {| o with o_elements := <[key := entry_next ee (kind ev) s' fc']> (o_elements o) |} Hsp)
    as (lp & bt & ->).
  case_decide; [done|]. rewrite onElementStateChange_split.
  match goal with |- context [tell_parent ?a ?b ?c ?z] =>
    destruct (tell_parent_frame a b c z) as (ms & tr & bs & ->) end. cbn.
  destruct (ee_isLpu ee); [|done].
  match goal with |- context [pollOnChange ?a ?b ?c ?z] =>
    destruct (pollOnChange_form a b c z) as (? & ? & ? & ? & -> & _) end. done.
Qed.

Lemma emit_elements ev o :
  elements_ok o → o_elements (emit ev o) = o_elements (element_dispatch (packInstance (target ev)) ev o).
Proof.
  intros Hel. unfold emit. case_decide; [|done]. case_match; [|done].
  match goal with |- context [completePending_ ?k ?r ?z] =>
    destruct (completePending_form k r z) as (? & ? & ? & ? & -> & _) end. done.
Qed.

(** On its way up: in S_POWERED or S_ONLINE. *)
Definition booting (key : Z) (online : bool) o : Prop :=
  elements_ok o ∧ ∃ ee, o_elements o !! key = Some ee ∧
    (ee_state ee = E_Online ∨ online = false ∧ ee_state ee = E_Powered).

Lemma elements_ok_dispatch key ev o : elements_ok o → elements_ok (element_dispatch key ev o).
Proof.
  intros Hel k e. rewrite dispatch_elements by done.
  destruct (o_elements o !! key) as [ee|] eqn:He; cbn; [|apply Hel].
  destruct (entry_spec ee (kind ev)) as [[[s' fc'] hooks]|] eqn:Hsp; cbn; [|apply Hel].
  rewrite lookup_insert_Some. intros [[<- <-]|[_ Hk]]; [|by apply Hel].
  destruct (Hel _ _ He) as (Hwf & Hkey & Hid).
  split; [by eapply entry_next_wf|done].
Qed.

Lemma booting_emit key b ev o :
  booting key b o → kind ev = PgHi ∨ kind ev = BcHi →
  booting key b (emit ev o) ∧
  (kind ev = BcHi → packInstance (target ev) = key → booting key true (emit ev o)).
Proof.
  intros (Hel & ee & He & Hs) Hk.
  assert (elements_ok (emit ev o)) as Hel'.
  { intros k e. rewrite emit_elements by done. by apply elements_ok_dispatch. }
  assert (∀ b', (∃ ee', o_elements (element_dispatch (packInstance (target ev)) ev o) !! key = Some ee' ∧
    (ee_state ee' = E_Online ∨ b' = false ∧ ee_state ee' = E_Powered)) →
    booting key b' (emit ev o)) as Hgoal.
  { intros b' Hx. split; [done|]. by rewrite emit_elements. }
  rewrite (dispatch_elements _ _ _ Hel) in Hgoal.
  destruct (decide (packInstance (target ev) = key)) as [Htk|Htk].
  - rewrite Htk, He in Hgoal. cbn in Hgoal. unfold entry_spec in Hgoal.
    split; [|intros Hbc _]; apply Hgoal;
      destruct Hk as [Hk|Hk]; rewrite Hk; try congruence;
      destruct Hs as [Hs|[-> Hs]]; rewrite Hs; cbn; rewrite ?lookup_insert_eq;
      eexists; (split; [done|]); cbn; auto.
  - split; [|done]. apply Hgoal. destruct (_ ≫= _) as [[e0 [[s' fc'] ?]]|]; [|eauto].
    rewrite lookup_insert_ne by done. eauto.
Qed.

Lemma booting_subscriber key b cb o :
  booting key b o → booting key b (call_subscriber cb true o).1.
Proof.
  intros Hb. destruct cb as [k|k]; cbn; (destruct (o_devices o !! k) as [dev|]; [|done]);
    (destruct (dev_sink dev); [|done]); cbn.
  - unfold emitPowerGoodEdge. case_match; [|by apply booting_emit; auto].
    apply booting_emit; [|by auto]. apply booting_emit; auto.
  - apply booting_emit; auto.
Qed.

(** The dispatches keep the devices' views. *)
Definition wired_to (key : Z) (id : InstanceId) o : Prop :=
  ∃ i name, dev_view <$> o_devices o !! key = Some (id, true, i, name).

Lemma dispatch_views key ev o :
  elements_ok o →
  dev_view <$> o_devices (element_dispatch key ev o) = dev_view <$> o_devices o.
Proof.
  intros Hel. destruct (o_elements o !! key) as [ee|] eqn:He;
    [|by unfold element_dispatch; rewrite He].
  rewrite (element_dispatch_form key ev o ee) by done. cbn.
  destruct (entry_spec ee (kind ev)) as [[[s' fc'] hooks]|] eqn:Hsp; [|done]. cbn.
  destruct (hooks_form (ee_id ee) (ee_path ee) (ee_isLpu ee) _ _ _ _ _ _
    {| o with o_elements := <[key := entry_next ee (kind ev) s' fc']> (o_elements o) |} Hsp)
    as (lp & bt & ->).
  case_decide; [done|]. rewrite onElementStateChange_split.
  match goal with |- context [tell_parent ?a ?b ?c ?z] =>
    destruct (tell_parent_frame a b c z) as (ms & tr & bs & ->) end. cbn.
  destruct (ee_isLpu ee); [|done].
  match goal with |- context [pollOnChange ?a ?b ?c ?z] =>
    destruct (pollOnChange_form a b c z) as (? & ? & ? & ? & -> & Hv & _) end. done.
Qed.

Lemma emit_views ev o :
  elements_ok o → dev_view <$> o_devices (emit ev o) = dev_view <$> o_devices o.
Proof.
  intros Hel. rewrite <-(dispatch_views (packInstance (target ev)) ev o Hel).
  unfold emit. case_decide; [|done]. case_match; [|done].
  match goal with |- context [completePending_ ?k ?r ?z] =>
    destruct (completePending_form k r z) as (? & ? & ? & ? & -> & _) end. done.
Qed.

Lemma subscriber_views key b cb o :
  booting key b o →
  dev_view <$> o_devices (call_subscriber cb true o).1 = dev_view <$> o_devices o.
Proof.
  intros Hb. destruct cb as [k|k]; cbn; (destruct (o_devices o !! k) as [dev|]; [|done]);
    (destruct (dev_sink dev); [|done]); cbn.
  - unfold emitPowerGoodEdge.
    pose proof (booting_emit key b (event PgHi (dev_id dev)) o Hb ltac:(by left)) as [[Hel _] _].
    destruct Hb as [Hel0 _]. case_match; rewrite ?emit_views; done.
  - destruct Hb as [Hel _]. by apply emit_views.
Qed.

(** Notifying a rising level to subscribers that include the element's. *)
Lemma notify_booting key id b cbs o :
  booting key b o → wired_to key id o → packInstance id = key →
  (b = true ∨ BcCallback key ∈ cbs) →
  booting key true (foldl (λ x cb, (call_subscriber cb true x).1) o cbs).
Proof.
  intros Hb Hw Hid Hin. revert b o Hb Hw Hin.
  induction cbs as [|cb cbs IH]; intros b o Hb Hw Hin; cbn.
  - destruct Hin as [->|?%not_elem_of_nil]; done.
  - assert (wired_to key id (call_subscriber cb true o).1) as Hw'.
    { destruct Hw as (i & name & Hv). exists i, name.
      by rewrite <-lookup_fmap, (subscriber_views key b), lookup_fmap. }
    destruct (decide (cb = BcCallback key)) as [->|Hne].
    + apply (IH true); [|done|by left].
      destruct Hw as (i & name & Hv). cbn.
      destruct (o_devices o !! key) as [dev|]; [|done]. cbn in Hv.
      assert (dev_id dev = id ∧ dev_sink dev = true) as [Hd Hsk]
        by (unfold dev_view in Hv; by simplify_eq).
      rewrite Hsk. cbn.
      destruct (booting_emit key b (event BcHi (dev_id dev)) o Hb ltac:(by right)) as [_ Hon].
      apply Hon; [done|]. cbn. by rewrite Hd.
    + apply (IH b); [by apply booting_subscriber|done|]. destruct Hin as [?|Hin]; [by left|right].
      set_solver.
Qed.

(** When the re-read finds boot-complete asserted, the element is online. *)
Lemma tryRecover_online g xb xr key ee o :
  orch_inv g xb xr o → o_elements o !! key = Some ee →
  ee_state ee = E_Powered ∨ ee_state ee = E_Online →
  let '(recovered, o') := tryRecoverStickyBc_ (ee_id ee) o in
  if recovered then booting key true o' else o' = o.
Proof.
  intros Hinv He Hs. pose proof (oi_elements _ _ _ _ Hinv) as Hel.
  destruct (Hel _ _ He) as (_ & Hkey & _). fold (ee_id ee) in Hkey.
  destruct (proj2 (oi_wired _ _ _ _ Hinv) _ _ He) as (i & name & subs & Hv & Hsub & Hin).
  unfold tryRecoverStickyBc_. rewrite Hkey.
  destruct (o_devices o !! key) as [dev|] eqn:Hdev; [|done].
  assert (dev_bcLine dev = Some i) as Hbc by (unfold dev_view in Hv; cbn in Hv; by simplify_eq).
  case_decide; [done|]. destruct (readLineLevel _) as [e|]; [|done].
  unfold tryRecoverStickyBootComplete, bootCompleteLogicallyAsserted.
  rewrite law_activeLow, Hbc. cbn.
  unfold line_subs in Hsub. fold (o_lines o).
  destruct (line_at (o_lines o) i) as [l|] eqn:Hl; [|done]. cbn in Hsub. injection Hsub as <-.
  destruct (if SharedLine_activeLow l then negb e else e) eqn:Hlog; [|done].
  unfold injectBootCompleteElectrical. rewrite Hdev, Hbc. cbn.
  unfold notifyExternal, SharedLine_notifyExternal. rewrite Hl.
  rewrite Hlog, notify_runs_snapshot.
  apply (notify_booting key (ee_id ee) false); [|by exists (Some i), name; cbn; rewrite Hdev|done|by right].
  split; [exact Hel|]. exists ee. cbn. split; [done|]. destruct Hs; auto.
Qed.
End Recovery.

(** ** Every call keeps the invariant *)

Section Calls.
Context `{Env} {D : Type} `{!IDevice D, !IDeviceLaws D}.
Implicit Types (o x : Orch D).

Lemma cancelRetry_inv g xb xr id o :
  orch_inv g xb xr o → orch_inv g xb xr (cancelTelemetryRetry_ id o).
Proof.
  rewrite !orch_inv_static. intros (Hst & Hlo & Hbo).
  pose proof (cancelRetry_effect id o) as Hrt.
  pose proof (loop_ok_cancelRetry _ _ id o Hlo) as Hl.
  destruct (cancelRetry_form id o) as (lp & rt & Heq). rewrite Heq in Hrt, Hl |- *. cbn in Hrt.
  split_and!; [by apply (static_ok_same o)|done|]. destruct Hbo as [Ha Hg Hr].
  split; [exact Ha|exact Hg|]. cbn. rewrite Hrt. intros k n [_ Hk]%lookup_delete_Some. by eapply Hr.
Qed.

Lemma scheduleRetry_inv g xb xr id a o ee :
  orch_inv g xb xr o → o_elements o !! packInstance id = Some ee →
  ee_state ee = E_Online → ee_isLpu ee = true →
  orch_inv g xb xr (scheduleTelemetryRetry_ id a o).
Proof.
  rewrite !orch_inv_static. intros (Hst & Hlo & Hbo) He Hs Hlpu.
  pose proof (loop_ok_scheduleRetry _ _ id a o Hlo) as Hl.
  pose proof (scheduleRetry_effect id a o) as Hk.
  destruct (scheduleRetry_form id a o) as (lp & rt & Heq). rewrite Heq in Hl, Hk |- *. cbn in Hk.
  split_and!; [by apply (static_ok_same o)|done|]. destruct Hbo as [Ha Hg Hr].
  split; [exact Ha|exact Hg|]. cbn. intros k n Hn.
  destruct (decide (k = packInstance id)) as [->|Hne]; [eauto|].
  rewrite Hk in Hn by done. by eapply Hr.
Qed.

Lemma polling_inv g xb xr b key o r o' :
  orch_inv g xb xr o → call_setTelemetryPolling b key o = Some (r, o') →
  orch_inv g xb xr o' ∧ o_elements o' = o_elements o.
Proof.
  intros Hinv (dv & hal & -> & Hv & Hl)%polling_form. split; [|done].
  revert Hinv. rewrite !orch_inv_static. intros (Hst & Hlo & Hbo).
  split_and!; [|by apply (loop_ok_same _ _ o)|by apply (boot_ok_same _ o)].
  apply (static_ok_same o); try done. intros i. unfold o_lines; cbn. by rewrite Hl.
Qed.

Lemma handleRetry_inv g xb xr id a o ee :
  orch_inv g xb xr o → o_elements o !! packInstance id = Some ee → ee_isLpu ee = true →
  orch_inv g xb xr (handleTelemetryRetry_ id a o).
Proof.
  intros Hinv He Hlpu. unfold handleTelemetryRetry_. rewrite He.
  case_decide as Hs; [done|].
  destruct (call_setTelemetryPolling _ _ _) as [[r o1]|] eqn:Hp; [|done].
  destruct (polling_inv _ _ _ _ _ _ _ _ Hinv Hp) as [Hinv1 Hel].
  case_decide; [|done]. case_match; [|done].
  eapply scheduleRetry_inv; [done|by rewrite Hel|done|done].
Qed.

(** The expiry of a boot deadline that nothing recovers. *)
Lemma expired_inv g xr key id ee n src o :
  orch_inv g (Some key) xr o → o_elements o !! key = Some ee → ee_state ee = E_Powered →
  o_bootTimers o !! key = Some n → loop_sources (o_loop o) !! n = Some src →
  ts_enabled src = false →
  let y := element_dispatch key (event TBootExpired id) o in
  orch_inv g None xr {| y with o_bootTimers := delete key (o_bootTimers y) |} ∧
  ∃ ee', o_elements y = <[key := ee']> (o_elements o) ∧ entry_succ ee ee' ∧
    ee_state ee' = E_Fault ∧ ec_faultCode (ef_ctx (ee_fsm ee')) = BootTimeout.
Proof.
  intros Hinv He Hs Hn Hsrc Hdis. cbn zeta. pose proof (oi_elements _ _ _ _ Hinv) as Hel.
  apply orch_inv_static in Hinv as (Hst & Hlo & Hbo).
  apply (dispatch_static key (event TBootExpired id)) in Hst.
  pose proof (dispatch_elements key (event TBootExpired id) o Hel) as Hels.
  assert (entry_spec ee (kind (event TBootExpired id)) = Some (E_Fault, BootTimeout, []))
    as Hsp by (unfold entry_spec; by rewrite Hs).
  revert Hst Hels. rewrite (element_dispatch_form key _ o ee) by done. rewrite He, Hsp.
  set (ee' := entry_next ee (kind (event TBootExpired id)) E_Fault BootTimeout).
  cbn [foldl]. cbv zeta. rewrite decide_False by (by rewrite Hs).
  rewrite onElementStateChange_split.
  match goal with |- context [tell_parent ?a ?b ?c ?z] =>
    assert (∃ ms tr bs, tell_parent a b c z = {| o with o_elements := <[key := ee']> (o_elements o);
      o_modules := ms; o_tray := tr; o_bus := bs |}) as (ms & tr & bs & ->) end.
  { unfold pollOnChange. rewrite Hs. cbn. destruct (ee_isLpu ee);
      match goal with |- context [tell_parent ?a ?b ?c ?z] =>
        destruct (tell_parent_frame a b c z) as (ms & tr & bs & ->) end; by eexists _, _, _. }
  intros Hst _. split; [|by exists ee'].
  apply orch_inv_static. split_and!; [by eapply static_ok_same| |].
  - destruct Hlo as [Hnx Hb Hr Hp]. split; cbn; try done.
    by eapply timers_ok_erase.
  - destruct Hbo as [Ha Hg Hr]. split; cbn.
    + intros k m [Hne Hk]%lookup_delete_Some. rewrite lookup_insert_ne by done. by eapply Ha.
    + intros Hgg k e. rewrite lookup_insert_Some. intros [[<- <-]|[Hne Hk]] Hse; [done|].
      rewrite lookup_delete_ne by done. by eapply Hg.
    + intros k m Hk. destruct (Hr _ _ Hk) as (e & Hke & Hse & ?).
      assert (k ≠ key) by (intros ->; congruence).
      exists e. by rewrite lookup_insert_ne.
Qed.
End Calls.
