(* ===== verification/OrchSteps.v ===== *)
(** * Steps of the orchestrator

    The timers that fire and the requests that arrive keep [orch_inv]; what a
    boot deadline does; the properties of every reachable state. *)

From stdpp Require Import sorting.
From S2P Require Import Prelude Types SubscriberList FsmEngine ElementFsm ModuleFsm TrayFsm.
From S2P Require Import Reporting SubscriberList Hal Lines Drivers Orchestrator Hierarchy.
From S2P Require Import OrchInvariant.

Section Fire.
Context `{Env} {D : Type} `{!IDevice D, !IDeviceLaws D}.
Implicit Types (o x : Orch D).

(** Unreferencing a source that will not fire and that nothing names. *)
Lemma loop_ok_unref_dead o n :
  loop_ok None None o →
  (∀ src, loop_sources (o_loop o) !! n = Some src → ts_enabled src = false) →
  loop_ok None None (source_unref n o).
Proof.
  intros [Hn Hb Hr Hp] Hdead.
  assert (∀ own m, timers_ok own None m (loop_sources (o_loop o)) → ∀ key, m !! key ≠ Some n)
    as Hnone.
  { intros own m [_ Hm] key Hk. destruct (Hm _ _ Hk) as (src & Hs & _ & Hen).
    rewrite (Hdead _ Hs) in Hen. by specialize (Hen ltac:(done)). }
  split; cbn.
  - intros k ?. rewrite lookup_delete. case_decide; auto.
  - apply timers_ok_unref; [done|by eapply Hnone].
  - apply timers_ok_unref; [done|by eapply Hnone].
  - apply timers_ok_unref; [done|by eapply Hnone].
Qed.

(** A source that starts to fire, by its class. *)
Lemma loop_ok_fire n src o :
  loop_ok None None o → loop_sources (o_loop o) !! n = Some src → ts_enabled src = true →
  let x := source_disable n o in
  match ts_callback src with
  | BootExpired id => loop_ok (Some (packInstance id)) None x ∧
      o_bootTimers o !! packInstance id = Some n
  | TelemetryRetry id _ => loop_ok None None
      {| x with o_retryTimers := delete (packInstance id) (o_retryTimers x) |} ∧
      o_retryTimers o !! packInstance id = Some n
  | ResetDeadline key _ => loop_ok None (Some key) x ∧
      pr_deadline <$> o_pendingResets o !! key = Some n
  end ∧ loop_sources (o_loop x) !! n = Some {| src with ts_enabled := false |}.
Proof.
  intros [Hn Hb Hr Hp] Hs Hen. cbn zeta.
  assert (∀ k, (loop_next (o_loop o) ≤ k)%nat →
    alter (λ s, {| s with ts_enabled := false |}) n (loop_sources (o_loop o)) !! k = None) as Hn'.
  { intros k Hk. rewrite lookup_alter. case_decide as Hd; [subst k; rewrite Hn in Hs; done|auto]. }
  assert (loop_sources (o_loop (source_disable n o)) !! n = Some {| src with ts_enabled := false |})
    as Hsrc by (cbn; by rewrite lookup_alter_eq, Hs).
  split; [|done]. destruct (ts_callback src) as [id|id a|key t] eqn:Hcb.
  - split; [split; cbn; try done|].
    + eapply timers_ok_fire; try done. by rewrite Hcb.
    + eapply timers_ok_fire_other; try done. by rewrite Hcb.
    + eapply timers_ok_fire_other; try done. by rewrite Hcb.
    + eapply to_enabled; try done. by rewrite Hcb.
  - assert (o_retryTimers o !! packInstance id = Some n) as Hk.
    { eapply to_enabled; try done. by rewrite Hcb. }
    split; [split; cbn; try done|done].
    + eapply timers_ok_fire_other; try done. by rewrite Hcb.
    + eapply timers_ok_erase; [|done|exact Hsrc|done].
      eapply timers_ok_fire; try done. by rewrite Hcb.
    + eapply timers_ok_fire_other; try done. by rewrite Hcb.
  - split; [split; cbn; try done|].
    + eapply timers_ok_fire_other; try done. by rewrite Hcb.
    + eapply timers_ok_fire_other; try done. by rewrite Hcb.
    + eapply timers_ok_fire; try done. by rewrite Hcb.
    + rewrite <-lookup_fmap. eapply to_enabled; try done. by rewrite Hcb.
Qed.

Lemma tryRecover_key id1 id2 o :
  packInstance id1 = packInstance id2 → tryRecoverStickyBc_ id1 o = tryRecoverStickyBc_ id2 o.
Proof. intros Heq. unfold tryRecoverStickyBc_. by rewrite Heq. Qed.

(** The boot deadline of an element: sticky boot-complete brings it online,
    otherwise it goes to S_FAULT with BOOT_TIMEOUT. *)
Lemma onBootExpired_inv g id n src ee o :
  orch_inv g (Some (packInstance id)) None o → (g → ∀ n, env_addTime n = true) →
  o_elements o !! packInstance id = Some ee → ee_state ee = E_Powered →
  o_bootTimers o !! packInstance id = Some n → loop_sources (o_loop o) !! n = Some src →
  ts_enabled src = false →
  orch_inv g None None (onBootExpired id o) ∧
  ∃ ee', o_elements (onBootExpired id o) !! packInstance id = Some ee' ∧
    if (tryRecoverStickyBc_ id o).1 then ee_state ee' = E_Online
    else ee_state ee' = E_Fault ∧ ec_faultCode (ef_ctx (ee_fsm ee')) = BootTimeout.
Proof.
  intros Hinv Hg He Hs Hn Hsrc Hdis.
  destruct (oi_elements _ _ _ _ Hinv _ _ He) as (_ & Hkey & _). fold (ee_id ee) in Hkey.
  pose proof (tryRecover_online _ _ _ _ ee o Hinv He (or_introl Hs)) as Hon.
  pose proof (tryRecover_inv _ _ _ id o Hinv Hg) as Hinv'.
  unfold onBootExpired. rewrite He.
  rewrite (tryRecover_key (ee_id ee) id) in Hon by done.
  destruct (tryRecoverStickyBc_ id o) as [[] o']; cbn in Hinv' |- *.
  - destruct Hon as (_ & ee' & He' & [Hs'|[? _]]); [|done].
    split; [|by exists ee'].
    assert (o_bootTimers o' !! packInstance id = None) as Hnone.
    { eapply boot_none; [apply Hinv'|exact He'|by rewrite Hs']. }
    apply orch_inv_static in Hinv' as (Hst & [Hl1 Hl2 Hl3 Hl4] & Hbo). apply orch_inv_static.
    rewrite delete_id by done.
    split_and!; [by apply (static_ok_same o')| |by apply (boot_ok_same _ o')].
    split; try done. cbn. by eapply timers_ok_gone.
  - subst o'. destruct (expired_inv _ _ _ id ee n src o Hinv He Hs Hn Hsrc Hdis)
      as (Hx & ee' & Hels & _ & Hs' & Hf').
    split; [done|]. exists ee'. cbn. by rewrite Hels, lookup_insert_eq.
Qed.

(** The sources a handled retry leaves in place. *)
Lemma handleRetry_sources id a n o :
  o_retryTimers o !! packInstance id = None → (n < loop_next (o_loop o))%nat →
  loop_sources (o_loop (handleTelemetryRetry_ id a o)) !! n = loop_sources (o_loop o) !! n.
Proof.
  intros Hk Hlt. unfold handleTelemetryRetry_.
  destruct (o_elements o !! _); [|done]. case_decide; [done|].
  destruct (call_setTelemetryPolling _ _ _) as [[r o1]|] eqn:Hp; [|done].
  apply polling_form in Hp as (dv & hal & -> & _ & _).
  case_decide; [|done]. case_match; [|done].
  unfold scheduleTelemetryRetry_, cancelTelemetryRetry_. cbn. rewrite Hk.
  unfold add_time. destruct (env_addTime _); cbn; [|done].
  rewrite lookup_insert_ne; [done|lia].
Qed.

Lemma fire_inv g n o :
  orch_inv g None None o → (g → ∀ n, env_addTime n = true) → orch_inv g None None (fire n o).
Proof.
  intros Hinv Hg. unfold fire.
  destruct (loop_sources (o_loop o) !! n) as [src|] eqn:Hs; [|done].
  destruct (ts_enabled src) eqn:Hen; [|done]. cbn. destruct (_ <=? _); [|done].
  pose proof Hinv as (Hst & Hlo & Hbo)%orch_inv_static.
  destruct (loop_ok_fire n src o Hlo Hs Hen) as [Hf Hdis].
  assert (static_ok (source_disable n o)) as Hst' by by apply (static_ok_same o).
  assert (boot_ok g (source_disable n o)) as Hbo' by by apply (boot_ok_same _ o).
  destruct (ts_callback src) as [id|id a|key t] eqn:Hcb.
  - destruct Hf as [Hl Hk]. destruct (bo_armed _ _ Hbo _ _ Hk) as (ee & He & Hse).
    eapply onBootExpired_inv; [by apply orch_inv_static|done|exact He|done|exact Hk|exact Hdis|done].
  - destruct Hf as [Hl Hk]. destruct (bo_retry _ _ Hbo _ _ Hk) as (ee & He & Hse & Hlpu).
    unfold onTelemetryRetry. set (x := {| (source_disable n o) with o_retryTimers := _ |}) in *.
    assert (orch_inv g None None x) as Hx.
    { apply orch_inv_static. split_and!; [by apply (static_ok_same (source_disable n o))|done|].
      destruct Hbo' as [Ha Hgr Hr]. split; [exact Ha|exact Hgr|]. cbn.
      intros k m [_ Hm]%lookup_delete_Some. by eapply Hr. }
    pose proof (handleRetry_inv _ _ _ id a x ee Hx He Hlpu) as Hy.
    apply orch_inv_static in Hy as (Hsty & Hly & Hby). apply orch_inv_static.
    split_and!; [by apply (static_ok_same (handleTelemetryRetry_ id a x))| |
      by apply (boot_ok_same _ (handleTelemetryRetry_ id a x))].
    apply loop_ok_unref_dead; [done|]. intros s. rewrite handleRetry_sources.
    + unfold x. cbn [o_loop]. rewrite Hdis. by intros [= <-].
    + cbn. by rewrite lookup_delete_eq.
    + cbn. destruct (Nat.lt_ge_cases n (loop_next (o_loop o))) as [|Hge]; [done|].
      rewrite (lo_next _ _ _ Hlo _ Hge) in Hs. done.
  - destruct Hf as [Hl _]. unfold onResetDeadline.
    pose proof (tryRecover_inv g None (Some key) t (source_disable n o)) as Hr.
    destruct (tryRecoverStickyBc_ t (source_disable n o)) as [b y]; cbn in Hr.
    assert (orch_inv g None (Some key) y) as Hy by (apply Hr; [by apply orch_inv_static|done]).
    assert (∀ out, orch_inv g None None (completePending_ key out y)) as Hdone.
    { intros out. pose proof (completePending_inv _ _ _ key out y Hy) as Hc.
      destruct (completePending_form key out y) as (lp & pd & ts & rs & Heq & Hpd).
      rewrite Heq in Hc |- *. apply orch_inv_static in Hc as (Hs1 & [Hl1 Hl2 Hl3 Hl4] & Hb1).
      apply orch_inv_static. split_and!; [done| |done]. split; try done.
      eapply timers_ok_gone; [exact Hl4|]. cbn. rewrite Hpd, fmap_delete. by rewrite lookup_delete_eq. }
    destruct b; [|apply Hdone]. destruct (o_pendingResets y !! key) eqn:Hp; [apply Hdone|].
    apply orch_inv_static in Hy as (Hs1 & [Hl1 Hl2 Hl3 Hl4] & Hb1).
    apply orch_inv_static. split_and!; [done| |done]. split; try done.
    eapply timers_ok_gone; [exact Hl4|]. by rewrite lookup_fmap, Hp.
Qed.
End Fire.

(** ** Requests *)

(** The elements a batch starts from have distinct keys. *)
Section Present.
Context {D : Type} `{!IDevice D}.
Implicit Types (o : Orch D).

Definition present_of (c : Class_) (e : Z * D) : option InstanceId :=
  id ← unpackInstance e.1; if decide (cls id = c) then Some id else None.

Definition keyed (l : list (Z * D)) : Prop :=
  Forall (λ e, ∃ id, e.1 = packInstance id ∧ InstanceId_wf id) l.

Lemma present_of_key c e id :
  (∃ id, e.1 = packInstance id ∧ InstanceId_wf id) → present_of c e = Some id →
  packInstance id = e.1 ∧ InstanceId_wf id ∧ cls id = c.
Proof.
  intros (id' & Hk & Hwf). unfold present_of. rewrite Hk, unpack_pack by done. cbn.
  case_decide; [|done]. by intros [= <-].
Qed.

Lemma present_keys c l k :
  keyed l → k ∈ packInstance <$> (omap (present_of c) l) → k ∈ l.*1.
Proof.
  unfold keyed. intros Hk. rewrite list_elem_of_fmap. intros (id & -> & Hin).
  apply list_elem_of_omap in Hin as (e & He & Hp).
  rewrite Forall_forall in Hk. destruct (present_of_key c e id (Hk _ He) Hp) as [-> _].
  by apply list_elem_of_fmap_2.
Qed.

Lemma present_NoDup c l :
  keyed l → NoDup l.*1 → NoDup (packInstance <$> (omap (present_of c) l)).
Proof.
  intros Hk. induction Hk as [|e l He Hl IH]; intros Hnd; [constructor|].
  cbn in Hnd. apply NoDup_cons in Hnd as [Hni Hnd]. cbn.
  destruct (present_of c e) as [id|] eqn:Hp; [|by apply IH].
  cbn. apply NoDup_cons. split; [|by apply IH].
  destruct (present_of_key c e id He Hp) as [-> _]. intros Hin. apply Hni.
  by eapply present_keys.
Qed.

Lemma presentInstances_keys c o :
  devices_keyed o → NoDup (packInstance <$> (presentInstances c o)).
Proof.
  intros Hk. unfold presentInstances.
  rewrite (merge_sort_Permutation by_index).
  change (omap _ _) with (omap (present_of c) (map_to_list (o_devices o))).
  apply present_NoDup; [|apply NoDup_fst_map_to_list].
  apply Forall_forall. intros [k d] Hin. apply Hk.
  apply elem_of_map_to_list in Hin. by eexists.
Qed.
End Present.

Section Requests.
Context `{Env} {D : Type} `{!IDevice D, !IDeviceLaws D}.
Implicit Types (o x : Orch D).

Lemma same_lines_inv g xb xr hs o :
  hs_lines hs = o_lines o → orch_inv g xb xr o → orch_inv g xb xr {| o with o_hal := hs |}.
Proof. intros Hl. apply with_hal_inv. by rewrite Hl. Qed.

Lemma requestReset_inv g xb xr t k o r o' :
  orch_inv g xb xr o → (g → ∀ n, env_addTime n = true) →
  requestReset t k o = Ok (r, o') → orch_inv g xb xr o'.
Proof.
  intros Hinv Hg. unfold requestReset.
  destruct (o_devices o !! packInstance t) as [d|]; [|by intros [= _ <-]].
  apply (call_clear_inv _ _ _ (packInstance t)) in Hinv.
  apply (dispatch_inv _ _ _ (packInstance t) (event RstAsserted t)) in Hinv; [|done..].
  destruct (o_devices _ !! packInstance t) as [dev|]; [|by intros [= _ <-]].
  intros ([r1 hs] & Hr & Heq)%res_bind_ok. injection Heq as <- <-.
  apply law_reset_lines in Hr. apply dispatch_inv; [by apply same_lines_inv|done..].
Qed.

(** Arming a completion wait for a target that has none. *)
Lemma arm_form t cb o : ∃ lp pd ts rs,
  (armResetCompletionWait_ t cb o).2 = {| o with o_loop := lp; o_pendingResets := pd;
     o_trackers := ts; o_replies := rs |} ∧
  (∀ k, k ≠ packInstance t → pd !! k = o_pendingResets o !! k).
Proof.
  unfold armResetCompletionWait_.
  destruct (add_time_cases (env_now + kResetCompletionTimeout * 1000)
    (ResetDeadline (packInstance t) t) o) as [->|[-> _]]; cbn.
  - match goal with |- context [run_callback ?c ?u ?x] =>
      destruct (run_callback_form c u x) as (ts & rs & ->) end.
    by eexists _, (o_pendingResets o), _, _.
  - eexists _, _, (o_trackers o), (o_replies o). split; [reflexivity|].
    intros k Hk. destruct (o_pendingResets o !! packInstance t); [done|].
    by rewrite lookup_insert_ne.
Qed.

Lemma arm_inv g xb t cb o :
  orch_inv g xb None o → o_pendingResets o !! packInstance t = None →
  orch_inv g xb None (armResetCompletionWait_ t cb o).2.
Proof.
  rewrite !orch_inv_static. intros (Hst & Hlo & Hbo) Hp. unfold armResetCompletionWait_.
  destruct (add_time_cases (env_now + kResetCompletionTimeout * 1000)
    (ResetDeadline (packInstance t) t) o) as [->|[-> _]]; cbn.
  - apply orch_inv_static, run_callback_inv, orch_inv_static.
    split_and!; [by apply (static_ok_same o)|by apply loop_ok_skip|by apply (boot_ok_same _ o)].
  - rewrite Hp. split_and!; [by apply (static_ok_same o)| |by apply (boot_ok_same _ o)].
    destruct Hlo as [Hn Hb Hr Hs].
    split; cbn; [intros; by apply next_grows|apply timers_ok_add_other; auto..|].
    rewrite fmap_insert. apply timers_ok_add; auto. by rewrite lookup_fmap, Hp.
Qed.

Lemma requestResetAsync_inv g xb t k cb o o' :
  orch_inv g xb None o → (g → ∀ n, env_addTime n = true) →
  requestResetAsync t k cb o = Ok o' → orch_inv g xb None o'.
Proof.
  intros Hinv Hg. unfold requestResetAsync.
  destruct (o_pendingResets o !! packInstance t) eqn:Hp;
    [intros [= <-]; by apply run_callback_inv|].
  destruct (o_devices o !! packInstance t); [|intros [= <-]; by apply run_callback_inv].
  destruct (resetEligible_ t o); [|intros [= <-]; by apply run_callback_inv]. cbn.
  pose proof (arm_inv g xb t cb o Hinv Hp) as Ha.
  destruct (armResetCompletionWait_ t cb o) as [[] x]; cbn in Ha |- *; [|by intros [= <-]].
  intros ([r y] & Hr & Heq)%res_bind_ok. injection Heq as <-.
  apply (call_clear_inv _ _ _ (packInstance t)) in Ha.
  apply (requestReset_inv _ _ _ _ _ _ _ _ Ha Hg) in Hr.
  case_decide; [done|by apply completePending_inv].
Qed.

(** ** Batches *)

Definition step_key (s : PulseStep) : Z := packInstance (ps_target s).

Lemma armStep_inv g xb t acc s o :
  orch_inv g xb None o → o_pendingResets o !! step_key s = None →
  let x := (armStep t (acc, o) s).2 in
  orch_inv g xb None x ∧
  (∀ k, k ≠ step_key s → o_pendingResets x !! k = o_pendingResets o !! k).
Proof.
  intros Hinv Hp. cbn. pose proof (arm_inv g xb _ (ReportTo t (ps_descId s)) o Hinv Hp) as Ha.
  destruct (arm_form (ps_target s) (ReportTo t (ps_descId s)) o)
    as (lp & pd & ts & rs & Heq & Hpd).
  destruct (armResetCompletionWait_ _ _ o) as [[] x]; cbn in *.
  - split; [by apply call_clear_inv|]. unfold call_clear.
    destruct (o_devices x !! _); subst x; cbn; exact Hpd.
  - split; [done|]. subst x. exact Hpd.
Qed.

Lemma armSteps_inv g xb t steps acc o :
  orch_inv g xb None o → NoDup (step_key <$> steps) →
  (∀ s, s ∈ steps → o_pendingResets o !! step_key s = None) →
  orch_inv g xb None (foldl (armStep t) (acc, o) steps).2.
Proof.
  revert acc o. induction steps as [|s steps IH]; intros acc o Hinv Hnd Hp; [done|].
  cbn in Hnd. apply NoDup_cons in Hnd as [Hni Hnd].
  destruct (armStep_inv g xb t acc s o Hinv (Hp s ltac:(by left))) as [Hx Hk].
  cbn [foldl]. destruct (armStep t (acc, o) s) as [acc' x]. cbn in Hx, Hk.
  apply IH; [done|done|]. intros s' Hs'. rewrite Hk; [apply Hp; by right|].
  intros Heq. apply Hni. rewrite <-Heq. by apply list_elem_of_fmap_2.
Qed.

Lemma assertSteps_inv g xb xr k steps o steps' o' :
  orch_inv g xb xr o → (g → ∀ n, env_addTime n = true) →
  assertSteps k steps o = Ok (steps', o') → orch_inv g xb xr o'.
Proof.
  revert o steps'. induction steps as [|s steps IH]; intros o steps' Hinv Hg; cbn.
  - by intros [= _ <-].
  - intros ([s1 o1] & H1 & ([rest o2] & H2 & Heq)%res_bind_ok)%res_bind_ok.
    injection Heq as <- <-. eapply IH; [|done|exact H2]. clear IH H2.
    destruct (ps_waitArmed s); cbn in H1; [|by injection H1 as _ <-].
    apply (dispatch_inv _ _ _ (packInstance (ps_target s)) (event RstAsserted (ps_target s)))
      in Hinv; [|done..].
    destruct (o_devices _ !! _) as [dev|]; [|by injection H1 as _ <-].
    apply res_bind_ok in H1 as ([r hs] & Hr & Heq). injection Heq as _ <-.
    apply law_assert_lines in Hr. by apply same_lines_inv.
Qed.

Lemma releaseSteps_inv g xb xr steps o :
  orch_inv g xb xr o → (g → ∀ n, env_addTime n = true) →
  orch_inv g xb xr (foldl releaseStep o steps).
Proof.
  intros Hinv Hg. revert o Hinv. induction steps as [|s steps IH]; intros o Hinv; [done|].
  cbn. apply IH. unfold releaseStep. destruct (ps_waitArmed s); [|done]. cbn.
  case_decide; [by apply completePending_inv|by apply dispatch_inv].
Qed.

Lemma resetBatch_inv g xb k req early targets o o' :
  orch_inv g xb None o → (g → ∀ n, env_addTime n = true) →
  NoDup (packInstance <$> targets) →
  (∀ id, id ∈ targets → o_pendingResets o !! packInstance id = None) →
  resetBatch k req early targets o = Ok o' → orch_inv g xb None o'.
Proof.
  intros Hinv Hg Hnd Hp. unfold resetBatch.
  change (map _ targets) with
    ((λ id, mkPulseStep id (descIdOrInternal id o) false R_Ok) <$> targets).
  set (steps := _ <$> targets).
  assert (step_key <$> steps = packInstance <$> targets) as Hkeys.
  { unfold steps. by rewrite <-list_fmap_compose. }
  assert (∀ s, s ∈ steps → o_pendingResets o !! step_key s = None) as Hnone.
  { intros s (id & -> & Hid)%list_elem_of_fmap. by apply Hp. }
  rewrite <-Hkeys in Hnd. clearbody steps. clear Hkeys Hp.
  destruct steps as [|s0 steps].
  { intros [= <-]. by apply (run_callback_inv _ _ _ (ReplyTo req) RO_Ok) in Hinv;
      apply orch_inv_static in Hinv as (Hst & Hlo & Hbo); apply orch_inv_static;
      split_and!; [eapply static_ok_same|eapply loop_ok_same|eapply boot_ok_same]. }
  set (o1 := {| o with o_trackers := _ |}).
  assert (orch_inv g xb None o1) as Hinv1.
  { apply orch_inv_static in Hinv as (Hst & Hlo & Hbo). apply orch_inv_static.
    split_and!; [by apply (static_ok_same o)|by apply (loop_ok_same _ _ o)|
      by apply (boot_ok_same _ o)]. }
  pose proof (armSteps_inv g xb (length (o_trackers o)) (s0 :: steps) [] o1 Hinv1 Hnd Hnone) as Ha.
  destruct (foldl (armStep (length (o_trackers o))) ([], o1) (s0 :: steps)) as [armed o2].
  cbn in Ha. intros ([steps3 o3] & H3 & Heq)%res_bind_ok. injection Heq as <-.
  apply releaseSteps_inv; [|done]. by eapply assertSteps_inv.
Qed.

Lemma requestResetAllSync_inv g xb c k req o o' :
  orch_inv g xb None o → (g → ∀ n, env_addTime n = true) →
  requestResetAllSync c k req o = Ok o' → orch_inv g xb None o'.
Proof.
  intros Hinv Hg. unfold requestResetAllSync.
  pose proof (presentInstances_keys c o (proj1 (oi_wired _ _ _ _ Hinv))) as Hnd.
  set (eligible := base.filter _ (presentInstances c o)).
  assert (NoDup (packInstance <$> eligible)) as Hnd'.
  { eapply sublist_NoDup; [exact Hnd|]. apply fmap_sublist, sublist_filter. }
  clearbody eligible. destruct eligible as [|e0 eligible].
  - intros [= <-]. apply orch_inv_static in Hinv as (Hst & Hlo & Hbo). apply orch_inv_static.
    split_and!; [by apply (static_ok_same o)|by apply (loop_ok_same _ _ o)|
      by apply (boot_ok_same _ o)].
  - eapply resetBatch_inv; [done|done| |].
    + eapply sublist_NoDup; [exact Hnd'|]. apply fmap_sublist, sublist_filter.
    + intros id [Hb _]%list_elem_of_filter. apply bool_decide_eq_false in Hb.
      by apply eq_None_not_Some.
Qed.
End Requests.

(** ** Every step *)

(** The identifiers of a request come from the descriptor maps. *)
Definition input_wf (i : OrchInput) : Prop :=
  match i with
  | InReset t _ _ | InLogDrain t | InVrTelemetry t _ => InstanceId_wf t
  | _ => True
  end.

Section Steps.
Context {D : Type} `{!IDevice D, !IDeviceLaws D}.
Implicit Types (o x : Orch D).

Lemma requestLogDrain_inv `{Env} g xb xr t o :
  orch_inv g xb xr o → orch_inv g xb xr (requestLogDrain t o).2.
Proof.
  intros Hinv. unfold requestLogDrain. case_decide; [done|].
  destruct (o_elements o !! _); [|done]. case_decide; [done|].
  destruct (o_devices o !! _) as [dev|]; [|done].
  pose proof (law_drain_lines dev (o_hal o)) as Hl.
  destruct (dev_requestLogDrain dev (o_hal o)) as [r hs]. cbn in *. by apply same_lines_inv.
Qed.

Lemma setVrTelemetry_inv `{Env} g xb xr t b o :
  orch_inv g xb xr o → InstanceId_wf t → orch_inv g xb xr (setVrTelemetryConfigured t b o).2.
Proof.
  intros Hinv Hwf. unfold setVrTelemetryConfigured.
  destruct (decide (cls t ≠ Lpu)) as [|Hc]; [done|].
  destruct (o_devices o !! packInstance t) as [dev|] eqn:Hd; [|done].
  destruct (o_elements o !! packInstance t) as [ee|] eqn:He; [|done].
  pose proof (law_vr_same b dev) as Hsame.
  destruct (dev_setVrTelemetryConfigured b dev) as [r dev']. cbn in Hsame.
  set (x := {| o with o_devices := _ |}).
  assert (orch_inv g xb xr x) as Hx.
  { apply orch_inv_static in Hinv as (Hst & Hlo & Hbo). apply orch_inv_static.
    split_and!; [|by apply (loop_ok_same _ _ o)|by apply (boot_ok_same _ o)].
    apply (static_ok_same o); try done. cbn. rewrite fmap_insert. apply insert_id.
    rewrite lookup_fmap, Hd. cbn. unfold dev_view. destruct Hsame as (H1 & H2 & H3 & H4).
    by rewrite H1, H2, H3, H4. }
  case_decide; [done|]. apply (cancelRetry_inv _ _ _ t) in Hx.
  assert (o_elements (cancelTelemetryRetry_ t x) !! packInstance t = Some ee) as He'.
  { destruct (cancelRetry_form t x) as (lp & rt & ->). done. }
  case_decide as Hs; [done|].
  destruct (call_setTelemetryPolling _ _ _) as [[p y]|] eqn:Hp; [|done].
  destruct (polling_inv _ _ _ _ _ _ _ _ Hx Hp) as [Hy Hel].
  case_decide; [|done]. cbn. eapply scheduleRetry_inv; [done|by rewrite Hel| |].
  - unfold ee_state. by destruct (decide (ef_state (ee_fsm ee) = E_Online)).
  - destruct (oi_elements _ _ _ _ Hinv _ _ He) as (_ & Hk & Hw).
    destruct (ee_isLpu ee) eqn:Hlpu; [done|].
    destruct (co_fpga _ (oi_children _ _ _ _ Hinv) _ _ He Hlpu) as (Hf & _).
    exfalso. apply Hc. intros Hcl. apply packInstance_inj in Hk; [|done..].
    unfold ee_id in Hf. congruence.
Qed.

Lemma orch_step_inv `{Env} g i o o' :
  orch_inv g None None o → (g → ∀ n, env_addTime n = true) → input_wf i →
  orch_step i o = Ok o' → orch_inv g None None o'.
Proof.
  intros Hinv Hg Hwf. destruct i; cbn.
  - intros [= <-]. by apply notifyExternal_inv.
  - intros [= <-]. by apply fire_inv.
  - by apply requestResetAsync_inv.
  - by apply requestResetAllSync_inv.
  - intros [= <-]. by apply requestLogDrain_inv.
  - intros [= <-]. by apply setVrTelemetry_inv.
Qed.

(** A run: each input is handled in the environment of its moment. *)
Inductive orch_run : list (Env * OrchInput) → Orch D → Orch D → Prop :=
| run_nil o : orch_run [] o o
| run_cons E i ls o1 o2 o3 :
    @orch_step E D _ i o1 = Ok o2 → orch_run ls o2 o3 → orch_run ((E, i) :: ls) o1 o3.

Definition grants (g : Prop) (l : Env * OrchInput) : Prop :=
  input_wf l.2 ∧ (g → ∀ n, @env_addTime l.1 n = true).

Lemma orch_run_inv g ls o o' :
  orch_run ls o o' → Forall (grants g) ls → orch_inv g None None o → orch_inv g None None o'.
Proof.
  induction 1 as [|E i ls o1 o2 o3 Hs Hr IH]; intros Hl Hinv; [done|].
  apply Forall_cons in Hl as [[Hwf Hg] Hl]. apply IH; [done|].
  by eapply (@orch_step_inv E).
Qed.
End Steps.
