(* ===== verification/OrchBoot.v ===== *)
(** * From a descriptor to the invariant

    Bringing the orchestrator up from a consistent descriptor whose resources
    report under distinct paths establishes [orch_inv]: [built] is the
    invariant of the walk over modules, elements and FPGAs. With the steps of
    OrchSteps.v it holds in every reachable state of the daemon. *)

From S2P Require Import Prelude Types SubscriberList FsmEngine ElementFsm ModuleFsm TrayFsm.
From S2P Require Import Reporting SubscriberList Hal Lines Drivers Descriptor Orchestrator OrchInit.
From S2P Require Import Hierarchy OrchInvariant OrchSteps.

(** ** The line heap only grows *)

(** Every line keeps its subscribers. *)
Definition heap_ext (h h' : LineHeap LineCallback) : Prop :=
  ∀ i subs, line_subs h i = Some subs →
    ∃ subs', line_subs h' i = Some subs' ∧ subs ⊆ subs'.

Lemma heap_ext_refl h : heap_ext h h.
Proof. intros i subs Hs. by exists subs. Qed.

Lemma heap_ext_trans h1 h2 h3 : heap_ext h1 h2 → heap_ext h2 h3 → heap_ext h1 h3.
Proof.
  intros H12 H23 i s1 Hs. destruct (H12 _ _ Hs) as (s2 & Hs2 & ?).
  destruct (H23 _ _ Hs2) as (s3 & ? & ?). exists s3. split; [done|]. by etrans.
Qed.

Lemma heap_ext_acquire gl c h i h' :
  heap_wf h → Registry_acquire gl c h = Ok (i, h') → heap_ext h h'.
Proof.
  intros Hwf Hacq j subs (l & Hl & ->)%fmap_Some.
  exists ((subs_ (sl_subs l)).*2). split; [|done].
  unfold line_subs. by rewrite (acquire_lines _ _ _ _ _ _ _ Hwf Hacq Hl).
Qed.

Lemma heap_ext_subscribe c i h : heap_ext h (SharedLine_subscribe c i h).2.
Proof.
  intros j subs (l & Hl & ->)%fmap_Some. unfold line_subs. rewrite line_at_subscribe, Hl.
  case_decide; cbn; [|by eexists]. eexists; split; [done|].
  rewrite fmap_app. set_solver.
Qed.

(** Dropping the reference just acquired gives back the lines there were. *)
Lemma line_at_alloc_release l name (h : LineHeap LineCallback) j :
  heap_wf h → is_Some (line_at h j) →
  line_at (line_release (lh_next h) (alloc_line l name h).2) j = line_at h j.
Proof.
  intros Hwf [l0 Hl]. unfold line_at, line_release in *. cbn. rewrite lookup_insert_eq.
  apply fmap_Some in Hl as ([l' n] & Hj & ->). pose proof (hwf_next _ Hwf _ _ Hj).
  by rewrite delete_insert_eq, lookup_delete_ne by lia.
Qed.

Lemma line_at_retain_release i (h : LineHeap LineCallback) j :
  heap_wf h → is_Some (line_at h i) →
  line_at (line_release i (line_retain i h)) j = line_at h j.
Proof.
  intros Hwf [l Hl]. unfold line_at, line_release, line_retain in *. cbn.
  apply fmap_Some in Hl as ([l' n] & Hi & ->). rewrite lookup_alter_eq, Hi. cbn.
  pose proof (hwf_refs _ Hwf _ _ _ Hi). destruct n as [|n]; [lia|].
  rewrite lookup_insert. case_decide; [by subst; rewrite Hi|].
  by rewrite lookup_alter_ne.
Qed.

Lemma heap_ext_acquire_release gl c h i h' :
  heap_wf h → Registry_acquire gl c h = Ok (i, h') → heap_ext h (line_release i h').
Proof.
  intros Hwf Hacq j subs Hs. exists subs. split; [|done]. revert Hacq.
  assert (is_Some (line_at h j)) as Hj by (apply fmap_Some in Hs as (l & -> & _); by eexists).
  unfold Registry_acquire, line_subs in *.
  assert (Ok (E:=string) (alloc_line (SharedLine_make gl false c) (gl_name gl) h) = Ok (i, h') →
    (λ l, (subs_ (sl_subs l)).*2) <$> line_at (line_release i h') j = Some subs) as Halloc.
  { intros Heq. assert (i = lh_next h) as -> by (by injection Heq).
    assert (h' = (alloc_line (SharedLine_make gl false c) (gl_name gl) h).2) as ->
      by (by injection Heq). by rewrite line_at_alloc_release. }
  destruct (lh_lines h !! gl_name gl) as [k|]; cbn; [|done].
  destruct (line_at h k) as [l'|] eqn:Hl; cbn; [|done].
  unfold warnIfDescriptorMismatch. case_decide; [done|]. intros [= <- <-].
  by rewrite line_at_retain_release.
Qed.

Lemma heap_ext_acquireLines pg bc id h : heap_wf h → heap_ext h (acquireLines pg bc id h).2.
Proof.
  intros Hwf. unfold acquireLines.
  destruct (Registry_acquire pg _ h) as [[i h1]|] eqn:H1; [|apply heap_ext_refl].
  pose proof (heap_ext_acquire _ _ _ _ _ Hwf H1) as E1.
  destruct (heap_wf_acquire _ _ _ _ _ Hwf H1) as (Hwf1 & _).
  destruct (Registry_acquire bc _ h1) as [[j h2]|] eqn:H2;
    [|by eapply heap_ext_acquire_release].
  pose proof (heap_ext_acquire _ _ _ _ _ Hwf1 H2) as E2.
  pose proof (heap_ext_subscribe (PgCallback (packInstance id)) i h2) as E3.
  destruct (SharedLine_subscribe _ i h2) as [s1 h3]. cbn in E3.
  pose proof (heap_ext_subscribe (BcCallback (packInstance id)) j h3) as E4.
  destruct (SharedLine_subscribe _ j h3) as [s2 h4]. cbn in E4 |- *.
  eapply heap_ext_trans; [done|]. eapply heap_ext_trans; [done|]. by eapply heap_ext_trans.
Qed.

Lemma lpu_init_ext `{Env} cfg id hs r d hs' :
  heap_wf (hs_lines hs) → LpuDriver_init cfg (LpuDriver_make id) hs = Ok (r, d, hs') →
  heap_ext (hs_lines hs) (hs_lines hs').
Proof.
  intros Hwf. unfold LpuDriver_init. cbn [LpuDriver_make lpu_core core_make dc_sink dc_pgLine
    dc_bcLine dc_id dc_caps orb]. rewrite !bool_decide_false by (by intros [? ?]). cbn [orb].
  rewrite cfg_gate. destruct (cfg_complete cfg); [|intros [= _ _ <-]; apply heap_ext_refl].
  fold (cfg_pg cfg) (cfg_bc cfg).
  pose proof (heap_ext_acquireLines (cfg_pg cfg) (cfg_bc cfg) id _ Hwf) as He.
  destruct (acquireLines _ _ _ _) as [[[[[a b] sa] sb]|] h'];
    [|by intros [= _ _ <-]].
  intros ([chip chips] & _ & Heq)%res_bind_ok. revert Heq.
  pose proof (LpuDriver_openLog_effect cfg) as Hlog.
  match goal with |- context [LpuDriver_openLog cfg ?d0 ?hs0] =>
    specialize (Hlog d0 hs0); destruct (LpuDriver_openLog cfg d0 hs0) as [d1 hs1] end.
  destruct Hlog as (_ & Hl & _). intros [= _ _ <-]. by rewrite Hl.
Qed.

Lemma fpga_init_ext `{Env} cfg id hs r d hs' :
  heap_wf (hs_lines hs) → FpgaDriver_init cfg (FpgaDriver_make id) hs = Ok (r, d, hs') →
  heap_ext (hs_lines hs) (hs_lines hs').
Proof.
  intros Hwf. unfold FpgaDriver_init. cbn [FpgaDriver_make fpga_core core_make dc_sink dc_pgLine
    dc_bcLine dc_id dc_caps dc_pgLineName dc_bcLineName dc_resetLineName orb].
  rewrite !bool_decide_false by (by intros [? ?]). cbn [orb]. rewrite cfg_gate.
  destruct (cfg_complete cfg); [|intros [= _ _ <-]; apply heap_ext_refl].
  fold (cfg_pg cfg) (cfg_bc cfg).
  pose proof (heap_ext_acquireLines (cfg_pg cfg) (cfg_bc cfg) id _ Hwf) as He.
  destruct (acquireLines _ _ _ _) as [[[[[a b] sa] sb]|] h'];
    [|by intros [= _ _ <-]].
  intros ([chip chips] & _ & Heq)%res_bind_ok. by injection Heq as _ _ <-.
Qed.

(** A started driver, as the invariant sees it. *)
Lemma core_started_view cfg id c h :
  core_started cfg id c h → ∃ i subs,
    dc_id c = id ∧ dc_sink c = true ∧ dc_bcLine c = Some i ∧
    line_subs h i = Some subs ∧ BcCallback (packInstance id) ∈ subs.
Proof.
  intros (Hid & Hs & _ & _ & _ & pg & bc & _ & Hbc & _ & _ & l & Hl & _ & Hin).
  exists bc, ((subs_ (sl_subs l)).*2). unfold line_subs. by rewrite Hl.
Qed.

(** ** The walk *)

Definition fresh_fsm (id : InstanceId) : ElementFsm := ElementFsm_setHooks (ElementFsm_make id).

Definition fresh_tray (nm nf : nat) : TrayFsm :=
  TrayFsm_setOnStateChange (TrayFsm_make (mkInstanceId Tray 0) nm nf).

(** What holds after [mi] modules, [fi] FPGAs and [li] element indices, with
    the paths of [used] given out: everything is in standby, no timer runs. *)
Record built (nm nf : nat) (mi fi li : Z) (used : list string) (o : DaemonState) : Prop := {
  b_static : static_ok o;
  b_stby : ∀ key ee, o_elements o !! key = Some ee → ee_state ee = E_Stby;
  b_loop : o_loop o = mkEventLoop ∅ 0;
  b_boot : o_bootTimers o = ∅;
  b_retry : o_retryTimers o = ∅;
  b_pending : o_pendingResets o = ∅;
  b_heap : heap_wf (o_lines o);
  b_tray : ∃ p, o_tray o = Some (fresh_tray nm nf, p);
  b_modules : ∀ mk, is_Some (o_modules o !! mk) →
    ∃ i, mk = packInstance (mkInstanceId Module_ i) ∧ 0 ≤ i < mi;
  b_keys : ∀ key, is_Some (o_elements o !! key) ∨ is_Some (o_devices o !! key) →
    ∃ id, key = packInstance id ∧ InstanceId_wf id ∧
      (cls id = Lpu ∧ index id < li ∨ cls id = Fpga ∧ index id < fi);
  b_used : ∀ w p, owner_path o w = Some p → p ∈ used;
  b_books : o_trackers o = [] ∧ o_replies o = [];
}.

Lemma built_inv nm nf mi fi li used o g : built nm nf mi fi li used o → orch_inv g None None o.
Proof.
  intros [Hst Hsb Hlp Hbt Hrt Hpd _ _ _ _ _ _]. apply orch_inv_static. split_and!; [done| |].
  - split; rewrite ?Hlp, ?Hbt, ?Hrt, ?Hpd, ?fmap_empty; auto using timers_ok_empty.
  - split; rewrite ?Hbt, ?Hrt; try done. intros _ key ee He Hs. rewrite (Hsb _ _ He) in Hs. done.
Qed.

(** A new resource under a path not given out yet. *)
Lemma paths_distinct_add (o o' : DaemonState) w0 p used :
  paths_distinct o → (∀ w q, owner_path o w = Some q → q ∈ used) → p ∉ used →
  owner_path o' w0 = Some p → (∀ w, w ≠ w0 → owner_path o' w = owner_path o w) →
  paths_distinct o' ∧ (∀ w q, owner_path o' w = Some q → q ∈ p :: used).
Proof.
  intros Hd Hu Hp H0 Hother. split.
  - intros w1 w2 q H1 H2.
    destruct (decide (w1 = w0)) as [->|N1], (decide (w2 = w0)) as [->|N2]; [done|..].
    + rewrite Hother in H2 by done. apply Hu in H2. congruence.
    + rewrite Hother in H1 by done. apply Hu in H1. congruence.
    + rewrite Hother in H1, H2 by done. by eapply Hd.
  - intros w q Hw. destruct (decide (w = w0)) as [->|N].
    + assert (q = p) as -> by congruence. by left.
    + right. rewrite Hother in Hw by done. by eapply Hu.
Qed.

Lemma bus_ok_add (o o' : DaemonState) w0 p st :
  bus_ok o → (∀ w q, w ≠ w0 → owner_path o w = Some q → q ≠ p) →
  owner_path o' w0 = Some p → owner_status o' w0 = Some st → o_bus o' = <[p := st]> (o_bus o) →
  (∀ w, w ≠ w0 → owner_path o' w = owner_path o w ∧ owner_status o' w = owner_status o w) →
  bus_ok o'.
Proof.
  intros Hb Hnp H0 Hst Hbus Hother w q Hw. rewrite Hbus.
  destruct (decide (w = w0)) as [->|N].
  - rewrite H0 in Hw. injection Hw as <-. by rewrite lookup_insert_eq.
  - destruct (Hother w N) as [Hp ->]. rewrite Hp in Hw.
    rewrite lookup_insert_ne by (symmetry; by eapply Hnp). by apply Hb.
Qed.

(** A module entered in the tables, its children still to come. *)
Lemma built_module nm nf mi li used o m path a b :
  built nm nf mi 0 li used o → 0 ≤ mi < Z.of_nat nm → mi < 2 ^ 16 → path ∉ used →
  m = ModuleFsm_setOnStateChange (ModuleFsm_make (mkInstanceId Module_ mi) a b) →
  let mk := packInstance (mkInstanceId Module_ mi) in
  built nm nf (mi + 1) 0 li (path :: used) {| o with
    o_bus := applyStatus_module path M_Stby (o_bus o);
    o_modules := <[mk := (m, path)]> (o_modules o) |}.
Proof.
  intros [Hst Hsb Hlp Hbt Hrt Hpd Hh [tp Htr] Hmo Hke Hus Hbk] Hmi Hmi' Hpath ->. cbn zeta.
  set (mk := packInstance (mkInstanceId Module_ mi)).
  assert (o_modules o !! mk = None) as Hnew.
  { apply eq_None_not_Some. intros Hs. destruct (Hmo _ Hs) as (i & Heq & Hi).
    apply packInstance_inj in Heq; [|unfold InstanceId_wf; cbn; lia..].
    injection Heq as ->. lia. }
  destruct Hst as [Hel Hwi Hch Hbus Hd].
  set (o' := {| o with o_bus := _; o_modules := _ |}).
  assert (∀ w, w ≠ OwnModule mk → owner_path o' w = owner_path o w ∧
    owner_status o' w = owner_status o w) as Hother.
  { intros [k|k|] Hw; cbn; try done. rewrite lookup_insert_ne; [done|]. congruence. }
  destruct (paths_distinct_add o o' (OwnModule mk) path used Hd Hus Hpath) as [Hd' Hus'].
  { cbn. by rewrite lookup_insert_eq. } { intros w Hw. by apply Hother. }
  split; try done.
  - split; try done.
    + destruct Hch as [Hl Hf Hm Ht]. split; try done.
      * intros key ee He Hlpu. destruct (Hl _ _ He Hlpu) as (mk' & m' & p' & s & H1 & H2 & H3).
        exists mk', m', p', s. split; [done|]. cbn. rewrite lookup_insert_ne; [done|congruence].
      * intros mk' m' p'. cbn. rewrite lookup_insert_Some. intros [[<- [= <- <-]]|[_ Hk]].
        -- unfold module_recorded. cbn. split_and!; try done; [lia|].
           exists (fresh_tray nm nf), tp. split; [done|]. cbn. apply lookup_replicate. split; [done|lia].
        -- apply (Hm _ _ _ Hk).
    + eapply (bus_ok_add o o' (OwnModule mk) path (toStatus_module M_Stby)); try done.
      * intros w q Hw Hq ->. by apply Hus in Hq.
      * cbn. by rewrite lookup_insert_eq.
      * cbn. by rewrite lookup_insert_eq.
  - by exists tp.
  - intros k. cbn. destruct (decide (k = mk)) as [->|Hne].
    + intros _. exists mi. split; [done|lia].
    + rewrite lookup_insert_ne by done. intros (i & -> & ?)%Hmo. exists i. split; [done|lia].
Qed.

(** An element entered in the tables. *)
Lemma built_element nm nf mi fi li fi' li' used o id path isLpu dev hs e2m i subs :
  built nm nf mi fi li used o → path ∉ used → InstanceId_wf id →
  o_elements o !! packInstance id = None → o_devices o !! packInstance id = None →
  li ≤ li' → fi ≤ fi' → (cls id = Lpu ∧ index id < li' ∨ cls id = Fpga ∧ index id < fi') →
  heap_ext (o_lines o) (hs_lines hs) → heap_wf (hs_lines hs) →
  dev_id dev = id → dev_sink dev = true → dev_bcLine dev = Some i →
  line_subs (hs_lines hs) i = Some subs → BcCallback (packInstance id) ∈ subs →
  (∀ k, k ≠ packInstance id → e2m !! k = o_elementToModule o !! k) →
  let o' := {| (wireElement id path isLpu dev {| o with o_hal := hs |}) with
                 o_elementToModule := e2m |} in
  (if isLpu then lpu_recorded o' (packInstance id) (mkElementEntry (fresh_fsm id) path isLpu)
   else fpga_recorded o' (mkElementEntry (fresh_fsm id) path isLpu)) →
  built nm nf mi fi' li' (path :: used) o'.
Proof.
  intros [Hst Hsb Hlp Hbt Hrt Hpd Hh Htr Hmo Hke Hus Hbk] Hpath Hwf Hnew Hnewd Hli Hfi Hcl Hext Hhs
    Hid Hsk Hbc Hsub Hin He2m o' Hrec.
  set (key := packInstance id) in *. set (ee := mkElementEntry (fresh_fsm id) path isLpu) in *.
  destruct Hst as [Hel [Hkd Hwi] Hch Hbus Hd].
  assert (∀ w, w ≠ OwnElement key → owner_path o' w = owner_path o w ∧
    owner_status o' w = owner_status o w) as Hother.
  { intros [k|k|] Hw; cbn; try done. rewrite lookup_insert_ne; [done|]. intros <-; by apply Hw. }
  destruct (paths_distinct_add o o' (OwnElement key) path used Hd Hus Hpath) as [Hd' Hus'].
  { cbn. by rewrite lookup_insert_eq. } { intros w Hw. by apply Hother. }
  split; try done.
  - split; try done.
    + intros k e. cbn. rewrite lookup_insert_Some. intros [[<- <-]|[_ Hk]]; [|by apply Hel].
      split; [apply element_wf_make|done].
    + split.
      * intros k. cbn. destruct (decide (k = key)) as [->|Hne]; [by exists id|].
        rewrite lookup_insert_ne by done. apply Hkd.
      * intros k e. cbn. rewrite lookup_insert_Some. intros [[<- <-]|[Hne Hk]].
        -- exists i, (dev_bootCompleteLineName dev), subs. rewrite lookup_insert_eq.
           split_and!; [|done|done]. cbn. unfold dev_view. by rewrite Hid, Hsk, Hbc.
        -- destruct (Hwi _ _ Hk) as (i' & nm' & subs' & Hv & Hs & Hi').
           destruct (Hext _ _ Hs) as (subs2 & Hs2 & Hsub2).
           exists i', nm', subs2. rewrite lookup_insert_ne by done.
           split_and!; [done|done|]. by apply Hsub2.
    + destruct Hch as [Hl Hf Hm Ht]. split; try done.
      * intros k e. cbn. rewrite lookup_insert_Some. intros [[<- <-]|[Hne Hk]] Hb.
        -- destruct isLpu; [exact Hrec|done].
        -- destruct (Hl _ _ Hk Hb) as (mk' & m' & p' & s & H1 & H2).
           exists mk', m', p', s. split; [|done]. cbn. by rewrite He2m.
      * intros k e. cbn. rewrite lookup_insert_Some. intros [[<- <-]|[Hne Hk]] Hb.
        -- destruct isLpu; [done|exact Hrec].
        -- apply (Hf _ _ Hk Hb).
    + eapply (bus_ok_add o o' (OwnElement key) path (toStatus_element E_Stby true)); try done.
      * intros w q Hw Hq ->. by apply Hus in Hq.
      * cbn. by rewrite lookup_insert_eq.
      * cbn. by rewrite lookup_insert_eq.
  - intros k e. cbn. rewrite lookup_insert_Some. intros [[<- <-]|[_ Hk]]; [done|by eapply Hsb].
  - intros k Hk. destruct (decide (k = key)) as [->|Hne]; [by exists id|].
    destruct (Hke k) as (id' & -> & Hw' & Hc').
    { cbn in Hk. by rewrite !lookup_insert_ne in Hk by done. }
    exists id'. split_and!; [done|done|]. destruct Hc' as [[? ?]|[? ?]]; [left|right]; split; try done; lia.
Qed.

(** ** Steps that add nothing *)

Lemma built_weaken nm nf mi fi li used mi' fi' li' used' o :
  built nm nf mi fi li used o → mi ≤ mi' → fi ≤ fi' → li ≤ li' → used ⊆ used' →
  built nm nf mi' fi' li' used' o.
Proof.
  intros [Hst Hsb Hlp Hbt Hrt Hpd Hh Htr Hmo Hke Hus Hbk] Hm Hf Hl Hu. split; try done.
  - intros mk Hs. destruct (Hmo _ Hs) as (i & -> & ?). exists i. split; [done|lia].
  - intros k Hk. destruct (Hke _ Hk) as (id & -> & Hw & Hc). exists id. split_and!; [done|done|].
    destruct Hc as [[? ?]|[? ?]]; [left|right]; split; try done; lia.
  - intros w p Hp. by apply Hu, (Hus w).
Qed.

Lemma built_names nm nf mi fi li used o s id :
  built nm nf mi fi li used o → built nm nf mi fi li used (name_instance s id o).
Proof.
  intros [[Hel [Hkd Hwi] [Hl Hf Hm Ht] Hbus Hd] Hsb Hlp Hbt Hrt Hpd Hh Htr Hmo Hke Hus Hbk].
  split; try done.
Qed.

Lemma built_hal nm nf mi fi li used o hs :
  built nm nf mi fi li used o → heap_ext (o_lines o) (hs_lines hs) → heap_wf (hs_lines hs) →
  built nm nf mi fi li used {| o with o_hal := hs |}.
Proof.
  intros [[Hel [Hkd Hwi] [Hl Hf Hm Ht] Hbus Hd] Hsb Hlp Hbt Hrt Hpd Hh Htr Hmo Hke Hus Hbk] He Hw.
  split; try done. split; try done. split; [done|]. intros k e Hk.
  destruct (Hwi _ _ Hk) as (i & nm' & subs & Hv & Hs & Hi). destruct (He _ _ Hs) as (s2 & ? & Hsub).
  exists i, nm', s2. split_and!; [done|done|]. by apply Hsub.
Qed.

(** The key of the next element is free. *)
Lemma built_free nm nf mi fi li used o id :
  built nm nf mi fi li used o → InstanceId_wf id →
  (cls id = Lpu ∧ index id = li ∨ cls id = Fpga ∧ index id = fi) →
  o_elements o !! packInstance id = None ∧ o_devices o !! packInstance id = None.
Proof.
  intros Hb Hw Hc.
  assert (¬ (is_Some (o_elements o !! packInstance id) ∨
             is_Some (o_devices o !! packInstance id))) as Hn.
  { intros Hs. destruct (b_keys _ _ _ _ _ _ _ Hb _ Hs) as (id' & Heq & Hw' & Hc').
    apply packInstance_inj in Heq as <-; [|done..].
    destruct Hc as [[H1 H2]|[H1 H2]], Hc' as [[H3 H4]|[H3 H4]]; rewrite H1 in H3; try done; lia. }
  split; apply eq_None_not_Some; intros Hs; apply Hn; auto.
Qed.

(** ** Elements and modules *)

(** The slot of an LPU in its module, in standby. *)
Definition has_slot (m : ModuleFsm) (id : InstanceId) : Prop :=
  ∃ slot, list_find (λ i, i = id) (mc_childIds (mf_ctx m)) = Some (slot, id) ∧
    mc_childStates (mf_ctx m) !! slot = Some E_Stby.

Lemma initElement_built `{Env} nm nf mi used modId m p st el st' :
  built nm nf mi 0 (is_nextElementIdx st) used (is_orch st) →
  0 ≤ is_nextElementIdx st → is_nextElementIdx st + 1 < 2 ^ 16 →
  o_modules (is_orch st) !! packInstance modId = Some (m, p) →
  has_slot m (mkInstanceId Lpu (is_nextElementIdx st)) →
  elementRedfishPath_ el ∉ used → initElement modId st el = Ok st' →
  is_nextElementIdx st' = is_nextElementIdx st + 1 ∧
  o_modules (is_orch st') = o_modules (is_orch st) ∧
  built nm nf mi 0 (is_nextElementIdx st') (elementRedfishPath_ el :: used) (is_orch st').
Proof.
  intros Hb Hn0 Hn Hm (slot & Hf & Hs) Hp. unfold initElement.
  set (id := mkInstanceId Lpu _) in *.
  assert (u16 (is_nextElementIdx st + 1) = is_nextElementIdx st + 1) as -> by
    (unfold u16; apply Z.mod_small; lia).
  assert (InstanceId_wf id) as Hid by (unfold InstanceId_wf; cbn; lia).
  assert (∀ hs, heap_ext (o_lines (is_orch st)) (hs_lines hs) → heap_wf (hs_lines hs) →
    built nm nf mi 0 (is_nextElementIdx st + 1) (elementRedfishPath_ el :: used)
      {| (is_orch st) with o_hal := hs |}) as Hskip.
  { intros hs He Hw. apply built_hal; [|done..].
    eapply built_weaken; [done|lia..|]. set_solver. }
  assert (built nm nf mi 0 (is_nextElementIdx st + 1) (elementRedfishPath_ el :: used)
    (is_orch st)) as Hnone by (eapply built_weaken; [done|lia..|set_solver]).
  destruct (el_kind el) eqn:Hk; [|by intros [= <-]..].
  intros ([[ir dr] hs] & Hinit & Heq)%res_bind_ok. revert Heq.
  pose proof (b_heap _ _ _ _ _ _ _ Hb) as Hheap.
  pose proof (lpu_init_ext _ _ _ _ _ _ Hheap Hinit) as Hext.
  destruct (lpu_init_outcomes _ _ _ _ _ _ Hheap Hinit) as [Hw Hout].
  destruct (decide (ir = R_Absent)) as [->|_]; [done|].
  destruct (decide (ir ≠ R_Ok)) as [_|Hok]; [intros [= <-]; cbn; auto|].
  apply dec_stable in Hok as ->. destruct Hout as (_ & Hcs & _).
  destruct (core_started_view _ _ _ _ Hcs) as (i & subs & Hi1 & Hi2 & Hi3 & Hi4 & Hi5).
  intros [= <-]. cbn. split_and!; [done|done|]. apply built_names.
  destruct (built_free _ _ _ _ _ _ _ id Hb Hid) as [Hfe Hfd]; [by left|].
  eapply (built_element nm nf mi 0 _ 0 _ used (is_orch st) id (elementRedfishPath_ el) true
    (DevLpu dr) hs); try done; [lia|left; split; [done|cbn; lia]| |].
  - intros k Hk'. by apply lookup_insert_ne.
  - exists (packInstance modId), m, p, slot. cbn. rewrite lookup_insert_eq. done.
Qed.

Lemma elements_built `{Env} nm nf mi modId m p els : ∀ used st st',
  built nm nf mi 0 (is_nextElementIdx st) used (is_orch st) →
  0 ≤ is_nextElementIdx st → is_nextElementIdx st + Z.of_nat (length els) < 2 ^ 16 →
  o_modules (is_orch st) !! packInstance modId = Some (m, p) →
  (∀ j, 0 ≤ j < Z.of_nat (length els) → has_slot m (mkInstanceId Lpu (is_nextElementIdx st + j))) →
  NoDup (elementRedfishPath_ <$> els) → (∀ q, q ∈ elementRedfishPath_ <$> els → q ∉ used) →
  foldM_res (initElement modId) st els = Ok st' →
  is_nextElementIdx st' = is_nextElementIdx st + Z.of_nat (length els) ∧
  built nm nf mi 0 (is_nextElementIdx st') (used ++ (elementRedfishPath_ <$> els)) (is_orch st').
Proof.
  induction els as [|el els IH]; intros used st st' Hb H0 Hn Hm Hsl Hnd Hfr.
  { intros [= <-]. rewrite app_nil_r. split; [cbn; lia|done]. }
  cbn [foldM_res]. intros (st1 & H1 & H2)%res_bind_ok.
  rewrite fmap_cons in Hnd, Hfr |- *. apply NoDup_cons in Hnd as [Hni Hnd]. cbn [length] in *.
  assert (has_slot m (mkInstanceId Lpu (is_nextElementIdx st))) as Hs0.
  { rewrite <-(Z.add_0_r (is_nextElementIdx st)). apply Hsl. lia. }
  destruct (initElement_built _ _ _ used _ _ _ _ el st1 Hb H0 ltac:(lia) Hm Hs0)
    as (E1 & E2 & Hb1); [apply Hfr; by left|done|].
  destruct (IH (elementRedfishPath_ el :: used) st1 st') as [E3 Hb3]; rewrite ?E1, ?E2 in *; try done; try lia.
  - intros j Hj. rewrite <-Z.add_assoc. apply Hsl. lia.
  - intros q Hq. apply not_elem_of_cons. split; [by intros ->|]. apply Hfr. by right.
  - split; [lia|]. eapply built_weaken; [done|lia..|]. cbn. set_solver.
Qed.

(** The slots of a module wired with its one or two elements. *)
Lemma module_slots id a n j :
  (n = 1 ∨ n = 2) → 0 ≤ j < n → 0 ≤ a →
  has_slot (ModuleFsm_setOnStateChange (ModuleFsm_make id (mkInstanceId Lpu a)
    (if n <? 2 then mkInstanceId Lpu a else mkInstanceId Lpu (a + 1)))) (mkInstanceId Lpu (a + j)).
Proof.
  intros Hn Hj Ha. assert (j = 0 ∨ n = 2 ∧ j = 1) as [->|[-> ->]] by lia.
  - rewrite Z.add_0_r. exists 0%nat. split; [|by destruct Hn as [->| ->]].
    cbn. by rewrite decide_True.
  - exists 1%nat. split; [|done]. cbn. rewrite decide_False by (intros [=]; lia).
    cbn. by rewrite decide_True.
Qed.

Definition module_paths (m : ModuleDescriptor) : list string :=
  moduleRedfishPath_ m :: (elementRedfishPath_ <$> md_elements m).

Definition module_size (m : ModuleDescriptor) : Z := Z.of_nat (length (md_elements m)).

Lemma initModule_built `{Env} nm nf mi used m st st' :
  built nm nf mi 0 (is_nextElementIdx st) used (is_orch st) →
  0 ≤ mi < Z.of_nat nm → mi < 2 ^ 16 →
  0 ≤ is_nextElementIdx st → is_nextElementIdx st + module_size m < 2 ^ 16 →
  NoDup (module_paths m) → (∀ q, q ∈ module_paths m → q ∉ used) →
  initModule st (mi, m) = Ok st' →
  is_nextElementIdx st ≤ is_nextElementIdx st' ≤ is_nextElementIdx st + module_size m ∧
  built nm nf (mi + 1) 0 (is_nextElementIdx st') (used ++ module_paths m) (is_orch st').
Proof.
  intros Hb Hmi Hmi' H0 Hn [Hni Hnd]%NoDup_cons Hfr. unfold initModule, u16_size, module_size in *.
  assert (u16 (Z.of_nat (length (md_elements m))) = Z.of_nat (length (md_elements m))) as ->
    by (unfold u16; apply Z.mod_small; lia).
  set (n := Z.of_nat (length (md_elements m))) in *.
  assert (built nm nf (mi + 1) 0 (is_nextElementIdx st) (used ++ module_paths m) (is_orch st))
    as Hskip by (eapply built_weaken; [done|lia..|set_solver]).
  destruct (Z.ltb_spec 2 n); [intros [= <-]; cbn; split; [lia|done]|].
  destruct (Z.ltb_spec n 1); [intros [= <-]; split; [lia|done]|].
  assert (n <> 2 ∨ u16 (is_nextElementIdx st + 1) = is_nextElementIdx st + 1) as Hu.
  { destruct (decide (n = 2)); [right; unfold u16; apply Z.mod_small; lia|by left]. }
  assert ((if n <? 2 then mkInstanceId Lpu (is_nextElementIdx st)
           else mkInstanceId Lpu (u16 (is_nextElementIdx st + 1))) =
    (if n <? 2 then mkInstanceId Lpu (is_nextElementIdx st)
     else mkInstanceId Lpu (is_nextElementIdx st + 1))) as ->.
  { destruct (Z.ltb_spec n 2); [done|]. destruct Hu as [?| -> ]; [lia|done]. }
  set (fsm := ModuleFsm_setOnStateChange _). rewrite (take_ge (md_elements m)) by lia.
  intros Hfold.
  apply (elements_built nm nf (mi + 1) (mkInstanceId Module_ mi) fsm (moduleRedfishPath_ m)
    (md_elements m) (moduleRedfishPath_ m :: used)) in Hfold as [E Hb'].
  - cbn in E. split; [lia|]. eapply built_weaken; [done|lia..|]. unfold module_paths. set_solver.
  - cbn. apply built_names. eapply built_module; try done. apply Hfr. by left.
  - done.
  - cbn. lia.
  - cbn. by rewrite lookup_insert_eq.
  - intros j Hj. fold n in Hj. apply module_slots; cbn; lia.
  - done.
  - intros q Hq. apply not_elem_of_cons. split; [by intros ->|]. apply Hfr. by right.
Qed.

Lemma initFpga_built `{Env} nm nf mi fi li used f st st' :
  built nm nf mi fi li used (is_orch st) → 0 ≤ fi < Z.of_nat nf → fi < 2 ^ 16 →
  fpgaRedfishPath_ f ∉ used → initFpga st (fi, f) = Ok st' →
  built nm nf mi (fi + 1) li (fpgaRedfishPath_ f :: used) (is_orch st').
Proof.
  intros Hb Hfi Hfi' Hp. unfold initFpga. set (id := mkInstanceId Fpga fi).
  assert (InstanceId_wf id) as Hid by (unfold InstanceId_wf; cbn; lia).
  intros ([[ir dr] hs] & Hinit & Heq)%res_bind_ok. revert Heq.
  pose proof (b_heap _ _ _ _ _ _ _ Hb) as Hheap. cbn [is_orch] in Hinit.
  pose proof (fpga_init_ext _ _ _ _ _ _ Hheap Hinit) as Hext.
  destruct (fpga_init_outcomes _ _ _ _ _ _ Hheap Hinit) as (Hw & _ & Hout).
  assert (built nm nf mi (fi + 1) li (fpgaRedfishPath_ f :: used)
      {| (is_orch st) with o_hal := hs |}) as Hskip.
  { apply built_hal; [|done..]. eapply built_weaken; [done|lia..|]. set_solver. }
  destruct (decide (ir = R_Absent)) as [->|_]; [done|].
  destruct (decide (ir ≠ R_Ok)) as [_|Hok]; [intros [= <-]; cbn; auto|].
  apply dec_stable in Hok as ->. destruct Hout as (_ & Hcs).
  destruct (core_started_view _ _ _ _ Hcs) as (i & subs & Hi1 & Hi2 & Hi3 & Hi4 & Hi5).
  intros [= <-]. cbn. apply built_names.
  destruct (built_free _ _ _ _ _ _ _ id Hb Hid) as [Hfe Hfd]; [by right|].
  destruct (b_tray _ _ _ _ _ _ _ Hb) as [tp Ht].
  eapply (built_element nm nf mi fi li (fi + 1) li used (is_orch st) id (fpgaRedfishPath_ f) false
    (DevFpga dr) hs); try done; [lia|right; split; [done|cbn; lia]|].
  split_and!; [done|cbn; lia|]. exists (fresh_tray nm nf), tp. split; [done|].
  cbn. apply lookup_replicate. split; [done|lia].
Qed.

(** ** The whole descriptor *)

Lemma modules_built `{Env} nm nf ms : ∀ k used st st',
  built nm nf (Z.of_nat k) 0 (is_nextElementIdx st) used (is_orch st) →
  Z.of_nat (k + length ms) ≤ Z.of_nat nm < 2 ^ 16 →
  0 ≤ is_nextElementIdx st →
  is_nextElementIdx st + Z.of_nat (length (concat (md_elements <$> ms))) < 2 ^ 16 →
  NoDup (concat (module_paths <$> ms)) → (∀ q, q ∈ concat (module_paths <$> ms) → q ∉ used) →
  foldM_res initModule st (imap (λ i m, (Z.of_nat (k + i), m)) ms) = Ok st' →
  built nm nf (Z.of_nat (k + length ms)) 0 (is_nextElementIdx st')
    (used ++ concat (module_paths <$> ms)) (is_orch st').
Proof.
  induction ms as [|m ms IH]; intros k used st st' Hb Hk H0 Hn Hnd Hfr.
  { intros [= <-]. by rewrite app_nil_r, Nat.add_0_r. }
  rewrite imap_cons. cbn [foldM_res]. intros (st1 & H1 & H2)%res_bind_ok.
  rewrite fmap_cons in Hnd, Hfr |- *. cbn [concat] in Hnd, Hfr |- *.
  rewrite fmap_cons in Hn. cbn [concat] in Hn. rewrite length_app in Hn.
  apply NoDup_app in Hnd as (Hnd1 & Hdis & Hnd2). rewrite Nat.add_0_r in H1. cbn [length] in *.
  destruct (initModule_built nm nf (Z.of_nat k) used m st st1) as [E Hb1];
    try done; unfold module_size in *; try lia.
  { intros q Hq. apply Hfr. set_solver. }
  assert (Z.of_nat k + 1 = Z.of_nat (S k)) as Hk1 by lia. rewrite Hk1 in Hb1.
  replace (k + S (length ms))%nat with (S k + length ms)%nat in * by lia.
  rewrite app_assoc. apply (IH (S k) _ st1); try done; try lia.
  - intros q Hq. rewrite elem_of_app. intros [Hu|Hu]; [apply (Hfr q); [set_solver|done]|].
    by apply (Hdis q).
  - rewrite <-H2. f_equal. apply imap_ext. intros i x _. cbn. do 2 f_equal. lia.
Qed.

Lemma fpgas_built `{Env} nm nf mi li fs : ∀ k used st st',
  built nm nf mi (Z.of_nat k) li used (is_orch st) →
  Z.of_nat (k + length fs) ≤ Z.of_nat nf < 2 ^ 16 →
  NoDup (fpgaRedfishPath_ <$> fs) → (∀ q, q ∈ fpgaRedfishPath_ <$> fs → q ∉ used) →
  foldM_res initFpga st (imap (λ i m, (Z.of_nat (k + i), m)) fs) = Ok st' →
  ∃ used', built nm nf mi (Z.of_nat (k + length fs)) li used' (is_orch st').
Proof.
  induction fs as [|f fs IH]; intros k used st st' Hb Hk Hnd Hfr.
  { intros [= <-]. exists used. by rewrite Nat.add_0_r. }
  rewrite imap_cons. cbn [foldM_res]. intros (st1 & H1 & H2)%res_bind_ok.
  rewrite fmap_cons in Hnd, Hfr. apply NoDup_cons in Hnd as [Hni Hnd].
  rewrite Nat.add_0_r in H1. cbn [length] in *.
  apply (initFpga_built nm nf mi (Z.of_nat k) li used) in H1 as Hb1;
    [|done|lia|lia|apply Hfr; by left].
  assert (Z.of_nat k + 1 = Z.of_nat (S k)) as Hk1 by lia. rewrite Hk1 in Hb1.
  replace (k + S (length fs))%nat with (S k + length fs)%nat in * by lia.
  apply (IH (S k) _ st1 st' Hb1); try lia; try done.
  - intros q Hq. apply not_elem_of_cons. split; [by intros ->|]. apply Hfr. by right.
  - rewrite <-H2. f_equal. apply imap_ext. intros i x _. cbn. do 2 f_equal. lia.
Qed.

(** What the orchestrator needs of a descriptor besides its consistency: the
    resources report under distinct paths and fit the 16-bit indices. *)
Record desc_fits (desc : PlatformDescriptor) : Prop := {
  fit_paths : NoDup (trayRedfishPath_ (pd_chassisId desc) ::
    concat (module_paths <$> pd_modules desc) ++ (fpgaRedfishPath_ <$> pd_fpgas desc));
  fit_modules : Z.of_nat (length (pd_modules desc)) < 2 ^ 16;
  fit_fpgas : Z.of_nat (length (pd_fpgas desc)) < 2 ^ 16;
  fit_elements : Z.of_nat (length (concat (md_elements <$> pd_modules desc))) < 2 ^ 16;
}.

Lemma initTray_built desc tBoot platform :
  desc_fits desc →
  built (length (pd_modules desc)) (length (pd_fpgas desc)) 0 0 0
    [trayRedfishPath_ (pd_chassisId desc)]
    (initTray desc {| (Orch_empty : DaemonState) with o_tBoot := tBoot; o_platform := platform |}).
Proof.
  intros [_ Hm Hf _]. unfold initTray, u16_size, u16.
  rewrite !Z.mod_small, !Nat2Z.id by lia.
  assert (∀ w, w ≠ OwnTray → owner_path (initTray desc
    {| (Orch_empty : DaemonState) with o_tBoot := tBoot; o_platform := platform |}) w = None) as Hno.
  { intros [k|k|] Hw; cbn; [by rewrite lookup_empty..|done]. }
  split; try done.
  - split; try done.
    + split; [intros k [x Hx]|intros k e Hk]; done.
    + split; [done..|]. by intros t p [= <- <-].
    + intros w q. destruct w as [k|k|]; cbn; [by rewrite lookup_empty..|].
      intros [= <-]. apply lookup_insert_eq.
    + intros [k|k|] [k'|k'|] q; cbn; rewrite ?lookup_empty; done.
  - by eexists.
  - by intros mk [x Hx].
  - intros k [[x Hx]|[x Hx]]; done.
  - intros [k|k|] q; cbn; rewrite ?lookup_empty; try done. intros [= <-]. by left.
Qed.

(** The orchestrator that comes up, whatever part of the hardware failed,
    satisfies the invariant, with every element in standby. *)
Lemma init_inv `{Env} g desc r o :
  desc_fits desc → initFromDescriptor desc Orch_empty = Ok (r, o) →
  orch_inv g None None o ∧ (∀ key ee, o_elements o !! key = Some ee → ee_state ee = E_Stby) ∧
  o_loop o = mkEventLoop ∅ 0 ∧ o_pendingResets o = ∅ ∧ o_trackers o = [] ∧ o_replies o = [].
Proof.
  intros Hfit. unfold initFromDescriptor.
  intros (st1 & H1 & (st2 & H2 & [= _ <-])%res_bind_ok)%res_bind_ok.
  pose proof (initTray_built desc (pd_tBootMs desc) (pd_platform desc) Hfit) as Hb0.
  destruct Hfit as [[Hn0 (Hn1 & Hdis & Hn2)%NoDup_app]%NoDup_cons Hm Hf Hel].
  eapply (modules_built _ _ _ 0) in H1; [|exact Hb0|..]; [|cbn; lia|cbn; lia|cbn; lia|done|].
  2: { intros q Hq ->%list_elem_of_singleton. apply Hn0. set_solver. }
  eapply (fpgas_built _ _ _ _ _ 0) in H2 as [used Hb]; [|exact H1|cbn; lia|done|].
  - pose proof Hb as [_ Hs Hl _ _ Hp _ _ _ _ _ [Ht Hr]]. split_and!; try done. by eapply built_inv.
  - intros q Hq. specialize (Hdis q). set_solver.
Qed.
