(* ===== verification/Replies.v ===== *)
(** * The books of the reset requests

    Every reset request is answered exactly once. The reply is sent at once,
    or it is owed: by the pending reset of its target, or by the tracker of
    its batch, whose entries are reported one by one.

    [quiet] says of a call that it leaves the books alone; only
    [completePending_], [run_callback] and the requests touch them. A predicate
    closed under quiet calls and completions ([books_pred]) is kept by every
    line edge and every timer. *)

From stdpp Require Import sorting.
From S2P Require Import Prelude Types SubscriberList FsmEngine ElementFsm ModuleFsm TrayFsm.
From S2P Require Import Reporting SubscriberList Hal Lines Drivers Orchestrator Hierarchy.
From S2P Require Import OrchInvariant OrchSteps.

(** ** Calls that leave the books alone *)

Section Quiet.
Context {D : Type} `{!IDevice D}.
Implicit Types (o x : Orch D).

(** The reset deadlines of the loop are due by [T]. *)
Definition overdue (T : Z) o : Prop :=
  ∀ n src, loop_sources (o_loop o) !! n = Some src →
    is_Some (own_reset (ts_callback src)) → ts_at src ≤ T.

Record quiet o x : Prop := {
  q_pending : o_pendingResets x = o_pendingResets o;
  q_trackers : o_trackers x = o_trackers o;
  q_replies : o_replies x = o_replies o;
  q_overdue : ∀ T, overdue T o → overdue T x;
}.

#[export] Instance quiet_preorder : PreOrder quiet.
Proof.
  split; [intros o; by split|]. intros o x y [H1 H2 H3 H4] [K1 K2 K3 K4].
  split; [congruence..|auto].
Qed.

(** A change of anything but the books and the loop. *)
Lemma quiet_same o x :
  o_pendingResets x = o_pendingResets o → o_trackers x = o_trackers o →
  o_replies x = o_replies o → o_loop x = o_loop o → quiet o x.
Proof. intros ? ? ? Hl. split; [done..|]. intros T. unfold overdue. by rewrite Hl. Qed.

Lemma quiet_foldl {A} (f : Orch D → A → Orch D) l o :
  (∀ a x, quiet x (f x a)) → quiet o (foldl f o l).
Proof.
  intros Hf. revert o. induction l as [|a l IH]; intros o; [done|]. cbn.
  etrans; [apply Hf|apply IH].
Qed.

Context `{Env}.

Lemma quiet_unref n o : quiet o (source_unref n o).
Proof.
  split; [done..|]. intros T Ho m src. cbn. rewrite lookup_delete_Some. intros [_ Hs]. by eapply Ho.
Qed.

Lemma quiet_disable n o : quiet o (source_disable n o).
Proof.
  split; [done..|]. intros T Ho m src. cbn. rewrite lookup_alter_Some.
  intros [(<- & s & Hs & ->)|[_ Hs]] Hr; [|by eapply Ho]. by apply (Ho _ _ Hs).
Qed.

Lemma quiet_add t cb o : own_reset cb = None → quiet o (add_time t cb o).2.
Proof.
  intros Hcb. unfold add_time. destruct (env_addTime _); [|by split].
  split; [done..|]. intros T Ho m src. cbn. rewrite lookup_insert_Some.
  intros [[<- <-]|[_ Hs]] Hr; [|by eapply Ho]. cbn in Hr. rewrite Hcb in Hr. by destruct Hr.
Qed.

Lemma quiet_startBoot id o : quiet o (startBootTimer_ id o).
Proof.
  unfold startBootTimer_. pose proof (quiet_add (env_now + o_tBoot o * 1000) (BootExpired id) o eq_refl).
  destruct (add_time _ _ o) as [[n|] x]; [|done]. etrans; [done|]. by apply quiet_same.
Qed.

Lemma quiet_cancelBoot id o : quiet o (cancelBootTimer_ id o).
Proof.
  unfold cancelBootTimer_. destruct (_ !! _); [|done].
  etrans; [apply quiet_unref|]. by apply quiet_same.
Qed.

Lemma quiet_cancelRetry id o : quiet o (cancelTelemetryRetry_ id o).
Proof.
  unfold cancelTelemetryRetry_. destruct (_ !! _); [|done].
  etrans; [apply quiet_unref|]. by apply quiet_same.
Qed.

Lemma quiet_scheduleRetry id a o : quiet o (scheduleTelemetryRetry_ id a o).
Proof.
  unfold scheduleTelemetryRetry_. etrans; [apply (quiet_cancelRetry id)|].
  set (y := cancelTelemetryRetry_ id o).
  pose proof (quiet_add (env_now + kTelemetryRetryInterval * 1000) (TelemetryRetry id a) y eq_refl).
  destruct (add_time _ _ y) as [[n|] x]; [|done]. etrans; [done|]. by apply quiet_same.
Qed.

Lemma quiet_polling b key o r x : call_setTelemetryPolling b key o = Some (r, x) → quiet o x.
Proof.
  unfold call_setTelemetryPolling. destruct (_ !! _); [|done].
  destruct (dev_setTelemetryPolling _ _ _) as [[? ?] ?]. intros [= <- <-]. by apply quiet_same.
Qed.

Lemma quiet_handleRetry id a o : quiet o (handleTelemetryRetry_ id a o).
Proof.
  unfold handleTelemetryRetry_. destruct (_ !! _); [|done]. case_decide; [done|].
  destruct (call_setTelemetryPolling _ _ _) as [[r x]|] eqn:Hp; [|done].
  apply quiet_polling in Hp. case_decide; [|done]. case_match; [|done].
  etrans; [done|apply quiet_scheduleRetry].
Qed.

Lemma quiet_poll id old neu o : quiet o (pollOnChange id old neu o).
Proof.
  unfold pollOnChange. case_match; [|done]. etrans; [apply (quiet_cancelRetry id)|].
  destruct (call_setTelemetryPolling _ _ _) as [[r x]|] eqn:Hp; [|done].
  apply quiet_polling in Hp. case_match; [|done]. etrans; [done|apply quiet_scheduleRetry].
Qed.

Lemma quiet_tray ev o : quiet o (tray_dispatch ev o).
Proof. destruct (tray_dispatch_frame ev o) as (tr & b & ->). by apply quiet_same. Qed.

Lemma quiet_module mk ev o : quiet o (module_dispatch mk ev o).
Proof. destruct (module_dispatch_frame mk ev o) as (ms & tr & b & ->). by apply quiet_same. Qed.

Lemma quiet_changed id path isLpu old neu o :
  quiet o (onElementStateChange id path isLpu old neu o).
Proof.
  unfold onElementStateChange. etrans; [by apply (quiet_same _ {| o with o_bus := applyStatus_element path neu true (o_bus o) |})|].
  destruct isLpu.
  - etrans; [apply (quiet_poll id old neu)|]. destruct (_ !! _); [apply quiet_module|done].
  - destruct (tray_id _); [apply quiet_tray|done].
Qed.

Lemma quiet_hook id path isLpu h o : quiet o (run_element_hook id path isLpu o h).
Proof. destruct h; [apply quiet_startBoot|apply quiet_cancelBoot|apply quiet_changed]. Qed.

Lemma quiet_dispatch key ev o : quiet o (element_dispatch key ev o).
Proof.
  unfold element_dispatch. destruct (o_elements o !! key) as [ee|]; [|done].
  destruct (ElementFsm_dispatch (ee_fsm ee) ev) as [[f hooks] r].
  etrans; [|apply quiet_foldl; intros h x; apply quiet_hook]. by apply quiet_same.
Qed.

Lemma quiet_hal hs o : quiet o {| o with o_hal := hs |}.
Proof. by apply quiet_same. Qed.

Lemma quiet_clear key o : quiet o (call_clear key o).
Proof. unfold call_clear. destruct (_ !! _); [apply quiet_hal|done]. Qed.

Lemma quiet_logDrain t o : quiet o (requestLogDrain t o).2.
Proof.
  unfold requestLogDrain. case_decide; [done|]. destruct (_ !! _); [|done]. case_decide; [done|].
  destruct (_ !! _); [|done]. destruct (dev_requestLogDrain _ _). apply quiet_hal.
Qed.

Lemma quiet_vr t b o : quiet o (setVrTelemetryConfigured t b o).2.
Proof.
  unfold setVrTelemetryConfigured. case_decide; [done|].
  destruct (o_devices o !! _); [|done]. destruct (o_elements o !! _); [|done].
  destruct (dev_setVrTelemetryConfigured _ _) as [r dev].
  set (x := {| o with o_devices := _ |}). assert (quiet o x) as Hx by by apply quiet_same.
  case_decide; [done|]. pose proof (quiet_cancelRetry t x) as Hy.
  case_decide; [by etrans|].
  destruct (call_setTelemetryPolling _ _ _) as [[p y]|] eqn:Hp; [|by etrans].
  apply quiet_polling in Hp. case_decide; cbn; [|by etrans; [|etrans]].
  etrans; [|apply quiet_scheduleRetry]. by etrans; [|etrans].
Qed.

Lemma quiet_requestReset t k o r x : requestReset t k o = Ok (r, x) → quiet o x.
Proof.
  unfold requestReset. destruct (_ !! _); [|by intros [= _ <-]].
  set (y := element_dispatch _ _ _).
  assert (quiet o y) as Hy by (etrans; [apply quiet_clear|apply quiet_dispatch]).
  destruct (o_devices y !! _); [|by intros [= _ <-]].
  intros ([r1 hs] & _ & Heq)%res_bind_ok. injection Heq as <- <-.
  etrans; [exact Hy|]. etrans; [apply (quiet_hal hs)|apply quiet_dispatch].
Qed.
End Quiet.

Create HintDb quiet discriminated.
#[export] Hint Resolve quiet_unref quiet_disable quiet_startBoot quiet_cancelBoot
  quiet_cancelRetry quiet_scheduleRetry quiet_handleRetry quiet_poll quiet_tray quiet_module
  quiet_changed quiet_hook quiet_dispatch quiet_hal quiet_clear quiet_logDrain quiet_vr : quiet.

(** ** Predicates on the books *)

Section BooksPred.
Context `{Env} {D : Type} `{!IDevice D}.
Implicit Types (o x : Orch D).

Record books_pred (P : Orch D → Prop) : Prop := {
  bp_quiet : ∀ o x, quiet o x → P o → P x;
  bp_complete : ∀ key out o, P o → P (completePending_ key out o);
}.

Context (P : Orch D → Prop) (HP : books_pred P).

Lemma books_emit ev o : P o → P (emit ev o).
Proof.
  intros Ho. unfold emit. apply (bp_quiet _ HP _ _ (quiet_dispatch (packInstance (target ev)) ev o)) in Ho.
  case_decide; [|done]. case_match; [|done]. by apply (bp_complete _ HP).
Qed.

Lemma books_subscriber cb b o : P o → P (call_subscriber cb b o).1.
Proof.
  intros Ho. destruct cb as [key|key]; cbn; (destruct (o_devices o !! key) as [dev|]; [|done]).
  - destruct (dev_sink dev); [|done]. cbn. unfold emitPowerGoodEdge. destruct b.
    + case_match; repeat apply books_emit; done.
    + apply books_emit. eapply bp_quiet; eauto with quiet.
  - destruct (dev_sink dev); [|done]. by apply books_emit.
Qed.

Lemma books_notify i b o : P o → P (notifyExternal i b o).
Proof.
  intros Ho. unfold notifyExternal, SharedLine_notifyExternal.
  destruct (line_at (o_lines o) i) as [l|]; [|done].
  set (c := if SharedLine_activeLow l then negb b else b).
  rewrite notify_runs_snapshot.
  assert (P (with_lines (SharedLine_setCachedSilently c i (o_lines o)) o)) as Hx
    by (eapply bp_quiet; eauto with quiet).
  revert Hx. generalize (with_lines (SharedLine_setCachedSilently c i (o_lines o)) o) as x.
  induction ((subs_ (sl_subs l)).*2) as [|cb cbs IH]; intros x Hx; cbn; [done|].
  apply IH. by apply books_subscriber.
Qed.

Lemma books_recover id o : P o → P (tryRecoverStickyBc_ id o).2.
Proof.
  intros Ho. unfold tryRecoverStickyBc_.
  destruct (o_devices o !! packInstance id) as [dev|]; [|done]. case_decide; [done|].
  destruct (readLineLevel _) as [e|]; [|done]. unfold tryRecoverStickyBootComplete.
  case_match; [|done]. unfold injectBootCompleteElectrical.
  destruct (o_devices o !! packInstance id) as [dev'|]; [|done].
  destruct (dev_bcLine dev'); [|done]. by apply books_notify.
Qed.

Lemma books_fire n o : P o → P (fire n o).
Proof.
  intros Ho. unfold fire. destruct (_ !! _) as [src|]; [|done]. case_match; [|done].
  apply (bp_quiet _ HP _ _ (quiet_disable n o)) in Ho. revert Ho.
  generalize (source_disable n o) as x. intros x Hx. destruct (ts_callback src) as [id|id a|key t].
  - unfold onBootExpired. set (y := match _ with Some _ => _ | None => _ end).
    assert (P y) as Hy.
    { unfold y. destruct (_ !! _); [|done]. apply (books_recover id) in Hx.
      destruct (tryRecoverStickyBc_ id x) as [[] z]; [done|]. eapply bp_quiet; eauto with quiet. }
    eapply (bp_quiet _ HP); [|exact Hy]. by apply quiet_same.
  - unfold onTelemetryRetry. eapply (bp_quiet _ HP); [|exact Hx].
    etrans; [|apply quiet_unref]. etrans; [|apply quiet_handleRetry]. by apply quiet_same.
  - unfold onResetDeadline. apply (books_recover t) in Hx.
    destruct (tryRecoverStickyBc_ t x) as [[] z]; [|by apply (bp_complete _ HP)].
    destruct (_ !! _); [by apply (bp_complete _ HP)|done].
Qed.

Lemma books_assert k steps o steps' o' :
  assertSteps k steps o = Ok (steps', o') → P o → P o'.
Proof.
  revert o steps'. induction steps as [|s steps IH]; intros o steps'; cbn; [by intros [= _ <-]|].
  intros ([s1 o1] & H1 & ([rest o2] & H2 & Heq)%res_bind_ok)%res_bind_ok Ho.
  injection Heq as _ <-. apply (IH _ _ H2). clear IH H2.
  destruct (ps_waitArmed s); cbn in H1; [|by injection H1 as _ <-].
  eapply (bp_quiet _ HP) in Ho; [|apply (quiet_dispatch (packInstance (ps_target s)) (event RstAsserted (ps_target s)))].
  destruct (o_devices _ !! _) as [dev|]; [|by injection H1 as _ <-].
  apply res_bind_ok in H1 as ([r hs] & Hr & Heq). injection Heq as _ <-.
  eapply bp_quiet; eauto with quiet.
Qed.

Lemma books_release steps o : P o → P (foldl releaseStep o steps).
Proof.
  revert o. induction steps as [|s steps IH]; intros o Ho; [done|]. cbn. apply IH.
  unfold releaseStep. destruct (ps_waitArmed s); [|done]. cbn.
  case_decide; [by apply (bp_complete _ HP)|]. eapply bp_quiet; eauto with quiet.
Qed.
End BooksPred.

(** ** The books *)

Definition reply_req (r : Reply) : nat :=
  match r with ResetReply req _ | ResetAllReply req _ => req end.

Definition cb_req (cb : ResetCallback) : option nat :=
  match cb with ReplyTo req => Some req | ReportTo _ _ => None end.

(** What a callback reports to the batch [t]. *)
Definition cb_name (t : nat) (cb : ResetCallback) : option string :=
  match cb with
  | ReplyTo _ => None
  | ReportTo t' descId => if decide (t' = t) then Some descId else None
  end.

(** What the pending resets owe, seen through [f]. *)
Definition pend_of {B} (f : ResetCallback → option B) (pd : gmap Z PendingReset) : list B :=
  omap (λ e, f (pr_callback e.2)) (map_to_list pd).

Lemma pend_of_insert {B} (f : ResetCallback → option B) pd key p :
  pd !! key = None →
  pend_of f (<[key := p]> pd) ≡ₚ option_list (f (pr_callback p)) ++ pend_of f pd.
Proof.
  intros Hk. unfold pend_of. rewrite map_to_list_insert by done. cbn.
  by destruct (f (pr_callback p)).
Qed.

Lemma pend_of_delete {B} (f : ResetCallback → option B) pd key p :
  pd !! key = Some p →
  pend_of f pd ≡ₚ option_list (f (pr_callback p)) ++ pend_of f (delete key pd).
Proof.
  intros Hk. unfold pend_of. rewrite <-(map_to_list_delete pd key p) by done. cbn.
  by destruct (f (pr_callback p)).
Qed.

Lemma omap_insert_at {A B} (f : A → option B) (l : list A) i a b :
  l !! i = Some a →
  omap f (<[i := b]> l) ++ option_list (f a) ≡ₚ omap f l ++ option_list (f b).
Proof.
  intros Hi. rewrite <-(take_drop_middle l i a Hi) at 2.
  rewrite insert_take_drop by (by eapply lookup_lt_Some).
  rewrite !omap_app. cbn. destruct (f a), (f b); cbn; solve_Permutation.
Qed.

Section Books.
Context `{Env} {D : Type} `{!IDevice D}.
Implicit Types (o x : Orch D).

(** The requests that arrived, answered or not. *)
Definition answered o : list nat := reply_req <$> o_replies o.
Definition owed o : list nat :=
  pend_of cb_req (o_pendingResets o) ++ omap tr_callback (o_trackers o).
Definition requests o : list nat := answered o ++ owed o.

Lemma run_callback_requests cb out o :
  requests (run_callback cb out o) ≡ₚ option_list (cb_req cb) ++ requests o.
Proof.
  unfold requests, answered, owed. destruct cb as [req|t d]; cbn.
  - rewrite fmap_app. cbn. solve_Permutation.
  - unfold tracker_add. destruct (o_trackers o !! t) as [[rs ex [req|]]|] eqn:Ht; cbn; [|..|done].
    + case_decide; cbn.
      * pose proof (omap_insert_at tr_callback _ t _ (mkTracker [] ex None) Ht) as Hp. cbn in Hp.
        rewrite app_nil_r in Hp. rewrite fmap_app, <-Hp. cbn. solve_Permutation.
      * pose proof (omap_insert_at tr_callback _ t _ (mkTracker (rs ++ [(d, out)]) ex (Some req)) Ht)
          as Hp. cbn in Hp. apply Permutation_app_inv_r in Hp. by rewrite Hp.
    + pose proof (omap_insert_at tr_callback _ t _ (mkTracker (rs ++ [(d, out)]) ex None) Ht)
        as Hp. cbn in Hp. rewrite !app_nil_r in Hp. by rewrite Hp.
Qed.

Lemma completePending_requests key out o :
  requests (completePending_ key out o) ≡ₚ requests o.
Proof.
  unfold completePending_. destruct (o_pendingResets o !! key) as [p|] eqn:Hp; [|done].
  rewrite run_callback_requests. unfold requests, answered, owed. cbn.
  rewrite (pend_of_delete cb_req _ key p Hp). solve_Permutation.
Qed.

Lemma quiet_requests o x : quiet o x → requests x = requests o.
Proof. intros [H1 H2 H3 _]. unfold requests, answered, owed. by rewrite H1, H2, H3. Qed.

Lemma requests_books l : books_pred (λ o, requests o ≡ₚ l).
Proof.
  split; [intros o x Hq; by rewrite (quiet_requests _ _ Hq)|].
  intros key out o <-. apply completePending_requests.
Qed.

(** Arming a wait under a free key takes the callback into the books, whether
    the loop grants the timer or not. *)
Lemma arm_requests t cb o :
  o_pendingResets o !! packInstance t = None →
  requests (armResetCompletionWait_ t cb o).2 ≡ₚ option_list (cb_req cb) ++ requests o.
Proof.
  intros Hk. unfold armResetCompletionWait_.
  destruct (add_time_cases (env_now + kResetCompletionTimeout * 1000)
    (ResetDeadline (packInstance t) t) o) as [->|[-> _]]; cbn.
  - rewrite run_callback_requests. done.
  - rewrite Hk. unfold requests, answered, owed. cbn.
    rewrite pend_of_insert by done. cbn. solve_Permutation.
Qed.
(** ** Batches *)

(** The batch [t], with entries named [names], answers [req]: it holds the
    outcomes reported, waits for the pending ones and [debt] more; or it sent
    one outcome for each name, and waits for none. *)
Definition batch_state (t : nat) (names : list string) (req : nat) (debt : list string) o : Prop :=
  ∃ tr, o_trackers o !! t = Some tr ∧ tr_expected tr = length names ∧
    let waits := pend_of (cb_name t) (o_pendingResets o) ++ debt in
    match tr_callback tr with
    | Some r => r = req ∧ (tr_results tr).*1 ++ waits ≡ₚ names ∧ waits ≠ []
    | None => waits = [] ∧ ∃ rs, ResetAllReply req rs ∈ o_replies o ∧ rs.*1 ≡ₚ names
    end.

Lemma waits_perm {A} (l l' d d' : list A) :
  l ++ d ≡ₚ l' ++ d' → (l ++ d ≠ [] → l' ++ d' ≠ []) ∧ (l ++ d = [] → l' ++ d' = []).
Proof.
  intros Hp. split; [intros Hn He; apply Hn|intros He]; rewrite He in Hp;
    [by apply Permutation_nil_r in Hp|by apply Permutation_nil_l in Hp].
Qed.

(** The books of a batch under a change of who waits. *)
Lemma batch_state_shift t names req debt debt' o x :
  o_trackers x !! t = o_trackers o !! t → (∀ r, r ∈ o_replies o → r ∈ o_replies x) →
  pend_of (cb_name t) (o_pendingResets o) ++ debt ≡ₚ
    pend_of (cb_name t) (o_pendingResets x) ++ debt' →
  batch_state t names req debt o → batch_state t names req debt' x.
Proof.
  intros Ht Hr Hp (tr & Htr & Hex & Hb). exists tr. rewrite Ht. split_and!; [done|done|].
  cbn in Hb |- *. destruct (waits_perm _ _ _ _ Hp) as [Hn He]. destruct (tr_callback tr).
  - destruct Hb as (-> & Hb & Hw). split_and!; [done| |by apply Hn]. by rewrite <-Hp.
  - destruct Hb as (Hw & rs & Hrs & Hrn). split; [by apply He|]. exists rs. auto.
Qed.

Lemma batch_state_quiet t names req debt o x :
  quiet o x → batch_state t names req debt o → batch_state t names req debt x.
Proof.
  intros [H1 H2 H3 _]. apply batch_state_shift; [by rewrite H2|by rewrite H3|by rewrite H1].
Qed.

(** A report pays the debt it was counted in. *)
Lemma run_callback_batch t names req debt cb out o :
  batch_state t names req (option_list (cb_name t cb) ++ debt) o →
  batch_state t names req debt (run_callback cb out o).
Proof.
  destruct cb as [r|t' d]; cbn; [apply batch_state_shift; try done; cbn; set_solver|].
  unfold tracker_add. destruct (o_trackers o !! t') as [tr'|] eqn:Ht'.
  2: { destruct (decide (t' = t)) as [->|]; [|done]. intros (tr & Htr & _). congruence. }
  destruct (decide (t' = t)) as [->|Hne]; cbn.
  - intros (tr & Htr & Hex & Hb). assert (tr' = tr) as -> by congruence.
    destruct tr as [rs ex [r|]]; cbn in *; [|by destruct Hb as [[_ ?]%app_nil _]].
    destruct Hb as (-> & Hp & _). assert (t < length (o_trackers o))%nat as Hlt
      by (by eapply lookup_lt_Some).
    pose proof (Permutation_length Hp) as Hlen. rewrite !length_app, length_fmap in Hlen.
    cbn in Hlen. case_decide as Hd; rewrite length_app in Hd; cbn in Hd; cbn.
    + exists (mkTracker [] ex None). cbn [o_trackers o_replies o_pendingResets]; rewrite list_lookup_insert_eq by done. split_and!; [done|done|].
      cbn. assert (pend_of (cb_name t) (o_pendingResets o) = [] ∧ debt = []) as [He ->].
      { split; apply nil_length_inv; lia. }
      rewrite He in Hp |- *. split; [done|]. exists (rs ++ [(d, out)]). split; [set_solver|].
      rewrite fmap_app. cbn in *. done.
    + exists (mkTracker (rs ++ [(d, out)]) ex (Some req)).
      cbn [o_trackers o_replies o_pendingResets]; rewrite list_lookup_insert_eq by done. split_and!; [done|done|]. cbn. split_and!; [done| |].
      * rewrite fmap_app. cbn. rewrite <-Hp. solve_Permutation.
      * intros [He ->]%app_nil. rewrite He in Hlen. cbn in Hlen. lia.
  - assert (∀ tr2 rp, (∀ r, r ∈ o_replies o → r ∈ rp) →
      batch_state t names req debt o → batch_state t names req debt
        {| o with o_trackers := <[t' := tr2]> (o_trackers o); o_replies := rp |}) as Hother.
    { intros tr2 rp Hrp. apply batch_state_shift; [cbn; by rewrite list_lookup_insert_ne|done|done]. }
    destruct (tr_callback tr'); [case_decide|]; apply (Hother _ _); set_solver.
Qed.

Lemma completePending_batch t names req debt key out o :
  batch_state t names req debt o → batch_state t names req debt (completePending_ key out o).
Proof.
  unfold completePending_. destruct (o_pendingResets o !! key) as [p|] eqn:Hp; [|done].
  intros Hb. apply run_callback_batch. revert Hb. apply batch_state_shift; [done|done|]. cbn.
  rewrite (pend_of_delete (cb_name t) _ key p Hp). solve_Permutation.
Qed.

Lemma batch_books t names req debt : books_pred (batch_state t names req debt).
Proof.
  split; [intros o x; apply batch_state_quiet|]. intros key out o. apply completePending_batch.
Qed.

Lemma arm_batch t names req debt tgt cb o :
  o_pendingResets o !! packInstance tgt = None →
  batch_state t names req (option_list (cb_name t cb) ++ debt) o →
  batch_state t names req debt (armResetCompletionWait_ tgt cb o).2.
Proof.
  intros Hk Hb. unfold armResetCompletionWait_.
  destruct (add_time_cases (env_now + kResetCompletionTimeout * 1000)
    (ResetDeadline (packInstance tgt) tgt) o) as [->|[-> _]]; cbn.
  - apply run_callback_batch. revert Hb. by apply batch_state_shift.
  - rewrite Hk. revert Hb. apply batch_state_shift; [done|done|]. cbn.
    rewrite pend_of_insert by done. cbn. solve_Permutation.
Qed.
End Books.

(** ** Requests *)

(** A predicate on the books that counts callbacks still to be taken in: a wait
    armed, or a callback run, takes one in. *)
Section LedgerPred.
Context `{Env} {D : Type} `{!IDevice D}.
Implicit Types (o x : Orch D).

Record ledger_pred (F : list ResetCallback → Orch D → Prop) : Prop := {
  lp_books : ∀ l, books_pred (F l);
  lp_run : ∀ cb out l o, F (cb :: l) o → F l (run_callback cb out o);
  lp_arm : ∀ tgt cb l o, o_pendingResets o !! packInstance tgt = None →
    F (cb :: l) o → F l (armResetCompletionWait_ tgt cb o).2;
}.

Lemma requests_ledger L : ledger_pred (λ l o, omap cb_req l ++ requests o ≡ₚ L).
Proof.
  split.
  - intros l. split.
    + intros o x Hq. by rewrite (quiet_requests _ _ Hq).
    + intros key out o. by rewrite completePending_requests.
  - intros cb out l o <-. rewrite run_callback_requests. cbn.
    destruct (cb_req cb); cbn; solve_Permutation.
  - intros tgt cb l o Hk <-. rewrite arm_requests by done. cbn.
    destruct (cb_req cb); cbn; solve_Permutation.
Qed.

Lemma omap_cons_list {A B} (f : A → option B) a l :
  omap f (a :: l) = option_list (f a) ++ omap f l.
Proof. cbn. by destruct (f a). Qed.

Lemma batch_ledger t names req : ledger_pred (λ l, batch_state t names req (omap (cb_name t) l)).
Proof.
  split.
  - intros l. apply batch_books.
  - intros cb out l o. rewrite omap_cons_list. apply run_callback_batch.
  - intros tgt cb l o Hk. rewrite omap_cons_list. by apply arm_batch.
Qed.

(** Reports go to trackers that exist. *)
Definition reports_ok (l : list ResetCallback) o : Prop :=
  (∀ key p t d, o_pendingResets o !! key = Some p → pr_callback p = ReportTo t d →
     (t < length (o_trackers o))%nat) ∧
  (∀ t d, ReportTo t d ∈ l → (t < length (o_trackers o))%nat).

Lemma run_callback_trackers cb out o :
  length (o_trackers (run_callback cb out o)) = length (o_trackers o) ∧
  o_pendingResets (run_callback cb out o) = o_pendingResets o.
Proof.
  destruct cb as [|t d]; [done|]. cbn. unfold tracker_add.
  destruct (_ !! _) as [[rs ex [req|]]|]; [case_decide|..]; cbn;
    by rewrite ?length_insert.
Qed.

Lemma reports_books l : books_pred (reports_ok l).
Proof.
  split.
  - intros o x [H1 H2 _ _]. unfold reports_ok. by rewrite H1, H2.
  - intros key out o [Hp Hl]. unfold completePending_.
    destruct (o_pendingResets o !! key) as [p|] eqn:Hk; [|done].
    unfold reports_ok. match goal with |- context [run_callback ?c ?u ?y] =>
      destruct (run_callback_trackers c u y) as [-> ->] end. cbn.
    split; [|done]. intros key' p' t d [_ Hp']%lookup_delete_Some. by eapply Hp.
Qed.

Lemma reports_ledger : ledger_pred reports_ok.
Proof.
  assert (∀ cb out l o, reports_ok (cb :: l) o → reports_ok l (run_callback cb out o)) as Hrun.
  { intros cb out l o [Hp Hl]. unfold reports_ok.
    destruct (run_callback_trackers cb out o) as [-> ->]. split; [done|].
    intros t d Hin. eapply Hl. by right. }
  split; [apply reports_books|done|]. intros tgt cb l o Hk [Hp Hl]. unfold armResetCompletionWait_.
  destruct (add_time_cases (env_now + kResetCompletionTimeout * 1000)
    (ResetDeadline (packInstance tgt) tgt) o) as [->|[-> _]]; cbn; [by apply Hrun|].
  rewrite Hk. split; cbn; [|intros t d Hin; eapply Hl; by right].
  intros key p t d. rewrite lookup_insert_Some. intros [[<- <-]|[_ Hin]]; [|by eapply Hp].
  cbn. intros ->. eapply Hl. by left.
Qed.

Context (F : list ResetCallback → Orch D → Prop) (HF : ledger_pred F).

(** A reset request takes its callback in, on every path. *)
Lemma requestResetAsync_ledger t k cb l o o' :
  requestResetAsync t k cb o = Ok o' → F (cb :: l) o → F l o'.
Proof.
  unfold requestResetAsync. intros Hr Hf. pose proof (lp_books _ HF l) as HB.
  destruct (o_pendingResets o !! packInstance t) eqn:Hp;
    [injection Hr as <-; by apply (lp_run _ HF)|].
  destruct (o_devices o !! packInstance t); [|injection Hr as <-; by apply (lp_run _ HF)].
  destruct (resetEligible_ t o); [|injection Hr as <-; by apply (lp_run _ HF)]. cbn in Hr.
  pose proof (lp_arm _ HF t cb l o Hp Hf) as Ha.
  destruct (armResetCompletionWait_ t cb o) as [[] x]; cbn in Hr, Ha; [|by injection Hr as <-].
  apply res_bind_ok in Hr as ([r y] & Hr & Heq). injection Heq as <-.
  assert (F l y) as Hy.
  { eapply (bp_quiet _ HB); [|exact Ha]. etrans; [apply quiet_clear|].
    by eapply quiet_requestReset. }
  case_decide; [done|by apply (bp_complete _ HB)].
Qed.

Lemma armSteps_ledger T l steps acc o :
  NoDup (step_key <$> steps) →
  (∀ s, s ∈ steps → o_pendingResets o !! step_key s = None) →
  F (((λ s, ReportTo T (ps_descId s)) <$> steps) ++ l) o →
  F l (foldl (armStep T) (acc, o) steps).2.
Proof.
  revert acc o. induction steps as [|s steps IH]; intros acc o Hnd Hp Hf; [done|].
  change (F (ReportTo T (ps_descId s) ::
    ((λ s, ReportTo T (ps_descId s)) <$> steps) ++ l) o) in Hf.
  rewrite fmap_cons in Hnd. apply NoDup_cons in Hnd as [Hni Hnd].
  pose proof (lp_arm _ HF (ps_target s) (ReportTo T (ps_descId s)) _ o (Hp s ltac:(by left)) Hf) as Ha.
  destruct (arm_form (ps_target s) (ReportTo T (ps_descId s)) o)
    as (lp & pd & ts & rs & Heq & Hpd).
  assert (∀ x, o_pendingResets x = pd → F (((λ s, ReportTo T (ps_descId s)) <$> steps) ++ l) x →
    ∀ acc', F l (foldl (armStep T) (acc', x) steps).2) as Hnext.
  { intros x Hx Hfx acc'. apply IH; [done| |done]. intros s' Hs'. rewrite Hx, Hpd; [apply Hp; by right|].
    intros Hk. apply Hni. fold (step_key s) in Hk. rewrite <-Hk. by apply list_elem_of_fmap_2. }
  cbn [foldl armStep]. destruct (armResetCompletionWait_ _ _ o) as [[] x]; cbn in Ha, Heq; subst x.
  - apply Hnext; [|eapply (bp_quiet _ (lp_books _ HF _)); [apply quiet_clear|done]].
    unfold call_clear. by destruct (_ !! _).
  - by apply Hnext.
Qed.
(** The state a batch opens in. *)
Definition batch_opened (early : ResetResults) (n req : nat) o : Orch D :=
  {| o with o_trackers := o_trackers o ++ [mkTracker early (length early + n) (Some req)] |}.

Definition batch_callbacks (targets : list InstanceId) o : list ResetCallback :=
  (λ id, ReportTo (length (o_trackers o)) (descIdOrInternal id o)) <$> targets.

(** A batch takes a callback in for each of its targets. *)
Lemma resetBatch_ledger k req early targets l o o' :
  targets ≠ [] → NoDup (packInstance <$> targets) →
  (∀ id, id ∈ targets → o_pendingResets o !! packInstance id = None) →
  resetBatch k req early targets o = Ok o' →
  F (batch_callbacks targets o ++ l) (batch_opened early (length targets) req o) → F l o'.
Proof.
  intros Hne Hnd Hp. unfold resetBatch.
  change (map _ targets) with
    ((λ id, mkPulseStep id (descIdOrInternal id o) false R_Ok) <$> targets).
  set (steps := _ <$> targets).
  assert (step_key <$> steps = packInstance <$> targets) as Hkeys.
  { unfold steps. by rewrite <-list_fmap_compose. }
  assert (batch_callbacks targets o =
    (λ s, ReportTo (length (o_trackers o)) (ps_descId s)) <$> steps) as ->.
  { unfold steps. by rewrite <-list_fmap_compose. }
  assert (∀ s, s ∈ steps → o_pendingResets o !! step_key s = None) as Hnone.
  { intros s (id & -> & Hid)%list_elem_of_fmap. by apply Hp. }
  assert (length steps = length targets) as Hlen by apply length_fmap.
  rewrite <-Hkeys in Hnd. clearbody steps. clear Hkeys Hp.
  destruct steps as [|s0 steps]; [by destruct targets|].
  intros Hr Hf. rewrite Hlen in Hr. fold (batch_opened early (length targets) req o) in Hr.
  pose proof (armSteps_ledger (length (o_trackers o)) l (s0 :: steps) []
    (batch_opened early (length targets) req o) Hnd Hnone Hf) as Ha.
  destruct (foldl (armStep (length (o_trackers o))) _ (s0 :: steps)) as [armed o2].
  cbn in Ha. apply res_bind_ok in Hr as ([steps3 o3] & H3 & Heq). injection Heq as <-.
  apply (books_release _ (lp_books _ HF l)). by eapply (books_assert _ (lp_books _ HF l)).
Qed.
End LedgerPred.

(** ** Every step *)

Section Accounts.
Context {D : Type} `{!IDevice D, !IDeviceLaws D}.
Implicit Types (o x : Orch D).

(** The request an input carries. *)
Definition input_req (i : OrchInput) : option nat :=
  match i with
  | InReset _ _ req | InResetAll _ _ req => Some req
  | _ => None
  end.

(** The elements a batch covers. *)
Definition eligible (c : Class_) o : list InstanceId :=
  base.filter (λ id, resetEligible_ id o = true) (presentInstances c o).

(** A batch was accepted: it is open, or answered with one outcome for each
    of its entries. *)
Definition batch_promise (req : nat) (names : list string) o : Prop :=
  (∃ t, batch_state t names req [] o) ∨
  ∃ rs, ResetAllReply req rs ∈ o_replies o ∧ rs.*1 ≡ₚ names.

(** The books balance: every tracker is that of a batch, and no report goes
    astray. *)
Definition ledger o : Prop :=
  reports_ok [] o ∧
  ∀ t, (t < length (o_trackers o))%nat → ∃ names req, batch_state t names req [] o.

Lemma pend_of_none t o :
  (∀ key p t' d, o_pendingResets o !! key = Some p → pr_callback p = ReportTo t' d →
    (t' < t)%nat) → pend_of (cb_name t) (o_pendingResets o) = [].
Proof.
  intros Hlt. unfold pend_of. apply elem_of_nil_inv. intros s Hs.
  apply list_elem_of_omap in Hs as ([key p] & Hin & Hn). apply elem_of_map_to_list in Hin.
  cbn in Hn. destruct (pr_callback p) as [|t' d] eqn:Hcb; cbn in Hn; [done|].
  case_decide; [subst t'|done]. specialize (Hlt _ _ _ _ Hin Hcb). lia.
Qed.

(** The tracker of a batch that opens. *)
Lemma batch_opened_state `{Env} early targets req o :
  reports_ok [] o → targets ≠ [] →
  batch_state (length (o_trackers o)) (early.*1 ++ ((λ id, descIdOrInternal id o) <$> targets)) req
    (omap (cb_name (length (o_trackers o))) (batch_callbacks targets o))
    (batch_opened early (length targets) req o).
Proof.
  intros [Hp _] Hne. exists (mkTracker early (length early + length targets) (Some req)).
  split_and!; [cbn; by rewrite lookup_app_r, Nat.sub_diag by lia| |].
  - cbn. by rewrite length_app, !length_fmap.
  - assert (omap (cb_name (length (o_trackers o))) (batch_callbacks targets o) =
      (λ id, descIdOrInternal id o) <$> targets) as ->.
    { unfold batch_callbacks. clear. induction targets as [|id l IH]; [done|].
      cbn [fmap list_fmap omap list_omap]. unfold cb_name at 1. rewrite decide_True by done.
      f_equal. apply IH. }
    cbn. rewrite pend_of_none by done. split_and!; [done|done|]. cbn. by destruct targets.
Qed.

Lemma batch_opened_other `{Env} t names nreq early targets req o :
  batch_state t names nreq [] o →
  batch_state t names nreq (omap (cb_name t) (batch_callbacks targets o))
    (batch_opened early (length targets) req o).
Proof.
  intros Hb. assert (t < length (o_trackers o))%nat as Hlt.
  { destruct Hb as (tr & Htr & _). by eapply lookup_lt_Some. }
  assert (omap (cb_name t) (batch_callbacks targets o) = []) as ->.
  { unfold batch_callbacks. clear -Hlt. induction targets as [|id l IH]; [done|].
    cbn [fmap list_fmap omap list_omap]. unfold cb_name at 1. rewrite decide_False by lia. apply IH. }
  revert Hb. apply batch_state_shift; [|done|done]. cbn. by rewrite lookup_app_l.
Qed.

Context `{Env}.

(** A batch answers at once when no target is left, or opens. *)
Lemma requestResetAllSync_cases c k req o o' :
  devices_keyed o → requestResetAllSync c k req o = Ok o' →
  ∃ early targets,
    early.*1 ++ ((λ id, descIdOrInternal id o) <$> targets) ≡ₚ
      (λ id, descIdOrInternal id o) <$> eligible c o ∧
    ((targets = [] ∧ o' = {| o with o_replies := o_replies o ++ [ResetAllReply req early] |}) ∨
     (targets ≠ [] ∧ NoDup (packInstance <$> targets) ∧
      (∀ id, id ∈ targets → o_pendingResets o !! packInstance id = None) ∧
      resetBatch k req early targets o = Ok o')).
Proof.
  intros Hk. pose proof (presentInstances_keys c o Hk) as Hnd. unfold requestResetAllSync.
  assert (NoDup (packInstance <$> eligible c o)) as Hnd'.
  { eapply sublist_NoDup; [exact Hnd|]. apply fmap_sublist, sublist_filter. }
  unfold eligible in *. set (el := base.filter _ (presentInstances c o)) in *. clearbody el.
  destruct el as [|e0 el0]; [intros [= <-]; exists [], []; by split; [|left]|].
  generalize dependent (e0 :: el0). clear e0 el0. intros el Hnd'.
  set (busy id := bool_decide (is_Some (o_pendingResets o !! packInstance id))).
  set (early := map _ _). set (targets := base.filter _ el). intros Hr.
  exists early, targets. split.
  - assert (early.*1 = (λ id, descIdOrInternal id o) <$> base.filter (λ id, busy id = true) el)
      as -> by (unfold early; by rewrite <-list_fmap_compose).
    rewrite <-fmap_app. apply fmap_Permutation.
    change (base.filter (λ id, busy id = true) el ++ base.filter (λ id, busy id = false) el ≡ₚ el).
    clear. induction el as [|id el IH]; [done|]. rewrite !filter_cons.
    destruct (busy id); repeat case_decide; try done.
    + by apply perm_skip.
    + rewrite <-Permutation_middle. by apply perm_skip.
  - destruct targets as [|t0 ts] eqn:Ht.
    + left. by injection Hr as <-.
    + right. rewrite <-Ht in *. split_and!; [by rewrite Ht| | |done].
      * eapply sublist_NoDup; [exact Hnd'|]. apply fmap_sublist. unfold targets.
        apply sublist_filter.
      * intros id [Hb _]%list_elem_of_filter. apply bool_decide_eq_false in Hb.
        by apply eq_None_not_Some.
Qed.

(** A predicate that counts callbacks is kept by a step that opens no batch. *)
Lemma step_ledger F l i o o' :
  ledger_pred F → orch_step i o = Ok o' → (∀ c k req, i ≠ InResetAll c k req) →
  F (option_list (ReplyTo <$> input_req i) ++ l) o → F l o'.
Proof.
  intros HF Hs Hi Hf. pose proof (lp_books _ HF l) as HB. destruct i; cbn in Hs, Hf.
  - injection Hs as <-. by apply books_notify.
  - injection Hs as <-. by apply books_fire.
  - by eapply requestResetAsync_ledger.
  - by destruct (Hi c k req).
  - injection Hs as <-. eapply bp_quiet; eauto with quiet.
  - injection Hs as <-. eapply bp_quiet; eauto with quiet.
Qed.

Lemma input_batch (i : OrchInput) :
  (∃ c k req, i = InResetAll c k req) ∨ (∀ c k req, i ≠ InResetAll c k req).
Proof. destruct i; try (by right). left. eauto. Qed.

Lemma requests_step i o o' :
  devices_keyed o → orch_step i o = Ok o' →
  requests o' ≡ₚ option_list (input_req i) ++ requests o.
Proof.
  intros Hk Hs. destruct (input_batch i) as [(c & k & req & ->)|Hi].
  2: { apply (step_ledger _ [] i o o' (requests_ledger (option_list (input_req i) ++ requests o)));
         [done|done|]. destruct i; cbn; done. }
  cbn in Hs. apply requestResetAllSync_cases in Hs
    as (early & targets & _ & [[-> ->]|(Hne & Hnd & Hp & Hb)]); [| |done].
  - unfold requests, answered, owed. cbn. rewrite fmap_app. cbn. solve_Permutation.
  - apply (resetBatch_ledger _ (requests_ledger (req :: requests o)) k req early targets [] o o'
      Hne Hnd Hp Hb). rewrite app_nil_r.
    assert (omap cb_req (batch_callbacks targets o) = []) as ->.
    { unfold batch_callbacks. clear. by induction targets. }
    unfold requests, answered, owed. cbn. rewrite omap_app. cbn. solve_Permutation.
Qed.

Lemma batch_state_step t names nreq i o o' :
  devices_keyed o → orch_step i o = Ok o' →
  batch_state t names nreq [] o → batch_state t names nreq [] o'.
Proof.
  intros Hk Hs Hb. destruct (input_batch i) as [(c & k & req & ->)|Hi].
  2: { apply (step_ledger _ [] i o o' (batch_ledger t names nreq)); [done|done|].
       destruct i; cbn; done. }
  cbn in Hs. apply requestResetAllSync_cases in Hs
    as (early & targets & _ & [[-> ->]|(Hne & Hnd & Hp & Hr)]); [| |done].
  - revert Hb. apply batch_state_shift; [done|cbn; set_solver|done].
  - apply (resetBatch_ledger _ (batch_ledger t names nreq) k req early targets [] o o'
      Hne Hnd Hp Hr). rewrite app_nil_r. by apply batch_opened_other.
Qed.

Lemma trackers_ledger n : ledger_pred (λ _ o, length (o_trackers o) = n).
Proof.
  split.
  - intros _. split; [intros o x [_ H2 _ _]; by rewrite H2|]. intros key out o.
    unfold completePending_. destruct (_ !! _); [|done]. by rewrite (proj1 (run_callback_trackers _ _ _)).
  - intros cb out _ o. by rewrite (proj1 (run_callback_trackers _ _ _)).
  - intros tgt cb _ o _. unfold armResetCompletionWait_.
    destruct (add_time_cases (env_now + kResetCompletionTimeout * 1000)
      (ResetDeadline (packInstance tgt) tgt) o) as [->|[-> _]]; cbn; [|done].
    by rewrite (proj1 (run_callback_trackers _ _ _)).
Qed.

(** A batch that opens owes its entries; the trackers there were remain. *)
Lemma resetBatch_opens k req early targets o o' :
  reports_ok [] o → targets ≠ [] → NoDup (packInstance <$> targets) →
  (∀ id, id ∈ targets → o_pendingResets o !! packInstance id = None) →
  resetBatch k req early targets o = Ok o' →
  reports_ok [] o' ∧ length (o_trackers o') = S (length (o_trackers o)) ∧
  batch_state (length (o_trackers o))
    (early.*1 ++ ((λ id, descIdOrInternal id o) <$> targets)) req [] o'.
Proof.
  intros Hok Hne Hnd Hp Hr. split_and!.
  - apply (resetBatch_ledger _ reports_ledger k req early targets [] o o' Hne Hnd Hp Hr).
    rewrite app_nil_r. destruct Hok as [Hpd _]. split.
    + intros key p t d Hk Hcb. cbn. rewrite length_app. specialize (Hpd _ _ _ _ Hk Hcb). cbn. lia.
    + intros t d (id & [= -> ->] & _)%list_elem_of_fmap. cbn. rewrite length_app. cbn. lia.
  - apply (resetBatch_ledger _ (trackers_ledger _) k req early targets [] o o' Hne Hnd Hp Hr).
    cbn. rewrite length_app. cbn. lia.
  - apply (resetBatch_ledger _ (batch_ledger _ _ req) k req early targets [] o o' Hne Hnd Hp Hr).
    rewrite app_nil_r. by apply batch_opened_state.
Qed.

Lemma ledger_step i o o' : devices_keyed o → orch_step i o = Ok o' → ledger o → ledger o'.
Proof.
  intros Hk Hs [Hok Hall].
  assert (∀ t, (t < length (o_trackers o))%nat → ∃ names req, batch_state t names req [] o')
    as Hold by (intros t (names & req & Ht)%Hall; exists names, req; by eapply batch_state_step).
  destruct (input_batch i) as [(c & k & req & ->)|Hi].
  - cbn in Hs. apply requestResetAllSync_cases in Hs
      as (early & targets & _ & [[-> ->]|(Hne & Hnd & Hp & Hb)]); [| |done].
    + split; [exact Hok|exact Hold].
    + destruct (resetBatch_opens k req early targets o o' Hok Hne Hnd Hp Hb) as (H1 & H2 & H3).
      split; [done|]. intros t Ht. rewrite H2 in Ht.
      destruct (decide (t = length (o_trackers o))) as [->|]; [by eexists _, _|].
      apply Hold. lia.
  - assert (length (o_trackers o') = length (o_trackers o)) as Hl
      by by apply (step_ledger _ [] i o o' (trackers_ledger _)).
    split; [|by rewrite Hl].
    apply (step_ledger _ [] i o o' reports_ledger); [done|done|].
    destruct Hok as [Hp _]. split; [exact Hp|]. intros t d. rewrite app_nil_r.
    destruct (input_req i); cbn; [intros ?%list_elem_of_singleton; done|intros ?%elem_of_nil; done].
Qed.

(** The replies sent stay sent. *)
Lemma replies_ledger r : ledger_pred (λ _ o, r ∈ o_replies o).
Proof.
  assert (∀ cb out o, r ∈ o_replies o → r ∈ o_replies (run_callback cb out o)) as Hrun.
  { intros [req|t d] out o Hr; cbn; [set_solver|]. unfold tracker_add.
    destruct (_ !! _) as [[rs ex [req|]]|]; cbn; [case_decide; cbn|..]; set_solver. }
  split; [|auto|].
  - intros _. split; [intros o x [_ _ H3 _]; by rewrite H3|]. intros key out o Hr.
    unfold completePending_. destruct (_ !! _); [|done]. by apply Hrun.
  - intros tgt cb _ o _ Hr. unfold armResetCompletionWait_.
    destruct (add_time_cases (env_now + kResetCompletionTimeout * 1000)
      (ResetDeadline (packInstance tgt) tgt) o) as [->|[-> _]]; cbn; [|done]. by apply Hrun.
Qed.

Lemma replies_step r i o o' :
  devices_keyed o → orch_step i o = Ok o' → r ∈ o_replies o → r ∈ o_replies o'.
Proof.
  intros Hk Hs Hr. destruct (input_batch i) as [(c & k & req & ->)|Hi].
  - cbn in Hs. apply requestResetAllSync_cases in Hs
      as (early & targets & _ & [[-> ->]|(Hne & Hnd & Hp & Hb)]); [cbn; set_solver| |done].
    by apply (resetBatch_ledger _ (replies_ledger r) k req early targets [] o o' Hne Hnd Hp Hb).
  - by apply (step_ledger _ [] i o o' (replies_ledger r)).
Qed.

Lemma promise_step req names i o o' :
  devices_keyed o → orch_step i o = Ok o' → batch_promise req names o → batch_promise req names o'.
Proof.
  intros Hk Hs [(t & Ht)|(rs & Hr & Hp)]; [left; exists t|right; exists rs].
  - by eapply batch_state_step.
  - split; [by eapply replies_step|done].
Qed.

Lemma promise_made c k req o o' :
  devices_keyed o → ledger o → orch_step (InResetAll c k req) o = Ok o' →
  batch_promise req ((λ id, descIdOrInternal id o) <$> eligible c o) o'.
Proof.
  intros Hk [Hok _] Hs. cbn in Hs. apply requestResetAllSync_cases in Hs
    as (early & targets & Hperm & [[-> ->]|(Hne & Hnd & Hp & Hb)]); [| |done].
  - right. exists early. split; [cbn; set_solver|]. rewrite <-Hperm. cbn. by rewrite app_nil_r.
  - left. exists (length (o_trackers o)).
    destruct (resetBatch_opens k req early targets o o' Hok Hne Hnd Hp Hb)
      as (_ & _ & tr & H1 & H2 & H3).
    exists tr. rewrite <-Hperm. split_and!; [done|done|]. cbn in H3 |- *. rewrite app_nil_r in H3 |- *.
    destruct (tr_callback tr); [|by setoid_rewrite <-Hperm]. by rewrite <-Hperm.
Qed.

(** A batch promised and not answered has a pending entry. *)
Lemma promise_pending req names o :
  batch_promise req names o → o_pendingResets o = ∅ →
  ∃ rs, ResetAllReply req rs ∈ o_replies o ∧ rs.*1 ≡ₚ names.
Proof.
  intros [(t & tr & _ & _ & Hb)|Hrs] He; [|done]. cbn in Hb. rewrite He in Hb.
  unfold pend_of in Hb. rewrite map_to_list_empty in Hb. cbn in Hb.
  destruct (tr_callback tr); [by destruct Hb as (_ & _ & ?)|apply Hb].
Qed.

(** Without a pending reset nothing is owed. *)
Lemma nothing_owed o : ledger o → o_pendingResets o = ∅ → owed o = [].
Proof.
  intros [_ Hall] He. unfold owed. rewrite He. unfold pend_of. rewrite map_to_list_empty. cbn.
  apply elem_of_nil_inv. intros r (tr & Htr & Hcb)%list_elem_of_omap.
  apply list_elem_of_lookup in Htr as [t Ht].
  destruct (Hall t) as (names & req & tr' & Htr' & _ & Hb); [by eapply lookup_lt_Some|].
  assert (tr' = tr) as -> by congruence. cbn in Hb. rewrite Hcb, He in Hb.
  unfold pend_of in Hb. rewrite map_to_list_empty in Hb. by destruct Hb as (_ & _ & ?).
Qed.
End Accounts.

(** ** Deadlines *)

Section Deadlines.
Context `{Env} {D : Type} `{!IDevice D, !IDeviceLaws D}.
Implicit Types (o x : Orch D).

Lemma overdue_ledger T :
  env_now + kResetCompletionTimeout * 1000 ≤ T → ledger_pred (λ _ o, overdue T o).
Proof.
  intros HT.
  assert (∀ cb out o, overdue T o → overdue T (run_callback cb out o)) as Hrun.
  { intros [req|t d] out o Ho; cbn; [exact Ho|]. unfold tracker_add.
    destruct (_ !! _) as [[rs ex [req|]]|]; cbn; [case_decide; cbn|..]; exact Ho. }
  split; [|auto|].
  - intros _. split; [intros o x [_ _ _ H4]; auto|]. intros key out o Ho.
    unfold completePending_. destruct (_ !! _); [|done]. apply Hrun.
    eapply q_overdue; [apply quiet_unref|exact Ho].
  - intros tgt cb _ o _ Ho. unfold armResetCompletionWait_.
    destruct (add_time_cases (env_now + kResetCompletionTimeout * 1000)
      (ResetDeadline (packInstance tgt) tgt) o) as [->|[-> _]]; cbn; [by apply Hrun|].
    intros n src. cbn. rewrite lookup_insert_Some.
    intros [[<- <-]|[_ Hs]] Hr; [done|by eapply Ho].
Qed.

Lemma overdue_books T : books_pred (λ o, overdue T o).
Proof.
  split; [intros o x [_ _ _ H4]; auto|]. intros key out o Ho.
  unfold completePending_. destruct (_ !! _) as [p|]; [|done].
  match goal with |- context [run_callback ?c ?u ?y] =>
    destruct (run_callback_form c u y) as (ts & rs & ->) end.
  intros n src Hs Hr. cbn in Hs. apply lookup_delete_Some in Hs as [_ Hs]. by eapply Ho.
Qed.

Lemma overdue_step T i o o' :
  env_now + kResetCompletionTimeout * 1000 ≤ T → devices_keyed o →
  orch_step i o = Ok o' → overdue T o → overdue T o'.
Proof.
  intros HT Hk Hs Ho. pose proof (overdue_ledger T HT) as HF.
  destruct (input_batch i) as [(c & k & req & ->)|Hi].
  - cbn in Hs. apply requestResetAllSync_cases in Hs
      as (early & targets & _ & [[-> ->]|(Hne & Hnd & Hp & Hb)]); [exact Ho| |done].
    by apply (resetBatch_ledger _ HF k req early targets [] o o' Hne Hnd Hp Hb).
  - by apply (step_ledger _ [] i o o' HF).
Qed.

Lemma pending_books m : books_pred (λ o : Orch D, o_pendingResets o ⊆ m).
Proof.
  split; [intros o x [H1 _ _ _]; by rewrite H1|]. intros key out o Ho.
  unfold completePending_. destruct (_ !! _) as [p|]; [|done].
  rewrite (proj2 (run_callback_trackers _ _ _)). cbn. etrans; [apply delete_subseteq|done].
Qed.

Lemma completePending_gone key out o : o_pendingResets (completePending_ key out o) !! key = None.
Proof.
  unfold completePending_. destruct (o_pendingResets o !! key) as [p|] eqn:Hp; [|done].
  rewrite (proj2 (run_callback_trackers _ _ _)). cbn. apply lookup_delete_eq.
Qed.

(** The deadline of a pending reset, once due, completes it. *)
Lemma fire_deadline g key p o :
  orch_inv g None None o → overdue env_now o → o_pendingResets o !! key = Some p →
  o_pendingResets (fire (pr_deadline p) o) ⊂ o_pendingResets o.
Proof.
  intros Hinv Hdue Hp.
  assert (o_pendingResets (fire (pr_deadline p) o) ⊆ o_pendingResets o) as Hsub.
  { apply (books_fire (λ x, o_pendingResets x ⊆ o_pendingResets o)); [apply pending_books|done]. }
  assert (o_pendingResets (fire (pr_deadline p) o) !! key = None) as Hgone.
  { destruct (oi_loop _ _ _ _ Hinv) as [_ _ _ Hl].
    destruct (to_entry _ _ _ _ Hl key (pr_deadline p)) as (src & Hs & Ho & Hen);
      [by rewrite lookup_fmap, Hp|].
    specialize (Hen ltac:(done)). unfold fire. rewrite Hs, Hen.
    assert (ts_at src ≤ env_now) as Hat by (apply (Hdue _ _ Hs); by rewrite Ho).
    apply Z.leb_le in Hat. rewrite Hat. cbn.
    destruct (ts_callback src) as [id|id a|key' t]; cbn in Ho; try done.
    injection Ho as ->. unfold onResetDeadline.
    destruct (tryRecoverStickyBc_ t _) as [[] x]; [|apply completePending_gone].
    destruct (o_pendingResets x !! key) eqn:Hx; [apply completePending_gone|done]. }
  split; [done|]. intros Hback. pose proof (lookup_weaken _ _ _ _ Hp Hback). congruence.
Qed.

(** Once every deadline is due, the loop runs them until no reset is pending. *)
Lemma drain g o :
  orch_inv g None None o → (g → ∀ n, env_addTime n = true) → overdue env_now o →
  ∃ ns o', orch_run ((λ n, (_, InFire n)) <$> ns) o o' ∧ o_pendingResets o' = ∅.
Proof.
  intros Hinv Hg Hdue. remember (o_pendingResets o) as pd eqn:Hpd. revert o Hpd Hinv Hdue.
  induction (map_wf pd) as [pd _ IH]; intros o -> Hinv Hdue.
  destruct (map_choose_or_empty (o_pendingResets o)) as [(key & p & Hp)|He].
  2: { exists [], o. split; [constructor|done]. }
  pose proof (fire_deadline g key p o Hinv Hdue Hp) as Hlt.
  destruct (IH _ Hlt (fire (pr_deadline p) o)) as (ns & o' & Hrun & He); [done| | |].
  - by apply fire_inv.
  - by apply books_fire; [apply overdue_books|].
  - exists (pr_deadline p :: ns), o'. split; [|done]. cbn. econstructor; [reflexivity|done].
Qed.
End Deadlines.
