(* ===== verification/Daemon.v ===== *)
(** * The daemon

    The properties of every state the daemon reaches: brought up from a
    descriptor that fits, then driven by any sequence of line edges, timer
    expirations and bus requests, each in the environment of its moment. *)

From S2P Require Import Prelude Types SubscriberList FsmEngine ElementFsm ModuleFsm TrayFsm.
From S2P Require Import Reporting SubscriberList Hal Lines Drivers Descriptor Orchestrator OrchInit.
From S2P Require Import Hierarchy OrchInvariant OrchSteps OrchBoot Replies.

(** [reachable granted desc ls o]: brought up from [desc], the daemon is in [o]
    after the inputs [ls]; with [granted], the loop granted every timer. *)
Definition reachable (granted : Prop) (desc : PlatformDescriptor)
    (ls : list (Env * OrchInput)) (o : DaemonState) : Prop :=
  ∃ E r o0, @initFromDescriptor E desc Orch_empty = Ok (r, o0) ∧
    orch_run ls o0 o ∧ Forall (grants granted) ls.

(** The runs of a list of inputs, executed. *)
Fixpoint run_inputs (ls : list (Env * OrchInput)) (o : DaemonState) : res string DaemonState :=
  match ls with
  | [] => Ok o
  | (E, i) :: ls => o ← @orch_step E Device _ i o; run_inputs ls o
  end.

Lemma run_inputs_run ls o o' : run_inputs ls o = Ok o' → orch_run ls o o'.
Proof.
  revert o. induction ls as [|[E i] ls IH]; intros o; cbn; [intros [= <-]; constructor|].
  intros (o1 & H1 & H2)%res_bind_ok. econstructor; [exact H1|by apply IH].
Qed.

(** ** The invariants of a run *)

Lemma orch_run_app g ls1 ls2 (o1 o2 o3 : DaemonState) :
  orch_run ls1 o1 o2 → orch_run ls2 o2 o3 → Forall (grants g) ls1 → Forall (grants g) ls2 →
  orch_run (ls1 ++ ls2) o1 o3 ∧ Forall (grants g) (ls1 ++ ls2).
Proof.
  intros H1 H2 G1 G2. split; [|by apply Forall_app].
  induction H1; [done|]. cbn. apply Forall_cons in G1 as [_ G1]. econstructor; [done|auto].
Qed.

Lemma reachable_inv g desc ls o : desc_fits desc → reachable g desc ls o → orch_inv g None None o.
Proof.
  intros Hfit (E & r & o0 & Hi & Hr & Hg). eapply orch_run_inv; [exact Hr|exact Hg|].
  by apply (@init_inv E g desc r o0 Hfit Hi).
Qed.

(** The inputs that carry a request. *)
Definition run_requests (ls : list (Env * OrchInput)) : list nat :=
  omap (λ l, input_req l.2) ls.

Lemma run_books g ls (o o' : DaemonState) :
  orch_run ls o o' → Forall (grants g) ls → orch_inv g None None o → ledger o →
  ledger o' ∧ requests o' ≡ₚ run_requests ls ++ requests o ∧
  ∀ req names, batch_promise req names o → batch_promise req names o'.
Proof.
  induction 1 as [o|E i ls o1 o2 o3 Hs Hr IH]; intros Hg Hinv Hl; [done|].
  apply Forall_cons in Hg as [[Hwf Hgr] Hg].
  pose proof (proj1 (oi_wired _ _ _ _ Hinv)) as Hk.
  pose proof (orch_step_inv (H:=E) g i o1 o2 Hinv Hgr Hwf Hs) as Hinv2.
  pose proof (ledger_step (H:=E) i o1 o2 Hk Hs Hl) as Hl2.
  pose proof (requests_step (H:=E) i o1 o2 Hk Hs) as Hq.
  destruct (IH Hg Hinv2 Hl2) as (Hl3 & Hq3 & Hp3). split_and!; [done| |].
  - rewrite Hq3, Hq. unfold run_requests. rewrite omap_cons_list. cbn. solve_Permutation.
  - intros req names Hp. apply Hp3. by eapply (promise_step (H:=E)).
Qed.

Lemma run_overdue g T ls (o o' : DaemonState) :
  orch_run ls o o' → Forall (grants g) ls → orch_inv g None None o →
  Forall (λ l, @env_now l.1 + kResetCompletionTimeout * 1000 ≤ T) ls →
  overdue T o → overdue T o'.
Proof.
  induction 1 as [o|E i ls o1 o2 o3 Hs Hr IH]; intros Hg Hinv HT Ho; [done|].
  apply Forall_cons in Hg as [[Hwf Hgr] Hg]. apply Forall_cons in HT as [Ht HT].
  apply IH; [done| |done|].
  - by eapply (orch_step_inv (H:=E)).
  - eapply (overdue_step (H:=E) T); [done|apply (oi_wired _ _ _ _ Hinv)|done|done].
Qed.

(** What a run starts from. *)
Lemma init_books `{Env} g desc r o :
  desc_fits desc → initFromDescriptor desc Orch_empty = Ok (r, o) →
  orch_inv g None None o ∧ ledger o ∧ requests o = [] ∧ ∀ T, overdue T o.
Proof.
  intros Hfit Hi. destruct (init_inv g desc r o Hfit Hi) as (Hinv & _ & Hl & Hp & Ht & Hr).
  split_and!; [done| | |].
  - split; [split|].
    + intros key p t d. by rewrite Hp.
    + by intros t d ?%elem_of_nil.
    + rewrite Ht. cbn. lia.
  - unfold requests, answered, owed. by rewrite Hp, Ht, Hr.
  - intros T n src. by rewrite Hl.
Qed.

Lemma reachable_books g desc ls o :
  desc_fits desc → reachable g desc ls o →
  ledger o ∧ requests o ≡ₚ run_requests ls.
Proof.
  intros Hfit (E & r & o0 & Hi & Hr & Hg).
  destruct (@init_books E g desc r o0 Hfit Hi) as (Hinv & Hl & Hq & _).
  destruct (run_books g ls o0 o Hr Hg Hinv Hl) as (Hl' & Hq' & _).
  split; [done|]. by rewrite Hq', Hq, app_nil_r.
Qed.

Lemma reachable_overdue g T desc ls o :
  desc_fits desc → reachable g desc ls o →
  Forall (λ l, @env_now l.1 + kResetCompletionTimeout * 1000 ≤ T) ls → overdue T o.
Proof.
  intros Hfit (E & r & o0 & Hi & Hr & Hg) HT.
  destruct (@init_books E g desc r o0 Hfit Hi) as (Hinv & _ & _ & Ho).
  by eapply run_overdue.
Qed.

Lemma reachable_app g desc ls1 ls2 o1 o2 :
  reachable g desc ls1 o1 → orch_run ls2 o1 o2 → Forall (grants g) ls2 →
  reachable g desc (ls1 ++ ls2) o2.
Proof.
  intros (E & r & o0 & Hi & Hr & Hg) H2 G2. exists E, r, o0. split; [done|]. by eapply orch_run_app.
Qed.

(** ** What holds in every state *)

(** C6: The status object of every resource that reports carries, at any time, the
    status its FSM state calls for. *)
Theorem bus_mirrors_fsms g desc ls o w path :
  desc_fits desc → reachable g desc ls o → owner_path o w = Some path →
  o_bus o !! path = owner_status o w.
Proof. intros Hfit Hr. apply (oi_bus _ _ _ _ (reachable_inv _ _ _ _ Hfit Hr)). Qed.

(** C7: Every parent mirrors its children: the slot of an LPU in its module holds
    the LPU's state, the slots of an FPGA and of a module in the tray hold
    theirs. *)
Theorem parents_mirror_children g desc ls o :
  desc_fits desc → reachable g desc ls o →
  (∀ key ee, o_elements o !! key = Some ee → ee_isLpu ee = true →
     ∃ mk m p slot, o_elementToModule o !! key = Some mk ∧ o_modules o !! mk = Some (m, p) ∧
       mc_childIds (mf_ctx m) !! slot = Some (ee_id ee) ∧
       mc_childStates (mf_ctx m) !! slot = Some (ee_state ee)) ∧
  (∀ key ee, o_elements o !! key = Some ee → ee_isLpu ee = false →
     ∃ t p, o_tray o = Some (t, p) ∧
       tc_fpgaStates (tf_ctx t) !! Z.to_nat (index (ee_id ee)) = Some (ee_state ee)) ∧
  (∀ mk m p, o_modules o !! mk = Some (m, p) →
     ∃ t tp, o_tray o = Some (t, tp) ∧
       tc_moduleStates (tf_ctx t) !! Z.to_nat (index (mc_id (mf_ctx m))) = Some (mf_state m)).
Proof.
  intros Hfit Hr. destruct (oi_children _ _ _ _ (reachable_inv _ _ _ _ Hfit Hr)) as [Hl Hf Hm _].
  split_and!.
  - intros key ee He Hlpu. destruct (Hl _ _ He Hlpu) as (mk & m & p & slot & H1 & H2 & H3 & H4).
    exists mk, m, p, slot. apply list_find_Some in H3 as (H3 & _). done.
  - intros key ee He Hlpu. by destruct (Hf _ _ He Hlpu) as (_ & _ & H3).
  - intros mk m p Hmk. by destruct (Hm _ _ _ Hmk) as (_ & _ & _ & _ & H5).
Qed.

(** Every element is in a consistent state: it carries a fault code exactly in
    S_FAULT, and it is in S_STBY as long as its power-good was never seen. *)
Theorem elements_consistent g desc ls o key ee :
  desc_fits desc → reachable g desc ls o → o_elements o !! key = Some ee →
  (ec_faultCode (ef_ctx (ee_fsm ee)) ≠ FC_None ↔ ee_state ee = E_Fault) ∧
  (ef_seenPgHi (ee_fsm ee) = false → ee_state ee = E_Stby) ∧
  packInstance (ee_id ee) = key.
Proof.
  intros Hfit Hr He.
  destruct (oi_elements _ _ _ _ (reachable_inv _ _ _ _ Hfit Hr) _ _ He) as ([_ _ _ Hf Hs] & Hk & _).
  split_and!; [|done|done]. unfold ee_state. rewrite Hf.
  destruct (ef_state (ee_fsm ee)); naive_solver.
Qed.

(** C5: A boot deadline guards every element that boots. Whatever the loop does with the
    timers it is asked for, a boot timer is armed only for an element in S_POWERED,
    and it is the only enabled source of the loop that will time this element out;
    if the loop grants the timers it is asked for ([granted]), every element in
    S_POWERED has its timer armed. When it refuses one, the code logs it and leaves
    the element in S_POWERED without a deadline. *)
Theorem boot_deadline_guards granted desc ls o key ee :
  desc_fits desc → reachable granted desc ls o → o_elements o !! key = Some ee →
  (is_Some (o_bootTimers o !! key) → ee_state ee = E_Powered) ∧
  (granted → ee_state ee = E_Powered → is_Some (o_bootTimers o !! key)) ∧
  ∀ n src id, loop_sources (o_loop o) !! n = Some src → ts_callback src = BootExpired id →
    packInstance id = key →
    (ts_enabled src = true ↔ o_bootTimers o !! key = Some n).
Proof.
  intros Hfit Hr He. pose proof (reachable_inv _ _ _ _ Hfit Hr) as Hinv.
  destruct (oi_loop _ _ _ _ Hinv) as [_ [Hen Hm] _ _].
  destruct (oi_boot _ _ _ _ Hinv) as [Ha Hg _]. split_and!.
  - intros [n Hn]. destruct (Ha _ _ Hn) as (ee' & He' & Hs). congruence.
  - intros Hgr. by apply Hg.
  - intros n src id Hs Hcb <-. split.
    + intros Hon. apply (Hen _ _ _ Hs Hon). by rewrite Hcb.
    + intros Hn. destruct (Hm _ _ Hn) as (src' & Hs' & _ & Hon).
      assert (src' = src) as -> by congruence. by apply Hon.
Qed.

(** A telemetry retry is scheduled only for an LPU in S_ONLINE, and it is the
    only enabled one of this LPU. *)
Theorem retry_only_online g desc ls o n src id attempt :
  desc_fits desc → reachable g desc ls o →
  loop_sources (o_loop o) !! n = Some src → ts_enabled src = true →
  ts_callback src = TelemetryRetry id attempt →
  o_retryTimers o !! packInstance id = Some n ∧
  ∃ ee, o_elements o !! packInstance id = Some ee ∧ ee_state ee = E_Online ∧ ee_isLpu ee = true.
Proof.
  intros Hfit Hr Hs Hon Hcb. pose proof (reachable_inv _ _ _ _ Hfit Hr) as Hinv.
  destruct (oi_loop _ _ _ _ Hinv) as [_ _ [Hen _] _].
  assert (o_retryTimers o !! packInstance id = Some n) as Hn
    by (apply (Hen _ _ _ Hs Hon); by rewrite Hcb).
  split; [done|]. by apply (bo_retry _ _ (oi_boot _ _ _ _ Hinv) _ n).
Qed.

(** When a boot deadline passes, the element is not left booting: it comes
    online if its boot-complete line is found asserted, otherwise it goes to
    S_FAULT with BOOT_TIMEOUT; its timer is gone. *)
Theorem boot_deadline_outcome `{Env} g desc ls o n src id :
  desc_fits desc → reachable g desc ls o → (g → ∀ n, env_addTime n = true) →
  loop_sources (o_loop o) !! n = Some src → ts_enabled src = true → ts_at src ≤ env_now →
  ts_callback src = BootExpired id →
  o_bootTimers (fire n o) !! packInstance id = None ∧
  ∃ ee, o_elements (fire n o) !! packInstance id = Some ee ∧
    (if (tryRecoverStickyBc_ id (source_disable n o)).1 then ee_state ee = E_Online
     else ee_state ee = E_Fault ∧ ec_faultCode (ef_ctx (ee_fsm ee)) = BootTimeout).
Proof.
  intros Hfit Hr Hg Hs Hon Hat Hcb. pose proof (reachable_inv _ _ _ _ Hfit Hr) as Hinv.
  pose proof Hinv as (Hst & Hlo & Hbo)%orch_inv_static.
  destruct (loop_ok_fire n src o Hlo Hs Hon) as [Hf Hdis]. rewrite Hcb in Hf.
  destruct Hf as [Hl Hk]. destruct (bo_armed _ _ Hbo _ _ Hk) as (ee & He & Hse).
  assert (fire n o = onBootExpired id (source_disable n o)) as ->.
  { unfold fire. by rewrite Hs, Hon, Hcb, (proj2 (Z.leb_le _ _) Hat). }
  split; [unfold onBootExpired; cbn; apply lookup_delete_eq|].
  eapply (onBootExpired_inv g id n); [|done|exact He|done|exact Hk|exact Hdis|done].
  apply orch_inv_static. split_and!; [by apply (static_ok_same o)|done|by apply (boot_ok_same _ o)].
Qed.

(** ** Requests are answered *)

(** C1: Every reset request is accounted for, exactly once: the requests answered,
    with those owed by a pending reset or by an open batch, are the requests
    that arrived. With distinct numbers
    none is answered twice. *)
Theorem requests_accounted g desc ls o :
  desc_fits desc → reachable g desc ls o → answered o ++ owed o ≡ₚ run_requests ls.
Proof. intros Hfit Hr. by apply (reachable_books g desc). Qed.

(** C2: Every reset request is answered: 20 s after the last input, the loop has
    only to run the deadlines that are due, whatever the lines and the devices
    do, and each request has had its one reply. *)
Theorem deadlines_answer_all `{E : Env} g desc ls o :
  desc_fits desc → reachable g desc ls o → (g → ∀ n, env_addTime n = true) →
  Forall (λ l, @env_now l.1 + kResetCompletionTimeout * 1000 ≤ env_now) ls →
  ∃ ns o', orch_run ((λ n, (E, InFire n)) <$> ns) o o' ∧
    o_pendingResets o' = ∅ ∧ answered o' ≡ₚ run_requests ls.
Proof.
  intros Hfit Hr Hg HT. pose proof (reachable_inv _ _ _ _ Hfit Hr) as Hinv.
  pose proof (reachable_overdue _ _ _ _ _ Hfit Hr HT) as Hdue.
  destruct (drain g o Hinv Hg Hdue) as (ns & o' & Hrun & He).
  exists ns, o'. split_and!; [done|done|].
  assert (Forall (grants g) ((λ n, (E, InFire n)) <$> ns)) as Hgr.
  { apply Forall_fmap, Forall_true. intros n. by split. }
  destruct (reachable_books g desc _ o' Hfit (reachable_app _ _ _ _ _ _ Hr Hrun Hgr)) as [Hl Hq].
  unfold requests in Hq. rewrite (nothing_owed o' Hl He), app_nil_r in Hq. rewrite Hq.
  unfold run_requests. rewrite omap_app.
  assert (omap (λ l : Env * OrchInput, input_req l.2) ((λ n, (E, InFire n)) <$> ns) = []) as ->
    by (clear; by induction ns). by rewrite app_nil_r.
Qed.

(** C3: A batch reports on every element it covers: whatever happens after a
    ResetAll, once no reset is pending its reply holds exactly one outcome for
    each element that was present and eligible. *)
Theorem batch_covers_eligible `{E : Env} g desc ls1 ls2 o1 o2 o3 c k req :
  desc_fits desc → reachable g desc ls1 o1 → (g → ∀ n, env_addTime n = true) →
  orch_step (InResetAll c k req) o1 = Ok o2 → orch_run ls2 o2 o3 → Forall (grants g) ls2 →
  o_pendingResets o3 = ∅ →
  ∃ rs, ResetAllReply req rs ∈ o_replies o3 ∧
    rs.*1 ≡ₚ (λ id, descIdOrInternal id o1) <$> eligible c o1.
Proof.
  intros Hfit Hr Hg Hs Hrun Hgr He. pose proof (reachable_inv _ _ _ _ Hfit Hr) as Hinv.
  pose proof (proj1 (oi_wired _ _ _ _ Hinv)) as Hk.
  destruct (reachable_books _ _ _ _ Hfit Hr) as [Hl _].
  eapply promise_pending; [|exact He].
  apply (run_books g ls2 o2 o3 Hrun Hgr).
  - by apply (orch_step_inv (H:=E) g (InResetAll c k req) o1).
  - by apply (ledger_step (H:=E) (InResetAll c k req) o1).
  - by eapply promise_made.
Qed.

(** The reply to a reset request that is answered at once. *)
Definition replied (req : nat) (out : ResetOutcome) (o : DaemonState) : DaemonState :=
  {| o with o_replies := o_replies o ++ [ResetReply req out] |}.

(** A reset request, on every path: a second reset of a target is refused as
    busy; a target that is unknown or never had power is not present; neither
    touches anything else. Otherwise the element is reset, and the reply waits
    for its boot-complete; or it reports at once why the loop or the driver
    refused, and nothing is pending. *)
Theorem reset_request_outcomes `{Env} g desc ls o tgt k req o' :
  desc_fits desc → reachable g desc ls o →
  requestResetAsync tgt k (ReplyTo req) o = Ok o' →
  let key := packInstance tgt in
  match o_pendingResets o !! key, resetEligible_ tgt o with
  | Some _, _ => o' = replied req RO_Busy o
  | None, false => o' = replied req RO_NotPresent o
  | None, true =>
      (o_replies o' = o_replies o ∧ env_addTime (loop_next (o_loop o)) = true ∧
       pr_callback <$> o_pendingResets o' !! key = Some (ReplyTo req)) ∨
      (∃ out, out ∈ [RO_NotSupported; RO_NotPresent; RO_PulseFailed] ∧
       o_replies o' = o_replies o ++ [ResetReply req out] ∧ o_pendingResets o' !! key = None)
  end.
Proof.
  intros Hfit Hr. pose proof (reachable_inv _ _ _ _ Hfit Hr) as Hinv. cbv zeta.
  unfold requestResetAsync. destruct (o_pendingResets o !! packInstance tgt) eqn:Hp;
    [by intros [= <-]|].
  destruct (resetEligible_ tgt o) eqn:Hel.
  2: { destruct (o_devices o !! _); by intros [= <-]. }
  assert (is_Some (o_devices o !! packInstance tgt)) as [dev ->].
  { unfold resetEligible_ in Hel. destruct (o_elements o !! _) as [ee|] eqn:He; [|done].
    destruct (proj2 (oi_wired _ _ _ _ Hinv) _ _ He) as (i & nm & subs & Hv & _).
    apply fmap_Some in Hv as (dev & Hd & _). by exists dev. }
  cbn [negb]. unfold armResetCompletionWait_.
  destruct (add_time_cases (env_now + kResetCompletionTimeout * 1000)
    (ResetDeadline (packInstance tgt) tgt) o) as [->|[-> Hadd]]; cbn.
  { intros [= <-]. right. exists RO_PulseFailed. split_and!; [set_solver|done|done]. }
  rewrite Hp. intros ([r x] & Hreset & Heq)%res_bind_ok. injection Heq as <-.
  set (p := mkPendingReset (loop_next (o_loop o)) tgt (ReplyTo req)) in *.
  apply quiet_requestReset in Hreset.
  match type of Hreset with quiet (call_clear ?key ?y) _ =>
    pose proof (transitivity (quiet_clear key y) Hreset) as [Hq1 _ Hq3 _] end. cbn in Hq1, Hq3.
  assert (o_pendingResets x !! packInstance tgt = Some p) as Hpx
    by (by rewrite Hq1, lookup_insert_eq).
  case_decide; [left; by rewrite Hpx|]. right. exists (outcome_of_result r). split_and!.
  - destruct r; set_solver.
  - unfold completePending_. rewrite Hpx. cbn. by rewrite Hq3.
  - apply completePending_gone.
Qed.

(** ** Lines *)

(** The line reads low, or has not been read. *)
Definition line_low (h : LineHeap LineCallback) (i : nat) : Prop :=
  ∀ l, line_at h i = Some l → SharedLine_hasValue l && SharedLine_read l = false.

Lemma line_low_set i j h :
  i = j ∨ line_low h j → line_low (SharedLine_setCachedSilently false i h) j.
Proof.
  intros Hij l. unfold SharedLine_setCachedSilently. rewrite line_at_update.
  destruct (decide (i = j)) as [->|Hne]; [|destruct Hij; [done|auto]].
  intros (l0 & _ & ->)%fmap_Some. apply andb_false_r.
Qed.

Section LowLines.
Context `{Env} {D : Type} `{!IDevice D, !IDeviceLaws D}.
Implicit Types (o : Orch D).

Lemma dispatch_lines key ev o : elements_ok o → o_lines (element_dispatch key ev o) = o_lines o.
Proof.
  intros Hel. destruct (o_elements o !! key) as [ee|] eqn:He;
    [|by unfold element_dispatch; rewrite He].
  rewrite (element_dispatch_form key ev o ee) by done. cbn.
  destruct (entry_spec ee (kind ev)) as [[[s' fc'] hooks]|] eqn:Hsp; [|done]. cbn.
  destruct (hooks_form (ee_id ee) (ee_path ee) (ee_isLpu ee) _ _ _ _ _ _
    {| o with o_elements := <[key := entry_next ee (kind ev) s' fc']> (o_elements o) |} Hsp)
    as (lp & bt & ->).
  case_decide; [done|]. rewrite onElementStateChange_split.
  match goal with |- context [tell_parent ?a ?b ?c ?z] =>
    destruct (tell_parent_frame a b c z) as (ms & tr & bs & ->) end. cbn.
  destruct (ee_isLpu ee); [|done].
  match goal with |- context [pollOnChange ?a ?b ?c ?z] =>
    destruct (pollOnChange_form a b c z) as (? & ? & ? & ? & -> & _ & Hl) end. exact Hl.
Qed.

Lemma emit_lines ev o : elements_ok o → o_lines (emit ev o) = o_lines o.
Proof.
  intros Hel. rewrite <-(dispatch_lines (packInstance (target ev)) ev o Hel).
  unfold emit. case_decide; [|done]. case_match; [|done].
  match goal with |- context [completePending_ ?k ?r ?z] =>
    destruct (completePending_form k r z) as (? & ? & ? & ? & -> & _) end. done.
Qed.

(** A falling edge delivered to one subscriber. *)
Lemma subscriber_falls cb o j :
  elements_ok o →
  dev_view <$> o_devices (call_subscriber cb false o).1 = dev_view <$> o_devices o ∧
  (line_low (o_lines o) j → line_low (o_lines (call_subscriber cb false o).1) j) ∧
  (∀ key dev, cb = PgCallback key → o_devices o !! key = Some dev → dev_sink dev = true →
     dev_bcLine dev = Some j → line_low (o_lines (call_subscriber cb false o).1) j).
Proof.
  intros Hel. destruct cb as [key|key]; cbn.
  - destruct (o_devices o !! key) as [dev|] eqn:Hd; 
      [|cbn; split_and!; [reflexivity|tauto|intros k d [= <-] Hk Hk2; congruence]].
    destruct (dev_sink dev) eqn:Hsk; cbn;
      [|split_and!; [reflexivity|tauto|intros k d [= <-] Hk Hk2; congruence]].
    assert (elements_ok (call_clear key o) ∧ o_devices (call_clear key o) = o_devices o ∧
      o_lines (call_clear key o) = match dev_bcLine dev with
        | Some i => SharedLine_setCachedSilently false i (o_lines o) | None => o_lines o end)
      as (Hel' & Hdv & Hln).
    { unfold call_clear. rewrite Hd. split_and!; [exact Hel|done|]. apply law_clear. }
    rewrite emit_views, emit_lines, Hdv, Hln by done. split_and!; [done| |].
    + intros Hj. destruct (dev_bcLine dev) as [i|]; [|done]. apply line_low_set. by right.
    + intros k d [= <-] Hk _ Hb. assert (d = dev) as -> by congruence. rewrite Hb.
      apply line_low_set. by left.
  - destruct (o_devices o !! key) as [dev|]; [|done]. destruct (dev_sink dev); [|done]. cbn.
    rewrite emit_views, emit_lines by done. done.
Qed.

Lemma notify_falls g xb xr key j cbs o :
  orch_inv g xb xr o → (g → ∀ n, env_addTime n = true) →
  (∃ id name, dev_view <$> o_devices o !! key = Some (id, true, Some j, name)) →
  line_low (o_lines o) j ∨ PgCallback key ∈ cbs →
  let x := foldl (λ x cb, (call_subscriber cb false x).1) o cbs in
  dev_view <$> o_devices x = dev_view <$> o_devices o ∧ line_low (o_lines x) j.
Proof.
  intros Hinv Hg (id & name & Hv) Hin. cbn. revert o Hinv Hv Hin.
  induction cbs as [|cb cbs IH]; intros o Hinv Hv Hin; cbn.
  { split; [done|]. destruct Hin as [|?%elem_of_nil]; done. }
  pose proof (oi_elements _ _ _ _ Hinv) as Hel.
  destruct (subscriber_falls cb o j Hel) as (Hvw & Hkeep & Hset).
  assert (dev_view <$> o_devices (call_subscriber cb false o).1 !! key =
    Some (id, true, Some j, name)) as Hv' by (by rewrite <-lookup_fmap, Hvw, lookup_fmap).
  destruct (IH (call_subscriber cb false o).1) as [Hvx Hlow]; [by apply call_subscriber_inv|done| |].
  - destruct Hin as [Hlow|[<-|Hin]%elem_of_cons]; [left; auto| |by right]. left.
    apply fmap_Some in Hv as (dev & Hd & Hv). unfold dev_view in Hv.
    injection Hv as _ Hsk Hbc _. exact (Hset key dev eq_refl Hd (eq_sym Hsk) (eq_sym Hbc)).
  - split; [|done]. by rewrite Hvx.
Qed.

Lemma view_bcLine (dev : D) id sk line name :
  dev_view dev = (id, sk, line, name) → dev_bcLine dev = line.
Proof. by intros [=]. Qed.
End LowLines.

(** A boot-complete level from before a power loss is never reused: when the
    power-good line of an element falls, its latched boot-complete reads low,
    so that the next power-good alone does not bring the element online. *)
Theorem pg_drop_clears_boot_complete `{Env} g desc ls o i b l key ee :
  desc_fits desc → reachable g desc ls o → (g → ∀ n, env_addTime n = true) →
  o_elements o !! key = Some ee → line_at (o_lines o) i = Some l →
  PgCallback key ∈ (subs_ (sl_subs l)).*2 → SharedLine_activeLow l = b →
  ∃ dev, o_devices (notifyExternal i b o) !! key = Some dev ∧
    dev_bcHigh dev (o_hal (notifyExternal i b o)) = false.
Proof.
  intros Hfit Hr Hg He Hl Hin <-. pose proof (reachable_inv _ _ _ _ Hfit Hr) as Hinv.
  destruct (proj2 (oi_wired _ _ _ _ Hinv) _ _ He) as (j & name & subs & Hv & _ & _).
  unfold notifyExternal, SharedLine_notifyExternal. rewrite Hl, notify_runs_snapshot.
  assert ((if SharedLine_activeLow l then negb (SharedLine_activeLow l) else SharedLine_activeLow l)
    = false) as -> by by destruct (SharedLine_activeLow l).
  apply (with_lines_inv _ _ _ false i) in Hinv.
  destruct (notify_falls g None None key j ((subs_ (sl_subs l)).*2) _ Hinv Hg) as [Hvx Hlow];
    [by exists (ee_id ee), name|by right|].
  set (x := foldl _ _ _) in *.
  assert (dev_view <$> o_devices x !! key = Some (ee_id ee, true, Some j, name)) as Hv'
    by (by rewrite <-lookup_fmap, Hvx, lookup_fmap).
  apply fmap_Some in Hv' as (dev & Hd & Hv'). exists dev. split; [done|].
  rewrite law_bcHigh, (view_bcLine dev _ _ _ _ (eq_sym Hv')). cbn.
  destruct (line_at (hs_lines (o_hal x)) j) as [l'|] eqn:Hl'; [|done]. by apply Hlow.
Qed.

(** Every element is driven by a started device of its own, whose
    boot-complete line is live and calls it back; nothing ever detaches it. *)
Theorem elements_wired g desc ls o key ee :
  desc_fits desc → reachable g desc ls o → o_elements o !! key = Some ee →
  ∃ dev i l, o_devices o !! key = Some dev ∧ dev_id dev = ee_id ee ∧ dev_sink dev = true ∧
    dev_bcLine dev = Some i ∧ line_at (o_lines o) i = Some l ∧
    BcCallback key ∈ (subs_ (sl_subs l)).*2.
Proof.
  intros Hfit Hr He. pose proof (reachable_inv _ _ _ _ Hfit Hr) as Hinv.
  destruct (proj2 (oi_wired _ _ _ _ Hinv) _ _ He) as (i & name & subs & Hv & Hs & Hin).
  apply fmap_Some in Hv as (dev & Hd & Hv). apply fmap_Some in Hs as (l & Hl & ->).
  exists dev, i, l. unfold dev_view in Hv. injection Hv as H1 H2 H3 _. done.
Qed.

(** ** Timers that stay *)

(** The timeout of a booting element leaves the loop alone. *)
Lemma expiry_keeps_loop `{Env} key id ee (o : DaemonState) :
  elements_ok o → o_elements o !! key = Some ee → ee_state ee = E_Powered →
  o_loop (element_dispatch key (event TBootExpired id) o) = o_loop o.
Proof.
  intros Hel He Hs.
  assert (entry_spec ee (kind (event TBootExpired id)) = Some (E_Fault, BootTimeout, []))
    as Hsp by (unfold entry_spec; by rewrite Hs).
  rewrite (element_dispatch_form key _ o ee) by done. rewrite Hsp. cbn [foldl]. cbv zeta.
  rewrite decide_False by (by rewrite Hs). rewrite onElementStateChange_split.
  match goal with |- context [tell_parent ?a ?b ?c ?z] =>
    destruct (tell_parent_frame a b c z) as (ms & tr & bs & ->) end.
  unfold pollOnChange. rewrite Hs. by destruct (ee_isLpu ee).
Qed.

(** A re-read that recovers nothing changes nothing. *)
Lemma recover_false `{Env} id (o : DaemonState) :
  (tryRecoverStickyBc_ id o).1 = false → tryRecoverStickyBc_ id o = (false, o).
Proof.
  unfold tryRecoverStickyBc_. destruct (o_devices o !! packInstance id) as [dev|]; [|done].
  case_decide; [done|]. destruct (readLineLevel _) as [e|]; [|done].
  unfold tryRecoverStickyBootComplete. case_match; [|done]. unfold injectBootCompleteElectrical.
  destruct (o_devices o !! packInstance id) as [dev'|]; [|done]. by destruct (dev_bcLine dev').
Qed.

(** A boot deadline that times an element out leaves its source behind: the
    source stays in the loop, disabled, with no timer map naming it, so nothing
    will unreference it and its context is never freed. *)
Theorem expired_boot_timer_leaks `{Env} g desc ls o n src id :
  desc_fits desc → reachable g desc ls o →
  loop_sources (o_loop o) !! n = Some src → ts_enabled src = true → ts_at src ≤ env_now →
  ts_callback src = BootExpired id → (tryRecoverStickyBc_ id (source_disable n o)).1 = false →
  loop_sources (o_loop (fire n o)) !! n = Some (mkTimerSource (ts_at src) false (BootExpired id)) ∧
  ∀ key, o_bootTimers (fire n o) !! key ≠ Some n.
Proof.
  intros Hfit Hr Hs Hon Hat Hcb Hrec. pose proof (reachable_inv _ _ _ _ Hfit Hr) as Hinv.
  assert (reachable False desc ls o) as Hr'.
  { destruct Hr as (E & r & o0 & H1 & H2 & H3). exists E, r, o0. split_and!; [done|done|].
    eapply Forall_impl; [exact H3|]. intros [E' i] [? _]. by split. }
  pose proof (reachable_inv _ _ _ _ Hfit Hr') as Hinv'.
  pose proof Hinv as (Hst & Hlo & Hbo)%orch_inv_static.
  destruct (loop_ok_fire n src o Hlo Hs Hon) as [Hf Hdis]. rewrite Hcb in Hf.
  destruct Hf as [_ Hk]. destruct (bo_armed _ _ Hbo _ _ Hk) as (ee & He & Hse).
  pose proof (oi_elements _ _ _ _ Hinv) as Hel.
  destruct (Hel _ _ He) as (_ & Hkey & _). fold (ee_id ee) in Hkey.
  assert (fire n o = onBootExpired id (source_disable n o)) as Heq.
  { unfold fire. by rewrite Hs, Hon, Hcb, (proj2 (Z.leb_le _ _) Hat). }
  assert (orch_inv False None None (fire n o)) as Hx by (apply fire_inv; [done|tauto]).
  assert (loop_sources (o_loop (fire n o)) !! n =
    Some (mkTimerSource (ts_at src) false (BootExpired id))) as Hsrc.
  { rewrite Heq. unfold onBootExpired. cbn [source_disable o_elements]. rewrite He.
    assert (static_ok (source_disable n o)) as Hst' by by apply (static_ok_same o).
    rewrite (recover_false id (source_disable n o) Hrec). cbn [o_loop].
    rewrite (expiry_keeps_loop _ id ee); [|apply (so_elements _ Hst')|done|done].
    rewrite Hdis. by rewrite Hcb. }
  split; [done|]. intros key Hn.
  destruct (oi_loop _ _ _ _ Hx) as [_ [_ Hm] _ _]. destruct (Hm _ _ Hn) as (src' & Hs' & _ & Hen).
  specialize (Hen ltac:(done)). rewrite Hsrc in Hs'. by injection Hs' as <-.
Qed.

(** ** On the bench

    The small tray: two LPUs share a power-good line (line 0), their
    boot-complete lines are 1 and 2; the FPGA's lines are 3 and 4. *)

Definition at_ (t : Z) : Env := {| tray_env with env_now := t |}.

Definition daemon_after (ls : list (Env * OrchInput)) : DaemonState :=
  match run_inputs ls tray0 with Ok o => o | Throw _ => tray0 end.

(** The LPUs get power and the first one boots. *)
Definition boot_inputs : list (Env * OrchInput) :=
  [(at_ 0, InEdge 0 true); (at_ 1000000, InEdge 1 true)].

(** Then all LPUs are reset, and the first one once more. *)
Definition reset_inputs : list (Env * OrchInput) :=
  boot_inputs ++ [(at_ 2000000, InResetAll Lpu Warm 7);
                  (at_ 2100000, InReset (mkInstanceId Lpu 0) Warm 8)].

Lemma small_tray_fits : desc_fits small_tray.
Proof. split; [|vm_compute; reflexivity..]. apply (bool_decide_unpack _). vm_compute. exact I. Qed.

Lemma bench_reachable ls :
  match run_inputs ls tray0 with Ok _ => True | Throw _ => False end →
  Forall (grants True) ls → reachable True small_tray ls (daemon_after ls).
Proof.
  intros Hok Hg. exists tray_env, R_Ok, tray0.
  assert (@initFromDescriptor tray_env small_tray Orch_empty = Ok (R_Ok, tray0)) as ->
    by (vm_compute; reflexivity).
  split_and!; [done| |done]. apply run_inputs_run. unfold daemon_after.
  by destruct (run_inputs ls tray0).
Qed.

Lemma boot_reachable : reachable True small_tray boot_inputs (daemon_after boot_inputs).
Proof. apply bench_reachable; [vm_compute; exact I|]. repeat constructor; done. Qed.

Lemma reset_reachable : reachable True small_tray reset_inputs (daemon_after reset_inputs).
Proof. apply bench_reachable; [vm_compute; exact I|]. repeat constructor; done. Qed.

(** The element of a key in a given state. *)
Lemma bench_element ls key st lpu :
  (λ ee, (ee_state ee, ee_isLpu ee)) <$> o_elements (daemon_after ls) !! key = Some (st, lpu) →
  ∃ ee, o_elements (daemon_after ls) !! key = Some ee ∧ ee_state ee = st ∧ ee_isLpu ee = lpu.
Proof. intros (ee & He & [= -> ->])%fmap_Some. by exists ee. Qed.

Example bus_mirrors_fsms_witness :
  o_bus (daemon_after boot_inputs) !!
    "/xyz/openbmc_project/inventory/system/accelerator/LPU_0"%string =
  Some (toStatus_element E_Online true).
Proof.
  refine (eq_trans (bus_mirrors_fsms True small_tray boot_inputs _ (OwnElement 0) _
    small_tray_fits boot_reachable _) _); vm_compute; reflexivity.
Defined.

(** The module of the booting LPUs has recorded one online and one powered. *)
Example parents_mirror_children_witness :
  ∃ ee mk m p slot,
    o_elementToModule (daemon_after boot_inputs) !! 1 = Some mk ∧
    o_modules (daemon_after boot_inputs) !! mk = Some (m, p) ∧
    mc_childIds (mf_ctx m) !! slot = Some (ee_id ee) ∧
    mc_childStates (mf_ctx m) !! slot = Some (ee_state ee) ∧ ee_state ee = E_Powered.
Proof.
  destruct (bench_element boot_inputs 1 E_Powered true) as (ee & He & Hs & Hl);
    [vm_compute; reflexivity|].
  destruct (proj1 (parents_mirror_children True small_tray boot_inputs _ small_tray_fits
    boot_reachable) 1 ee He Hl) as (mk & m & p & slot & H1 & H2 & H3 & H4).
  exists ee, mk, m, p, slot. exact (conj H1 (conj H2 (conj H3 (conj H4 Hs)))).
Defined.

Example elements_consistent_witness :
  ∃ ee, ee_state ee = E_Online ∧
    (ec_faultCode (ef_ctx (ee_fsm ee)) ≠ FC_None ↔ ee_state ee = E_Fault) ∧
    (ef_seenPgHi (ee_fsm ee) = false → ee_state ee = E_Stby) ∧ packInstance (ee_id ee) = 0.
Proof.
  destruct (bench_element boot_inputs 0 E_Online true) as (ee & He & Hs & _);
    [vm_compute; reflexivity|].
  exists ee. split; [exact Hs|].
  exact (elements_consistent True small_tray boot_inputs _ 0 ee small_tray_fits boot_reachable He).
Defined.

(** The second LPU still boots: its timer is armed. *)
Example boot_deadline_guards_witness :
  is_Some (o_bootTimers (daemon_after boot_inputs) !! 1).
Proof.
  destruct (bench_element boot_inputs 1 E_Powered true) as (ee & He & Hs & _);
    [vm_compute; reflexivity|].
  exact (proj1 (proj2 (boot_deadline_guards True small_tray boot_inputs _ 1 ee small_tray_fits
    boot_reachable He)) I Hs).
Defined.

(** Its deadline passes at 12 s; the property service finds its line
    asserted, or does not answer. *)
Definition at_deadline (reply : string → option (gmap string PropValue)) : Env :=
  {| tray_env with env_now := 12000000; env_getAll := reply |}.

Lemma boot_source :
  loop_sources (o_loop (daemon_after boot_inputs)) !! 1%nat =
    Some (mkTimerSource 12000000 true (BootExpired (mkInstanceId Lpu 1))).
Proof. vm_compute. reflexivity. Qed.

Example boot_deadline_outcome_witness :
  let o := daemon_after boot_inputs in
  ∃ ee1 ee2,
    o_elements (@fire (at_deadline (@env_getAll tray_env)) _ _ 1 o) !! 1 = Some ee1 ∧
    ee_state ee1 = E_Online ∧
    o_elements (@fire (at_deadline (λ _, None)) _ _ 1 o) !! 1 = Some ee2 ∧
    ee_state ee2 = E_Fault ∧ ec_faultCode (ef_ctx (ee_fsm ee2)) = BootTimeout.
Proof.
  cbn zeta.
  assert (∀ reply, @env_now (at_deadline reply) = 12000000) as Hnow by done.
  pose proof (λ reply, @boot_deadline_outcome (at_deadline reply) True small_tray boot_inputs _ 1 _
    (mkInstanceId Lpu 1) small_tray_fits boot_reachable (λ _ _, eq_refl) boot_source eq_refl
    (Z.le_refl _) eq_refl) as Hout.
  destruct (Hout (@env_getAll tray_env)) as (_ & ee1 & He1 & Hs1).
  destruct (Hout (λ _, None)) as (_ & ee2 & He2 & Hs2). exists ee1, ee2.
  split; [exact He1|]. split; [|split; [exact He2|]].
  - revert Hs1. match goal with |- (if ?b then _ else _) → _ =>
      replace b with true by (vm_compute; reflexivity) end. exact id.
  - revert Hs2. match goal with |- (if ?b then _ else _) → _ =>
      replace b with false by (vm_compute; reflexivity) end. exact id.
Defined.

(** The books of the reset LPUs. *)
Example requests_accounted_witness :
  answered (daemon_after reset_inputs) = [8%nat] ∧
  answered (daemon_after reset_inputs) ++ owed (daemon_after reset_inputs) ≡ₚ [7; 8]%nat.
Proof.
  split; [vm_compute; reflexivity|].
  exact (requests_accounted True small_tray reset_inputs _ small_tray_fits reset_reachable).
Defined.

Example deadlines_answer_all_witness :
  ∃ ns o', orch_run ((λ n, (at_ 22100000, InFire n)) <$> ns) (daemon_after reset_inputs) o' ∧
    o_pendingResets o' = ∅ ∧ answered o' ≡ₚ [7; 8]%nat.
Proof.
  apply (deadlines_answer_all (E := at_ 22100000) True small_tray reset_inputs _ small_tray_fits
    reset_reachable); [reflexivity|].
  unfold reset_inputs, boot_inputs. cbn [app].
  repeat (constructor; [vm_compute; discriminate|]). constructor.
Defined.

(** Both LPUs boot again: the batch answers for both. *)
Definition reboot_inputs : list (Env * OrchInput) :=
  [(at_ 3000000, InEdge 1 true); (at_ 3000000, InEdge 2 true)].

Definition daemon_reset : DaemonState :=
  match run_inputs [(at_ 2000000, InResetAll Lpu Warm 7)] (daemon_after boot_inputs) with
  | Ok o => o | Throw _ => tray0 end.

Definition daemon_rebooted : DaemonState :=
  match run_inputs reboot_inputs daemon_reset with Ok o => o | Throw _ => tray0 end.

Example batch_covers_eligible_witness :
  ∃ rs, ResetAllReply 7 rs ∈ o_replies daemon_rebooted ∧ rs.*1 ≡ₚ ["HGX_LPU_0"; "HGX_LPU_1"]%string.
Proof.
  apply (batch_covers_eligible (E := at_ 2000000) True small_tray boot_inputs reboot_inputs
    (daemon_after boot_inputs) daemon_reset daemon_rebooted Lpu Warm 7 small_tray_fits
    boot_reachable).
  - reflexivity.
  - vm_compute. reflexivity.
  - apply run_inputs_run. vm_compute. reflexivity.
  - repeat constructor; done.
  - vm_compute. reflexivity.
Defined.

Example elements_wired_witness :
  ∃ ee dev i l, o_elements (daemon_after boot_inputs) !! 0 = Some ee ∧
    o_devices (daemon_after boot_inputs) !! 0 = Some dev ∧ dev_id dev = ee_id ee ∧
    dev_sink dev = true ∧ dev_bcLine dev = Some i ∧
    line_at (o_lines (daemon_after boot_inputs)) i = Some l ∧
    BcCallback 0 ∈ (subs_ (sl_subs l)).*2.
Proof.
  destruct (bench_element boot_inputs 0 E_Online true) as (ee & He & _); [vm_compute; reflexivity|].
  destruct (elements_wired True small_tray boot_inputs _ 0 ee small_tray_fits boot_reachable He)
    as (dev & i & l & Hw).
  exists ee, dev, i, l. exact (conj He Hw).
Defined.

Lemma bench_line : ∃ l, line_at (o_lines (daemon_after boot_inputs)) 0 = Some l ∧
  SharedLine_activeLow l = false ∧ PgCallback 0 ∈ (subs_ (sl_subs l)).*2.
Proof.
  destruct (line_at (o_lines (daemon_after boot_inputs)) 0) as [l|] eqn:Hl; [|by vm_compute in Hl].
  exists l. vm_compute in Hl. injection Hl as <-. split_and!; [done|done|]. cbn. set_solver.
Qed.

(** Power-good of the first LPU falls after it booted. *)
Example pg_drop_clears_boot_complete_witness :
  ∃ dev, o_devices (notifyExternal (H := at_ 2000000) 0 false (daemon_after boot_inputs)) !! 0 = Some dev ∧
    dev_bcHigh dev (o_hal (notifyExternal (H := at_ 2000000) 0 false (daemon_after boot_inputs))) = false.
Proof.
  destruct (bench_element boot_inputs 0 E_Online true) as (ee & He & _);
    [vm_compute; reflexivity|].
  destruct bench_line as (l & Hl & Hlow & Hin).
  exact (@pg_drop_clears_boot_complete (at_ 2000000) True small_tray boot_inputs _ 0 false l 0 ee
    small_tray_fits boot_reachable (λ _ _, eq_refl) He Hl Hin Hlow).
Defined.

Example expired_boot_timer_leaks_witness :
  loop_sources (o_loop (@fire (at_deadline (λ _, None)) _ _ 1 (daemon_after boot_inputs))) !! 1%nat =
    Some (mkTimerSource 12000000 false (BootExpired (mkInstanceId Lpu 1))).
Proof.
  refine (proj1 (@expired_boot_timer_leaks (at_deadline (λ _, None)) True small_tray boot_inputs _ 1 _
    (mkInstanceId Lpu 1) small_tray_fits boot_reachable boot_source eq_refl (Z.le_refl _) eq_refl _)).
  vm_compute. reflexivity.
Defined.

(** The kernel module reports no firmware version yet: polling is not ready. *)
Definition no_firmware (t : Z) : Env := {| (at_ t) with env_fwVersion := λ _, None |}.

Definition retry_inputs : list (Env * OrchInput) :=
  [(at_ 0, InVrTelemetry (mkInstanceId Lpu 0) true); (at_ 0, InEdge 0 true);
   (no_firmware 1000000, InEdge 1 true)].

Example retry_only_online_witness :
  ∃ ee, o_elements (daemon_after retry_inputs) !! 0 = Some ee ∧ ee_state ee = E_Online ∧
    ee_isLpu ee = true.
Proof.
  refine (proj2 (retry_only_online True small_tray retry_inputs _ 2
    (mkTimerSource 2000000 true (TelemetryRetry (mkInstanceId Lpu 0) 1)) (mkInstanceId Lpu 0) 1
    small_tray_fits _ _ eq_refl eq_refl)).
  - apply bench_reachable; [vm_compute; exact I|]. repeat constructor; done.
  - vm_compute. reflexivity.
Defined.

Lemma res_value {A} (r : res string A) :
  match r with Ok _ => True | Throw _ => False end → ∃ a, r = Ok a.
Proof. destruct r; [by eexists|done]. Qed.

(** A reset before any power, and one of a running LPU. *)
Example reset_request_outcomes_witness :
  let lpu := mkInstanceId Lpu 0 in
  ∃ o1 o2 : DaemonState,
    o1 = replied 5 RO_NotPresent (daemon_after []) ∧
    ((o_replies o2 = o_replies (daemon_after boot_inputs) ∧
      @env_addTime (at_ 2000000) (loop_next (o_loop (daemon_after boot_inputs))) = true ∧
      pr_callback <$> o_pendingResets o2 !! packInstance lpu = Some (ReplyTo 6)) ∨
     ∃ out, out ∈ [RO_NotSupported; RO_NotPresent; RO_PulseFailed] ∧
      o_replies o2 = o_replies (daemon_after boot_inputs) ++ [ResetReply 6 out] ∧
      o_pendingResets o2 !! packInstance lpu = None).
Proof.
  cbv zeta.
  destruct (res_value (@requestResetAsync (at_ 0) Device _ (mkInstanceId Lpu 0) Warm (ReplyTo 5)
    (daemon_after []))) as [o1 H1]; [vm_compute; exact I|].
  destruct (res_value (@requestResetAsync (at_ 2000000) Device _ (mkInstanceId Lpu 0) Warm (ReplyTo 6)
    (daemon_after boot_inputs))) as [o2 H2]; [vm_compute; exact I|].
  assert (o_pendingResets (daemon_after []) !! packInstance (mkInstanceId Lpu 0) = None ∧
    resetEligible_ (mkInstanceId Lpu 0) (daemon_after []) = false) as [P1 E1]
    by (vm_compute; split; reflexivity).
  assert (o_pendingResets (daemon_after boot_inputs) !! packInstance (mkInstanceId Lpu 0) = None ∧
    resetEligible_ (mkInstanceId Lpu 0) (daemon_after boot_inputs) = true) as [P2 E2]
    by (vm_compute; split; reflexivity).
  exists o1, o2. split.
  - pose proof (@reset_request_outcomes (at_ 0) True small_tray [] _ _ _ _ _ small_tray_fits
      (bench_reachable [] I (Forall_nil_2 _)) H1) as H. cbv zeta in H. rewrite P1, E1 in H. exact H.
  - pose proof (@reset_request_outcomes (at_ 2000000) True small_tray boot_inputs _ _ _ _ _
      small_tray_fits boot_reachable H2) as H. cbv zeta in H. rewrite P2, E2 in H. exact H.
Defined.

(** The kernel refuses the reset lines. *)
Definition line_fails (t : Z) : Env := {| (at_ t) with env_requestOk := λ _ _, false |}.

Definition all_online : list (Env * OrchInput) :=
  [(at_ 0, InEdge 0 true); (at_ 1000000, InEdge 1 true); (at_ 1000000, InEdge 2 true)].
Definition failed_batch : list (Env * OrchInput) :=
  all_online ++ [(line_fails 2000000, InResetAll Lpu Warm 7)].
Definition failed_single : list (Env * OrchInput) :=
  all_online ++ [(line_fails 2000000, InReset (mkInstanceId Lpu 0) Warm 7)].

(** A failed batch leaves its elements in reset: when the reset line cannot be
    driven, the reply reports the failure, but the elements stay in S_RESETTING
    with no reset pending and no timer running, so nothing is scheduled that
    would bring them back. A single reset that fails the same way releases its
    element, which boots under its deadline. *)
Theorem failed_batch_stays_resetting :
  (∃ o, reachable True small_tray failed_batch o ∧
    (λ ee, ee_state ee) <$> o_elements o !! 0 = Some E_Resetting ∧
    (λ ee, ee_state ee) <$> o_elements o !! 1 = Some E_Resetting ∧
    o_replies o =
      [ResetAllReply 7 [("HGX_LPU_0", RO_PulseFailed); ("HGX_LPU_1", RO_PulseFailed)]%string] ∧
    o_pendingResets o = ∅ ∧ loop_sources (o_loop o) = ∅) ∧
  (∃ o, reachable True small_tray failed_single o ∧
    (λ ee, ee_state ee) <$> o_elements o !! 0 = Some E_Powered ∧
    o_replies o = [ResetReply 7 RO_PulseFailed] ∧
    is_Some (o_bootTimers o !! 0)).
Proof.
  split; [exists (daemon_after failed_batch)|exists (daemon_after failed_single)];
    (split; [apply bench_reachable; [vm_compute; exact I|]; repeat constructor; done|]);
    vm_compute; split_and!; try reflexivity. by eexists.
Qed.
