(* ===== verification/ServerRun.v ===== *)
(** * The server

    Everything the bus and the loop deliver to the daemon becomes a run of the
    orchestrator, so that the properties of Daemon.v hold of the daemon as its
    clients see it; every method call has one reply; edges are delivered in the
    order they were injected. *)

From S2P Require Import Prelude Types SubscriberList Hal Lines Drivers Descriptor Orchestrator.
From S2P Require Import OrchInit GpioClient Manager Hierarchy OrchInvariant OrchSteps.
From S2P Require Import OrchBoot Replies Daemon.

(** ** The manager drives the orchestrator *)

(** An edge in the queue has an armed source that will deliver it. *)
Definition queue_ok (m : Manager) : Prop := mg_queue m = [] ∨ mg_drain m = Some true.

Section Advances.
Context `{E : Env, B : BusEnv}.
Implicit Types (m : Manager).

(** The manager goes from [m] to [m'] by orchestrator inputs, taking in the
    calls [reqs]. *)
Definition advances (reqs : list nat) m m' : Prop :=
  ∃ is_, orch_run ((λ i, (E, i)) <$> is_) (mg_orch m) (mg_orch m') ∧ Forall input_wf is_ ∧
    (mg_sent m').*1 ++ omap input_req is_ ≡ₚ reqs ++ (mg_sent m).*1 ∧
    (queue_ok m → queue_ok m').

Lemma orch_run_trans ls1 ls2 (o1 o2 o3 : DaemonState) :
  orch_run ls1 o1 o2 → orch_run ls2 o2 o3 → orch_run (ls1 ++ ls2) o1 o3.
Proof. induction 1; [done|]. intros. cbn. econstructor; eauto. Qed.

Lemma advances_refl m : advances [] m m.
Proof. exists []. split_and!; [constructor|constructor|by rewrite app_nil_r|done]. Qed.

Lemma advances_trans r1 r2 m1 m2 m3 :
  advances r1 m1 m2 → advances r2 m2 m3 → advances (r1 ++ r2) m1 m3.
Proof.
  intros (i1 & R1 & F1 & P1 & Q1) (i2 & R2 & F2 & P2 & Q2). exists (i1 ++ i2). split_and!.
  - rewrite fmap_app. by eapply orch_run_trans.
  - by apply Forall_app.
  - rewrite omap_app. rewrite (Permutation_app_comm (omap input_req i1)), app_assoc, P2.
    rewrite <-app_assoc, P1. solve_Permutation.
  - auto.
Qed.

#[local] Instance advances_preorder : PreOrder (advances []).
Proof.
  split; [exact advances_refl|]. intros m1 m2 m3 H1 H2. by apply (advances_trans [] [] m1 m2 m3).
Qed.

(** One orchestrator input. *)
Lemma advances_input i m o :
  orch_step i (mg_orch m) = Ok o → input_wf i →
  advances (option_list (input_req i)) m {| m with mg_orch := o |}.
Proof.
  intros Hs Hw. exists [i]. split_and!; [|by constructor| |done].
  - cbn. econstructor; [exact Hs|constructor].
  - cbn. destruct (input_req i); cbn; solve_Permutation.
Qed.

(** A reply of the manager's own. *)
Lemma advances_send req r m : advances [req] m (send req r m).
Proof.
  exists []. split_and!; [constructor|constructor| |done].
  cbn. rewrite fmap_app. cbn. solve_Permutation.
Qed.

Lemma deliver_run edges o :
  orch_run ((λ i, (E, i)) <$> ((λ e, InEdge e.1 e.2) <$> edges)) o (deliver edges o).
Proof.
  revert o. induction edges as [|e edges IH]; intros o; [constructor|].
  cbn. econstructor; [reflexivity|apply IH].
Qed.

Lemma advances_flush m : advances [] m (flush m).
Proof.
  exists ((λ e, InEdge e.1 e.2) <$> mg_queue m). split_and!.
  - apply deliver_run.
  - by apply Forall_fmap, Forall_true.
  - cbn. assert (omap input_req ((λ e, InEdge e.1 e.2) <$> mg_queue m) = []) as ->
      by (by induction (mg_queue m)). by rewrite app_nil_r.
  - by left.
Qed.

Lemma advances_drain m b : advances [] m (flush {| m with mg_drain := b |}).
Proof. destruct (advances_flush m) as (is_ & ? & ? & ? & _). exists is_. split_and!; auto. by left. Qed.

Lemma advances_enqueue line b m : advances [] m (enqueueNotify_ line b m).
Proof.
  unfold enqueueNotify_, scheduleDrain_. cbn.
  set (m1 := {| m with mg_queue := mg_queue m ++ [(line, b)] |}).
  assert (∀ x, mg_orch x = mg_orch m → mg_sent x = mg_sent m → queue_ok x → advances [] m x) as Hsame.
  { intros x Ho Hs Hq. destruct (advances_refl m) as (is_ & H1 & H2 & H3 & _). exists is_.
    rewrite Ho, Hs. split_and!; auto. }
  destruct (mg_drain m); [by apply Hsame; [| |right]|].
  assert (advances [] m (flush m1)) as Hflush.
  { destruct (advances_flush m1) as (is_ & H1 & H2 & H3 & _). exists is_. split_and!; auto. by left. }
  destruct be_loop; [|done]. destruct be_addDefer; [|done]. by apply Hsame; [| |right].
Qed.

Lemma advances_inject line b m : advances [] m (injectLineState line b m).2.
Proof. unfold injectLineState. destruct (Registry_findByName _ _); [apply advances_enqueue|done]. Qed.

(** An identifier found in the descriptor map fits 16 bits. *)
Lemma instance_wf s (o : DaemonState) id : instanceByDescriptorId s o = Some id → InstanceId_wf id.
Proof.
  unfold instanceByDescriptorId. intros (key & _ & Hu)%bind_Some. rewrite unpackInstance_arith in Hu.
  apply bind_Some in Hu as (c & _ & [= <-]). unfold InstanceId_wf. cbn. by apply Z.mod_pos_bound.
Qed.

Lemma dispatch_advances req call m m' :
  dispatch_call req call m = Ok m' → advances [req] m m'.
Proof.
  destruct call as [target kind|ec kind|target en|target reason]; cbn.
  - unfold dispatchReset. destruct (Manager_parseKind kind) as [k|];
      [|intros [= <-]; apply advances_send].
    destruct (instanceByDescriptorId target (mg_orch m)) as [inst|] eqn:Hi;
      [|intros [= <-]; apply advances_send].
    intros (o & Ho & [= <-])%res_bind_ok.
    by apply (advances_input (InReset inst k req)); [|eapply instance_wf].
  - unfold dispatchResetAll. destruct (parseElementClass ec) as [c|];
      [|intros [= <-]; apply advances_send].
    destruct (Manager_parseKind kind) as [k|]; [|intros [= <-]; apply advances_send].
    intros (o & Ho & [= <-])%res_bind_ok. by apply (advances_input (InResetAll c k req)).
  - unfold dispatchSetVrTelemetryEnabled. intros [= <-].
    destruct (instanceByDescriptorId target (mg_orch m)) as [inst|] eqn:Hi; [|apply advances_send].
    destruct (decide (cls inst = Lpu)); [|apply advances_send].
    destruct (setVrTelemetryConfigured inst en (mg_orch m)) as [r o] eqn:Hs.
    apply (advances_trans [] [req] m {| m with mg_orch := o |}); [|apply advances_send].
    apply (advances_input (InVrTelemetry inst en)); [cbn; by rewrite Hs|by eapply instance_wf].
  - unfold dispatchRequestLogDrain. intros [= <-].
    destruct (validLogDrainReason reason); [|apply advances_send]. cbn.
    destruct (instanceByDescriptorId target (mg_orch m)) as [inst|] eqn:Hi; [|apply advances_send].
    destruct (requestLogDrain inst (mg_orch m)) as [r o] eqn:Hs.
    apply (advances_trans [] [req] m {| m with mg_orch := o |}); [|apply advances_send].
    apply (advances_input (InLogDrain inst)); [cbn; by rewrite Hs|by eapply instance_wf].
Qed.
End Advances.

(** The client acts on its world by injections only. *)
Section ClientWorld.
Context `{BusEnv} {W : Type} (inject : string → string → bool → W → W) (R : relation W).
Context `{!PreOrder R} (Hinject : ∀ path line b w, R w (inject path line b w)).

Lemma lineProps_world path props snap cw : R cw.2 (applyLineProps inject path props snap cw).2.
Proof.
  destruct cw as [c w]. unfold applyLineProps. destruct (if snap then _ else _) as [cache [[l b]|]];
    [apply Hinject|done].
Qed.

Lemma rows_world tree cw : R cw.2 (foldl (applySnapshotRow inject) cw tree).2.
Proof.
  revert cw. induction tree as [|row tree IH]; intros cw; [done|]. cbn. etrans; [|apply IH].
  unfold applySnapshotRow. destruct (row.2 !! kLineIface); [apply lineProps_world|done].
Qed.

Lemma client_step_world ev cw : R cw.2 (client_step inject ev cw).2.
Proof.
  destruct cw as [c w], ev as [path iface changed|path ifaces|path ifaces|name old new|reply|];
    cbn [client_step fst snd].
  - unfold onPropertiesChanged. case_decide; [done|apply (lineProps_world path changed false (c, w))].
  - unfold onInterfacesAdded. destruct (_ !! _) as [props|]; [|done].
    apply (lineProps_world path props false (c, w)).
  - unfold onInterfacesRemoved. by case_match.
  - unfold onNameOwnerChanged. repeat case_decide; done.
  - destruct (gc_slot c); [|done]. unfold onSnapshotReply. destruct reply as [name| |tree]; [|done|].
    + by case_match.
    + pose proof (rows_world tree ({| c with gc_slot := false |}, w)) as Hr.
      destruct (foldl _ _ tree) as [c1 w1]. exact Hr.
  - by destruct (gc_retry c).
Qed.
End ClientWorld.

(** ** Runs of the server *)

(** An event, with the hardware and the bus of its moment. *)
Record Moment := mkMoment { mo_env : Env; mo_bus : BusEnv; mo_event : ServerEvent }.

Fixpoint server_run (ms : list Moment) (s : Server) : res string Server :=
  match ms with
  | [] => Ok s
  | mo :: ms => s ← @server_step (mo_env mo) (mo_bus mo) (mo_event mo) s; server_run ms s
  end.

(** The method calls of a run. *)
Definition event_call (ev : ServerEvent) : option nat :=
  match ev with SvCall req _ => Some req | _ => None end.
Definition run_calls (ms : list Moment) : list nat := omap (λ mo, event_call (mo_event mo)) ms.

(** What the clients were sent: the manager's replies and the orchestrator's. *)
Definition bus_replies (s : Server) : list (nat * BusReply) :=
  mg_sent (sv_manager s) ++ map reply_text (o_replies (mg_orch (sv_manager s))).

Lemma server_step_advances `{E : Env, B : BusEnv} ev s s' :
  server_step ev s = Ok s' →
  advances (E:=E) (option_list (event_call ev)) (sv_manager s) (sv_manager s').
Proof.
  destruct ev as [req call|ev| |n]; cbn.
  - intros (m & Hm & [= <-])%res_bind_ok. by eapply dispatch_advances.
  - assert (PreOrder (advances (E:=E) [])) as Hpre by apply advances_preorder.
    pose proof (client_step_world (λ _ line level m, (injectLineState line level m).2)
      (advances (E:=E) []) (λ _ line b m, advances_inject line b m) ev
      (sv_client s, sv_manager s)) as Hc.
    destruct (client_step _ ev (sv_client s, sv_manager s)) as [c m]. by intros [= <-].
  - case_decide; intros [= <-]; [apply advances_drain|apply advances_refl].
  - intros [= <-]. by apply (advances_input (InFire n)).
Qed.

Lemma server_run_advances ms s s' :
  server_run ms s = Ok s' →
  ∃ ls, orch_run ls (mg_orch (sv_manager s)) (mg_orch (sv_manager s')) ∧
    Forall (λ l, input_wf l.2 ∧ l.1 ∈ mo_env <$> ms) ls ∧
    (mg_sent (sv_manager s')).*1 ++ run_requests ls ≡ₚ run_calls ms ++ (mg_sent (sv_manager s)).*1 ∧
    (queue_ok (sv_manager s) → queue_ok (sv_manager s')).
Proof.
  revert s. induction ms as [|[E B ev] ms IH]; intros s; cbn [server_run mo_env mo_bus mo_event].
  { intros [= <-]. exists []. split_and!; [constructor|constructor|by rewrite app_nil_r|done]. }
  intros (s1 & H1 & H2)%res_bind_ok.
  destruct (server_step_advances (E:=E) (B:=B) ev s s1 H1) as (is_ & R1 & F1 & P1 & Q1).
  destruct (IH s1 H2) as (ls & R2 & F2 & P2 & Q2).
  exists (((λ i, (E, i)) <$> is_) ++ ls). split_and!.
  - by eapply orch_run_trans.
  - apply Forall_app. split.
    + apply Forall_fmap. eapply Forall_impl; [exact F1|]. intros i Hi. cbn. split; [done|by left].
    + eapply Forall_impl; [exact F2|]. intros l [? ?]. split; [done|by right].
  - assert (run_requests (((λ i, (E, i)) <$> is_) ++ ls) = omap input_req is_ ++ run_requests ls) as ->.
    { unfold run_requests. rewrite omap_app. f_equal. clear. induction is_ as [|i is_ IH]; [done|].
      cbn. destruct (input_req i); [f_equal|]; exact IH. }
    assert (run_calls (mkMoment E B ev :: ms) = option_list (event_call ev) ++ run_calls ms) as ->
      by (unfold run_calls; cbn; by destruct (event_call ev)).
    rewrite (Permutation_app_comm (omap input_req is_)), app_assoc, P2, <-app_assoc, P1.
    solve_Permutation.
  - auto.
Qed.

(** C4: The daemon its clients see is the orchestrator of Daemon.v: whatever the
    bus, the property service and the loop deliver, in any order, the
    orchestrator is in a state it reaches by inputs of its own, at the same
    moments; every method call is accounted for exactly once, by its reply or
    by a reset still owed; and an edge that waits in the queue has a source
    armed to deliver it. *)
Theorem server_refines_daemon `{E : Env, B : BusEnv} (g : Prop) desc s0 ms s :
  desc_fits desc → Server_start desc = Ok s0 → server_run ms s0 = Ok s →
  (g → Forall (λ mo, ∀ n, @env_addTime (mo_env mo) n = true) ms) →
  (∃ ls, reachable g desc ls (mg_orch (sv_manager s)) ∧ Forall (λ l, l.1 ∈ mo_env <$> ms) ls) ∧
  (bus_replies s).*1 ++ owed (mg_orch (sv_manager s)) ≡ₚ run_calls ms ∧
  queue_ok (sv_manager s).
Proof.
  intros Hfit Hstart Hrun Hg. unfold Server_start in Hstart.
  apply res_bind_ok in Hstart as ([r o] & Hi & [= <-]).
  destruct (server_run_advances ms _ s Hrun) as (ls & R & F & P & Q). cbn in R, P.
  assert (reachable g desc ls (mg_orch (sv_manager s))) as Hr.
  { exists E, r, o. split_and!; [done|done|]. eapply Forall_impl; [exact F|].
    intros [E' i] [Hw Hin]. split; [done|]. intros Hgg. specialize (Hg Hgg).
    apply list_elem_of_fmap in Hin as (mo & -> & Hmo). cbn.
    rewrite Forall_forall in Hg. by apply Hg. }
  split_and!.
  - exists ls. split; [done|]. eapply Forall_impl; [exact F|]. by intros l [_ ?].
  - destruct (reachable_books g desc ls _ Hfit Hr) as [_ Hq]. rewrite app_nil_r in P.
    rewrite <-P, <-Hq. unfold bus_replies, requests, answered. rewrite fmap_app.
    assert ((map reply_text (o_replies (mg_orch (sv_manager s)))).*1 =
      reply_req <$> o_replies (mg_orch (sv_manager s))) as ->.
    { change (map ?f ?l) with (f <$> l). rewrite <-list_fmap_compose. apply list_fmap_ext.
      by intros _ [] _. }
    by rewrite app_assoc.
  - apply Q. by left.
Qed.

(** ** Order of edges *)

(** A burst of injections is queued behind what waits; one drain then delivers
    everything in the order it came, skipping the lines nobody registered. *)
Theorem burst_delivered_in_order `{Env, B : BusEnv} burst m :
  mg_drain m ≠ None ∨ be_loop = true ∧ be_addDefer = true →
  let edges := omap (λ e : string * bool,
    (λ line, (line, e.2)) <$> Registry_findByName e.1 (o_lines (mg_orch m))) burst in
  let m' := foldl (λ m e, (injectLineState e.1 e.2 m).2) m burst in
  mg_orch m' = mg_orch m ∧ mg_queue m' = mg_queue m ++ edges ∧
  (edges ≠ [] → mg_drain m' = Some true) ∧
  mg_orch (drainPendingNotifies_ m') = deliver (mg_queue m ++ edges) (mg_orch m) ∧
  mg_queue (drainPendingNotifies_ m') = [].
Proof.
  intros Hd. cbn zeta.
  assert (∀ m, mg_drain m ≠ None ∨ be_loop = true ∧ be_addDefer = true →
    let edges := omap (λ e : string * bool,
      (λ line, (line, e.2)) <$> Registry_findByName e.1 (o_lines (mg_orch m))) burst in
    let m' := foldl (λ m e, (injectLineState e.1 e.2 m).2) m burst in
    mg_orch m' = mg_orch m ∧ mg_queue m' = mg_queue m ++ edges ∧
    (edges ≠ [] ∨ mg_drain m = Some true → mg_drain m' = Some true)) as Hburst.
  { clear m Hd. induction burst as [|[name level] burst IH]; intros m Hd; cbn.
    { rewrite app_nil_r. split_and!; [done|done|]. by intros [|]. }
    unfold injectLineState at 2 4 6. cbn [fst snd].
    destruct (Registry_findByName name (o_lines (mg_orch m))) as [line|]; cbn [fmap option_fmap snd];
      [|by apply IH].
    assert (enqueueNotify_ line level m = {| m with mg_queue := mg_queue m ++ [(line, level)];
      mg_drain := Some true |}) as ->.
    { unfold enqueueNotify_, scheduleDrain_. cbn. destruct (mg_drain m); [done|].
      destruct Hd as [|[-> ->]]; done. }
    destruct (IH {| m with mg_queue := mg_queue m ++ [(line, level)]; mg_drain := Some true |})
      as (H1 & H2 & H3); [by left|]. cbn in H1, H2, H3. rewrite H1, H2, <-app_assoc.
    split_and!; [done|done|]. intros _. apply H3. by right. }
  destruct (Hburst m Hd) as (H1 & H2 & H3). split_and!; [done|done|auto| |done].
  cbn. by rewrite H1, H2.
Qed.

(** ** On the bench *)

Definition bench_server : Server :=
  match @Server_start tray_env bus_up small_tray with
  | Ok s => s
  | Throw _ => mkServer (@Client_start bus_up ∅) (Manager_make tray0)
  end.

(** The snapshot seeds the power-good line; then one LPU is reset, another
    target is unknown, and a log drain is asked for a bad reason. *)
Definition bench_moments : list Moment :=
  [mkMoment (at_ 0) bus_up (SvClient (EvReply (ReplyTree [("/gpio/0"%string,
     {[ kLineIface := {[ "LineName"%string := PropString "MODULE0_PGOOD";
                         "Bound"%string := PropBool true; "Value"%string := PropBool true ]} ]})])));
   mkMoment (at_ 0) bus_up SvDrain;
   mkMoment (at_ 1000000) bus_up (SvCall 1 (CallReset "HGX_LPU_0" "Warm"));
   mkMoment (at_ 1000000) bus_up (SvCall 2 (CallReset "HGX_LPU_9" "Warm"));
   mkMoment (at_ 1000000) bus_up (SvCall 3 (CallLogDrain "HGX_LPU_0" "curiosity"))].

Definition bench_served : Server :=
  match server_run bench_moments bench_server with Ok s => s | Throw _ => bench_server end.

Lemma bench_started : @Server_start tray_env bus_up small_tray = Ok bench_server.
Proof.
  assert (is_ok (@Server_start tray_env bus_up small_tray) = true) as Hok by (vm_compute; reflexivity).
  unfold bench_server. by destruct (Server_start small_tray).
Qed.

Lemma bench_run : server_run bench_moments bench_server = Ok bench_served.
Proof.
  assert (is_ok (server_run bench_moments bench_server) = true) as Hok by (vm_compute; reflexivity).
  unfold bench_served. by destruct (server_run bench_moments bench_server).
Qed.

Example server_refines_daemon_witness :
  bus_replies bench_served =
    [(2%nat, ReplyString "NotPresent"); (3%nat, ReplyString "InvalidReason")] ∧
  (bus_replies bench_served).*1 ++ owed (mg_orch (sv_manager bench_served)) ≡ₚ [1; 2; 3]%nat ∧
  queue_ok (sv_manager bench_served).
Proof.
  split; [vm_compute; reflexivity|].
  refine (proj2 (@server_refines_daemon tray_env bus_up True small_tray bench_server bench_moments
    bench_served small_tray_fits bench_started bench_run _)).
  intros _. repeat (constructor; [done|]). constructor.
Defined.

Example burst_delivered_in_order_witness :
  let m' := foldl (λ m e, (@injectLineState tray_env bus_up e.1 e.2 m).2) (Manager_make tray0)
    [("MODULE0_PGOOD"%string, true); ("NOBODY"%string, true); ("LPU0_BC"%string, true)] in
  mg_queue m' = [(0%nat, true); (1%nat, true)].
Proof.
  pose proof (@burst_delivered_in_order tray_env bus_up
    [("MODULE0_PGOOD"%string, true); ("NOBODY"%string, true); ("LPU0_BC"%string, true)]
    (Manager_make tray0) (or_intror (conj eq_refl eq_refl))) as H.
  refine (eq_trans (proj1 (proj2 H)) _). vm_compute. reflexivity.
Defined.
