(* ===== verification/Bytes.v ===== *)
(** * Bytes: little-endian values, bit fields, hexadecimal text

    What the parsers of firmware data share: a byte is a Z below 256, a buffer
    a list of them. [le_decode] is a memcpy into an integer followed by
    leXtoh, whatever the byte order of the host. *)

From stdpp Require Import list strings pretty.
From S2P Require Import Prelude.

Declare Scope bytes_scope.
Open Scope bytes_scope.
Infix "≫" := Z.shiftr (at level 35, no associativity) : bytes_scope.
Infix "≪" := Z.shiftl (at level 35, no associativity) : bytes_scope.
Infix ".&" := Z.land (at level 36, left associativity) : bytes_scope.
Infix ".|" := Z.lor (at level 37, left associativity) : bytes_scope.

(** ** Machine words *)

(** The values of an unsigned integer of [w] bits. *)
Definition word (w v : Z) : Prop := 0 ≤ v < 2 ^ w.

(** Arithmetic of unsigned integers wraps. *)
Definition wrap (w v : Z) : Z := v mod 2 ^ w.

Definition u8 (v : Z) : Z := wrap 8 v.
Definition u32 (v : Z) : Z := wrap 32 v.

(** A value converted to [int]. *)
Definition int32 (v : Z) : Z := (v + 2 ^ 31) mod 2 ^ 32 - 2 ^ 31.

#[export] Instance word_dec w v : Decision (word w v).
Proof. unfold word. apply _. Defined.

Lemma wrap_word w v : 0 ≤ w → word w (wrap w v).
Proof. intros. unfold word, wrap. apply Z.mod_pos_bound. lia. Qed.

Lemma wrap_small w v : word w v → wrap w v = v.
Proof. intros. by apply Z.mod_small. Qed.

Lemma word_mono w w' v : 0 ≤ w ≤ w' → word w v → word w' v.
Proof. intros. unfold word in *. assert (2 ^ w ≤ 2 ^ w') by (apply Z.pow_le_mono_r; lia). lia. Qed.

(** A field of [n] bits at bit [s]. *)
Definition bits (s n v : Z) : Z := (v ≫ s) .& Z.ones n.

Lemma bits_word s n v : 0 ≤ n → word n (bits s n v).
Proof.
  intros. unfold bits, word. rewrite Z.land_ones by done. apply Z.mod_pos_bound. lia.
Qed.

(** A masked value stays under its mask. *)
Lemma land_ones_word n v : 0 ≤ n → word n (v .& Z.ones n).
Proof. intros. unfold word. rewrite Z.land_ones by done. apply Z.mod_pos_bound. lia. Qed.

(** A property of the values of a word is checked on each. *)
Lemma word_check (P : Z → bool) w v :
  0 ≤ w → forallb P (map Z.of_nat (seq 0 (Z.to_nat (2 ^ w)))) = true → word w v → P v = true.
Proof.
  intros Hw Hall [H0 H1]. rewrite forallb_forall in Hall. apply Hall.
  apply in_map_iff. exists (Z.to_nat v). split; [lia|]. apply in_seq. lia.
Qed.

(** ** Buffers *)

Abbreviation buffer := (list Z).

Definition bytes_ok (l : buffer) : Prop := Forall (word 8) l.

Fixpoint le_decode (l : buffer) : Z :=
  match l with [] => 0 | b :: l => b + 256 * le_decode l end.

Fixpoint le_encode (n : nat) (v : Z) : buffer :=
  match n with O => [] | S n => v mod 256 :: le_encode n (v / 256) end.

Lemma le_encode_length n v : length (le_encode n v) = n.
Proof. revert v. induction n; intros; cbn; auto. Qed.

Lemma le_encode_ok n v : bytes_ok (le_encode n v).
Proof.
  revert v. induction n; intros v; cbn; constructor; [|apply IHn].
  unfold word. apply Z.mod_pos_bound. lia.
Qed.

Lemma le_decode_word l : bytes_ok l → word (8 * Z.of_nat (length l)) (le_decode l).
Proof.
  unfold word. induction 1 as [|b l Hb Hl IH]; cbn [le_decode length]; [lia|].
  rewrite Nat2Z.inj_succ. unfold word in Hb.
  replace (8 * Z.succ (Z.of_nat (length l))) with (8 + 8 * Z.of_nat (length l)) by lia.
  rewrite Z.pow_add_r by lia. change (2 ^ 8) with 256 in *. nia.
Qed.

Lemma le_decode_encode n v : word (8 * Z.of_nat n) v → le_decode (le_encode n v) = v.
Proof.
  unfold word. revert v. induction n as [|n IH]; intros v Hv; cbn [le_decode le_encode].
  - change (2 ^ _) with 1 in Hv. lia.
  - rewrite IH.
    + pose proof (Z.div_mod v 256). lia.
    + rewrite Nat2Z.inj_succ in Hv.
      replace (8 * Z.succ (Z.of_nat n)) with (8 + 8 * Z.of_nat n) in Hv by lia.
      rewrite Z.pow_add_r in Hv by lia. change (2 ^ 8) with 256 in Hv.
      split; [apply Z.div_pos; lia|]. apply Z.div_lt_upper_bound; lia.
Qed.

Lemma le_encode_decode l : bytes_ok l → le_encode (length l) (le_decode l) = l.
Proof.
  induction 1 as [|b l Hb Hl IH]; cbn [le_decode length le_encode]; [done|].
  unfold word in Hb. change (2 ^ 8) with 256 in Hb.
  replace (b + 256 * le_decode l) with (le_decode l * 256 + b) by lia.
  rewrite Z.div_add_l, (Z.div_small b), Z.add_0_r by lia.
  rewrite Z.add_comm, Z.mod_add, Z.mod_small by lia. by rewrite IH.
Qed.

Lemma bytes_ok_app l k : bytes_ok (l ++ k) ↔ bytes_ok l ∧ bytes_ok k.
Proof. apply Forall_app. Qed.

Lemma bytes_ok_take n l : bytes_ok l → bytes_ok (take n l).
Proof. apply Forall_take. Qed.

Lemma bytes_ok_drop n l : bytes_ok l → bytes_ok (drop n l).
Proof. apply Forall_drop. Qed.

Create HintDb bytes.
#[export] Hint Resolve le_encode_ok bytes_ok_take bytes_ok_drop : bytes.

(** ** Values in sequence *)

(** A buffer cut into pieces of [k] bytes, the last one possibly shorter. *)
Fixpoint chunks_fuel (fuel k : nat) (l : buffer) : list buffer :=
  match fuel, l with
  | S fuel, _ :: _ => take k l :: chunks_fuel fuel k (drop k l)
  | _, _ => []
  end.

(** The pieces are as many as the loop [for (i = 0; i < size; i += k)] visits. *)
Definition chunks (k : nat) (l : buffer) : list buffer := chunks_fuel (length l) k l.

Lemma chunks_fuel_enough n m k l :
  (0 < k)%nat → (length l ≤ n)%nat → (length l ≤ m)%nat →
  chunks_fuel n k l = chunks_fuel m k l.
Proof.
  intros Hk. revert m l. induction n as [|n IH]; intros [|m] [|b l] Hn Hm;
    cbn in *; try done; try lia.
  f_equal. apply IH; rewrite length_drop; cbn; lia.
Qed.

Lemma concat_chunks k l : (0 < k)%nat → concat (chunks k l) = l.
Proof.
  intros Hk. unfold chunks. remember (length l) as n eqn:Hn. revert l Hn.
  assert (H : ∀ l, (length l ≤ n)%nat → concat (chunks_fuel n k l) = l).
  { induction n as [|n IH]; intros [|b l] Hl; cbn in *; try done; [lia|].
    rewrite IH by (rewrite length_drop; cbn; lia). apply take_drop. }
  intros l ->. by apply H.
Qed.

Lemma chunks_cons k (l : buffer) : (0 < k)%nat → l ≠ [] → chunks k l = take k l :: chunks k (drop k l).
Proof.
  intros Hk. destruct l as [|b l]; [done|]. intros _. unfold chunks at 1. cbn [length chunks_fuel]. f_equal.
  apply chunks_fuel_enough; [done| |done]. rewrite length_drop. cbn. lia.
Qed.

Lemma chunks_concat k ls :
  (0 < k)%nat → Forall (λ l, length l = k) ls → chunks k (concat ls) = ls.
Proof.
  intros Hk. induction 1 as [|l ls Hl Hls IH]; [done|].
  unfold chunks in *. cbn [concat]. destruct l as [|b l]; [cbn in Hl; lia|].
  cbn [app length chunks_fuel].
  rewrite app_comm_cons, take_app_length', drop_app_length' by done. f_equal.
  rewrite (chunks_fuel_enough _ (length (concat ls))); [done..| |lia].
  rewrite length_app. lia.
Qed.

(** ** Text *)

Definition hex_digit (v : Z) : string :=
  match v with
  | 0 => "0" | 1 => "1" | 2 => "2" | 3 => "3" | 4 => "4" | 5 => "5" | 6 => "6" | 7 => "7"
  | 8 => "8" | 9 => "9" | 10 => "A" | 11 => "B" | 12 => "C" | 13 => "D" | 14 => "E"
  | _ => "F"
  end%string.

Definition hex_digit_lower (v : Z) : string :=
  match v with
  | 10 => "a" | 11 => "b" | 12 => "c" | 13 => "d" | 14 => "e" | 15 => "f"
  | _ => hex_digit v
  end%string.

(** A value of at most [n] digits, padded with zeros to [n]. *)
Fixpoint format_digits (digit : Z → string) (n : nat) (v : Z) : string :=
  match n with
  | O => ""
  | S n => (format_digits digit n (v / 16) +:+ digit (v mod 16))%string
  end.

(** [std::format] with 0nX and with 0nx. *)
Definition format_hex : nat → Z → string := format_digits hex_digit.
Definition format_hex_lower : nat → Z → string := format_digits hex_digit_lower.

Example format_hex_ex : format_hex 4 0x4801 = "4801"%string.
Proof. reflexivity. Qed.
