(* ===== verification/Text.v ===== *)
(** * Text: strings as the programs cut, join and read them

    The operations of boost and of the standard library on std::string that the
    sources use, over [string], and the order std::map gives its keys. *)

From stdpp Require Import list strings pretty.
From Stdlib Require Import Ascii.
From S2P Require Import Prelude Bytes.

(** ** Numbers *)

(** [std::to_string] of an unsigned value. *)
Definition to_string (v : Z) : string := pretty (Z.to_N v).

(** [std::to_string] of an [int]. *)
Definition int_to_string (v : Z) : string := if v <? 0 then ("-" +:+ to_string (- v))%string else to_string v.

(** A hexadecimal digit of either case. *)
Definition hex_value (c : Z) : option Z :=
  if (48 <=? c) && (c <=? 57) then Some (c - 48) else
  if (65 <=? c) && (c <=? 70) then Some (c - 55) else
  if (97 <=? c) && (c <=? 102) then Some (c - 87) else None.

Definition code (c : ascii) : Z := Z.of_N (N_of_ascii c).
Definition hex_char (c : ascii) : option Z := hex_value (code c).

(** [isspace] of the C locale. *)
Definition is_space (c : ascii) : bool := (code c =? 32) || ((9 <=? code c) && (code c <=? 13)).

Fixpoint trim_left (s : string) : string :=
  match s with
  | String c rest => if is_space c then trim_left rest else s
  | "" => ""
  end%string.

Fixpoint trim_right (s : string) : string :=
  match s with
  | String c rest =>
      match trim_right rest with
      | "" => if is_space c then "" else String c ""
      | rest => String c rest
      end
  | "" => ""
  end%string.

(** [boost::algorithm::trim] *)
Definition trim (s : string) : string := trim_right (trim_left s).

(** The digits from the start on, added to [acc]; none if there is no digit. *)
Fixpoint hex_digits (acc : option Z) (s : string) : option Z :=
  match s with
  | String c rest =>
      match hex_char c with
      | Some d => hex_digits (Some (16 * default 0 acc + d)) rest
      | None => acc
      end
  | "" => acc
  end%string.

Definition strip_0x (s : string) : string :=
  match s with
  | String "0" (String x (String c rest)) =>
      if (bool_decide (x = "x"%char) || bool_decide (x = "X"%char)) && bool_decide (is_Some (hex_char c))
      then String c rest else s
  | _ => s
  end.

(** [std::stoi(s, nullptr, 16)]: none is its exception, for no digit or a value
    that is not an [int]. *)
Definition stoi16 (s : string) : option Z :=
  let '(sign, s) :=
    match trim_left s with
    | String "-" rest => (-1, rest)
    | String "+" rest => (1, rest)
    | s => (1, s)
    end in
  v ← hex_digits None (strip_0x s);
  let v := sign * v in
  if (- 2 ^ 31 <=? v) && (v <=? 2 ^ 31 - 1) then Some v else None.

Fixpoint dec_digits (acc : option Z) (s : string) : option Z :=
  match s with
  | String c rest =>
      if (48 <=? code c) && (code c <=? 57)
      then dec_digits (Some (10 * default 0 acc + (code c - 48))) rest else acc
  | ""%string => acc
  end.

(** [std::stoi(s)] *)
Definition stoi (s : string) : option Z :=
  let '(sign, s) :=
    match trim_left s with
    | String "-" rest => (-1, rest)
    | String "+" rest => (1, rest)
    | s => (1, s)
    end in
  v ← dec_digits None s;
  let v := sign * v in
  if (- 2 ^ 31 <=? v) && (v <=? 2 ^ 31 - 1) then Some v else None.

(** The digits of a base of at most 16 from the start on, added to [acc]; none
    if there is no digit. *)
Fixpoint base_digits (base : Z) (acc : option Z) (s : string) : option Z :=
  match s with
  | String c rest =>
      match hex_char c with
      | Some d => if (d <? base)%Z then base_digits base (Some (base * default 0 acc + d)%Z) rest else acc
      | None => acc
      end
  | "" => acc
  end%string.

(** [std::stoul(s, nullptr, 0)] where an [unsigned long] has [w] bits: the base is
    that of the prefix; none is its exception. *)
Definition stoul0 (w : Z) (s : string) : option Z :=
  let '(negative, s) :=
    match trim_left s with
    | String "-" rest => (true, rest)
    | String "+" rest => (false, rest)
    | s => (false, s)
    end in
  let octal := match s with String "0" _ => base_digits 8 None s | _ => base_digits 10 None s end in
  v ← match s with
      | String "0" (String ("x" | "X") rest) =>
          match base_digits 16 None rest with Some v => Some v | None => octal end
      | _ => octal
      end;
  if (2 ^ w <=? v) then None else Some (if negative : bool then (- v) mod 2 ^ w else v).

Example stoul0_ex :
  (stoul0 32 " 0x1004zz", stoul0 32 "017", stoul0 32 "19", stoul0 32 "0xg", stoul0 32 "x", stoul0 32 "-1",
   stoul0 32 "0x100000000")%string =
  (Some 0x1004, Some 15, Some 19, Some 0, None, Some 0xFFFFFFFF, None).
Proof. reflexivity. Qed.

(** Hexadecimal without padding, of a value of 16 bits. *)
Definition hex16 (v : Z) : string :=
  format_hex (if v <? 0x10 then 1 else if v <? 0x100 then 2 else if v <? 0x1000 then 3 else 4) v.

(** ** Cutting and joining *)

(** [boost::split] at one character, without compression. *)
Fixpoint split (c : ascii) (s : string) : list string :=
  match s with
  | "" => [""]
  | String d rest =>
      if decide (d = c) then "" :: split c rest else
      match split c rest with
      | [] => [String d ""]
      | w :: l => String d w :: l
      end
  end%string.

Fixpoint join (sep : string) (l : list string) : string :=
  match l with
  | [] => ""
  | [s] => s
  | s :: l => s +:+ sep +:+ join sep l
  end.

(** What follows the last occurrence of [pattern]. *)
Fixpoint after_last (pattern s : string) : option string :=
  match s with
  | "" => None
  | String _ rest =>
      match after_last pattern rest with
      | Some r => Some r
      | None => if String.prefix pattern s
                then Some (String.substring (String.length pattern) (String.length s) s) else None
      end
  end%string.

(** [s.substr(s.find_last_of('.') + 1)] *)
Definition last_field (s : string) : string := default s (after_last "." s).

(** ** Characters and patterns *)

(** [::tolower] on ASCII. *)
Definition ascii_tolower (c : ascii) : ascii :=
  let n := Ascii.nat_of_ascii c in
  if ((65 <=? n) && (n <=? 90))%nat then ascii_of_nat (n + 32) else c.

Fixpoint tolower (s : string) : string :=
  match s with "" => "" | String c s => String (ascii_tolower c) (tolower s) end%string.

(** What follows a prefix. *)
Fixpoint expect (p s : string) : option string :=
  match p, s with
  | "", _ => Some s
  | String c p, String d s => if decide (c = d) then expect p s else None
  | _, "" => None
  end%string.

(** The match of a pattern at the leftmost place where it has one. *)
Fixpoint search {A} (pattern : string → option A) (s : string) : option A :=
  match pattern s with
  | Some a => Some a
  | None => match s with ""%string => None | String _ rest => search pattern rest end
  end.

(** [s.find(p) != npos] *)
Definition contains (p s : string) : bool := if search (expect p) s then true else false.

(** The characters before the first [c], which is there. *)
Fixpoint until (c : ascii) (s : string) : option string :=
  match s with
  | ""%string => None
  | String d rest => if decide (d = c) then Some ""%string else String d <$> until c rest
  end.

(** ** Paths *)

(** The last component of a path. *)
Fixpoint path_filename (path : string) : string :=
  match path with
  | "" => ""
  | String c rest =>
      match String.index 0 "/" path with
      | Some _ => path_filename rest
      | None => path
      end
  end%string.

(** [operator/=] of paths with a relative right-hand side. *)
Definition path_append (base name : string) : string :=
  if decide (base = ""%string) then name else
  if decide (String.substring (String.length base - 1) 1 base = "/"%string)
  then base +:+ name else base +:+ "/" +:+ name.

(** ** Ordered maps *)

(** [std::map::emplace]: in the order of the keys, and not over an element
    that is there. *)
Fixpoint emplace {A} (key : string) (x : A) (l : list (string * A)) : list (string * A) :=
  match l with
  | [] => [(key, x)]
  | (k, y) :: rest =>
      match String.compare key k with
      | Lt => (key, x) :: l
      | Eq => l
      | Gt => (k, y) :: emplace key x rest
      end
  end.

Lemma emplace_perm {A} key (x : A) l : key ∉ l.*1 → emplace key x l ≡ₚ (key, x) :: l.
Proof.
  induction l as [|[k y] l IH]; intros Hk; [done|]. cbn [emplace].
  apply not_elem_of_cons in Hk as [Hne Hk]. cbn in Hne.
  destruct (String.compare key k) eqn:Hc; [|done|].
  - by apply String.compare_eq_iff in Hc.
  - rewrite IH by done. by apply Permutation_swap.
Qed.

Lemma emplace_Forall {A} (P : string * A → Prop) key (x : A) l :
  P (key, x) → Forall P l → Forall P (emplace key x l).
Proof.
  intros Hx. induction 1 as [|[k y] l Hy Hl IH]; [by repeat constructor|]. cbn [emplace].
  destruct (String.compare key k); by repeat constructor.
Qed.

(** [m[key] = x] of a [std::map]. *)
Fixpoint assign {A} (key : string) (x : A) (l : list (string * A)) : list (string * A) :=
  match l with
  | [] => [(key, x)]
  | (k, y) :: rest =>
      match String.compare key k with
      | Lt => (key, x) :: l
      | Eq => (key, x) :: rest
      | Gt => (k, y) :: assign key x rest
      end
  end.

(** The value of a key. *)
Fixpoint assoc {A} (key : string) (l : list (string * A)) : option A :=
  match l with
  | [] => None
  | (k, x) :: rest => if decide (k = key) then Some x else assoc key rest
  end.

(** ** Laws *)

Lemma assoc_assign {A} key (x : A) l : assoc key (assign key x l) = Some x.
Proof.
  induction l as [|[k y] l IH]; cbn [assign]; [cbn; by rewrite decide_True|].
  destruct (String.compare key k) eqn:Hc; cbn [assoc]; [by rewrite decide_True..|].
  rewrite decide_False; [done|]. intros ->. by rewrite string_compare_refl in Hc.
Qed.

Lemma assoc_assign_ne {A} key key' (x : A) l : key ≠ key' → assoc key' (assign key x l) = assoc key' l.
Proof.
  intros Hne. induction l as [|[k y] l IH]; cbn [assign]; [cbn; by rewrite decide_False|].
  destruct (String.compare key k) eqn:Hc; cbn [assoc].
  - apply String.compare_eq_iff in Hc as <-. by rewrite !decide_False.
  - by rewrite decide_False.
  - by rewrite IH.
Qed.

Lemma string_app_assoc s t u : s +:+ t +:+ u = (s +:+ t) +:+ u.
Proof.
  induction s as [|c s IH]; [done|].
  change (String c (s +:+ t +:+ u) = String c ((s +:+ t) +:+ u)). by rewrite IH.
Qed.

Lemma string_app_nil s : s +:+ "" = s.
Proof. induction s as [|c s IH]; [done|]. change (String c (s +:+ "") = String c s). by rewrite IH. Qed.

Lemma string_prefix_app p s : String.prefix p (p +:+ s) = true.
Proof.
  induction p as [|c p IH]; [by destruct s|]. change (String c p +:+ s) with (String c (p +:+ s)).
  cbn [String.prefix]. by destruct (ascii_dec c c).
Qed.

(** No character of [s] satisfies [P]. *)
Fixpoint free (P : ascii → bool) (s : string) : bool :=
  match s with "" => true | String c rest => negb (P c) && free P rest end%string.

Definition is_char (c d : ascii) : bool := bool_decide (d = c).

Lemma free_app P s t : free P (s +:+ t) = free P s && free P t.
Proof.
  induction s as [|c s IH]; [done|]. change (String c s +:+ t) with (String c (s +:+ t)).
  cbn [free]. by rewrite IH, andb_assoc.
Qed.

Lemma split_free c s : free (is_char c) s = true → split c s = [s].
Proof.
  induction s as [|d s IH]; [done|]. cbn [free]. intros [Hd Hs]%andb_true_iff.
  apply negb_true_iff, bool_decide_eq_false in Hd. cbn [split].
  by rewrite decide_False, IH.
Qed.

Lemma split_app c s t :
  free (is_char c) s = true → split c (s +:+ String c t) = s :: split c t.
Proof.
  induction s as [|d s IH]; cbn [free].
  - intros _. change (split c (String c t) = ""%string :: split c t). cbn [split].
    by rewrite decide_True.
  - intros [Hd Hs]%andb_true_iff. apply negb_true_iff, bool_decide_eq_false in Hd.
    change (String d s +:+ ?u) with (String d (s +:+ u)). cbn [split].
    by rewrite decide_False, IH.
Qed.

(** Strings one after the other. *)
Fixpoint cat (l : list string) : string := match l with [] => ""%string | s :: l => (s +:+ cat l)%string end.

(** Splitting undoes joining. *)
Lemma split_join c l :
  l ≠ [] → Forall (λ s, free (is_char c) s = true) l → split c (join (String c "") l) = l.
Proof.
  intros Hne. induction 1 as [|s l Hs Hl IH]; [done|]. destruct l as [|t l].
  - by apply split_free.
  - cbn [join]. change (String c "" +:+ ?x) with (String c x). rewrite split_app by done.
    f_equal. by apply IH.
Qed.

Lemma trim_right_space_free s : free is_space s = true → trim_right s = s.
Proof.
  induction s as [|c s IH]; [done|]. cbn [free]. intros [Hc Hs]%andb_true_iff.
  apply negb_true_iff in Hc. cbn [trim_right]. rewrite IH by done. destruct s; [by rewrite Hc|done].
Qed.

(** Only spaces at the end are trimmed. *)
Lemma trim_right_app s t : free is_space t = true → t ≠ ""%string → trim_right (s +:+ t) = s +:+ t.
Proof.
  intros Ht Hne. induction s as [|c s IH]; [by apply trim_right_space_free|].
  change (String c s +:+ t) with (String c (s +:+ t)). cbn [trim_right]. rewrite IH.
  destruct (s +:+ t) eqn:Hst; [|done]. destruct s; [by destruct t|done].
Qed.

(** A byte written with two digits reads back. *)
Lemma stoi16_format_hex b : word 8 b → stoi16 (format_hex 2 b) = Some b.
Proof.
  intros Hb. apply (bool_decide_eq_true_1 _).
  apply (word_check (λ b, bool_decide (stoi16 (format_hex 2 b) = Some b)) 8 b); [lia| |done].
  by vm_compute.
Qed.

Lemma format_hex_free (P : ascii → bool) b :
  word 8 b → forallb (λ c, negb (P c)) ["0"; "1"; "2"; "3"; "4"; "5"; "6"; "7"; "8"; "9";
    "A"; "B"; "C"; "D"; "E"; "F"]%char = true →
  free P (format_hex 2 b) = true.
Proof.
  intros _ HP. cbn [forallb] in HP. rewrite !andb_true_iff in HP.
  assert (Hd : ∀ v, free P (hex_digit v) = true).
  { intros v. unfold hex_digit. repeat case_match; cbn [free]; rewrite andb_true_r; tauto. }
  cbn [format_hex format_digits]. unfold format_hex. cbn [format_digits].
  change ("" +:+ ?x) with x. by rewrite free_app, !Hd.
Qed.

Example stoi16_ex :
  stoi16 "0C" = Some 12 ∧ stoi16 " -0x1F," = Some (-31) ∧ stoi16 "RX:" = None ∧
  stoi16 "0x" = Some 0 ∧ stoi16 "80000000" = None.
Proof. by vm_compute. Qed.

Lemma expect_app p s : expect p (p +:+ s) = Some s.
Proof.
  induction p as [|c p IH]; [by destruct s|]. change (String c p +:+ s) with (String c (p +:+ s)).
  cbn [expect]. by rewrite decide_True.
Qed.

Lemma until_app c s t : free (is_char c) s = true → until c (s +:+ String c t) = Some s.
Proof.
  induction s as [|d s IH]; cbn [free].
  - intros _. change (until c (String c t) = Some ""%string). cbn [until]. by rewrite decide_True.
  - intros [Hd Hs]%andb_true_iff. apply negb_true_iff, bool_decide_eq_false in Hd.
    change (String d s +:+ ?u) with (String d (s +:+ u)). cbn [until].
    by rewrite decide_False, IH.
Qed.

(** A pattern that starts with a character is not found where that character
    is not. *)
Lemma search_skip {A} (pattern : string → option A) c s t :
  (∀ d r, d ≠ c → pattern (String d r) = None) → free (is_char c) s = true →
  search pattern (s +:+ t) = search pattern t.
Proof.
  intros Hp. induction s as [|d s IH]; [done|]. cbn [free].
  intros [Hd Hs]%andb_true_iff. apply negb_true_iff, bool_decide_eq_false in Hd.
  change (String d s +:+ t) with (String d (s +:+ t)). cbn [search]. by rewrite Hp, IH.
Qed.

Lemma expect_head c p d r : d ≠ c → expect (String c p) (String d r) = None.
Proof. intros Hd. cbn [expect]. by rewrite decide_False. Qed.

(** [p] and [s] differ at some character of both. *)
Fixpoint clash (p s : string) : bool :=
  match p, s with
  | String c p, String d s => if decide (c = d) then clash p s else true
  | _, _ => false
  end.

(** [p] does not start in [s], nor can it be completed after it. *)
Fixpoint clashes (p s : string) : bool :=
  match s with "" => true | String _ rest => clash p s && clashes p rest end%string.

Lemma clash_app p s t : clash p s = true → clash p (s +:+ t) = true.
Proof.
  revert s. induction p as [|c p IH]; intros [|d s]; try done.
  change (String d s +:+ t) with (String d (s +:+ t)). cbn [clash]. case_decide; [apply IH|done].
Qed.

Lemma clashes_app p s t : clashes p s = true → clashes p t = true → clashes p (s +:+ t) = true.
Proof.
  intros Hs Ht. induction s as [|c s IH]; [done|]. cbn [clashes] in Hs.
  apply andb_true_iff in Hs as [Hc Hs]. change (String c s +:+ t) with (String c (s +:+ t)).
  cbn [clashes]. apply andb_true_iff. split; [|by apply IH]. by apply (clash_app p (String c s)).
Qed.

Lemma clashes_free c p s : free (is_char c) s = true → clashes (String c p) s = true.
Proof.
  induction s as [|d s IH]; [done|]. cbn [free clashes]. intros [Hd Hs]%andb_true_iff.
  apply negb_true_iff, bool_decide_eq_false in Hd. apply andb_true_iff. split; [|by apply IH].
  cbn [clash]. by rewrite decide_False by congruence.
Qed.

Lemma expect_clash p s : clash p s = true → expect p s = None.
Proof.
  revert s. induction p as [|c p IH]; intros [|d s]; try done. cbn [clash expect].
  case_decide; [apply IH|done].
Qed.

(** A pattern that needs [p] is not found where [p] clashes. *)
Lemma search_clashes {A} (pattern : string → option A) p s t :
  (∀ u, clash p u = true → pattern u = None) → clashes p s = true →
  search pattern (s +:+ t) = search pattern t.
Proof.
  intros Hp. induction s as [|c s IH]; [done|]. cbn [clashes]. intros [Hc Hs]%andb_true_iff.
  pose proof (Hp _ (clash_app p (String c s) t Hc)) as Hn.
  change (String c s +:+ t) with (String c (s +:+ t)) in *. cbn [search]. by rewrite Hn, IH.
Qed.

Lemma search_here {A} (pattern : string → option A) s a : pattern s = Some a → search pattern s = Some a.
Proof. intros Hs. destruct s; cbn [search]; by rewrite Hs. Qed.

Lemma contains_app p s t : clashes p s = true → contains p (s +:+ p +:+ t) = true.
Proof.
  intros Hs. unfold contains. rewrite (search_clashes _ p) by (done || apply expect_clash).
  by rewrite (search_here _ _ t) by apply expect_app.
Qed.

Lemma free_impl (P Q : ascii → bool) s :
  (∀ c, Q c = true → P c = true) → free P s = true → free Q s = true.
Proof.
  intros HPQ. induction s as [|c s IH]; [done|]. cbn [free]. rewrite !andb_true_iff, !negb_true_iff.
  intros [Hc Hs]. split; [|by apply IH]. destruct (Q c) eqn:Hq; [|done]. by rewrite (HPQ _ Hq) in Hc.
Qed.
