(* ===== verification/Tlv.v ===== *)
(** * TLV containers of the debug tokens

    The decoder of src/debug_token/tlv: items, structures, and the typed
    access to values. A buffer is a list of bytes; the raw header fields keep
    their bytes, which each access converts with leXtoh, as in the code. An
    exception carries the values its text is formatted from.

    [serialize] is the abstract grammar of a container: [decode_exact] states
    that a decode succeeds on the serialisations of containers and on nothing
    else. *)

From Equations Require Import Equations.
From stdpp Require Import list strings sorting pretty gmap.
From S2P Require Import Prelude Bytes.

(** ** Data *)

(** [debug_token/tlv/tlv.h:30-30 TLV_IDENTIFIER] *)
Definition TLV_IDENTIFIER : buffer := [0x54; 0x4C; 0x56; 0x31].

(** [debug_token/tlv/tlv.h:39-48 StructureHeader] The bytes of each field. *)
Record StructureHeader := mkStructureHeader {
  sh_identifier : buffer;
  sh_versionMajor : buffer;
  sh_versionMinor : buffer;
  sh_size : buffer;
  sh_reserved : buffer;
}.

(** [sizeof(StructureHeader)] and [sizeof(ItemHeader)], packed. *)
Definition structure_header_size : nat := 32.
Definition item_header_size : nat := 4.

(** [debug_token/tlv/tlv.h:57-63 ItemHeader] *)
Record ItemHeader := mkItemHeader { ih_type : buffer; ih_size : buffer }.

(** [debug_token/tlv/tlv.h:87-157 tlv_decoder::Item] *)
Record Item := mkItem { it_header : ItemHeader; it_data : buffer }.

(** [debug_token/tlv/tlv.h:165-214 tlv_decoder::Structure] The header pointer
    is null until a decode sets it. *)
Record Structure := mkStructure {
  st_header : option StructureHeader;
  st_data : gmap Z Item;
}.

Definition empty_structure : Structure := mkStructure None ∅.

(** The std::runtime_errors of the decoder. *)
Inductive TlvError :=
| ItemShorterThanHeader (size : nat)
| ItemTooShort (type size : Z)
| VectorNotMultiple (expected actual : nat)
| SizeMismatch (expected actual : nat)
| StructureShorterThanHeader (size : nat)
| InvalidIdentifier (identifier : buffer)
| InvalidHeaderSize (expected actual : Z)
| DuplicateType (type : Z)
| InvalidTlvData (e : TlvError)
| StructureEmpty
| ItemNotFound (type : Z).

(** ** Items *)

(** [debug_token/tlv/tlv_decoder.cpp:75-78 Item::getValueSize] *)
Definition getValueSize (it : Item) : Z := le_decode (ih_size (it_header it)).

(** [debug_token/tlv/tlv_decoder.cpp:65-68 Item::getType] *)
Definition getType (it : Item) : Z := le_decode (ih_type (it_header it)).

(** [debug_token/tlv/tlv_decoder.cpp:70-73 Item::getTotalSize] *)
Definition getTotalSize (it : Item) : nat := item_header_size + Z.to_nat (getValueSize it).

(** [debug_token/tlv/tlv_decoder.cpp:80-83 Item::getRawValue] *)
Definition getRawValue (it : Item) : buffer := it_data it.

(** [debug_token/tlv/tlv_decoder.cpp:43-63 Item::Item] *)
Definition Item_make (input : buffer) : res TlvError Item :=
  if decide (length input < item_header_size)%nat then
    Throw (ItemShorterThanHeader (length input)) else
  let header := mkItemHeader (take 2 input) (take 2 (drop 2 input)) in
  let dataLength := Z.to_nat (le_decode (ih_size header)) in
  if decide (length input - item_header_size < dataLength)%nat then
    Throw (ItemTooShort (le_decode (ih_type header)) (le_decode (ih_size header))) else
  Ok (mkItem header (take dataLength (drop item_header_size input))).

(** [debug_token/tlv/tlv_decoder.cpp:85-123 Item::getValue] As a vector of
    integers of [k] bytes. *)
Definition getValue_vector (k : nat) (it : Item) : res TlvError (list Z) :=
  if decide (k = 1%nat) then Ok (it_data it) else
  if decide (length (it_data it) `mod` k ≠ 0)%nat then
    Throw (VectorNotMultiple k (length (it_data it)))
  else Ok (map le_decode (chunks k (it_data it))).

(** [debug_token/tlv/tlv_decoder.cpp:125-153 Item::getValue] As an unsigned
    integer of [k] bytes. *)
Definition getValue_unsigned (k : nat) (it : Item) : res TlvError Z :=
  if decide (k ≠ length (it_data it)) then
    Throw (SizeMismatch k (length (it_data it)))
  else Ok (le_decode (it_data it)).

(** [debug_token/tlv/types.h:31-94 types] The names of the enumerators, in
    their order. *)
Definition types : list (Z * string) :=
  [(0x0001, "DeviceType"); (0x0002, "ChallengeNonce"); (0x0003, "DeviceSerialNumber");
   (0x0004, "DeviceSerialNumberArray"); (0x0005, "FirmwareVersion");
   (0x0006, "AgentVersion"); (0x0007, "LifecycleState"); (0x0008, "TokenIdentifier");
   (0x0009, "TokenType"); (0x000A, "TokenConfig"); (0x000B, "NvidiaSignature");
   (0x000C, "OemSignature"); (0x000D, "InstallationStatus");
   (0x000E, "ProcessingStatus"); (0x000F, "SkuInformation"); (0x0010, "NvidiaRatchet");
   (0x0011, "OemRatchet"); (0x0012, "ValidityCounter"); (0x0013, "CertificateChain");
   (0x0014, "MeasurementTranscript"); (0x0015, "DeviceId");
   (0x0016, "TokenTypeSubtypeList"); (0x0017, "Payload"); (0x0018, "LegacyToken");
   (0x4000, "GPUFeatureMask"); (0x4001, "GPUChipId");
   (0x4400, "NBUKeypairUUID"); (0x4401, "NBUPSID"); (0x4402, "NBUFileDeviceUnique");
   (0x4801, "BMCIRoTTokenVersion"); (0x4802, "BMCIRoTNvidiaSignatureAlgorithm")]%string.

(** [debug_token/tlv/tlv_decoder.cpp:155-224 Item::getTypeName] *)
Definition getTypeName (type : Z) : string :=
  match find_if (λ e : Z * string, e.1 =? type) types with
  | Some (_, (_, name)) => name
  | None => ("UnknownType(0x" +:+ format_hex 4 type +:+ ")")%string
  end.

(** ** Structures *)

(** [debug_token/tlv/tlv_decoder.cpp:254-276 Structure::decode] The loop over
    the items; the iterator is what is left of the input. *)
Equations? decode_items (rest : buffer) (data : gmap Z Item)
    : res TlvError () * gmap Z Item by wf (length rest) lt :=
  decode_items [] data := (Ok (), data);
  decode_items (b :: rest) data with Item_make (b :: rest) := {
    | Throw e := (Throw (InvalidTlvData e), data);
    | Ok element with decide (is_Some (data !! getType element)) := {
      | left _ := (Throw (InvalidTlvData (DuplicateType (getType element))), data);
      | right _ := decode_items (drop (getTotalSize element) (b :: rest))
                                (<[getType element := element]> data) } }.
Proof. rewrite length_drop. unfold getTotalSize, item_header_size. cbn. lia. Qed.

(** The bytes of a header. *)
Definition parse_header (input : buffer) : StructureHeader :=
  mkStructureHeader (take 4 input) (take 2 (drop 4 input)) (take 2 (drop 6 input))
    (take 4 (drop 8 input)) (take 20 (drop 12 input)).

(** [debug_token/tlv/tlv_decoder.cpp:231-281 Structure::decode] What was stored
    before an exception stays stored. *)
Definition decode (input : buffer) (s : Structure) : res TlvError () * Structure :=
  if decide (length input < structure_header_size)%nat then
    (Throw (StructureShorterThanHeader (length input)), s) else
  let header := parse_header input in
  let s := mkStructure (Some header) (st_data s) in
  if decide (sh_identifier header ≠ TLV_IDENTIFIER) then
    (Throw (InvalidIdentifier (sh_identifier header)), s) else
  let expectedSize := le_decode (sh_size header) + Z.of_nat structure_header_size in
  if decide (expectedSize ≠ Z.of_nat (length input)) then
    (Throw (InvalidHeaderSize expectedSize (Z.of_nat (length input))), s) else
  let '(r, data) := decode_items (drop structure_header_size input) (st_data s) in
  let s := mkStructure (st_header s) data in
  match r with
  | Throw e => (Throw e, s)
  | Ok _ => if decide (data = ∅) then (Throw StructureEmpty, s) else (Ok (), s)
  end.

(** [debug_token/tlv/tlv_decoder.cpp:226-229 Structure::Structure] *)
Definition Structure_make (input : buffer) : res TlvError Structure :=
  let '(r, s) := decode input empty_structure in
  match r with Ok _ => Ok s | Throw e => Throw e end.

(** [debug_token/tlv/tlv_decoder.cpp:283-287 Structure::getVersion] Reading
    through the null pointer of a structure never decoded is undefined. *)
Definition getVersion (s : Structure) : option (Z * Z) :=
  h ← st_header s; Some (le_decode (sh_versionMajor h), le_decode (sh_versionMinor h)).

(** [debug_token/tlv/tlv_decoder.cpp:289-296 Structure::getTypes] A std::map is
    traversed in the order of its keys. *)
Definition getTypes (s : Structure) : list Z :=
  merge_sort Z.le (map_to_list (st_data s)).*1.

(** [debug_token/tlv/tlv_decoder.cpp:298-306 Structure::get] *)
Definition get (type : Z) (s : Structure) : res TlvError Item :=
  match st_data s !! type with
  | Some it => Ok it
  | None => Throw (ItemNotFound type)
  end.

(** ** Error codes *)

(** [debug_token/tlv/error.h:67-91 Error::to_string] with the values of
    [ErrorCode]. *)
Definition Error_to_string (code : Z) : string :=
  match code with
  | 0x1000 => "Internal error"
  | 0x1001 => "Invalid format"
  | 0x1002 => "Signature verification failed"
  | 0x1003 => "Invalid nonce"
  | 0x1004 => "Invalid lifecycle state"
  | 0x1005 => "Unsupported type"
  | 0x1006 => "Storage error"
  | 0x1007 => "Ratchet check failed"
  | 0x1008 => "Device internal error"
  | 0x1009 => "Feature disabled"
  | 0x100A => "Feature disabled by policy"
  | 0x100B => "Firmware version mismatch"
  | 0x100C => "Invalid serial number"
  | 0x100D => "Invalid PSID"
  | 0x100E => "Token already installed"
  | 0x100F => "Token not installed"
  | 0x1010 => "Token hash verification failed"
  | _ => "Unknown error code: " +:+ format_hex_lower 4 code
  end%string.

(** ** The grammar of containers *)

Record Container := mkContainer {
  c_versionMajor : Z;
  c_versionMinor : Z;
  c_reserved : buffer;
  c_items : list (Z * buffer);
}.

Definition serialize_item (i : Z * buffer) : buffer :=
  le_encode 2 i.1 ++ le_encode 2 (Z.of_nat (length i.2)) ++ i.2.

Definition serialize_items (items : list (Z * buffer)) : buffer :=
  concat (map serialize_item items).

Definition serialize (c : Container) : buffer :=
  let body := serialize_items (c_items c) in
  TLV_IDENTIFIER ++ le_encode 2 (c_versionMajor c) ++ le_encode 2 (c_versionMinor c) ++
  le_encode 4 (Z.of_nat (length body)) ++ c_reserved c ++ body.

Definition item_ok (i : Z * buffer) : Prop :=
  word 16 i.1 ∧ word 16 (Z.of_nat (length i.2)) ∧ bytes_ok i.2.

Record container_ok (c : Container) : Prop := {
  ok_major : word 16 (c_versionMajor c);
  ok_minor : word 16 (c_versionMinor c);
  ok_reserved : length (c_reserved c) = 20%nat;
  ok_reserved_bytes : bytes_ok (c_reserved c);
  ok_items : Forall item_ok (c_items c);
  ok_distinct : NoDup (c_items c).*1;
  ok_nonempty : c_items c ≠ [];
  ok_size : word 32 (Z.of_nat (length (serialize_items (c_items c))));
}.

(** What a container is decoded to. *)
Definition item_of (i : Z * buffer) : Item :=
  mkItem (mkItemHeader (le_encode 2 i.1) (le_encode 2 (Z.of_nat (length i.2)))) i.2.

Definition items_of (items : list (Z * buffer)) (data : gmap Z Item) : gmap Z Item :=
  foldl (λ d i, <[i.1 := item_of i]> d) data items.

Definition header_of (c : Container) : StructureHeader :=
  mkStructureHeader TLV_IDENTIFIER
    (le_encode 2 (c_versionMajor c)) (le_encode 2 (c_versionMinor c))
    (le_encode 4 (Z.of_nat (length (serialize_items (c_items c))))) (c_reserved c).

Definition structure_of (c : Container) : Structure :=
  mkStructure (Some (header_of c)) (items_of (c_items c) ∅).

(** ** Proofs *)

(** The first [n] bytes of a buffer are the encoding of their value. *)
Lemma take_encode n l :
  bytes_ok l → (n ≤ length l)%nat → le_encode n (le_decode (take n l)) = take n l.
Proof.
  intros Hl Hn. rewrite <-(le_encode_decode (take n l)) at 2 by auto with bytes.
  by rewrite length_take_le.
Qed.

Lemma take_word n l : bytes_ok l → (n ≤ length l)%nat → word (8 * Z.of_nat n) (le_decode (take n l)).
Proof.
  intros Hl Hn. rewrite <-(length_take_le l n) at 1 by done.
  apply le_decode_word. auto with bytes.
Qed.

Lemma getType_item_of i : word 16 i.1 → getType (item_of i) = i.1.
Proof. intros. by apply le_decode_encode. Qed.

Lemma getValueSize_item_of i :
  word 16 (Z.of_nat (length i.2)) → getValueSize (item_of i) = Z.of_nat (length i.2).
Proof. intros. by apply le_decode_encode. Qed.

Lemma getTotalSize_item_of i :
  item_ok i → getTotalSize (item_of i) = length (serialize_item i).
Proof.
  intros (_ & Hv & _). unfold getTotalSize, serialize_item.
  rewrite getValueSize_item_of, Nat2Z.id by done. rewrite !length_app, !le_encode_length.
  unfold item_header_size. lia.
Qed.

Lemma serialize_item_ok i : item_ok i → bytes_ok (serialize_item i).
Proof. intros (_ & _ & Hv). unfold serialize_item. rewrite !bytes_ok_app. auto with bytes. Qed.

(** An item is read from what starts with its serialisation, and from nothing
    else. *)
Lemma Item_make_serialize i rest :
  item_ok i → Item_make (serialize_item i ++ rest) = Ok (item_of i).
Proof.
  intros (Ht & Hn & Hv). unfold Item_make, serialize_item.
  rewrite <-!app_assoc. rewrite !take_app_length', !drop_app_length'
    by (rewrite ?le_encode_length; done).
  rewrite take_app_length' by (rewrite le_encode_length; done).
  rewrite !length_app, !le_encode_length. unfold item_header_size.
  rewrite decide_False by lia. cbn [ih_size ih_type].
  rewrite le_decode_encode, Nat2Z.id by done.
  rewrite decide_False by lia.
  rewrite app_assoc, drop_app_length' by (rewrite length_app, !le_encode_length; done).
  by rewrite take_app_length.
Qed.

Lemma Item_make_sound input it :
  bytes_ok input → Item_make input = Ok it →
  ∃ i rest, item_ok i ∧ input = serialize_item i ++ rest ∧ it = item_of i.
Proof.
  intros Hb. unfold Item_make. case_decide as H4; [done|]. unfold item_header_size in *.
  cbn [ih_size]. case_decide as Hn; [done|]. intros [= <-].
  set (n := le_decode (take 2 (drop 2 input))) in *.
  assert (Hw : word 16 n).
  { apply (take_word 2); [auto with bytes|]. rewrite length_drop. lia. }
  assert (Hlen : length (take (Z.to_nat n) (drop 4 input)) = Z.to_nat n).
  { rewrite length_take, length_drop. lia. }
  exists (le_decode (take 2 input), take (Z.to_nat n) (drop 4 input)),
    (drop (Z.to_nat n) (drop 4 input)).
  assert (Hz : Z.of_nat (Z.to_nat n) = n) by (unfold word in Hw; lia).
  split_and!.
  - split_and!; cbn [fst snd].
    + apply (take_word 2); [done|lia].
    + by rewrite Hlen, Hz.
    + auto with bytes.
  - unfold serialize_item. cbn [fst snd]. rewrite Hlen, Hz. unfold n.
    rewrite !take_encode by (auto with bytes; rewrite ?length_drop; lia).
    rewrite <-!app_assoc, take_drop. change 4%nat with (2 + 2)%nat.
    by rewrite <-drop_drop, take_drop, take_drop.
  - unfold item_of. cbn [fst snd]. rewrite Hlen, Hz. unfold n.
    by rewrite !take_encode by (auto with bytes; rewrite ?length_drop; lia).
Qed.

(** A loop that succeeds stores the items its input serialises. *)
Lemma decode_items_sound rest data d :
  bytes_ok rest → decode_items rest data = (Ok (), d) →
  ∃ items, Forall item_ok items ∧ rest = serialize_items items ∧
    NoDup items.*1 ∧ (∀ t, t ∈ items.*1 → data !! t = None) ∧ d = items_of items data.
Proof.
  funelim (decode_items rest data); intros Hb Heq'; try discriminate Heq'.
  - injection Heq' as <-.
    exists []. split_and!; [constructor|done|constructor|set_solver|done].
  - match goal with
    | Hmk : Item_make _ = Ok _ |- _ =>
        apply Item_make_sound in Hmk as (i & rest' & Hi & Hrest & ->); [|done]
    end.
    assert (Hfree : data !! i.1 = None).
    { rewrite <-getType_item_of by apply Hi. by apply eq_None_not_Some. }
    rewrite getType_item_of in * by apply Hi.
    rewrite Hrest, getTotalSize_item_of, drop_app_length in * by done.
    apply bytes_ok_app in Hb as [_ Hb].
    match goal with
    | IH : ∀ d, bytes_ok rest' → _ |- _ =>
        destruct (IH d Hb Heq') as (items & Hok & -> & Hnd & Hfresh & ->)
    end.
    exists (i :: items). split_and!; [by constructor|done| | |done].
    + rewrite fmap_cons. constructor; [|done].
      intros Hin. specialize (Hfresh _ Hin). by simplify_map_eq.
    + intros t Ht. rewrite fmap_cons in Ht. apply elem_of_cons in Ht as [->|Ht]; [done|].
      specialize (Hfresh _ Ht). by apply lookup_insert_None in Hfresh as [].
Qed.

Lemma serialize_item_cons i : ∃ b l, serialize_item i = b :: l.
Proof. by eexists _, _. Qed.

Lemma decode_items_serialize items data :
  Forall item_ok items → NoDup items.*1 → (∀ t, t ∈ items.*1 → data !! t = None) →
  decode_items (serialize_items items) data = (Ok (), items_of items data).
Proof.
  intros Hok. revert data. induction Hok as [|i items Hi Hok IH]; intros data Hnd Hfresh.
  { by rewrite decode_items_equation_1. }
  rewrite fmap_cons in Hnd, Hfresh. apply NoDup_cons in Hnd as [Hni Hnd].
  assert (Hfree : data !! i.1 = None) by (apply Hfresh; left).
  destruct (serialize_item_cons i) as (b & l & Hbl).
  pose proof (Item_make_serialize i (serialize_items items) Hi) as Hmk.
  change (serialize_items (i :: items)) with (serialize_item i ++ serialize_items items).
  pose proof (getTotalSize_item_of i Hi) as Hsz. rewrite Hbl in Hmk, Hsz |- *.
  cbn [app]. rewrite decode_items_equation_2. cbn [app] in Hmk. rewrite Hmk.
  cbn [decode_items_unfold_clause_2].
  pose proof (getType_item_of i (proj1 Hi)) as Hty.
  destruct (decide _) as [Hs|Hs]; [exfalso; rewrite Hty, Hfree in Hs; by destruct Hs|].
  cbn [decode_items_unfold_clause_2_clause_2]. rewrite Hsz, Hty.
  rewrite (app_comm_cons l), drop_app_length. apply IH; [done|].
  intros t Ht. rewrite lookup_insert_ne by (intros <-; done). apply Hfresh. by right.
Qed.

(** ** Decoding is the inverse of serialisation *)

Lemma parse_header_serialize c :
  length (c_reserved c) = 20%nat →
  parse_header (serialize c) = header_of c ∧
  drop structure_header_size (serialize c) = serialize_items (c_items c) ∧
  length (serialize c) = (structure_header_size + length (serialize_items (c_items c)))%nat.
Proof.
  intros Hres. unfold parse_header, serialize, header_of. split_and!.
  - cbn -[Z.modulo Z.div]. f_equal. rewrite ?drop_0. by rewrite take_app_length'.
  - cbn -[Z.modulo Z.div]. rewrite ?drop_0. by rewrite drop_app_length'.
  - rewrite !length_app, !le_encode_length, Hres. cbn. lia.
Qed.

Lemma items_of_nonempty items data : items ≠ [] → items_of items data ≠ ∅.
Proof.
  unfold items_of. revert data. induction items as [|i items IH]; intros data Hne; [done|].
  cbn. destruct items as [|j items]; [apply insert_non_empty|by apply IH].
Qed.

Lemma Structure_make_serialize c :
  container_ok c → Structure_make (serialize c) = Ok (structure_of c).
Proof.
  intros [Hmaj Hmin Hres Hrb Hok Hnd Hne Hsz]. unfold Structure_make, decode.
  destruct (parse_header_serialize c Hres) as (Hph & Hdrop & Hlen).
  rewrite Hlen, Hph, Hdrop. rewrite decide_False by lia. cbn [sh_identifier sh_size header_of].
  rewrite decide_False by naive_solver.
  rewrite (le_decode_encode 4), decide_False by (done || lia).
  rewrite decode_items_serialize by (done || set_solver).
  by rewrite decide_False by (by apply items_of_nonempty).
Qed.

(** A buffer with a header is its fields and what follows them. *)
Lemma header_fields (input : buffer) :
  (structure_header_size ≤ length input)%nat →
  input = take 4 input ++ take 2 (drop 4 input) ++ take 2 (drop 6 input) ++
          take 4 (drop 8 input) ++ take 20 (drop 12 input) ++ drop 32 input.
Proof.
  intros Hl. change 32%nat with (12 + 20)%nat. rewrite <-(drop_drop input 20 12), take_drop.
  change 12%nat with (8 + 4)%nat. rewrite <-(drop_drop input 4 8), take_drop.
  change 8%nat with (6 + 2)%nat. rewrite <-(drop_drop input 2 6), take_drop.
  change 6%nat with (4 + 2)%nat. rewrite <-(drop_drop input 2 4), take_drop.
  by rewrite take_drop.
Qed.

Lemma Structure_make_sound input s :
  bytes_ok input → Structure_make input = Ok s →
  ∃ c, container_ok c ∧ input = serialize c ∧ s = structure_of c.
Proof.
  intros Hb. unfold Structure_make, decode. case_decide as Hlen; [done|].
  unfold structure_header_size in *. cbn [parse_header sh_identifier sh_size].
  case_decide as Hid; [done|].
  case_decide as Hsize; [done|].
  cbn [st_data st_header empty_structure].
  destruct (decode_items _ _) as [[[]|] d] eqn:Hitems; [|done].
  case_decide as Hne; [done|]. intros [= <-].
  apply decode_items_sound in Hitems as (items & Hok & Hbody & Hnd & _ & ->); [|auto with bytes].
  assert (Hlb : le_decode (take 4 (drop 8 input)) = Z.of_nat (length (serialize_items items))).
  { rewrite <-Hbody, length_drop. lia. }
  exists (mkContainer (le_decode (take 2 (drop 4 input))) (le_decode (take 2 (drop 6 input)))
           (take 20 (drop 12 input)) items).
  assert (Hw : ∀ n k, (n + k ≤ 32)%nat →
            word (8 * Z.of_nat n) (le_decode (take n (drop k input)))).
  { intros n k Hnk. apply take_word; auto with bytes. rewrite length_drop. lia. }
  assert (He : ∀ n k, (n + k ≤ 32)%nat →
            le_encode n (le_decode (take n (drop k input))) = take n (drop k input)).
  { intros n k Hnk. apply take_encode; auto with bytes. rewrite length_drop. lia. }
  split_and!.
  - constructor; cbn [c_versionMajor c_versionMinor c_reserved c_items];
      [apply (Hw 2%nat); lia|apply (Hw 2%nat); lia| |auto with bytes|done|done| |].
    + rewrite length_take, length_drop. lia.
    + intros ->. done.
    + rewrite <-Hlb. apply (Hw 4%nat). lia.
  - unfold serialize. cbn [c_versionMajor c_versionMinor c_reserved c_items].
    rewrite <-Hlb, !He, <-Hbody, <-Hid by lia.
    apply header_fields. unfold structure_header_size. lia.
  - unfold structure_of, header_of. cbn [c_versionMajor c_versionMinor c_reserved c_items].
    by rewrite <-Hlb, !He, <-Hid by lia.
Qed.

(** C30: A buffer decodes to a structure exactly when it is the serialisation of a
    well-formed container, and the structure is the one of that container. *)
Theorem decode_exact input s (Hb : bytes_ok input) :
  Structure_make input = Ok s ↔ ∃ c, container_ok c ∧ input = serialize c ∧ s = structure_of c.
Proof.
  split; [by apply Structure_make_sound|].
  intros (c & Hc & -> & ->). by apply Structure_make_serialize.
Qed.

(** ** What a decoded structure answers *)

Lemma items_of_app items i data :
  items_of (items ++ [i]) data = <[i.1 := item_of i]> (items_of items data).
Proof. unfold items_of. by rewrite foldl_app. Qed.

Lemma items_of_lookup items t :
  NoDup items.*1 →
  items_of items ∅ !! t = item_of ∘ pair t <$> (list_to_map items : gmap Z buffer) !! t.
Proof.
  induction items as [|[t' v] items IH] using rev_ind; intros Hnd.
  { cbn. by rewrite !lookup_empty. }
  rewrite fmap_app in Hnd. apply NoDup_app in Hnd as (Hnd & Hni & _).
  rewrite items_of_app. cbn [fst].
  assert (Hfresh : (list_to_map items : gmap Z buffer) !! t' = None).
  { apply not_elem_of_list_to_map. intros Hin. apply (Hni _ Hin). cbn. by left. }
  destruct (decide (t' = t)) as [->|Hne].
  - rewrite lookup_insert_eq, list_to_map_app, lookup_union_r by done.
    cbn. by rewrite lookup_insert_eq.
  - rewrite lookup_insert_ne, IH, list_to_map_app by done. f_equal.
    rewrite lookup_union_l; [done|]. cbn. by rewrite lookup_insert_ne.
Qed.

Lemma items_of_dom items : NoDup items.*1 → (map_to_list (items_of items ∅)).*1 ≡ₚ items.*1.
Proof.
  intros Hnd. apply NoDup_Permutation; [apply NoDup_fst_map_to_list|done|].
  intros t. split.
  - intros ([t' it] & -> & Hin)%list_elem_of_fmap. apply elem_of_map_to_list in Hin. cbn.
    rewrite items_of_lookup in Hin by done. apply fmap_Some in Hin as (v & Hv & _).
    apply elem_of_list_to_map_2 in Hv. by apply (list_elem_of_fmap_2 fst) in Hv.
  - intros ([t' v] & -> & Hin)%list_elem_of_fmap. apply list_elem_of_fmap.
    exists (t', item_of (t', v)). split; [done|]. apply elem_of_map_to_list. cbn.
    rewrite items_of_lookup by done. apply fmap_Some. exists v. split; [|done].
    by apply elem_of_list_to_map_1.
Qed.

Lemma StronglySorted_lt l : StronglySorted Z.le l → NoDup l → StronglySorted Z.lt l.
Proof.
  induction 1 as [|x l Hl IH Hx]; intros Hnd; [constructor|].
  apply NoDup_cons in Hnd as [Hni Hnd]. constructor; [by apply IH|].
  rewrite Forall_forall in Hx |- *. intros y Hy. specialize (Hx _ Hy).
  assert (x ≠ y) by (by intros ->). lia.
Qed.

(** A decoded container answers with its versions, its types in increasing
    order, each value under its type, and ItemNotFound for any other type. *)
Theorem decoded_values c s (Hc : container_ok c) (Hs : Structure_make (serialize c) = Ok s) :
  getVersion s = Some (c_versionMajor c, c_versionMinor c) ∧
  getTypes s ≡ₚ (c_items c).*1 ∧ StronglySorted Z.lt (getTypes s) ∧
  (∀ t v, (t, v) ∈ c_items c →
     ∃ it, get t s = Ok it ∧ getType it = t ∧ getRawValue it = v ∧
           getValueSize it = Z.of_nat (length v)) ∧
  (∀ t, t ∉ (c_items c).*1 → get t s = Throw (ItemNotFound t)).
Proof.
  rewrite (Structure_make_serialize c Hc) in Hs. injection Hs as <-.
  destruct Hc as [Hmaj Hmin Hres Hrb Hok Hnd Hne Hsz].
  assert (Hperm : getTypes (structure_of c) ≡ₚ (c_items c).*1).
  { unfold getTypes. rewrite merge_sort_Permutation. by apply items_of_dom. }
  split_and!.
  - unfold getVersion. cbn [st_header structure_of header_of mbind option_bind
      sh_versionMajor sh_versionMinor]. by rewrite !le_decode_encode.
  - done.
  - apply StronglySorted_lt; [apply StronglySorted_merge_sort; apply _|].
    by rewrite Hperm.
  - intros t v Hin. rewrite Forall_forall in Hok. destruct (Hok _ Hin) as (Ht & Hv & _).
    exists (item_of (t, v)). split_and!; [|by apply getType_item_of|done|].
    + unfold get. cbn [st_data structure_of]. rewrite items_of_lookup by done.
      by rewrite (elem_of_list_to_map_1 _ _ v).
    + by apply (getValueSize_item_of (t, v)).
  - intros t Hin. unfold get. cbn [st_data structure_of].
    rewrite items_of_lookup by done. by rewrite not_elem_of_list_to_map_1.
Qed.

(** A vector of k-byte integers is read back from its little-endian encoding,
    an integer likewise; a vector is refused exactly when its size is no
    multiple of the element size, an integer exactly when its size differs. *)
Theorem typed_values k it (Hk : (0 < k)%nat) :
  (∀ vs, Forall (word (8 * Z.of_nat k)) vs → getRawValue it = concat (map (le_encode k) vs) →
     getValue_vector k it = Ok vs) ∧
  (∀ v, word (8 * Z.of_nat k) v → getRawValue it = le_encode k v →
     getValue_unsigned k it = Ok v) ∧
  (is_ok (getValue_vector k it) = false ↔ (length (getRawValue it) `mod` k ≠ 0)%nat) ∧
  (is_ok (getValue_unsigned k it) = false ↔ length (getRawValue it) ≠ k).
Proof.
  unfold getRawValue, getValue_vector, getValue_unsigned. split_and!.
  - intros vs Hvs Heq. rewrite Heq.
    assert (Hdec : map le_decode (map (le_encode k) vs) = vs).
    { rewrite map_map. clear Heq. induction Hvs as [|v vs Hv Hvs IH]; [done|].
      cbn. by rewrite le_decode_encode, IH. }
    assert (Hlen : Forall (λ l : buffer, length l = k) (map (le_encode k) vs)).
    { apply Forall_fmap, Forall_true. intros v. apply le_encode_length. }
    assert (Hmul : length (concat (map (le_encode k) vs)) = (length vs * k)%nat).
    { clear -vs. induction vs as [|v vs IH]; [done|].
      cbn. rewrite length_app, le_encode_length, IH. lia. }
    case_decide as H1.
    + subst k. f_equal. rewrite <-Hdec at 2. clear. induction vs as [|v vs IH]; [done|].
      cbn in *. rewrite IH at 1. f_equal. lia.
    + rewrite Hmul, Nat.Div0.mod_mul, decide_False by naive_solver.
      by rewrite chunks_concat, Hdec.
  - intros v Hv ->. rewrite le_encode_length, decide_False by naive_solver.
    by rewrite le_decode_encode.
  - case_decide as H1; [subst k; rewrite Nat.mod_1_r; naive_solver|].
    case_decide; naive_solver.
  - case_decide; naive_solver.
Qed.

(** Decoding into a structure that already holds the container keeps the old
    items: it is refused for its first type. *)
Theorem redecode_fails input s (Hb : bytes_ok input) (Hs : Structure_make input = Ok s) :
  ∃ t, decode input s = (Throw (InvalidTlvData (DuplicateType t)), s).
Proof.
  apply Structure_make_sound in Hs as (c & Hc & -> & ->); [|done].
  destruct Hc as [Hmaj Hmin Hres Hrb Hok Hnd Hne Hsz].
  destruct (parse_header_serialize c Hres) as (Hph & Hdrop & Hlen).
  unfold decode. rewrite Hlen, Hph, Hdrop, decide_False by lia.
  cbn [sh_identifier sh_size header_of]. rewrite decide_False by naive_solver.
  rewrite (le_decode_encode 4), decide_False by (done || lia).
  destruct (c_items c) as [|i items] eqn:Hitems; [done|].
  apply Forall_cons in Hok as [Hi Hok].
  exists i.1. destruct (serialize_item_cons i) as (b & l & Hbl).
  pose proof (Item_make_serialize i (serialize_items items) Hi) as Hmk.
  change (serialize_items (i :: items)) with (serialize_item i ++ serialize_items items).
  rewrite Hbl in Hmk |- *. cbn [app] in *. rewrite decode_items_equation_2, Hmk.
  cbn [decode_items_unfold_clause_2].
  pose proof (getType_item_of i (proj1 Hi)) as Hty.
  destruct (decide _) as [Hs|Hs].
  - cbn [decode_items_unfold_clause_2_clause_2]. rewrite Hty. unfold structure_of.
    by rewrite Hitems.
  - exfalso. apply Hs. rewrite Hty. unfold structure_of. cbn [st_data].
    rewrite items_of_lookup, Hitems by (by rewrite Hitems). destruct i as [t v]. cbn.
    rewrite lookup_insert_eq. by eexists.
Qed.

(** A container with a serial number and another item. *)
Definition example_container : Container :=
  mkContainer 1 0 (replicate 20 0) [(0x0003, [1; 2; 3]); (0x0010, [])].

Lemma example_container_ok : container_ok example_container.
Proof.
  split; try (vm_compute; done).
  - apply (bool_decide_unpack _). vm_compute. exact I.
  - apply (bool_decide_unpack _). vm_compute. exact I.
  - apply (bool_decide_unpack _). vm_compute. exact I.
Qed.

Lemma decode_exact_witness :
  Structure_make (serialize example_container) = Ok (structure_of example_container).
Proof.
  apply (decode_exact (serialize example_container) (structure_of example_container)).
  - apply (bool_decide_unpack _). vm_compute. exact I.
  - exists example_container. split_and!; [apply example_container_ok|reflexivity|reflexivity].
Defined.
