(* ===== verification/Tokens.v ===== *)
(** * Debug token packages

    The parsers of src/debug_token/token_utility.hpp and the file reader
    [updateTokenMap] of src/debug_token/update_debug_token.cpp: a package is a
    header and either TLV records or legacy tokens. An input stream is its
    data, a position and the failure flag, with the rules of std::ifstream: a
    read past the end fails the stream, and a failed stream neither seeks nor
    reads. Header fields are read in host order, little-endian on the BMC. *)

From stdpp Require Import list strings sorting pretty gmap.
From S2P Require Import Prelude Bytes Tlv.

(** ** Data *)

(** [debug_token/token_utility.hpp:52-60 DebugTokenHeader] *)
Record DebugTokenHeader := mkDebugTokenHeader {
  dh_version : Z;
  dh_type : Z;
  dh_numberOfRecords : Z;
  dh_offsetToListOfStructs : Z;
  dh_fileSize : Z;
}.

(** [debug_token/token_utility.hpp:62-72 TokenHeader] *)
Record TokenHeader := mkTokenHeader {
  th_identifier : buffer;
  th_versionMinor : Z;
  th_versionMajor : Z;
  th_structSize : Z;
  th_tokenAttributes : Z;
  th_tokenType : Z;
  th_ecFWVersion : Z;
  th_nonce : buffer;
}.

Definition sizeof_DebugTokenHeader : nat := 16.
Definition sizeof_TokenHeader : nat := 36.

(** [debug_token/token_utility.hpp:38-46 FileTypeDebugToken] with the sizes of
    serial numbers and the identifier MCDT. *)
Definition FileTypeDebugToken : Z := 2.
Definition tokenSerialNumberSizeDefault : nat := 8.
Definition tokenSerialNumberSizeMCU : nat := 16.
Definition tokenIdentifierMCU : buffer := [0x4D; 0x43; 0x44; 0x54].

(** [debug_token/token_utility.hpp:74-77 TokenMap] The entries in the order of
    their insertion. *)
Definition TokenMap : Type := list (string * buffer).

(** What ends the parse other than by a status: a range taken past the end of
    the file, and a length that no vector can have. *)
Inductive TokenFault := RangePastEnd | LengthError.

(** ** Input streams *)

Record ifstream := mkIfstream { is_data : buffer; is_pos : nat; is_fail : bool }.

Definition ifstream_open (data : buffer) : ifstream := mkIfstream data 0 false.

Definition seekg (p : nat) (s : ifstream) : ifstream :=
  if is_fail s then s else mkIfstream (is_data s) p false.

(** The bytes read, as many as [gcount]. *)
Definition read (n : nat) (s : ifstream) : buffer * ifstream :=
  if is_fail s then ([], s) else
  let got := take n (drop (is_pos s) (is_data s)) in
  (got, mkIfstream (is_data s) (is_pos s + length got)
          (bool_decide (length got < n)%nat)).

(** Reading into a buffer of [n] zeros. *)
Definition pad (n : nat) (got : buffer) : buffer := got ++ replicate (n - length got) 0.

(** [tellg], -1 on a failed stream. *)
Definition tellg (s : ifstream) : Z := if is_fail s then -1 else Z.of_nat (is_pos s).

(** The bytes of a header as its fields. *)
Definition as_DebugTokenHeader (d : buffer) : DebugTokenHeader :=
  mkDebugTokenHeader (le_decode (take 1 d)) (le_decode (take 1 (drop 1 d)))
    (le_decode (take 2 (drop 2 d))) (le_decode (take 2 (drop 4 d)))
    (le_decode (take 4 (drop 6 d))).

Definition as_TokenHeader (d : buffer) : TokenHeader :=
  mkTokenHeader (take 4 d) (le_decode (take 2 (drop 4 d))) (le_decode (take 2 (drop 6 d)))
    (le_decode (take 2 (drop 8 d))) (le_decode (take 2 (drop 10 d)))
    (le_decode (take 4 (drop 12 d))) (le_decode (take 4 (drop 16 d)))
    (take 16 (drop 20 d)).

(** ** Parsing *)

(** [debug_token/token_utility.hpp:89-103 TokenUtility::getDebugTokenHeader] *)
Definition getDebugTokenHeader (pkg : ifstream) : option DebugTokenHeader * ifstream :=
  let '(got, pkg) := read sizeof_DebugTokenHeader (seekg 0 pkg) in
  let headerInfo := as_DebugTokenHeader (pad sizeof_DebugTokenHeader got) in
  (if dh_type headerInfo =? FileTypeDebugToken then Some headerInfo else None, pkg).

(** [debug_token/token_utility.hpp:114-167 TokenUtility::getNextDebugToken] The
    token's header, its bytes and its serial number. *)
Definition getNextDebugToken (pkg : ifstream) (tokenOffset : Z)
    : option (TokenHeader * buffer * buffer) * ifstream :=
  let '(got, pkg) := read sizeof_TokenHeader (seekg (Z.to_nat tokenOffset) pkg) in
  if decide (length got ≠ sizeof_TokenHeader) then (None, pkg) else
  let header := as_TokenHeader got in
  let snSize := if decide (th_identifier header = tokenIdentifierMCU)
                then tokenSerialNumberSizeMCU else tokenSerialNumberSizeDefault in
  let '(sn, pkg) := read snSize pkg in
  let serialNumber := pad snSize sn in
  let tokenSize := th_structSize header in
  if decide (tokenSize < Z.of_nat sizeof_TokenHeader) then (None, pkg) else
  let '(tok, pkg) := read (Z.to_nat tokenSize) (seekg (Z.to_nat tokenOffset) pkg) in
  if decide (Z.of_nat (length tok) ≠ tokenSize) then (None, pkg) else
  (Some (as_TokenHeader tok, tok, serialNumber), pkg).

(** [debug_token/token_utility.hpp:239-250 TokenUtility::formatSerialNumber] *)
Definition formatSerialNumber (serialBytes : buffer) : string :=
  foldl (λ s b, (s +:+ format_hex 2 b)%string) "0x"%string serialBytes.

(** [debug_token/token_utility.hpp:259-273 TokenUtility::extractSerialNumberFromTlv] *)
Definition extractSerialNumberFromTlv (tlvStructure : Structure) : string :=
  match it ← get 0x0003 tlvStructure; getValue_vector 1 it with
  | Ok serialBytes => formatSerialNumber serialBytes
  | Throw _ => ""
  end.

(** What parsing a record came to: the status it returned, or the exception of
    the decoder, which leaves the record size set. *)
Inductive RecordResult :=
| Parsed (status : Z) (tokens : TokenMap) (recordSize : nat)
| Raised (e : TlvError) (recordSize : nat).

(** [debug_token/token_utility.hpp:285-328 TokenUtility::parseSingleTlvRecord] *)
Definition parseSingleTlvRecord (tokenData : buffer) (offset : nat) (tokens : TokenMap)
    : RecordResult :=
  if decide (length tokenData < offset + structure_header_size)%nat then
    Parsed (-1) tokens 0 else
  let payloadSize := le_decode (take 4 (drop 8 (drop offset tokenData))) in
  let recordSize := (structure_header_size + Z.to_nat payloadSize)%nat in
  if decide (length tokenData < offset + recordSize)%nat then
    Parsed (-1) tokens recordSize else
  let singleTlvData := take recordSize (drop offset tokenData) in
  match Structure_make singleTlvData with
  | Throw e => Raised e recordSize
  | Ok tlvStructure =>
      let serialNumber := extractSerialNumberFromTlv tlvStructure in
      if decide (serialNumber = "") then Parsed 0 tokens recordSize
      else Parsed 0 (tokens ++ [(serialNumber, singleTlvData)]) recordSize
  end.

(** [debug_token/token_utility.hpp:350-398 TokenUtility::parseTlvTokens] The
    loop over the records: [n] are left. A record that raised is skipped by
    the size it announced. *)
Fixpoint tlv_records (n : nat) (tokenData : buffer) (offset : nat) (tokens : TokenMap)
    (status : Z) : Z * TokenMap :=
  match n with
  | O => (status, tokens)
  | S n =>
      if decide (length tokenData ≤ offset)%nat then (-1, tokens) else
      match parseSingleTlvRecord tokenData offset tokens with
      | Parsed result tokens recordSize =>
          if decide (result ≠ 0) then (-1, tokens)
          else tlv_records n tokenData (offset + recordSize) tokens status
      | Raised _ recordSize =>
          if decide (0 < recordSize)%nat then
            tlv_records n tokenData (offset + recordSize) tokens (-1)
          else if decide (offset + structure_header_size ≤ length tokenData)%nat then
            let payloadSize := le_decode (take 4 (drop 8 (drop offset tokenData))) in
            tlv_records n tokenData
              (offset + (structure_header_size + Z.to_nat payloadSize)) tokens (-1)
          else (-1, tokens)
      end
  end.

(** [debug_token/token_utility.hpp:341-411 TokenUtility::parseTlvTokens] *)
Definition parseTlvTokens (fullFile : buffer) (headerInfo : DebugTokenHeader)
    (tokens : TokenMap) : res TokenFault (Z * TokenMap) :=
  let tlvOffset := Z.to_nat (dh_offsetToListOfStructs headerInfo) in
  if decide (length fullFile < tlvOffset)%nat then Throw RangePastEnd else
  let tokenData := drop tlvOffset fullFile in
  let '(status, tokens) :=
    tlv_records (Z.to_nat (dh_numberOfRecords headerInfo)) tokenData 0 tokens 0 in
  if decide (tokens = []) then Ok (-1, tokens) else Ok (status, tokens).

(** [debug_token/update_debug_token.cpp:474-511 UpdateDebugToken::updateTokenMap]
    The loop over legacy tokens. *)
Fixpoint legacy_records (n : nat) (pkg : ifstream) (tokenOffset : Z) (tokens : TokenMap)
    : Z * TokenMap :=
  match n with
  | O => (0, tokens)
  | S n =>
      match getNextDebugToken pkg tokenOffset with
      | (None, _) => (-1, tokens)
      | (Some (token, tokenData, serialNumber), pkg) =>
          if decide (th_structSize token ≠ Z.of_nat (length tokenData)) then (-1, tokens)
          else legacy_records n pkg (u32 (tokenOffset + th_structSize token))
                 (tokens ++ [(formatSerialNumber serialNumber, tokenData)])
      end
  end.

(** [debug_token/update_debug_token.cpp:432-513 UpdateDebugToken::updateTokenMap]
    [file] is the content of the file, if it exists and opens. *)
Definition updateTokenMap (file : option buffer) (tokens : TokenMap)
    : res TokenFault (Z * TokenMap) :=
  match file with
  | None => Ok (-1, tokens)
  | Some data =>
      let '(headerInfo, pkg) := getDebugTokenHeader (ifstream_open data) in
      match headerInfo with
      | None => Ok (-1, tokens)
      | Some headerInfo =>
          if decide (dh_version headerInfo = 2) then
            let pkg := seekg (length data) pkg in
            let fileSize := tellg pkg in
            if decide (fileSize < 0) then Throw LengthError else
            let '(fullFile, _) := read (Z.to_nat fileSize) (seekg 0 pkg) in
            parseTlvTokens fullFile headerInfo tokens
          else
            Ok (legacy_records (Z.to_nat (dh_numberOfRecords headerInfo)) pkg
                  (dh_offsetToListOfStructs headerInfo) tokens)
      end
  end.

(** ** TLV packages *)

(** A record as the parser frames it: a header whose size field announces what
    follows; nothing is asked of the rest. *)
Definition frame_ok (f : buffer) : Prop :=
  (structure_header_size ≤ length f)%nat ∧
  le_decode (take 4 (drop 8 f)) = Z.of_nat (length f) - Z.of_nat structure_header_size.

Definition decodes (f : buffer) : bool := is_ok (Structure_make f).

(** The entry a record adds: none if it does not decode or has no serial number. *)
Definition token_of (f : buffer) : option (string * buffer) :=
  match Structure_make f with
  | Ok s => let sn := extractSerialNumberFromTlv s in
            if decide (sn = "") then None else Some (sn, f)
  | Throw _ => None
  end.

Lemma parse_frame pre f rest tokens :
  frame_ok f →
  parseSingleTlvRecord (pre ++ f ++ rest) (length pre) tokens =
    match Structure_make f with
    | Throw e => Raised e (length f)
    | Ok _ => Parsed 0 (tokens ++ option_list (token_of f)) (length f)
    end.
Proof.
  unfold frame_ok, structure_header_size. intros [Hlen Hsize].
  assert (Hsz : take 4 (drop 8 (f ++ rest)) = take 4 (drop 8 f)).
  { rewrite drop_app_le, take_app_le; [done|rewrite length_drop; lia|lia]. }
  unfold parseSingleTlvRecord, token_of, structure_header_size.
  rewrite drop_app_length, Hsz, Hsize, !length_app, decide_False by lia.
  replace (32 + Z.to_nat _)%nat with (length f) by lia.
  rewrite decide_False, take_app_length by lia.
  destruct (Structure_make f) as [s|e]; [|done].
  case_decide; cbn; by rewrite ?app_nil_r.
Qed.

Lemma frame_nonempty f : frame_ok f → (0 < length f)%nat.
Proof. unfold frame_ok, structure_header_size. lia. Qed.

(** Every record is framed by the size it announces, so one that does not
    decode costs only itself. *)
Lemma tlv_records_frames fs pre rest n tokens status :
  Forall frame_ok fs →
  tlv_records (length fs + n) (pre ++ concat fs ++ rest) (length pre) tokens status =
  tlv_records n (pre ++ concat fs ++ rest) (length pre + length (concat fs))
    (tokens ++ omap token_of fs) (if forallb decodes fs then status else -1).
Proof.
  intros Hfs. revert pre tokens status.
  induction Hfs as [|f fs Hf Hfs IH]; intros pre tokens status.
  { cbn. by rewrite app_nil_r, Nat.add_0_r. }
  pose proof (frame_nonempty f Hf).
  cbn [length Nat.add tlv_records concat forallb]. rewrite <-app_assoc.
  case_decide as Hd; [rewrite !length_app in Hd; lia|]. clear Hd.
  rewrite (parse_frame _ _ _ _ Hf).
  specialize (IH (pre ++ f)). rewrite <-!app_assoc, length_app in IH.
  unfold decodes at 1. cbn [omap list_omap]. unfold token_of at 1 2.
  destruct (Structure_make f) as [s|e]; cbn [is_ok andb].
  - rewrite decide_False by naive_solver. rewrite IH, length_app, Nat.add_assoc. f_equal.
    case_decide; cbn; by rewrite <-?app_assoc.
  - rewrite decide_True, IH, length_app by done. rewrite Nat.add_assoc. f_equal.
    by destruct (forallb _ _).
Qed.

(** The last record is cut: shorter than a header, or than it announces. *)
Definition cut_record (c : buffer) : Prop :=
  (length c < structure_header_size)%nat ∨
  Z.of_nat (length c) <
    Z.of_nat structure_header_size + le_decode (take 4 (drop 8 c)).

Lemma tlv_records_cut c pre n tokens status :
  bytes_ok c → cut_record c → tlv_records (S n) (pre ++ c) (length pre) tokens status = (-1, tokens).
Proof.
  intros Hb Hc. cbn [tlv_records]. case_decide; [done|].
  unfold parseSingleTlvRecord, cut_record, structure_header_size in *.
  rewrite drop_app_length, length_app. case_decide; [done|].
  rewrite decide_True; [done|]. destruct Hc; [lia|].
  assert (0 ≤ le_decode (take 4 (drop 8 c))); [|lia].
  apply (le_decode_word (take 4 (drop 8 c))). auto with bytes.
Qed.

(** The header of a package with its version, record count and offset. *)
Record package_header (hdr : buffer) (version : Z) (records offset : nat) : Prop := {
  ph_length : length hdr = sizeof_DebugTokenHeader;
  ph_version : dh_version (as_DebugTokenHeader hdr) = version;
  ph_type : dh_type (as_DebugTokenHeader hdr) = FileTypeDebugToken;
  ph_records : dh_numberOfRecords (as_DebugTokenHeader hdr) = Z.of_nat records;
  ph_offset : dh_offsetToListOfStructs (as_DebugTokenHeader hdr) = Z.of_nat offset;
}.

Lemma read_all data : read (length data) (ifstream_open data) = (data, mkIfstream data (length data) false).
Proof.
  unfold read, ifstream_open. cbn. rewrite drop_0, firstn_all.
  by rewrite bool_decide_eq_false_2 by lia.
Qed.

Lemma getDebugTokenHeader_package hdr body version records offset :
  package_header hdr version records offset →
  getDebugTokenHeader (ifstream_open (hdr ++ body)) =
    (Some (as_DebugTokenHeader hdr), mkIfstream (hdr ++ body) sizeof_DebugTokenHeader false).
Proof.
  intros [Hlen _ Hty _ _]. unfold getDebugTokenHeader, read, ifstream_open, seekg, pad.
  cbn [is_fail is_data is_pos]. rewrite drop_0, take_app_length' by done.
  rewrite Hlen, Nat.sub_diag. cbn [replicate]. rewrite app_nil_r, Hty.
  by rewrite bool_decide_eq_false_2 by lia.
Qed.

Lemma updateTokenMap_tlv hdr gap body records tokens :
  package_header hdr 2 records (length (hdr ++ gap)) →
  updateTokenMap (Some (hdr ++ gap ++ body)) tokens =
    let '(status, tokens) := tlv_records records body 0 tokens 0 in
    Ok (if decide (tokens = []) then -1 else status, tokens).
Proof.
  intros Hph. unfold updateTokenMap.
  rewrite (getDebugTokenHeader_package _ _ _ _ _ Hph). destruct Hph as [Hlen Hv Hty Hr Ho].
  rewrite Hv, decide_True by done. unfold seekg, tellg. cbn [is_fail is_data is_pos].
  rewrite decide_False, Nat2Z.id by lia.
  change (mkIfstream (hdr ++ gap ++ body) 0 false) with (ifstream_open (hdr ++ gap ++ body)).
  rewrite read_all. unfold parseTlvTokens. rewrite Ho, Hr, !Nat2Z.id.
  rewrite decide_False by (rewrite !length_app; lia).
  rewrite app_assoc, drop_app_length. destruct (tlv_records _ _ _ _ _) as [st tk].
  by case_decide.
Qed.

Lemma tlv_package_parsed_aux hdr gap fs rest
    (Hfs : Forall frame_ok fs)
    (Hph : package_header hdr 2 (length fs) (length (hdr ++ gap))) :
  updateTokenMap (Some (hdr ++ gap ++ concat fs ++ rest)) [] =
    Ok (if forallb decodes fs && negb (bool_decide (omap token_of fs = [])) then 0 else -1,
        omap token_of fs).
Proof.
  rewrite (updateTokenMap_tlv _ _ _ _ _ Hph).
  pose proof (tlv_records_frames fs [] rest 0 [] 0 Hfs) as Hrun. cbn [app length] in Hrun.
  rewrite Nat.add_0_r in Hrun. rewrite Hrun. cbn [tlv_records].
  case_decide as Hnil.
  - rewrite bool_decide_eq_true_2 by done. by rewrite andb_false_r.
  - rewrite bool_decide_eq_false_2 by done. by rewrite andb_true_r.
Qed.

(** A package of records whose sizes are right: the tokens are those of the
    records that decode, in order, and the status is 0 exactly when every
    record decodes and one token is found. *)
Theorem tlv_package_parsed hdr gap fs rest
    (Hfs : Forall frame_ok fs)
    (Hph : package_header hdr 2 (length fs) (length (hdr ++ gap))) :
  updateTokenMap (Some (hdr ++ gap ++ concat fs ++ rest)) [] =
    Ok (if forallb decodes fs && negb (bool_decide (omap token_of fs = [])) then 0 else -1,
        omap token_of fs).
Proof. by apply tlv_package_parsed_aux. Qed.

(** A package that ends inside a record fails, and keeps the tokens before it. *)
Theorem tlv_package_cut hdr gap fs c n
    (Hfs : Forall frame_ok fs) (Hb : bytes_ok c) (Hc : cut_record c)
    (Hph : package_header hdr 2 (length fs + S n) (length (hdr ++ gap))) :
  updateTokenMap (Some (hdr ++ gap ++ concat fs ++ c)) [] = Ok (-1, omap token_of fs).
Proof.
  rewrite (updateTokenMap_tlv _ _ _ _ _ Hph).
  pose proof (tlv_records_frames fs [] c (S n) [] 0 Hfs) as Hrun. cbn [app length] in Hrun.
  rewrite Hrun. rewrite Nat.add_0_l, tlv_records_cut by done.
  by case_decide.
Qed.

(** ** Packages of containers *)

Definition serial_of (c : Container) : option buffer :=
  (list_to_map (c_items c) : gmap Z buffer) !! 0x0003.

Lemma foldl_format_cons a s l : ∃ s',
  foldl (λ s b, (s +:+ format_hex 2 b)%string) (String a s) l = String a s'.
Proof.
  revert s. induction l as [|b l IH]; intros s; [by eexists|]. cbn. apply IH.
Qed.

Lemma formatSerialNumber_nonempty sn : formatSerialNumber sn ≠ ""%string.
Proof.
  unfold formatSerialNumber. edestruct foldl_format_cons as (s & Hs).
  by setoid_rewrite Hs.
Qed.

Lemma extract_serial c :
  container_ok c →
  extractSerialNumberFromTlv (structure_of c) =
    match serial_of c with Some sn => formatSerialNumber sn | None => "" end.
Proof.
  intros Hc. unfold extractSerialNumberFromTlv, get. cbn [st_data structure_of].
  rewrite items_of_lookup by apply Hc. unfold serial_of.
  destruct (list_to_map _ !! _) as [sn|]; done.
Qed.

Lemma serialize_frame c : container_ok c → frame_ok (serialize c).
Proof.
  intros Hc. destruct (parse_header_serialize c (ok_reserved c Hc)) as (Hph & _ & Hlen).
  split; [rewrite Hlen; lia|].
  change (take 4 (drop 8 (serialize c))) with (sh_size (parse_header (serialize c))).
  rewrite Hph. cbn [sh_size header_of]. rewrite le_decode_encode by apply Hc. lia.
Qed.

(** C31: A package of well-formed containers gives the token of every container
    with a serial number, under that number; it is a success unless none has. *)
Theorem tlv_containers_parsed hdr gap cs rest
    (Hcs : Forall container_ok cs)
    (Hph : package_header hdr 2 (length cs) (length (hdr ++ gap))) :
  let tokens := omap (λ c, (λ sn, (formatSerialNumber sn, serialize c)) <$> serial_of c) cs in
  updateTokenMap (Some (hdr ++ gap ++ concat (map serialize cs) ++ rest)) [] =
    Ok (if decide (tokens = []) then -1 else 0, tokens).
Proof.
  assert (Hfs : Forall frame_ok (map serialize cs)).
  { apply Forall_fmap. eapply Forall_impl; [done|]. apply serialize_frame. }
  assert (Htok : omap token_of (map serialize cs) =
    omap (λ c, (λ sn, (formatSerialNumber sn, serialize c)) <$> serial_of c) cs).
  { clear Hph Hfs. induction Hcs as [|c cs Hc Hcs IH]; [done|]. cbn [map omap list_omap].
    unfold token_of at 1. rewrite Structure_make_serialize, extract_serial by done.
    destruct (serial_of c) as [sn|]; cbn; rewrite IH; [|done].
    by rewrite decide_False by apply formatSerialNumber_nonempty. }
  assert (Hdec : forallb decodes (map serialize cs) = true).
  { clear -Hcs. induction Hcs as [|c cs Hc Hcs IH]; [done|]. cbn [map forallb].
    unfold decodes. by rewrite Structure_make_serialize. }
  cbn zeta. rewrite <-(length_map serialize) in Hph.
  rewrite (tlv_package_parsed_aux hdr gap _ rest Hfs Hph), Hdec, Htok. cbn [andb].
  by case_decide; case_bool_decide.
Qed.

(** ** Legacy packages *)

Definition serial_size (t : buffer) : nat :=
  if decide (take 4 t = tokenIdentifierMCU) then tokenSerialNumberSizeMCU
  else tokenSerialNumberSizeDefault.

(** A token that holds its header and its serial number, and whose size field
    is its length. *)
Definition legacy_ok (t : buffer) : Prop :=
  (sizeof_TokenHeader + serial_size t ≤ length t)%nat ∧
  th_structSize (as_TokenHeader t) = Z.of_nat (length t).

Definition legacy_entry (t : buffer) : string * buffer :=
  (formatSerialNumber (take (serial_size t) (drop sizeof_TokenHeader t)), t).

Lemma sub_take {A} i k n (l : list A) :
  (i + k ≤ n)%nat → take k (drop i (take n l)) = take k (drop i l).
Proof. intros. by rewrite !take_drop_commute, take_take, Nat.min_l by lia. Qed.

Lemma as_TokenHeader_take t n :
  (sizeof_TokenHeader ≤ n)%nat → as_TokenHeader (take n t) = as_TokenHeader t.
Proof.
  unfold sizeof_TokenHeader. intros. unfold as_TokenHeader.
  rewrite !sub_take by lia. by rewrite take_take, Nat.min_l by lia.
Qed.

(** Reading what lies at the position of the stream. *)
Lemma read_inside data p n f :
  (p + n ≤ length data)%nat →
  read n (seekg p (mkIfstream data f false)) =
    (take n (drop p data), mkIfstream data (p + n) false).
Proof.
  intros. unfold read, seekg. cbn [is_fail is_data is_pos].
  rewrite length_take, length_drop, Nat.min_l by lia.
  by rewrite bool_decide_eq_false_2 by lia.
Qed.

Lemma read_on data p n :
  (p + n ≤ length data)%nat →
  read n (mkIfstream data p false) = (take n (drop p data), mkIfstream data (p + n) false).
Proof. intros. by apply (read_inside data p n p). Qed.

Lemma getNextDebugToken_ok pre t rest p :
  legacy_ok t →
  getNextDebugToken (mkIfstream (pre ++ t ++ rest) p false) (Z.of_nat (length pre)) =
    (Some (as_TokenHeader t, t, take (serial_size t) (drop sizeof_TokenHeader t)),
     mkIfstream (pre ++ t ++ rest) (length pre + length t) false).
Proof.
  unfold legacy_ok, getNextDebugToken. intros [Hlen Hsize].
  assert (Hn : (sizeof_TokenHeader ≤ length t)%nat) by lia.
  rewrite Nat2Z.id, read_inside by (rewrite !length_app; lia).
  rewrite drop_app_length, take_app_le by done.
  rewrite length_take_le, decide_False by naive_solver.
  rewrite as_TokenHeader_take by done. cbn zeta. fold (serial_size t).
  change (th_identifier (as_TokenHeader t)) with (take 4 t). fold (serial_size t).
  rewrite read_on by (rewrite !length_app; lia).
  rewrite Hsize, decide_False, Nat2Z.id, read_inside
    by (rewrite ?length_app; unfold sizeof_TokenHeader in *; lia).
  rewrite drop_app_length, take_app_length, decide_False by naive_solver.
  rewrite <-drop_drop, drop_app_length, drop_app_le, take_app_le
    by (rewrite ?length_drop; lia).
  unfold pad. rewrite length_take_le, Nat.sub_diag by (rewrite length_drop; lia).
  by rewrite app_nil_r.
Qed.

Lemma legacy_records_ok ts pre rest p tokens :
  Forall legacy_ok ts → word 32 (Z.of_nat (length pre + length (concat ts))) →
  legacy_records (length ts) (mkIfstream (pre ++ concat ts ++ rest) p false)
    (Z.of_nat (length pre)) tokens = (0, tokens ++ map legacy_entry ts).
Proof.
  intros Hts. revert pre p tokens.
  induction Hts as [|t ts Ht Hts IH]; intros pre p tokens Hw; cbn [length legacy_records map concat].
  { by rewrite app_nil_r. }
  rewrite <-app_assoc, getNextDebugToken_ok by done. destruct Ht as [Hlen Hsize].
  rewrite Hsize, decide_False by naive_solver.
  cbn [concat] in Hw. rewrite length_app in Hw. unfold word in *.
  rewrite <-Nat2Z.inj_add. unfold u32. rewrite wrap_small by (unfold word; lia).
  rewrite <-length_app, app_assoc.
  rewrite IH by (rewrite length_app; lia). by rewrite <-app_assoc.
Qed.

(** The offset cannot wrap: records, sizes and the first offset are 16 bits. *)
Lemma legacy_offsets ts off :
  word 16 (Z.of_nat (length ts)) → word 16 (Z.of_nat off) →
  Forall (λ t : buffer, word 16 (Z.of_nat (length t))) ts →
  word 32 (Z.of_nat (off + length (concat ts))).
Proof.
  intros Hn Ho Hts.
  assert (Z.of_nat (length (concat ts)) ≤ Z.of_nat (length ts) * 65535).
  { clear -Hts. induction Hts as [|t ts Ht Hts IH]; [done|].
    cbn [concat length]. rewrite length_app. unfold word in Ht. lia. }
  unfold word in *. nia.
Qed.

Lemma legacy_size_word t : bytes_ok t → legacy_ok t → word 16 (Z.of_nat (length t)).
Proof.
  intros Hb [Hl <-]. apply (take_word 2); [auto with bytes|].
  unfold sizeof_TokenHeader in Hl. rewrite length_drop. lia.
Qed.

(** A legacy package gives the token of each record under its serial number,
    16 bytes long for an MCU and 8 otherwise. *)
Theorem legacy_package_parsed hdr gap ts rest version
    (Hb : bytes_ok (hdr ++ concat ts)) (Hts : Forall legacy_ok ts) (Hv : version ≠ 2)
    (Hph : package_header hdr version (length ts) (length (hdr ++ gap))) :
  updateTokenMap (Some (hdr ++ gap ++ concat ts ++ rest)) [] = Ok (0, map legacy_entry ts).
Proof.
  apply bytes_ok_app in Hb as [Hbh Hbt].
  unfold updateTokenMap. rewrite (getDebugTokenHeader_package _ _ _ _ _ Hph).
  destruct Hph as [Hlen Hver Hty Hr Ho]. rewrite Hver, decide_False by done.
  unfold sizeof_DebugTokenHeader in Hlen.
  rewrite Hr, Ho, Nat2Z.id, app_assoc, legacy_records_ok; [done|done|].
  apply legacy_offsets.
  - rewrite <-Hr. apply (take_word 2); [auto with bytes|]. rewrite length_drop. lia.
  - rewrite <-Ho. apply (take_word 2); [auto with bytes|]. rewrite length_drop. lia.
  - clear -Hts Hbt. induction Hts as [|t ts Ht Hts IH]; [constructor|].
    cbn [concat] in Hbt. apply bytes_ok_app in Hbt as [Hb Hbt].
    constructor; [by apply legacy_size_word|by apply IH].
Qed.

(** A file shorter than the header, typed as a token package of version 2,
    makes the parse throw: the failed stream has no size. *)
Theorem short_file_throws data
    (Hlen : (length data < sizeof_DebugTokenHeader)%nat)
    (Hver : take 2 data = [2; FileTypeDebugToken]) :
  updateTokenMap (Some data) [] = Throw LengthError.
Proof.
  destruct data as [|b0 [|b1 data]]; try discriminate Hver.
  injection Hver as -> ->. unfold updateTokenMap, getDebugTokenHeader, read, ifstream_open, seekg.
  cbn [is_fail is_data is_pos]. rewrite drop_0, take_ge by lia.
  rewrite bool_decide_eq_true_2 by done. unfold pad. cbn. done.
Qed.

(** An offset past the end of the file is not refused. *)
Theorem offset_past_end_throws hdr body records offset
    (Hph : package_header hdr 2 records offset)
    (Hoff : (length (hdr ++ body) < offset)%nat) :
  updateTokenMap (Some (hdr ++ body)) [] = Throw RangePastEnd.
Proof.
  unfold updateTokenMap. rewrite (getDebugTokenHeader_package _ _ _ _ _ Hph).
  destruct Hph as [Hlen Hv Hty Hr Ho].
  rewrite Hv, decide_True by done. unfold seekg, tellg. cbn [is_fail is_data is_pos].
  rewrite decide_False, Nat2Z.id by lia.
  change (mkIfstream (hdr ++ body) 0 false) with (ifstream_open (hdr ++ body)).
  rewrite read_all. unfold parseTlvTokens. by rewrite Ho, Nat2Z.id, decide_True by done.
Qed.

(** ** Packages of examples *)

(** A package header of a version with one record at offset 16. *)
Definition example_header (version offset : Z) : buffer :=
  [version; FileTypeDebugToken; 1; 0; offset; 0] ++ replicate 10 0.

Lemma tlv_containers_parsed_witness :
  updateTokenMap (Some (example_header 2 16 ++ [] ++ concat (map serialize [example_container]) ++ []))
    [] = Ok (0, [(formatSerialNumber [1; 2; 3], serialize example_container)]).
Proof.
  rewrite (tlv_containers_parsed (example_header 2 16) [] [example_container] []).
  - reflexivity.
  - constructor; [apply example_container_ok|constructor].
  - split; reflexivity.
Defined.

(** A legacy token with a serial number of eight bytes. *)
Definition example_token : buffer := replicate 8 0 ++ [44; 0] ++ replicate 26 0 ++ [1; 2; 3; 4; 5; 6; 7; 8].

Lemma legacy_package_parsed_witness :
  updateTokenMap (Some (example_header 1 16 ++ [] ++ concat [example_token] ++ [])) [] =
    Ok (0, map legacy_entry [example_token]).
Proof.
  apply (legacy_package_parsed (example_header 1 16) [] [example_token] [] 1).
  - apply (bool_decide_unpack _). vm_compute. exact I.
  - constructor; [|constructor]. split; [apply (bool_decide_unpack _); vm_compute; exact I|reflexivity].
  - discriminate.
  - split; reflexivity.
Defined.

Lemma offset_past_end_throws_witness :
  updateTokenMap (Some (example_header 2 200 ++ [])) [] = Throw RangePastEnd.
Proof.
  apply (offset_past_end_throws (example_header 2 200) [] 1 200).
  - split; reflexivity.
  - apply (bool_decide_unpack _). vm_compute. exact I.
Defined.
