(* ===== verification/Trace.v ===== *)
(** * Programs that call their environment

    A program makes calls of a type [Call], each answered by a value of its
    type of reply. It is a function on a [World]: the state of the environment,
    which answers each call by [respond], and the calls made so far with their
    answers. Nothing is assumed of the answers here. The file holds the monad
    and a small logic for the calls a program makes: [does], [emits],
    [emits_n], [yields]. *)

From stdpp Require Import list.
From S2P Require Import Prelude.

Class Env {Call : Type} (reply : Call → Type) := {
  env_state : Type;
  respond : ∀ c : Call, env_state → reply c * env_state;
}.

(** ** Programs *)

(** A call with what it answered. *)
Definition Event {Call : Type} {reply : Call → Type} : Type := {c : Call & reply c}.

Section Monad.
Context {Call : Type} {reply : Call → Type} `{!Env reply}.

Record World := mkWorld { w_env : env_state; w_trace : list (Event (reply := reply)) }.

Definition M (A : Type) : Type := World → A * World.

#[export] Instance M_ret : MRet M := λ A a w, (a, w).
#[export] Instance M_bind : MBind M := λ A B f m w, let '(a, w) := m w in f a w.

Definition call (c : Call) : M (reply c) := λ w,
  let '(r, e) := respond c (w_env w) in (r, mkWorld e (w_trace w ++ [existT c r])).

(** [for (x : l)] whose body only has effects. *)
Fixpoint for_each {A} (f : A → M ()) (l : list A) : M () :=
  match l with [] => mret () | x :: l => _ ← f x; for_each f l end.

(** ** What a program does

    [does m R]: whatever the world, [m] answers some [a] having made calls
    [es], with [R a es]. *)
Definition does {A} (m : M A) (R : A → list (Event (reply := reply)) → Prop) : Prop :=
  ∀ w, ∃ es, w_trace (m w).2 = w_trace w ++ es ∧ R (m w).1 es.

Lemma does_ret {A} (a : A) (R : A → list (Event (reply := reply)) → Prop) : R a [] → does (mret a) R.
Proof. intros HR w. exists []. by rewrite app_nil_r. Qed.

Lemma does_call c (R : reply c → list (Event (reply := reply)) → Prop) :
  (∀ r, R r [existT c r]) → does (call c) R.
Proof. intros HR w. unfold call. destruct (respond _ _) as [r e]. by eexists. Qed.

(** With what the environment is known to answer. *)
Lemma does_call_law c (R : reply c → list (Event (reply := reply)) → Prop) :
  (∀ e, R (respond c e).1 [existT c (respond c e).1]) → does (call c) R.
Proof. intros HR w. unfold call. specialize (HR (w_env w)). destruct (respond _ _) as [r e]. by eexists. Qed.

Lemma does_bind {A B} (m : M A) (f : A → M B) R1 R :
  does m R1 → (∀ a es, R1 a es → does (f a) (λ b es', R b (es ++ es'))) → does (m ≫= f) R.
Proof.
  intros Hm Hf w. destruct (Hm w) as (es & Hes & HR). unfold mbind, M_bind.
  destruct (m w) as [a w1]. cbn in *. destruct (Hf a es HR w1) as (es' & Hes' & HR').
  exists (es ++ es'). by rewrite Hes', Hes, app_assoc.
Qed.

Lemma does_step {B} c (f : reply c → M B) (R : B → list (Event (reply := reply)) → Prop) :
  (∀ r, does (f r) (λ b es, R b (existT c r :: es))) → does (call c ≫= f) R.
Proof.
  intros Hf. apply (does_bind _ _ (λ r es, es = [existT c r])); [by apply does_call|].
  intros r ? ->. apply Hf.
Qed.

Lemma does_impl {A} (m : M A) (R R' : A → list (Event (reply := reply)) → Prop) :
  does m R → (∀ a es, R a es → R' a es) → does m R'.
Proof. intros Hm HR w. destruct (Hm w) as (es & Hes & HRes). eauto. Qed.

(** The calls of a program are determined: two facts about them hold of the same. *)
Lemma does_and {A} (m : M A) (R R' : A → list (Event (reply := reply)) → Prop) :
  does m R → does m R' → does m (λ a es, R a es ∧ R' a es).
Proof.
  intros Hm Hm' w. destruct (Hm w) as (es & Hes & HR), (Hm' w) as (es' & Hes' & HR').
  assert (es' = es) as -> by (apply (app_inv_head (w_trace w)); congruence). eauto.
Qed.

(** [emits P m]: [m] makes only calls that satisfy [P]. *)
Definition calls_ok (P : Call → Prop) (es : list (Event (reply := reply))) : Prop := Forall (λ e, P (projT1 e)) es.

Definition emits {A} (P : Call → Prop) (m : M A) : Prop := does m (λ _, calls_ok P).

Lemma emits_ret {A} P (a : A) : emits P (mret a : M A).
Proof. apply does_ret. constructor. Qed.

Lemma emits_call P c : P c → emits P (call c).
Proof. intros Hc. apply does_call. intros r. by constructor. Qed.

Lemma emits_bind {A B} P (m : M A) (f : A → M B) :
  emits P m → (∀ a, emits P (f a)) → emits P (m ≫= f).
Proof.
  intros Hm Hf. eapply does_bind; [exact Hm|]. intros a es Hes.
  eapply does_impl; [apply Hf|]. intros b es' Hes'. by apply Forall_app.
Qed.

Lemma emits_impl {A} (P Q : Call → Prop) (m : M A) :
  (∀ c, P c → Q c) → emits P m → emits Q m.
Proof.
  intros HPQ Hm. eapply does_impl; [exact Hm|]. intros a es Hes.
  eapply Forall_impl; [exact Hes|]. intros e. apply HPQ.
Qed.

Lemma emits_for_each {A} P (f : A → M ()) l : (∀ x, x ∈ l → emits P (f x)) → emits P (for_each f l).
Proof.
  induction l as [|x l IH]; intros Hf; [apply emits_ret|].
  apply emits_bind; [apply Hf; left|intros _; apply IH; intros y Hy; apply Hf; by right].
Qed.

(** [emits_n n P m]: and at most [n] of them. *)
Definition emits_n {A} (n : nat) (P : Call → Prop) (m : M A) : Prop :=
  does m (λ _ es, calls_ok P es ∧ (length es ≤ n)%nat).

Lemma emits_n_ret {A} n P (a : A) : emits_n n P (mret a : M A).
Proof. apply does_ret. split; [constructor|cbn; lia]. Qed.

Lemma emits_n_call P c : P c → emits_n 1 P (call c).
Proof. intros Hc. apply does_call. intros r. split; [by constructor|done]. Qed.

(** [Q] is what the first program is known to answer. *)
Lemma emits_n_bind_post {A B} n1 n2 n P (Q : A → Prop) (m : M A) (f : A → M B) :
  (n1 + n2 ≤ n)%nat →
  emits_n n1 P m → (∀ w, Q (m w).1) → (∀ a, Q a → emits_n n2 P (f a)) →
  emits_n n P (m ≫= f).
Proof.
  intros Hn Hm HQ Hf.
  apply (does_bind m f (λ a es, Q a ∧ calls_ok P es ∧ (length es ≤ n1)%nat)).
  { intros w. destruct (Hm w) as (es & Hes & HR). eauto. }
  intros a es (Ha & HP & Hl). eapply does_impl; [by apply Hf|].
  intros b es' (HP' & Hl'). rewrite length_app. split; [by apply Forall_app|lia].
Qed.

Lemma emits_n_bind {A B} n1 n2 n P (m : M A) (f : A → M B) :
  (n1 + n2 ≤ n)%nat →
  emits_n n1 P m → (∀ a, emits_n n2 P (f a)) → emits_n n P (m ≫= f).
Proof. intros Hn Hm Hf. by apply (emits_n_bind_post n1 n2 n P (λ _, True)). Qed.

Lemma emits_n_impl {A} n n' P (m : M A) : (n ≤ n')%nat → emits_n n P m → emits_n n' P m.
Proof.
  intros Hn Hm. eapply does_impl; [exact Hm|]. intros a es [HP Hl]. split; [done|lia].
Qed.

(** The number of calls of a kind. *)
Fixpoint count (P : Call → bool) (es : list (Event (reply := reply))) : nat :=
  match es with
  | [] => 0
  | e :: es => (if P (projT1 e) then 1 else 0) + count P es
  end.

Lemma count_app P es es' : count P (es ++ es') = (count P es + count P es')%nat.
Proof. induction es as [|e es IH]; [done|]. cbn [app count]. lia. Qed.

Lemma count_none P es : calls_ok (λ c, P c = false) es → count P es = 0%nat.
Proof. induction 1 as [|e es He Hes IH]; [done|]. cbn [count]. by rewrite He. Qed.

(** [yields m a]: whatever the world, [m] answers [a]. *)
Definition yields {A} (m : M A) (a : A) : Prop := ∀ w, (m w).1 = a.

Lemma yields_ret {A} (a : A) : yields (mret a) a.
Proof. by intros w. Qed.

Lemma yields_bind {A B} (m : M A) (f : A → M B) a b :
  yields m a → yields (f a) b → yields (m ≫= f) b.
Proof.
  intros Hm Hf w. unfold mbind, M_bind. specialize (Hm w).
  destruct (m w) as [a' w']. cbn in Hm. subst a'. apply Hf.
Qed.

(** [returns m P]: whatever the world, what [m] answers satisfies [P]. *)
Definition returns {A} (m : M A) (P : A → Prop) : Prop := ∀ w, P (m w).1.

Lemma returns_ret {A} (a : A) (P : A → Prop) : P a → returns (mret a) P.
Proof. by intros Ha w. Qed.

Lemma returns_bind {A B} (m : M A) (f : A → M B) (P : A → Prop) (Q : B → Prop) :
  returns m P → (∀ a, P a → returns (f a) Q) → returns (m ≫= f) Q.
Proof.
  intros Hm Hf w. unfold mbind, M_bind. specialize (Hm w). destruct (m w) as [a w'].
  by apply Hf.
Qed.

Lemma returns_any {A B} (m : M A) (f : A → M B) (Q : B → Prop) :
  (∀ a, returns (f a) Q) → returns (m ≫= f) Q.
Proof. intros Hf. apply (returns_bind m f (λ _, True)); [done|intros a _; apply Hf]. Qed.

(** ** Protocols

    A protocol is an automaton on the calls and their answers: [step] answers
    the next state, or none for a call that is not allowed. *)
Section Protocol.
Context {S : Type} (step : S → Event (reply := reply) → option S).

Fixpoint run (s : S) (es : list (Event (reply := reply))) : option S :=
  match es with [] => Some s | e :: es => s ← step s e; run s es end.

Lemma events_run_app s es es' : run s (es ++ es') = s ← run s es; run s es'.
Proof.
  revert s. induction es as [|e es IH]; intros s; [done|].
  cbn. destruct (step s e); cbn; [apply IH|done].
Qed.

(** From [s], every call of [m] is allowed, and [m] leaves [t a] when it
    answers [a]. *)
Definition conforms {A} (s : S) (m : M A) (t : A → S) : Prop :=
  does m (λ a es, run s es = Some (t a)).

Lemma conforms_ret {A} s (a : A) t : t a = s → conforms s (mret a : M A) t.
Proof. intros Ht. apply does_ret. cbn. by rewrite Ht. Qed.

Lemma conforms_call s c t :
  (∀ r, step s (existT c r) = Some (t r)) → conforms s (call c) t.
Proof. intros Ht. apply does_call. intros r. cbn [run]. by rewrite Ht. Qed.

Lemma conforms_bind {A B} s (m : M A) (f : A → M B) u t :
  conforms s m u → (∀ a, conforms (u a) (f a) t) → conforms s (m ≫= f) t.
Proof.
  intros Hm Hf. eapply does_bind; [exact Hm|]. intros a es Hes.
  eapply does_impl; [apply Hf|]. intros b es' Hes'. cbv beta in *.
  by rewrite events_run_app, Hes.
Qed.

Lemma conforms_ext {A} s (m : M A) u t : (∀ a, u a = t a) → conforms s m u → conforms s m t.
Proof. intros Hut Hm. eapply does_impl; [exact Hm|]. cbv beta. intros a es ->. by rewrite Hut. Qed.

(** Calls that change nothing. *)
Definition quiet (s : S) (c : Call) : Prop := ∀ r, step s (existT c r) = Some s.

Lemma conforms_quiet {A} s (m : M A) : emits (quiet s) m → conforms s m (λ _, s).
Proof.
  intros Hm. eapply does_impl; [exact Hm|]. intros a es Hes. cbv beta.
  induction Hes as [|[c r] es Hc Hes IH]; [done|]. pose proof (Hc : quiet s c) as Hq.
  cbn [run]. by rewrite (Hq r).
Qed.

(** From [s], every call of [m] is allowed, and the state it leaves satisfies
    [I]. *)
Definition leaves {A} (I : S → Prop) (s : S) (m : M A) : Prop :=
  does m (λ _ es, ∃ s', run s es = Some s' ∧ I s').

Lemma leaves_ret {A} (I : S → Prop) s (a : A) : I s → leaves I s (mret a : M A).
Proof. intros Hs. apply does_ret. by exists s. Qed.

Lemma leaves_seq {A B} I s (m : M A) (f : A → M B) :
  leaves I s m → (∀ a s', I s' → leaves I s' (f a)) → leaves I s (m ≫= f).
Proof.
  intros Hm Hf. eapply does_bind; [exact Hm|]. intros a es (s1 & Hr1 & Hs1).
  eapply does_impl; [by apply (Hf a s1)|]. intros b es' (s2 & Hr2 & Hs2). cbv beta.
  exists s2. by rewrite events_run_app, Hr1.
Qed.

Lemma leaves_bind {A B} I s (m : M A) (f : A → M B) u :
  conforms s m u → (∀ a, leaves I (u a) (f a)) → leaves I s (m ≫= f).
Proof.
  intros Hm Hf. eapply does_bind; [exact Hm|]. intros a es Hes.
  eapply does_impl; [apply Hf|]. intros b es' (s' & Hr & Hs'). cbv beta.
  exists s'. by rewrite events_run_app, Hes.
Qed.

(** From [s], every call of [m] is allowed; the answer and the state it leaves
    satisfy [Q]. *)
Definition reaches {A} (s : S) (m : M A) (Q : A → S → Prop) : Prop :=
  does m (λ a es, ∃ s', run s es = Some s' ∧ Q a s').

Lemma reaches_ret {A} s (a : A) (Q : A → S → Prop) : Q a s → reaches s (mret a : M A) Q.
Proof. intros Hs. apply does_ret. by exists s. Qed.

Lemma reaches_call s c (Q : reply c → S → Prop) :
  (∀ r, ∃ s', step s (existT c r) = Some s' ∧ Q r s') → reaches s (call c) Q.
Proof.
  intros Hr. apply does_call. intros r. destruct (Hr r) as (s' & Hs' & HQ). exists s'.
  cbn [run]. by rewrite Hs'.
Qed.

Lemma reaches_bind {A B} s (m : M A) (f : A → M B) (R : A → S → Prop) (Q : B → S → Prop) :
  reaches s m R → (∀ a s', R a s' → reaches s' (f a) Q) → reaches s (m ≫= f) Q.
Proof.
  intros Hm Hf. eapply does_bind; [exact Hm|]. intros a es (s1 & Hr1 & HR).
  eapply does_impl; [by apply (Hf a s1)|]. intros b es' (s2 & Hr2 & HQ). cbv beta.
  exists s2. by rewrite events_run_app, Hr1.
Qed.

Lemma reaches_step {B} s c (f : reply c → M B) Q :
  (∀ r, ∃ s', step s (existT c r) = Some s' ∧ reaches s' (f r) Q) → reaches s (call c ≫= f) Q.
Proof.
  intros Hf. apply (reaches_bind s (call c) f (λ r s', reaches s' (f r) Q)); [|done].
  by apply reaches_call.
Qed.

Lemma reaches_bind_ret {A B} s (a : A) (f : A → M B) Q : reaches s (f a) Q → reaches s (mret a ≫= f) Q.
Proof. done. Qed.

Lemma reaches_impl {A} s (m : M A) (Q Q' : A → S → Prop) :
  reaches s m Q → (∀ a s', Q a s' → Q' a s') → reaches s m Q'.
Proof.
  intros Hm HQ. eapply does_impl; [exact Hm|]. intros a es (s' & Hr & Hs'). exists s'. eauto.
Qed.

Lemma reaches_returns {A} s (m : M A) Q (P : A → Prop) :
  reaches s m Q → returns m P → reaches s m (λ a s', Q a s' ∧ P a).
Proof.
  intros Hm HP w. destruct (Hm w) as (es & Hes & s' & Hr & HQ). exists es. eauto.
Qed.

Lemma reaches_quiet {A} s (m : M A) : emits (quiet s) m → reaches s m (λ _ s', s' = s).
Proof.
  intros Hm. eapply does_impl; [by apply conforms_quiet|]. intros a es Hes. by exists s.
Qed.
End Protocol.
End Monad.

Arguments conforms_ret {_ _ _ _ _ _} _ _ _ _.
Arguments conforms_call {Call reply Env0 S step} s c t _.
Arguments conforms_bind {_ _ _ _ _ _ _} _ _ _ _ _ _ _.
Arguments conforms_ext {_ _ _ _ _ _} _ _ _ _ _ _.
Arguments conforms_quiet {_ _ _ _ _ _} _ _ _.
Arguments reaches_call {Call reply Env0 S step} s c Q _.
Arguments reaches_step {Call reply Env0 S step B} s c f Q _.
Arguments does_step {Call reply Env0 B} c f R _.
Arguments World {_ _ _}.
Arguments M {_ _ _}.

Create HintDb emits.
#[export] Hint Resolve emits_ret emits_call emits_for_each : emits.

(** One call, which the predicate allows. *)
Ltac emit := match goal with |- emits ?P (call ?c) => refine (emits_call P c _); try done end.

(** Follow the structure of a program down to its calls. *)
Ltac emits_step :=
  first
  [ apply emits_ret
  | match goal with |- emits ?P (call ?c) => refine (emits_call P c _) end
  | apply emits_bind; [|intros ?]
  | progress cbn beta iota zeta
  | case_match
  | solve [eauto with emits] ].
Ltac emits_auto := repeat emits_step.
