(* ===== verification/Registry.v ===== *)
(** * The message registry of the recovery tools

    What the recovery tools leave in the log of the BMC, for Redfish:
    src/recovery_tool/common/message_registry.hpp and .cpp. An entry is data;
    each tool has a call that writes it. *)

From stdpp Require Import list strings gmap.
From S2P Require Import Prelude.

#[local] Open Scope string_scope.

(** ** Messages and codes *)

(** [recovery_tool/common/message_registry.hpp:13-31 firmwareNotInRecovery]
    and the other messages and codes. *)
Definition firmwareNotInRecovery : string := "NvidiaUpdate.1.0.FirmwareNotInRecovery".
Definition recoverySuccessful : string := "NvidiaUpdate.1.0.RecoverySuccessful".
Definition recoveryStarted : string := "NvidiaUpdate.1.0.RecoveryStarted".
Definition enterDOTRecovery : string := "NvidiaUpdate.1.0.EnterDOTRecovery".
Definition resourceErrorsDetected : string := "ResourceEvent.1.0.ResourceErrorsDetected".
Definition deviceRecoveryFailed : Z := 0x70.
Definition deviceNotResponding : Z := 0x71.
Definition noDevicesFound : Z := 0x72.

(** [recovery_tool/common/message_registry.hpp:32-42 RecoveryProtocol] *)
Inductive RecoveryProtocol :=
| GlacierRecovery | OCPRecoveryStatusError | OCPRecoveryProtocolError | OCPDeviceStatusCode
| OCPRecovery | MCURecovery | USBRCMRecovery | USBDFURecovery.

(** ** The tables

    Each code once, with a message and a resolution. *)
Abbreviation ErrorMapping := (list (Z * (string * string))).

(** [recovery_tool/common/message_registry.hpp:234-306 glacierRecoveryErrorMapping] *)
Definition glacierRecoveryErrorMapping : ErrorMapping :=
  [(1, ("Payload length exceeds the allocated space",
     "Check if firmware is in recovery, and try recovery again using the correct package."));
   (2, ("CRC check failed on the command parameters",
     "Check if firmware is in recovery, and try recovery again using the correct package."));
   (3, ("CRC mismatch between the request and response",
     "Check if firmware is in recovery, and try recovery again using the correct package."));
   (4, ("Header offset exceeds the maximum allowed size",
     "Check if firmware is in recovery, and try recovery again using the correct package."));
   (5, ("Key Hash Blob offset exceeds the maximum allowed limit",
     "Check if firmware is in recovery, and try recovery again using the correct package."));
   (6, ("Firmware image address exceeds the maximum allocated size",
     "Check if firmware is in recovery, and try recovery again using the correct package."));
   (7, ("Command signature failed the authentication check",
     "Check if firmware is in recovery, and try recovery again using the correct package."));
   (8, ("Device is not in Recovery",
     "Check if firmware is in recovery, and try recovery again using the correct package."));
   (9, ("Initial response byte does not match expected value",
     "Check if firmware is in recovery, and try recovery again using the correct package."));
   (0xb, ("The command issued is invalid",
     "Check if firmware is in recovery, and try recovery again using the correct package."));
   (0xc, ("Command timed out",
     "Check if firmware is in recovery, and try recovery again using the correct package."));
   (0xd, ("Failed to read data from the device",
     "Check if firmware is in recovery, and try recovery again using the correct package."));
   (0xf, ("Recovery image authentication failed",
     "Check if firmware is in recovery, and try recovery again using the correct package."));
   (0x10, ("Unable to open the recovery image file",
     "Check if firmware is in recovery, and try recovery again using the correct package."));
   (0x11, ("Failed to read the vendor details",
     "Check if firmware is in recovery, and try recovery again using the correct package."));
   (0x12, ("Failed to read the image header",
     "Check if firmware is in recovery, and try recovery again using the correct package."));
   (0x13, ("Failed to read key hash blob",
     "Check if firmware is in recovery, and try recovery again using the correct package."));
   (0x14, ("Failed to read the firmware image",
     "Check if firmware is in recovery, and try recovery again using the correct package."));
   (0x71, ("Device is not responding",
     "Check if firmware is in recovery, and try recovery again using the correct package."));
   (0x70, ("Recovery failed due to unknown error",
     "Check if firmware is in recovery, and try recovery again using the correct package."));
   (0x72, ("No Devices found to recover",
     "Verify the target device is present and accessible, then retry recovery."))].

(** [recovery_tool/common/message_registry.hpp:308-362 ocpRecoveryErrorMapping] *)
Definition ocpRecoveryErrorMapping : ErrorMapping :=
  [(0, ("No Boot Failure detected",
     "Check if firmware is in recovery, and try recovery again using the correct package."));
   (1, ("Generic hardware error",
     "Check if firmware is in recovery, and try recovery again using the correct package."));
   (2, ("Generic hardware soft error - soft error may be recoverable",
     "Check if firmware is in recovery, and try recovery again using the correct package."));
   (3, ("Self-test failure (e.g., RSA self test failure, FIPs self test failure,, etc.)",
     "Check if firmware is in recovery, and try recovery again using the correct package."));
   (4, ("Corrupted/missing critical data",
     "Check if firmware is in recovery, and try recovery again using the correct package."));
   (5, ("Missing/corrupt key manifest",
     "Check if firmware is in recovery, and try recovery again using the correct package."));
   (6, ("Authentication Failure on key manifest",
     "Check if firmware is in recovery, and try recovery again using the correct package."));
   (7, ("Anti-rollback failure on key manifest",
     "Check if firmware is in recovery, and try recovery again using the correct package."));
   (8, ("Missing/corrupt boot loader (first mutable code) firmware image",
     "Check if firmware is in recovery, and try recovery again using the correct package."));
   (9, ("Authentication failure on boot loader (1st mutable code) firmware image",
     "Check if firmware is in recovery, and try recovery again using the correct package."));
   (0xa, ("Anti-rollback failure boot loader (1st mutable code) firmware image",
     "Check if firmware is in recovery, and try recovery again using the correct package."));
   (0xb, ("Missing/corrupt main/management firmware image",
     "Check if firmware is in recovery, and try recovery again using the correct package."));
   (0xc, ("Authentication Failure main/management firmware image",
     "Check if firmware is in recovery, and try recovery again using the correct package."));
   (0xd, ("Anti-rollback Failure main/management firmware image",
     "Check if firmware is in recovery, and try recovery again using the correct package."));
   (0xe, ("Missing/corrupt recovery firmware",
     "Check if firmware is in recovery, and try recovery again using the correct package."));
   (0xf, ("Authentication Failure recovery firmware",
     "Check if firmware is in recovery, and try recovery again using the correct package."));
   (0x10, ("Anti-rollback Failure on recovery firmware",
     "Check if firmware is in recovery, and try recovery again using the correct package."));
   (0x11, ("Forced Recovery",
     "Check if firmware is in recovery, and try recovery again using the correct package."))].

(** [recovery_tool/common/message_registry.hpp:364-377 ocpRecoveryStatusErrorMapping] *)
Definition ocpRecoveryStatusErrorMapping : ErrorMapping :=
  [(0xc, ("Recovery Failed",
     "Check if firmware is in recovery, and try recovery again using the correct package."));
   (0xd, ("Recovery Image Authentication Failed",
     "Check if firmware is in recovery, and try recovery again using the correct package."));
   (0xe, ("Error Entering Recovery Mode",
     "Check if firmware is in recovery, and try recovery again using the correct package."));
   (0xf, ("Invalid CMS image provided",
     "Check if firmware is in recovery, and try recovery again using the correct package."))].

(** [recovery_tool/common/message_registry.hpp:379-384 ocpDeviceStatusErrorMapping] *)
Definition ocpDeviceStatusErrorMapping : ErrorMapping :=
  [(2, ("Device Error",
     "Try recovery again using the correct package."));
   (0xf, ("Fatal Error detected",
     "Try recovery again using the correct package."))].

(** [recovery_tool/common/message_registry.hpp:386-408 ocpRecoveryProtocolErrorMapping] *)
Definition ocpRecoveryProtocolErrorMapping : ErrorMapping :=
  [(1, ("Unsupported Write Command",
     "Check if firmware is in recovery, and try recovery again using the correct package."));
   (2, ("Unsupported Parameter",
     "Check if firmware is in recovery, and try recovery again using the correct package."));
   (3, ("Length Write Error",
     "Check if firmware is in recovery, and try recovery again using the correct package."));
   (4, ("Crc Error",
     "Check if firmware is in recovery, and try recovery again using the correct package."));
   (5, ("Device is not responding",
     "Check if firmware is in recovery, and try recovery again using the correct package."));
   (0xff, ("General Protocol Error. Error in communicating with device",
     "Check if firmware is in recovery, and try recovery again using the correct package."));
   (0x72, ("No Devices found to recover",
     "Verify the target device is present and accessible, then retry recovery."))].

(** [recovery_tool/common/message_registry.hpp:410-442 mcuRecoveryErrorMapping] *)
Definition mcuRecoveryErrorMapping : ErrorMapping :=
  [(1, ("blhost command execution failed",
     "Check if device is in ISP mode (recovery mode), and try recovery again using the correct package."));
   (2, ("Device is not provisioned",
     "Return to NVIDIA for provisioning."));
   (3, ("blhost get-property security-state command execution failed",
     "Check if device is in ISP mode (recovery mode), and try recovery again using the correct package."));
   (4, ("Device is not fully provisioned (MCU is not locked)",
     "Return to NVIDIA for provisioning."));
   (5, ("blhost read-memory command execution failed",
     "Check if device is in ISP mode (recovery mode), and try recovery again using the correct package."));
   (6, ("Encrypt key is not set",
     "Return to NVIDIA for provisioning."));
   (7, ("blhost receive-sb-file command execution failed",
     "Check if device is in ISP mode (recovery mode) or if the SB file is invalid, and try recovery again using the correct package."));
   (8, ("SB3/SB4 file header mismatch",
     "Check if the SB3/SB4 file in fwpkg is valid, and try recovery again using the correct package."));
   (0x71, ("Device is not responding",
     "Check if device is in ISP mode (recovery mode) , and try recovery again using the correct package."));
   (0x70, ("Recovery failed due to unknown error",
     "Check if device is in ISP mode (recovery mode), and try recovery again using the correct package."));
   (0x72, ("No Devices found to recover",
     "Verify the target device is present and accessible, then retry recovery."))].

(** [recovery_tool/common/message_registry.hpp:444-674 usbRcmRecoveryErrorMapping] *)
Definition usbRcmRecoveryErrorMapping : ErrorMapping :=
  [(1, ("Device not found at specified USB port",
     "Check USB connection and verify device is connected at the correct port."));
   (2, ("Failed to initialize USB subsystem",
     "Check USB permissions and try recovery again."));
   (3, ("Failed to set device into force recovery mode",
     "Check device state and try recovery again."));
   (4, ("Failed to transfer recovery images to device",
     "Check image files are valid and try recovery again using the correct package."));
   (5, ("Recovery verification failed",
     "Check device boot status and try recovery again."));
   (8, ("Device is not in recovery mode",
     "Check device state and try recovery again."));
   (0xc, ("Timeout waiting for recovery completion",
     "Check device boot progress and try recovery again."));
   (0xd, ("Failed to read data from device",
     "Check USB connection and try recovery again."));
   (0x10, ("Unable to open recovery image file",
     "Check image file paths and permissions, and try recovery again."));
   (0x11, ("Invalid image order or missing required images",
     "Check all 9 recovery images are present in the package and try again."));
   (0x12, ("USB communication error",
     "Check USB connection and try recovery again."));
   (0x13, ("DOT blob required but not provided",
     "Ensure the DOT blob file is included in the recovery package."));
   (0x14, ("S2A blob required but not supported",
     "Contact NVIDIA support for S2A blob recovery assistance."));
   (0x21, ("PSC ROM: I2C external message initialization failed",
     "Check hardware connections and try recovery again."));
   (0x22, ("PSC ROM: Boot mode selection failed",
     "Check device state and try recovery again."));
   (0x23, ("PSC ROM: USB external message initialization failed",
     "Check USB connection and try recovery again."));
   (0x24, ("PSC ROM: EROT grant failed",
     "Check device state and try recovery again."));
   (0x25, ("PSC ROM: QSPI0 device initialization failed",
     "Check hardware and try recovery again."));
   (0x26, ("PSC ROM: USB2 device initialization failed",
     "Check USB connection and try recovery again."));
   (0x27, ("PSC ROM: OCP recovery device initialization failed",
     "Check device state and try recovery again."));
   (0x28, ("PSC ROM: Boot chain exhausted - all boot options failed",
     "Try recovery again using the correct package."));
   (0x29, ("PSC ROM: Boot image load failed",
     "Check image files are valid and try recovery again."));
   (0x2a, ("PSC ROM: DOT slot exhausted",
     "Try recovery again using the correct package."));
   (0x2b, ("PSC ROM: S2A header check failed",
     "Check S2A blob is valid and try recovery again."));
   (0x2c, ("PSC ROM: S2A sanity check failed",
     "Check S2A blob is valid and try recovery again."));
   (0x2d, ("PSC ROM: S2A integrity check failed",
     "Check S2A blob is valid and try recovery again."));
   (0x2e, ("PSC ROM: S2A key has been revoked",
     "Use a package with valid signing keys."));
   (0x2f, ("PSC ROM: Mutable DOT header check failed",
     "Check DOT blob is valid and try recovery again."));
   (0x30, ("PSC ROM: Mutable DOT integrity check failed",
     "Check DOT blob is valid and try recovery again."));
   (0x31, ("PSC ROM: Mutable DOT sanity check failed",
     "Check DOT blob is valid and try recovery again."));
   (0x32, ("PSC ROM: Volatile DOT parity check failed",
     "Check DOT status and DOT blob is valid, then try recovery again."));
   (0x33, ("PSC ROM: Volatile DOT header check failed",
     "Check DOT status and DOT blob is valid, then try recovery again."));
   (0x34, ("PSC ROM: Volatile DOT sanity check failed",
     "Check DOT status and DOT blob is valid, then try recovery again."));
   (0x35, ("PSC ROM: Caliptra acknowledgment failed",
     "Check device state and try recovery again."));
   (0x36, ("PSC ROM: FMC CSH sanity check failed",
     "Check FMC image is valid and try recovery again."));
   (0x37, ("PSC ROM: FMC CSH stage 1 authentication failed",
     "Check FMC image is properly signed and try recovery again."));
   (0x38, ("PSC ROM: FMC CSH stage 2 authentication failed",
     "Check FMC image is properly signed and try recovery again."));
   (0x39, ("PSC ROM: FMC CSH binary list integrity check failed",
     "Check FMC image is valid and try recovery again."));
   (0x3a, ("PSC ROM: FMC image sanity check failed",
     "Check FMC image is valid and try recovery again."));
   (0x3b, ("PSC ROM: FMC image integrity check failed",
     "Check FMC image is valid and try recovery again."));
   (0x3c, ("PSC ROM: FMC image decryption failed",
     "Check FMC image is valid and try recovery again."));
   (0x3d, ("PSC ROM: FMC image OEM ratchet check failed - anti-rollback violation",
     "Use a newer firmware version that meets anti-rollback requirements."));
   (0x3e, ("PSC ROM: FMC image mutable DOT SVN fuse ratchet check failed",
     "Use a newer firmware version that meets anti-rollback requirements."));
   (0x3f, ("PSC ROM: FMC image mutable DOT SVN CSH ratchet check failed",
     "Use a newer firmware version that meets anti-rollback requirements."));
   (0x40, ("PSC ROM: FMC image volatile DOT SVN fuse ratchet check failed",
     "Use a newer firmware version that meets anti-rollback requirements."));
   (0x41, ("PSC ROM: FMC image volatile DOT SVN CSH ratchet check failed",
     "Use a newer firmware version that meets anti-rollback requirements."));
   (0x42, ("PSC ROM: FMC image volatile DOT CSH ratchet check failed",
     "Use a newer firmware version that meets anti-rollback requirements."));
   (0x51, ("PSC FMC: Fuse CRC check failed",
     "Hardware error detected. Contact NVIDIA support."));
   (0x52, ("PSC FMC: LPI LS link initialization failed",
     "Check hardware and try recovery again."));
   (0x53, ("PSC FMC: Boot chain ledger is invalid",
     "Try recovery again using the correct package."));
   (0x54, ("PSC FMC: Boot chain ledger indicates no bootable image",
     "Try recovery again using the correct package."));
   (0x55, ("PSC FMC: Boot chain ledger mismatch",
     "Try recovery again using the correct package."));
   (0x56, ("PSC FMC: Debug token sanity check failed",
     "Check debug token is valid and try recovery again."));
   (0x57, ("PSC FMC: Debug token authentication failed",
     "Check debug token is properly signed and try recovery again."));
   (0x58, ("PSC FMC: Firmware sanity check failed",
     "Check firmware image is valid and try recovery again."));
   (0x59, ("PSC FMC: Stage 1 firmware authentication failed",
     "Check firmware image is properly signed and try recovery again."));
   (0x5a, ("PSC FMC: Stage 2 firmware authentication failed",
     "Check firmware image is properly signed and try recovery again."));
   (0x5b, ("PSC FMC: SVN (Security Version Number) check failed - anti-rollback violation",
     "Use a newer firmware version that meets anti-rollback requirements."));
   (0x5c, ("PSC FMC: Halted due to disabled socket",
     "Verify CPU socket is properly seated and enabled in BIOS/UEFI settings."));
   (0x5d, ("PSC FMC: Memory fuse CRC check failed",
     "Hardware error detected. Contact NVIDIA support."));
   (0x5e, ("PSC FMC: Caliptra mailbox communication failed",
     "Check device state and try recovery again."));
   (0x5f, ("PSC FMC: CSA (Chip Security Architecture) validation failed",
     "Check firmware image is valid and try recovery again."));
   (0x60, ("PSC FMC: DOT validation failed",
     "Check DOT blob is valid and try recovery again."));
   (0x71, ("Device is not responding",
     "Check USB connection and try recovery again."));
   (0x70, ("Recovery failed due to unknown error",
     "Check device state and try recovery again using the correct package."));
   (0x72, ("No Devices found to recover",
     "Verify the target device is present and accessible, then retry recovery."))].

(** [recovery_tool/common/message_registry.hpp:689-729 usbDfuRecoveryErrorMapping] *)
Definition usbDfuRecoveryErrorMapping : ErrorMapping :=
  [(1, ("Failed to assert the HMC recovery strap or pulse reset",
     "Retry recovery. If the failure persists, collect diagnostic data and contact NVIDIA support."));
   (2, ("Failed to push the preliminary DFU bundle to the HMC BootROM",
     "Check the USB connection between the BMC and the HMC and retry recovery using the recovery package intended for this platform. If the failure persists, collect diagnostic data and contact NVIDIA support."));
   (3, ("Failed to flash the HMC firmware SPI image via dfu-util",
     "Retry recovery using the recovery package intended for this platform. If the failure persists, collect diagnostic data and contact NVIDIA support."));
   (4, ("Failed to deassert the HMC recovery strap or pulse reset into normal boot",
     "Power-cycle the HMC and retry recovery. If the failure persists, collect diagnostic data and contact NVIDIA support."));
   (5, ("HMC did not enumerate as a USB DFU device (2245:2700) after asserting the recovery strap",
     "Check the USB connection between the BMC and the HMC and retry recovery. If the failure persists, collect diagnostic data and contact NVIDIA support."));
   (6, ("USB DFU recovery configuration is missing or incomplete",
     "Verify the platform configuration for HMC USB DFU recovery and retry recovery. If the failure persists, collect diagnostic data and contact NVIDIA support."));
   (7, ("USB DFU recovery package is missing a component",
     "Retry recovery using the recovery package intended for this platform. If the failure persists, collect diagnostic data and contact NVIDIA support."));
   (8, ("Recovery U-Boot did not expose the SPI flash DFU targets after the preliminary bundle",
     "Power-cycle the HMC and retry recovery. If the failure persists, collect diagnostic data and contact NVIDIA support."));
   (9, ("HMC still enumerates as a USB DFU device after recovery",
     "Power-cycle the HMC and retry recovery using the recovery package intended for this platform. If the failure persists, collect diagnostic data and contact NVIDIA support."));
   (0x71, ("HMC is not responding",
     "Check the USB connection between the BMC and the HMC and retry recovery. If the failure persists, collect diagnostic data and contact NVIDIA support."));
   (0x70, ("HMC USB DFU recovery failed",
     "Retry recovery. If the failure persists, collect diagnostic data and contact NVIDIA support."));
   (0x72, ("No USB DFU recovery device configured",
     "Verify the platform configuration for HMC USB DFU recovery and retry recovery. If the failure persists, collect diagnostic data and contact NVIDIA support."))].

(** [recovery_tool/common/message_registry.hpp:731-741 recoveryMappingTbl] *)
Definition recoveryMappingTbl (recoveryProtocol : RecoveryProtocol) : ErrorMapping :=
  match recoveryProtocol with
  | GlacierRecovery => glacierRecoveryErrorMapping
  | OCPRecovery => ocpRecoveryErrorMapping
  | OCPRecoveryStatusError => ocpRecoveryStatusErrorMapping
  | OCPDeviceStatusCode => ocpDeviceStatusErrorMapping
  | OCPRecoveryProtocolError => ocpRecoveryProtocolErrorMapping
  | MCURecovery => mcuRecoveryErrorMapping
  | USBRCMRecovery => usbRcmRecoveryErrorMapping
  | USBDFURecovery => usbDfuRecoveryErrorMapping
  end.

(** [recovery_tool/common/message_registry.cpp:52-83 getMessage] *)
Definition getMessage (recoveryProtocol : RecoveryProtocol) (errorCode : Z)
    : option (string * string) :=
  (λ e : nat * (Z * (string * string)), e.2.2) <$> find_if (λ e : Z * (string * string), (e.1 =? errorCode)%Z)
    (recoveryMappingTbl recoveryProtocol).

(** ** Entries *)

Inductive Level := Informational | Warning | Critical.

Record Entry := mkEntry {
  entry_id : string;
  entry_level : Level;
  entry_data : gmap string string;
}.

(** [recovery_tool/common/message_registry.cpp:29-50 createMessageRegistry]
    An identifier that is not recognised leaves no entry. *)
Definition createMessageRegistry (messageID deviceName : string) : option Entry :=
  if decide (messageID ∈ [recoveryStarted; firmwareNotInRecovery; recoverySuccessful; enterDOTRecovery])
  then Some (mkEntry messageID Informational
    {["REDFISH_MESSAGE_ID" := messageID; "REDFISH_MESSAGE_ARGS" := deviceName; "namespace" := "FWUpdate"]})
  else None.

(** [recovery_tool/common/message_registry.cpp:85-115 createMessageRegistryResourceErrors]
    A code without a message leaves no entry. *)
Definition createMessageRegistryResourceErrors (messageID : string)
    (recoveryProtocol : RecoveryProtocol) (errorCode : Z) (deviceName : string) (severity : Level)
    : option Entry :=
  '(message, resolution) ← getMessage recoveryProtocol errorCode;
  let addData : gmap string string :=
    {["REDFISH_MESSAGE_ID" := messageID; "REDFISH_MESSAGE_ARGS" := deviceName +:+ "," +:+ message;
      "namespace" := "FWUpdate"]} in
  Some (mkEntry messageID severity
    (if decide (resolution = "") then addData
     else <["xyz.openbmc_project.Logging.Entry.Resolution" := resolution]> addData)).

(** ** Codes that are reported *)

(** The codes of a protocol that leave an entry. *)
Definition reportable (recoveryProtocol : RecoveryProtocol) (errorCode : Z) : bool :=
  bool_decide (errorCode ∈ (recoveryMappingTbl recoveryProtocol).*1).

Lemma reportable_message recoveryProtocol errorCode :
  reportable recoveryProtocol errorCode = true ↔ is_Some (getMessage recoveryProtocol errorCode).
Proof.
  unfold reportable, getMessage, find_if. rewrite bool_decide_eq_true, fmap_is_Some. split.
  - intros ((c & m) & -> & Hm)%list_elem_of_fmap. eapply list_find_elem_of; [exact Hm|].
    apply Z.eqb_refl.
  - intros [[i [c m]] (Hi & He & _)%list_find_Some]. apply Z.eqb_eq in He. cbn in He. subst c.
    apply list_elem_of_fmap. exists (errorCode, m). split; [done|]. by eapply list_elem_of_lookup_2.
Qed.

(** An error leaves an entry exactly when its code is in the table. *)
Lemma reported_error messageID recoveryProtocol errorCode deviceName severity :
  is_Some (createMessageRegistryResourceErrors messageID recoveryProtocol errorCode deviceName severity) ↔
  reportable recoveryProtocol errorCode = true.
Proof.
  rewrite reportable_message. unfold createMessageRegistryResourceErrors.
  destruct (getMessage _ _) as [[message resolution]|]; cbn; split; intros [? ?]; try done; by eexists.
Qed.
