(* ===== verification/UsbIo.v ===== *)
(** * USB access of the RCM recovery tool

    What src/recovery_tool/usbrcm_recovery_tool asks of libusb, of the clock
    and of the file system is the type [Call]; a device is a number, and its
    handle the same number. Nothing is assumed of the answers beyond their
    type; [UsbLaws] states what libusb documents of the sizes of its buffers.

    The file holds the interface, usb_io.cpp and ecid_parser.hpp. *)

From stdpp Require Import list strings.
From S2P Require Import Prelude Bytes Text Trace.

(** ** Calls *)

(** An alternate setting: its interface number and its endpoint addresses. *)
Record AltSetting := mkAltSetting { as_interface : Z; as_endpoints : list Z }.

Record DeviceDescriptor := mkDeviceDescriptor {
  dd_idVendor : Z; dd_idProduct : Z; dd_iSerialNumber : Z;
}.

Inductive Call :=
| LibusbInit | LibusbExit
| GetDeviceList | FreeDeviceList (ds : list nat)
| RefDevice (d : nat) | UnrefDevice (d : nat)
| GetDeviceDescriptor (d : nat) | GetActiveConfig (d : nat)
| GetPortNumbers (d : nat) | GetBusNumber (d : nat)
| Open (d : nat) | CloseHandle (d : nat)
| KernelDriverActive (d : nat) (i : Z) | DetachKernelDriver (d : nat) (i : Z)
| SetConfiguration (d : nat) (c : Z) | ClaimInterface (d : nat) (i : Z)
| ReleaseInterface (d : nat) (i : Z) | AttachKernelDriver (d : nat) (i : Z)
| ControlTransfer (d : nat) (requestType request wValue wIndex wLength : Z)
| GetStringDescriptor (d : nat) (index : Z) (size : nat)
| BulkTransfer (d : nat) (endpoint : Z) (data : buffer)
| SleepFor (ms : Z)
| ReadFile (path : string).

Definition LIBUSB_SUCCESS : Z := 0.
Definition LIBUSB_ERROR_TIMEOUT : Z := -7.

(** What a call answers: a libusb result, with what it fills in. *)
Definition reply (c : Call) : Type :=
  match c with
  | LibusbInit | Open _ | KernelDriverActive _ _ | DetachKernelDriver _ _
  | SetConfiguration _ _ | ClaimInterface _ _ | ReleaseInterface _ _
  | AttachKernelDriver _ _ | GetBusNumber _ => Z
  | GetDeviceList => option (list nat)
  | GetDeviceDescriptor _ => option DeviceDescriptor
  | GetActiveConfig _ => option (list AltSetting)
  | GetPortNumbers _ => list Z
  | ControlTransfer _ _ _ _ _ _ | GetStringDescriptor _ _ _ => Z * buffer
  | BulkTransfer _ _ _ => Z * Z
  | ReadFile _ => option buffer
  | _ => unit
  end.

Abbreviation UsbEnv := (Env reply).
Abbreviation Event := (Event (reply := reply)).

(** libusb fills at most the buffer it is given, with bytes, and a bulk
    transfer moves at most what it is given. *)
Class UsbLaws `{UsbEnv} := {
  control_laws : ∀ d rt r v i l e, 0 ≤ l →
    let '(n, data) := (respond (ControlTransfer d rt r v i l) e).1 in
    n ≤ l ∧ Z.of_nat (length data) = l ∧ bytes_ok data;
  string_laws : ∀ d i n e,
    let '(r, data) := (respond (GetStringDescriptor d i n) e).1 in
    length data = n ∧ bytes_ok data;
  bulk_laws : ∀ d ep data e,
    (respond (BulkTransfer d ep data) e).1.2 ≤ Z.of_nat (length data);
}.

(** ** usb_io.cpp *)

(** [recovery_tool/usbrcm_recovery_tool/usb_io.cpp:52-57 REQUEST_TYPE_READ]
    with the request code and the size of a register. *)
Definition REQUEST_TYPE_READ : Z := 0xC0.
Definition REQUEST_CODE : Z := 0x00.
Definition REGISTER_SIZE_BYTES : Z := 4.

(** [recovery_tool/usbrcm_recovery_tool/usb_io.cpp:30-42 littleEndianToUint32] *)
Definition littleEndianToUint32 (data : buffer) : Z := le_decode data.

(** [recovery_tool/usbrcm_recovery_tool/ecid_parser.hpp:20-20 ECID_SIZE] *)
Definition ECID_SIZE : nat := 32.

(** [std::from_chars] in base 16 over two characters, required to use both. *)
Definition from_chars2 (l : buffer) : option Z :=
  match l with
  | [hi; lo] => h ← hex_value hi; l ← hex_value lo; Some (16 * h + l)
  | _ => None
  end.

Section UsbIo.
Context `{UsbEnv}.

(** [recovery_tool/usbrcm_recovery_tool/usb_io.cpp:64-123 readRegister32] *)
Definition readRegister32 (d : nat) (virtualAddress : Z) : M (option Z) :=
  '(bytesRead, rxBuffer) ←
    call (ControlTransfer d REQUEST_TYPE_READ REQUEST_CODE
            ((virtualAddress ≫ 16) .& 0xFFFF) (virtualAddress .& 0xFFFF)
            REGISTER_SIZE_BYTES);
  mret (if bytesRead =? REGISTER_SIZE_BYTES then Some (littleEndianToUint32 rxBuffer)
        else None).

(** [recovery_tool/usbrcm_recovery_tool/usb_io.cpp:125-231 readDeviceEcid] *)
Definition readDeviceEcid (d : nat) : M (option buffer) :=
  desc ← call (GetDeviceDescriptor d);
  match desc with
  | None => mret None
  | Some desc =>
      if dd_iSerialNumber desc =? 0 then mret None else
      '(serialResult, serialBuffer) ←
        call (GetStringDescriptor d (dd_iSerialNumber desc) (ECID_SIZE * 2 + 1));
      if serialResult <? 0 then mret None else
      if serialResult <? Z.of_nat (ECID_SIZE * 2) then mret None else
      mret (mapM from_chars2 (chunks 2 (take (ECID_SIZE * 2) serialBuffer)))
  end.
End UsbIo.

(** A device whose registers hold still: they read as the memory [mem]. *)
Definition static_device `{UsbEnv} (d : nat) (mem : Z → Z) : Prop :=
  (∀ a, word 32 (mem a)) ∧
  ∀ v i e, respond (ControlTransfer d REQUEST_TYPE_READ REQUEST_CODE v i REGISTER_SIZE_BYTES) e =
    ((REGISTER_SIZE_BYTES, le_encode 4 (mem (v * 2 ^ 16 + i))), e).

Lemma address_split a : word 32 a → ((a ≫ 16) .& 0xFFFF) * 2 ^ 16 + (a .& 0xFFFF) = a.
Proof.
  intros Ha. change 0xFFFF with (Z.ones 16).
  rewrite !Z.land_ones, Z.shiftr_div_pow2 by lia. unfold word in Ha.
  Z.div_mod_to_equations. lia.
Qed.

Lemma readRegister32_static `{UsbEnv} d mem a :
  static_device d mem → word 32 a → yields (readRegister32 d a) (Some (mem a)).
Proof.
  intros [Hw Hs] Ha w. unfold readRegister32, mbind, M_bind, call. rewrite Hs.
  rewrite address_split by done. cbn -[le_encode le_decode].
  unfold littleEndianToUint32. by rewrite le_decode_encode.
Qed.

(** ** ecid_parser.hpp *)

(** [recovery_tool/usbrcm_recovery_tool/ecid_parser.hpp:23-28 BlobRequirement] *)
Inductive BlobRequirement := NoBlob | DOTBlob | S2ABlob.

(** [recovery_tool/usbrcm_recovery_tool/ecid_parser.hpp:31-39 BitField] *)
Definition BSI_OEM_KEY_VALID_BYTE : nat := 28.
Definition BSI_OEM_KEY_VALID_MASK : Z := 0x02.
Definition OPT_OWNERSHIP_STATUS_BYTE_LOW : nat := 20.
Definition OPT_OWNERSHIP_STATUS_BYTE_HIGH : nat := 21.
Definition OPT_OWNERSHIP_STATUS_MASK : Z := 0x1FF.
Definition OPT_OWNERSHIP_ODD_MASK : Z := 0x01.

(** Byte [i] of the 32 of an ECID. *)
Definition ecid_byte (ecid : buffer) (i : nat) : Z := default 0 (ecid !! i).

(** [recovery_tool/usbrcm_recovery_tool/ecid_parser.hpp:51-54 swapNibbles] *)
Definition swapNibbles (byte : Z) : Z :=
  u8 (((byte .& 0x0F) ≪ 4) .| ((byte .& 0xF0) ≫ 4)).

(** [recovery_tool/usbrcm_recovery_tool/ecid_parser.hpp:61-65 isOemKeyValid] *)
Definition isOemKeyValid (ecid : buffer) : bool :=
  negb (ecid_byte ecid BSI_OEM_KEY_VALID_BYTE .& BSI_OEM_KEY_VALID_MASK =? 0).

(** [recovery_tool/usbrcm_recovery_tool/ecid_parser.hpp:79-90 getOwnershipStatus] *)
Definition getOwnershipStatus (ecid : buffer) : Z :=
  let byteLow := swapNibbles (ecid_byte ecid OPT_OWNERSHIP_STATUS_BYTE_LOW) in
  let byteHigh := swapNibbles (ecid_byte ecid OPT_OWNERSHIP_STATUS_BYTE_HIGH) in
  let ecid5 := wrap 16 ((byteHigh ≪ 8) .| byteLow) in
  ecid5 .& OPT_OWNERSHIP_STATUS_MASK.

(** [recovery_tool/usbrcm_recovery_tool/ecid_parser.hpp:107-115 isDOTBlobRequired] *)
Definition isDOTBlobRequired (ecid : buffer) : bool :=
  if isOemKeyValid ecid then false
  else negb (getOwnershipStatus ecid .& OPT_OWNERSHIP_ODD_MASK =? 0).

(** [recovery_tool/usbrcm_recovery_tool/ecid_parser.hpp:122-125 isS2ABlobRequired] *)
Definition isS2ABlobRequired (ecid : buffer) : bool := isOemKeyValid ecid.

(** [recovery_tool/usbrcm_recovery_tool/ecid_parser.hpp:133-144 getBlobRequirement] *)
Definition getBlobRequirement (ecid : buffer) : BlobRequirement :=
  if isS2ABlobRequired ecid then S2ABlob
  else if isDOTBlobRequired ecid then DOTBlob else NoBlob.

(** [recovery_tool/usbrcm_recovery_tool/ecid_parser.hpp:151-165 blobRequirementToString] *)
Definition blobRequirementToString (r : BlobRequirement) : string :=
  match r with
  | S2ABlob => "S2A blob required - Not supported"
  | DOTBlob => "DOT blob required - Mutable DOT State"
  | NoBlob => ""
  end.

(** [recovery_tool/usbrcm_recovery_tool/ecid_parser.hpp:173-176 getBlobRequirementString] *)
Definition getBlobRequirementString (ecid : buffer) : string :=
  blobRequirementToString (getBlobRequirement ecid).

(** ** A device of a model

    An environment with one device, [0], at port 1-1: its registers are the
    memory [mem], which may not answer, its descriptor may be missing, and it
    accepts every bulk transfer. *)
Section Model.
Context (mem : Z → option Z) (files : string → option buffer) (serial : option buffer).

Definition model_reply (c : Call) : reply c :=
  match c with
  | LibusbInit | Open _ | KernelDriverActive _ _ | DetachKernelDriver _ _ | SetConfiguration _ _
  | ClaimInterface _ _ | ReleaseInterface _ _ | AttachKernelDriver _ _ => 0
  | GetBusNumber _ => 1
  | GetDeviceList => Some [0%nat]
  | GetDeviceDescriptor _ =>
      match serial with
      | Some _ => Some (mkDeviceDescriptor 0x0955 0x7410 1)
      | None => None
      end
  | GetActiveConfig _ => Some [mkAltSetting 3 [0x08]]
  | GetPortNumbers _ => [1]
  | ControlTransfer _ _ _ v i l =>
      match mem (v * 2 ^ 16 + i) with
      | Some w => (l, le_encode (Z.to_nat l) w)
      | None => (-1, replicate (Z.to_nat l) 0)
      end
  | GetStringDescriptor _ _ n =>
      let text := take n (default [] serial) in
      (Z.of_nat (length text), text ++ replicate (n - length text) 0)
  | BulkTransfer _ _ data => (0, Z.of_nat (length data))
  | ReadFile path => files path
  | LibusbExit | FreeDeviceList _ | RefDevice _ | UnrefDevice _ | CloseHandle _ | SleepFor _ => ()
  end.

Definition model_env : UsbEnv := {| env_state := (); respond := λ c e, (model_reply c, e) |}.

Lemma model_laws (Hserial : bytes_ok (default [] serial)) : @UsbLaws model_env.
Proof.
  split.
  - intros d rt r v i l e Hl. cbn [respond model_env fst model_reply].
    destruct (mem _) as [w|]; split_and!; try lia.
    + rewrite le_encode_length. lia.
    + apply le_encode_ok.
    + rewrite length_replicate. lia.
    + by apply Forall_replicate; vm_compute.
  - intros d i n e. cbn [respond model_env fst model_reply]. split.
    + rewrite length_app, length_replicate, length_take. lia.
    + apply bytes_ok_app. split; [by apply bytes_ok_take|by apply Forall_replicate; vm_compute].
  - intros d ep data e. cbn. lia.
Qed.
End Model.
