(* ===== verification/ProgressCode.v ===== *)
(** * Progress codes of the CPU boot

    The 32-bit codes a CPU logs while it boots, as
    src/recovery_tool/usbrcm_recovery_tool/progress_code_parser.hpp reads them:
    type in bits 31:30, package class in 29:24, sub-class in 23:16, boot
    selection in 12:6, operation in 5:0. A [static_cast] of a field to an
    enumeration may give a value that has no enumerator; such a value has a
    constructor of its own. *)

From stdpp Require Import list strings.
From S2P Require Import Prelude Bytes.

(** ** Enumerations *)

(** [recovery_tool/usbrcm_recovery_tool/progress_code_parser.hpp:38-43 CodeType] *)
Inductive CodeType := Progress | Error | Debug | CodeType_unnamed (v : Z).

Definition to_CodeType (v : Z) : CodeType :=
  match v with 1 => Progress | 2 => Error | 3 => Debug | _ => CodeType_unnamed v end.

(** [recovery_tool/usbrcm_recovery_tool/progress_code_parser.hpp:46-51 PackageClass] *)
Inductive PackageClass := Package0 | Package1 | Package_Unknown.

(** [recovery_tool/usbrcm_recovery_tool/progress_code_parser.hpp:54-88 SubClass] *)
Inductive SubClass :=
| PSC_ROM | PSC_FMC | PSC_RT | MB1 | BPMP_FW | MB2 | ATF_BL31 | RMM | Hafnium | UEFI |
  UEFI_StMM | OOBHUB_FW | RAS_FW | MSEQ_FW | PCORE0_FW | PCORE1_FW | PCORE2_FW | PCORE3_FW |
  PCORE4_FW | PCORE5_FW | C2C_GRS_0 | C2C_GRS_1 | C2C_UPHY_0 | C2C_UPHY_1 | C2C_UPHY_2 |
  C2C_UPHY_3 | C2C_UPHY_4 | C2C_UPHY_5 | C2C_LPI_S_0 | C2C_LPI_S_1 | C2C_LPI_C_0 | C2C_LPI_C_1
| SubClass_unnamed (v : Z).

(** The enumerators, from 0xC0 on, with their names. *)
Definition subclasses : list (SubClass * string) :=
   [(PSC_ROM, "PSC_ROM"); (PSC_FMC, "PSC_FMC"); (PSC_RT, "PSC_RT"); (MB1, "MB1"); (BPMP_FW,
   "BPMP_FW"); (MB2, "MB2"); (ATF_BL31, "ATF_BL31"); (RMM, "RMM"); (Hafnium, "Hafnium"); (UEFI,
   "UEFI"); (UEFI_StMM, "UEFI_StMM"); (OOBHUB_FW, "OOBHUB_FW"); (RAS_FW, "RAS_FW"); (MSEQ_FW,
   "MSEQ_FW"); (PCORE0_FW, "PCORE0_FW"); (PCORE1_FW, "PCORE1_FW"); (PCORE2_FW, "PCORE2_FW");
   (PCORE3_FW, "PCORE3_FW"); (PCORE4_FW, "PCORE4_FW"); (PCORE5_FW, "PCORE5_FW"); (C2C_GRS_0,
   "C2C_GRS_0"); (C2C_GRS_1, "C2C_GRS_1"); (C2C_UPHY_0, "C2C_UPHY_0"); (C2C_UPHY_1,
   "C2C_UPHY_1"); (C2C_UPHY_2, "C2C_UPHY_2"); (C2C_UPHY_3, "C2C_UPHY_3"); (C2C_UPHY_4,
   "C2C_UPHY_4"); (C2C_UPHY_5, "C2C_UPHY_5"); (C2C_LPI_S_0, "C2C_LPI_S_0"); (C2C_LPI_S_1,
   "C2C_LPI_S_1"); (C2C_LPI_C_0, "C2C_LPI_C_0"); (C2C_LPI_C_1, "C2C_LPI_C_1")]%string.

Definition to_SubClass (v : Z) : SubClass :=
  if v <? 0xC0 then SubClass_unnamed v
  else match subclasses !! Z.to_nat (v - 0xC0) with
       | Some (s, _) => s
       | None => SubClass_unnamed v
       end.

#[export] Instance CodeType_eq_dec : EqDecision CodeType.
Proof. solve_decision. Defined.
#[export] Instance PackageClass_eq_dec : EqDecision PackageClass.
Proof. solve_decision. Defined.
#[export] Instance SubClass_eq_dec : EqDecision SubClass.
Proof. solve_decision. Defined.

(** [recovery_tool/usbrcm_recovery_tool/progress_code_parser.hpp:186-190 BootMode] *)
Inductive BootMode := Recovery | ColdbootOrStreaming.
(** [recovery_tool/usbrcm_recovery_tool/progress_code_parser.hpp:193-199 BootDevice] *)
Inductive BootDevice := BD_Invalid | BD_QSPI | BD_OCP_RC | BD_USB.
(** [recovery_tool/usbrcm_recovery_tool/progress_code_parser.hpp:202-206 DeviceState] *)
Inductive DeviceState := DS_Enabled | DS_Disabled.
(** [recovery_tool/usbrcm_recovery_tool/progress_code_parser.hpp:209-215 SelectionType] *)
Inductive SelectionType := STRAP | OCP_CMD | FUSE | BCR.
(** [recovery_tool/usbrcm_recovery_tool/progress_code_parser.hpp:218-222 RecoveryType] *)
Inductive RecoveryType := ErrorInitiated | Forced.

#[export] Instance BootMode_eq_dec : EqDecision BootMode.
Proof. solve_decision. Defined.

(** Casts of fields of one and two bits: every value has an enumerator. *)
Definition to_BootMode (v : Z) : BootMode := if v =? 0 then Recovery else ColdbootOrStreaming.
Definition to_BootDevice (v : Z) : BootDevice :=
  match v with 0 => BD_Invalid | 1 => BD_QSPI | 2 => BD_OCP_RC | _ => BD_USB end.
Definition to_DeviceState (v : Z) : DeviceState := if v =? 0 then DS_Enabled else DS_Disabled.
Definition to_SelectionType (v : Z) : SelectionType :=
  match v with 0 => STRAP | 1 => OCP_CMD | 2 => FUSE | _ => BCR end.
Definition to_RecoveryType (v : Z) : RecoveryType := if v =? 0 then ErrorInitiated else Forced.

(** [recovery_tool/usbrcm_recovery_tool/progress_code_parser.hpp:225-233 BootSelInfo] *)
Record BootSelInfo := mkBootSelInfo {
  bootMode : BootMode;
  bootDevice : BootDevice;
  deviceState : DeviceState;
  selectionType : SelectionType;
  recoveryType : RecoveryType;
  stringRepresentation : string;
}.

(** [recovery_tool/usbrcm_recovery_tool/progress_code_parser.hpp:236-252 ProgressCodeInfo] *)
Record ProgressCodeInfo := mkProgressCodeInfo {
  pi_type : CodeType;
  pi_cpuId : PackageClass;
  pi_subClass : SubClass;
  pi_operation : Z;
  pi_name : string;
  pi_bootSelectionInfo : option BootSelInfo;
}.

(** [recovery_tool/usbrcm_recovery_tool/progress_code_parser.hpp:248-251 getBootSelectionString] *)
Definition getBootSelectionString (info : ProgressCodeInfo) : string :=
  match pi_bootSelectionInfo info with Some b => stringRepresentation b | None => "" end.

(** [recovery_tool/usbrcm_recovery_tool/progress_code_parser.hpp:255-259 RecoveryCompleteCodes] *)
Definition RecoveryComplete_CPU0 : Z := 0x70C2C002.
Definition RecoveryComplete_CPU1 : Z := 0x71C2C002.

(** [recovery_tool/usbrcm_recovery_tool/progress_code_parser.hpp:91-105 PscRomProgressCode::BOOT_MODE_SEL_DONE] The one enumerator
    the code uses by name. *)
Definition BOOT_MODE_SEL_DONE : Z := 0x02.

(** ** Name tables *)

(** [recovery_tool/usbrcm_recovery_tool/progress_code_parser.hpp:265-301 psc_rom_error_reasons] *)
Definition psc_rom_error_reasons : list string :=
  [""; "PSC_ROM_EC_I2C_EXT_MSG_FAIL"; "PSC_ROM_EC_BOOT_MODE_SEL_FAIL";
   "PSC_ROM_EC_USB_EXT_MSG_FAIL"; "PSC_ROM_EC_EROT_GRANT_FAIL"; "PSC_ROM_EC_QSPI0_DEV_FAIL";
   "PSC_ROM_EC_USB2_DEV_FAIL"; "PSC_ROM_EC_OCPRC_DEV_FAIL"; "PSC_ROM_EC_BOOT_CHAIN_EXHAUST";
   "PSC_ROM_EC_BOOT_IMAGE_LOAD_FAIL"; "PSC_ROM_EC_DOT_SLOT_EXHAUST";
   "PSC_ROM_EC_S2A_HEADER_CHECK_FAIL"; "PSC_ROM_EC_S2A_SANITY_FAIL";
   "PSC_ROM_EC_S2A_INTEGRITY_FAIL"; "PSC_ROM_EC_S2A_KEY_REVOKED";
   "PSC_ROM_EC_MUTABLE_DOT_HEADER_CHECK_FAIL"; "PSC_ROM_EC_MUTABLE_DOT_INTEGRITY_FAIL";
   "PSC_ROM_EC_MUTABLE_DOT_SANITY_FAIL"; "PSC_ROM_EC_VOLATILE_DOT_PARITY_FAIL";
   "PSC_ROM_EC_VOLATILE_DOT_HEADER_CHECK_FAIL"; "PSC_ROM_EC_VOLATILE_DOT_SANITY_FAIL";
   "PSC_ROM_EC_CALIPTRA_ACK_FAIL"; "PSC_ROM_EC_FMC_CSH_SANITY_FAIL";
   "PSC_ROM_EC_FMC_CSH_AUTHZ1_FAIL"; "PSC_ROM_EC_FMC_CSH_AUTHZ2_FAIL";
   "PSC_ROM_EC_FMC_CSH_BIN_LIST_INTEGRITY_FAIL"; "PSC_ROM_EC_FMC_IMAGE_SANITY_FAIL";
   "PSC_ROM_EC_FMC_IMAGE_INTEGRITY_FAIL"; "PSC_ROM_EC_FMC_IMAGE_DECRYPTION_FAIL";
   "PSC_ROM_EC_FMC_IMAGE_OEM_RATCHET_FAIL"; "PSC_ROM_EC_FMC_IMAGE_MUT_DOT_SVN_FUSE_RATCHET_FAIL";
   "PSC_ROM_EC_FMC_IMAGE_MUT_DOT_SVN_CSH_RATCHET_FAIL";
   "PSC_ROM_EC_FMC_IMAGE_VOL_DOT_SVN_FUSE_RATCHET_FAIL";
   "PSC_ROM_EC_FMC_IMAGE_VOL_DOT_SVN_CSH_RATCHET_FAIL";
   "PSC_ROM_EC_FMC_IMAGE_VOL_DOT_CSH_RATCHET_FAIL"]%string.

(** [recovery_tool/usbrcm_recovery_tool/progress_code_parser.hpp:307-321 psc_rom_progress_names] *)
Definition psc_rom_progress_names : list string :=
  [""; "PSC_ROM_PC_I2C_EXT_MSG_INIT"; "PSC_ROM_PC_BOOT_MODE_SEL_DONE";
   "PSC_ROM_PC_USB_EXT_MSG_INIT"; "PSC_ROM_PC_QSPI0_DEV_INIT"; "PSC_ROM_PC_USB2_DEV_INIT";
   "PSC_ROM_PC_OCPRC_DEV_INIT"; "PSC_ROM_PC_BOOT_CHAIN_SEL"; "PSC_ROM_PC_BOOT_IMAGE_LOAD_DONE";
   "PSC_ROM_PC_DOT_S2A_VALIDATION_DONE"; "PSC_ROM_PC_FMC_VALIDATION_DONE"; "PSC_ROM_PC_ROM_EXIT";
   "PSC_ROM_PC_DOT_RECOVERY"]%string.

(** [recovery_tool/usbrcm_recovery_tool/progress_code_parser.hpp:327-341 psc_fmc_progress_names] *)
Definition psc_fmc_progress_names : list string :=
  [""; "PSC_FMC_PC_INIT"; "PSC_FMC_PC_BOOT_MODE"; "PSC_FMC_PC_LPI_LS_LINK_UP";
   "PSC_FMC_PC_FW_QSPI_REINIT"; "PSC_FMC_PC_BOOT_CHAIN_LEDGER_SELECT";
   "PSC_FMC_PC_DATA_QSPI_INIT"; "PSC_FMC_PC_DEBUG_TOKEN_LOAD"; "PSC_FMC_PC_BINARY_LOAD";
   "PSC_FMC_PC_BOOTSTRAP"; "PSC_FMC_PC_WAIT_FOR_DOT_CAK_STATUS"; "PSC_FMC_PC_CSA";
   "PSC_FMC_PC_PLDM_T5_READY"]%string.

(** [recovery_tool/usbrcm_recovery_tool/progress_code_parser.hpp:347-351 psc_rt_progress_names] *)
Definition psc_rt_progress_names : list string :=
  [""; ""; "PSC_RT_PC_PLDM_T5_READY"]%string.

(** [recovery_tool/usbrcm_recovery_tool/progress_code_parser.hpp:357-362 oobhub_progress_names] *)
Definition oobhub_progress_names : list string :=
  [""; "OOBHUB_PC_INIT"; ""; "OOBHUB_PC_MCTP_INIT"]%string.

(** [recovery_tool/usbrcm_recovery_tool/progress_code_parser.hpp:368-386 psc_fmc_error_reasons] *)
Definition psc_fmc_error_reasons : list string :=
  [""; "PSC_FMC_EC_FUSE_CRC_FAILED"; "PSC_FMC_EC_LPI_LS_LINK_FAILED";
   "PSC_FMC_EC_BOOT_CHAIN_LEDGER_INVALID"; "PSC_FMC_EC_BOOT_CHAIN_LEDGER_NOT_BOOTABLE";
   "PSC_FMC_EC_BOOT_CHAIN_LEDGER_MISMATCH"; "PSC_FMC_EC_DEBUG_TOKEN_SANITY_FAIL";
   "PSC_FMC_EC_DEBUG_TOKEN_AUTHENTICATION_FAIL"; "PSC_FMC_EC_SANITY_FAILED";
   "PSC_FMC_EC_STAGE1_AUTHENTICATION_FAILED"; "PSC_FMC_EC_STAGE2_AUTHENTICATION_FAILED";
   "PSC_FMC_EC_SVN_CHECK_FAILED"; "PSC_FMC_EC_HALT_DISABLED_SOCKET";
   "PSC_FMC_EC_MEM_FUSE_CRC_FAILED"; "PSC_FMC_EC_CALIPTRA_MAILBOX_FAILED";
   "PSC_FMC_EC_CSA_FAILED"; "PSC_FMC_EC_DOT_FAILED"]%string.

(** ** Names of enumerators *)

(** [recovery_tool/usbrcm_recovery_tool/progress_code_parser.hpp:397-410 codeTypeToString] *)
Definition codeTypeToString (t : CodeType) : string :=
  match t with
  | Progress => "Progress" | Error => "Error" | Debug => "Debug"
  | CodeType_unnamed _ => "Unknown"
  end.

(** [recovery_tool/usbrcm_recovery_tool/progress_code_parser.hpp:417-430 packageClassToString] *)
Definition packageClassToString (p : PackageClass) : string :=
  match p with Package0 => "CPU0" | Package1 => "CPU1" | Package_Unknown => "Unknown" end.

(** [recovery_tool/usbrcm_recovery_tool/progress_code_parser.hpp:437-508 subClassToString] *)
Definition subClassToString (s : SubClass) : string :=
  match find_if (λ e : SubClass * string, bool_decide (e.1 = s)) subclasses with
  | Some (_, (_, name)) => name
  | None => "Unknown"
  end.

(** [recovery_tool/usbrcm_recovery_tool/progress_code_parser.hpp:515-526 bootModeToString] *)
Definition bootModeToString (m : BootMode) : string :=
  match m with Recovery => "Recovery" | ColdbootOrStreaming => "Coldboot/Streaming" end.

(** [recovery_tool/usbrcm_recovery_tool/progress_code_parser.hpp:533-548 bootDeviceToString] *)
Definition bootDeviceToString (d : BootDevice) : string :=
  match d with
  | BD_Invalid => "Invalid" | BD_QSPI => "QSPI" | BD_OCP_RC => "OCP_RC" | BD_USB => "USB"
  end.

(** [recovery_tool/usbrcm_recovery_tool/progress_code_parser.hpp:555-570 selectionTypeToString] *)
Definition selectionTypeToString (s : SelectionType) : string :=
  match s with STRAP => "STRAP" | OCP_CMD => "OCP_CMD" | FUSE => "FUSE" | BCR => "BCR" end.

(** [recovery_tool/usbrcm_recovery_tool/progress_code_parser.hpp:577-588 recoveryTypeToString] *)
Definition recoveryTypeToString (r : RecoveryType) : string :=
  match r with ErrorInitiated => "Error-Initiated" | Forced => "Forced" end.

(** ** Fields *)

(** [recovery_tool/usbrcm_recovery_tool/progress_code_parser.hpp:595-598 getCodeType] *)
Definition getCodeType (progressCode : Z) : CodeType :=
  to_CodeType ((progressCode ≫ 30) .& 0x3).

(** [recovery_tool/usbrcm_recovery_tool/progress_code_parser.hpp:605-608 getSubClass] *)
Definition getSubClass (progressCode : Z) : SubClass :=
  to_SubClass ((progressCode ≫ 16) .& 0xFF).

(** [recovery_tool/usbrcm_recovery_tool/progress_code_parser.hpp:615-618 getOperation] *)
Definition getOperation (progressCode : Z) : Z := progressCode .& 0x3F.

(** [recovery_tool/usbrcm_recovery_tool/progress_code_parser.hpp:627-630 getBootSelVal] *)
Definition getBootSelVal (progressCode : Z) : Z := (progressCode ≫ 6) .& 0x7F.

(** [recovery_tool/usbrcm_recovery_tool/progress_code_parser.hpp:640-663 decodeBootSelVal] *)
Definition decodeBootSelVal (bootSelVal : Z) : BootSelInfo :=
  let bootMode := to_BootMode (bootSelVal .& 0x01) in
  let bootDevice := to_BootDevice ((bootSelVal ≫ 1) .& 0x03) in
  let deviceState := to_DeviceState ((bootSelVal ≫ 3) .& 0x01) in
  let selectionType := to_SelectionType ((bootSelVal ≫ 4) .& 0x03) in
  let recoveryType := to_RecoveryType ((bootSelVal ≫ 6) .& 0x01) in
  mkBootSelInfo bootMode bootDevice deviceState selectionType recoveryType
    ("Boot mode: " +:+ bootModeToString bootMode +:+
     ", Boot device: " +:+ bootDeviceToString bootDevice +:+
     ", Device Disabled flag: " +:+
       match deviceState with DS_Enabled => "Enabled" | DS_Disabled => "Disabled" end +:+
     ", Selection type: " +:+ selectionTypeToString selectionType +:+
     ", Recovery type: " +:+
       if decide (bootMode = Recovery) then recoveryTypeToString recoveryType else "").

(** [recovery_tool/usbrcm_recovery_tool/progress_code_parser.hpp:670-683 extractCpuId] *)
Definition extractCpuId (progressCode : Z) : PackageClass :=
  let pkgClass := (progressCode ≫ 24) .& 0x3F in
  if pkgClass =? 0x30 then Package0 else if pkgClass =? 0x31 then Package1 else Package_Unknown.

(** [recovery_tool/usbrcm_recovery_tool/progress_code_parser.hpp:690-702 packageClassToCpuId] *)
Definition packageClassToCpuId (p : PackageClass) : Z :=
  match p with Package0 => 0 | Package1 => 1 | Package_Unknown => 255 end.

(** [recovery_tool/usbrcm_recovery_tool/progress_code_parser.hpp:709-713 isRecoveryComplete] *)
Definition isRecoveryComplete (progressCode : Z) : bool :=
  (progressCode =? RecoveryComplete_CPU0) || (progressCode =? RecoveryComplete_CPU1).

(** A table entry, unless the operation is past the table; an unmapped entry
    is the empty string already. *)
Definition table_name (names : list string) (operation : Z) : string :=
  default ""%string (names !! Z.to_nat operation).

(** [recovery_tool/usbrcm_recovery_tool/progress_code_parser.hpp:722-786 mapOperationToString] *)
Definition mapOperationToString (codeType : CodeType) (subClass : SubClass) (operation : Z)
    : string :=
  match subClass, codeType with
  | PSC_ROM, Error => table_name psc_rom_error_reasons operation
  | PSC_ROM, Progress => table_name psc_rom_progress_names operation
  | PSC_FMC, Error => table_name psc_fmc_error_reasons operation
  | PSC_FMC, Progress => table_name psc_fmc_progress_names operation
  | PSC_RT, Progress => table_name psc_rt_progress_names operation
  | OOBHUB_FW, Progress => table_name oobhub_progress_names operation
  | _, _ => ""
  end.

(** [recovery_tool/usbrcm_recovery_tool/progress_code_parser.hpp:793-818 getProgressCodeInfo] *)
Definition getProgressCodeInfo (progressCode : Z) : ProgressCodeInfo :=
  let type := getCodeType progressCode in
  let subClass := getSubClass progressCode in
  let operation := getOperation progressCode in
  mkProgressCodeInfo type (extractCpuId progressCode) subClass operation
    (mapOperationToString type subClass operation)
    (if decide (type = Progress ∧ subClass = PSC_ROM ∧ operation = BOOT_MODE_SEL_DONE)
     then Some (decodeBootSelVal (getBootSelVal progressCode)) else None).

(** ** A code from its fields

    The layout as a specification: the bits between the boot selection and the
    sub-class are left out. *)
Record CodeFields := mkCodeFields {
  f_type : Z; f_package : Z; f_subClass : Z; f_bootSel : Z; f_operation : Z;
}.

Definition fields_ok (f : CodeFields) : Prop :=
  word 2 (f_type f) ∧ word 6 (f_package f) ∧ word 8 (f_subClass f) ∧
  word 7 (f_bootSel f) ∧ word 6 (f_operation f).

Definition compose (f : CodeFields) : Z :=
  f_type f * 2 ^ 30 + f_package f * 2 ^ 24 + f_subClass f * 2 ^ 16 +
  f_bootSel f * 2 ^ 6 + f_operation f.

(** ** Proofs *)

(** A shift and a mask are a division and a remainder. *)
Lemma field_div_mod x s n : 0 ≤ s → 0 ≤ n → (x ≫ s) .& Z.ones n = x / 2 ^ s mod 2 ^ n.
Proof. intros. by rewrite Z.land_ones, Z.shiftr_div_pow2 by done. Qed.

Lemma mask_mod x n : 0 ≤ n → x .& Z.ones n = x mod 2 ^ n.
Proof. intros. by apply Z.land_ones. Qed.

Ltac fields_to_arith :=
  change 0x3 with (Z.ones 2) in *; change 0xFF with (Z.ones 8) in *;
  change 0x3F with (Z.ones 6) in *; change 0x7F with (Z.ones 7) in *;
  rewrite ?field_div_mod, ?mask_mod in * by lia.

(** Every field of a code is read back, whatever the others. *)
Theorem fields_read_back f (Hf : fields_ok f) :
  getCodeType (compose f) = to_CodeType (f_type f) ∧
  getSubClass (compose f) = to_SubClass (f_subClass f) ∧
  getOperation (compose f) = f_operation f ∧
  getBootSelVal (compose f) = f_bootSel f ∧
  extractCpuId (compose f) =
    (if f_package f =? 0x30 then Package0 else if f_package f =? 0x31 then Package1
     else Package_Unknown).
Proof.
  destruct f as [t p s b o]. destruct Hf as (Ht & Hp & Hs & Hb & Ho).
  unfold word in *. cbn [f_type f_package f_subClass f_bootSel f_operation] in *.
  unfold getCodeType, getSubClass, getOperation, getBootSelVal, extractCpuId, compose.
  cbn [f_type f_package f_subClass f_bootSel f_operation].
  fields_to_arith.
  assert (H30 : (t * 2 ^ 30 + p * 2 ^ 24 + s * 2 ^ 16 + b * 2 ^ 6 + o) / 2 ^ 30 mod 2 ^ 2 = t)
    by (Z.div_mod_to_equations; lia).
  assert (H24 : (t * 2 ^ 30 + p * 2 ^ 24 + s * 2 ^ 16 + b * 2 ^ 6 + o) / 2 ^ 24 mod 2 ^ 6 = p)
    by (Z.div_mod_to_equations; lia).
  assert (H16 : (t * 2 ^ 30 + p * 2 ^ 24 + s * 2 ^ 16 + b * 2 ^ 6 + o) / 2 ^ 16 mod 2 ^ 8 = s)
    by (Z.div_mod_to_equations; lia).
  assert (H6 : (t * 2 ^ 30 + p * 2 ^ 24 + s * 2 ^ 16 + b * 2 ^ 6 + o) / 2 ^ 6 mod 2 ^ 7 = b)
    by (Z.div_mod_to_equations; lia).
  assert (H0 : (t * 2 ^ 30 + p * 2 ^ 24 + s * 2 ^ 16 + b * 2 ^ 6 + o) mod 2 ^ 6 = o)
    by (Z.div_mod_to_equations; lia).
  by rewrite H30, H24, H16, H6, H0.
Qed.

(** The value a boot selection is decoded from. *)
Definition encodeBootSel (b : BootSelInfo) : Z :=
  match bootMode b with Recovery => 0 | ColdbootOrStreaming => 1 end +
  2 * match bootDevice b with BD_Invalid => 0 | BD_QSPI => 1 | BD_OCP_RC => 2 | BD_USB => 3 end +
  8 * match deviceState b with DS_Enabled => 0 | DS_Disabled => 1 end +
  16 * match selectionType b with STRAP => 0 | OCP_CMD => 1 | FUSE => 2 | BCR => 3 end +
  64 * match recoveryType b with ErrorInitiated => 0 | Forced => 1 end.

(** Decoding a boot selection loses nothing. *)
Lemma bootsel_roundtrip v : word 7 v → encodeBootSel (decodeBootSelVal v) = v.
Proof.
  intros Hv. apply Z.eqb_eq.
  apply (word_check (λ v, encodeBootSel (decodeBootSelVal v) =? v) 7); [lia|by vm_compute|done].
Qed.

Lemma recovery_complete_info code :
  isRecoveryComplete code = true →
  getCodeType code = Progress ∧ getSubClass code = PSC_RT ∧
  pi_name (getProgressCodeInfo code) = "PSC_RT_PC_PLDM_T5_READY"%string ∧
  pi_bootSelectionInfo (getProgressCodeInfo code) = None.
Proof.
  unfold isRecoveryComplete. intros [->%Z.eqb_eq | ->%Z.eqb_eq]%orb_true_iff; by vm_compute.
Qed.
