(* ===== verification/ProgressQueue.v ===== *)
(** * The progress code queue

    src/recovery_tool/usbrcm_recovery_tool/progress_code_queue.{hpp,cpp}: the
    circular log of progress codes in the memory of a CPU, read register by
    register over USB, and the snapshot of the last boot taken from it.

    [std::sort] keeps no order between equal timestamps: it is any function
    that satisfies [StdSort]. [ring] is the reference: the slots between the
    two pointers, in order. *)

From stdpp Require Import list strings sorting.
From S2P Require Import Prelude Bytes Text Trace UsbIo ProgressCode.

(** ** Data *)

(** [recovery_tool/usbrcm_recovery_tool/progress_code_queue.hpp:28-34 CPUProgressLogEntry] *)
Record CPUProgressLogEntry := mkEntry {
  timestamp : Z; progressCode : Z; queueId : Z;
}.

(** [recovery_tool/usbrcm_recovery_tool/progress_code_queue.hpp:44-51 CPUBootSnapshot] *)
Record CPUBootSnapshot := mkSnapshot {
  latestBootModeSelDone : option Z;
  latestProgressCode : option Z;
  latestErrorCode : option Z;
}.

(** [recovery_tool/usbrcm_recovery_tool/progress_code_queue.cpp:30-51 MemoryWindow]
    with the pointer register and the size limit. *)
Definition WINDOW_3_BASE : Z := 0x8000.
Definition WINDOW_3_SIZE : Z := 0x2000.
Definition QUEUE0_OFFSET : Z := 0x2000.
Definition MAX_QUEUE_ENTRIES : Z := 1024.

(** [recovery_tool/usbrcm_recovery_tool/progress_code_queue.cpp:69-85 END_INDEX_MASK]
    and the other constants of the layout. *)
Definition END_INDEX_MASK : Z := 0x3FF.
Definition START_INDEX_MASK : Z := 0x3FF.
Definition QUEUE_SIZE_MASK : Z := 0x7FF.
Definition START_INDEX_SHIFT : Z := 10.
Definition QUEUE_SIZE_SHIFT : Z := 20.
Definition MAX_ITERATION_LIMIT : Z := 2048.
Definition INVALID_TIMESTAMP_ZERO : Z := 0x00000000.
Definition INVALID_TIMESTAMP_MAX : Z := 0xFFFFFFFF.
Definition ENTRY_SIZE_BYTES : Z := 8.
Definition PROGRESS_CODE_OFFSET : Z := 4.

(** [recovery_tool/usbrcm_recovery_tool/progress_code_queue.cpp:60-67 CpuPcqPointers] *)
Record CpuPcqPointers := mkPointers { endIndex : Z; startIndex : Z; queueSize : Z }.

(** Sorting by timestamp with [std::sort]. *)
Class StdSort := {
  std_sort : list CPUProgressLogEntry → list CPUProgressLogEntry;
  std_sort_perm l : std_sort l ≡ₚ l;
  std_sort_sorted l : StronglySorted (λ a b, timestamp a ≤ timestamp b) (std_sort l);
}.

(** One that satisfies it. *)
Definition earlier (a b : CPUProgressLogEntry) : Prop := timestamp a ≤ timestamp b.

#[export] Instance earlier_dec : RelDecision earlier.
Proof. intros a b. unfold earlier. apply _. Defined.

Lemma earlier_sorted l :
  StronglySorted (λ a b, timestamp a ≤ timestamp b) (merge_sort earlier l).
Proof.
  apply StronglySorted_merge_sort; [intros a b c|intros a b]; unfold earlier; lia.
Qed.

Definition merge_sort_StdSort : StdSort :=
  {| std_sort := merge_sort earlier;
     std_sort_perm := merge_sort_Permutation earlier;
     std_sort_sorted := earlier_sorted |}.

(** ** Operations *)

(** [recovery_tool/usbrcm_recovery_tool/progress_code_queue.cpp:97-101 isInvalidTimestamp] *)
Definition isInvalidTimestamp (t : Z) : bool :=
  (t =? INVALID_TIMESTAMP_ZERO) || (t =? INVALID_TIMESTAMP_MAX).

(** [recovery_tool/usbrcm_recovery_tool/progress_code_queue.cpp:106-111 advanceCircularIndex] *)
Definition advanceCircularIndex (currentIdx baseIdx queueSize : Z) : Z :=
  u32 (u32 (currentIdx - baseIdx + 1) mod queueSize + baseIdx).

(** [recovery_tool/usbrcm_recovery_tool/progress_code_queue.cpp:124-130 parseCpuPcqPointers] *)
Definition parseCpuPcqPointers (regValue : Z) : CpuPcqPointers :=
  mkPointers (regValue .& END_INDEX_MASK)
    ((regValue ≫ START_INDEX_SHIFT) .& START_INDEX_MASK)
    ((regValue ≫ QUEUE_SIZE_SHIFT) .& QUEUE_SIZE_MASK).

Definition no_entries : list CPUProgressLogEntry := [].

Section Queue.
Context `{UsbEnv, StdSort}.

(** [recovery_tool/usbrcm_recovery_tool/progress_code_queue.cpp:138-178 readCpuPcqPointers] *)
Definition readCpuPcqPointers (d : nat) : M (option CpuPcqPointers) :=
  regValue ← readRegister32 d QUEUE0_OFFSET;
  match regValue with
  | None => mret None
  | Some regValue =>
      let pointers := parseCpuPcqPointers regValue in
      if MAX_QUEUE_ENTRIES <? queueSize pointers then mret None else mret (Some pointers)
  end.

(** [recovery_tool/usbrcm_recovery_tool/progress_code_queue.cpp:255-312 readCpuPcqEntries]
    The loop over the entries, with [n] iterations left. *)
Fixpoint pcq_loop (n : nat) (d : nat) (size readIdx : Z) (entries : list CPUProgressLogEntry)
    : M (bool * list CPUProgressLogEntry) :=
  match n with
  | O => mret (true, entries)
  | S n =>
      if (0xFFFFFFFF - WINDOW_3_BASE) / ENTRY_SIZE_BYTES <? readIdx then
        mret (false, entries) else
      let timestampAddr := u32 (WINDOW_3_BASE + u32 (readIdx * ENTRY_SIZE_BYTES)) in
      let progressCodeAddr := u32 (timestampAddr + PROGRESS_CODE_OFFSET) in
      timestamp ← readRegister32 d timestampAddr;
      progressCode ← readRegister32 d progressCodeAddr;
      match timestamp, progressCode with
      | Some timestamp, Some progressCode =>
          let next := advanceCircularIndex readIdx 0 size in
          if isInvalidTimestamp timestamp then pcq_loop n d size next entries
          else pcq_loop n d size next (entries ++ [mkEntry timestamp progressCode 0])
      | _, _ => mret (false, entries)
      end
  end.

(** The number of entries between the pointers; equal pointers mean full. *)
Definition entriesToRead (p : CpuPcqPointers) : Z :=
  let isQueueFull := (startIndex p =? endIndex p) && negb (queueSize p =? 0) in
  if isQueueFull then queueSize p
  else u32 (endIndex p + queueSize p - startIndex p) mod queueSize p.

(** [recovery_tool/usbrcm_recovery_tool/progress_code_queue.cpp:182-333 readCpuPcqEntries]
    The entries are the out parameter. *)
Definition readCpuPcqEntries (d : nat) : M (bool * list CPUProgressLogEntry) :=
  pointers ← readCpuPcqPointers d;
  match pointers with
  | None => mret (false, no_entries)
  | Some p =>
      if queueSize p =? 0 then mret (true, no_entries) else
      if (queueSize p <=? startIndex p) || (queueSize p <=? endIndex p) then
        mret (false, no_entries) else
      let n := entriesToRead p in
      if n =? 0 then mret (true, no_entries) else
      '(ok, entries) ← pcq_loop (Z.to_nat (Z.min n MAX_ITERATION_LIMIT)) d (queueSize p)
                         (startIndex p) [];
      mret (if ok : bool then (true, std_sort entries) else (false, entries))
  end.

(** [recovery_tool/usbrcm_recovery_tool/progress_code_queue.cpp:405-432 readCpuPcqEntriesAfter] *)
Definition readCpuPcqEntriesAfter (d : nat) (afterTimestamp : Z)
    : M (bool * list CPUProgressLogEntry) :=
  '(ok, entries) ← readCpuPcqEntries d;
  mret (if negb ok then (false, entries) else
        if afterTimestamp =? 0 then (true, entries) else
        (true, base.filter (λ e, afterTimestamp < timestamp e) entries)).
End Queue.

(** The tests of [getCPUBootSnapshot]. *)
Definition is_boot_mode_sel_done (e : CPUProgressLogEntry) : bool :=
  let info := getProgressCodeInfo (progressCode e) in
  bool_decide (pi_type info = Progress ∧ pi_subClass info = PSC_ROM ∧
               pi_operation info = BOOT_MODE_SEL_DONE).
Definition is_progress (e : CPUProgressLogEntry) : bool :=
  bool_decide (pi_type (getProgressCodeInfo (progressCode e)) = Progress).
Definition is_error (e : CPUProgressLogEntry) : bool :=
  bool_decide (pi_type (getProgressCodeInfo (progressCode e)) = Error).

(** [recovery_tool/usbrcm_recovery_tool/progress_code_queue.cpp:335-403 getCPUBootSnapshot]
    The reverse iterators run over the reversed list; [searchEnd] is one past
    the boot selection found. *)
Definition getCPUBootSnapshot (entries : list CPUProgressLogEntry) : CPUBootSnapshot :=
  let reversed := reverse entries in
  match find_if is_boot_mode_sel_done reversed with
  | None => mkSnapshot None None None
  | Some (i, boot) =>
      let range := take (S i) reversed in
      mkSnapshot (Some (progressCode boot))
        ((λ p : nat * _, progressCode p.2) <$> find_if is_progress range)
        ((λ p : nat * _, progressCode p.2) <$> find_if is_error range)
  end.

(** ** What is read *)

Lemma pointers_bounds r :
  let p := parseCpuPcqPointers r in
  0 ≤ startIndex p < 1024 ∧ 0 ≤ endIndex p < 1024 ∧ 0 ≤ queueSize p < 2048.
Proof.
  unfold parseCpuPcqPointers, START_INDEX_MASK, END_INDEX_MASK, QUEUE_SIZE_MASK.
  cbn [startIndex endIndex queueSize].
  change 0x3FF with (Z.ones 10). change 0x7FF with (Z.ones 11).
  split_and!; apply land_ones_word; lia.
Qed.

Lemma advance_mod idx size :
  0 ≤ idx < size → size ≤ 1024 → advanceCircularIndex idx 0 size = (idx + 1) mod size.
Proof.
  intros. unfold advanceCircularIndex, u32. rewrite Z.sub_0_r, Z.add_0_r.
  rewrite (wrap_small 32 (idx + 1)) by (unfold word; lia).
  apply wrap_small. unfold word. pose proof (Z.mod_pos_bound (idx + 1) size). lia.
Qed.

Definition register_read (d : nat) (addr : Z) : Call :=
  ControlTransfer d REQUEST_TYPE_READ REQUEST_CODE
    ((addr ≫ 16) .& 0xFFFF) (addr .& 0xFFFF) REGISTER_SIZE_BYTES.

(** A read of the pointer register, or of a word of the log. *)
Definition in_log (d : nat) (c : Call) : Prop :=
  ∃ addr, c = register_read d addr ∧
    (addr = QUEUE0_OFFSET ∨
     WINDOW_3_BASE ≤ addr < WINDOW_3_BASE + WINDOW_3_SIZE ∧ addr mod 4 = 0).

(** The two words of slot [idx]. *)
Definition slot_addr (idx : Z) : Z := WINDOW_3_BASE + idx * ENTRY_SIZE_BYTES.

Lemma slot_addresses idx :
  0 ≤ idx < 1024 →
  u32 (WINDOW_3_BASE + u32 (idx * ENTRY_SIZE_BYTES)) = slot_addr idx ∧
  u32 (slot_addr idx + PROGRESS_CODE_OFFSET) = slot_addr idx + PROGRESS_CODE_OFFSET.
Proof.
  intros. unfold u32, slot_addr, WINDOW_3_BASE, ENTRY_SIZE_BYTES, PROGRESS_CODE_OFFSET.
  rewrite !wrap_small by (unfold word; rewrite ?wrap_small; unfold word; lia). done.
Qed.

(** The check for an overflow of the address never fires. *)
Lemma no_address_overflow idx :
  0 ≤ idx < 1024 → ((0xFFFFFFFF - WINDOW_3_BASE) / ENTRY_SIZE_BYTES <? idx) = false.
Proof. intros. apply Z.ltb_ge. change ((0xFFFFFFFF - WINDOW_3_BASE) / ENTRY_SIZE_BYTES) with 536866815. lia. Qed.

Lemma in_log_slot d idx k :
  0 ≤ idx < 1024 → k = 0 ∨ k = PROGRESS_CODE_OFFSET →
  in_log d (register_read d (slot_addr idx + k)).
Proof.
  intros Hi Hk. eexists. split; [done|]. right.
  unfold slot_addr, WINDOW_3_BASE, WINDOW_3_SIZE, ENTRY_SIZE_BYTES, PROGRESS_CODE_OFFSET in *.
  split; [lia|]. Z.div_mod_to_equations. lia.
Qed.

Section Bounds.
Context `{UsbEnv, StdSort}.

Lemma emits_n_register P d addr : P (register_read d addr) → emits_n 1 P (readRegister32 d addr).
Proof.
  intros HP. unfold readRegister32.
  apply (emits_n_bind 1 0); [lia| |intros [n b]; apply emits_n_ret].
  exact (emits_n_call P (register_read d addr) HP).
Qed.

Lemma pcq_loop_log n d size idx entries :
  0 ≤ idx < size → size ≤ 1024 → emits_n (2 * n) (in_log d) (pcq_loop n d size idx entries).
Proof.
  revert idx entries. induction n as [|n IH]; intros idx entries Hi Hs; [apply emits_n_ret|].
  cbn [pcq_loop]. rewrite no_address_overflow by lia.
  destruct (slot_addresses idx) as [-> ->]; [lia|].
  apply (emits_n_bind 1 (1 + 2 * n)); [lia| |intros t].
  { apply emits_n_register. rewrite <-(Z.add_0_r (slot_addr idx)). apply in_log_slot; [lia|by left]. }
  apply (emits_n_bind 1 (2 * n)); [lia| |intros c].
  { apply emits_n_register, in_log_slot; [lia|by right]. }
  rewrite advance_mod by done. pose proof (Z.mod_pos_bound (idx + 1) size).
  destruct t as [t|], c as [c|]; try apply emits_n_ret.
  case_match; apply IH; lia.
Qed.

Definition pointers_ok (p : option CpuPcqPointers) : Prop :=
  match p with
  | Some p => 0 ≤ startIndex p ∧ 0 ≤ endIndex p ∧ 0 ≤ queueSize p ≤ 1024
  | None => True
  end.

Lemma readCpuPcqPointers_post d w : pointers_ok (readCpuPcqPointers d w).1.
Proof.
  unfold readCpuPcqPointers, mbind, M_bind, mret, M_ret. destruct (readRegister32 d QUEUE0_OFFSET w) as [[r|] w1];
    [|done].
  cbn -[parseCpuPcqPointers]. destruct (MAX_QUEUE_ENTRIES <? _) eqn:Hs; [done|]. cbn -[parseCpuPcqPointers].
  apply Z.ltb_ge in Hs. unfold MAX_QUEUE_ENTRIES in Hs. destruct (pointers_bounds r) as (? & ? & ?). lia.
Qed.

Lemma entriesToRead_bounds p :
  0 ≤ startIndex p < queueSize p → 0 ≤ endIndex p < queueSize p → queueSize p ≤ 1024 →
  0 < entriesToRead p ≤ queueSize p ∧ entriesToRead p < MAX_ITERATION_LIMIT ∧
  entriesToRead p =
    if startIndex p =? endIndex p then queueSize p
    else (endIndex p - startIndex p) mod queueSize p.
Proof.
  intros Hs He Hz. unfold entriesToRead, MAX_ITERATION_LIMIT.
  destruct (Z.eqb_spec (queueSize p) 0); [lia|].
  destruct (Z.eqb_spec (startIndex p) (endIndex p)); cbn [andb negb]; [lia|].
  unfold u32. rewrite wrap_small by (unfold word; lia).
  replace (endIndex p + queueSize p - startIndex p)
    with (endIndex p - startIndex p + 1 * queueSize p) by lia.
  rewrite Z.mod_add by lia.
  assert (0 < (endIndex p - startIndex p) mod queueSize p < queueSize p); [|lia].
  destruct (Z_lt_le_dec (endIndex p) (startIndex p)).
  - rewrite <-(Z.mod_add _ 1), Z.mod_small by lia. lia.
  - rewrite Z.mod_small by lia. lia.
Qed.

(** Whatever the device answers, a read of the queue touches only the pointer
    register and the words of the log window, in at most 2049 transfers. *)
Theorem pcq_reads_bounded d : emits_n 2049 (in_log d) (readCpuPcqEntries d).
Proof.
  unfold readCpuPcqEntries.
  apply (emits_n_bind_post 1 2048 _ _ pointers_ok); [lia| |apply readCpuPcqPointers_post|].
  { unfold readCpuPcqPointers. apply (emits_n_bind 1 0); [lia| |intros r].
    - apply emits_n_register. eexists. split; [done|by left].
    - repeat case_match; apply emits_n_ret. }
  intros [p|] Hp; [cbn in Hp|apply emits_n_ret].
  case_match; [apply emits_n_ret|]. case_match eqn:Hb; [apply emits_n_ret|].
  bool_to_prop. destruct (entriesToRead_bounds p) as (Hn & Hlim & _); [lia..|].
  case_match; [apply emits_n_ret|].
  apply (emits_n_bind 2048 0); [lia| |intros [ok l]; apply emits_n_ret].
  eapply emits_n_impl; [|apply pcq_loop_log; lia]. lia.
Qed.
End Bounds.

(** ** The log as a ring *)

(** The slots from [start] on, [n] of them. *)
Definition ring (start size : Z) (n : nat) : list Z :=
  map (λ i, (start + Z.of_nat i) mod size) (seq 0 n).

Definition entry_at (mem : Z → Z) (idx : Z) : CPUProgressLogEntry :=
  mkEntry (mem (slot_addr idx)) (mem (slot_addr idx + PROGRESS_CODE_OFFSET)) 0.

Definition valid_entry (e : CPUProgressLogEntry) : bool := negb (isInvalidTimestamp (timestamp e)).

(** The valid entries between the pointers, all slots when they are equal. *)
Definition live_entries (mem : Z → Z) (p : CpuPcqPointers) : list CPUProgressLogEntry :=
  let n := if startIndex p =? endIndex p then queueSize p
           else (endIndex p - startIndex p) mod queueSize p in
  base.filter (λ e, valid_entry e = true)
    (map (entry_at mem) (ring (startIndex p) (queueSize p) (Z.to_nat n))).

Definition pcq_reference `{StdSort} (mem : Z → Z) : bool * list CPUProgressLogEntry :=
  let p := parseCpuPcqPointers (mem QUEUE0_OFFSET) in
  if decide (1024 < queueSize p) then (false, []) else
  if decide (queueSize p = 0) then (true, []) else
  if decide (queueSize p ≤ startIndex p ∨ queueSize p ≤ endIndex p) then (false, []) else
  (true, std_sort (live_entries mem p)).

Lemma ring_S start size n :
  0 ≤ start < size → ring start size (S n) = start :: ring ((start + 1) mod size) size n.
Proof.
  intros Hs. unfold ring. cbn [seq map]. rewrite Z.add_0_r, Z.mod_small by done. f_equal.
  rewrite <-seq_shift, map_map. apply map_ext. intros i.
  rewrite Zplus_mod_idemp_l. f_equal. lia.
Qed.

Section Static.
Context `{UsbEnv, StdSort} (d : nat) (mem : Z → Z) (Hmem : static_device d mem).

Lemma pcq_loop_static n size idx acc :
  0 ≤ idx < size → size ≤ 1024 →
  yields (pcq_loop n d size idx acc)
    (true, acc ++ base.filter (λ e, valid_entry e = true) (map (entry_at mem) (ring idx size n))).
Proof.
  revert idx acc. induction n as [|n IH]; intros idx acc Hi Hs.
  { cbn. rewrite app_nil_r. apply yields_ret. }
  cbn [pcq_loop]. rewrite no_address_overflow by lia.
  destruct (slot_addresses idx) as [-> ->]; [lia|].
  assert (Hk : word 32 (slot_addr idx) ∧ word 32 (slot_addr idx + PROGRESS_CODE_OFFSET)).
  { unfold slot_addr, word, WINDOW_3_BASE, ENTRY_SIZE_BYTES, PROGRESS_CODE_OFFSET. lia. }
  eapply yields_bind; [apply readRegister32_static; [done|apply Hk]|].
  eapply yields_bind; [apply readRegister32_static; [done|apply Hk]|].
  rewrite advance_mod, ring_S by done. cbn [map]. rewrite filter_cons.
  pose proof (Z.mod_pos_bound (idx + 1) size) as Hm.
  assert (Hv : valid_entry (entry_at mem idx) =
               negb (isInvalidTimestamp (mem (slot_addr idx)))) by done.
  destruct (isInvalidTimestamp (mem (slot_addr idx))); cbn [negb] in Hv.
  - rewrite decide_False by (by rewrite Hv). apply IH; lia.
  - rewrite decide_True by done.
    specialize (IH ((idx + 1) mod size) (acc ++ [entry_at mem idx])).
    rewrite <-app_assoc in IH. apply IH; lia.
Qed.

(** C32: Reading a log that holds still gives the live entries of the ring, sorted
    by timestamp, and an error exactly when the pointers are inconsistent. *)
Theorem pcq_equivalence : yields (readCpuPcqEntries d) (pcq_reference mem).
Proof.
  unfold readCpuPcqEntries, readCpuPcqPointers, pcq_reference.
  set (p := parseCpuPcqPointers (mem QUEUE0_OFFSET)).
  destruct (pointers_bounds (mem QUEUE0_OFFSET)) as (Hs & He & Hz). fold p in Hs, He, Hz.
  case_decide as H1.
  { eapply yields_bind; [eapply yields_bind; [apply readRegister32_static; [done|by vm_compute]|]|].
    - cbv beta iota zeta. fold p. rewrite (proj2 (Z.ltb_lt _ _)) by done. apply yields_ret.
    - apply yields_ret. }
  eapply yields_bind.
  { eapply yields_bind; [apply readRegister32_static; [done|by vm_compute]|].
    cbv beta iota zeta. fold p.
    rewrite (proj2 (Z.ltb_ge _ _)) by (unfold MAX_QUEUE_ENTRIES; lia). apply yields_ret. }
  cbv beta iota zeta.
  destruct (Z.eqb_spec (queueSize p) 0) as [Hz0|Hz0].
  { rewrite decide_True by done. apply yields_ret. }
  rewrite decide_False by done. case_decide as H2.
  { replace (_ || _) with true; [apply yields_ret|].
    symmetry. apply orb_true_iff. rewrite !Z.leb_le. lia. }
  replace (_ || _) with false by (symmetry; apply orb_false_iff; rewrite !Z.leb_gt; lia).
  destruct (entriesToRead_bounds p) as (Hn & Hlim & Heq); [lia..|].
  rewrite (proj2 (Z.eqb_neq _ _)), Z.min_l by lia.
  eapply yields_bind; [apply pcq_loop_static; lia|].
  unfold live_entries. rewrite Heq. apply yields_ret.
Qed.
End Static.

(** ** The snapshot *)

Lemma find_if_cons {A} (P : A → bool) x l :
  snd <$> find_if P (x :: l) = if P x then Some x else snd <$> find_if P l.
Proof.
  unfold find_if. cbn. destruct (P x) eqn:HP.
  - by rewrite decide_True.
  - rewrite decide_False by congruence. by destruct (list_find _ l) as [[i y]|].
Qed.

(** Searching from the newest entry finds the last that passes. *)
Lemma find_if_reverse {A} (P : A → bool) l :
  snd <$> find_if P (reverse l) = last (base.filter (λ x, P x = true) l).
Proof.
  induction l as [|x l IH] using rev_ind; [done|].
  rewrite reverse_app, filter_app, filter_cons, filter_nil. cbn [reverse app].
  change (reverse [x] ++ reverse l) with (x :: reverse l). rewrite find_if_cons, IH.
  destruct (P x) eqn:HP.
  - rewrite decide_True by done. by rewrite last_snoc.
  - rewrite decide_False by congruence. by rewrite app_nil_r.
Qed.

Lemma find_if_skip {A} (P : A → bool) l x k :
  Forall (λ y, P y = false) l → P x = true →
  find_if P (l ++ x :: k) = Some (length l, x).
Proof.
  intros Hl Hx. unfold find_if. apply list_find_Some. split_and!; [|done|].
  - by rewrite lookup_app_r, Nat.sub_diag.
  - intros j y Hj Hlt. rewrite lookup_app_l in Hj by done.
    rewrite Forall_lookup in Hl. rewrite (Hl j y Hj). done.
Qed.

Lemma find_if_none {A} (P : A → bool) l : Forall (λ y, P y = false) l → find_if P l = None.
Proof.
  intros Hl. unfold find_if. apply list_find_None. eapply Forall_impl; [done|].
  cbn. intros y ->. done.
Qed.

Lemma boot_is_progress e : is_boot_mode_sel_done e = true → is_progress e = true.
Proof.
  unfold is_boot_mode_sel_done, is_progress.
  rewrite !bool_decide_eq_true. intuition.
Qed.

(** With [boot] the last boot selection of the log, the snapshot holds it and
    the last progress and error codes from it on; there always is a progress
    code. Without a boot selection the snapshot is empty. *)
Theorem snapshot_since_boot pre boot post
    (Hboot : is_boot_mode_sel_done boot = true)
    (Hpost : Forall (λ e, is_boot_mode_sel_done e = false) post) :
  let since := boot :: post in
  getCPUBootSnapshot (pre ++ boot :: post) =
    mkSnapshot (Some (progressCode boot))
      (progressCode <$> last (base.filter (λ e, is_progress e = true) since))
      (progressCode <$> last (base.filter (λ e, is_error e = true) since)) ∧
  is_Some (latestProgressCode (getCPUBootSnapshot (pre ++ boot :: post))) ∧
  getCPUBootSnapshot post = mkSnapshot None None None.
Proof.
  cbn zeta.
  assert (Hsnap : getCPUBootSnapshot (pre ++ boot :: post) =
    mkSnapshot (Some (progressCode boot))
      (progressCode <$> last (base.filter (λ e, is_progress e = true) (boot :: post)))
      (progressCode <$> last (base.filter (λ e, is_error e = true) (boot :: post)))).
  { unfold getCPUBootSnapshot.
    rewrite reverse_app, reverse_cons, <-app_assoc. cbn [app].
    rewrite find_if_skip by (rewrite ?Forall_reverse; done).
    replace (take (S (length (reverse post))) (reverse post ++ boot :: reverse pre))
      with (reverse (boot :: post)).
    - rewrite <-!find_if_reverse, <-!option_fmap_compose. done.
    - rewrite (cons_middle boot), app_assoc, take_app_length' by
        (rewrite length_app; cbn; lia).
      by rewrite reverse_cons. }
  split_and!; [done| |].
  - rewrite Hsnap. cbn [latestProgressCode]. rewrite filter_cons.
    rewrite decide_True by (by apply boot_is_progress).
    rewrite fmap_is_Some, last_is_Some. done.
  - unfold getCPUBootSnapshot. rewrite find_if_none; [done|]. by rewrite Forall_reverse.
Qed.

(** A log of two slots: a boot selection and the end of the recovery. *)
Definition example_log (a : Z) : Z :=
  match a with
  | 0x2000 => 0x00200000 | 0x8000 => 7 | 0x8004 => 0x70C00002 | 0x8008 => 9 | 0x800C => 0x70C2C002
  | _ => 0
  end.

Lemma example_log_static : @static_device (model_env (Some ∘ example_log) (const None) None) 0 example_log.
Proof.
  split; [|intros v i e; reflexivity].
  intros a. unfold example_log. repeat case_match; by vm_compute.
Qed.

Lemma pcq_equivalence_witness :
  @yields _ _ (model_env (Some ∘ example_log) (const None) None) _
    (@readCpuPcqEntries _ merge_sort_StdSort 0) (@pcq_reference merge_sort_StdSort example_log) ∧
  @pcq_reference merge_sort_StdSort example_log =
    (true, [mkEntry 7 0x70C00002 0; mkEntry 9 0x70C2C002 0]).
Proof.
  split; [|vm_compute; reflexivity].
  apply (@pcq_equivalence _ merge_sort_StdSort 0 example_log example_log_static).
Defined.

Lemma snapshot_since_boot_witness :
  let boot := mkEntry 7 0x70C00002 0 in
  let post := [mkEntry 9 0x70C2C002 0] in
  getCPUBootSnapshot ([] ++ boot :: post) =
    mkSnapshot (Some 0x70C00002) (Some 0x70C2C002) None.
Proof.
  intros boot post.
  destruct (snapshot_since_boot [] boot post) as (Heq & _ & _).
  - vm_compute. reflexivity.
  - constructor; [vm_compute; reflexivity|constructor].
  - rewrite Heq. vm_compute. reflexivity.
Defined.
