(* ===== verification/UsbDevices.v ===== *)
(** * Devices, contexts and handles of the RCM recovery tool

    src/recovery_tool/usbrcm_recovery_tool/usb_device_manager.{hpp,cpp}. An
    object that owns a libusb resource is modelled by its constructor and its
    destructor at the places where the code runs them; a valid object is one
    that owns its resource.

    The second half is the protocol libusb documents: [Lib] is what a program
    holds, [lib_step] what a call does to it and what it requires, and a
    program [conforms] when all its calls are allowed, from the first on. *)

From stdpp Require Import list strings pretty gmultiset sets.
From S2P Require Import Prelude Bytes Text Trace UsbIo ProgressCode ProgressQueue.

(** [recovery_tool/usbrcm_recovery_tool/usb_device_manager.cpp:20-29 VENDOR_ID]
    and the other constants of the device. *)
Definition VENDOR_ID : Z := 0x0955.
Definition PRODUCT_ID : Z := 0x7410.
Definition ENDPOINT_RECOVERY : Z := 0x08.
Definition ENDPOINT_ADDRESS_MASK : Z := 0x7F.
Definition INTERFACE_RECOVERY : Z := 3.

(** [recovery_tool/usbrcm_recovery_tool/usb_device_manager.hpp:196-224 UsbDevice]
    A referenced device with its port path. *)
Definition UsbDevice : Type := nat * string.

Section Devices.
Context `{UsbEnv}.

(** [recovery_tool/usbrcm_recovery_tool/usb_device_manager.cpp:35-51 UsbContext]
    Whether the context is valid. *)
Definition UsbContext : M bool := r ← call LibusbInit; mret (r =? LIBUSB_SUCCESS).

(** [recovery_tool/usbrcm_recovery_tool/usb_device_manager.cpp:53-60 ~UsbContext] *)
Definition UsbContext_destroy (valid : bool) : M () :=
  if valid then call LibusbExit else mret ().

(** [recovery_tool/usbrcm_recovery_tool/usb_device_manager.cpp:127-161 hasCorrectVidPid] *)
Definition hasCorrectVidPid (d : nat) : M bool :=
  desc ← call (GetDeviceDescriptor d);
  mret match desc with
       | None => false
       | Some desc => (dd_idVendor desc =? VENDOR_ID) && (dd_idProduct desc =? PRODUCT_ID)
       end.

(** [recovery_tool/usbrcm_recovery_tool/usb_device_manager.cpp:166-238 hasRecoveryEndpoints]
    The alternate settings of all interfaces, in order. *)
Definition hasRecoveryEndpoints (d : nat) : M bool :=
  config ← call (GetActiveConfig d);
  mret match config with
       | None => false
       | Some altsettings =>
           existsb (λ a, (as_interface a =? INTERFACE_RECOVERY) &&
             existsb (λ ep, ep .& ENDPOINT_ADDRESS_MASK =? ENDPOINT_RECOVERY) (as_endpoints a))
             altsettings
       end.

(** [recovery_tool/usbrcm_recovery_tool/usb_device_manager.cpp:243-280 getDevicePortPath]
    A device that has no port numbers answers none. *)
Definition getDevicePortPath (d : nat) : M string :=
  ports ← call (GetPortNumbers d);
  match ports with
  | [] => mret ""
  | _ =>
      busNumber ← call (GetBusNumber d);
      mret (to_string busNumber +:+ "-" +:+ join "." (to_string <$> ports))
  end.

(** [recovery_tool/usbrcm_recovery_tool/usb_device_manager.cpp:283-321 UsbControlSession]
    Whether the session is valid, with its port path. *)
Definition UsbControlSession (d : nat) (ctx : bool) : M bool :=
  if negb ctx then mret false else
  _ ← getDevicePortPath d;
  ret ← call (Open d);
  mret (ret =? LIBUSB_SUCCESS).

(** [recovery_tool/usbrcm_recovery_tool/usb_device_manager.cpp:323-330 ~UsbControlSession] *)
Definition UsbControlSession_destroy (d : nat) (valid : bool) : M () :=
  if valid then call (CloseHandle d) else mret ().

(** [recovery_tool/usbrcm_recovery_tool/usb_device_manager.cpp:450-484 cleanup]
    of a handle that is open, with the interface it was given. *)
Definition UsbDeviceHandle_cleanup (d : nat) (valid : bool) (claimedInterface : Z) : M () :=
  if negb valid then mret () else
  _ ← (if 0 <=? claimedInterface then
         _ ← call (ReleaseInterface d claimedInterface);
         _ ← call (AttachKernelDriver d claimedInterface);
         mret ()
       else mret ());
  call (CloseHandle d).

(** [recovery_tool/usbrcm_recovery_tool/usb_device_manager.cpp:355-426 UsbDeviceHandle]
    Whether the handle is valid. *)
Definition UsbDeviceHandle (d : nat) (ctx : bool) (interfaceNum : Z) : M bool :=
  if negb ctx then mret false else
  _ ← getDevicePortPath d;
  ret ← call (Open d);
  if negb (ret =? LIBUSB_SUCCESS) then mret false else
  active ← call (KernelDriverActive d interfaceNum);
  _ ← (if active =? 1 then call (DetachKernelDriver d interfaceNum) else mret 0);
  _ ← call (SetConfiguration d 1);
  ret ← call (ClaimInterface d interfaceNum);
  if negb (ret =? LIBUSB_SUCCESS) then
    _ ← UsbDeviceHandle_cleanup d true interfaceNum; mret false
  else mret true.

(** [recovery_tool/usbrcm_recovery_tool/usb_device_manager.cpp:490-503 isDeviceInRcmMode] *)
Definition isDeviceInRcmMode (d : nat) : M bool :=
  vidPid ← hasCorrectVidPid d;
  if vidPid : bool then hasRecoveryEndpoints d else mret false.

(** [recovery_tool/usbrcm_recovery_tool/usb_device_manager.cpp:554-573 findDevicesByVidPid]
    The loop over the device list. *)
Fixpoint match_devices (deviceList : list nat) : M (list UsbDevice) :=
  match deviceList with
  | [] => mret []
  | d :: deviceList =>
      matches ← hasCorrectVidPid d;
      if matches : bool then
        _ ← call (RefDevice d);
        portPath ← getDevicePortPath d;
        rest ← match_devices deviceList;
        mret ((d, portPath) :: rest)
      else match_devices deviceList
  end.

(** [recovery_tool/usbrcm_recovery_tool/usb_device_manager.cpp:505-587 findDevicesByVidPid] *)
Definition findDevicesByVidPid (ctx : bool) : M (list UsbDevice) :=
  if negb ctx then mret [] else
  deviceList ← call GetDeviceList;
  match deviceList with
  | None => mret []
  | Some deviceList =>
      matchingDevices ← match_devices deviceList;
      _ ← call (FreeDeviceList deviceList);
      mret matchingDevices
  end.

(** [recovery_tool/usbrcm_recovery_tool/usb_device_manager.cpp:87-93 ~UsbDevice]
    of every device of a vector. *)
Definition UsbDevice_destroy (device : UsbDevice) : M () := call (UnrefDevice device.1).
Definition destroy_devices (devices : list UsbDevice) : M () := for_each UsbDevice_destroy devices.

(** [recovery_tool/usbrcm_recovery_tool/usb_device_manager.cpp:589-633 findDeviceByPortPath]
    The device found is moved out of the vector; the others are destroyed with
    it. *)
Definition findDeviceByPortPath (ctx : bool) (portPath : string) : M (option UsbDevice) :=
  if negb ctx then mret None else
  if decide (portPath = ""%string) then mret None else
  devices ← findDevicesByVidPid ctx;
  match find_if (λ device : UsbDevice, bool_decide (device.2 = portPath)) devices with
  | Some (i, device) =>
      _ ← destroy_devices (delete i devices);
      mret (Some device)
  | None =>
      _ ← destroy_devices devices;
      mret None
  end.
End Devices.

(** ** The protocol of libusb *)

(** What a program holds: an initialised library, references to devices, open
    handles, claimed interfaces. *)
Record Lib := mkLib {
  lib_on : bool;
  lib_refs : gmultiset nat;
  lib_open : gset nat;
  lib_claimed : gset (nat * Z);
}.

Definition lib_off : Lib := mkLib false ∅ ∅ ∅.

(** A reference is needed to look at a device, an open handle to talk to it, a
    claimed interface for a bulk transfer. A handle is opened once, and closed
    when nothing is claimed on it; the library is left when nothing is held. *)
Definition lib_step (s : Lib) (e : Event) : option Lib :=
  let '(mkLib on refs opened claimed) := s in
  let looks d := allow (d ∈ refs ∨ d ∈ opened) s in
  let talks d := allow (d ∈ opened) s in
  match e with existT c r =>
    match c return reply c → option Lib with
    | LibusbInit => λ r, if r =? LIBUSB_SUCCESS then allow (on = false) (mkLib true refs opened claimed)
                         else Some s
    | LibusbExit => λ _, allow (on = true ∧ refs = ∅ ∧ opened = ∅) (mkLib false refs opened claimed)
    | GetDeviceList => λ r, allow (on = true)
        match r with
        | Some ds => mkLib on (list_to_set_disj ds ⊎ refs) opened claimed
        | None => s
        end
    | FreeDeviceList ds => λ _, allow (list_to_set_disj ds ⊆ refs)
                                  (mkLib on (refs ∖ list_to_set_disj ds) opened claimed)
    | RefDevice d => λ _, allow (d ∈ refs) (mkLib on ({[+ d +]} ⊎ refs) opened claimed)
    | UnrefDevice d => λ _, allow (d ∈ refs) (mkLib on (refs ∖ {[+ d +]}) opened claimed)
    | GetDeviceDescriptor d => λ _, looks d
    | GetActiveConfig d | GetPortNumbers d | GetBusNumber d => λ _, looks d
    | Open d => λ r, if r =? LIBUSB_SUCCESS
                     then allow (d ∈ refs ∧ d ∉ opened) (mkLib on refs ({[d]} ∪ opened) claimed)
                     else looks d
    | CloseHandle d => λ _, allow (d ∈ opened ∧ set_Forall (λ p, p.1 ≠ d) claimed)
                              (mkLib on refs (opened ∖ {[d]}) claimed)
    | KernelDriverActive d _ | DetachKernelDriver d _ | SetConfiguration d _
    | AttachKernelDriver d _ => λ _, talks d
    | ClaimInterface d i => λ r, allow (d ∈ opened)
        (if r =? LIBUSB_SUCCESS then mkLib on refs opened ({[(d, i)]} ∪ claimed) else s)
    | ReleaseInterface d i => λ _, allow (d ∈ opened) (mkLib on refs opened (claimed ∖ {[(d, i)]}))
    | ControlTransfer d _ _ _ _ _ => λ _, talks d
    | GetStringDescriptor d _ _ => λ _, talks d
    | BulkTransfer d _ _ => λ _, allow (d ∈ opened ∧ (d, INTERFACE_RECOVERY) ∈ claimed) s
    | SleepFor _ | ReadFile _ => λ _, Some s
    end r
  end.

Abbreviation conforms := (conforms lib_step).
Abbreviation quiet := (quiet lib_step).
Abbreviation lib_run := (run lib_step).

(** ** The objects conform *)

(** The states of a program that holds [refs], and perhaps one open device. *)
Definition lib_holding (refs : gmultiset nat) : Lib := mkLib true refs ∅ ∅.
Definition lib_session (refs : gmultiset nat) (d : nat) (ok : bool) : Lib :=
  mkLib true refs (if ok then {[d]} else ∅) ∅.
Definition lib_handle (refs : gmultiset nat) (d : nat) (ok : bool) : Lib :=
  mkLib true refs (if ok then {[d]} else ∅)
    (if ok then {[(d, INTERFACE_RECOVERY)]} else ∅).

Definition lib_context (ok : bool) : Lib := mkLib ok ∅ ∅ ∅.

(** The references of a vector of devices. *)
Definition refs_of (devices : list UsbDevice) : gmultiset nat := list_to_set_disj devices.*1.

Lemma refs_of_cons device devices : refs_of (device :: devices) = {[+ device.1 +]} ⊎ refs_of devices.
Proof. done. Qed.

Lemma refs_of_delete devices i device :
  devices !! i = Some device → refs_of devices = {[+ device.1 +]} ⊎ refs_of (delete i devices).
Proof.
  intros Hi. rewrite <-refs_of_cons. apply list_to_set_disj_perm, fmap_Permutation.
  by apply delete_Permutation.
Qed.

Create HintDb usb.
#[export] Hint Extern 1 (conforms _ (mret _) _) => (apply conforms_ret; done) : usb.

(** Discharge the requirement of a call. *)
Ltac allowed := cbn [lib_step lib_on lib_refs lib_open lib_claimed lib_holding lib_session];
  rewrite ?allow_true by (first [done | set_solver | multiset_solver]); try done.

Section Conform.
Context `{UsbEnv}.

Lemma UsbContext_conforms : conforms lib_off UsbContext lib_context.
Proof.
  unfold UsbContext. eapply conforms_bind; [|intros r; by apply conforms_ret].
  refine (conforms_call _ LibusbInit (λ r, lib_context (r =? LIBUSB_SUCCESS)) _).
  intros r. cbn [lib_step lib_off]. destruct (r =? LIBUSB_SUCCESS); by rewrite ?allow_true.
Qed.

Lemma UsbContext_destroy_conforms ok :
  conforms (lib_context ok) (UsbContext_destroy ok) (λ _, lib_off).
Proof.
  destruct ok; cbn [UsbContext_destroy]; [|by apply conforms_ret].
  refine (conforms_call _ LibusbExit _ _). intros r. cbn [lib_step lib_context].
  by rewrite allow_true.
Qed.

Lemma UsbDevice_destroy_conforms device refs :
  conforms (lib_holding ({[+ device.1 +]} ⊎ refs)) (UsbDevice_destroy device) (λ _, lib_holding refs).
Proof.
  refine (conforms_call _ (UnrefDevice device.1) _ _). intros r.
  cbn [lib_step lib_holding]. rewrite allow_true by multiset_solver.
  unfold lib_holding. do 2 f_equal. multiset_solver.
Qed.

Lemma looks_quiet s d c :
  d ∈ lib_refs s ∨ d ∈ lib_open s →
  c = GetDeviceDescriptor d ∨ c = GetActiveConfig d ∨ c = GetPortNumbers d ∨ c = GetBusNumber d →
  quiet s c.
Proof. destruct s. intros Hd [-> | [-> | [-> | ->]]] r; cbn in *; by rewrite allow_true. Qed.

Lemma hasCorrectVidPid_quiet s d : d ∈ lib_refs s → emits (quiet s) (hasCorrectVidPid d).
Proof.
  intros Hd. unfold hasCorrectVidPid. apply emits_bind; [|intros desc; apply emits_ret].
  apply (emits_call (reply := reply) _ (GetDeviceDescriptor d)). eapply looks_quiet; eauto.
Qed.

Lemma hasRecoveryEndpoints_quiet s d : d ∈ lib_refs s → emits (quiet s) (hasRecoveryEndpoints d).
Proof.
  intros Hd. unfold hasRecoveryEndpoints. apply emits_bind; [|intros config; apply emits_ret].
  apply (emits_call (reply := reply) _ (GetActiveConfig d)). eapply looks_quiet; eauto.
Qed.

Lemma isDeviceInRcmMode_quiet s d : d ∈ lib_refs s → emits (quiet s) (isDeviceInRcmMode d).
Proof.
  intros Hd. unfold isDeviceInRcmMode. apply emits_bind; [by apply hasCorrectVidPid_quiet|].
  intros [|]; [by apply hasRecoveryEndpoints_quiet|apply emits_ret].
Qed.

Lemma getDevicePortPath_quiet s d : d ∈ lib_refs s → emits (quiet s) (getDevicePortPath d).
Proof.
  intros Hd. unfold getDevicePortPath. apply emits_bind.
  { apply (emits_call (reply := reply) _ (GetPortNumbers d)). eapply looks_quiet; eauto. }
  intros [|p ports]; [apply emits_ret|]. apply emits_bind; [|intros b; apply emits_ret].
  apply (emits_call (reply := reply) _ (GetBusNumber d)). eapply looks_quiet; eauto 10.
Qed.

Lemma match_devices_conforms refs ds :
  list_to_set_disj ds ⊆ refs →
  conforms (lib_holding refs) (match_devices ds) (λ devices, lib_holding (refs_of devices ⊎ refs)).
Proof.
  revert refs. induction ds as [|d ds IH]; intros refs Hds; cbn [match_devices].
  { apply conforms_ret. unfold lib_holding, refs_of. f_equal. multiset_solver. }
  rewrite list_to_set_disj_cons in Hds.
  assert (Hd : d ∈ refs) by (clear IH; multiset_solver).
  assert (Hds' : list_to_set_disj ds ⊆ refs) by (clear IH; multiset_solver).
  assert (Hds2 : list_to_set_disj ds ⊆ {[+ d +]} ⊎ refs) by (clear IH; multiset_solver).
  clear Hds.
  eapply conforms_bind; [by apply conforms_quiet, hasCorrectVidPid_quiet|].
  intros [|]; [|by apply IH].
  eapply conforms_bind; [apply conforms_call; intros r; allowed; reflexivity|]. cbv beta.
  intros _. eapply conforms_bind.
  { apply conforms_quiet, getDevicePortPath_quiet. cbn [lib_refs]. clear IH. multiset_solver. }
  intros path. cbv beta. eapply conforms_bind; [by apply (IH ({[+ d +]} ⊎ refs))|].
  intros rest. apply conforms_ret. unfold lib_holding. f_equal.
  rewrite refs_of_cons. clear IH. multiset_solver.
Qed.

Lemma findDevicesByVidPid_conforms refs :
  conforms (lib_holding refs) (findDevicesByVidPid true)
    (λ devices, lib_holding (refs_of devices ⊎ refs)).
Proof.
  unfold findDevicesByVidPid. cbn [negb].
  assert (Hnil : refs_of [] ⊎ refs = refs) by (unfold refs_of; multiset_solver).
  eapply conforms_bind.
  { apply (conforms_call (reply := reply) _ GetDeviceList
      (λ r, lib_holding (match r with Some ds => list_to_set_disj ds | None => ∅ end ⊎ refs))).
    intros [ds|]; allowed. unfold lib_holding. repeat f_equal. multiset_solver. }
  intros [ds|].
  - eapply conforms_bind; [apply match_devices_conforms; multiset_solver|].
    intros devices. eapply conforms_bind.
    { apply conforms_call. intros r. allowed. }
    intros []. apply conforms_ret. unfold lib_holding. f_equal. multiset_solver.
  - apply conforms_ret. done.
Qed.

Lemma destroy_devices_conforms refs devices :
  conforms (lib_holding (refs_of devices ⊎ refs)) (destroy_devices devices)
    (λ _, lib_holding refs).
Proof.
  revert refs. induction devices as [|device devices IH]; intros refs; unfold destroy_devices.
  { apply conforms_ret. unfold lib_holding, refs_of. f_equal. multiset_solver. }
  cbn [for_each]. eapply conforms_bind; [|intros ?; apply IH].
  rewrite refs_of_cons, <-(assoc_L (⊎)). apply UsbDevice_destroy_conforms.
Qed.

Lemma findDeviceByPortPath_conforms refs path :
  conforms (lib_holding refs) (findDeviceByPortPath true path)
    (λ r, lib_holding (match r with Some device => {[+ device.1 +]} | None => ∅ end ⊎ refs)).
Proof.
  assert (Hnil : ∅ ⊎ refs = refs) by multiset_solver.
  unfold findDeviceByPortPath. cbn [negb]. case_decide.
  { apply conforms_ret. by rewrite Hnil. }
  eapply conforms_bind; [apply findDevicesByVidPid_conforms|]. intros devices.
  destruct (find_if _ devices) as [[i device]|] eqn:Hf.
  - apply list_find_Some in Hf as (Hi & _). rewrite (refs_of_delete devices i device) by done.
    replace ({[+ device.1 +]} ⊎ refs_of (delete i devices) ⊎ refs)
      with (refs_of (delete i devices) ⊎ ({[+ device.1 +]} ⊎ refs)) by multiset_solver.
    eapply conforms_bind; [apply destroy_devices_conforms|]. intros []. by apply conforms_ret.
  - eapply conforms_bind; [apply destroy_devices_conforms|]. intros [].
    apply conforms_ret. by rewrite Hnil.
Qed.

Lemma UsbControlSession_conforms refs d :
  d ∈ refs →
  conforms (lib_holding refs) (UsbControlSession d true) (lib_session refs d).
Proof.
  intros Hd. unfold UsbControlSession. cbn [negb].
  eapply conforms_bind; [by apply conforms_quiet, getDevicePortPath_quiet|]. intros ?. cbv beta.
  eapply conforms_bind.
  { apply (conforms_call (reply := reply) _ (Open d) (λ r, lib_session refs d (r =? LIBUSB_SUCCESS))).
    intros r. cbn [lib_step lib_holding]. unfold lib_session.
    destruct (r =? LIBUSB_SUCCESS); rewrite allow_true by set_solver; [|done].
    do 2 f_equal. set_solver. }
  intros r. by apply conforms_ret.
Qed.

Lemma UsbControlSession_destroy_conforms refs d ok :
  conforms (lib_session refs d ok) (UsbControlSession_destroy d ok) (λ _, lib_holding refs).
Proof.
  destruct ok; cbn [UsbControlSession_destroy]; [|by apply conforms_ret].
  refine (conforms_call _ _ _ _); intros r. cbn [lib_step lib_session].
  rewrite allow_true by set_solver. unfold lib_holding. do 2 f_equal. set_solver.
Qed.

Lemma UsbDeviceHandle_cleanup_conforms (refs : gmultiset nat) (d : nat) (claimed : gset (nat * Z)) (ok : bool) :
  (∀ p, p ∈ claimed → p = (d, INTERFACE_RECOVERY)) →
  conforms (mkLib true refs (if ok then {[d]} else ∅) (if ok then claimed else ∅))
    (UsbDeviceHandle_cleanup d ok INTERFACE_RECOVERY) (λ _, lib_holding refs).
Proof.
  intros Hc. destruct ok; cbn [UsbDeviceHandle_cleanup negb]; [|by apply conforms_ret].
  change (0 <=? INTERFACE_RECOVERY) with true. cbv beta iota.
  eapply conforms_bind with (u := λ _, mkLib true refs {[d]} ∅).
  - eapply conforms_bind.
    { apply (conforms_call (reply := reply) _ (ReleaseInterface d _) (λ _, mkLib true refs {[d]} ∅)). intros r.
      cbn [lib_step]. rewrite allow_true by set_solver. do 2 f_equal.
      apply leibniz_equiv. intros p. set_solver. }
    intros r. eapply conforms_bind; [|intros ?; by apply conforms_ret].
    apply (conforms_call (reply := reply) _ (AttachKernelDriver d _) (λ _, mkLib true refs {[d]} ∅)).
    intros r'. cbn [lib_step]. by rewrite allow_true by set_solver.
  - intros []. refine (conforms_call _ _ _ _); intros r. cbn [lib_step].
    rewrite allow_true by set_solver. unfold lib_holding. do 2 f_equal. set_solver.
Qed.

Lemma talk_conforms refs d claimed c :
  (∃ i, c = KernelDriverActive d i) ∨ (∃ i, c = DetachKernelDriver d i) ∨
  (∃ i, c = SetConfiguration d i) →
  conforms (mkLib true refs {[d]} claimed) (call c) (λ _, mkLib true refs {[d]} claimed).
Proof.
  intros [[i ->] | [[i ->] | [i ->]]]; refine (conforms_call _ _ _ _); intros r; cbn [lib_step];
    by rewrite allow_true by set_solver.
Qed.

Lemma UsbDeviceHandle_conforms refs d :
  d ∈ refs →
  conforms (lib_holding refs) (UsbDeviceHandle d true INTERFACE_RECOVERY) (lib_handle refs d).
Proof.
  intros Hd. unfold UsbDeviceHandle. cbn [negb].
  eapply conforms_bind; [by apply conforms_quiet, getDevicePortPath_quiet|]. intros ?. cbv beta.
  eapply conforms_bind.
  { apply (conforms_call (reply := reply) _ (Open d) (λ r, lib_session refs d (r =? LIBUSB_SUCCESS))).
    intros r. cbn [lib_step lib_holding]. unfold lib_session.
    destruct (r =? LIBUSB_SUCCESS); rewrite allow_true by set_solver; [|done].
    do 2 f_equal. set_solver. }
  intros r. cbv beta. destruct (r =? LIBUSB_SUCCESS); cbn [negb]; [|by apply conforms_ret].
  cbv beta iota delta [lib_session].
  eapply conforms_bind with (u := λ _, mkLib true refs {[d]} ∅).
  { apply (talk_conforms refs d ∅ (KernelDriverActive d _)). eauto. }
  intros active.
  eapply conforms_bind with (u := λ _, mkLib true refs {[d]} ∅).
  { destruct (active =? 1); [|by apply conforms_ret].
    apply (talk_conforms refs d ∅ (DetachKernelDriver d _)). eauto. }
  intros ?. eapply conforms_bind with (u := λ _, mkLib true refs {[d]} ∅).
  { apply (talk_conforms refs d ∅ (SetConfiguration d 1)). eauto. }
  intros ?.
  eapply conforms_bind.
  { apply (conforms_call (reply := reply) _ (ClaimInterface d INTERFACE_RECOVERY)
      (λ r, mkLib true refs {[d]} (if r =? LIBUSB_SUCCESS then {[(d, INTERFACE_RECOVERY)]} else ∅))).
    intros r'. cbn [lib_step]. rewrite allow_true by set_solver.
    destruct (r' =? LIBUSB_SUCCESS); do 2 f_equal; set_solver. }
  intros r'. cbv beta. destruct (r' =? LIBUSB_SUCCESS); cbn [negb]; [by apply conforms_ret|].
  eapply conforms_bind; [apply (UsbDeviceHandle_cleanup_conforms refs d ∅ true); set_solver|].
  intros []. by apply conforms_ret.
Qed.
End Conform.
