(* ===== verification/RcmRecovery.v ===== *)
(** * RCM recovery of a CPU over USB

    src/recovery_tool/usbrcm_recovery_tool/perform_rcm_recovery.cpp: the images
    of a device are sent over its bulk endpoint, one after the other, and the
    progress codes the CPU logs are followed after each.

    The JSON object the function fills is [Output]: a failure has a message and
    an error code, a success perhaps the mark of an empty DOT blob. Error codes
    are the numbers of the enumeration. *)

From stdpp Require Import list strings sorting gmultiset sets.
From Equations Require Import Equations.
From S2P Require Import Prelude Bytes Text Trace UsbIo ProgressCode ProgressQueue UsbDevices.

(** ** Data *)

(** [recovery_tool/usbrcm_recovery_tool/perform_rcm_recovery.cpp:30-40 RCM_BULK_OUT_ENDPOINT]
    and the other constants of the transfer. *)
Definition RCM_BULK_OUT_ENDPOINT : Z := 0x08.
Definition BULK_CHUNK_SIZE : nat := 512.
Definition PROGRESS_CHECK_INTERVAL_MS : Z := 500.
Definition POST_IMAGE_MONITOR_ITERATIONS : nat := 10.
Definition INTER_IMAGE_DELAY_MS : Z := 250.

(** [recovery_tool/common/message_registry.hpp:127-142 USBRCMRecoveryErrorCode]
    The codes the function gives by name. *)
Definition DeviceNotFound : Z := 0x01.
Definition InitializationFailed : Z := 0x02.
Definition ImageTransferFailed : Z := 0x04.
Definition FileOpenFailure : Z := 0x10.
Definition InvalidImageOrder : Z := 0x11.
Definition USBCommunicationError : Z := 0x12.
Definition DOTBlobRequired : Z := 0x13.
Definition S2ABlobNotSupported : Z := 0x14.
Definition PscRomMutableDotHeaderCheckFail : Z := 0x2F.
Definition PscRomMutableDotIntegrityFail : Z := 0x30.
Definition PscRomMutableDotSanityFail : Z := 0x31.

(** [recovery_tool/usbrcm_recovery_tool/perform_rcm_recovery.cpp:43-48 ProgressStatus] *)
Inductive ProgressStatus := PS_Continue | PS_Completed | PS_Error.

Inductive Output :=
| Failed (error : string) (code : Z)
| Successful (emptyDotBlobAccepted : bool).

(** What is kept from one look at the log to the next: the out parameters of
    the functions that look. *)
Record Monitor := mkMonitor {
  lastProcessedTimestamp : Z;
  errorDetail : string;
  errorCode : Z;
}.

#[export] Instance ProgressStatus_eq_dec : EqDecision ProgressStatus.
Proof. solve_decision. Defined.

(** ** Error codes *)

(** [recovery_tool/usbrcm_recovery_tool/perform_rcm_recovery.cpp:55-135 pscRomErrorToRecoveryErrorCode]
    The enumerators of the cases 0x01 to 0x22 are 0x21 to 0x42. *)
Definition pscRomErrorToRecoveryErrorCode (operation : Z) : Z :=
  if (0x01 <=? operation) && (operation <=? 0x22) then 0x20 + operation
  else ImageTransferFailed.

(** [recovery_tool/usbrcm_recovery_tool/perform_rcm_recovery.cpp:142-182 pscFmcErrorToRecoveryErrorCode]
    The enumerators of the cases 0x01 to 0x10 are 0x51 to 0x60. *)
Definition pscFmcErrorToRecoveryErrorCode (operation : Z) : Z :=
  if (0x01 <=? operation) && (operation <=? 0x10) then 0x50 + operation
  else ImageTransferFailed.

(** [recovery_tool/usbrcm_recovery_tool/perform_rcm_recovery.cpp:189-217 progressCodeToRecoveryErrorCode] *)
Definition progressCodeToRecoveryErrorCode (progressCode : Z) : Z :=
  let info := getProgressCodeInfo progressCode in
  if negb (bool_decide (pi_type info = Error)) then ImageTransferFailed else
  match pi_subClass info with
  | PSC_ROM => pscRomErrorToRecoveryErrorCode (pi_operation info)
  | PSC_FMC => pscFmcErrorToRecoveryErrorCode (pi_operation info)
  | _ => ImageTransferFailed
  end.

(** [recovery_tool/usbrcm_recovery_tool/perform_rcm_recovery.cpp:229-250 isEmptyDotBlob] *)
Definition isEmptyDotBlob (data : buffer) : bool :=
  (length data =? 1024)%nat &&
  forallb (λ p : nat * Z, ((8 <=? p.1) && (p.1 <? 12))%nat || (p.2 =? 0)) (imap pair data).

(** [recovery_tool/usbrcm_recovery_tool/perform_rcm_recovery.cpp:252-264 isMutableDotSoftIgnorableError] *)
Definition isMutableDotSoftIgnorableError (code : Z) : bool :=
  (code =? PscRomMutableDotHeaderCheckFail) || (code =? PscRomMutableDotIntegrityFail) ||
  (code =? PscRomMutableDotSanityFail).

(** ** Progress *)

(** [recovery_tool/usbrcm_recovery_tool/perform_rcm_recovery.cpp:421-466 checkForNewProgressCodes]
    The loop over the new entries. *)
Fixpoint check_entries (entries : list CPUProgressLogEntry) (m : Monitor)
    : ProgressStatus * Monitor :=
  match entries with
  | [] => (PS_Continue, m)
  | e :: entries =>
      if progressCode e =? 0 then check_entries entries m else
      let info := getProgressCodeInfo (progressCode e) in
      if isRecoveryComplete (progressCode e) then (PS_Completed, m) else
      if bool_decide (pi_type info = Error) then
        (PS_Error, mkMonitor (lastProcessedTimestamp m)
                     ("Recovery failed: " +:+ pi_name info)
                     (progressCodeToRecoveryErrorCode (progressCode e))) else
      check_entries entries (mkMonitor (timestamp e) (errorDetail m) (errorCode m))
  end.

(** What a bulk transfer of data came to. *)
Inductive SendResult := Sent | SendFailed (libusbError : option Z).

Section Recovery.
Context `{UsbEnv, StdSort}.

(** [recovery_tool/usbrcm_recovery_tool/perform_rcm_recovery.cpp:266-302 readFileToBuffer]
    A file that does not open, is empty or does not read gives none. *)
Definition readFileToBuffer (filePath : string) : M (option buffer) :=
  file ← call (ReadFile filePath);
  mret match file with Some (b :: data) => Some (b :: data) | _ => None end.

(** [recovery_tool/usbrcm_recovery_tool/perform_rcm_recovery.cpp:319-381 sendBulkData]
    The argument is the data from [totalSent] on. *)
Equations? sendBulkData (d : nat) (data : buffer) : M SendResult by wf (length data) lt :=
  sendBulkData d [] := mret Sent;
  sendBulkData d (b :: data) :=
    '(ret, actualLength) ←
      call (BulkTransfer d RCM_BULK_OUT_ENDPOINT (take BULK_CHUNK_SIZE (b :: data)));
    if negb (ret =? LIBUSB_SUCCESS) then mret (SendFailed (Some ret)) else
    match decide (actualLength ≤ 0) with
    | left _ => mret (SendFailed None)
    | right _ => sendBulkData d (drop (Z.to_nat actualLength) (b :: data))
    end.
Proof.
  change (length (drop (Z.to_nat actualLength) (b :: data)) < S (length data))%nat.
  rewrite length_drop. cbn [length]. lia.
Defined.

(** [recovery_tool/usbrcm_recovery_tool/perform_rcm_recovery.cpp:404-467 checkForNewProgressCodes] *)
Definition checkForNewProgressCodes (d : nat) (m : Monitor) : M (ProgressStatus * Monitor) :=
  '(ok, entries) ← readCpuPcqEntriesAfter d (lastProcessedTimestamp m);
  mret (if negb (ok : bool) then (PS_Continue, m) else check_entries entries m).

(** [recovery_tool/usbrcm_recovery_tool/perform_rcm_recovery.cpp:490-510 monitorProgressAfterImageTransfer] *)
Fixpoint monitorProgressAfterImageTransfer (iterations : nat) (d : nat) (m : Monitor)
    : M (ProgressStatus * Monitor) :=
  match iterations with
  | O => mret (PS_Continue, m)
  | S iterations =>
      _ ← call (SleepFor PROGRESS_CHECK_INTERVAL_MS);
      '(status, m) ← checkForNewProgressCodes d m;
      if bool_decide (status = PS_Continue)
      then monitorProgressAfterImageTransfer iterations d m
      else mret (status, m)
  end.

(** ** The recovery *)

(** [recovery_tool/usbrcm_recovery_tool/perform_rcm_recovery.cpp:653-774 performUsbRecovery]
    The loop over the images from index [i] on, of [total], and what follows
    it. *)
Fixpoint send_images (d : nat) (blobPath : string) (total i : nat) (images : list string)
    (emptyDotBlobAccepted : bool) (m : Monitor) : M Output :=
  match images with
  | [] => mret (Successful emptyDotBlobAccepted)
  | imagePath :: images =>
      file ← readFileToBuffer imagePath;
      match file with
      | None => mret (Failed ("Failed to read image file: " +:+ imagePath) FileOpenFailure)
      | Some imageData =>
          let hasBlob := negb (bool_decide (blobPath = ""%string)) in
          let firstImageAfterDOTBlob := (i =? 1)%nat && hasBlob in
          sent ← sendBulkData d imageData;
          match sent with
          | SendFailed libusbErr =>
              mret (if emptyDotBlobAccepted && firstImageAfterDOTBlob &&
                       bool_decide (libusbErr = Some LIBUSB_ERROR_TIMEOUT)
                    then Successful true
                    else Failed ("Failed to send image " +:+ to_string (Z.of_nat i + 1) +:+
                                 " of " +:+ to_string (Z.of_nat total) +:+ ": " +:+
                                 path_filename imagePath) ImageTransferFailed)
          | Sent =>
              '(status, m) ← monitorProgressAfterImageTransfer POST_IMAGE_MONITOR_ITERATIONS d m;
              let isInitialEmptyDotAcceptable :=
                hasBlob && bool_decide (imagePath = blobPath) && isEmptyDotBlob imageData &&
                isMutableDotSoftIgnorableError (errorCode m) in
              let isFollowUpMutableDotIgnored :=
                emptyDotBlobAccepted && isMutableDotSoftIgnorableError (errorCode m) in
              let next emptyDotBlobAccepted :=
                _ ← (if (i <? total - 1)%nat then call (SleepFor INTER_IMAGE_DELAY_MS)
                     else mret ());
                send_images d blobPath total (S i) images emptyDotBlobAccepted m in
              match status with
              | PS_Error =>
                  if isInitialEmptyDotAcceptable || isFollowUpMutableDotIgnored
                  then next (emptyDotBlobAccepted || isInitialEmptyDotAcceptable)
                  else mret (Failed (errorDetail m) (errorCode m))
              | PS_Completed => mret (Successful false)
              | PS_Continue => next emptyDotBlobAccepted
              end
          end
      end
  end.

(** [recovery_tool/usbrcm_recovery_tool/perform_rcm_recovery.cpp:584-635 performUsbRecovery]
    The images to send, given the ECID, or the failure. *)
Definition finalImagePaths (ecid : option buffer) (imagePaths : list string) (blobPath : string)
    : Output + list string :=
  match ecid with
  | None => inr imagePaths
  | Some ecid =>
      match getBlobRequirement ecid with
      | S2ABlob => inl (Failed "S2A blob required - not supported" S2ABlobNotSupported)
      | DOTBlob =>
          if decide (blobPath = ""%string)
          then inl (Failed "DOT blob required but not provided" DOTBlobRequired)
          else inr (blobPath :: imagePaths)
      | NoBlob => inr imagePaths
      end
  end.

(** [recovery_tool/usbrcm_recovery_tool/perform_rcm_recovery.cpp:575-774 performUsbRecovery]
    With the handle open. *)
Definition recover (d : nat) (imagePaths : list string) (blobPath : string) : M Output :=
  ecid ← readDeviceEcid d;
  match finalImagePaths ecid imagePaths blobPath with
  | inl failure => mret failure
  | inr images =>
      send_images d blobPath (length images) 0 images false (mkMonitor 0 "" ImageTransferFailed)
  end.

(** [recovery_tool/usbrcm_recovery_tool/perform_rcm_recovery.cpp:514-784 performUsbRecovery]
    The objects are destroyed in the reverse order of their construction. *)
Definition performUsbRecovery (portPath : string) (imagePaths : list string) (blobPath : string)
    : M Output :=
  if decide (portPath = ""%string) then
    mret (Failed "Port path cannot be empty" DeviceNotFound) else
  if decide (imagePaths = []) then
    mret (Failed "At least one recovery image must be provided" InvalidImageOrder) else
  ctx ← UsbContext;
  result ←
    (if negb ctx then
       mret (Failed "Failed to initialize USB subsystem" InitializationFailed)
     else
       device ← findDeviceByPortPath ctx portPath;
       match device with
       | None => mret (Failed ("Device not found at port path: " +:+ portPath) DeviceNotFound)
       | Some device =>
           deviceHandle ← UsbDeviceHandle device.1 ctx INTERFACE_RECOVERY;
           result ←
             (if negb deviceHandle then
                mret (Failed "Failed to open USB device and claim RCM interface 3"
                        USBCommunicationError)
              else recover device.1 imagePaths blobPath);
           _ ← UsbDeviceHandle_cleanup device.1 deviceHandle INTERFACE_RECOVERY;
           _ ← UsbDevice_destroy device;
           mret result
       end);
  _ ← UsbContext_destroy ctx;
  mret result.
End Recovery.

(** ** The protocol is kept *)

(** What a recovery does with a device that is open and claimed: it looks at
    it, reads files and sends data. *)
Definition looking (d : nat) (c : Call) : Prop :=
  match c with
  | ControlTransfer d' _ _ _ _ _ | GetStringDescriptor d' _ _ | GetDeviceDescriptor d' => d' = d
  | SleepFor _ | ReadFile _ => True
  | _ => False
  end.

(** What it does with the device once its ECID is known and no data is sent. *)
Definition following (d : nat) (c : Call) : Prop :=
  match c with
  | ControlTransfer d' _ _ _ _ _ => d' = d
  | SleepFor _ | ReadFile _ => True
  | _ => False
  end.

Definition recovering (d : nat) (c : Call) : Prop :=
  match c with BulkTransfer d' _ _ => d' = d | _ => looking d c end.

Lemma looking_recovering d c : looking d c → recovering d c.
Proof. by destruct c. Qed.

Lemma following_looking d c : following d c → looking d c.
Proof. by destruct c. Qed.

Section Emits.
Context `{UsbEnv, StdSort} (d : nat).

Lemma readRegister32_emits addr : emits (following d) (readRegister32 d addr).
Proof.
  unfold readRegister32. apply emits_bind; [|intros [n b]; apply emits_ret].
  exact (emits_call _ (register_read d addr) eq_refl).
Qed.

Lemma pcq_loop_emits n size idx entries : emits (following d) (pcq_loop n d size idx entries).
Proof.
  revert idx entries. induction n as [|n IH]; intros idx entries; [apply emits_ret|].
  cbn [pcq_loop]. case_match; [apply emits_ret|].
  apply emits_bind; [apply readRegister32_emits|intros t].
  apply emits_bind; [apply readRegister32_emits|intros c].
  destruct t, c; try apply emits_ret. case_match; apply IH.
Qed.

Lemma readCpuPcqEntries_emits : emits (following d) (readCpuPcqEntries d).
Proof.
  unfold readCpuPcqEntries, readCpuPcqPointers.
  apply emits_bind; [apply emits_bind; [apply readRegister32_emits|intros r]|intros p];
    repeat (case_match; try apply emits_ret).
  apply emits_bind; [apply pcq_loop_emits|intros [ok l]; apply emits_ret].
Qed.

Lemma readDeviceEcid_emits : emits (looking d) (readDeviceEcid d).
Proof.
  unfold readDeviceEcid. apply emits_bind; [exact (emits_call _ (GetDeviceDescriptor d) eq_refl)|].
  intros [desc|]; [|apply emits_ret]. case_match; [apply emits_ret|].
  apply emits_bind; [exact (emits_call _ (GetStringDescriptor d _ _) eq_refl)|].
  intros [r b]. repeat case_match; apply emits_ret.
Qed.

Lemma sendBulkData_emits data : emits (recovering d) (sendBulkData d data).
Proof.
  induction data as [data IH] using (induction_ltof1 _ length).
  destruct data as [|b data]; simp sendBulkData; [apply emits_ret|].
  apply emits_bind; [exact (emits_call _ (BulkTransfer d _ _) eq_refl)|].
  intros [ret n]. case_match; [apply emits_ret|]. case_match; [apply emits_ret|].
  apply IH. unfold ltof. rewrite length_drop. cbn [length]. lia.
Qed.

Lemma monitor_emits n m : emits (following d) (monitorProgressAfterImageTransfer n d m).
Proof.
  revert m. induction n as [|n IH]; intros m; [apply emits_ret|].
  cbn [monitorProgressAfterImageTransfer].
  apply emits_bind; [by apply (emits_call (reply := reply) _ (SleepFor _))|intros _].
  apply emits_bind; [|intros [s m']; case_match; [apply IH|apply emits_ret]].
  unfold checkForNewProgressCodes, readCpuPcqEntriesAfter.
  apply emits_bind; [|intros [ok l]; apply emits_ret].
  apply emits_bind; [apply readCpuPcqEntries_emits|intros [ok l]; apply emits_ret].
Qed.

Lemma send_images_emits blobPath total i images e m :
  emits (recovering d) (send_images d blobPath total i images e m).
Proof.
  revert i e m. induction images as [|image images IH]; intros i e m; [apply emits_ret|].
  cbn [send_images]. apply emits_bind.
  { apply emits_bind; [by apply (emits_call (reply := reply) _ (ReadFile _))|intros f; apply emits_ret]. }
  intros [data|]; [|apply emits_ret].
  apply emits_bind; [apply sendBulkData_emits|intros [|err]; [|apply emits_ret]].
  apply emits_bind;
    [eapply emits_impl, monitor_emits; intros c Hc; by apply looking_recovering, following_looking|intros [status m']]. cbv zeta.
  assert (Hnext : ∀ e', emits (recovering d)
    (_ ← (if (i <? total - 1)%nat then call (SleepFor INTER_IMAGE_DELAY_MS) else mret ());
     send_images d blobPath total (S i) images e' m')).
  { intros e'. apply emits_bind; [|intros _; apply IH].
    case_match; [by apply (emits_call (reply := reply) _ (SleepFor _))|apply emits_ret]. }
  destruct status; [apply Hnext|apply emits_ret|].
  destruct (_ || _); [apply Hnext|apply emits_ret].
Qed.

Lemma recover_emits images blobPath : emits (recovering d) (recover d images blobPath).
Proof.
  unfold recover.
  apply emits_bind; [eapply emits_impl, readDeviceEcid_emits; apply looking_recovering|intros ecid].
  case_match; [apply emits_ret|apply send_images_emits].
Qed.

Lemma recovering_quiet refs c : recovering d c → quiet (lib_handle refs d true) c.
Proof.
  unfold quiet, lib_handle. destruct c; cbn [recovering]; try done; intros Hd r; try subst;
    cbn [lib_step]; rewrite ?allow_true by set_solver; done.
Qed.
End Emits.

(** C27: Whatever the environment answers, a recovery keeps the protocol of libusb:
    no call on a device that is not referenced, no transfer on a handle that
    is not open, no bulk transfer on an interface that is not claimed, and at
    the end nothing is held. *)
Theorem recovery_conforms `{UsbEnv, StdSort} portPath imagePaths blobPath :
  conforms lib_off (performUsbRecovery portPath imagePaths blobPath) (λ _, lib_off).
Proof.
  unfold performUsbRecovery. case_decide; [by apply conforms_ret|].
  case_decide; [by apply conforms_ret|].
  eapply conforms_bind; [apply UsbContext_conforms|]. intros ctx.
  eapply conforms_bind; [|intros r; eapply conforms_bind;
    [apply UsbContext_destroy_conforms|intros []; by apply conforms_ret]].
  destruct ctx; cbn [negb]; [|by apply conforms_ret].
  eapply conforms_bind; [apply findDeviceByPortPath_conforms|]. intros [device|].
  2: by apply conforms_ret.
  eapply conforms_bind; [apply UsbDeviceHandle_conforms; multiset_solver|]. intros ok.
  eapply conforms_bind with (u := λ _, lib_handle _ _ ok).
  { destruct ok; cbn [negb]; [|by apply conforms_ret].
    eapply conforms_quiet, emits_impl; [apply recovering_quiet|apply recover_emits]. }
  intros r. eapply conforms_bind; [apply UsbDeviceHandle_cleanup_conforms; set_solver|]. intros [].
  eapply conforms_bind; [apply UsbDevice_destroy_conforms|]. intros []. by apply conforms_ret.
Qed.

(** ** The blob an ECID asks for *)

Lemma ownership_parity ecid :
  getOwnershipStatus ecid .& 1 =
    swapNibbles (ecid_byte ecid OPT_OWNERSHIP_STATUS_BYTE_LOW) .& 1.
Proof.
  unfold getOwnershipStatus, OPT_OWNERSHIP_STATUS_MASK. rewrite <-Z.land_assoc.
  change (0x1FF .& 1) with (Z.ones 1). rewrite Z.land_ones by lia. unfold wrap.
  rewrite Z.mod_mod_divide by (by exists (2 ^ 15)).
  rewrite <-Z.land_ones, Z.land_lor_distr_l, (Z.land_ones (_ ≪ _)) by lia.
  rewrite Z.shiftl_mul_pow2 by lia. change (2 ^ 8) with (128 * 2).
  by rewrite Z.mul_assoc, Z.mod_mul by done.
Qed.

(** The blob a device needs is a matter of two bits of its ECID: bit 1 of byte
    28, the OEM key, and bit 4 of byte 20, the parity of the ownership fuses
    once the nibbles are swapped back. *)
Theorem blob_requirement_bits ecid (Hecid : bytes_ok ecid) :
  getBlobRequirement ecid =
    if Z.testbit (ecid_byte ecid 28) 1 then S2ABlob
    else if Z.testbit (ecid_byte ecid 20) 4 then DOTBlob else NoBlob.
Proof.
  assert (Hb : ∀ i, word 8 (ecid_byte ecid i)).
  { intros i. unfold ecid_byte. destruct (ecid !! i) eqn:Hi; [|by vm_compute].
    by eapply Forall_lookup in Hi. }
  unfold getBlobRequirement, isS2ABlobRequired, isDOTBlobRequired, isOemKeyValid.
  unfold OPT_OWNERSHIP_ODD_MASK. rewrite ownership_parity.
  unfold BSI_OEM_KEY_VALID_BYTE, OPT_OWNERSHIP_STATUS_BYTE_LOW, BSI_OEM_KEY_VALID_MASK.
  assert (H28 : eqb (negb (ecid_byte ecid 28 .& 2 =? 0)) (Z.testbit (ecid_byte ecid 28) 1) = true).
  { apply (word_check (λ v, eqb (negb (v .& 2 =? 0)) (Z.testbit v 1)) 8); [lia|by vm_compute|done]. }
  assert (H20 : eqb (negb (swapNibbles (ecid_byte ecid 20) .& 1 =? 0))
                    (Z.testbit (ecid_byte ecid 20) 4) = true).
  { apply (word_check (λ v, eqb (negb (swapNibbles v .& 1 =? 0)) (Z.testbit v 4)) 8);
      [lia|by vm_compute|done]. }
  apply eqb_prop in H28 as ->. apply eqb_prop in H20 as ->.
  by destruct (Z.testbit _ 1).
Qed.

(** What the device tells: its serial number, as the first call for it was answered. *)
Definition serial_of (es : list Event) : option (Z * buffer) :=
  head (omap (λ e : Event, let '(existT c r) := e in
    match c return reply c → option (Z * buffer) with
    | GetStringDescriptor _ _ _ => λ r, Some r
    | _ => λ _, None
    end r) es).

(** Its ECID: the 32 bytes whose hexadecimal digits the serial number starts with. *)
Definition ecid_told (es : list Event) : option buffer :=
  match serial_of es with
  | Some (n, serial) => if n <? 64 then None else mapM from_chars2 (chunks 2 (take 64 serial))
  | None => None
  end.

(** The files that are due to a device with an ECID, or the code of the failure: with an
    OEM key, bit 1 of byte 28, none can be sent; with an odd number of ownership fuses,
    bit 4 of byte 20, the DOT blob goes first. *)
Definition due_files (ecid : option buffer) (images : list string) (blobPath : string) : Z + list string :=
  match ecid with
  | None => inr images
  | Some ecid =>
      if Z.testbit (default 0 (ecid !! 28%nat)) 1 then inl 0x14
      else if Z.testbit (default 0 (ecid !! 20%nat)) 4 then
        if decide (blobPath = ""%string) then inl 0x13 else inr (blobPath :: images)
      else inr images
  end.

Lemma finalImagePaths_due ecid images blobPath :
  (∀ bytes, ecid = Some bytes → bytes_ok bytes) →
  match due_files ecid images blobPath with
  | inl code => ∃ error, finalImagePaths ecid images blobPath = inl (Failed error code)
  | inr files => finalImagePaths ecid images blobPath = inr files
  end.
Proof.
  intros Hok. destruct ecid as [ecid|]; [|done]. cbn [due_files finalImagePaths].
  rewrite blob_requirement_bits by by apply Hok. unfold ecid_byte.
  destruct (Z.testbit _ 1); [by eexists|]. destruct (Z.testbit _ 4); [|done]. case_decide; [by eexists|done].
Qed.

Lemma from_chars2_word l b : from_chars2 l = Some b → word 8 b.
Proof.
  destruct l as [|hi [|lo [|? ?]]]; try done. cbn [from_chars2].
  assert (Hhex : ∀ c v, hex_value c = Some v → 0 ≤ v < 16).
  { intros c v. unfold hex_value. repeat case_match; intros [= <-]; bool_to_prop; lia. }
  destruct (hex_value hi) as [h|] eqn:Hh; [|done]. destruct (hex_value lo) as [l|] eqn:Hl; [|done].
  intros [= <-]. apply Hhex in Hh, Hl. unfold word. lia.
Qed.

Lemma ecid_told_ok es bytes : ecid_told es = Some bytes → bytes_ok bytes.
Proof.
  unfold ecid_told. destruct (serial_of es) as [[n serial]|]; [|done]. case_match; [done|].
  intros Hm%mapM_Some. induction Hm as [|l b ls bs Hb _ IH]; constructor; [by eapply from_chars2_word|done].
Qed.

Lemma serial_of_app es es' : serial_of (es ++ es') = match serial_of es with Some r => Some r | None => serial_of es' end.
Proof. unfold serial_of. rewrite omap_app. by destruct (omap _ es). Qed.

Lemma ecid_told_app es es' : serial_of es' = None → ecid_told (es ++ es') = ecid_told es.
Proof. intros He. unfold ecid_told. rewrite serial_of_app, He. by destruct (serial_of es). Qed.

(** Calls that ask for no string. *)
Definition stringless (c : Call) : Prop := match c with GetStringDescriptor _ _ _ => False | _ => True end.

Lemma stringless_serial es : calls_ok stringless es → serial_of es = None.
Proof.
  induction 1 as [|[c r] es Hc Hes IH]; [done|]. change (?x :: es) with ([x] ++ es). rewrite serial_of_app.
  by destruct c.
Qed.

Lemma following_stringless d c : following d c → stringless c.
Proof. by destruct c. Qed.

Lemma readDeviceEcid_tells `{UsbEnv} d : does (readDeviceEcid d) (λ r es, r = ecid_told es).
Proof.
  unfold readDeviceEcid. apply (does_step (reply := reply) (GetDeviceDescriptor d)). intros [desc|]; [|by apply does_ret].
  case_match; [by apply does_ret|]. apply (does_step (reply := reply) (GetStringDescriptor d _ _)). intros [n serial].
  assert (Ht : ∀ x : option buffer, x = (if n <? 64 then None else mapM from_chars2 (chunks 2 (take 64 serial))) →
    does (mret x : M (option buffer)) (λ r es, r = ecid_told (existT (GetDeviceDescriptor d) (Some desc) ::
      existT (GetStringDescriptor d (dd_iSerialNumber desc) (ECID_SIZE * 2 + 1)) (n, serial) :: es))).
  { intros x ->. by apply does_ret. }
  destruct (Z.ltb_spec n 0); [apply Ht; by rewrite (proj2 (Z.ltb_lt n 64)) by lia|].
  change (Z.of_nat (ECID_SIZE * 2)) with 64. destruct (n <? 64); by apply Ht.
Qed.

(** ** What the device receives *)

(** What the bulk endpoint accepted. *)
Fixpoint accepted (es : list Event) : buffer :=
  match es with
  | [] => []
  | existT c r :: es =>
      match c return reply c → buffer with
      | BulkTransfer _ _ data => λ r, if r.1 =? LIBUSB_SUCCESS then take (Z.to_nat r.2) data else []
      | _ => λ _, []
      end r ++ accepted es
  end.

Lemma accepted_app es es' : accepted (es ++ es') = accepted es ++ accepted es'.
Proof. induction es as [|[c r] es IH]; [done|]. cbn [accepted app]. by rewrite IH, app_assoc. Qed.

Lemma accepted_looking d es : calls_ok (looking d) es → accepted es = [].
Proof.
  induction 1 as [|[c r] es Hc Hes IH]; [done|]. cbn [accepted]. rewrite IH, app_nil_r.
  by destruct c.
Qed.

(** A read of a register that gives [v]. *)
Definition gives (v : Z) (e : Event) : Prop :=
  match e with existT c r =>
    match c return reply c → Prop with
    | ControlTransfer _ _ _ _ _ _ => λ r, le_decode r.2 = v
    | _ => λ _, False
    end r
  end.

(** The device has told that its recovery is complete. *)
Definition completed (es : list Event) : Prop := ∃ code, isRecoveryComplete code = true ∧ Exists (gives code) es.

Lemma completed_app es es' : completed es ∨ completed es' → completed (es ++ es').
Proof. intros [(code & Hc & He)|(code & Hc & He)]; exists code; split; [done| |done|]; apply Exists_app; auto. Qed.

Section Told.
Context `{UsbEnv, StdSort} (d : nat).

Lemma readRegister32_gives addr : does (readRegister32 d addr) (λ r es, ∀ v, r = Some v → Exists (gives v) es).
Proof.
  unfold readRegister32. apply (does_step (reply := reply) (ControlTransfer d _ _ _ _ _)). intros [n bytes].
  apply does_ret. intros v Hv. left. case_match; [by injection Hv|done].
Qed.

(** The code of every entry that is read has been given. *)
Lemma pcq_loop_gives n size idx entries :
  does (pcq_loop n d size idx entries) (λ r es, ∀ e, e ∈ r.2 → e ∈ entries ∨ Exists (gives (progressCode e)) es).
Proof.
  revert idx entries. induction n as [|n IH]; intros idx entries; cbn [pcq_loop]; [by apply does_ret; left|].
  case_match; [by apply does_ret; left|].
  eapply does_bind; [apply readRegister32_gives|]. intros t es _.
  eapply does_bind; [apply readRegister32_gives|]. intros code es' Hcode.
  destruct t as [t|], code as [code|]; try by (apply does_ret; left).
  case_match; (eapply does_impl; [apply IH|]); intros r es2 Hr e He; (destruct (Hr e He) as [Hin|Hg]; [|right; rewrite !Exists_app; auto]).
  - by left.
  - apply elem_of_app in Hin as [Hin|Hin%list_elem_of_singleton]; [by left|]. subst e. right.
    rewrite !Exists_app. right. left. by apply Hcode.
Qed.

Lemma readCpuPcqEntries_gives :
  does (readCpuPcqEntries d) (λ r es, ∀ e, e ∈ r.2 → Exists (gives (progressCode e)) es).
Proof.
  assert (Hnone : ∀ b, does (mret (b, no_entries) : M (bool * list CPUProgressLogEntry))
    (λ r es, ∀ e, e ∈ r.2 → Exists (gives (progressCode e)) es)).
  { intros b. apply does_ret. by intros e ?%not_elem_of_nil. }
  unfold readCpuPcqEntries. apply (does_bind _ _ (λ _ _, True)).
  { eapply does_impl; [apply (emits_bind (following d)); [apply readRegister32_emits|]|done].
    intros [v|]; [cbv zeta; case_match|]; apply emits_ret. }
  intros [p|] es _.
  2: { apply does_ret. by intros e ?%not_elem_of_nil. }
  repeat (case_match; [apply does_ret; by intros e ?%not_elem_of_nil|]).
  eapply does_bind; [apply pcq_loop_gives|]. intros [ok entries] es' He. apply does_ret. rewrite app_nil_r.
  intros e Hin. apply Exists_app. right.
  destruct (He e) as [[]%not_elem_of_nil|Hg]; [|done]. destruct ok; [|done]. cbn [snd] in *.
  by rewrite <- (std_sort_perm entries).
Qed.

Lemma check_entries_completed entries m :
  (check_entries entries m).1 = PS_Completed → ∃ e, e ∈ entries ∧ isRecoveryComplete (progressCode e) = true.
Proof.
  revert m. induction entries as [|e entries IH]; intros m; cbn [check_entries]; [done|].
  assert (Hrest : ∀ m', (check_entries entries m').1 = PS_Completed →
    ∃ e', e' ∈ e :: entries ∧ isRecoveryComplete (progressCode e') = true).
  { intros m' Hm'. destruct (IH m' Hm') as (e' & Hin & He'). exists e'. split; [by right|done]. }
  case_match; [apply Hrest|]. cbv zeta. destruct (isRecoveryComplete (progressCode e)) eqn:Hc; [exists e; split; [by left|done]|].
  case_bool_decide; [done|apply Hrest].
Qed.

Lemma monitor_completed n m :
  does (monitorProgressAfterImageTransfer n d m) (λ r es, r.1 = PS_Completed → completed es).
Proof.
  revert m. induction n as [|n IH]; intros m; cbn [monitorProgressAfterImageTransfer]; [by apply does_ret|].
  apply (does_step (reply := reply) (SleepFor _)). intros slept.
  apply (does_bind _ _ (λ r es, r.1 = PS_Completed → completed es)).
  - unfold checkForNewProgressCodes, readCpuPcqEntriesAfter.
    eapply (does_bind _ _ (λ r es, ∀ e, e ∈ r.2 → Exists (gives (progressCode e)) es)).
    { eapply does_bind; [apply readCpuPcqEntries_gives|]. intros [ok entries] es He. apply does_ret. rewrite app_nil_r.
      cbn [snd] in He. repeat case_match; try done. intros e [_ Hin]%list_elem_of_filter. by apply He. }
    intros [ok entries] es He. apply does_ret. rewrite app_nil_r. destruct ok; cbn [negb fst snd] in *; [|done].
    intros (e & Hin & Hc)%check_entries_completed. exists (progressCode e). split; [done|by apply He].
  - intros [status m'] es Hes. case_bool_decide as Hs.
    + eapply does_impl; [apply IH|]. intros r es' Hes' Hr. apply (completed_app [_]). right. apply completed_app. right. by apply Hes'.
    + apply does_ret. intros Hr. apply (completed_app [_]). right. rewrite app_nil_r. by apply Hes.
Qed.
End Told.

(** A DOT blob with no content: 1024 bytes, all zero but the four at 8. *)
Definition empty_blob (data : buffer) : Prop :=
  length data = 1024%nat ∧ ∀ i b, data !! i = Some b → (8 ≤ i < 12)%nat ∨ b = 0.

Lemma isEmptyDotBlob_empty data : isEmptyDotBlob data = true → empty_blob data.
Proof.
  unfold isEmptyDotBlob. intros [Hl%Nat.eqb_eq Hall]%andb_true_iff. split; [done|]. intros i b Hb.
  rewrite List.forallb_forall in Hall. specialize (Hall (i, b)). cbn [fst snd] in Hall.
  destruct (orb_true_iff ((8 <=? i) && (i <? 12))%nat (b =? 0)) as [Ho _]. destruct Ho as [Hi|Hz].
  - apply Hall, list_elem_of_In, list_elem_of_lookup. exists i. by rewrite list_lookup_imap, Hb.
  - left. apply andb_true_iff in Hi as [H1%Nat.leb_le H2%Nat.ltb_lt]. lia.
  - right. by apply Z.eqb_eq.
Qed.

Section Sent.
Context `{UsbLaws, !StdSort} (d : nat).

(** The chunks a transfer is made of. *)
Definition chunk_call (c : Call) : Prop :=
  ∃ chunk, c = BulkTransfer d RCM_BULK_OUT_ENDPOINT chunk ∧
    (0 < length chunk ≤ BULK_CHUNK_SIZE)%nat.

(** What [sendBulkData] comes to. *)
Definition bulk_sent (data : buffer) (r : SendResult) (es : list Event) : Prop :=
  ∃ rest, data = accepted es ++ rest ∧ (r = Sent ↔ rest = []) ∧
    calls_ok chunk_call es ∧ (length es ≤ length data)%nat.

Lemma chunk_stringless c : chunk_call c → stringless c.
Proof. by intros (chunk & -> & _). Qed.

Lemma sendBulkData_sent data : does (sendBulkData d data) (bulk_sent data).
Proof.
  induction data as [data IH] using (induction_ltof1 _ length).
  destruct data as [|b data]; simp sendBulkData.
  { apply does_ret. exists []. split_and!; [done..|constructor|done]. }
  set (chunk := take BULK_CHUNK_SIZE (b :: data)).
  assert (Hchunk : (0 < length chunk ≤ BULK_CHUNK_SIZE)%nat).
  { unfold chunk. rewrite length_take. unfold BULK_CHUNK_SIZE. cbn [length]. lia. }
  eapply does_bind with (R1 := λ r es,
    r.2 ≤ Z.of_nat (length chunk) ∧ es = [existT (BulkTransfer d RCM_BULK_OUT_ENDPOINT chunk) r]).
  { refine (does_call_law (BulkTransfer d RCM_BULK_OUT_ENDPOINT chunk) _ _).
    intros e. split; [apply bulk_laws|done]. }
  intros [ret n] es [Hn ->]. cbn [snd] in Hn.
  assert (Hstop : ∀ r, r ≠ Sent → (ret =? LIBUSB_SUCCESS) = false ∨ n ≤ 0 →
    bulk_sent (b :: data) r [existT (BulkTransfer d RCM_BULK_OUT_ENDPOINT chunk) (ret, n)]).
  { intros r Hr Hret. exists (b :: data). split_and!.
    - cbn [accepted fst snd]. destruct Hret as [-> | Hret]; [done|].
      case_match; [|done]. by replace (Z.to_nat n) with 0%nat by lia.
    - split; [done|discriminate].
    - constructor; [by exists chunk|constructor].
    - cbn. lia. }
  destruct (ret =? LIBUSB_SUCCESS) eqn:Hret; cbn [negb].
  2: { apply does_ret. rewrite app_nil_r. apply Hstop; [done|by left]. }
  case_match. { apply does_ret. rewrite app_nil_r. apply Hstop; [done|by right]. }
  eapply does_impl; [apply IH; unfold ltof; rewrite length_drop; cbn [length]; lia|].
  intros r es (rest & Hdata & Hrest & Hes & Hl). exists rest.
  assert (Htake : take (Z.to_nat n) chunk = take (Z.to_nat n) (b :: data)).
  { unfold chunk in *. rewrite length_take in Hn. rewrite take_take. f_equal. lia. }
  split_and!; [|done| |].
  - cbn [app accepted fst snd]. rewrite Hret, Htake, <-app_assoc, <-Hdata. by rewrite take_drop.
  - constructor; [by exists chunk|done].
  - rewrite length_drop in Hl. cbn [app length] in *. lia.
Qed.

(** A transfer of data ends after at most one bulk transfer per byte, each of
    at most 512 bytes on the recovery endpoint: what the device accepted is a
    prefix of the data, and all of it exactly when the transfer succeeds. *)
Theorem bulk_data_sent data : does (sendBulkData d data) (bulk_sent data).
Proof. apply sendBulkData_sent. Qed.

Variable fs : string → option buffer.
Hypothesis files_still : ∀ path e, (respond (ReadFile path) e).1 = fs path.

Definition content (path : string) : buffer := default [] (fs path).

(** What the device has after files were sent: their start; and with a success all of
    them, unless it has told that it is complete, or an empty DOT blob was accepted. *)
Definition given (blobPath : string) (e : bool) (files : list string) (r : Output) (es : list Event) : Prop :=
  serial_of es = None ∧
  accepted es `prefix_of` concat (content <$> files) ∧
  (r = Successful false → accepted es = concat (content <$> files) ∨ completed es) ∧
  (r = Successful true → e = true ∨ blobPath ∈ files ∧ empty_blob (content blobPath)).

Lemma read_file_content image :
  does (readFileToBuffer image) (λ file es, serial_of es = None ∧ accepted es = [] ∧ ∀ data, file = Some data → content image = data).
Proof.
  eapply does_bind with (R1 := λ r es, r = fs image ∧ serial_of es = None ∧ accepted es = []).
  { refine (does_call_law (ReadFile image) _ _). intros e'. split; [apply files_still|done]. }
  intros r es (-> & Hs & Hes). apply does_ret. rewrite app_nil_r. split_and!; [done|done|].
  unfold content. intros data. destruct (fs image) as [[|b l]|]; naive_solver.
Qed.

Lemma send_images_order blobPath total i images e m :
  does (send_images d blobPath total i images e m) (given blobPath e images).
Proof.
  revert i e m. induction images as [|image images IH]; intros i e m.
  { apply does_ret. split_and!; [done|done|by left|]. intros [= ->]. by left. }
  cbn [send_images].
  eapply does_bind; [apply read_file_content|]. intros file es (Hs & Hes & Hfile).
  destruct file as [data|].
  2: { apply does_ret. unfold given. rewrite app_nil_r, Hes. by split_and!; [|apply prefix_nil|..]. }
  specialize (Hfile data eq_refl).
  eapply does_bind; [apply sendBulkData_sent|]. intros sent es' (rest & Hdata & Hrest & Hch & _).
  assert (Hs' : serial_of es' = None).
  { apply stringless_serial. eapply Forall_impl; [exact Hch|]. intros ev. apply chunk_stringless. }
  destruct sent as [|err].
  2: { apply does_ret. unfold given. rewrite app_nil_r, accepted_app, serial_of_app, Hs, Hes. cbn [fmap list_fmap concat app].
       rewrite Hfile. split_and!; [done| | |].
       - rewrite Hdata, <-app_assoc. by apply prefix_app_r.
       - by case_match.
       - intros Hr. left. by destruct e. }
  rewrite (proj1 Hrest eq_refl), app_nil_r in Hdata.
  eapply does_bind; [apply (does_and _ _ _ (monitor_emits d _ _) (monitor_completed d _ _))|]. intros [status m'] es'' [Hes'' Hdone].
  cbn [fst] in Hdone.
  assert (Hs'' : serial_of es'' = None).
  { apply stringless_serial. eapply Forall_impl; [exact Hes''|]. intros ev. apply following_stringless. }
  assert (Hlook : accepted es'' = []).
  { apply (accepted_looking d). eapply Forall_impl; [exact Hes''|]. intros ev. apply following_looking. }
  cbv zeta. set (initial := _ && isMutableDotSoftIgnorableError (errorCode m')).
  assert (Hhead : accepted (es ++ es' ++ es'') = content image).
  { rewrite !accepted_app, Hes, Hlook, app_nil_r. by rewrite Hfile. }
  assert (Hblob : initial = true → blobPath ∈ image :: images ∧ empty_blob (content blobPath)).
  { unfold initial. rewrite !andb_true_iff. intros [[[_ Hb%bool_decide_eq_true_1] He%isEmptyDotBlob_empty] _].
    subst image. rewrite Hfile. split; [by left|done]. }
  assert (Hnext : ∀ e', (e' = true → e = true ∨ blobPath ∈ image :: images ∧ empty_blob (content blobPath)) → does
    (_ ← (if (i <? total - 1)%nat then call (SleepFor INTER_IMAGE_DELAY_MS) else mret ());
     send_images d blobPath total (S i) images e' m')
    (λ r es0, given blobPath e (image :: images) r (es ++ es' ++ es'' ++ es0))).
  { intros e' He'. eapply does_bind with (R1 := λ _ es0, serial_of es0 = None ∧ accepted es0 = []).
    { case_match; [by apply (does_call (SleepFor _))|by apply does_ret]. }
    intros _ es0 [Hs0 Hes0]. eapply does_impl; [apply IH|]. intros r es1 (Hs1 & Hes1 & Hall & Htrue).
    replace (es ++ es' ++ es'' ++ es0 ++ es1) with ((es ++ es' ++ es'') ++ es0 ++ es1) by (by rewrite <-!app_assoc).
    unfold given. rewrite accepted_app, Hhead, accepted_app, Hes0, !serial_of_app, Hs, Hs', Hs'', Hs0.
    cbn [fmap list_fmap concat app]. split_and!; [done|by apply prefix_app| |].
    - intros Hr. destruct (Hall Hr) as [->|Hc]; [by left|right]. by apply completed_app; right; apply completed_app; right.
    - intros Hr. destruct (Htrue Hr) as [Ht|[Hin Ht]]; [by apply He'|right; split; [by right|done]]. }
  assert (Hstop : ∀ r : Output, (r = Successful false → completed es'') → r ≠ Successful true →
    does (mret r) (λ r es0, given blobPath e (image :: images) r (es ++ es' ++ es'' ++ es0))).
  { intros r Hc Hr. apply does_ret. unfold given. rewrite app_nil_r, Hhead, !serial_of_app, Hs, Hs', Hs''.
    split_and!; [done|by apply prefix_app_r| |done]. intros Hf. right. do 2 (apply completed_app; right). by apply Hc. }
  destruct status; [apply Hnext; auto|apply Hstop; auto|].
  destruct (initial || _) eqn:Hor; [|by apply Hstop].
  apply Hnext. intros [He|Hi]%orb_true_iff; [by left|right; by apply Hblob].
Qed.

(** C28: What the device has accepted is at any time a prefix of the files that are due: the
    DOT blob first when the ECID that the device has told asks for one, then the images
    in the order given. An ECID that asks for what cannot be sent stops the recovery
    with the code for it, and the device has accepted nothing. A recovery that succeeds
    has had all of them accepted, unless a register of the device has given the code of
    a completed recovery, or the DOT blob is an empty one and the success is marked so. *)
Theorem recovery_sends_in_order images blobPath :
  does (recover d images blobPath) (λ r es,
    match due_files (ecid_told es) images blobPath with
    | inl code => (∃ error, r = Failed error code) ∧ accepted es = []
    | inr files =>
        accepted es `prefix_of` concat (content <$> files) ∧
        (r = Successful false → accepted es = concat (content <$> files) ∨ completed es) ∧
        (r = Successful true → blobPath ∈ files ∧ empty_blob (content blobPath))
    end).
Proof.
  eapply does_bind; [apply (does_and _ _ _ (readDeviceEcid_emits d) (readDeviceEcid_tells d))|].
  intros ecid es [Hlook Hecid]. apply accepted_looking in Hlook. subst ecid.
  pose proof (finalImagePaths_due (ecid_told es) images blobPath (ecid_told_ok es)) as Hdue.
  destruct (due_files (ecid_told es) images blobPath) as [code|files] eqn:Hfiles.
  - destruct Hdue as [error ->]. apply does_ret. rewrite app_nil_r, Hfiles. split; [by exists error|done].
  - rewrite Hdue. eapply does_impl; [apply send_images_order|]. intros r es' (Hs & Hpre & Hall & Htrue).
    rewrite ecid_told_app, Hfiles, accepted_app, Hlook by done. split_and!; [done| |].
    + intros Hr. destruct (Hall Hr) as [Ha|Hc]; [by left|right]. apply completed_app. by right.
    + intros Hr. by destruct (Htrue Hr).
Qed.
End Sent.

(** ** The log and its errors *)

(** The entries a check at time [t] looks at. *)
Definition newer (t : Z) (log : list CPUProgressLogEntry) : list CPUProgressLogEntry :=
  if t =? 0 then log else base.filter (λ e, t < timestamp e) log.

(** An entry that ends a check. *)
Definition decisive (e : CPUProgressLogEntry) : bool :=
  negb (progressCode e =? 0) && (isRecoveryComplete (progressCode e) ||
    bool_decide (pi_type (getProgressCodeInfo (progressCode e)) = Error)).

Definition verdict (e : CPUProgressLogEntry) (m : Monitor) : ProgressStatus * Monitor :=
  if isRecoveryComplete (progressCode e) then (PS_Completed, m)
  else (PS_Error, mkMonitor (lastProcessedTimestamp m)
                    ("Recovery failed: " +:+ pi_name (getProgressCodeInfo (progressCode e)))
                    (progressCodeToRecoveryErrorCode (progressCode e))).

(** The time a check leaves behind after the entries it passes over. *)
Definition last_time (pre : list CPUProgressLogEntry) (t : Z) : Z :=
  default t (timestamp <$> last (base.filter (λ e, progressCode e ≠ 0) pre)).

Definition at_time (m : Monitor) (t : Z) : Monitor := mkMonitor t (errorDetail m) (errorCode m).

Lemma last_time_cons e pre t :
  last_time (e :: pre) t = last_time pre (if progressCode e =? 0 then t else timestamp e).
Proof.
  unfold last_time. rewrite filter_cons. destruct (Z.eqb_spec (progressCode e) 0).
  - by rewrite decide_False by (intros Hne; by apply Hne).
  - rewrite decide_True by done.
    destruct (base.filter _ pre) as [|e' l]; [done|]. rewrite last_cons. by destruct (last _).
Qed.

(** A check passes over the entries that are not decisive and stops at the
    first that is. *)
Lemma check_entries_skip pre rest m :
  Forall (λ e, decisive e = false) pre →
  check_entries (pre ++ rest) m =
    check_entries rest (at_time m (last_time pre (lastProcessedTimestamp m))).
Proof.
  intros Hpre. revert m. induction Hpre as [|e pre He Hpre IH]; intros m; [by destruct m|].
  cbn [app check_entries]. rewrite last_time_cons. unfold decisive in He.
  destruct (progressCode e =? 0); [apply IH|]. cbn [negb andb] in He.
  apply orb_false_iff in He as [-> ->]. by rewrite IH.
Qed.

Lemma check_entries_decisive e rest m :
  decisive e = true → check_entries (e :: rest) m = verdict e m.
Proof.
  unfold decisive, verdict. cbn [check_entries]. destruct (progressCode e =? 0); [done|].
  cbn [negb andb]. destruct (isRecoveryComplete _); [done|]. cbn [orb]. by intros ->.
Qed.

Lemma check_entries_split pre e rest m :
  Forall (λ e, decisive e = false) pre → decisive e = true →
  check_entries (pre ++ e :: rest) m =
    verdict e (at_time m (last_time pre (lastProcessedTimestamp m))).
Proof. intros Hpre He. by rewrite check_entries_skip, check_entries_decisive. Qed.

Definition in_order : list CPUProgressLogEntry → Prop :=
  StronglySorted (λ a b, timestamp a < timestamp b).

Lemma last_time_bounds pre t b :
  in_order pre → Forall (λ e, t < timestamp e < b) pre → t < b →
  t ≤ last_time pre t < b ∧
  Forall (λ e, progressCode e ≠ 0 → timestamp e ≤ last_time pre t) pre.
Proof.
  intros Hs. revert t. induction Hs as [|e pre Hs IH Hlt]; intros t Hb Ht.
  { split; [unfold last_time; cbn; lia|constructor]. }
  apply Forall_cons in Hb as [He Hb]. rewrite last_time_cons.
  destruct (Z.eqb_spec (progressCode e) 0) as [H0|H0].
  - destruct (IH t) as [IH1 IH2]; [done..|]. split; [done|]. by constructor.
  - destruct (IH (timestamp e)) as [IH1 IH2]; [|lia|].
    { apply Forall_forall. intros e' He'. rewrite Forall_forall in Hb, Hlt.
      specialize (Hb e' He'). specialize (Hlt e' He'). cbv beta in *. lia. }
    split; [lia|]. constructor; [intros _; lia|done].
Qed.

Lemma filter_all {A} (P : A → Prop) `{∀ x, Decision (P x)} l : Forall P l → base.filter P l = l.
Proof. induction 1 as [|x l Hx Hl IH]; [done|]. by rewrite filter_cons, decide_True, IH. Qed.

Lemma filter_none {A} (P : A → Prop) `{∀ x, Decision (P x)} l :
  Forall (λ x, ¬ P x) l → base.filter P l = [].
Proof. induction 1 as [|x l Hx Hl IH]; [done|]. by rewrite filter_cons, decide_False. Qed.

Lemma Forall_base_filter {A} (P Q : A → Prop) `{∀ x, Decision (P x)} l :
  Forall Q l → Forall Q (base.filter P l).
Proof.
  rewrite !Forall_forall. intros HQ x [_ Hx]%list_elem_of_filter. by apply HQ.
Qed.

Lemma last_time_none pre t : Forall (λ e, progressCode e = 0) pre → last_time pre t = t.
Proof. intros Hpre. unfold last_time. rewrite filter_none; [done|].
  eapply Forall_impl; [done|]. naive_solver. Qed.

Lemma newer_all t l : Forall (λ e, t < timestamp e) l → newer t l = l.
Proof. intros Hl. unfold newer. case_match; [done|]. by apply filter_all. Qed.

(** An error in the log is the last thing a recovery ever sees there: the time
    is not moved past it, so that every later check stops at it again, whatever
    has been logged since, a completion included. *)
Theorem error_hides_completion pre err post more m
    (Horder : in_order (pre ++ err :: post ++ more))
    (Hnew : Forall (λ e, lastProcessedTimestamp m < timestamp e) (pre ++ err :: post ++ more))
    (Hm : 0 ≤ lastProcessedTimestamp m)
    (Hpre : Forall (λ e, decisive e = false) pre)
    (Herr : decisive err = true) (Herr' : isRecoveryComplete (progressCode err) = false) :
  let look m log := check_entries (newer (lastProcessedTimestamp m) log) m in
  let m' := (look m (pre ++ err :: post)).2 in
  (look m (pre ++ err :: post)).1 = PS_Error ∧
  look m' (pre ++ err :: post ++ more) = (PS_Error, m').
Proof.
  cbv beta zeta.
  set (t := lastProcessedTimestamp m) in *. set (t1 := last_time pre t).
  pose proof Hnew as Hnew'. rewrite !Forall_app, Forall_cons in Hnew'.
  destruct Hnew' as (Hp & He & Hq).
  apply StronglySorted_app in Horder as (Hlt & Hsp & Hsr).
  apply StronglySorted_cons in Hsr as [Hrest Hsr].
  assert (Hbound : t ≤ t1 < timestamp err ∧
    Forall (λ e, progressCode e ≠ 0 → timestamp e ≤ t1) pre).
  { apply last_time_bounds; [done| |lia]. apply Forall_forall. intros e Hin. split.
    - by rewrite Forall_forall in Hp; apply Hp.
    - apply Hlt; [done|left]. }
  destruct Hbound as [Ht1 Hle].
  assert (Hfirst : check_entries (newer t (pre ++ err :: post)) m = verdict err (at_time m t1)).
  { rewrite newer_all by (rewrite Forall_app, Forall_cons; rewrite Forall_app in Hq; tauto).
    by apply check_entries_split. }
  rewrite Hfirst. unfold verdict at 1 2 3 4. rewrite Herr'. cbn [fst snd]. split; [done|].
  unfold newer. cbn [lastProcessedTimestamp at_time]. case_match eqn:H0.
  { apply Z.eqb_eq in H0. fold t in Hfirst.
    rewrite check_entries_split by done. unfold verdict. rewrite Herr'.
    cbn [lastProcessedTimestamp at_time]. do 2 f_equal.
    assert (Heq : t1 = t) by lia. by rewrite Heq at 1. }
  rewrite filter_app, (filter_all _ (err :: post ++ more)).
  - rewrite check_entries_split; [|by apply Forall_base_filter|done].
    unfold verdict. rewrite Herr'. cbn [lastProcessedTimestamp at_time]. do 2 f_equal.
    apply last_time_none, Forall_forall. intros e [Hlate Hin]%list_elem_of_filter.
    rewrite Forall_forall in Hle. destruct (decide (progressCode e = 0)) as [|Hne]; [done|].
    specialize (Hle e Hin Hne). lia.
  - constructor; [lia|]. eapply Forall_impl; [exact Hrest|]. cbv beta. lia.
Qed.

(** ** A device that reports nothing *)

Section Silent.
Context `{UsbEnv, !StdSort} (d : nat) (images : list string) (blobPath : string).
Hypothesis registers_fail : ∀ v i e,
  (respond (ControlTransfer d REQUEST_TYPE_READ REQUEST_CODE v i REGISTER_SIZE_BYTES) e).1.1
    ≠ REGISTER_SIZE_BYTES.
Hypothesis descriptor_fails : ∀ e, (respond (GetDeviceDescriptor d) e).1 = None.
Hypothesis accepts_all : ∀ data e,
  (respond (BulkTransfer d RCM_BULK_OUT_ENDPOINT data) e).1 =
    (LIBUSB_SUCCESS, Z.of_nat (length data)).
Hypothesis files_read : ∀ image, image ∈ images → ∃ data, data ≠ [] ∧
  ∀ e, (respond (ReadFile image) e).1 = Some data.

Lemma yields_call c a : (∀ e, (respond c e).1 = a) → yields (call c) a.
Proof. intros Ha w. unfold call. rewrite <-(Ha (w_env w)). by destruct (respond c (w_env w)). Qed.

Lemma yields_sleep ms : yields (call (SleepFor ms) : M ()) ().
Proof. intros w. unfold call. by destruct (respond (SleepFor ms) (w_env w)) as [[] e]. Qed.

Lemma readRegister32_silent addr : yields (readRegister32 d addr) None.
Proof.
  intros w. unfold readRegister32, mbind, M_bind, call.
  pose proof (registers_fail ((addr ≫ 16) .& 0xFFFF) (addr .& 0xFFFF) (w_env w)) as Hf.
  destruct (respond _ _) as [[n b] e']. cbn in Hf |- *.
  by rewrite (proj2 (Z.eqb_neq _ _)).
Qed.

Lemma monitor_silent n m : yields (monitorProgressAfterImageTransfer n d m) (PS_Continue, m).
Proof.
  induction n as [|n IH]; [apply yields_ret|]. cbn [monitorProgressAfterImageTransfer].
  eapply yields_bind; [apply yields_sleep|]. cbv beta.
  apply (yields_bind _ _ (PS_Continue, m));
    [|cbv beta iota; rewrite bool_decide_true by done; exact IH].
  unfold checkForNewProgressCodes, readCpuPcqEntriesAfter.
  apply (yields_bind _ _ (false, [])); [|apply yields_ret].
  apply (yields_bind _ _ (false, [])); [|apply yields_ret].
  apply (yields_bind _ _ None); [|apply yields_ret].
  apply (yields_bind _ _ None); [apply readRegister32_silent|apply yields_ret].
Qed.

Lemma sendBulkData_silent data : yields (sendBulkData d data) Sent.
Proof.
  induction data as [data IH] using (induction_ltof1 _ length).
  destruct data as [|b data]; simp sendBulkData; [apply yields_ret|].
  eapply yields_bind;
    [refine (yields_call (BulkTransfer d _ _) _ _); intros e; apply accepts_all|].
  cbv beta iota. change (LIBUSB_SUCCESS =? LIBUSB_SUCCESS) with true. cbv beta iota delta [negb].
  case_decide as Hn; [rewrite length_take in Hn; unfold BULK_CHUNK_SIZE in Hn; cbn in Hn; lia|].
  apply IH. unfold ltof. rewrite length_drop. cbn [length]. lia.
Qed.

(** A recovery whose device accepts the images but never logs a progress code
    is reported as successful. *)
Theorem silent_recovery_successful : yields (recover d images blobPath) (Successful false).
Proof.
  unfold recover. eapply yields_bind.
  { unfold readDeviceEcid. eapply yields_bind; [refine (yields_call (GetDeviceDescriptor d) _ descriptor_fails)|].
    apply yields_ret. }
  cbn [finalImagePaths].
  generalize (length images) as total, 0%nat as i, (mkMonitor 0 "" ImageTransferFailed) as m.
  induction images as [|image rest IH]; intros total i m; [apply yields_ret|].
  cbn [send_images]. destruct (files_read image) as (data & Hdata & Hread); [left|].
  eapply yields_bind.
  { unfold readFileToBuffer. eapply yields_bind; [by refine (yields_call (ReadFile image) _ Hread)|].
    destruct data as [|b data]; [done|]. apply yields_ret. }
  eapply yields_bind; [apply sendBulkData_silent|]. cbv beta iota.
  eapply yields_bind; [apply monitor_silent|]. cbv beta iota zeta.
  eapply (yields_bind _ _ ()).
  { case_match; [|apply yields_ret]. apply yields_sleep. }
  apply IH. intros image' Hin. apply files_read. by right.
Qed.
End Silent.

(** ** Examples *)

Definition example_file (path : string) : option buffer :=
  if decide (path = "blob"%string) then Some [7; 8] else Some [1; 2; 3].

(** An environment whose device logs nothing and has an ECID in its serial
    number that asks for a DOT blob. *)
Definition example_serial : buffer :=
  replicate 40 48 ++ [49; 48] ++ replicate 22 48.

Abbreviation example_env := (model_env (const None) example_file (Some example_serial)).

Lemma example_laws : @UsbLaws example_env.
Proof. apply model_laws. apply (bool_decide_unpack _). vm_compute. exact I. Qed.

Lemma bulk_data_sent_witness :
  @does _ _ example_env _ (@sendBulkData example_env 0 [1; 2; 3]) (bulk_sent 0 [1; 2; 3]).
Proof. apply (@bulk_data_sent example_env example_laws). Defined.

Lemma recovery_sends_in_order_witness :
  ∃ es, w_trace (@recover example_env merge_sort_StdSort 0 ["image"%string] "blob"
                   (@mkWorld _ _ example_env () [])).2 = es ∧
    accepted es `prefix_of` [7; 8; 1; 2; 3].
Proof.
  destruct (@recovery_sends_in_order example_env example_laws merge_sort_StdSort 0 example_file
    (λ path e, eq_refl) ["image"%string] "blob" (@mkWorld _ _ example_env () [])) as (es & Hes & Hin).
  exists es. split; [exact Hes|]. cbn [w_trace app] in Hes. rewrite <- Hes in Hin |- *.
  replace (due_files _ _ _) with (@inr Z _ ["blob"%string; "image"%string]) in Hin by (vm_compute; reflexivity).
  exact (proj1 Hin).
Defined.

Lemma blob_requirement_bits_witness :
  getBlobRequirement (replicate 20 0 ++ [0x10] ++ replicate 11 0) = DOTBlob.
Proof.
  rewrite (blob_requirement_bits (replicate 20 0 ++ [0x10] ++ replicate 11 0)); [reflexivity|].
  apply (bool_decide_unpack _). vm_compute. exact I.
Defined.

(** A DOT header failure after a boot selection, and a completion logged later. *)
Lemma error_hides_completion_witness :
  let boot := mkEntry 3 0x70C00002 0 in
  let err := mkEntry 5 0xB0C0000F 0 in
  let complete := mkEntry 9 0x70C2C002 0 in
  let m := mkMonitor 3 "Recovery failed: PSC_ROM_EC_MUTABLE_DOT_HEADER_CHECK_FAIL" 0x2F in
  check_entries (newer 3 [boot; err; complete]) m = (PS_Error, m).
Proof.
  intros boot err complete m.
  assert (Hok : in_order ([boot] ++ err :: [] ++ [complete])).
  { apply (bool_decide_unpack _). vm_compute. exact I. }
  destruct (error_hides_completion [boot] err [] [complete] (mkMonitor 0 "" 0x04) Hok)
    as [_ Hlater].
  - apply (bool_decide_unpack _). vm_compute. exact I.
  - vm_compute. discriminate.
  - constructor; [vm_compute; reflexivity|constructor].
  - vm_compute. reflexivity.
  - vm_compute. reflexivity.
  - exact Hlater.
Defined.

Lemma silent_recovery_successful_witness :
  @yields _ _ (model_env (const None) example_file None) _
    (@recover _ merge_sort_StdSort 0 ["image"%string] "") (Successful false).
Proof.
  apply (@silent_recovery_successful (model_env (const None) example_file None) merge_sort_StdSort).
  - intros v i e. discriminate.
  - reflexivity.
  - reflexivity.
  - intros image Hin. apply list_elem_of_singleton in Hin as ->. exists [1; 2; 3].
    split; [discriminate|reflexivity].
Defined.
