(* ===== verification/ForceRecovery.v ===== *)
(** * Forcing a CPU into recovery

    src/recovery_tool/usbrcm_recovery_tool/force_recovery.cpp: the GPIO writes
    that put the boards of a configuration into USB RCM recovery, and those
    that restore the pins. Every write is a shell command; [gpioset] tells
    whether the next one succeeds, given those before it. *)

From stdpp Require Import list strings.
From S2P Require Import Prelude Text UsbDevices.

(** ** Configurations *)

(** [recovery_tool/usbrcm_recovery_tool/force_recovery.cpp:15-20 GpioCommand] *)
Record GpioCommand := mkGpioCommand { pinName : string; value : Z; description : string }.

(** [recovery_tool/usbrcm_recovery_tool/force_recovery.cpp:23-28 ConfigType] *)
Inductive ConfigType := C2 | C1G2 | C2G4.

#[export] Instance ConfigType_eq_dec : EqDecision ConfigType.
Proof. solve_decision. Defined.

(** [recovery_tool/usbrcm_recovery_tool/force_recovery.cpp:31-50 parseConfigType] *)
Definition parseConfigType (configStr : string) : option ConfigType :=
  let lower := tolower configStr in
  if decide (lower = "c2"%string) then Some C2 else
  if decide (lower = "c1g2"%string) then Some C1G2 else
  if decide (lower = "c2g4"%string) then Some C2G4 else None.

(** [recovery_tool/usbrcm_recovery_tool/force_recovery.cpp:53-65 getGpioPrefix] *)
Definition getGpioPrefix (type : ConfigType) (boardInstance : nat) : string :=
  match type with
  | C2 => "B0_M1_CPU"
  | C1G2 | C2G4 => "BRD" +:+ to_string (Z.of_nat boardInstance) +:+ "_CPU"
  end.

(** [recovery_tool/usbrcm_recovery_tool/force_recovery.cpp:68-80 getResetPrefix] *)
Definition getResetPrefix (type : ConfigType) (boardInstance : nat) : string :=
  match type with
  | C2 => "B0_M1"
  | C1G2 | C2G4 => "BRD" +:+ to_string (Z.of_nat boardInstance)
  end.

(** [recovery_tool/usbrcm_recovery_tool/force_recovery.cpp:83-95 getBoardCount] *)
Definition getBoardCount (type : ConfigType) : nat :=
  match type with C2 | C1G2 => 1 | C2G4 => 2 end.

(** [recovery_tool/usbrcm_recovery_tool/force_recovery.cpp:98-116 getGpioConfigSequence] *)
Definition getGpioConfigSequence (type : ConfigType) (boardInstance : nat) : list GpioCommand :=
  let prefix := getGpioPrefix type boardInstance in
  [mkGpioCommand (prefix +:+ "_FORCED_RECOVERY_L-O") 0 "Assert CPU forced recovery";
   mkGpioCommand (prefix +:+ "_BOOT_DEV_SEL0-O") 0 "Boot device select bit 0";
   mkGpioCommand (prefix +:+ "_BOOT_DEV_SEL1-O") 0 "Boot device select bit 1";
   mkGpioCommand (prefix +:+ "_BOOT_DEV_SEL2-O") 0 "Boot device select bit 2";
   mkGpioCommand (prefix +:+ "_RECOVERY_TYPE0-O") 0 "Recovery type bit 0";
   mkGpioCommand (prefix +:+ "_RECOVERY_TYPE1-O") 1 "Recovery type bit 1 (USB RCM)"].

(** [recovery_tool/usbrcm_recovery_tool/force_recovery.cpp:118-131 getDefaultPinStatesConfigSequence] *)
Definition getDefaultPinStatesConfigSequence (type : ConfigType) (boardInstance : nat)
    : list GpioCommand :=
  let prefix := getGpioPrefix type boardInstance in
  [mkGpioCommand (prefix +:+ "_FORCED_RECOVERY_L-O") 1 "Deassert CPU forced recovery";
   mkGpioCommand (prefix +:+ "_BOOT_DEV_SEL0-O") 0 "Boot device select bit 0";
   mkGpioCommand (prefix +:+ "_BOOT_DEV_SEL1-O") 0 "Boot device select bit 1";
   mkGpioCommand (prefix +:+ "_BOOT_DEV_SEL2-O") 0 "Boot device select bit 2";
   mkGpioCommand (prefix +:+ "_RECOVERY_TYPE0-O") 0 "Recovery type bit 0";
   mkGpioCommand (prefix +:+ "_RECOVERY_TYPE1-O") 1 "Recovery type bit 1"].

(** [recovery_tool/usbrcm_recovery_tool/force_recovery.cpp:134-138 getResetAssert] *)
Definition getResetAssert (type : ConfigType) (boardInstance : nat) : GpioCommand :=
  mkGpioCommand (getResetPrefix type boardInstance +:+ "_IST_SYS_RST_L-O") 0 "Assert system reset".

(** [recovery_tool/usbrcm_recovery_tool/force_recovery.cpp:140-144 getResetRelease] *)
Definition getResetRelease (type : ConfigType) (boardInstance : nat) : GpioCommand :=
  mkGpioCommand (getResetPrefix type boardInstance +:+ "_IST_SYS_RST_L-O") 1 "Release system reset".

Definition pin_char (c : Ascii.ascii) : bool :=
  let n := Ascii.nat_of_ascii c in
  (((48 <=? n) && (n <=? 57)) || ((65 <=? n) && (n <=? 90)) || ((97 <=? n) && (n <=? 122)) ||
   (n =? 95) || (n =? 45))%nat.

(** [recovery_tool/usbrcm_recovery_tool/force_recovery.cpp:152-164 isValidPinName] *)
Definition isValidPinName (pinName : string) : bool :=
  negb (bool_decide (pinName = ""%string)) && forallb pin_char (String.list_ascii_of_string pinName).

(** ** Writing *)

(** The writes made, with whether they succeeded. *)
Definition History : Type := list (string * Z * bool).

(** The outcome of a board, an error if it failed. *)
Abbreviation Boards := (list (option string)).

(** [Status] of the whole, with the boards; [None] for an invalid type. *)
Definition ForceResult : Type := option (bool * Boards).

Section Force.
Context (gpioset : History → string → Z → bool).

Definition G (A : Type) : Type := History → A * History.
#[export] Instance G_ret : MRet G := λ A a h, (a, h).
#[export] Instance G_bind : MBind G := λ A B f m h, let '(a, h) := m h in f a h.

(** [recovery_tool/usbrcm_recovery_tool/force_recovery.cpp:190-201 setGpio]
    with the command it runs. *)
Definition setGpio (pinName : string) (value : Z) : G bool := λ h,
  if negb (isValidPinName pinName) then (false, h) else
  let ok := gpioset h pinName value in (ok, h ++ [(pinName, value, ok)]).

(** [recovery_tool/usbrcm_recovery_tool/force_recovery.cpp:241-251 forceRecoveryMode]
    One command for every board; the loops of the first and of the third
    phase. The failures are recorded in [boards]. *)
Fixpoint each_board (command : nat → GpioCommand) (error : GpioCommand → string)
    (ids : list nat) (boards : Boards) (allSuccess : bool) : G (bool * Boards) :=
  match ids with
  | [] => mret (allSuccess, boards)
  | i :: ids =>
      let reset := command i in
      ok ← setGpio (pinName reset) (value reset);
      if ok : bool then each_board command error ids boards allSuccess
      else each_board command error ids (<[i := Some (error reset)]> boards) false
  end.

(** [recovery_tool/usbrcm_recovery_tool/force_recovery.cpp:267-275 forceRecoveryMode]
    The commands of a board up to the first that fails, whose description is
    the answer. *)
Fixpoint run_sequence (commands : list GpioCommand) : G (option string) :=
  match commands with
  | [] => mret None
  | cmd :: commands =>
      ok ← setGpio (pinName cmd) (value cmd);
      if ok : bool then run_sequence commands else mret (Some (description cmd))
  end.

(** [recovery_tool/usbrcm_recovery_tool/force_recovery.cpp:264-276 forceRecoveryMode] *)
Fixpoint program_straps (type : ConfigType) (ids : list nat) (boards : Boards) (allSuccess : bool)
    : G (bool * Boards) :=
  match ids with
  | [] => mret (allSuccess, boards)
  | i :: ids =>
      failed ← run_sequence (getGpioConfigSequence type i);
      match failed with
      | None => program_straps type ids boards allSuccess
      | Some error => program_straps type ids (<[i := Some error]> boards) false
      end
  end.

Definition assert_error (reset : GpioCommand) : string :=
  "Failed to assert reset (pin " +:+ pinName reset +:+ ")".
Definition release_error (reset : GpioCommand) : string :=
  "Failed to release reset (pin " +:+ pinName reset +:+ ")".

(** [recovery_tool/usbrcm_recovery_tool/force_recovery.cpp:203-304 forceRecoveryMode] *)
Definition forceRecoveryMode (configTypeStr : string) : G ForceResult :=
  match parseConfigType configTypeStr with
  | None => mret None
  | Some configType =>
      let ids := seq 0 (getBoardCount configType) in
      '(allSuccess, boards) ←
        each_board (getResetAssert configType) assert_error ids (const None <$> ids) true;
      if negb (allSuccess : bool) then mret (Some (false, boards)) else
      '(allSuccess, boards) ← program_straps configType ids boards true;
      if negb (allSuccess : bool) then mret (Some (false, boards)) else
      '(allSuccess, boards) ←
        each_board (getResetRelease configType) release_error ids boards true;
      mret (Some (allSuccess : bool, boards))
  end.

(** [recovery_tool/usbrcm_recovery_tool/force_recovery.cpp:312-339 setGPIODefaultPinStatesBoardInstance]
    for every board: the description of the write that failed, if one did. *)
Fixpoint default_boards (type : ConfigType) (ids : list nat) : G Boards :=
  match ids with
  | [] => mret []
  | i :: ids =>
      failed ← run_sequence (getDefaultPinStatesConfigSequence type i);
      rest ← default_boards type ids;
      mret (failed :: rest)
  end.

(** [recovery_tool/usbrcm_recovery_tool/force_recovery.cpp:341-372 setGPIODefaultPinStates] *)
Definition setGPIODefaultPinStates (configTypeStr : string) : G ForceResult :=
  match parseConfigType configTypeStr with
  | None => mret None
  | Some configType =>
      boards ← default_boards configType (seq 0 (getBoardCount configType));
      mret (Some (forallb (λ b : option string, bool_decide (b = None)) boards, boards))
  end.
End Force.

(** ** The order of the writes *)

(** A command as it appears in a history, when it succeeds. *)
Definition write (c : GpioCommand) : string * Z := (pinName c, value c).
Definition done_ok (cs : list GpioCommand) : History := (λ c, (pinName c, value c, true)) <$> cs.

Definition boards_of (type : ConfigType) : list nat := seq 0 (getBoardCount type).
Definition asserts (type : ConfigType) : list GpioCommand := getResetAssert type <$> boards_of type.
Definition straps (type : ConfigType) : list GpioCommand :=
  boards_of type ≫= getGpioConfigSequence type.
Definition releases (type : ConfigType) : list GpioCommand :=
  getResetRelease type <$> boards_of type.

Definition valid_pins (cs : list GpioCommand) : Prop :=
  Forall (λ c, isValidPinName (pinName c) = true) cs.

(** The pins of every configuration pass the check against injection. *)
Lemma pins_valid type : valid_pins (asserts type ++ straps type ++ releases type).
Proof. apply (bool_decide_unpack _). destruct type; vm_compute; exact I. Qed.

Section Order.
Context (gpioset : History → string → Z → bool).

(** What a phase does: writes of [cs] only; all of them, successfully, when it
    succeeds, and one that fails when it does not. *)
Definition phase (cs : list GpioCommand) (h h' : History) (ok : bool) : Prop :=
  ∃ es, h' = h ++ es ∧ es.*1 ⊆ write <$> cs ∧
    if ok then es = done_ok cs else ∃ e, e ∈ es ∧ e.2 = false.

Lemma phase_nil h : phase [] h h true.
Proof. exists []. split_and!; [by rewrite app_nil_r|done|done]. Qed.

Lemma phase_app cs cs' h h1 h2 ok ok' :
  phase cs h h1 ok → phase cs' h1 h2 ok' → phase (cs ++ cs') h h2 (ok && ok').
Proof.
  intros (es & -> & Hsub & Hok) (es' & -> & Hsub' & Hok'). exists (es ++ es').
  split_and!; [by rewrite app_assoc|rewrite !fmap_app; set_solver|].
  unfold done_ok in *. destruct ok, ok'; cbn [andb].
  - by rewrite fmap_app, Hok, Hok'.
  - destruct Hok' as (e & He & Hf). exists e. split; [set_solver|done].
  - destruct Hok as (e & He & Hf). exists e. split; [set_solver|done].
  - destruct Hok as (e & He & Hf). exists e. split; [set_solver|done].
Qed.

(** A phase that is given up leaves the rest undone. *)
Lemma phase_stop cs cs' h h1 : phase cs h h1 false → phase (cs ++ cs') h h1 false.
Proof.
  intros (es & -> & Hsub & Hok). exists es. split_and!; [done|rewrite fmap_app; set_solver|done].
Qed.

Lemma setGpio_phase c h :
  isValidPinName (pinName c) = true →
  let '(ok, h') := setGpio gpioset (pinName c) (value c) h in phase [c] h h' ok.
Proof.
  intros Hv. unfold setGpio. rewrite Hv. cbn [negb].
  eexists. split; [done|]. split; [set_solver|].
  destruct (gpioset _ _ _) eqn:Hg; [done|]. eexists. split; [by left|done].
Qed.

Lemma run_sequence_phase cs h :
  valid_pins cs →
  let '(failed, h') := run_sequence gpioset cs h in phase cs h h' (bool_decide (failed = None)).
Proof.
  intros Hv. revert h. induction Hv as [|c cs Hc Hv IH]; intros h; [apply phase_nil|].
  cbn [run_sequence]. unfold mbind, G_bind.
  pose proof (setGpio_phase c h Hc) as Hs. destruct (setGpio _ _ _ h) as [ok h1].
  destruct ok.
  - specialize (IH h1). destruct (run_sequence gpioset cs h1) as [failed h2].
    exact (phase_app [c] cs _ _ _ true _ Hs IH).
  - exact (phase_stop [c] cs _ _ Hs).
Qed.

Lemma each_board_phase command error ids boards all h :
  valid_pins (command <$> ids) →
  let '((ok, _), h') := each_board gpioset command error ids boards all h in
  ∃ ok', phase (command <$> ids) h h' ok' ∧ ok = all && ok'.
Proof.
  revert boards all h. induction ids as [|i ids IH]; intros boards all h Hv.
  { exists true. split; [apply phase_nil|by destruct all]. }
  apply Forall_cons in Hv as [Hc Hv]. cbn [each_board]. unfold mbind, G_bind.
  pose proof (setGpio_phase (command i) h Hc) as Hs. destruct (setGpio _ _ _ h) as [ok h1].
  assert (Hcons : ∀ boards all', all' = all && ok →
    let '((ok2, _), h') := each_board gpioset command error ids boards all' h1 in
    ∃ ok', phase (command <$> i :: ids) h h' ok' ∧ ok2 = all && ok').
  { intros boards' all' ->. specialize (IH boards' (all && ok) h1 Hv).
    destruct (each_board _ _ _ ids _ _ h1) as [[ok2 b] h2]. destruct IH as (ok' & Hp & ->).
    exists (ok && ok'). split; [exact (phase_app [command i] _ _ _ _ _ _ Hs Hp)|].
    by rewrite andb_assoc. }
  destruct ok; apply Hcons; by destruct all.
Qed.

Lemma program_straps_phase type ids boards all h :
  valid_pins (ids ≫= getGpioConfigSequence type) →
  let '((ok, _), h') := program_straps gpioset type ids boards all h in
  ∃ ok', phase (ids ≫= getGpioConfigSequence type) h h' ok' ∧ ok = all && ok'.
Proof.
  revert boards all h. induction ids as [|i ids IH]; intros boards all h Hv.
  { exists true. split; [apply phase_nil|by destruct all]. }
  apply Forall_app in Hv as [Hc Hv]. cbn [program_straps]. unfold mbind at 1, G_bind.
  pose proof (run_sequence_phase _ h Hc) as Hs. destruct (run_sequence _ _ h) as [failed h1].
  assert (Hcons : ∀ boards all', all' = all && bool_decide (failed = None) →
    let '((ok2, _), h') := program_straps gpioset type ids boards all' h1 in
    ∃ ok', phase ((i :: ids) ≫= getGpioConfigSequence type) h h' ok' ∧ ok2 = all && ok').
  { intros boards' all' ->. specialize (IH boards' (all && bool_decide (failed = None)) h1 Hv).
    destruct (program_straps _ _ ids _ _ h1) as [[ok2 b] h2]. destruct IH as (ok' & Hp & ->).
    exists (bool_decide (failed = None) && ok'). split; [exact (phase_app _ _ _ _ _ _ _ Hs Hp)|].
    by rewrite andb_assoc. }
  destruct failed; apply Hcons; by destruct all.
Qed.

Lemma release_pins_differ type i c :
  i ∈ boards_of type → c ∈ asserts type ++ straps type → write c ≠ write (getResetRelease type i).
Proof.
  intros Hi Hc.
  assert (Hall : Forall (λ i, Forall (λ c, write c ≠ write (getResetRelease type i))
                                (asserts type ++ straps type)) (boards_of type)).
  { apply (bool_decide_unpack _). destruct type; vm_compute; exact I. }
  rewrite Forall_forall in Hall. specialize (Hall i Hi). rewrite Forall_forall in Hall. by apply Hall.
Qed.

(** C34: No board's reset is released before every reset has been asserted and
    every strap of every board written, successfully; and the whole succeeds
    exactly when it made all its writes, in order, and none failed. *)
Theorem release_after_straps configTypeStr type
    (Htype : parseConfigType configTypeStr = Some type) :
  let '(result, history) := forceRecoveryMode gpioset configTypeStr [] in
  (∀ i ok, i ∈ boards_of type → (write (getResetRelease type i), ok) ∈ history →
     ∃ rest, history = done_ok (asserts type ++ straps type) ++ rest) ∧
  ((∃ boards, result = Some (true, boards)) ↔
     history = done_ok (asserts type ++ straps type ++ releases type)).
Proof.
  pose proof (pins_valid type) as Hv. unfold valid_pins in Hv.
  rewrite !Forall_app in Hv. destruct Hv as (Hv1 & Hv2 & Hv3).
  unfold forceRecoveryMode. rewrite Htype. unfold mbind, G_bind.
  fold (boards_of type).
  (* a phase that fails *)
  assert (Hfail : ∀ h' (b : Boards), phase (asserts type ++ straps type) [] h' false →
    (∀ i ok, i ∈ boards_of type → (write (getResetRelease type i), ok) ∈ h' →
       ∃ rest, h' = done_ok (asserts type ++ straps type) ++ rest) ∧
    ((∃ boards, Some (false, b) = Some (true, boards)) ↔
       h' = done_ok (asserts type ++ straps type ++ releases type))).
  { intros h' b (es & -> & Hsub & e & He & Hf). cbn [app]. split.
    - intros i ok Hi Hin. exfalso.
      assert (Hw : write (getResetRelease type i) ∈ es.*1)
        by (apply list_elem_of_fmap; exists (write (getResetRelease type i), ok); split; [done|exact Hin]).
      apply Hsub, list_elem_of_fmap in Hw as (c & Hc & Hin').
      by apply (release_pins_differ type i c Hi Hin').
    - split; [by intros (? & ?)|]. intros ->. exfalso. unfold done_ok in He.
      apply list_elem_of_fmap in He as (c & -> & _). done. }
  pose proof (each_board_phase (getResetAssert type) assert_error (boards_of type)
    (const None <$> boards_of type) true [] Hv1) as H1.
  destruct (each_board _ (getResetAssert type) _ _ _ _ _) as [[ok1 b1] h1].
  destruct H1 as (ok1' & H1 & ->). cbn [andb].
  destruct ok1'; cbn [negb]; [|by apply Hfail, phase_stop].
  pose proof (program_straps_phase type (boards_of type) b1 true h1 Hv2) as H2.
  destruct (program_straps _ _ _ _ _ _) as [[ok2 b2] h2].
  destruct H2 as (ok2' & H2 & ->). cbn [andb].
  pose proof (phase_app _ _ _ _ _ _ _ H1 H2) as H12. cbn [andb] in H12.
  destruct ok2'; cbn [negb]; [|by apply Hfail].
  pose proof (each_board_phase (getResetRelease type) release_error (boards_of type) b2 true h2 Hv3)
    as H3.
  destruct (each_board _ (getResetRelease type) _ _ _ _ _) as [[ok3 b3] h3].
  destruct H3 as (ok3' & H3 & ->). cbn [andb].
  destruct H12 as (es & -> & _ & ->). destruct H3 as (es3 & -> & _ & Hes3). cbn [app]. split.
  - intros i ok _ _. by eexists.
  - unfold done_ok, releases in *. split.
    + intros (b & [= -> _]). subst es3. by rewrite !fmap_app, <-!app_assoc.
    + intros Heq. rewrite (app_assoc (asserts type)), (fmap_app _ (asserts type ++ _)) in Heq. apply app_inv_head in Heq. destruct ok3'; [by eexists|].
      destruct Hes3 as (e & He & Hf). rewrite Heq in He.
      apply list_elem_of_fmap in He as (c & -> & _). done.
Qed.
End Order.

Lemma release_after_straps_witness :
  let '(result, history) := forceRecoveryMode (λ _ _ _, true) "C2G4" [] in
  (∃ boards, result = Some (true, boards)) ↔
     history = done_ok (asserts C2G4 ++ straps C2G4 ++ releases C2G4).
Proof.
  pose proof (release_after_straps (λ _ _ _, true) "C2G4" C2G4 eq_refl) as Hr.
  destruct (forceRecoveryMode (λ _ _ _, true) "C2G4" []) as [result history]. apply Hr.
Defined.
