(* ===== verification/RcmMain.v ===== *)
(** * The status and the D-Bus front end of the RCM recovery

    src/recovery_tool/usbrcm_recovery_tool/get_recovery_status.cpp: one entry for every
    device with the vendor and product ids of an RCM device. What an entry says is
    computed by [device_entry] from what was read: the progress codes, the endpoints
    and the ECID.

    src/recovery_tool/usbrcm_recovery_tool/main_dbus.cpp: which of the devices
    configured in the entity manager are recovered, with what images, and what is
    reported of each. The managed objects, the file system and the results of the
    recovery tasks, which run in threads of their own, are arguments;
    [executeRecoveryTask] is what a thread runs. *)

From stdpp Require Import list strings gmultiset sets.
From S2P Require Import Prelude Bytes Text Trace Registry UsbIo ProgressCode ProgressQueue UsbDevices RcmRecovery.

(** * The recovery status of the connected CPUs *)

(** ** Data *)

(** [recovery_tool/usbrcm_recovery_tool/get_recovery_status.cpp:34-46 processDevice]
    The JSON object of a device; the CPU instance is a number or "Unknown". *)
Record DeviceEntry := mkDeviceEntry {
  de_portPath : string;
  de_error : string;
  de_cpuInstance : option Z;
  de_recoveryStatus : string;
  de_dotBlobRequired : string;
  de_bootSelectionInfo : string;
  de_lastProgressCode : string;
  de_lastErrorCode : string;
}.

(** An entry of which only an error is known. *)
Definition error_entry (portPath error : string) : DeviceEntry :=
  mkDeviceEntry portPath error None "Unknown" "Unknown" "" "" "".

(** ** What an entry says *)

(** [recovery_tool/usbrcm_recovery_tool/get_recovery_status.cpp:92-101 formatProgressCode] *)
Definition formatProgressCode (code : Z) : string :=
  let info := getProgressCodeInfo code in
  if decide (pi_name info = ""%string) then "0x" +:+ format_hex 8 code
  else "0x" +:+ format_hex 8 code +:+ " -> " +:+ pi_name info.

Definition cpuInstance (code : Z) : Z := packageClassToCpuId (pi_cpuId (getProgressCodeInfo code)).

(** The boot selection a code carries. *)
Definition bootSelection (code : option Z) : option BootSelInfo :=
  code ← code; pi_bootSelectionInfo (getProgressCodeInfo code).

Definition isInRecoveryBootMode (snapshot : CPUBootSnapshot) : bool :=
  match bootSelection (latestBootModeSelDone snapshot) with
  | Some b => bool_decide (bootMode b = Recovery)
  | None => false
  end.

(** [recovery_tool/usbrcm_recovery_tool/get_recovery_status.cpp:121-161 processDevice]
    The status the progress codes give. *)
Definition statusFromCodes (snapshot : CPUBootSnapshot) : string :=
  match bootSelection (latestBootModeSelDone snapshot) with
  | None => "Unknown"
  | Some _ =>
      if isInRecoveryBootMode snapshot then
        match latestProgressCode snapshot with
        | Some code => if isRecoveryComplete code then "Recovery Complete" else "In Recovery"
        | None => "In Recovery"
        end
      else "Not in Recovery"
  end.

(** [recovery_tool/usbrcm_recovery_tool/get_recovery_status.cpp:88-210 processDevice]
    The entry, from the progress codes, whether the device has the recovery
    endpoints, and its ECID. *)
Definition device_entry (portPath : string) (entries : list CPUProgressLogEntry)
    (isInRcmMode : bool) (ecid : option buffer) : DeviceEntry :=
  let snapshot := getCPUBootSnapshot entries in
  let inRecovery := isInRecoveryBootMode snapshot in
  mkDeviceEntry portPath
    (if inRecovery && negb isInRcmMode then
       "Boot mode indicates recovery but device lacks RCM endpoints"
     else if negb inRecovery && isInRcmMode then
       "Device has RCM endpoints but boot mode is not recovery"
     else "")
    match latestProgressCode snapshot with
    | Some code => Some (cpuInstance code)
    | None => match bootSelection (latestBootModeSelDone snapshot) with
              | Some _ => cpuInstance <$> latestBootModeSelDone snapshot
              | None => None
              end
    end
    (if eqb inRecovery isInRcmMode then statusFromCodes snapshot else "Unknown")
    match ecid with
    | Some ecid => if isDOTBlobRequired ecid then "Yes" else "No"
    | None => "Unknown"
    end
    match bootSelection (latestBootModeSelDone snapshot) with
    | Some b => stringRepresentation b
    | None => ""
    end
    (default "" (formatProgressCode <$> latestProgressCode snapshot))
    (default "" (formatProgressCode <$> latestErrorCode snapshot)).

Section Status.
Context `{UsbEnv, StdSort}.

(** [recovery_tool/usbrcm_recovery_tool/get_recovery_status.cpp:61-210 processDevice]
    With the session open. *)
Definition readDevice (device : UsbDevice) : M DeviceEntry :=
  '(ok, entries) ← readCpuPcqEntries device.1;
  if negb (ok : bool) then
    mret (error_entry device.2 "Failed to read progress codes from device") else
  if decide (entries = []) then
    mret (error_entry device.2 "No progress code entries found for device") else
  isInRcmMode ← isDeviceInRcmMode device.1;
  ecid ← readDeviceEcid device.1;
  mret (device_entry device.2 entries isInRcmMode ecid).

(** [recovery_tool/usbrcm_recovery_tool/get_recovery_status.cpp:31-211 processDevice] *)
Definition processDevice (device : UsbDevice) (ctx : bool) : M DeviceEntry :=
  controlSession ← UsbControlSession device.1 ctx;
  entry ← (if negb controlSession
           then mret (error_entry device.2 "Failed to open USB device")
           else readDevice device);
  _ ← UsbControlSession_destroy device.1 controlSession;
  mret entry.

Fixpoint processDevices (devices : list UsbDevice) (ctx : bool) : M (list DeviceEntry) :=
  match devices with
  | [] => mret []
  | device :: devices =>
      deviceEntry ← processDevice device ctx;
      rest ← processDevices devices ctx;
      mret (deviceEntry :: rest)
  end.

(** [recovery_tool/usbrcm_recovery_tool/get_recovery_status.cpp:221-260 getRecoveryStatus]
    The result with the JSON: an array of entries, or an object with an error. *)
Definition getRecoveryStatus : M (bool * (string + list DeviceEntry)) :=
  ctx ← UsbContext;
  result ←
    (if negb ctx then mret (false, inl "Failed to initialize USB subsystem"%string) else
     devices ← findDevicesByVidPid ctx;
     result ←
       (if decide (devices = []) then
          mret (true, inl "No USB devices found with Vera VID:PID=0x0955:0x7410"%string)
        else
          entries ← processDevices devices ctx;
          mret (true, inr entries));
     _ ← destroy_devices devices;
     mret result);
  _ ← UsbContext_destroy ctx;
  mret result.

(** ** The protocol is kept *)

Lemma looking_quiet refs d c : looking d c → quiet (lib_session refs d true) c.
Proof.
  unfold quiet, lib_session. destruct c; cbn [looking]; try done; intros Hd r; try subst;
    cbn [lib_step]; rewrite ?allow_true by set_solver; done.
Qed.

Lemma readDevice_conforms refs device :
  device.1 ∈ refs →
  conforms (lib_session refs device.1 true) (readDevice device)
    (λ _, lib_session refs device.1 true).
Proof.
  intros Hd. apply conforms_quiet. unfold readDevice.
  apply emits_bind; [eapply emits_impl, readCpuPcqEntries_emits; intros c Hc; by eapply looking_quiet, following_looking|].
  intros [ok entries]. case_match; [apply emits_ret|]. case_decide; [apply emits_ret|].
  apply emits_bind; [by apply isDeviceInRcmMode_quiet|intros rcm].
  apply emits_bind; [eapply emits_impl, readDeviceEcid_emits; apply looking_quiet|].
  intros ecid. apply emits_ret.
Qed.

Lemma processDevice_conforms refs device :
  device.1 ∈ refs →
  conforms (lib_holding refs) (processDevice device true) (λ _, lib_holding refs).
Proof.
  intros Hd. unfold processDevice.
  eapply conforms_bind; [by apply UsbControlSession_conforms|]. intros ok. cbv beta.
  eapply conforms_bind with (u := λ _, lib_session refs device.1 ok).
  { destruct ok; cbn [negb]; [by apply readDevice_conforms|by apply conforms_ret]. }
  intros entry. eapply conforms_bind; [apply UsbControlSession_destroy_conforms|].
  intros []. by apply conforms_ret.
Qed.

Lemma processDevices_conforms refs devices :
  refs_of devices ⊆ refs →
  conforms (lib_holding refs) (processDevices devices true) (λ _, lib_holding refs).
Proof.
  induction devices as [|device devices IH]; intros Hr; [by apply conforms_ret|].
  rewrite refs_of_cons in Hr.
  assert (Hd : device.1 ∈ refs) by (clear IH; multiset_solver).
  assert (Hr' : refs_of devices ⊆ refs) by (clear IH; multiset_solver).
  cbn [processDevices]. eapply conforms_bind; [by apply processDevice_conforms|].
  intros entry. eapply conforms_bind; [by apply IH|]. intros rest. by apply conforms_ret.
Qed.

(** Whatever the environment answers, asking for the status keeps the protocol
    of libusb and leaves nothing held. *)
Theorem status_conforms : conforms lib_off getRecoveryStatus (λ _, lib_off).
Proof.
  unfold getRecoveryStatus. eapply conforms_bind; [apply UsbContext_conforms|]. intros ctx.
  eapply conforms_bind; [|intros r; eapply conforms_bind;
    [apply UsbContext_destroy_conforms|intros []; by apply conforms_ret]].
  destruct ctx; cbn [negb]; [|by apply conforms_ret].
  eapply conforms_bind; [apply (findDevicesByVidPid_conforms ∅)|]. intros devices.
  eapply conforms_bind with (u := λ _, lib_holding (refs_of devices ⊎ ∅)).
  { case_decide; [by apply conforms_ret|].
    eapply conforms_bind; [apply processDevices_conforms; multiset_solver|].
    intros entries. by apply conforms_ret. }
  intros r. eapply conforms_bind; [apply destroy_devices_conforms|]. intros [].
  by apply conforms_ret.
Qed.
End Status.

(** ** What the status means *)

Lemma boot_selection_found entries code :
  latestBootModeSelDone (getCPUBootSnapshot entries) = Some code →
  bootSelection (Some code) = Some (decodeBootSelVal (getBootSelVal code)).
Proof.
  unfold getCPUBootSnapshot. destruct (find_if _ _) as [[i boot]|] eqn:Hf; [|done].
  intros [= <-]. apply list_find_Some in Hf as (_ & Hb & _).
  unfold is_boot_mode_sel_done in Hb. apply bool_decide_eq_true in Hb.
  unfold bootSelection, getProgressCodeInfo in *. cbn in *. by rewrite decide_True.
Qed.

(** The boot mode of the last boot selection of the log, if there is one. *)
Definition booted (entries : list CPUProgressLogEntry) : option BootMode :=
  (λ code, bootMode (decodeBootSelVal (getBootSelVal code))) <$>
    latestBootModeSelDone (getCPUBootSnapshot entries).

Ltac absurd_iff :=
  first [ done
        | let H1 := fresh in let H2 := fresh in
          intros [H1 H2]; first [discriminate (H1 eq_refl) | discriminate (H2 eq_refl)] ].

(** A device is in recovery, or done with it, exactly when its last boot was a
    recovery boot and it has the recovery endpoints; it is not in recovery when
    its last boot was another and it has none. When the two disagree the entry
    has an error and the status is unknown, as it is without a boot selection. *)
Theorem status_meaning portPath entries rcm ecid :
  let e := device_entry portPath entries rcm ecid in
  let complete := match latestProgressCode (getCPUBootSnapshot entries) with
                  | Some code => isRecoveryComplete code | None => false end in
  (de_error e = ""%string ↔ (booted entries = Some Recovery ↔ rcm = true)) ∧
  de_recoveryStatus e =
    match booted entries, rcm with
    | Some Recovery, true => if complete then "Recovery Complete" else "In Recovery"
    | Some ColdbootOrStreaming, false => "Not in Recovery"
    | _, _ => "Unknown"
    end%string.
Proof.
  cbn zeta. unfold device_entry, booted, isInRecoveryBootMode, statusFromCodes.
  cbn [de_error de_recoveryStatus].
  destruct (latestBootModeSelDone (getCPUBootSnapshot entries)) as [code|] eqn:Hb.
  - pose proof (boot_selection_found _ _ Hb) as Hs. unfold isInRecoveryBootMode.
    rewrite Hb, Hs. cbn [fmap option_fmap option_map].
    generalize (bootMode (decodeBootSelVal (getBootSelVal code))) as mode.
    generalize (latestProgressCode (getCPUBootSnapshot entries)) as progress.
    intros progress mode. clear.
    destruct mode; [rewrite bool_decide_true by done|rewrite bool_decide_false by done];
      destruct rcm; cbn [eqb negb andb]; (split; [split; [split|]|]);
      try absurd_iff.
    by destruct progress.
  - unfold isInRecoveryBootMode. rewrite Hb. cbn [bootSelection mbind option_bind].
    destruct rcm; cbn [eqb negb andb fmap option_fmap option_map]; (split; [split; [split|]|]);
      try absurd_iff.
Qed.

(** * The D-Bus front end of the RCM recovery *)

(** ** Data *)

(** [recovery_tool/usbrcm_recovery_tool/main_dbus.cpp:54-65 componentMap] *)
Definition componentMap : list (Z * string) :=
  [(0x2, "SBIOS_FMC"); (0x3, "L1_PT"); (0x204, "CSH-OEM_FWS"); (0x206, "Caliptra_FMC");
   (0x205, "PSC_BCT"); (0x207, "CSH-NV_FWS"); (0x208, "OOBHUB_FW"); (0x209, "PSC_FW_Text");
   (0x20A, "PSC_FW_Data")]%string.

(** [recovery_tool/usbrcm_recovery_tool/main_dbus.cpp:162-166 RecoveryTask] *)
Record RecoveryTask := mkRecoveryTask { deviceName : string; usbPort : string }.

(** [recovery_tool/usbrcm_recovery_tool/main_dbus.cpp:168-175 RecoveryResult] *)
Record RecoveryResult := mkRecoveryResult {
  rr_success : bool;
  rr_errorCode : Z;
  rr_errorMessage : string;
  rr_emptyDotBlobAccepted : bool;
}.

(** What is told to the message registry, and of whom: a message, or the
    resource errors of a code. *)
Inductive Message :=
| MessageRegistry (id device : string)
| MessageRegistryResourceErrors (code : Z) (device : string).



(** A managed object: the last component of its path, whether it has the
    configuration interface, and its USB port. *)
Record ManagedObject := mkManagedObject {
  mo_filename : string;
  mo_configured : bool;
  mo_USBPort : option string;
}.

(** ** Files *)

Definition is_digit (c : Ascii.ascii) : bool :=
  let n := Ascii.nat_of_ascii c in ((48 <=? n) && (n <=? 57))%nat.

(** [recovery_tool/usbrcm_recovery_tool/main_dbus.cpp:95-122 getDotBlobPath] *)
Definition getDotBlobPath (exists_ : string → bool) (deviceName : string) : string :=
  match after_last "CPU_" deviceName with
  | None => ""
  | Some suffix =>
      if decide (suffix = ""%string) then "" else
      if negb (forallb is_digit (String.list_ascii_of_string suffix)) then "" else
      let dotBlobPath := "/var/emmc/misc/dot-blob/CPU_" +:+ suffix +:+ ".bin" in
      if exists_ dotBlobPath then dotBlobPath else ""
  end.

(** [recovery_tool/usbrcm_recovery_tool/main_dbus.cpp:182-237 getOrderedImagePaths]
    A directory that exists has entries, each a path and whether it is a
    regular file, in the order the iterator gives. *)
Definition getOrderedImagePaths (directory : string → option (list (string * bool)))
    (basePath : string) : list string :=
  componentMap ≫= λ '(compId, _),
    match directory (path_append basePath (to_string compId)) with
    | None => []
    | Some entries =>
        match find_if (λ e : string * bool, e.2) entries with
        | Some (_, (path, _)) => [path]
        | None => []
        end
    end.

(** ** Devices *)

(** [recovery_tool/usbrcm_recovery_tool/main_dbus.cpp:130-147 findDeviceByPort] *)
Definition findDeviceByPort (devices : string + list DeviceEntry) (port : string)
    : option DeviceEntry :=
  match devices with
  | inl _ => None
  | inr entries => snd <$> find_if (λ e, bool_decide (de_portPath e = port)) entries
  end.

(** [recovery_tool/usbrcm_recovery_tool/main_dbus.cpp:378-461 main]
    One configured device: what is reported, the task it is queued for, and
    whether it fails the tool. *)
Definition plan_device (allDevicesStatus : string + list DeviceEntry) (o : ManagedObject)
    : list Message * option RecoveryTask * bool :=
  let device := mo_filename o in
  match mo_USBPort o with
  | None | Some "" =>
      ([MessageRegistryResourceErrors deviceNotResponding device], None, true)
  | Some port =>
      match findDeviceByPort allDevicesStatus port with
      | None => ([MessageRegistryResourceErrors DeviceNotFound device], None, true)
      | Some entry =>
          let recoveryStatus := de_recoveryStatus entry in
          if decide (recoveryStatus = "Not in Recovery") then
            ([MessageRegistry firmwareNotInRecovery device], None, false) else
          if decide (recoveryStatus = "Recovery Complete") then
            ([MessageRegistry recoverySuccessful device], None, false) else
          if negb (bool_decide (recoveryStatus = "In Recovery")) then
            ([MessageRegistryResourceErrors deviceNotResponding device], None, true) else
          ([MessageRegistry recoveryStarted device], Some (mkRecoveryTask device port), false)
      end
  end%string.

(** [recovery_tool/usbrcm_recovery_tool/main_dbus.cpp:376-461 main]
    All of them, in order; the interface is what [interfaces.contains] finds. *)
Fixpoint plan (allDevicesStatus : string + list DeviceEntry) (objects : list ManagedObject)
    : list Message * list RecoveryTask * bool :=
  match objects with
  | [] => ([], [], false)
  | o :: objects =>
      let '(messages, tasks, failed) := plan allDevicesStatus objects in
      if negb (mo_configured o) then (messages, tasks, failed) else
      let '(m, t, f) := plan_device allDevicesStatus o in
      (m ++ messages, option_list t ++ tasks, f || failed)
  end.

(** [recovery_tool/usbrcm_recovery_tool/main_dbus.cpp:472-478 main] *)
Definition futures (run : RecoveryTask → RecoveryResult) (tasks : list RecoveryTask)
    : list (string * RecoveryResult) :=
  foldl (λ l task, emplace (deviceName task) (run task) l) [] tasks.

(** [recovery_tool/usbrcm_recovery_tool/main_dbus.cpp:486-517 main]
    What is reported of a result. *)
Definition conclude (device : string) (result : RecoveryResult) : Message :=
  if rr_success result then
    MessageRegistry (if rr_emptyDotBlobAccepted result then enterDOTRecovery
                     else recoverySuccessful) device
  else MessageRegistryResourceErrors (rr_errorCode result) device.

(** [recovery_tool/usbrcm_recovery_tool/main_dbus.cpp:310-535 main]
    From the managed objects on: the exit status and the messages. *)
Definition main (managedObjects : list ManagedObject)
    (recoveryStatus : bool * (string + list DeviceEntry)) (imagePaths : list string)
    (run : RecoveryTask → RecoveryResult) : Z * list Message :=
  let tool := "USBRCMRecovery"%string in
  if decide (managedObjects = []) then
    (-1, [MessageRegistryResourceErrors noDevicesFound tool]) else
  let '(ok, allDevicesStatus) := recoveryStatus in
  if negb ok then (-1, [MessageRegistryResourceErrors DeviceNotFound tool]) else
  if negb (length imagePaths =? length componentMap)%nat then
    (-1, [MessageRegistryResourceErrors FileOpenFailure tool]) else
  let '(messages, recoveryTasks, failed) := plan allDevicesStatus managedObjects in
  let recoveryTaskState := if failed : bool then -1 else 0 in
  if decide (recoveryTasks = []) then (recoveryTaskState, messages) else
  let results := futures run recoveryTasks in
  ((if existsb (λ r : string * RecoveryResult, negb (rr_success r.2)) results then -1
    else recoveryTaskState),
   messages ++ ((λ r : string * RecoveryResult, conclude r.1 r.2) <$> results)).

Section Task.
Context `{UsbEnv, StdSort}.

(** [recovery_tool/usbrcm_recovery_tool/main_dbus.cpp:250-308 executeRecoveryTask] *)
Definition executeRecoveryTask (exists_ : string → bool) (task : RecoveryTask)
    (imagePaths : list string) : M RecoveryResult :=
  recoveryOutput ← performUsbRecovery (usbPort task) imagePaths
                     (getDotBlobPath exists_ (deviceName task));
  mret match recoveryOutput with
       | Failed error code => mkRecoveryResult false code error false
       | Successful emptyDotBlobAccepted => mkRecoveryResult true 0 "" emptyDotBlobAccepted
       end.
End Task.

(** ** What is reported *)















(** ** What each device is due *)






(** Two devices, of which one is in recovery. *)
Definition example_entry (port status : string) : DeviceEntry :=
  mkDeviceEntry port "" (Some 0) status "No" "" "" "".


(** ** What reaches the log *)

(** The entry a message leaves in the log. *)
Definition message_entry (m : Message) : option Entry :=
  match m with
  | MessageRegistry id device => createMessageRegistry id device
  | MessageRegistryResourceErrors code device =>
      createMessageRegistryResourceErrors resourceErrorsDetected USBRCMRecovery code device Critical
  end.

Definition reportable_code (code : Z) : Prop := reportable USBRCMRecovery code = true.

Definition reportable_output (o : Output) : Prop :=
  match o with Failed _ code => reportable_code code | Successful _ => True end.

Lemma reportable_range (offset operation n : Z) :
  forallb (λ k : nat, reportable USBRCMRecovery (offset + Z.of_nat k)) (seq 1 (Z.to_nat n)) = true →
  (1 <=? operation) && (operation <=? n) = true → reportable_code (offset + operation).
Proof.
  intros Hall Hop. bool_to_prop. rewrite List.forallb_forall in Hall.
  specialize (Hall (Z.to_nat operation)). rewrite Z2Nat.id in Hall by lia.
  apply Hall, List.in_seq. lia.
Qed.

Lemma progress_code_reportable code : reportable_code (progressCodeToRecoveryErrorCode code).
Proof.
  unfold progressCodeToRecoveryErrorCode, pscRomErrorToRecoveryErrorCode, pscFmcErrorToRecoveryErrorCode.
  destruct (negb _); [done|]. destruct (pi_subClass _); try done.
  - destruct (_ && _) eqn:Hop; [|done]. by apply (reportable_range _ _ 0x22).
  - destruct (_ && _) eqn:Hop; [|done]. by apply (reportable_range _ _ 0x10).
Qed.

Lemma check_entries_reportable entries m :
  reportable_code (errorCode m) → reportable_code (errorCode (check_entries entries m).2).
Proof.
  revert m. induction entries as [|e entries IH]; intros m Hm; [done|]. cbn [check_entries].
  repeat case_match; try done; [by apply IH|apply progress_code_reportable|by apply IH].
Qed.

Section Reported.
Context `{UsbEnv, StdSort}.

Lemma monitor_reportable n d m :
  reportable_code (errorCode m) →
  returns (monitorProgressAfterImageTransfer n d m) (λ r, reportable_code (errorCode r.2)).
Proof.
  revert m. induction n as [|n IH]; intros m Hm; [by apply returns_ret|]. cbn [monitorProgressAfterImageTransfer].
  apply returns_any. intros _.
  apply (returns_bind _ _ (λ r : ProgressStatus * Monitor, reportable_code (errorCode r.2))).
  - apply returns_any. intros [ok entries]. apply returns_ret. destruct ok; [by apply check_entries_reportable|done].
  - intros [status m'] Hm'. case_match; [by apply IH|by apply returns_ret].
Qed.

Lemma send_images_reportable d blobPath total i images accepted m :
  reportable_code (errorCode m) →
  returns (send_images d blobPath total i images accepted m) reportable_output.
Proof.
  revert i accepted m. induction images as [|image images IH]; intros i accepted m Hm; [by apply returns_ret|].
  cbn [send_images]. apply returns_any. intros [data|]; [|by apply returns_ret].
  apply returns_any. intros [|err].
  - eapply returns_bind; [by apply monitor_reportable|]. intros [status m'] Hm'. cbn [snd] in Hm'.
    destruct status; [|by apply returns_ret|destruct (_ || _); [|by apply returns_ret]];
      (apply returns_any; intros _; by apply IH).
  - apply returns_ret. by destruct (_ && _).
Qed.

Lemma task_reportable exists_ task images :
  returns (executeRecoveryTask exists_ task images)
    (λ r, rr_success r = false → reportable_code (rr_errorCode r)).
Proof.
  unfold executeRecoveryTask. apply (returns_bind _ _ reportable_output).
  - unfold performUsbRecovery. case_decide; [done|]. case_decide; [done|].
    apply returns_any. intros ctx. apply (returns_bind _ _ reportable_output).
    + destruct ctx; [cbn [negb]|done]. apply returns_any. intros [device|]; [|done].
      apply returns_any. intros handle. apply (returns_bind _ _ reportable_output).
      * destruct handle; [cbn [negb]|done]. unfold recover. apply returns_any. intros ecid.
        unfold finalImagePaths. repeat case_match; simplify_eq; try done; by apply send_images_reportable.
      * intros result Hr. apply returns_any. intros _. apply returns_any. intros _ w. exact Hr.
    + intros result Hr. apply returns_any. intros _ w. exact Hr.
  - by intros [error code|accepted] Ho w.
Qed.

(** Every message of a run leaves an entry in the log: whatever the devices and
    the library answer, no failure has a code the registry does not know. *)
Theorem every_message_logged exists_ objects status images run
    (Hrun : ∀ task, ∃ w, run task = (executeRecoveryTask exists_ task images w).1) :
  Forall (λ m, is_Some (message_entry m)) (main objects status images run).2.
Proof.
  assert (Hplan : ∀ entries objects, Forall (λ m, is_Some (message_entry m)) (plan entries objects).1.1).
  { intros entries objs. induction objs as [|o objs IH]; [constructor|]. cbn [plan].
    destruct (plan entries objs) as [[messages tasks] failed]. destruct (mo_configured o); [|done].
    cbn [negb]. destruct (plan_device entries o) as [[m t] f] eqn:Hp. apply Forall_app. split; [|done].
    unfold plan_device in Hp. repeat case_match; simplify_eq; repeat constructor; by eexists. }
  unfold main. case_decide; [repeat constructor; by eexists|]. destruct status as [ok entries].
  destruct ok; cbn [negb]; [|repeat constructor; by eexists].
  case_match; [repeat constructor; by eexists|].
  specialize (Hplan entries objects). destruct (plan entries objects) as [[messages tasks] failed].
  cbn [fst snd] in *. case_decide; [done|]. apply Forall_app. split; [done|].
  apply Forall_fmap. unfold futures.
  enough (Hf : ∀ acc, Forall (λ r : string * RecoveryResult, is_Some (message_entry (conclude r.1 r.2))) acc →
    Forall (λ r : string * RecoveryResult, is_Some (message_entry (conclude r.1 r.2)))
      (foldl (λ l task, emplace (deviceName task) (run task) l) acc tasks)) by (apply Hf; constructor).
  clear -Hrun. induction tasks as [|t tasks IH]; intros acc Hacc; [done|]. cbn [foldl].
  apply IH, emplace_Forall; [|done]. cbn [fst snd]. unfold conclude.
  destruct (rr_success (run t)) eqn:Hs.
  - destruct (rr_emptyDotBlobAccepted _); by eexists.
  - apply reported_error. destruct (Hrun t) as [w Hw]. rewrite Hw in *.
    by apply task_reportable.
Qed.
End Reported.

(** Devices whose USB subsystem cannot be read. *)
Definition failing_run (task : RecoveryTask) : RecoveryResult :=
  (@executeRecoveryTask (model_env (const None) (const None) None) ProgressQueue.merge_sort_StdSort
     (const false) task (replicate 9 "image"%string) (@mkWorld _ _ (model_env (const None) (const None) None) () [])).1.

Lemma every_message_logged_witness :
  Forall (λ m, is_Some (message_entry m))
    (main [mkManagedObject "CPU_0" true (Some "1-1"%string)]
       (true, inr [example_entry "1-1" "In Recovery"]) (replicate 9 "image"%string) failing_run).2.
Proof.
  refine (@every_message_logged (model_env (const None) (const None) None)
    ProgressQueue.merge_sort_StdSort (const false) _ _ _ failing_run _).
  intros task. exists (@mkWorld _ _ (model_env (const None) (const None) None) () []). reflexivity.
Defined.
