(* ===== verification/Mctp.v ===== *)
(** * The MCTP VDM requester of fw-status

    src/fw-status/mctp_util: instance ids (instance_id.hpp), the retry timer of
    a request (request.hpp), the request handler (handler.hpp), the sockets of
    the endpoints (socket_manager.hpp, socket_handler.{hpp,cpp}) and the boot
    status query (mctp_vdm_helper.cpp), as one state and one function per
    operation. A suspended coroutine is a [Callback]; resuming it is recorded
    in [completed]. [std::unordered_map] iterates in an order of its own: any
    that [HashOrder] allows.

    The event loop runs one [Step] at a time: a query, a message received, the
    expiry of an instance id, the removal it defers, a retry. A query made from
    within a resumed coroutine is a step after the one that resumed it. *)

From stdpp Require Import list strings gmap sets.
From Equations Require Import Equations.
From S2P Require Import Prelude Bytes.

(** ** Data *)

(** [fw-status/mctp_util/handler.hpp:52-64 RequestKey] *)
Record RequestKey := mkRequestKey { eid : Z; instanceId : Z; type : Z; command : Z }.

#[export] Instance RequestKey_eq_dec : EqDecision RequestKey.
Proof. solve_decision. Defined.

#[export] Instance RequestKey_countable : Countable RequestKey.
Proof.
  refine (inj_countable' (λ k, (eid k, instanceId k, type k, command k))
    (λ '(e, i, t, c), mkRequestKey e i t c) _).
  by intros [].
Defined.

(** A coroutine that waits for a response. *)
Definition Callback : Type := nat.

(** What a response handler is called with: the payload, or no response. *)
Definition Response : Type := option buffer.

(** [fw-status/mctp_util/handler.hpp:328-334 RequestValue]
    The request with its retries and whether its retry timer runs, the
    response handler, and whether the instance id timer runs. *)
Record RequestValue := mkRequestValue {
  rv_numRetries : Z;
  rv_retryTimer : bool;
  rv_handler : Callback;
  rv_expiryTimer : bool;
}.

(** The instance id manager, the endpoints with a socket, the requests, those
    to be removed, what has been sent, and the coroutines resumed. *)
Record Requester := mkRequester {
  ids : gmap Z (gset Z);
  sockets : gmap Z Z;
  handlers : gmap RequestKey RequestValue;
  removing : gset RequestKey;
  sent : list RequestKey;
  completed : list (Callback * Response);
}.

Definition initial : Requester := mkRequester ∅ ∅ ∅ ∅ [] [].

Definition set_ids f s := mkRequester (f (ids s)) (sockets s) (handlers s) (removing s) (sent s) (completed s).
Definition set_sockets f s := mkRequester (ids s) (f (sockets s)) (handlers s) (removing s) (sent s) (completed s).
Definition set_handlers f s := mkRequester (ids s) (sockets s) (f (handlers s)) (removing s) (sent s) (completed s).
Definition set_removing f s := mkRequester (ids s) (sockets s) (handlers s) (f (removing s)) (sent s) (completed s).
Definition set_sent f s := mkRequester (ids s) (sockets s) (handlers s) (removing s) (f (sent s)) (completed s).
Definition set_completed f s := mkRequester (ids s) (sockets s) (handlers s) (removing s) (sent s) (f (completed s)).

(** How the program can fail: a call of an empty [unique_function], a read
    past the end of a message. *)
Inductive Fault := EmptyFunction | OutOfBounds.

(** [fw-status/mctp_util/mctp_vdm_completion_codes.hpp:23-31 CompletionCodes] *)
Definition Success : Z := 0.
Definition ErrGeneral : Z := 1.

(** [fw-status/mctp_util/constants.hpp:43-52 nvidiaMsgType]
    and the other constants of the header. *)
Definition nvidiaIANA : Z := 5703.
Definition nvidiaMsgType : Z := 1.
Definition nvidiaMsgVersion : Z := 1.
Definition numCommandRetries : Z := 3.

(** The order in which a hash map is iterated. *)
Class HashOrder := {
  iterate : gmap RequestKey RequestValue → list (RequestKey * RequestValue);
  iterate_perm m : iterate m ≡ₚ map_to_list m;
}.

(** ** Instance ids *)

(** [fw-status/mctp_util/instance_id.hpp:29-29 maxInstanceIds] *)
Definition maxInstanceIds : nat := 32.

(** [fw-status/mctp_util/instance_id.hpp:42-57 next]
    The first id that is not set, from [idx] on with [n] left; [None] is the
    exception. *)
Fixpoint next_id (n : nat) (idx : Z) (id : gset Z) : option Z :=
  match n with
  | O => None
  | S n => if decide (idx ∈ id) then next_id n (idx + 1) id else Some idx
  end.

Definition used_ids (e : Z) (s : Requester) : gset Z := default ∅ (ids s !! e).

(** [fw-status/mctp_util/instance_id.hpp:82-102 getInstanceId]
    [None] is TooManyResources. *)
Definition getInstanceId (e : Z) (s : Requester) : option Z * Requester :=
  match next_id maxInstanceIds 0 (used_ids e s) with
  | Some id => (Some id, set_ids <[e := {[id]} ∪ used_ids e s]> s)
  | None => (None, set_ids <[e := used_ids e s]> s)
  end.

(** [fw-status/mctp_util/instance_id.hpp:62-65 markFree]
    [fw-status/mctp_util/instance_id.hpp:109-112 markFree] for the manager;
    the ids that reach it come from five bits. *)
Definition markFree (e id : Z) (s : Requester) : Requester :=
  set_ids <[e := used_ids e s ∖ {[id]}]> s.

Section Requester.
Context `{HashOrder}.

(** What sending the [n]-th message answers, with a retry timer that could not
    be started counted as -1; and whether the instance id timer starts. *)
Context (start : nat → RequestKey → Z) (expiry_starts : nat → RequestKey → bool).

(** What opening the socket answers. *)
Context (initSocket : Z).

(** ** Sockets *)

(** [fw-status/mctp_util/socket_manager.hpp:62-70 getSocket] *)
Definition getSocket (e : Z) (s : Requester) : Z := default (-1) (sockets s !! e).

(** [fw-status/mctp_util/socket_handler.hpp:88-134 activateSockets]
    of one endpoint; [socketInfoMap] is never given an entry. *)
Definition activateSocket (e : Z) (s : Requester) : Z * Requester :=
  if 0 <=? getSocket e s then (0, s) else
  if initSocket <? 0 then (-1, s) else (0, set_sockets <[e := initSocket]> s).

(** [fw-status/mctp_util/socket_handler.hpp:149-166 deactivateSocket] *)
Definition deactivateSocket (e : Z) (s : Requester) : Requester := set_sockets (delete e) s.

(** ** Resuming a coroutine *)

(** [fw-status/mctp_util/handler.hpp:495-511 HandleResponse]
    An empty response is none. The query deactivates the socket before it
    returns. *)
Definition resume (cb : Callback) (e : Z) (response : Response) (s : Requester) : Requester :=
  let response := match response with Some [] => None | _ => response end in
  deactivateSocket e (set_completed (λ l, l ++ [(cb, response)]) s).

(** ** Running the requests *)

Inductive Scan := Running | Idle | ToRun (key : RequestKey) (v : RequestValue).

(** [fw-status/mctp_util/handler.hpp:207-231 runRegisteredRequest]
    The loop over the handlers: a request of the endpoint that runs, or else
    the first of them. *)
Fixpoint scan (e : Z) (toRun : Scan) (l : list (RequestKey * RequestValue)) : Scan :=
  match l with
  | [] => toRun
  | (key, v) :: l =>
      if negb (eid key =? e) then scan e toRun l else
      if rv_expiryTimer v then Running else
      scan e (match toRun with Idle => ToRun key v | _ => toRun end) l
  end.

(** [fw-status/mctp_util/request.hpp:75-98 RequestRetryTimer::start]
    with the start of the instance id timer
    (fw-status/mctp_util/handler.hpp:239-268). *)
Definition start_request (key : RequestKey) (s : Requester) : Z * Requester :=
  let n := length (sent s) in
  let rc := start n key in
  let s := set_sent (λ l, l ++ [key]) s in
  if negb (rc =? 0) then (rc, s) else
  if negb (expiry_starts n key) then (ErrGeneral, s) else
  (0, set_handlers
        (alter (λ v, mkRequestValue (rv_numRetries v) (negb (rv_numRetries v =? 0))
                       (rv_handler v) true) key) s).

(** [fw-status/mctp_util/handler.hpp:352-370 failRegisteredRequest] *)
Definition failRegisteredRequest (key : RequestKey) (synchronousKey : option RequestKey)
    (s : Requester) : Requester :=
  match handlers s !! key with
  | None => s
  | Some v =>
      let s := set_handlers (delete key) s in
      if decide (synchronousKey = Some key) then s else resume (rv_handler v) (eid key) None s
  end.

Lemma failRegisteredRequest_handlers key sync s :
  handlers (failRegisteredRequest key sync s) = delete key (handlers s).
Proof.
  unfold failRegisteredRequest. destruct (handlers s !! key) as [v|] eqn:Hk.
  - by repeat case_decide.
  - by rewrite delete_id.
Qed.

Lemma size_delete_lt {A} (m : gmap RequestKey A) key x :
  m !! key = Some x → (size (delete key m) < size m)%nat.
Proof.
  intros Hk. rewrite map_size_delete_Some by done.
  assert (size m ≠ 0%nat); [|lia].
  intros H0. apply map_size_empty_inv in H0. by rewrite H0, lookup_empty in Hk.
Qed.

Definition inspect {A} (a : A) : {b : A | a = b} := exist _ a eq_refl.

Lemma scan_found e l toRun key v :
  scan e toRun l = ToRun key v → toRun = ToRun key v ∨ (key, v) ∈ l.
Proof.
  revert toRun. induction l as [|[k w] l IH]; intros toRun; cbn [scan]; [by left|].
  case_match; [intros Hs; destruct (IH _ Hs); [by left|right; by right]|].
  case_match; [done|]. intros Hs. destruct (IH _ Hs) as [Ht|Ht]; [|right; by right].
  destruct toRun; simplify_eq; [right; left|by left].
Qed.

Lemma scan_handlers e s key v :
  scan e Idle (iterate (handlers s)) = ToRun key v → handlers s !! key = Some v.
Proof.
  intros [Hi|Hin]%scan_found; [done|].
  rewrite iterate_perm in Hin. by apply elem_of_map_to_list.
Qed.

Lemma start_request_handlers key s rc s' :
  start_request key s = (rc, s') → rc ≠ 0 → handlers s' = handlers s.
Proof.
  unfold start_request. intros Hs Hrc. repeat case_match; simplify_eq; done.
Qed.

(** [fw-status/mctp_util/handler.hpp:202-273 runRegisteredRequest]
    Every request that cannot be started is removed, so that the loop ends. *)
Equations? runRegisteredRequest (e : Z) (synchronousKey : option RequestKey) (s : Requester)
    : Z * Requester by wf (size (handlers s)) lt :=
  runRegisteredRequest e synchronousKey s with inspect (scan e Idle (iterate (handlers s))) := {
    | exist _ (ToRun key v) Hscan with inspect (start_request key s) := {
        | exist _ (rc, s') Hstart with decide (rc = 0) := {
            | left _ => (Success, s')
            | right Hrc =>
                let s'' := failRegisteredRequest key synchronousKey
                             (markFree e (instanceId key) s') in
                if decide (synchronousKey = Some key) then (rc, s'')
                else runRegisteredRequest e synchronousKey s'' } }
    | exist _ _ _ => (Success, s) }.
Proof.
  apply scan_handlers in Hscan. pose proof (start_request_handlers _ _ _ _ Hstart Hrc) as Hh.
  unfold s''. rewrite failRegisteredRequest_handlers. cbn [handlers markFree set_ids].
  rewrite Hh. by apply size_delete_lt with v.
Defined.

(** ** The operations *)

(** [fw-status/mctp_util/handler.hpp:136-200 registerRequest] *)
Definition registerRequest (key : RequestKey) (cb : Callback) (s : Requester) : Z * Requester :=
  if getSocket (eid key) s <? 0 then (-1, s) else
  match handlers s !! key with
  | Some _ => (ErrGeneral, s)
  | None =>
      runRegisteredRequest (eid key) (Some key)
        (set_handlers <[key := mkRequestValue numCommandRetries false cb false]> s)
  end.

(** [fw-status/mctp_util/mctp_vdm_helper.cpp:37-87 queryBootStatus]
    The coroutine is suspended, or has an outcome at once: a code that is not
    zero. *)
Definition queryBootStatus (e : Z) (cb : Callback) (s : Requester) : option Z * Requester :=
  let '(ret, s) := activateSocket e s in
  if ret <? 0 then (Some (u8 ret), s) else
  let '(id, s) := getInstanceId e s in
  match id with
  | None => (Some ErrGeneral, deactivateSocket e s)
  | Some id =>
      let '(rc, s) := registerRequest (mkRequestKey e id nvidiaMsgType 0x05) cb s in
      if u8 rc =? 0 then (None, s) else (Some (u8 rc), deactivateSocket e s)
  end.

(** [fw-status/mctp_util/handler.hpp:284-315 handleResponse] *)
Definition handleResponse (key : RequestKey) (response : Response) (s : Requester) : Requester :=
  let s :=
    match handlers s !! key with
    | Some v =>
        markFree (eid key) (instanceId key)
          (resume (rv_handler v) (eid key) response (set_handlers (delete key) s))
    | None => markFree (eid key) (instanceId key) s
    end in
  (runRegisteredRequest (eid key) None s).2.

(** [fw-status/mctp_util/types.hpp:72-90 MsgHeader]
    The fields of the header of a message: instance id, request bit, type and
    command; none when it is shorter than a header. *)
Definition parse_header (msg : buffer) : option (Z * Z * Z * Z) :=
  match msg with
  | _ :: _ :: _ :: _ :: flags :: msgType :: commandCode :: _ :: _ =>
      Some (flags .& 0x1F, (flags ≫ 7) .& 1, msgType, commandCode)
  | _ => None
  end.

(** [fw-status/mctp_util/mctp_vdm_helper.cpp:65-72 queryBootStatusImpl]
    The message a query sends. *)
Definition request_message (id : Z) : buffer :=
  [0; 0; nvidiaIANA / 256; nvidiaIANA mod 256; 0x80 .| id; nvidiaMsgType; 0x05; nvidiaMsgVersion].

(** [fw-status/mctp_util/socket_handler.cpp:33-44 processRxMsg] *)
Definition processRxMsg (e : Z) (msg : buffer) (s : Requester) : Fault + Requester :=
  match parse_header msg with
  | None => inl OutOfBounds
  | Some (id, request, msgType, commandCode) =>
      inr (if request =? 0
           then handleResponse (mkRequestKey e id msgType commandCode) (Some (drop 8 msg)) s
           else s)
  end.

(** [fw-status/mctp_util/handler.hpp:149-179 registerRequest]
    The callback of the instance id timer of a request that is registered. *)
Definition instanceIdExpiry (key : RequestKey) (s : Requester) : Requester :=
  set_removing (λ r, {[key]} ∪ r)
    (set_handlers
       (alter (λ v, mkRequestValue (rv_numRetries v) false (rv_handler v) false) key) s).

(** [fw-status/mctp_util/handler.hpp:376-389 removeRequestEntry]
    [handlers[key]] makes an empty entry when there is none. *)
Definition removeRequestEntry (key : RequestKey) (s : Requester) : Fault + Requester :=
  if decide (key ∈ removing s) then
    match handlers s !! key with
    | None => inl EmptyFunction
    | Some v =>
        let s := resume (rv_handler v) (eid key) None s in
        let s := markFree (eid key) (instanceId key) s in
        let s := set_removing (λ r, r ∖ {[key]}) (set_handlers (delete key) s) in
        inr (runRegisteredRequest (eid key) None s).2
    end
  else inr (runRegisteredRequest (eid key) None s).2.

(** [fw-status/mctp_util/request.hpp:125-135 RequestRetryTimer::callback] *)
Definition retry (key : RequestKey) (s : Requester) : Requester :=
  match handlers s !! key with
  | None => s
  | Some v =>
      let left := u8 (rv_numRetries v - 1) in
      if negb (rv_numRetries v =? 0) then
        set_handlers <[key := mkRequestValue left (rv_retryTimer v) (rv_handler v) (rv_expiryTimer v)]>
          (set_sent (λ l, l ++ [key]) s)
      else
        set_handlers <[key := mkRequestValue left false (rv_handler v) (rv_expiryTimer v)]> s
  end.

(** ** The event loop *)

Inductive Step :=
| Query (e : Z) (cb : Callback)
| Receive (e : Z) (msg : buffer)
| Expire (key : RequestKey)
| Remove (key : RequestKey)
| Retry (key : RequestKey).

(** A timer fires when it runs, a deferred call when it is pending. *)
Definition enabled (s : Requester) (st : Step) : Prop :=
  match st with
  | Query _ _ => True
  | Receive _ msg => bytes_ok msg
  | Expire key => ∃ v, handlers s !! key = Some v ∧ rv_expiryTimer v = true
  | Remove key => key ∈ removing s
  | Retry key => ∃ v, handlers s !! key = Some v ∧ rv_retryTimer v = true
  end.

Definition exec (st : Step) (s : Requester) : Fault + Requester :=
  match st with
  | Query e cb =>
      let '(outcome, s) := queryBootStatus e cb s in
      inr (match outcome with
           | Some _ => set_completed (λ l, l ++ [(cb, None)]) s
           | None => s
           end)
  | Receive e msg => processRxMsg e msg s
  | Expire key => inr (instanceIdExpiry key s)
  | Remove key => removeRequestEntry key s
  | Retry key => inr (retry key s)
  end.
End Requester.
