(* ===== verification/MctpProofs.v ===== *)
(** * What the MCTP requester keeps

    Three groups: the requests of an endpoint are served one at a time and
    none is left unserved ([serviced]); every query is resumed exactly once
    ([callbacks]); and what happens to a request between its expiry and the
    removal that is deferred. *)

From stdpp Require Import list strings gmap sets.
From Equations Require Import Equations.
From S2P Require Import Prelude Bytes Mctp.

(** ** Instance ids *)

Lemma next_id_spec n idx id :
  match (next_id n idx id) with
  | Some i => idx ≤ i < idx + Z.of_nat n ∧ ¬ (i ∈ id) ∧ (∀ j, idx ≤ j < i → j ∈ id)
  | None => ∀ j, idx ≤ j < idx + Z.of_nat n → j ∈ id
  end.
Proof.
  revert idx. induction n as [|n IH]; intros idx; cbn [next_id]; [lia|].
  case_decide as Hin.
  - specialize (IH (idx + 1)). destruct (next_id n (idx + 1) id) as [i|].
    + destruct IH as (Hr & Hn & Hj). split_and!; [lia..|done|].
      intros j Hj'. destruct (decide (j = idx)) as [->|]; [done|]. apply Hj. lia.
    + intros j Hj. destruct (decide (j = idx)) as [->|]; [done|]. apply IH. lia.
  - split_and!; [lia..|done|lia].
Qed.

(** C40: An endpoint is given the least id it does not use, of its 32, until it is
    marked free; there is none only when all are in use. Other endpoints are
    not concerned. *)
Theorem instance_ids e s :
  match (getInstanceId e s) with
  | (Some id, s') =>
      0 ≤ id < 32 ∧ ¬ (id ∈ used_ids e s) ∧ (∀ j, 0 ≤ j < id → j ∈ used_ids e s) ∧
      used_ids e s' = {[id]} ∪ used_ids e s ∧ used_ids e (markFree e id s') = used_ids e s ∧
      ∀ e', e' ≠ e → used_ids e' s' = used_ids e' s
  | (None, s') => (∀ j, 0 ≤ j < 32 → j ∈ used_ids e s) ∧ ∀ e', used_ids e' s' = used_ids e' s
  end.
Proof.
  unfold getInstanceId. pose proof (next_id_spec maxInstanceIds 0 (used_ids e s)) as Hn.
  destruct (next_id _ _ _) as [id|].
  - destruct Hn as (Hr & Hnot & Hj). unfold maxInstanceIds in Hr.
    unfold used_ids, markFree in *. cbn [ids set_ids].
    split_and!; [lia..|done|done| | |].
    + by rewrite lookup_insert_eq.
    + rewrite lookup_insert_eq. cbn [default from_option]. unfold used_ids. cbn [ids set_ids].
      rewrite lookup_insert_eq. cbn [default from_option]. set_solver.
    + intros e' He. by rewrite lookup_insert_ne.
  - split; [exact Hn|]. intros e'. unfold used_ids. cbn [ids set_ids].
    destruct (decide (e' = e)) as [->|]; [by rewrite lookup_insert_eq|by rewrite lookup_insert_ne].
Qed.

(** ** Runs *)

Section Run.
Context `{HashOrder} (start : nat → RequestKey → Z) (expiry_starts : nat → RequestKey → bool).

Abbreviation run := (runRegisteredRequest start expiry_starts).

(** Induction along the loop of [runRegisteredRequest]. *)
Lemma run_ind (P : Z → option RequestKey → Requester → Z * Requester → Prop) :
  (∀ e sync s, scan e Idle (iterate (handlers s)) = Running → P e sync s (Success, s)) →
  (∀ e sync s, scan e Idle (iterate (handlers s)) = Idle → P e sync s (Success, s)) →
  (∀ e sync s key v s', scan e Idle (iterate (handlers s)) = ToRun key v →
     start_request start expiry_starts key s = (Success, s') → P e sync s (Success, s')) →
  (∀ e sync s key v rc s', scan e Idle (iterate (handlers s)) = ToRun key v →
     start_request start expiry_starts key s = (rc, s') → rc ≠ 0 → sync = Some key →
     P e sync s (rc, failRegisteredRequest key sync (markFree e (instanceId key) s'))) →
  (∀ e sync s key v rc s' r, scan e Idle (iterate (handlers s)) = ToRun key v →
     start_request start expiry_starts key s = (rc, s') → rc ≠ 0 → sync ≠ Some key →
     P e sync (failRegisteredRequest key sync (markFree e (instanceId key) s')) r →
     P e sync s r) →
  ∀ e sync s, P e sync s (run e sync s).
Proof.
  intros Hrun Hidle Hstart Hsync Hnext.
  apply runRegisteredRequest_elim; cbv zeta; eauto.
  - intros e sync s key rc -> s' Hs v Hv _ _ _. by eapply Hstart.
  - intros e sync s key rc Hrc s' Hs v Hv IH _ _ _. case_decide as Hd; [by eapply Hsync|eauto].
Qed.

(** ** What a scan finds *)

Definition running (v : RequestValue) : Prop := rv_expiryTimer v = true.

Lemma scan_spec e l toRun :
  match scan e toRun l with
  | Running => toRun = Running ∨ ∃ k v, (k, v) ∈ l ∧ eid k = e ∧ running v
  | Idle => toRun = Idle ∧ ∀ k v, (k, v) ∈ l → eid k ≠ e
  | ToRun k v => (toRun = ToRun k v ∨ (k, v) ∈ l ∧ eid k = e) ∧
      ∀ k v, (k, v) ∈ l → eid k = e → ¬ running v
  end.
Proof.
  revert toRun. induction l as [|[k v] l IH]; intros toRun; cbn [scan].
  { destruct toRun; [by left| |].
    - split; [done|]. intros k v Hin. by apply not_elem_of_nil in Hin.
    - split; [by left|]. intros k' v' Hin. by apply not_elem_of_nil in Hin. }
  destruct (Z.eqb_spec (eid k) e) as [He|He]; cbn [negb].
  2: { specialize (IH toRun). destruct (scan e toRun l) as [| |k' v'].
    - destruct IH as [IH|(k' & v' & Hin & IH)]; [by left|]. right. exists k', v'. split; [by right|done].
    - destruct IH as [IH1 IH2]. split; [done|].
      intros k' v' [[= -> ->]|Hin]%elem_of_cons; [done|by eapply IH2].
    - destruct IH as [IH1 IH2]. split; [destruct IH1 as [|[]]; [by left|right; split; [by right|done]]|].
      intros k2 v2 [[= -> ->]|Hin]%elem_of_cons; [done|by eapply IH2]. }
  destruct (rv_expiryTimer v) eqn:Hv; [right; exists k, v; split; [by left|done]|].
  set (next := match toRun with Idle => ToRun k v | _ => toRun end).
  specialize (IH next). destruct (scan e next l) as [| |k' v'] eqn:Hs.
  - destruct IH as [IH|(k' & v' & Hin & IH)].
    + left. subst next. by destruct toRun.
    + right. exists k', v'. split; [by right|done].
  - destruct IH as [IH1 IH2]. subst next. by destruct toRun.
  - destruct IH as [IH1 IH2]. split.
    + subst next. destruct IH1 as [Ht|[Hin He']]; [|right; split; [by right|done]].
      destruct toRun; simplify_eq; [right; split; [by left|done]|by left].
    + intros k2 v2 [[= -> ->]|Hin]%elem_of_cons He2; [unfold running; congruence|by eapply IH2].
Qed.

(** The same of the handlers of a state. *)
Lemma scan_state e s :
  match scan e Idle (iterate (handlers s)) with
  | Running => ∃ k v, handlers s !! k = Some v ∧ eid k = e ∧ running v
  | Idle => ∀ k, eid k = e → handlers s !! k = None
  | ToRun k v => handlers s !! k = Some v ∧ eid k = e ∧
      ∀ k v, handlers s !! k = Some v → eid k = e → ¬ running v
  end.
Proof.
  pose proof (scan_spec e (iterate (handlers s)) Idle) as Hs.
  assert (Hin : ∀ k v, (k, v) ∈ iterate (handlers s) ↔ handlers s !! k = Some v).
  { intros k v. rewrite iterate_perm. apply elem_of_map_to_list. }
  destruct (scan _ _ _) as [| |k v].
  - destruct Hs as [Hs|(k & v & Hk & He & Hr)]; [done|]. exists k, v. by rewrite <-Hin.
  - destruct Hs as [_ Hs]. intros k He. destruct (handlers s !! k) as [v|] eqn:Hk; [|done].
    exfalso. by apply (Hs k v); [apply Hin|].
  - destruct Hs as [[Hs|[Hk He]] Hn]; [done|]. split_and!; [by apply Hin|done|].
    intros k' v' Hk' He'. apply (Hn k' v'); [by apply Hin|done].
Qed.

(** ** One request at a time, and none left *)

Definition served (e : Z) (s : Requester) : Prop :=
  ∃ k v, handlers s !! k = Some v ∧ eid k = e ∧ running v.

Definition one_running (s : Requester) : Prop :=
  ∀ k1 v1 k2 v2, handlers s !! k1 = Some v1 → handlers s !! k2 = Some v2 →
    eid k1 = eid k2 → running v1 → running v2 → k1 = k2.

(** A pending request is behind one that runs, or behind one whose removal is
    pending. *)
Definition attended (s : Requester) : Prop :=
  ∀ k v, handlers s !! k = Some v →
    served (eid k) s ∨ ∃ k', k' ∈ removing s ∧ eid k' = eid k.

Definition serviced (s : Requester) : Prop := one_running s ∧ attended s.

(** States with the same timers. *)
Definition same_timers (s s' : Requester) : Prop :=
  (∀ k, rv_expiryTimer <$> handlers s' !! k = rv_expiryTimer <$> handlers s !! k) ∧
  removing s' = removing s.

Lemma same_timers_found s s' k v' :
  same_timers s s' → handlers s' !! k = Some v' →
  ∃ v, handlers s !! k = Some v ∧ (running v' ↔ running v).
Proof.
  intros [Ht _] Hk. specialize (Ht k). rewrite Hk in Ht.
  destruct (handlers s !! k) as [v|]; [|done]. exists v. split; [done|].
  cbn in Ht. injection Ht as Ht. unfold running. by rewrite Ht.
Qed.

Lemma same_timers_sym s s' : same_timers s s' → same_timers s' s.
Proof. intros [Ht Hr]. split; [intros k; by rewrite Ht|done]. Qed.

Lemma same_timers_served s s' e : same_timers s s' → served e s → served e s'.
Proof.
  intros Hs (k & v & Hk & He & Hr).
  destruct (same_timers_found s' s k v) as (v' & Hk' & Hiff); [by apply same_timers_sym|done|].
  exists k, v'. split_and!; [done..|]. by apply Hiff.
Qed.

Lemma same_timers_serviced s s' : same_timers s s' → serviced s → serviced s'.
Proof.
  intros Hs [Hone Hatt]. split.
  - intros k1 v1 k2 v2 H1 H2 He Hr1 Hr2.
    destruct (same_timers_found s s' k1 v1 Hs H1) as (w1 & Hw1 & Hi1).
    destruct (same_timers_found s s' k2 v2 Hs H2) as (w2 & Hw2 & Hi2).
    apply (Hone k1 w1 k2 w2); tauto.
  - intros k v Hk. destruct (same_timers_found s s' k v Hs Hk) as (w & Hw & _).
    destruct (Hatt k w Hw) as [Hserved|(k' & Hk' & He)].
    + left. by eapply same_timers_served.
    + right. exists k'. destruct Hs as [_ ->]. done.
Qed.

Lemma alter_Some {A} (f : A → A) (m : gmap RequestKey A) k v :
  m !! k = Some v → alter f k m = <[k := f v]> m.
Proof. intros Hk. rewrite <-(insert_id m k v Hk) at 1. by rewrite alter_insert_eq. Qed.

Lemma start_request_started key s s' v :
  handlers s !! key = Some v → start_request start expiry_starts key s = (Success, s') →
  removing s' = removing s ∧
  ∃ v', running v' ∧ rv_handler v' = rv_handler v ∧ handlers s' = <[key := v']> (handlers s).
Proof.
  unfold start_request. intros Hk Hs.
  destruct (start _ key =? 0) eqn:Hrc; cbn [negb] in Hs.
  2: { injection Hs as Hs _. apply Z.eqb_neq in Hrc. done. }
  destruct (expiry_starts _ key); cbn [negb] in Hs; [|done].
  injection Hs as <-. split; [done|].
  eexists. split; [|split; [|cbn; by apply alter_Some]]; done.
Qed.

Lemma failRegisteredRequest_removing key sync s :
  removing (failRegisteredRequest key sync s) = removing s.
Proof. unfold failRegisteredRequest. case_match; [|done]. by repeat case_decide. Qed.

Lemma failRegisteredRequest_completed key sync s :
  completed (failRegisteredRequest key sync s) =
    match handlers s !! key with
    | Some v => if decide (sync = Some key) then completed s
                else completed s ++ [(rv_handler v, None)]
    | None => completed s
    end.
Proof. unfold failRegisteredRequest. case_match; [|done]. by repeat case_decide. Qed.

Lemma start_request_failed key s rc s' :
  start_request start expiry_starts key s = (rc, s') → rc ≠ 0 →
  handlers s' = handlers s ∧ removing s' = removing s ∧ completed s' = completed s.
Proof. unfold start_request. intros Hs Hrc. repeat case_match; simplify_eq; done. Qed.

(** What a run of an endpoint changes: nothing of other endpoints; it removes
    requests and starts one. *)
Lemma run_serves e sync s :
  let '(rc, s') := run e sync s in
  one_running s →
  removing s' = removing s ∧ one_running s' ∧
  (∀ k, eid k ≠ e → handlers s' !! k = handlers s !! k) ∧
  (∀ k, is_Some (handlers s' !! k) → is_Some (handlers s !! k)) ∧
  (served e s' ∨ (∀ k, eid k = e → handlers s' !! k = None) ∨
   ∃ key, sync = Some key ∧ handlers s' !! key = None ∧ ¬ served e s).
Proof.
  pattern e, sync, s, (run e sync s). apply run_ind; clear e sync s.
  - intros e sync s Hs Hone. pose proof (scan_state e s) as Hst. rewrite Hs in Hst.
    split_and!; [done..|by left].
  - intros e sync s Hs Hone. pose proof (scan_state e s) as Hst. rewrite Hs in Hst.
    split_and!; [done..|by right; left].
  - intros e sync s key v s' Hs Hstart Hone.
    pose proof (scan_state e s) as Hst. rewrite Hs in Hst. destruct Hst as (Hk & He & Hnone).
    destruct (start_request_started key s s' v Hk Hstart) as (Hrem & v' & Hrun & _ & Hh).
    split_and!; [done| | | |].
    + intros k1 v1 k2 v2. rewrite Hh. intros H1 H2 Heq R1 R2.
      destruct (decide (k1 = key)) as [->|N1], (decide (k2 = key)) as [->|N2]; [done| | |].
      * rewrite lookup_insert_ne in H2 by done. exfalso. apply (Hnone k2 v2 H2); congruence.
      * rewrite lookup_insert_ne in H1 by done. exfalso. apply (Hnone k1 v1 H1); congruence.
      * rewrite lookup_insert_ne in H1, H2 by done. by apply (Hone k1 v1 k2 v2).
    + intros k Hne. rewrite Hh, lookup_insert_ne; [done|congruence].
    + intros k. rewrite Hh. destruct (decide (k = key)) as [->|]; [done|].
      by rewrite lookup_insert_ne.
    + left. exists key, v'. by rewrite Hh, lookup_insert_eq.
  - intros e sync s key v rc s' Hs Hstart Hrc -> Hone.
    pose proof (scan_state e s) as Hst. rewrite Hs in Hst. destruct Hst as (Hk & He & Hnone).
    destruct (start_request_failed key s rc s' Hstart Hrc) as (Hh & Hrem & _).
    rewrite failRegisteredRequest_removing. unfold one_running.
    rewrite failRegisteredRequest_handlers. cbn [removing handlers markFree set_ids].
    rewrite Hh, Hrem. split_and!; [done| | | |].
    + intros k1 v1 k2 v2 [_ H1]%lookup_delete_Some [_ H2]%lookup_delete_Some. by apply Hone.
    + intros k Hne. rewrite lookup_delete_ne; [done|congruence].
    + intros k [v' [_ Hv']%lookup_delete_Some]. done.
    + right; right. exists key. split_and!; [done|apply lookup_delete_eq|].
      intros (k2 & v2 & Hk2 & He2 & Hr2). by eapply Hnone.
  - intros e sync s key v rc s' [rc2 s2] Hs Hstart Hrc Hsync IH Hone.
    pose proof (scan_state e s) as Hst. rewrite Hs in Hst. destruct Hst as (Hk & He & Hnone).
    destruct (start_request_failed key s rc s' Hstart Hrc) as (Hh & Hrem & _).
    unfold one_running in IH at 1.
    rewrite failRegisteredRequest_removing, failRegisteredRequest_handlers in IH.
    cbn [removing handlers markFree set_ids] in IH. rewrite Hh, Hrem in IH.
    destruct IH as (IH1 & IH2 & IH3 & IH4 & IH5).
    { intros k1 v1 k2 v2 [_ H1]%lookup_delete_Some [_ H2]%lookup_delete_Some. by apply Hone. }
    split_and!; [done|done| | |].
    + intros k Hne. rewrite IH3, lookup_delete_ne; [done|congruence|done].
    + intros k Hk'. apply IH4 in Hk' as [v' [_ H1]%lookup_delete_Some]. done.
    + destruct IH5 as [?|[?|(k & ? & ? & _)]]; [by left|by right; left|].
      right; right. exists k. split_and!; [done..|]. intros (k2 & v2 & Hk2 & He2 & Hr2). by eapply Hnone.
Qed.

(** A run attends to its endpoint and leaves the others as they are; the
    request of the caller need not be attended before. *)
Lemma run_serviced e sync s :
  let '(rc, s') := run e sync s in
  one_running s → (∀ k, sync = Some k → eid k = e) →
  (∀ k v, handlers s !! k = Some v → sync ≠ Some k → eid k ≠ e ∨ is_Some sync →
     served (eid k) s ∨ ∃ k', k' ∈ removing s ∧ eid k' = eid k) →
  serviced s'.
Proof.
  pose proof (run_serves e sync s) as Hrun. destruct (run e sync s) as [rc s'].
  intros Hone Hse Hatt. destruct (Hrun Hone) as (Hrem & Hone' & Hother & Hsub & Hdone).
  split; [done|]. intros k v Hk. rewrite Hrem.
  destruct (decide (eid k = e)) as [He|He].
  - destruct Hdone as [Hserved|[Hnone|(key & -> & Hkey & Hns)]].
    + left. by rewrite He.
    + exfalso. specialize (Hnone k He). congruence.
    + destruct (Hsub k) as [w Hw]; [by eexists|].
      destruct (Hatt k w Hw) as [Hserved|Hrem']; [congruence|by right| |by right].
      exfalso. apply Hns. by rewrite <-He.
  - rewrite Hother in Hk by done.
    destruct (Hatt k v Hk) as [(k2 & v2 & H1 & H2 & H3)|]; [naive_solver|by left| |by right].
    left. exists k2, v2. rewrite Hother by congruence. done.
Qed.

(** ** Every step keeps it *)

Context (initSocket : Z).
Abbreviation step := (exec start expiry_starts initSocket).

Lemma one_running_delete key s s' :
  handlers s' = delete key (handlers s) → one_running s → one_running s'.
Proof.
  intros Hh Hone k1 v1 k2 v2. rewrite Hh.
  intros [_ H1]%lookup_delete_Some [_ H2]%lookup_delete_Some. by apply Hone.
Qed.

(** Removing a request leaves the other endpoints attended. *)
Lemma attended_delete key s s' :
  handlers s' = delete key (handlers s) → (∀ k, k ∈ removing s → k = key ∨ k ∈ removing s') →
  attended s →
  ∀ k v, handlers s' !! k = Some v → eid k ≠ eid key →
    served (eid k) s' ∨ ∃ k', k' ∈ removing s' ∧ eid k' = eid k.
Proof.
  intros Hh Hrem Hatt k v Hk Hne. rewrite Hh in Hk. apply lookup_delete_Some in Hk as [_ Hk].
  destruct (Hatt k v Hk) as [(k2 & v2 & H1 & H2 & H3)|(k' & Hk' & He)].
  - left. exists k2, v2. rewrite Hh, lookup_delete_ne by congruence. done.
  - right. exists k'. destruct (Hrem k' Hk') as [->|]; [congruence|done].
Qed.

Lemma run_none_serviced e s :
  one_running s →
  (∀ k v, handlers s !! k = Some v → eid k ≠ e →
     served (eid k) s ∨ ∃ k', k' ∈ removing s ∧ eid k' = eid k) →
  serviced (run e None s).2.
Proof.
  intros Hone Hatt. pose proof (run_serviced e None s) as Hr.
  destruct (run e None s) as [rc s']. apply Hr; [done|done|].
  intros k v Hk _ [Hne|[x Hx]]; [by eapply Hatt|done].
Qed.

Lemma register_serviced key cb s :
  serviced s → serviced (registerRequest start expiry_starts key cb s).2.
Proof.
  intros [Hone Hatt]. unfold registerRequest. case_match; [done|].
  destruct (handlers s !! key) eqn:Hkey; [done|].
  set (new := mkRequestValue numCommandRetries false cb false).
  set (s1 := set_handlers _ s).
  pose proof (run_serviced (eid key) (Some key) s1) as Hr.
  destruct (run _ _ s1) as [rc s']. apply Hr.
  - intros k1 v1 k2 v2. cbn [handlers set_handlers s1].
    intros [[<- <-]|[N1 H1]]%lookup_insert_Some [[<- <-]|[N2 H2]]%lookup_insert_Some; try done.
    by apply Hone.
  - by intros k [= ->].
  - intros k v. cbn [handlers set_handlers s1]. intros Hk Hne _.
    rewrite lookup_insert_ne in Hk by congruence.
    destruct (Hatt k v Hk) as [(k2 & v2 & H1 & H2 & H3)|]; [left|by right].
    exists k2, v2. cbn [handlers set_handlers s1]. rewrite lookup_insert_ne; [done|congruence].
Qed.

Lemma same_timers_refl s s' :
  handlers s' = handlers s → removing s' = removing s → same_timers s s'.
Proof. intros Hh Hr. split; [intros k; by rewrite Hh|done]. Qed.

Lemma query_serviced e cb s :
  serviced s → serviced (queryBootStatus start expiry_starts initSocket e cb s).2.
Proof.
  intros Hs. unfold queryBootStatus, activateSocket.
  assert (Hsock : ∀ f, serviced (set_sockets f s)) by
    (intros f; by apply (same_timers_serviced s), Hs).
  set (act := if 0 <=? getSocket e s then _ else _).
  assert (Hact : serviced act.2) by (unfold act; repeat case_match; [done|done|apply Hsock]).
  destruct act as [ret s1]. cbn [snd] in Hact. case_match; [done|].
  assert (Hid : serviced (getInstanceId e s1).2).
  { apply (same_timers_serviced s1); [|done]. unfold getInstanceId. by case_match. }
  destruct (getInstanceId e s1) as [[id|] s2]; cbn [snd] in Hid.
  - pose proof (register_serviced (mkRequestKey e id nvidiaMsgType 0x05) cb s2 Hid) as Hr.
    destruct (registerRequest _ _ _ _ s2) as [rc s3]. cbn [snd] in Hr.
    case_match; [done|]. by apply (same_timers_serviced s3).
  - by apply (same_timers_serviced s2).
Qed.

Lemma response_serviced key response s :
  serviced s → serviced (handleResponse start expiry_starts key response s).
Proof.
  intros [Hone Hatt]. unfold handleResponse. destruct (handlers s !! key) as [v|] eqn:Hk.
  - apply run_none_serviced; [by apply (one_running_delete key s)|].
    apply (attended_delete key s); [done| |done]. intros k Hin. by right.
  - apply run_none_serviced; [done|]. intros k v Hv _. by apply (Hatt k v).
Qed.

Lemma expiry_serviced key s : serviced s → serviced (instanceIdExpiry key s).
Proof.
  intros [Hone Hatt]. unfold instanceIdExpiry.
  assert (Hlook : ∀ k v, handlers (instanceIdExpiry key s) !! k = Some v →
    (k = key ∧ ¬ running v) ∨ handlers s !! k = Some v).
  { intros k v. unfold instanceIdExpiry. cbn [handlers set_handlers set_removing].
    intros [(-> & w & _ & ->)|[_ Hk]]%lookup_alter_Some; [by left|by right]. }
  split.
  - intros k1 v1 k2 v2 [[_ N1]|H1]%Hlook [[_ N2]|H2]%Hlook; try done. by apply Hone.
  - intros k v Hk. destruct (decide (eid k = eid key)) as [He|He].
    { right. exists key. split; [set_solver|done]. }
    apply Hlook in Hk as [[-> _]|Hk]; [done|].
    destruct (Hatt k v Hk) as [(k2 & v2 & H1 & H2 & H3)|(k' & Hk' & He')].
    + left. exists k2, v2. cbn [handlers set_handlers set_removing].
      rewrite lookup_alter_ne; [done|congruence].
    + right. exists k'. split; [set_solver|done].
Qed.

Lemma removal_serviced key s s' :
  removeRequestEntry start expiry_starts key s = inr s' → serviced s → serviced s'.
Proof.
  unfold removeRequestEntry. intros Hrem [Hone Hatt]. case_decide as Hin.
  - destruct (handlers s !! key) as [v|] eqn:Hk; [|done]. injection Hrem as <-.
    apply run_none_serviced; [by apply (one_running_delete key s)|].
    apply (attended_delete key s); [done| |done].
    intros k Hk'. destruct (decide (k = key)); [by left|right].
    apply elem_of_difference. split; [done|by apply not_elem_of_singleton].
  - injection Hrem as <-. apply run_none_serviced; [done|]. intros k v Hk _. by apply (Hatt k v).
Qed.

Lemma retry_timers key s : same_timers s (retry key s).
Proof.
  unfold retry. destruct (handlers s !! key) as [v|] eqn:Hk; [|by apply same_timers_refl].
  case_match; (split; [|done]); intros k; cbn [handlers set_handlers set_sent];
    (destruct (decide (k = key)) as [->|]; [by rewrite lookup_insert_eq, Hk|
      by rewrite lookup_insert_ne]).
Qed.

(** One step at a time: the requests of an endpoint are sent one after the
    other, and a request that waits is behind one that runs or behind one whose
    removal is pending. *)
Theorem step_serviced st s s' (Hs : serviced s) (Hstep : step st s = inr s') : serviced s'.
Proof.
  destruct st as [e cb|e msg|key|key|key]; cbn [exec] in Hstep.
  - pose proof (query_serviced e cb s Hs) as Hq.
    destruct (queryBootStatus _ _ _ e cb s) as [[code|] s1]; injection Hstep as <-; [|done].
    by apply (same_timers_serviced s1).
  - unfold processRxMsg in Hstep. repeat case_match; simplify_eq; [|done].
    by apply response_serviced.
  - injection Hstep as <-. by apply expiry_serviced.
  - by apply (removal_serviced key s).
  - injection Hstep as <-. apply (same_timers_serviced s); [apply retry_timers|done].
Qed.

(** ** Every query is resumed once *)

(** The coroutines that wait and those that have been resumed. *)
Definition callbacks (s : Requester) : list Callback :=
  (rv_handler <$> (map_to_list (handlers s)).*2) ++ (completed s).*1.

Lemma callbacks_insert key v s s' :
  handlers s !! key = None → handlers s' = <[key := v]> (handlers s) → completed s' = completed s →
  callbacks s' ≡ₚ rv_handler v :: callbacks s.
Proof.
  intros Hk Hh Hc. unfold callbacks. rewrite Hh, Hc, map_to_list_insert by done. done.
Qed.

Lemma callbacks_delete key v s s' :
  handlers s !! key = Some v → handlers s' = delete key (handlers s) → completed s' = completed s →
  callbacks s ≡ₚ rv_handler v :: callbacks s'.
Proof.
  intros Hk Hh Hc. unfold callbacks. rewrite Hh, Hc, <-(map_to_list_delete (handlers s) key v) by done.
  done.
Qed.

(** A request replaced by one with the same handler. *)
Lemma callbacks_update key v v' s s' :
  handlers s !! key = Some v → handlers s' = <[key := v']> (handlers s) →
  rv_handler v' = rv_handler v → completed s' = completed s → callbacks s' ≡ₚ callbacks s.
Proof.
  intros Hk Hh Hv Hc.
  rewrite (callbacks_delete key v s (set_handlers (delete key) s)) by done.
  rewrite (callbacks_insert key v' (set_handlers (delete key) s) s'); [by rewrite Hv| | |done].
  - apply lookup_delete_eq.
  - cbn [handlers set_handlers]. by rewrite insert_delete_eq.
Qed.

Lemma callbacks_same s s' :
  handlers s' = handlers s → completed s' = completed s → callbacks s' = callbacks s.
Proof. unfold callbacks. by intros -> ->. Qed.

(** Resuming the coroutine of a request that is removed. *)
Lemma callbacks_resume key v e response s s' :
  handlers s !! key = Some v → handlers s' = delete key (handlers s) →
  completed s' = completed (resume (rv_handler v) e response s) → callbacks s' ≡ₚ callbacks s.
Proof.
  intros Hk Hh Hc. rewrite (callbacks_delete key v s (set_handlers (delete key) s)) by done.
  unfold callbacks. rewrite Hh, Hc.
  cbn [handlers completed set_handlers set_completed set_sockets resume deactivateSocket].
  rewrite fmap_app, app_assoc. symmetry.
  apply Permutation_cons_append.
Qed.

(** A run loses no coroutine, except that of the caller when it answers with
    an error. *)
Lemma run_callbacks e sync s :
  let '(rc, s') := run e sync s in
  match sync with
  | Some key => ∀ v, handlers s !! key = Some v →
      if decide (rc = 0) then callbacks s' ≡ₚ callbacks s
      else callbacks s ≡ₚ rv_handler v :: callbacks s'
  | None => callbacks s' ≡ₚ callbacks s
  end.
Proof.
  pattern e, sync, s, (run e sync s). apply run_ind; clear e sync s.
  - intros e [key|] s Hs; [intros v Hv; by rewrite decide_True|done].
  - intros e [key|] s Hs; [intros v Hv; by rewrite decide_True|done].
  - intros e sync s key v s' Hs Hstart.
    pose proof (scan_state e s) as Hst. rewrite Hs in Hst. destruct Hst as (Hk & He & Hnone).
    destruct (start_request_started key s s' v Hk Hstart) as (_ & v' & _ & Hv' & Hh).
    assert (Hc : callbacks s' ≡ₚ callbacks s).
    { apply (callbacks_update key v v'); try done. unfold start_request in Hstart.
      repeat case_match; by simplify_eq. }
    destruct sync as [key'|]; [intros w Hw; by rewrite decide_True|done].
  - intros e sync s key v rc s' Hs Hstart Hrc -> w Hw.
    destruct (start_request_failed key s rc s' Hstart Hrc) as (Hh & _ & Hc).
    rewrite decide_False by done. apply (callbacks_delete key w); [done| |].
    + rewrite failRegisteredRequest_handlers. cbn. by rewrite Hh.
    + unfold failRegisteredRequest. cbn [handlers markFree set_ids]. rewrite Hh, Hw.
      by rewrite decide_True by done.
  - intros e sync s key v rc s' [rc2 s2] Hs Hstart Hrc Hsync IH.
    pose proof (scan_state e s) as Hst. rewrite Hs in Hst. destruct Hst as (Hk & He & Hnone).
    destruct (start_request_failed key s rc s' Hstart Hrc) as (Hh & _ & Hc).
    set (s3 := failRegisteredRequest key sync (markFree e (instanceId key) s')) in *.
    assert (H3 : callbacks s3 ≡ₚ callbacks s).
    { apply (callbacks_resume key v (eid key) None); [done| |].
      - unfold s3. rewrite failRegisteredRequest_handlers. cbn. by rewrite Hh.
      - unfold s3, failRegisteredRequest. cbn [handlers markFree set_ids]. rewrite Hh, Hk.
        rewrite decide_False by done. cbn. by rewrite Hc. }
    destruct sync as [key'|]; [|by rewrite IH].
    intros w Hw. assert (Hw3 : handlers s3 !! key' = Some w).
    { unfold s3. rewrite failRegisteredRequest_handlers. cbn. rewrite Hh.
      rewrite lookup_delete_ne; [done|congruence]. }
    specialize (IH w Hw3). destruct (decide (rc2 = 0)); by rewrite <-H3.
Qed.

(** The answers of a send are 0 or -errno, and [-errno] is above -256; so are
    those of [initSocket]. *)
Definition errno_answers : Prop := (∀ n key, -256 < start n key ≤ 0) ∧ -256 < initSocket.

Lemma start_request_rc key s :
  errno_answers → let rc := (start_request start expiry_starts key s).1 in -256 < rc ≤ 1.
Proof.
  intros [Hst _]. unfold start_request, ErrGeneral. specialize (Hst (length (sent s)) key).
  repeat case_match; cbn; lia.
Qed.

Lemma run_rc e sync s : errno_answers → -256 < (run e sync s).1 ≤ 1.
Proof.
  intros He. pattern e, sync, s, (run e sync s). apply run_ind; clear e sync s; try done.
  intros e sync s key v rc s' Hs Hstart Hrc ->. pose proof (start_request_rc key s He) as Hr.
  by rewrite Hstart in Hr.
Qed.

Lemma u8_zero rc : -256 < rc ≤ 1 → u8 rc = 0 ↔ rc = 0.
Proof. intros Hr. unfold u8, wrap. change (2 ^ 8) with 256. Z.div_mod_to_equations. lia. Qed.

Lemma register_callbacks key cb s :
  errno_answers →
  let '(rc, s') := registerRequest start expiry_starts key cb s in
  -256 < rc ≤ 1 ∧ callbacks s' ≡ₚ (if decide (rc = 0) then [cb] else []) ++ callbacks s.
Proof.
  intros He. unfold registerRequest.
  destruct (getSocket (eid key) s <? 0); [by split; [lia|rewrite decide_False]|].
  destruct (handlers s !! key) eqn:Hkey; [by split; [unfold ErrGeneral; lia|rewrite decide_False]|].
  set (new := mkRequestValue numCommandRetries false cb false).
  set (s1 := set_handlers _ s).
  pose proof (run_rc (eid key) (Some key) s1 He) as Hrc.
  pose proof (run_callbacks (eid key) (Some key) s1) as Hr.
  destruct (run _ _ s1) as [rc s']. cbn [fst] in Hrc. split; [done|].
  assert (H1 : callbacks s1 ≡ₚ cb :: callbacks s) by (by apply (callbacks_insert key new)).
  specialize (Hr new). case_decide; rewrite <-?H1.
  - apply Hr. apply lookup_insert_eq.
  - rewrite H1 in Hr. apply (Permutation_cons_inv (a := cb)). symmetry. apply Hr, lookup_insert_eq.
Qed.

Lemma query_callbacks e cb s :
  errno_answers →
  let '(outcome, s') := queryBootStatus start expiry_starts initSocket e cb s in
  callbacks s' ≡ₚ (if outcome is Some _ then [] else [cb]) ++ callbacks s.
Proof.
  intros He. unfold queryBootStatus, activateSocket.
  set (act := if 0 <=? getSocket e s then _ else _).
  assert (Hact : callbacks act.2 = callbacks s) by (unfold act; by repeat case_match).
  destruct act as [ret s1]. cbn [snd] in Hact. destruct (ret <? 0); [by rewrite <-Hact|].
  assert (Hid : callbacks (getInstanceId e s1).2 = callbacks s1)
    by (unfold getInstanceId; by case_match).
  destruct (getInstanceId e s1) as [[id|] s2]; cbn [snd] in Hid.
  - pose proof (register_callbacks (mkRequestKey e id nvidiaMsgType 0x05) cb s2 He) as Hr.
    destruct (registerRequest _ _ _ _ s2) as [rc s3]. destruct Hr as [Hrc Hr].
    rewrite Hid, Hact in Hr. apply u8_zero in Hrc.
    destruct (Z.eqb_spec (u8 rc) 0) as [H0|H0].
    + rewrite decide_True in Hr by tauto. done.
    + rewrite decide_False in Hr by tauto. done.
  - cbn [app]. rewrite <-Hact, <-Hid. done.
Qed.

Lemma run_none_callbacks e s : callbacks (run e None s).2 ≡ₚ callbacks s.
Proof. pose proof (run_callbacks e None s) as Hr. by destruct (run e None s). Qed.

Lemma response_callbacks key response s :
  callbacks (handleResponse start expiry_starts key response s) ≡ₚ callbacks s.
Proof.
  unfold handleResponse. rewrite run_none_callbacks.
  destruct (handlers s !! key) as [v|] eqn:Hk; [|done].
  by apply (callbacks_resume key v (eid key) response).
Qed.

Lemma removal_callbacks key s s' :
  removeRequestEntry start expiry_starts key s = inr s' → callbacks s' ≡ₚ callbacks s.
Proof.
  unfold removeRequestEntry. intros Hrem. case_decide.
  - destruct (handlers s !! key) as [v|] eqn:Hk; [|done]. injection Hrem as <-.
    rewrite run_none_callbacks. by apply (callbacks_resume key v (eid key) None).
  - injection Hrem as <-. apply run_none_callbacks.
Qed.

Lemma retry_callbacks key s : callbacks (retry key s) ≡ₚ callbacks s.
Proof.
  unfold retry. destruct (handlers s !! key) as [v|] eqn:Hk; [|done].
  case_match; by eapply callbacks_update.
Qed.

Lemma expiry_callbacks key s : callbacks (instanceIdExpiry key s) ≡ₚ callbacks s.
Proof.
  unfold instanceIdExpiry. destruct (handlers s !! key) as [v|] eqn:Hk.
  - eapply (callbacks_update key v); [done| | |done]; cbn; [by apply alter_Some|done].
  - apply reflexive_eq, callbacks_same; [|done]. cbn [handlers set_handlers set_removing].
    apply map_eq. intros k. destruct (decide (k = key)) as [->|].
    + by rewrite lookup_alter_eq, Hk.
    + by rewrite lookup_alter_ne.
Qed.

(** The queries of a sequence of steps. *)
Definition queries (sts : list Step) : list Callback :=
  omap (λ st, match st with Query _ cb => Some cb | _ => None end) sts.

Fixpoint steps (sts : list Step) (s : Requester) : Fault + Requester :=
  match sts with
  | [] => inr s
  | st :: sts => match step st s with inl f => inl f | inr s => steps sts s end
  end.

Lemma step_callbacks st s s' :
  errno_answers → step st s = inr s' → callbacks s' ≡ₚ queries [st] ++ callbacks s.
Proof.
  intros He Hstep. destruct st as [e cb|e msg|key|key|key]; cbn [exec queries omap list_omap app] in *.
  - pose proof (query_callbacks e cb s He) as Hq.
    destruct (queryBootStatus _ _ _ e cb s) as [[code|] s1]; injection Hstep as <-; [|done].
    rewrite <-Hq. unfold callbacks. cbn [handlers completed set_completed].
    rewrite fmap_app, app_assoc. cbn. symmetry. apply Permutation_cons_append.
  - unfold processRxMsg in Hstep. repeat case_match; simplify_eq; [|done]. apply response_callbacks.
  - injection Hstep as <-. apply expiry_callbacks.
  - by apply (removal_callbacks key).
  - injection Hstep as <-. apply retry_callbacks.
Qed.

(** C29: Along any run of the event loop that does not fault, every query is either
    still waiting or has been resumed, and it has been resumed once. *)
Theorem queries_resumed_once sts s' (He : errno_answers) (Hsteps : steps sts initial = inr s') :
  callbacks s' ≡ₚ queries sts.
Proof.
  enough (Hg : ∀ s, steps sts s = inr s' → callbacks s' ≡ₚ queries sts ++ callbacks s).
  { rewrite (Hg initial Hsteps). unfold callbacks, initial. cbn [handlers completed].
    rewrite map_to_list_empty. cbn. by rewrite app_nil_r. }
  clear Hsteps. induction sts as [|st sts IH]; intros s Hsteps; cbn [steps] in Hsteps.
  { by injection Hsteps as <-. }
  destruct (step st s) as [f|s1] eqn:Hst; [done|].
  rewrite (IH s1 Hsteps), (step_callbacks st s s1 He Hst), app_assoc.
  apply Permutation_app_tail. unfold queries. destruct st; cbn; [|by rewrite app_nil_r..].
  symmetry. apply Permutation_cons_append.
Qed.

(** ** Timeouts, late and stray responses *)

(** A run adds no request, leaves the pending removals and only resumes. *)
Lemma run_frame e sync s :
  let s' := (run e sync s).2 in
  removing s' = removing s ∧ (∀ k, handlers s !! k = None → handlers s' !! k = None) ∧
  completed s `prefix_of` completed s'.
Proof.
  cbn zeta. pattern e, sync, s, (run e sync s). apply run_ind; clear e sync s; try done.
  - intros e sync s key v s' Hs Hstart.
    pose proof (scan_state e s) as Hst. rewrite Hs in Hst. destruct Hst as (Hk & _ & _).
    destruct (start_request_started key s s' v Hk Hstart) as (Hrem & v' & _ & _ & Hh).
    cbn [snd]. split_and!; [done| |].
    + intros k Hn. rewrite Hh, lookup_insert_ne; [done|congruence].
    + unfold start_request in Hstart. repeat case_match; by simplify_eq.
  - intros e sync s key v rc s' Hs Hstart Hrc ->.
    destruct (start_request_failed key s rc s' Hstart Hrc) as (Hh & Hrem & Hc). cbn [snd].
    rewrite failRegisteredRequest_removing, failRegisteredRequest_handlers.
    cbn [handlers removing markFree set_ids]. rewrite Hh. split_and!; [done| |].
    + intros k Hn. by apply lookup_delete_None; right.
    + rewrite failRegisteredRequest_completed. cbn [handlers completed markFree set_ids].
      rewrite Hc. case_match; [|done]. by rewrite decide_True.
  - intros e sync s key v rc s' r Hs Hstart Hrc Hsync (IH1 & IH2 & IH3).
    destruct (start_request_failed key s rc s' Hstart Hrc) as (Hh & Hrem & Hc).
    rewrite failRegisteredRequest_removing in IH1. split_and!; [by rewrite IH1| |].
    + intros k Hn. apply IH2. rewrite failRegisteredRequest_handlers.
      cbn [handlers markFree set_ids]. rewrite Hh. by apply lookup_delete_None; right.
    + etrans; [|exact IH3]. rewrite failRegisteredRequest_completed.
      cbn [handlers completed markFree set_ids]. rewrite Hc.
      repeat case_match; [done|by apply prefix_app_r|done].
Qed.

Lemma run_served e sync s : served e s → run e sync s = (Success, s).
Proof.
  pattern e, sync, s, (run e sync s). apply run_ind; clear e sync s; try done;
    intros; exfalso;
    match goal with
    | Hs : scan ?e _ (iterate (handlers ?s)) = _, Hsv : served ?e ?s |- _ =>
        pose proof (scan_state e s) as Hst; rewrite Hs in Hst;
        destruct Hst as (_ & _ & Hnone), Hsv as (k2 & v2 & Hk2 & He2 & Hr2); by eapply Hnone
    end.
Qed.

Lemma run_started e sync s key v s' :
  scan e Idle (iterate (handlers s)) = ToRun key v →
  start_request start expiry_starts key s = (Success, s') → run e sync s = (Success, s').
Proof.
  pattern e, sync, s, (run e sync s). apply run_ind; clear e sync s;
    unfold Success; intros; congruence.
Qed.

(** A request that times out, with nothing between its expiry and the removal,
    is removed, and its coroutine resumed without a response before any other
    is. *)
Theorem timeout_resumes key v s
    (Hk : handlers s !! key = Some v) (Hrem : removing s = ∅) :
  ∃ s', steps [Expire key; Remove key] s = inr s' ∧
    handlers s' !! key = None ∧ removing s' = ∅ ∧
    (completed s ++ [(rv_handler v, None)]) `prefix_of` completed s'.
Proof.
  cbn [steps exec]. unfold removeRequestEntry, instanceIdExpiry.
  cbn [removing handlers set_removing set_handlers]. rewrite decide_True by set_solver.
  rewrite lookup_alter_eq, Hk. cbn [fmap option_fmap option_map rv_handler].
  eexists. split; [done|].
  match goal with |- context [run ?e ?sync ?s] =>
    destruct (run_frame e sync s) as (H1 & H2 & H3) end.
  split_and!.
  - apply H2. apply lookup_delete_eq.
  - rewrite H1. cbn [removing set_removing set_handlers markFree set_ids resume set_completed
      deactivateSocket set_sockets]. rewrite Hrem. set_solver.
  - exact H3.
Qed.

(** A response that arrives after the expiry and before the removal is taken,
    its entry erased; the removal then calls the response handler of an entry
    that is no longer there. *)
Theorem late_response_faults key v response s (Hk : handlers s !! key = Some v) :
  removeRequestEntry start expiry_starts key
    (handleResponse start expiry_starts key response (instanceIdExpiry key s)) =
  inl EmptyFunction.
Proof.
  unfold handleResponse.
  set (s1 := match handlers (instanceIdExpiry key s) !! key with Some _ => _ | None => _ end).
  assert (Hs1 : handlers s1 !! key = None ∧ key ∈ removing s1).
  { unfold s1, instanceIdExpiry. cbn [handlers set_removing set_handlers].
    rewrite lookup_alter_eq, Hk. cbn [fmap option_fmap option_map].
    split; [apply lookup_delete_eq|]. cbn. set_solver. }
  destruct (run_frame (eid key) None s1) as (H1 & H2 & _). unfold removeRequestEntry.
  rewrite H1, decide_True by apply Hs1. by rewrite (H2 key) by apply Hs1.
Qed.

(** A response that matches no request but bears the instance id of one that
    is pending frees the id: the next query of the endpoint is given the same
    id, finds itself registered already and fails. *)
Theorem stray_response_fails_query e cb key v response s
    (Hkey : key ≠ mkRequestKey e 0 nvidiaMsgType 0x05) (He : eid key = e) (Hid : instanceId key = 0)
    (Hstray : handlers s !! key = None)
    (Hpending : handlers s !! mkRequestKey e 0 nvidiaMsgType 0x05 = Some v) (Hr : running v)
    (Hsock : 0 ≤ getSocket e s) :
  (queryBootStatus start expiry_starts initSocket e cb
     (handleResponse start expiry_starts key response s)).1 = Some ErrGeneral.
Proof.
  unfold handleResponse. rewrite Hstray, He, Hid.
  set (s1 := markFree e 0 s).
  assert (Hrun : run e None s1 = (Success, s1)) by (apply run_served; by eexists _, v).
  rewrite Hrun. cbn [snd]. unfold queryBootStatus, activateSocket.
  change (getSocket e s1) with (getSocket e s).
  rewrite (proj2 (Z.leb_le 0 (getSocket e s))) by done. change (0 <? 0) with false. cbv iota.
  unfold getInstanceId. cbn [maxInstanceIds next_id].
  rewrite decide_False.
  - cbn [Z.of_nat]. unfold registerRequest. cbn [eid].
    change (getSocket e (set_ids _ s1)) with (getSocket e s).
    rewrite (proj2 (Z.ltb_ge (getSocket e s) 0)) by done.
    cbn [handlers set_ids]. change (handlers s1) with (handlers s). by rewrite Hpending.
  - unfold used_ids, s1, markFree. cbn [ids set_ids]. rewrite lookup_insert_eq. set_solver.
Qed.

(** ** Messages *)

(** The answer to a request, by its header. *)
Definition answer (id : Z) (payload : buffer) : buffer :=
  take 4 (request_message id) ++ [id; nvidiaMsgType; 0x05; nvidiaMsgVersion] ++ payload.

(** A message with the header of a request and the request bit cleared reaches
    the request it answers; one shorter than a header is read past its end. *)
Theorem answer_reaches_request e id payload s (Hid : word 5 id) :
  parse_header (request_message id) = Some (id, 1, nvidiaMsgType, 0x05) ∧
  processRxMsg start expiry_starts e (answer id payload) s =
    inr (handleResponse start expiry_starts (mkRequestKey e id nvidiaMsgType 0x05) (Some payload) s) ∧
  ∀ msg, (length msg < 8)%nat → processRxMsg start expiry_starts e msg s = inl OutOfBounds.
Proof.
  assert (Hbits : (0x80 .| id) .& 0x1F = id ∧ ((0x80 .| id) ≫ 7) .& 1 = 1 ∧
                  id .& 0x1F = id ∧ (id ≫ 7) .& 1 = 0).
  { pose proof (word_check (λ id, ((0x80 .| id) .& 0x1F =? id) && (((0x80 .| id) ≫ 7) .& 1 =? 1) &&
      (id .& 0x1F =? id) && ((id ≫ 7) .& 1 =? 0)) 5 id ltac:(lia) ltac:(by vm_compute) Hid) as Hall.
    cbv beta in Hall. rewrite !andb_true_iff, !Z.eqb_eq in Hall. tauto. }
  destruct Hbits as (H1 & H2 & H3 & H4). split_and!.
  - unfold request_message, parse_header. by rewrite H1, H2.
  - unfold processRxMsg, answer, request_message. cbn [take app parse_header]. rewrite H3, H4.
    done.
  - intros msg Hl. unfold processRxMsg, parse_header.
    do 8 (destruct msg as [|? msg]; [done|]). cbn [length] in Hl. lia.
Qed.

(** ** Retries *)

(** A request is sent again at most as often as it has retries left, and then
    its timer stops. *)
Theorem retries_bounded key v s (n : nat)
    (Hk : handlers s !! key = Some v) (Hn : rv_numRetries v = Z.of_nat n) (Hb : (n < 256)%nat) :
  let s' := Nat.iter (S n) (retry key) s in
  sent s' = sent s ++ replicate n key ∧
  rv_retryTimer <$> handlers s' !! key = Some false.
Proof.
  cbn zeta. revert v s Hk Hn. induction n as [|n IH]; intros v s Hk Hn.
  { change (Nat.iter 1 (retry key) s) with (retry key s). unfold retry. rewrite Hk, Hn.
    change (Z.of_nat 0 =? 0) with true. cbn [negb handlers sent set_handlers].
    by rewrite lookup_insert_eq, app_nil_r. }
  rewrite Nat.iter_succ_r. unfold retry at 2 4. rewrite Hk.
  rewrite (proj2 (Z.eqb_neq _ _)) by lia. cbn [negb].
  destruct (IH ltac:(lia) (mkRequestValue (u8 (rv_numRetries v - 1)) (rv_retryTimer v)
    (rv_handler v) (rv_expiryTimer v)) (set_handlers
    <[key := mkRequestValue (u8 (rv_numRetries v - 1)) (rv_retryTimer v) (rv_handler v)
               (rv_expiryTimer v)]> (set_sent (λ l, l ++ [key]) s))) as [IH1 IH2].
  - apply lookup_insert_eq.
  - cbn [rv_numRetries]. unfold u8. rewrite wrap_small by (unfold word; lia). lia.
  - split; [|exact IH2]. rewrite IH1. cbn [sent set_handlers set_sent]. by rewrite <-app_assoc.
Qed.
End Run.

(** ** A concrete run *)

(** Iteration in the order of the keys, sends and timers that succeed. *)
Definition key_order : HashOrder := {| iterate := map_to_list; iterate_perm m := reflexivity _ |}.
Definition sends (_ : nat) (_ : RequestKey) : Z := 0.
Definition timers (_ : nat) (_ : RequestKey) : bool := true.

(** A boot status query of endpoint 10, sent and not answered. *)
Definition example_key : RequestKey := mkRequestKey 10 0 nvidiaMsgType 0x05.
Definition one_query : Requester :=
  mkRequester {[10 := {[0]}]} {[10 := 3]}
    {[example_key := mkRequestValue numCommandRetries true 7%nat true]} ∅ [example_key] [].

Lemma one_query_reached :
  @exec key_order sends timers 3 (Query 10 7%nat) initial = inr one_query.
Proof.
  cbn [exec]. unfold queryBootStatus.
  replace (activateSocket 3 10 initial) with (0, set_sockets <[10 := 3]> initial) by reflexivity.
  change (0 <? 0) with false. cbv iota.
  replace (getInstanceId 10 (set_sockets <[10 := 3]> initial))
    with (Some 0, set_ids <[10 := {[0]}]> (set_sockets <[10 := 3]> initial))
    by (vm_compute; reflexivity).
  unfold registerRequest. cbn [eid].
  replace (getSocket 10 _ <? 0) with false by (vm_compute; reflexivity).
  replace (handlers _ !! _) with (@None RequestValue) by (vm_compute; reflexivity).
  match goal with |- context [runRegisteredRequest _ _ ?e ?sync ?s] =>
    rewrite (@run_started key_order sends timers e sync s example_key
      (mkRequestValue numCommandRetries false 7%nat false) one_query) by (vm_compute; reflexivity)
  end.
  reflexivity.
Qed.

Lemma one_query_serviced : serviced one_query.
Proof.
  split.
  - intros k1 v1 k2 v2. cbn [handlers one_query].
    by intros [<- _]%lookup_singleton_Some [<- _]%lookup_singleton_Some.
  - intros k v Hk. left. exists example_key, (mkRequestValue numCommandRetries true 7%nat true).
    split; [apply lookup_singleton_eq|]. split; [|done].
    cbn [handlers one_query] in Hk. by apply lookup_singleton_Some in Hk as [<- _].
Qed.

(** The answer to the query comes. *)
Lemma step_serviced_witness :
  serviced one_query ∧
  ∃ s', @exec key_order sends timers 3 (Receive 10 (answer 0 [0; 1])) one_query = inr s' ∧ serviced s'.
Proof.
  split; [exact one_query_serviced|].
  assert (Hstep : @exec key_order sends timers 3 (Receive 10 (answer 0 [0; 1])) one_query =
    inr (@handleResponse key_order sends timers example_key (Some [0; 1]) one_query)) by reflexivity.
  eexists. split; [exact Hstep|].
  exact (@step_serviced key_order sends timers 3 _ _ _ one_query_serviced Hstep).
Defined.

Lemma queries_resumed_once_witness :
  @errno_answers sends 3 ∧
  ∃ s', @steps key_order sends timers 3 [Query 10 7%nat; Retry example_key; Receive 10 (answer 0 [0; 1])]
      initial = inr s' ∧ callbacks s' ≡ₚ [7%nat].
Proof.
  assert (He : @errno_answers sends 3) by (unfold errno_answers, sends; split; intros; lia).
  split; [exact He|].
  assert (Hsteps : @steps key_order sends timers 3
    [Query 10 7%nat; Retry example_key; Receive 10 (answer 0 [0; 1])] initial =
    inr (@handleResponse key_order sends timers example_key (Some [0; 1]) (retry example_key one_query))).
  { cbn [steps]. rewrite one_query_reached. reflexivity. }
  eexists. split; [exact Hsteps|].
  exact (@queries_resumed_once key_order sends timers 3 _ _ He Hsteps).
Defined.

Lemma late_response_faults_witness :
  handlers one_query !! example_key = Some (mkRequestValue numCommandRetries true 7%nat true) ∧
  @removeRequestEntry key_order sends timers example_key
    (@handleResponse key_order sends timers example_key (Some [0; 1])
       (instanceIdExpiry example_key one_query)) = inl EmptyFunction.
Proof.
  assert (Hk : handlers one_query !! example_key =
    Some (mkRequestValue numCommandRetries true 7%nat true)) by (vm_compute; reflexivity).
  split; [exact Hk|].
  exact (@late_response_faults key_order sends timers example_key _ (Some [0; 1]) one_query Hk).
Defined.

(** An answer to another command, with the id of the pending query. *)
Lemma stray_response_fails_query_witness :
  (@queryBootStatus key_order sends timers 3 10 8%nat
     (@handleResponse key_order sends timers (mkRequestKey 10 0 nvidiaMsgType 0x06) (Some [0; 1])
        one_query)).1 = Some ErrGeneral.
Proof.
  refine (@stray_response_fails_query key_order sends timers 3 10 8%nat
    (mkRequestKey 10 0 nvidiaMsgType 0x06) (mkRequestValue numCommandRetries true 7%nat true)
    (Some [0; 1]) one_query _ _ _ _ _ _ _).
  - discriminate.
  - reflexivity.
  - reflexivity.
  - vm_compute; reflexivity.
  - vm_compute; reflexivity.
  - reflexivity.
  - vm_compute; discriminate.
Defined.
