(* ===== verification/TokenLog.v ===== *)
(** * The debug token tool: its environment and its messages

    What src/debug_token asks of D-Bus, of the shell and of the kernel is the
    type [Call]; the messages it leaves in the log of the BMC are those of
    update_debug_token.hpp and the functions of update_debug_token.cpp that
    write them. *)

From stdpp Require Import list strings gmap.
From Stdlib Require Import Ascii.
From S2P Require Import Prelude Bytes Text Trace.

(** ** The environment *)

(** [debug_token/update_debug_token.hpp:41-43 dbus::Value] *)
Inductive Value :=
| VBool (b : bool) | VUint8 (v : Z) | VInt16 (v : Z) | VUint16 (v : Z) | VInt32 (v : Z)
| VUint32 (v : Z) | VInt64 (v : Z) | VUint64 (v : Z) | VDouble (bits : Z)
| VString (s : string) | VBytes (l : buffer).

(** [debug_token/update_debug_token.hpp:45-47 dbus::PropertyMap]
    The interfaces of an object with their properties, and the objects of a
    service; a std::map of objects is iterated in the order of the paths. *)
Definition PropertyMap : Type := gmap string Value.
Definition InterfaceMap : Type := gmap string PropertyMap.
Definition ObjectValueTree : Type := list (string * InterfaceMap).

(** An object the mapper lists: its path and the services that own it, at
    least one. *)
Record MapperObject := mkMapperObject {
  mapper_path : string;
  mapper_service : string;
  mapper_services : list string;
}.

(** [debug_token/update_debug_token.hpp:67-70 NSMAsyncValue] *)
Inductive NSMAsyncValue :=
| TokenStatusTuple (tokenType tokenStatus additionalInfo : string) (timeLeft : Z)
| ErrorTuple (errorCode : Z) (errorMessage : string).

Inductive Level := Informational | Critical.

(** A method of com.nvidia.DebugToken with its argument. *)
Inductive DebugTokenMethod := GetStatus (type : string) | DisableTokens | InstallToken (token : buffer).

Inductive Call :=
(* [popen], reading all of the output, and [pclose] *)
| RunCommand (command : string)
(* the content of a file that exists and opens *)
| ReadTokenFile (path : string)
| CreateEntry (messageID : string) (level : Level) (addData : gmap string string)
| GetSubTree (path interface : string)
| GetManagedObjects (service path : string)
(* a property that is a string *)
| GetProperty (service path interface property : string)
| GetAsyncValue (path : string)
| CallDebugToken (path : string) (method : DebugTokenMethod)
| CallInstallToken (path : string) (fd : Z)
| CallEraseToken (path eraseType tokenType : string)
(* dispatches at most one signal; the wait may throw as well *)
| ProcessBus
| WaitBus (ms : Z)
| MemfdCreate
| WriteFd (fd : Z) (data : buffer)
| RewindFd (fd : Z)
| CloseFd (fd : Z).

(** A call that throws answers [None]. A signal is the path of the object whose
    properties changed, with its new status if that is among them. *)
Definition reply (c : Call) : Type :=
  match c with
  | RunCommand _ => Z * string
  | ReadTokenFile _ => option buffer
  | GetSubTree _ _ => option (list MapperObject)
  | GetManagedObjects _ _ => option ObjectValueTree
  | GetProperty _ _ _ _ => option string
  | GetAsyncValue _ => option NSMAsyncValue
  | CallDebugToken _ _ | CallInstallToken _ _ | CallEraseToken _ _ _ => option string
  | ProcessBus => option (option (string * option string))
  | WaitBus _ => option unit
  | MemfdCreate | WriteFd _ _ => Z
  | CreateEntry _ _ _ | RewindFd _ | CloseFd _ => unit
  end.

Abbreviation TokenEnv := (Env reply).

(** ** Error codes *)

(** [debug_token/update_debug_token.hpp:207-214 OperationType] *)
Inductive OperationType := TokenInstall | TokenErase | BackgroundCopy | TokenQueryStatus | Common.

(** [debug_token/update_debug_token.hpp:217-228 InstallErrorCodes]
    the codes the tool names. *)
Definition InstallSuccess : Z := 0.

(** [debug_token/update_debug_token.hpp:283-288 EraseErrorCodes] *)
Definition EraseSuccess : Z := 0.
Definition EraseInternalError : Z := 1.
Definition EraseFailed : Z := 2.

(** [debug_token/update_debug_token.hpp:303-309 BackgroundCopyErrorCodes] *)
Definition BackgroundCopySuccess : Z := 0.
Definition BackgroundCopyFailed : Z := 1.
Definition BackgroundEnableFail : Z := 2.
Definition BackgroundDisableFail : Z := 3.

(** [debug_token/update_debug_token.hpp:324-328 DebugTokenQueryErrorCodes] *)
Definition DebugTokenNotInstalled : Z := 0.
Definition DebugTokenInstalled : Z := 1.

(** [debug_token/update_debug_token.hpp:331-346 CommonErrorCodes] *)
Definition MCTPDiscoveryFailed : Z := 1.
Definition TokenParseFailure : Z := 2.
Definition MCTPCommandInstallFailure : Z := 4.
Definition MCTPCommandEraseFailure : Z := 6.
Definition MCTPResponseInstallFailure : Z := 7.
Definition MCTPResponseEraseFailure : Z := 8.
Definition NSMCommandInstallFailure : Z := 10.
Definition NSMCommandEraseFailure : Z := 12.

(** ** Messages *)

Abbreviation MessageMapping := (string * string)%type.

Definition retry_or_reset : string :=
  "Retry the firmware update operation and if issue still persists reset the baseboard.".

(** [debug_token/update_debug_token.hpp:251-280 installErrorMapping] *)
Definition installErrorMapping (errorCode : Z) : option MessageMapping :=
  match errorCode with
  | 1 => Some ("Invalid Debug Token for {}.",
      "Check Debug Token is valid and signed by NVIDIA. Request the debug token again and retry with new debug signed firmware package.")
  | 2 => Some ("Debug Token Authentication failed for {}",
      "Check Debug Token is valid and signed by NVIDIA. Request the debug token again and retry with new debug signed firmware package.")
  | 3 => Some ("Debug Token Nonce invalid for {}",
      "Request the debug token again and retry with new debug signed firmware package.")
  | 4 => Some ("Debug Token Serial Number invalid for {}",
      "Check debug token was generated for this system and retry the firmware update operation with valid debug signed firmware package.")
  | 5 => Some ("Debug Token ERoT Firmware Version invalid for {}",
      "Request the debug token with valid ERoT firmware version and retry with firmware update operation with new debug signed firmware package.")
  | 6 => Some ("Disabling BackgroundCopy Check Failed for {}", retry_or_reset)
  | 7 => Some ("Debug Token Install Internal Error for {}", retry_or_reset)
  | _ => None
  end%string.

Definition no_action : string :=
  "No action required. If there are other component failures in task, retry the firmware update operation and if issue still persists reset the baseboard.".

(** [debug_token/update_debug_token.hpp:291-300 eraseErrorMapping] *)
Definition eraseErrorMapping (errorCode : Z) : option MessageMapping :=
  match errorCode with
  | 1 => Some ("Debug Token Erase Internal Error for {}", retry_or_reset)
  | 2 => Some ("Erase failed for one or more devices.", no_action)
  | _ => None
  end%string.

(** [debug_token/update_debug_token.hpp:312-321 backgroundCopyErrorMapping] *)
Definition backgroundCopyErrorMapping (errorCode : Z) : option MessageMapping :=
  match errorCode with
  | 2 => Some ("Enabling Background Copy Failed for {}", retry_or_reset)
  | 3 => Some ("Disabling Background Copy Failed for {}", retry_or_reset)
  | _ => None
  end%string.

(** [debug_token/update_debug_token.hpp:349-395 debugTokenCommonErrorMapping] *)
Definition debugTokenCommonErrorMapping (errorCode : Z) : option MessageMapping :=
  match errorCode with
  | 1 => Some ("Device Discovery Failure", retry_or_reset)
  | 2 => Some ("Invalid Debug Token File",
      "Check FW Package contains valid debug token file and retry the operation.")
  | 3 => Some ("Debug token installed on {}.", "")
  | 4 => Some ("Transferring Debug Token to ERoT failed for {}", retry_or_reset)
  | 5 => Some ("Debug Token erased on {}.", "")
  | 6 => Some ("Request to Erase Debug Token failed for {}", retry_or_reset)
  | 7 => Some ("Debug Token Install response is invalid for {}", retry_or_reset)
  | 8 => Some ("Debug Token Erase response is invalid for {}", retry_or_reset)
  | 9 => Some ("Debug Token installed on {}", "")
  | 10 => Some ("Debug Token Install failure for {}", retry_or_reset)
  | 11 => Some ("Debug Token erased on {}", "")
  | 12 => Some ("Debug Token Erase failure for {}", retry_or_reset)
  | 13 => Some ("NSM Command failure for {}", no_action)
  | _ => None
  end%string.

(** [fmt::format] of a text with at most one replacement field. *)
Fixpoint format1 (message arg : string) : string :=
  match message with
  | String "{"%char (String "}"%char rest) => arg +:+ rest
  | String c rest => String c (format1 rest arg)
  | "" => ""
  end%string.

(** [debug_token/update_debug_token.hpp:490-501 formatMessage] *)
Definition formatMessage (message deviceName : string) : string :=
  if decide (deviceName = ""%string) then message else format1 message deviceName.

(** [debug_token/update_debug_token.cpp:1200-1264 getMessage] *)
Definition getMessage (operationType : OperationType) (errorCode : Z) (deviceName : string)
    : option (string * string) :=
  let found :=
    match operationType with
    | TokenInstall => installErrorMapping errorCode
    | TokenErase => eraseErrorMapping errorCode
    | BackgroundCopy => backgroundCopyErrorMapping errorCode
    | Common => debugTokenCommonErrorMapping errorCode
    | TokenQueryStatus => None
    end in
  '(message, resolution) ← found;
  Some (formatMessage message deviceName, resolution).

(** [debug_token/update_debug_token.hpp:128-137 transferFailed]
    and the other names of messages. *)
Definition transferFailed : string := "Update.1.0.TransferFailed".
Definition updateSuccessful : string := "Update.1.0.UpdateSuccessful".
Definition resourceErrorsDetected : string := "ResourceEvent.1.0.ResourceErrorsDetected".
Definition debugTokenEraseFailed : string := "NvidiaUpdate.1.0.DebugTokenEraseFailed".
Definition debugTokenEraseSkipped : string := "NvidiaUpdate.1.1.DebugTokenEraseSkipped".
Definition debugTokenInstallationSkipped : string :=
  "NvidiaUpdate.1.1.DebugTokenInstallationSkipped".

(** The names of meson.build. *)
Definition DEBUG_TOKEN_INSTALL_NAME : string := "Debug_Token_Install".
Definition DEBUG_TOKEN_ERASE_NAME : string := "Debug_Token_Erase".

(** The fields of an entry. *)
Definition entry_data (messageID args : string) : gmap string string :=
  {["REDFISH_MESSAGE_ID" := messageID; "REDFISH_MESSAGE_ARGS" := args;
    "namespace" := "FWUpdate"]}%string.

Section Log.
Context `{TokenEnv}.

(** [debug_token/update_debug_token.cpp:1155-1176 createLog] *)
Definition createLog (messageID : string) (addData : gmap string string) (level : Level) : M () :=
  call (CreateEntry messageID level addData).

(** [debug_token/update_debug_token.cpp:1178-1198 createMessageRegistry] *)
Definition createMessageRegistry (messageID compName compVersion : string) : M () :=
  if decide (messageID = updateSuccessful)
  then createLog messageID (entry_data messageID (compName +:+ "," +:+ compVersion)) Informational
  else createLog messageID (entry_data messageID (compVersion +:+ "," +:+ compName)) Critical.

(** [debug_token/update_debug_token.cpp:1266-1300 createMessageRegistryResourceErrors] *)
Definition createMessageRegistryResourceErrors (messageID componentName : string)
    (operationType : OperationType) (errorCode : Z) (deviceName : string) : M () :=
  match getMessage operationType errorCode deviceName with
  | None => mret ()
  | Some (message, resolution) =>
      let level := if decide (messageID = resourceErrorsDetected) then Critical else Informational in
      let addData := entry_data messageID (componentName +:+ "," +:+ message) in
      let addData :=
        if decide (resolution = ""%string) then addData
        else <["xyz.openbmc_project.Logging.Entry.Resolution"%string := resolution]> addData in
      createLog messageID addData level
  end.
End Log.

Example getMessage_ex :
  getMessage TokenInstall 1 "HGX_ERoT_CPU_0" = Some ("Invalid Debug Token for HGX_ERoT_CPU_0.",
    "Check Debug Token is valid and signed by NVIDIA. Request the debug token again and retry with new debug signed firmware package.")%string.
Proof. by vm_compute. Qed.

(** ** An environment of a model

    The utility and the bus answer as given; a call that installs or erases
    answers a path whose status is already known, files are written whole. *)
Section Model.
Context (utility : string → Z * string) (tree : option (list MapperObject))
  (managed : option ObjectValueTree) (properties : string → string → option string)
  (file : option buffer).

Definition model_reply (c : Call) : reply c :=
  match c with
  | RunCommand command => utility command
  | ReadTokenFile _ => file
  | GetSubTree _ _ => tree
  | GetManagedObjects _ _ => managed
  | GetProperty _ path _ property => properties path property
  | GetAsyncValue _ => None
  | CallDebugToken path _ | CallInstallToken path _ | CallEraseToken path _ _ => Some "/async"%string
  | ProcessBus => Some None
  | WaitBus _ => Some ()
  | MemfdCreate => 3
  | WriteFd _ data => Z.of_nat (length data)
  | CreateEntry _ _ _ | RewindFd _ | CloseFd _ => ()
  end.

Definition token_model : TokenEnv := {| env_state := (); respond := λ c e, (model_reply c, e) |}.
End Model.
