(* ===== verification/TokenVdm.v ===== *)
(** * Debug tokens over MCTP vendor messages

    The commands of src/debug_token/update_debug_token.cpp that run
    mctp-vdm-util: installing, erasing and querying the token of an endpoint,
    and switching its background copy. The utility is the environment: a
    command is answered by an exit status and a text, of which the last line
    that starts with RX holds the bytes of the response. *)

From stdpp Require Import list strings gmap.
From Stdlib Require Import Ascii.
From S2P Require Import Prelude Bytes Text Trace TokenLog.

(** ** The output of the utility *)

(** [boost::replace_all(line, RX, nothing)] *)
Fixpoint remove_RX (line : string) : string :=
  match line with
  | String "R" (String "X" (String ":" (String " " rest))) => remove_RX rest
  | String c rest => String c (remove_RX rest)
  | ""%string => ""%string
  end.

(** [debug_token/token_utility.hpp:214-230 parseCommandOutput] *)
Definition parseCommandOutput (output : string) : list string :=
  foldl (λ rxBytes line,
    if String.prefix "RX: " line then split " " (remove_RX (trim line)) else rxBytes)
    [] (split "010" output).

(** [debug_token/update_debug_token.hpp:127-127 mctpVdmUtilPath] *)
Definition mctpVdmUtilPath : string := "/usr/bin/mctp-vdm-util".

(** [debug_token/update_debug_token.hpp:138-161 mctpCompletionCodeByte]
    and the places of the other fields of a response. *)
Definition mctpCompletionCodeByte : nat := 8.
Definition tokenInstallStatusByteV1 : nat := 9.
Definition tokenInstallStatusByteV2 : nat := 9.
Definition tokenInstallStatusByteV3 : nat := 12.
Definition mctpDebugTokenQueryResponseLengthV1 : nat := 19.
Definition mctpDebugTokenQueryResponseLengthV2 : nat := 37.
Definition mctpDebugTokenQueryResponseLengthV3 : nat := 50.
Definition tokenTypeByteStartV2 : nat := 19.
Definition tokenTypeByteStartV3 : nat := 30.

(** The token type takes four bytes. *)
Definition tokenTypeBytes : nat := 4.

(** [debug_token/update_debug_token.cpp:987-995 parseQueryV2Response]
    The loop over the bytes of the token type, and whether it ended without an
    exception. *)
Fixpoint token_type (bytes : list string) (shift installedTokenType : Z) : Z * bool :=
  match bytes with
  | [] => (installedTokenType, true)
  | b :: bytes =>
      match stoi16 b with
      | None => (installedTokenType, false)
      | Some v => token_type bytes (shift + 8) (installedTokenType .| u32 (u32 v ≪ shift))
      end
  end.

(** What parsing a response sets. *)
Record QueryResponse := mkQueryResponse {
  qr_status : Z;
  qr_tokenInstallStatus : Z;
  qr_installedTokenType : Z;
}.

(** A response of which the length, the place of the install status and that of
    the token type are given. *)
Definition parseQueryResponse (len statusByte typeStart : nat) (rxBytes : list string)
    : QueryResponse :=
  if negb (length rxBytes =? len)%nat then
    if (mctpCompletionCodeByte <? length rxBytes)%nat then
      mkQueryResponse (default (-1) (rxBytes !! mctpCompletionCodeByte ≫= stoi16)) 0 0
    else mkQueryResponse (-1) 0 0
  else if negb (default (-1) (rxBytes !! mctpCompletionCodeByte ≫= stoi16) =? 0) then
    mkQueryResponse (-1) 0 0
  else match rxBytes !! statusByte ≫= stoi16 with
  | None => mkQueryResponse (-1) 0 0
  | Some tokenInstallStatus =>
      if tokenInstallStatus =? DebugTokenInstalled then
        let '(type, ok) := token_type (take tokenTypeBytes (drop typeStart rxBytes)) 0 0 in
        mkQueryResponse (if ok then 0 else -1) tokenInstallStatus type
      else mkQueryResponse 0 tokenInstallStatus 0
  end.

(** [debug_token/update_debug_token.cpp:933-1007 parseQueryV2Response] *)
Definition parseQueryV2Response : list string → QueryResponse :=
  parseQueryResponse mctpDebugTokenQueryResponseLengthV2 tokenInstallStatusByteV2
    tokenTypeByteStartV2.

(** [debug_token/update_debug_token.cpp:1056-1130 parseQueryV3Response] *)
Definition parseQueryV3Response : list string → QueryResponse :=
  parseQueryResponse mctpDebugTokenQueryResponseLengthV3 tokenInstallStatusByteV3
    tokenTypeByteStartV3.

(** A command for an endpoint. *)
Definition command (verb : string) (eid : Z) : string :=
  mctpVdmUtilPath +:+ " -c " +:+ verb +:+ " -t " +:+ to_string eid.

(** The bytes of a token as arguments. *)
Definition tokenString (token : buffer) : string :=
  foldl (λ s b, s +:+ format_hex_lower 2 b +:+ " ") "" token.

(** [debug_token/update_debug_token.cpp:522-531 installToken]
    The command. *)
Definition install_command (eid : Z) (token : buffer) : string :=
  command "debug_token_install" eid +:+ " " +:+ tokenString token.

(** The status a response ends with: no response, one that is no number, or a
    number. *)
Inductive LastByte := NoResponse | NotANumber | LastStatus (v : Z).

Definition last_status (rxBytes : list string) : LastByte :=
  match last rxBytes with
  | None => NoResponse
  | Some b => match stoi16 b with None => NotANumber | Some v => LastStatus v end
  end.

Section Commands.
Context `{TokenEnv}.

(** [debug_token/token_utility.hpp:178-200 runMctpVdmUtilCommand] *)
Definition runMctpVdmUtilCommand (command : string) : M (Z * string) := call (RunCommand command).

(** [debug_token/update_debug_token.cpp:702-754 disableBackgroundCopy] *)
Definition disableBackgroundCopy (eid : Z) : M Z :=
  '(retCode, commandOut) ← runMctpVdmUtilCommand (command "background_copy_disable" eid);
  if negb (retCode =? 0) then mret (-1) else
  mret match last_status (parseCommandOutput commandOut) with
       | NoResponse => BackgroundDisableFail
       | NotANumber => -1
       | LastStatus status => if status =? BackgroundCopySuccess then status else -1
       end.

(** [debug_token/update_debug_token.cpp:756-809 enableBackgroundCopy] *)
Definition enableBackgroundCopy (eid : Z) : M Z :=
  '(retCode, commandOut) ← runMctpVdmUtilCommand (command "background_copy_enable" eid);
  if negb (retCode =? 0) then mret (-1) else
  mret match last_status (parseCommandOutput commandOut) with
       | NoResponse => BackgroundEnableFail
       | NotANumber => -1
       | LastStatus status => if status =? BackgroundCopySuccess then status else -1
       end.

(** [debug_token/update_debug_token.cpp:515-610 installToken] *)
Definition installToken (deviceNameMap : gmap Z string) (eid : Z) (token : buffer) : M Z :=
  let deviceName := default ""%string (deviceNameMap !! eid) in
  let log := createMessageRegistryResourceErrors resourceErrorsDetected DEBUG_TOKEN_INSTALL_NAME in
  '(retCode, commandOut) ← runMctpVdmUtilCommand (install_command eid token);
  if negb (retCode =? 0) then
    _ ← log Common MCTPCommandInstallFailure deviceName;
    mret MCTPCommandInstallFailure
  else
  match last_status (parseCommandOutput commandOut) with
  | NoResponse | NotANumber =>
      _ ← log Common MCTPResponseInstallFailure deviceName;
      mret MCTPResponseInstallFailure
  | LastStatus status =>
      if status =? InstallSuccess then mret status else
      _ ← log TokenInstall status deviceName;
      _ ← enableBackgroundCopy eid;
      mret status
  end.

(** [debug_token/update_debug_token.cpp:612-700 eraseToken] *)
Definition eraseToken (deviceNameMap : gmap Z string) (eid : Z) : M Z :=
  let deviceName := default ""%string (deviceNameMap !! eid) in
  let log id := createMessageRegistryResourceErrors id DEBUG_TOKEN_ERASE_NAME in
  '(retCode, commandOut) ← runMctpVdmUtilCommand (command "debug_token_erase" eid);
  if negb (retCode =? 0) then
    _ ← log debugTokenEraseFailed Common MCTPCommandEraseFailure deviceName;
    mret MCTPCommandEraseFailure
  else
  match last_status (parseCommandOutput commandOut) with
  | NoResponse =>
      _ ← log debugTokenEraseFailed Common MCTPResponseEraseFailure deviceName;
      mret MCTPResponseEraseFailure
  | NotANumber =>
      _ ← log resourceErrorsDetected Common MCTPResponseEraseFailure deviceName;
      mret MCTPResponseEraseFailure
  | LastStatus status =>
      if status =? EraseSuccess then mret status else
      _ ← log debugTokenEraseFailed TokenErase EraseInternalError deviceName;
      _ ← disableBackgroundCopy eid;
      mret (-1)
  end.

(** [debug_token/update_debug_token.cpp:811-884 queryDebugTokenV1] *)
Definition queryDebugTokenV1 (eid : Z) : M Z :=
  '(retCode, commandOut) ← runMctpVdmUtilCommand (command "debug_token_query" eid);
  if negb (retCode =? 0) then mret (-1) else
  let rxBytes := parseCommandOutput commandOut in
  mret (if negb (length rxBytes =? mctpDebugTokenQueryResponseLengthV1)%nat then -1 else
        if negb (default (-1) (rxBytes !! mctpCompletionCodeByte ≫= stoi16) =? 0) then -1 else
        match rxBytes !! tokenInstallStatusByteV1 ≫= stoi16 with
        | None => -1
        | Some tokenInstallStatus =>
            if tokenInstallStatus =? DebugTokenInstalled then DebugTokenInstalled
            else DebugTokenNotInstalled
        end).

(** What a query returns of a parsed response. *)
Definition query_result (r : QueryResponse) : Z :=
  if qr_status r =? 0 then qr_tokenInstallStatus r else qr_status r.

(** [debug_token/update_debug_token.cpp:886-931 queryDebugTokenV2] *)
Definition queryDebugTokenV2 (eid : Z) : M Z :=
  '(retCode, commandOut) ← runMctpVdmUtilCommand (command "debug_token_query_v2" eid);
  mret (if negb (retCode =? 0) then -1
        else query_result (parseQueryV2Response (parseCommandOutput commandOut))).

(** [debug_token/update_debug_token.cpp:1009-1054 queryDebugTokenV3] *)
Definition queryDebugTokenV3 (eid : Z) : M Z :=
  '(retCode, commandOut) ← runMctpVdmUtilCommand (command "debug_token_query_v3" eid);
  mret (if negb (retCode =? 0) then -1
        else query_result (parseQueryV3Response (parseCommandOutput commandOut))).

(** Whether a status says if a token is installed. *)
Definition decided (status : Z) : bool :=
  (status =? DebugTokenInstalled) || (status =? DebugTokenNotInstalled).

(** [debug_token/update_debug_token.cpp:1132-1153 queryDebugToken] *)
Definition queryDebugToken (eid : Z) : M Z :=
  status ← queryDebugTokenV3 eid;
  if decided status then mret status else
  status ← queryDebugTokenV2 eid;
  if decided status then mret status else queryDebugTokenV1 eid.
End Commands.

Example parseCommandOutput_ex :
  parseCommandOutput ("Test command = debug_token_erase" +:+ String "010"
    ("teid = 24" +:+ String "010" ("TX: 47 16 00 00 80 01 0C 01" +:+ String "010"
    ("RX: 47 16 00 00 00 01 0C 01 00 00 " +:+ String "010" "")))) =
  ["47"; "16"; "00"; "00"; "00"; "01"; "0C"; "01"; "00"; "00"]%string.
Proof. by vm_compute. Qed.

(** ** What the utility prints *)

Definition newline : ascii := "010".

(** A line of the utility that shows no response. *)
Definition other_line (line : string) : Prop :=
  free (is_char newline) line = true ∧ String.prefix "RX: " line = false.

(** The utility's text: some lines, then the bytes of the response. *)
Definition printed (lines : list string) (rx : buffer) : string :=
  join (String newline "") (lines ++ ["RX: " +:+ join " " (format_hex 2 <$> rx); ""%string]).

Lemma join_free P sep l :
  free P sep = true → Forall (λ s, free P s = true) l → free P (join sep l) = true.
Proof.
  intros Hsep. induction 1 as [|s l Hs Hl IH]; [done|]. destruct l as [|t l]; [done|].
  cbn [join]. rewrite !free_app, Hs, Hsep. exact IH.
Qed.

Lemma hex_line_free P rx :
  bytes_ok rx → free P " " = true →
  forallb (λ c, negb (P c)) ["0"; "1"; "2"; "3"; "4"; "5"; "6"; "7"; "8"; "9";
    "A"; "B"; "C"; "D"; "E"; "F"]%char = true →
  free P (join " " (format_hex 2 <$> rx)) = true.
Proof.
  intros Hrx Hsep HP. apply join_free; [done|]. apply Forall_fmap.
  eapply Forall_impl; [exact Hrx|]. intros b Hb. by apply format_hex_free.
Qed.

Lemma remove_RX_free s : free (is_char "R") s = true → remove_RX s = s.
Proof.
  induction s as [|c s IH]; [done|]. cbn [free]. intros [Hc Hs]%andb_true_iff.
  apply negb_true_iff, bool_decide_eq_false in Hc.
  rewrite <-(IH Hs) at 2. destruct c as [[] [] [] [] [] [] [] []]; try done.
Qed.

Lemma join_last (l : list string) t : ∃ s, join " " (l ++ [t]) = s +:+ t.
Proof.
  induction l as [|x l [s IH]]; [by exists ""%string|]. cbn [app].
  exists (x +:+ " " +:+ s). destruct (l ++ [t]) as [|y k] eqn:Hl; [by destruct l|].
  cbn [join]. cbn [join] in IH. rewrite IH, !string_app_assoc. done.
Qed.

Lemma other_lines_skipped lines acc :
  Forall other_line lines →
  foldl (λ rxBytes line, if String.prefix "RX: " line then split " " (remove_RX (trim line))
                         else rxBytes) acc lines = acc.
Proof. induction 1 as [|line lines [_ Hl] _ IH]; [done|]. cbn [foldl]. by rewrite Hl. Qed.

(** The bytes of a response are read as they are printed. *)
Lemma printed_read_back lines rx :
  Forall other_line lines → rx ≠ [] → bytes_ok rx →
  parseCommandOutput (printed lines rx) = format_hex 2 <$> rx.
Proof.
  intros Hlines Hne Hrx. unfold parseCommandOutput, printed.
  set (words := format_hex 2 <$> rx). set (line := join " " words).
  assert (Hwords : words ≠ []) by (by destruct rx).
  assert (HR : free (is_char "R") line = true) by (by apply hex_line_free).
  rewrite split_join; [|by destruct lines|].
  2: { apply Forall_app. split; [eapply Forall_impl; [exact Hlines|by intros l []]|].
       constructor; [|by repeat constructor]. rewrite free_app.
       apply andb_true_iff. split; [done|by apply hex_line_free]. }
  rewrite foldl_app, (other_lines_skipped lines) by done. cbn [foldl].
  rewrite string_prefix_app. change (String.prefix "RX: " "") with false. cbv iota.
  assert (Htrim : trim ("RX: " +:+ line) = "RX: " +:+ line).
  { change (trim_right ("RX: " +:+ line) = "RX: " +:+ line). unfold line, words.
    destruct (exists_last Hne) as (rx' & b & ->). rewrite fmap_app. cbn [fmap list_fmap].
    destruct (join_last (format_hex 2 <$> rx') (format_hex 2 b)) as [s ->].
    apply bytes_ok_app in Hrx as [_ Hb]. inversion Hb as [|? ? Hb' _]; subst.
    rewrite string_app_assoc. apply trim_right_app; [by apply format_hex_free|].
    intros He. apply stoi16_format_hex in Hb'. by rewrite He in Hb'. }
  rewrite Htrim. change (remove_RX ("RX: " +:+ line)) with (remove_RX line).
  rewrite remove_RX_free by done. apply split_join; [done|].
  apply Forall_fmap. eapply Forall_impl; [exact Hrx|]. intros b Hb. by apply format_hex_free.
Qed.

Lemma printed_byte rx i : bytes_ok rx → (format_hex 2 <$> rx) !! i ≫= stoi16 = rx !! i.
Proof.
  intros Hrx. rewrite list_lookup_fmap. destruct (rx !! i) as [b|] eqn:Hb; [|done].
  cbn. apply stoi16_format_hex. by eapply Forall_lookup_1.
Qed.

(** ** Queries *)

(** What a query makes of the bytes of a response: of the expected length, its
    install status, if its completion code is zero; of another, the completion
    code itself. *)
Definition query_reference (len statusByte : nat) (rx : buffer) : Z :=
  if decide (length rx = len) then
    if decide (rx !! mctpCompletionCodeByte = Some 0) then default (-1) (rx !! statusByte) else -1
  else default (-1) (rx !! mctpCompletionCodeByte).

Lemma token_type_printed rx shift acc : bytes_ok rx → (token_type (format_hex 2 <$> rx) shift acc).2 = true.
Proof.
  intros Hrx. revert shift acc. induction Hrx as [|b rx Hb Hrx IH]; intros shift acc; [done|].
  cbn [fmap list_fmap token_type]. rewrite stoi16_format_hex by done. apply IH.
Qed.

Lemma parse_reference len statusByte typeStart rx :
  (statusByte < len)%nat → bytes_ok rx →
  query_result (parseQueryResponse len statusByte typeStart (format_hex 2 <$> rx)) =
    query_reference len statusByte rx.
Proof.
  intros Hs Hrx. unfold parseQueryResponse, query_reference.
  rewrite !printed_byte, length_fmap by done.
  destruct (Nat.eqb_spec (length rx) len) as [Hl|Hl]; cbn [negb].
  - rewrite decide_True by done.
    destruct (rx !! mctpCompletionCodeByte) as [c|]; cbn [default from_option id]; [|done].
    destruct (Z.eqb_spec c 0) as [->|Hc]; cbn [negb]; [|by rewrite decide_False by congruence].
    rewrite decide_True by done.
    destruct (rx !! statusByte) as [v|] eqn:Hv; [|done]. cbn [default from_option id].
    destruct (v =? DebugTokenInstalled); [|done].
    pose proof (token_type_printed (take tokenTypeBytes (drop typeStart rx)) 0 0) as Ht.
    rewrite fmap_take, fmap_drop in Ht.
    destruct (token_type _ 0 0) as [type ok]. cbn [snd] in Ht. by rewrite Ht by auto with bytes.
  - rewrite decide_False by done. unfold query_result.
    destruct (Nat.ltb_spec mctpCompletionCodeByte (length rx)) as [H8|H8].
    + destruct (lookup_lt_is_Some_2 rx mctpCompletionCodeByte H8) as [c ->]. cbn.
      by destruct (Z.eqb_spec c 0) as [->|].
    + by rewrite (proj2 (lookup_ge_None rx _) H8).
Qed.

Section Queries.
Context `{TokenEnv} (eid : Z).

(** The utility answers a command with these lines and this response. *)
Definition answers (verb : string) (lines : list string) (rx : buffer) : Prop :=
  ∀ e, (respond (RunCommand (command verb eid)) e).1 = (0, printed lines rx).

Definition response_ok (lines : list string) (rx : buffer) : Prop :=
  Forall other_line lines ∧ rx ≠ [] ∧ bytes_ok rx.

Lemma query_yields (query : M Z) verb parse len statusByte typeStart lines rx :
  query = ('(retCode, commandOut) ← runMctpVdmUtilCommand (command verb eid);
           mret (if negb (retCode =? 0) then -1
                 else query_result (parse (parseCommandOutput commandOut)))) →
  parse = parseQueryResponse len statusByte typeStart → (statusByte < len)%nat →
  answers verb lines rx → response_ok lines rx →
  yields query (query_reference len statusByte rx).
Proof.
  intros -> -> Hlen Ha (Hlines & Hne & Hrx).
  apply (yields_bind _ _ (0, printed lines rx)).
  - intros w. unfold runMctpVdmUtilCommand, call. rewrite <-(Ha (w_env w)).
    by destruct (respond _ (w_env w)).
  - change (0 =? 0) with true. cbn [negb]. rewrite printed_read_back, parse_reference by done.
    apply yields_ret.
Qed.

Lemma queryV3_yields lines rx :
  answers "debug_token_query_v3" lines rx → response_ok lines rx →
  yields (queryDebugTokenV3 eid) (query_reference 50 12 rx).
Proof. eapply query_yields; [done..|unfold tokenInstallStatusByteV3; lia]. Qed.

Lemma queryV2_yields lines rx :
  answers "debug_token_query_v2" lines rx → response_ok lines rx →
  yields (queryDebugTokenV2 eid) (query_reference 37 9 rx).
Proof. eapply query_yields; [done..|unfold tokenInstallStatusByteV2; lia]. Qed.

(** A device that answers version 3 of the query says whether it holds a
    token; one that refuses it with the code of an unsupported command is asked
    version 2, and its answer decides. *)
Theorem query_decides lines3 rx3 lines2 rx2 status
    (H3 : answers "debug_token_query_v3" lines3 rx3) (Hok3 : response_ok lines3 rx3)
    (H2 : answers "debug_token_query_v2" lines2 rx2) (Hok2 : response_ok lines2 rx2)
    (Hstatus : decided status = true)
    (Hanswer : query_reference 50 12 rx3 = status ∨
      decided (query_reference 50 12 rx3) = false ∧ query_reference 37 9 rx2 = status) :
  yields (queryDebugToken eid) status.
Proof.
  pose proof (queryV3_yields _ _ H3 Hok3) as Y3. pose proof (queryV2_yields _ _ H2 Hok2) as Y2.
  eapply yields_bind; [exact Y3|]. destruct Hanswer as [Ha|[Hd Ha]].
  - rewrite Ha, Hstatus. apply yields_ret.
  - rewrite Hd. eapply yields_bind; [exact Y2|]. rewrite Ha, Hstatus. apply yields_ret.
Qed.

(** A device that fails version 3 of the query with the completion code for a
    general error is reported to hold a token: the code is returned where the
    install status belongs, and version 2 is not asked. *)
Theorem error_reads_installed lines rx
    (Hanswers : answers "debug_token_query_v3" lines rx) (Hok : response_ok lines rx)
    (Hlen : length rx ≠ mctpDebugTokenQueryResponseLengthV3)
    (Hcode : rx !! mctpCompletionCodeByte = Some 1) :
  yields (queryDebugToken eid) DebugTokenInstalled.
Proof.
  pose proof (queryV3_yields _ _ Hanswers Hok) as Y. unfold query_reference in Y.
  rewrite decide_False in Y by done. rewrite Hcode in Y.
  eapply yields_bind; [exact Y|]. apply yields_ret.
Qed.
End Queries.

(** ** A device in three answers *)

Definition lines_ex : list string := ["Test command = debug_token_query"; "teid = 31"]%string.

Definition rx3_ex : buffer := [0x47; 0x16; 0; 0; 0; 1; 0x0F; 1; 5].
Definition rx2_ex : buffer :=
  [0x47; 0x16; 0; 0; 0; 1; 0x0E; 1; 0; 1] ++ replicate 9 0 ++ [1; 0; 0; 0] ++ replicate 14 0.
Definition rx_error_ex : buffer := [0x47; 0x16; 0; 0; 0; 1; 0x0F; 1; 1].

Definition utility_ex (rx3 : buffer) (c : string) : Z * string :=
  if decide (c = command "debug_token_query_v3" 31) then (0, printed lines_ex rx3)
  else (0, printed lines_ex rx2_ex).

Definition env_ex (rx3 : buffer) : TokenEnv :=
  token_model (utility_ex rx3) None None (λ _ _, None) None.

Lemma response_ok_ex rx : rx ≠ [] → bytes_ok rx → response_ok lines_ex rx.
Proof. intros Hne Hrx. split; [by repeat constructor|done]. Qed.

Lemma query_decides_witness :
  @yields _ _ (env_ex rx3_ex) _ (@queryDebugToken (env_ex rx3_ex) 31) DebugTokenInstalled.
Proof.
  refine (@query_decides (env_ex rx3_ex) 31 lines_ex rx3_ex lines_ex rx2_ex DebugTokenInstalled
    _ _ _ _ _ _).
  - intros e. reflexivity.
  - apply response_ok_ex; [discriminate|]. apply (bool_decide_unpack _). vm_compute. exact I.
  - intros e. reflexivity.
  - apply response_ok_ex; [discriminate|]. apply (bool_decide_unpack _). vm_compute. exact I.
  - reflexivity.
  - right. split; reflexivity.
Defined.

Lemma error_reads_installed_witness :
  @yields _ _ (env_ex rx_error_ex) _ (@queryDebugToken (env_ex rx_error_ex) 31) DebugTokenInstalled.
Proof.
  refine (@error_reads_installed (env_ex rx_error_ex) 31 lines_ex rx_error_ex _ _ _ _).
  - intros e. reflexivity.
  - apply response_ok_ex; [discriminate|]. apply (bool_decide_unpack _). vm_compute. exact I.
  - discriminate.
  - reflexivity.
Defined.
