(* ===== verification/TokenDiscovery.v ===== *)
(** * Discovery of MCTP endpoints for debug tokens

    The endpoints of src/debug_token/update_debug_token.cpp: those of a device
    that answer both SPDM and vendor messages, one for each UUID, of the best
    medium and binding; and the maps from an endpoint to the serial number and
    the name of its device. *)

From stdpp Require Import list strings gmap.
From S2P Require Import Prelude Bytes Text Trace TokenLog.

(** An exception of [std::get] on a variant, or of [at] on a map. *)
Inductive Exn := BadVariantAccess | OutOfRange.

(** [debug_token/update_debug_token.hpp:186-204 MctpEidInfo] *)
Record MctpEidInfo := mkMctpEidInfo {
  info_eid : Z;
  info_medium : string;
  info_binding : string;
  info_supportedMsgTypes : buffer;
  info_enabled : bool;
}.

Definition at_map (m : list (string * Z)) (key : string) : res Exn Z :=
  match (list_to_map m : gmap string Z) !! key with Some v => Ok v | None => Throw OutOfRange end.

Definition media (prefix : string) : list (string * Z) :=
  [(prefix +:+ ".PCIe", 0); (prefix +:+ ".USB", 1); (prefix +:+ ".SPI", 2);
   (prefix +:+ ".KCS", 3); (prefix +:+ ".Serial", 4); (prefix +:+ ".SMBus", 5)].

(** [debug_token/update_debug_token.hpp:168-175 mediumPriority] *)
Definition mediumPriority : list (string * Z) :=
  media "xyz.openbmc_project.MCTP.Endpoint.MediaTypes".

(** [debug_token/update_debug_token.hpp:177-184 bindingPriority] *)
Definition bindingPriority : list (string * Z) :=
  media "xyz.openbmc_project.MCTP.Binding.BindingTypes".

(** [debug_token/update_debug_token.hpp:194-203 MctpEidInfo::operator<]
    Lower is slower. *)
Definition slower (lhs rhs : MctpEidInfo) : res Exn bool :=
  m1 ← at_map mediumPriority (info_medium lhs);
  m2 ← at_map mediumPriority (info_medium rhs);
  if m1 =? m2 then
    b1 ← at_map bindingPriority (info_binding lhs);
    b2 ← at_map bindingPriority (info_binding rhs);
    Ok (b2 <? b1)
  else Ok (m2 <? m1).

(** [std::get] of a variant. *)
Definition get_string (v : Value) : res Exn string :=
  match v with VString s => Ok s | _ => Throw BadVariantAccess end.
Definition get_uint8 (v : Value) : res Exn Z :=
  match v with VUint8 v => Ok v | _ => Throw BadVariantAccess end.
Definition get_bytes (v : Value) : res Exn buffer :=
  match v with VBytes l => Ok l | _ => Throw BadVariantAccess end.

(** A property read if it is there. *)
Definition property {A} (get : Value → res Exn A) (dflt : A) (v : option Value) : res Exn A :=
  match v with Some v => get v | None => Ok dflt end.

(** [debug_token/update_debug_token.hpp:76-77 mctpTypeSPDM] *)
Definition mctpTypeSPDM : Z := 0x5.
Definition mctpTypeVDMIANA : Z := 0x7f.

(** [debug_token/update_debug_token.hpp:94-112 mctpEndpointIntfName]
    and the other names. *)
Definition mctpPath : string := "/au/com/codeconstruct/mctp1".
Definition mctpEndpointIntfName : string := "xyz.openbmc_project.MCTP.Endpoint".
Definition mctpEndpointEnableIntfName : string := "au.com.codeconstruct.MCTP.Endpoint1".
Definition uuidEndpointIntfName : string := "xyz.openbmc_project.Common.UUID".
Definition mctpBindingIntfName : string := "xyz.openbmc_project.MCTP.Binding".
Definition pldmService : string := "xyz.openbmc_project.PLDM".
Definition pldmPath : string := "/".
Definition pldmInventoryIntfName : string := "xyz.openbmc_project.Inventory.Decorator.Asset".

(** [debug_token/update_debug_token.cpp:221-286 fetchEidInfoFromObject] *)
Definition fetchEidInfoFromObject (interfaces : InterfaceMap) : res Exn MctpEidInfo :=
  match interfaces !! mctpEndpointIntfName with
  | None => Throw OutOfRange
  | Some eidProperties =>
      '(eid, supportedMsgTypes) ←
        match eidProperties !! "EID"%string, eidProperties !! "SupportedMessageTypes"%string with
        | Some eid, Some types => types ← get_bytes types; eid ← get_uint8 eid; Ok (eid, types)
        | _, _ => Ok (0, [])
        end;
      mctpMedium ← property get_string ""%string (eidProperties !! "MediumType"%string);
      mctpBinding ←
        property get_string ""%string
          (interfaces !! mctpBindingIntfName ≫= λ p : PropertyMap, p !! "BindingType"%string);
      connectivity ←
        property get_string ""%string
          (interfaces !! mctpEndpointEnableIntfName ≫= λ p : PropertyMap, p !! "Connectivity"%string);
      Ok (mkMctpEidInfo eid mctpMedium mctpBinding supportedMsgTypes
            (bool_decide (connectivity = "Available"%string)))
  end.

(** [debug_token/update_debug_token.cpp:288-308 checkSupportForSPDMandMCTPVDM] *)
Definition checkSupportForSPDMandMCTPVDM (supportedMsgTypes : buffer) : bool :=
  bool_decide (mctpTypeSPDM ∈ supportedMsgTypes) && bool_decide (mctpTypeVDMIANA ∈ supportedMsgTypes).

(** [debug_token/update_debug_token.cpp:323-349 discoverMCTPDevices]
    The UUID and the endpoint of an object, if it is one for tokens. *)
Definition endpoint_of (interfaces : InterfaceMap) : res Exn (option (string * MctpEidInfo)) :=
  match interfaces !! mctpEndpointIntfName, interfaces !! uuidEndpointIntfName with
  | Some _, Some properties =>
      uuid ← property get_string ""%string (properties !! "UUID"%string);
      if decide (uuid = ""%string) then Ok None else
      eidInfo ← fetchEidInfoFromObject interfaces;
      if (bool_decide (info_medium eidInfo = ""%string) && bool_decide (info_binding eidInfo = ""%string)) ||
         negb (info_enabled eidInfo) ||
         negb (checkSupportForSPDMandMCTPVDM (info_supportedMsgTypes eidInfo))
      then Ok None else Ok (Some (uuid, eidInfo))
  | _, _ => Ok None
  end.

Abbreviation MctpInfo := (gmap string MctpEidInfo).

(** [debug_token/update_debug_token.cpp:351-363 discoverMCTPDevices] *)
Definition add_endpoint (uuid : string) (eidInfo : MctpEidInfo) (mctpInfo : MctpInfo)
    : res Exn MctpInfo :=
  match mctpInfo !! uuid with
  | None => Ok (<[uuid := eidInfo]> mctpInfo)
  | Some known => b ← slower known eidInfo; Ok (if b : bool then <[uuid := eidInfo]> mctpInfo else mctpInfo)
  end.

(** [debug_token/update_debug_token.cpp:310-366 discoverMCTPDevices]
    The loop over the objects, and what it left when it threw. *)
Fixpoint discover (objects : ObjectValueTree) (mctpInfo : MctpInfo) : option Exn * MctpInfo :=
  match objects with
  | [] => (None, mctpInfo)
  | (_, interfaces) :: objects =>
      match endpoint_of interfaces with
      | Throw e => (Some e, mctpInfo)
      | Ok None => discover objects mctpInfo
      | Ok (Some (uuid, eidInfo)) =>
          match add_endpoint uuid eidInfo mctpInfo with
          | Throw e => (Some e, mctpInfo)
          | Ok mctpInfo => discover objects mctpInfo
          end
      end
  end.

(** [debug_token/update_debug_token.hpp:541-550 UpdateDebugToken]
    The state of the tool. *)
Record UpdateDebugToken := mkUpdateDebugToken {
  devices : gmap Z string;
  mctpInfo : MctpInfo;
  deviceNameMap : gmap Z string;
}.

(** [std::map::emplace] by endpoint. *)
Definition emplace_in (eid : Z) (v : string) (m : gmap Z string) : gmap Z string :=
  match m !! eid with Some _ => m | None => <[eid := v]> m end.

(** [debug_token/update_debug_token.cpp:368-398 updateDeviceMap] *)
Definition updateDeviceMap (interfaces : InterfaceMap) (deviceName : string)
    (s : UpdateDebugToken) : res Exn UpdateDebugToken :=
  uuid ← property get_string ""%string
           (interfaces !! uuidEndpointIntfName ≫= λ p : PropertyMap, p !! "UUID"%string);
  if decide (uuid = ""%string) then Ok s else
  match interfaces !! pldmInventoryIntfName ≫= λ p : PropertyMap, p !! "SerialNumber"%string with
  | None => Ok s
  | Some v =>
      serialNumber ← get_string v;
      Ok match mctpInfo s !! uuid with
         | None => s
         | Some info =>
             mkUpdateDebugToken (emplace_in (info_eid info) serialNumber (devices s)) (mctpInfo s)
               (emplace_in (info_eid info) deviceName (deviceNameMap s))
         end
  end.

(** [debug_token/update_debug_token.cpp:416-420 updateEndPoints]
    The loop over the objects of PLDM, and whether it threw. *)
Fixpoint update_devices (filename : string → string) (objects : ObjectValueTree)
    (s : UpdateDebugToken) : bool * UpdateDebugToken :=
  match objects with
  | [] => (false, s)
  | (path, interfaces) :: objects =>
      match updateDeviceMap interfaces (filename path) s with
      | Throw _ => (true, s)
      | Ok s => update_devices filename objects s
      end
  end.

(** The objects of a reply, in a map. *)
Definition read_objects (l : ObjectValueTree) (objects : ObjectValueTree) : ObjectValueTree :=
  foldl (λ objects '(path, interfaces), emplace path interfaces objects) objects l.

Section Discovery.
Context `{TokenEnv}.

(** The last component of an object path, decoded as sdbusplus does. *)
Context (filename : string → string).

(** [debug_token/update_debug_token.cpp:164-191 getMCTPServiceList] *)
Definition getMCTPServiceList : M (list string) :=
  response ← call (GetSubTree mctpPath mctpEndpointIntfName);
  let services := concat ((λ o, mapper_service o :: mapper_services o) <$> default [] response) in
  mret ((foldl (λ l s, emplace s () l) [] services).*1).

(** [debug_token/update_debug_token.cpp:193-219 getMCTPManagedObjects]
    For the services left. *)
Fixpoint managed_objects (services : list string) (objects : ObjectValueTree) : M ObjectValueTree :=
  match services with
  | [] => mret objects
  | service :: services =>
      tmpObjects ← call (GetManagedObjects service mctpPath);
      managed_objects services (read_objects (read_objects (default [] tmpObjects) []) objects)
  end.

(** [debug_token/update_debug_token.cpp:193-219 getMCTPManagedObjects] *)
Definition getMCTPManagedObjects : M ObjectValueTree :=
  services ← getMCTPServiceList;
  managed_objects services [].

(** [debug_token/update_debug_token.cpp:310-366 discoverMCTPDevices]
    The status, or the exception. *)
Definition discoverMCTPDevices (s : UpdateDebugToken) : M (res Exn Z * UpdateDebugToken) :=
  objects ← getMCTPManagedObjects;
  mret match objects with
       | [] => (Ok (-1), s)
       | _ =>
           let '(thrown, info) := discover objects (mctpInfo s) in
           let s := mkUpdateDebugToken (devices s) info (deviceNameMap s) in
           match thrown with Some e => (Throw e, s) | None => (Ok 0, s) end
       end.

(** [debug_token/update_debug_token.cpp:400-430 updateEndPoints] *)
Definition updateEndPoints (s : UpdateDebugToken) : M (res Exn Z * UpdateDebugToken) :=
  '(r, s) ← discoverMCTPDevices s;
  match r with
  | Throw e => mret (Throw e, s)
  | Ok status =>
      if negb (status =? 0) then mret (Ok (-1), s) else
      objects ← call (GetManagedObjects pldmService pldmPath);
      mret match objects with
           | None => (Ok (-1), s)
           | Some objects =>
               let '(thrown, s) := update_devices filename (read_objects objects []) s in
               (Ok (if thrown : bool then -1 else 0), s)
           end
  end.
End Discovery.

(** ** The endpoint of a device *)

Lemma at_map_throws m key e : at_map m key = Throw e → e = OutOfRange.
Proof. unfold at_map. destruct (_ !! key); congruence. Qed.

(** The endpoints of a UUID among the objects. *)
Definition candidates (uuid : string) (objects : ObjectValueTree) : list MctpEidInfo :=
  omap (λ o : string * InterfaceMap,
    match endpoint_of o.2 with
    | Ok (Some (u, info)) => if decide (u = uuid) then Some info else None
    | _ => None
    end) objects.

(** Slower is transitive, as far as it is defined. *)
Lemma slower_trans a b c : slower a b = Ok true → slower b c = Ok true → slower a c = Ok true.
Proof.
  unfold slower, mbind, res_bind. intros Hab Hbc.
  destruct (at_map mediumPriority (info_medium a)) as [ma|]; [|done].
  destruct (at_map mediumPriority (info_medium b)) as [mb|]; [|done].
  destruct (at_map mediumPriority (info_medium c)) as [mc|]; [|done].
  destruct (Z.eqb_spec ma mb) as [->|Hab'], (Z.eqb_spec mb mc) as [->|Hbc'].
  - rewrite ?Z.eqb_refl.
    repeat (destruct (at_map bindingPriority _) as [?|]; [|done]).
    injection Hab as Hab. injection Hbc as Hbc. f_equal. lia.
  - rewrite ?(proj2 (Z.eqb_neq _ _)) by done. done.
  - rewrite ?(proj2 (Z.eqb_neq _ _)) by done. done.
  - injection Hab as Hab. injection Hbc as Hbc.
    rewrite (proj2 (Z.eqb_neq _ _)) by lia. f_equal. lia.
Qed.

Lemma slower_irrefl a : slower a a ≠ Ok true.
Proof.
  unfold slower, mbind, res_bind. destruct (at_map mediumPriority _) as [m|]; [|done].
  rewrite Z.eqb_refl. destruct (at_map bindingPriority _) as [b|]; [|done].
  intros [= Hb]. lia.
Qed.

(** What is known of the endpoints [seen] of a UUID: the first of the fastest. *)
Definition best_of (seen : list MctpEidInfo) (known : option MctpEidInfo) : Prop :=
  match known with
  | None => seen = []
  | Some info => info ∈ seen ∧ Forall (λ c, slower info c ≠ Ok true) seen
  end.

Lemma add_endpoint_best seen uuid eidInfo m m' :
  best_of seen (m !! uuid) → add_endpoint uuid eidInfo m = Ok m' →
  best_of (seen ++ [eidInfo]) (m' !! uuid).
Proof.
  unfold add_endpoint, best_of. intros Hb Ha. destruct (m !! uuid) as [known|] eqn:Hk.
  - destruct Hb as [Hin Hall]. destruct (slower known eidInfo) as [[]|] eqn:Hs; [| |done];
      injection Ha as <-.
    + rewrite lookup_insert_eq. split; [apply elem_of_app; right; left|].
      apply Forall_app. split; [|by constructor; [apply slower_irrefl|]].
      eapply Forall_impl; [exact Hall|]. intros c Hc Hs'. apply Hc. by eapply slower_trans.
    + rewrite Hk. split; [apply elem_of_app; by left|].
      apply Forall_app. split; [done|]. constructor; [by rewrite Hs|done].
  - injection Ha as <-. subst seen. rewrite lookup_insert_eq. split; [left|].
    constructor; [apply slower_irrefl|done].
Qed.

Lemma add_endpoint_other uuid uuid' eidInfo m m' :
  uuid' ≠ uuid → add_endpoint uuid' eidInfo m = Ok m' → m' !! uuid = m !! uuid.
Proof.
  unfold add_endpoint. intros Hne Ha. destruct (m !! uuid') as [known|].
  - destruct (slower known eidInfo) as [[]|]; [| |done]; injection Ha as <-; [|done].
    by rewrite lookup_insert_ne.
  - injection Ha as <-. by rewrite lookup_insert_ne.
Qed.

Lemma discover_best uuid objects m m' seen :
  best_of seen (m !! uuid) → discover objects m = (None, m') →
  best_of (seen ++ candidates uuid objects) (m' !! uuid).
Proof.
  revert m seen. induction objects as [|[path interfaces] objects IH]; intros m seen Hb Hd.
  { injection Hd as <-. by rewrite app_nil_r. }
  cbn [discover] in Hd. unfold candidates. cbn [omap list_omap snd].
  destruct (endpoint_of interfaces) as [[[u info]|]|]; [| |done].
  - destruct (add_endpoint u info m) as [m1|] eqn:Ha; [|done].
    destruct (decide (u = uuid)) as [->|Hne].
    + specialize (IH m1 (seen ++ [info])). rewrite <-app_assoc in IH. apply IH; [|done].
      by eapply add_endpoint_best.
    + apply (IH m1); [|done]. by rewrite (add_endpoint_other uuid u info m m1).
  - by apply (IH m).
Qed.

(** A discovery that does not throw knows, of each UUID, the first of the
    fastest endpoints announced for it, and none only if none was announced. *)
Theorem fastest_endpoint_chosen uuid objects mctpInfo
    (Hdiscover : discover objects ∅ = (None, mctpInfo)) :
  best_of (candidates uuid objects) (mctpInfo !! uuid).
Proof. by apply (discover_best uuid objects ∅ mctpInfo []). Qed.

(** Two endpoints of one device, of the same medium and one of them without a
    binding: comparing them throws, out of updateEndPoints. *)
Theorem missing_binding_throws `{TokenEnv} filename s w uuid a b path1 path2 i1 i2
    (Hobjects : (getMCTPManagedObjects w).1 = [(path1, i1); (path2, i2)])
    (H1 : endpoint_of i1 = Ok (Some (uuid, a))) (H2 : endpoint_of i2 = Ok (Some (uuid, b)))
    (Hmedium : info_medium a = info_medium b) (Hbinding : info_binding a = ""%string)
    (Hempty : mctpInfo s = ∅) :
  (updateEndPoints filename s w).1.1 = Throw OutOfRange.
Proof.
  unfold updateEndPoints, discoverMCTPDevices, mbind, M_bind.
  destruct (getMCTPManagedObjects w) as [l w']. cbn [fst] in Hobjects. subst l.
  cbn [mret M_ret discover]. rewrite H1, Hempty. unfold add_endpoint at 1.
  rewrite lookup_empty, H2. unfold add_endpoint. rewrite lookup_insert_eq.
  unfold slower, mbind, res_bind. rewrite Hmedium, Hbinding.
  destruct (at_map mediumPriority (info_medium b)) as [m|e] eqn:Hm.
  - rewrite Z.eqb_refl. reflexivity.
  - by rewrite (at_map_throws _ _ _ Hm).
Qed.

(** ** A device with two endpoints *)

Definition endpoint_ex (eid : Z) (medium : string) : InterfaceMap :=
  {[ mctpEndpointIntfName := {["EID" := VUint8 eid; "SupportedMessageTypes" := VBytes [0x5; 0x7f];
                               "MediumType" := VString medium]};
     uuidEndpointIntfName := {["UUID" := VString "f2b3"]};
     mctpEndpointEnableIntfName := {["Connectivity" := VString "Available"]} ]}%string.

Definition usb_ex : string := "xyz.openbmc_project.MCTP.Endpoint.MediaTypes.USB".
Definition pcie_ex : string := "xyz.openbmc_project.MCTP.Endpoint.MediaTypes.PCIe".

Definition objects_ex : ObjectValueTree :=
  [("/endpoints/10", endpoint_ex 10 usb_ex); ("/endpoints/11", endpoint_ex 11 pcie_ex)]%string.

Lemma fastest_endpoint_chosen_witness :
  ∃ m, discover objects_ex ∅ = (None, m) ∧
    best_of (candidates "f2b3" objects_ex) (m !! "f2b3"%string) ∧
    info_eid <$> m !! "f2b3"%string = Some 11.
Proof.
  assert (Hd : discover objects_ex ∅ =
    (None, {["f2b3" := mkMctpEidInfo 11 pcie_ex "" [0x5; 0x7f] true]}%string)) by (vm_compute; reflexivity).
  eexists. split; [exact Hd|]. split; [|vm_compute; reflexivity].
  apply (fastest_endpoint_chosen "f2b3" objects_ex _ Hd).
Defined.

Definition env_ex : TokenEnv :=
  token_model (λ _, (0, ""%string)) (Some [mkMapperObject "/endpoints/10" "mctpd" []])
    (Some [("/endpoints/10", endpoint_ex 10 usb_ex); ("/endpoints/11", endpoint_ex 11 usb_ex)]%string)
    (λ _ _, None) None.

Lemma missing_binding_throws_witness :
  (@updateEndPoints env_ex id (mkUpdateDebugToken ∅ ∅ ∅) (@mkWorld _ _ env_ex () [])).1.1 =
    Throw OutOfRange.
Proof.
  refine (@missing_binding_throws env_ex id (mkUpdateDebugToken ∅ ∅ ∅) (@mkWorld _ _ env_ex () [])
    "f2b3"%string (mkMctpEidInfo 10 usb_ex "" [0x5; 0x7f] true)
    (mkMctpEidInfo 11 usb_ex "" [0x5; 0x7f] true) "/endpoints/10"%string "/endpoints/11"%string
    (endpoint_ex 10 usb_ex) (endpoint_ex 11 usb_ex) _ _ _ _ _ _).
  - reflexivity.
  - vm_compute. reflexivity.
  - vm_compute. reflexivity.
  - reflexivity.
  - reflexivity.
  - reflexivity.
Defined.
