(* ===== verification/TokenNsm.v ===== *)
(** * Debug tokens over NSM

    src/debug_token/nsm_debug_token.cpp: the asynchronous calls of the NSM
    service, whose outcome is a property that changes, and the installation and
    erasure of tokens on all endpoints, in their two versions. A call is made
    with a match on the changes of the property in place; [ProcessBus] is what
    the match sees. *)

From stdpp Require Import list strings gmap.
From S2P Require Import Prelude Bytes Text Trace Tokens TokenLog.

(** [debug_token/update_debug_token.hpp:109-125 nsmService]
    and the other names of the service. *)
Definition nsmService : string := "xyz.openbmc_project.NSM".
Definition nsmDebugTokenIntfName : string := "com.nvidia.DebugToken".
Definition nsmDebugTokenActionIntfName : string := "com.nvidia.DebugToken.Action".
Definition nsmDebugTokenStatusIntfName : string := "com.nvidia.DebugToken.Status".
Definition nsmAsyncStatusIntfName : string := "com.nvidia.Async.Status".
Definition nsmDebugTokenPath : string := "/".
Definition nsmTokenTypeCRDT : string := "com.nvidia.DebugToken.TokenTypes.CRDT".
Definition nsmTokenStatusDebugSessionActive : string :=
  "com.nvidia.DebugToken.TokenStatus.DebugSessionActive".
Definition nsmTokenStatusTokenTimeout : string := "com.nvidia.DebugToken.TokenStatus.TokenTimeout".
Definition nsmTokenStatusNoTokenApplied : string :=
  "com.nvidia.DebugToken.TokenStatus.NoTokenApplied".

(** [debug_token/tlv/error.h:53-53 NotInstalled] *)
Definition NotInstalled : Z := 0x100F.

(** [debug_token/update_debug_token.hpp:153-154 propertyChangeSignalTimeout]
    in iterations of 100 ms. *)
Definition propertyChangeIterations : nat := 50.
Definition eraseIterations : nat := 30.

(** [debug_token/update_debug_token.hpp:81-89 installTokenSuccess]
    and the codes of an erasure. *)
Definition installTokenSuccess : Z := 0.
Definition installTokenFailed : Z := -1.
Definition installTokenNoMatch : Z := 1.
Definition eraseTokenSuccess : Z := 0.
Definition eraseTokenFailed : Z := -1.
Definition eraseTokenSkipped : Z := 1.

(** What an asynchronous operation came to: its status cannot be read, the bus throws
    while it is waited for, or the last status. *)
Inductive AsyncStatus := Unread | Broken | Told (status : string).

#[export] Instance AsyncStatus_dec : EqDecision AsyncStatus.
Proof. solve_decision. Defined.

Section Nsm.
Context `{TokenEnv}.

(** [debug_token/nsm_debug_token.cpp:38-64 enumerateNsmDebugTokenEndpoints] *)
Definition enumerateNsmDebugTokenEndpoints : M (option (list string)) :=
  objects ← call (GetSubTree nsmDebugTokenPath nsmDebugTokenIntfName);
  mret (option_map (map mapper_path) objects).

(** [debug_token/nsm_debug_token.cpp:417-443 enumerateNsmDebugTokenEndpointsV2] *)
Definition enumerateNsmDebugTokenEndpointsV2 : M (option (list string)) :=
  objects ← call (GetSubTree nsmDebugTokenPath nsmDebugTokenActionIntfName);
  mret (option_map (map mapper_path) objects).

(** [debug_token/nsm_debug_token.cpp:66-95 makeDebugTokenMethodCall] *)
Definition makeDebugTokenMethodCall (path : string) (method : DebugTokenMethod) : M string :=
  asyncPath ← call (CallDebugToken path method);
  mret (default "" asyncPath).

(** [debug_token/nsm_debug_token.cpp:97-106 getAsyncValue] *)
Definition getAsyncValue (path : string) : M (option NSMAsyncValue) := call (GetAsyncValue path).

(** [debug_token/nsm_debug_token.cpp:108-142 logAsyncError]
    The error is only logged. *)
Definition logAsyncError (path : string) : M () := _ ← getAsyncValue path; mret ().

(** [debug_token/nsm_debug_token.cpp:154-173 handleAsyncCall]
    The callback of the match. *)
Definition on_signal (asyncPath : string) (signal : option (string * option string))
    (status : string) : string :=
  match signal with
  | Some (path, Some s) => if decide (path = asyncPath) then last_field s else status
  | _ => status
  end.

(** [debug_token/nsm_debug_token.cpp:209-222 handleAsyncCall]
    The loop that waits for the status to change; an exception of the bus leaves it. *)
Fixpoint poll_status (iterations : nat) (asyncPath status : string) : M AsyncStatus :=
  match iterations with
  | O => mret (Told status)
  | S iterations =>
      signal ← call ProcessBus;
      match signal with
      | None => mret Broken
      | Some signal =>
          let status := on_signal asyncPath signal status in
          if decide (status ≠ "InProgress"%string) then mret (Told status) else
          waited ← call (WaitBus 100);
          match waited with
          | None => mret Broken
          | Some _ => poll_status iterations asyncPath status
          end
      end
  end.

(** [debug_token/nsm_debug_token.cpp:182-222 handleAsyncCall]
    From the first status on. *)
Definition await_status (iterations : nat) (asyncPath : string) : M AsyncStatus :=
  dbusStatus ← call (GetProperty nsmService asyncPath nsmAsyncStatusIntfName "Status");
  match dbusStatus with
  | None => mret Unread
  | Some s =>
      let status := last_field s in
      if decide (status ≠ "InProgress"%string) then mret (Told status)
      else poll_status iterations asyncPath status
  end.

(** [debug_token/nsm_debug_token.cpp:144-229 handleAsyncCall]
    The error is looked for at the path of the endpoint; an exception of the wait is left
    to the caller, [None]. *)
Definition handleAsyncCall (path : string) (method : DebugTokenMethod) : M (option string) :=
  asyncPath ← makeDebugTokenMethodCall path method;
  if decide (asyncPath = ""%string) then mret (Some ""%string) else
  status ← await_status propertyChangeIterations asyncPath;
  match status with
  | Unread => mret (Some ""%string)
  | Broken => mret None
  | Told status =>
      if decide (status = "Success"%string) then mret (Some asyncPath) else
      _ ← logAsyncError path;
      mret (Some ""%string)
  end.

(** [debug_token/nsm_debug_token.cpp:231-253 getTokenStatus] *)
Definition getTokenStatus (path : string) : M string :=
  asyncPath ← handleAsyncCall path (GetStatus nsmTokenTypeCRDT);
  let asyncPath := default "" asyncPath in
  if decide (asyncPath = ""%string) then mret ""%string else
  statusValue ← getAsyncValue asyncPath;
  mret match statusValue with
       | Some (TokenStatusTuple _ tokenStatus _ _) => tokenStatus
       | _ => ""%string
       end.

(** [debug_token/nsm_debug_token.cpp:268-317 nsmTokenErase]
    For one endpoint: whether it fails the whole. *)
Definition erase_endpoint (path : string) : M bool :=
  tokenStatus ← getTokenStatus path;
  if decide (tokenStatus = ""%string) then mret false else
  if decide (tokenStatus ≠ nsmTokenStatusDebugSessionActive ∧
             tokenStatus ≠ nsmTokenStatusTokenTimeout) then mret false else
  asyncPath ← handleAsyncCall path DisableTokens;
  if decide (default "" asyncPath = ""%string) then mret true else
  tokenStatus ← getTokenStatus path;
  mret (negb (bool_decide (tokenStatus = nsmTokenStatusNoTokenApplied))).

(** The endpoints one after the other, and whether one fails the whole. *)
Fixpoint any_fails (f : string → M bool) (paths : list string) : M bool :=
  match paths with
  | [] => mret false
  | path :: paths => failed ← f path; rest ← any_fails f paths; mret (failed || rest)
  end.

(** [debug_token/nsm_debug_token.cpp:255-319 nsmTokenErase] *)
Definition nsmTokenErase : M Z :=
  endpoints ← enumerateNsmDebugTokenEndpoints;
  match endpoints with
  | None => mret (-1)
  | Some endpoints =>
      failed ← any_fails erase_endpoint endpoints;
      mret (if failed : bool then -1 else 0)
  end.

(** [tokens.find] *)
Definition find_token (serialNumber : string) (tokens : TokenMap) : option buffer :=
  head (snd <$> base.filter (λ t, t.1 = serialNumber) tokens).

(** [debug_token/nsm_debug_token.cpp:335-407 nsmTokenInstall]
    For one endpoint. What is installed is the token after its first 44 bytes;
    a shorter one throws, as the other exceptions do that are only logged. *)
Definition install_endpoint (tokens : TokenMap) (path : string) : M bool :=
  tokenStatus ← getTokenStatus path;
  if decide (tokenStatus = ""%string) then mret false else
  if decide (tokenStatus = nsmTokenStatusDebugSessionActive) then mret false else
  property ← call (GetProperty nsmService path nsmDebugTokenIntfName "TokenDeviceID");
  match property ≫= λ serialNumber, find_token serialNumber tokens with
  | None => mret false
  | Some token =>
      if decide (length token < 44)%nat then mret false else
      asyncPath ← handleAsyncCall path (InstallToken (drop 44 token));
      match asyncPath with
      | None => mret false
      | Some asyncPath =>
          if decide (asyncPath = ""%string) then mret true else
          tokenStatus ← getTokenStatus path;
          mret (negb (bool_decide (tokenStatus = nsmTokenStatusDebugSessionActive)))
      end
  end.

(** [debug_token/nsm_debug_token.cpp:321-409 nsmTokenInstall] *)
Definition nsmTokenInstall (tokens : TokenMap) : M Z :=
  endpoints ← enumerateNsmDebugTokenEndpoints;
  match endpoints with
  | None => mret (-1)
  | Some endpoints =>
      failed ← any_fails (install_endpoint tokens) endpoints;
      mret (if failed : bool then -1 else 0)
  end.

(** ** The second version *)

(** [debug_token/nsm_debug_token.cpp:445-552 handleAsyncCallInstallV2] *)
Definition handleAsyncCallInstallV2 (path : string) (memfd : Z) : M string :=
  asyncPath ← call (CallInstallToken path memfd);
  let asyncPath := default "" asyncPath in
  if decide (asyncPath = ""%string) then mret ""%string else
  status ← await_status propertyChangeIterations asyncPath;
  match status with
  | Unread | Broken => mret ""%string
  | Told status =>
      if decide (status = "Success"%string) then mret asyncPath else
      _ ← logAsyncError asyncPath;
      mret ""%string
  end.

Definition eraseType : string := "com.nvidia.DebugToken.Action.EraseType.EraseAll".
Definition tokenType : string := "com.nvidia.DebugToken.Common.Types.None".

(** [debug_token/nsm_debug_token.cpp:554-704 handleAsyncCallEraseV2]
    A device without a token has nothing to erase. *)
Definition handleAsyncCallEraseV2 (path : string) : M string :=
  asyncPath ← call (CallEraseToken path eraseType tokenType);
  let asyncPath := default "" asyncPath in
  if decide (asyncPath = ""%string) then mret ""%string else
  status ← await_status eraseIterations asyncPath;
  match status with
  | Unread | Broken => mret ""%string
  | Told status =>
      if decide (status = "Success"%string) then mret asyncPath else
      _ ← logAsyncError asyncPath;
      errorValue ← getAsyncValue asyncPath;
      mret match errorValue with
           | Some (ErrorTuple errorCode _) =>
               if errorCode =? NotInstalled then asyncPath else ""%string
           | _ => ""%string
           end
  end.

(** [debug_token/nsm_debug_token.cpp:763-811 nsmTokenInstallV2]
    One token on one endpoint: whether it was installed. *)
Definition install_token (path : string) (token : buffer) : M bool :=
  memfd ← call MemfdCreate;
  if memfd <? 0 then mret false else
  written ← call (WriteFd memfd token);
  if negb (written =? Z.of_nat (length token)) then
    _ ← call (CloseFd memfd); mret false
  else
    _ ← call (RewindFd memfd);
    asyncPath ← handleAsyncCallInstallV2 path memfd;
    _ ← call (CloseFd memfd);
    mret (negb (bool_decide (asyncPath = ""%string))).

(** Its tokens one after the other: those installed, and whether one failed. *)
Fixpoint install_tokens (path : string) (tokens : list buffer) : M (nat * bool) :=
  match tokens with
  | [] => mret (0%nat, false)
  | token :: tokens =>
      ok ← install_token path token;
      '(installed, failed) ← install_tokens path tokens;
      mret (((if ok : bool then 1 else 0) + installed)%nat, negb ok || failed)
  end.

(** [debug_token/nsm_debug_token.cpp:731-818 nsmTokenInstallV2]
    The loop over the endpoints. *)
Fixpoint install_endpoints (tokens : TokenMap) (paths : list string) : M (nat * bool) :=
  match paths with
  | [] => mret (0%nat, false)
  | path :: paths =>
      property ← call (GetProperty nsmService path nsmDebugTokenStatusIntfName "TokenDeviceID");
      '(installed, failed) ←
        match property with
        | None => mret (0%nat, true)
        | Some serialNumber =>
            if decide (serialNumber = ""%string) then mret (0%nat, false)
            else install_tokens path (snd <$> base.filter (λ t, t.1 = serialNumber) tokens)
        end;
      '(installed', failed') ← install_endpoints tokens paths;
      mret ((installed + installed')%nat, failed || failed')
  end.

(** [debug_token/nsm_debug_token.cpp:712-833 nsmTokenInstallV2] *)
Definition nsmTokenInstallV2 (tokens : TokenMap) : M Z :=
  endpoints ← enumerateNsmDebugTokenEndpointsV2;
  match endpoints with
  | None | Some [] => mret installTokenFailed
  | Some endpoints =>
      '(installed, failed) ← install_endpoints tokens endpoints;
      mret (if failed : bool then installTokenFailed
            else if (installed =? 0)%nat then installTokenNoMatch else installTokenSuccess)
  end.

(** [debug_token/nsm_debug_token.cpp:839-881 nsmTokenEraseV2] *)
Definition nsmTokenEraseV2 : M Z :=
  endpoints ← enumerateNsmDebugTokenEndpointsV2;
  match endpoints with
  | None | Some [] => mret (-1)
  | Some endpoints =>
      failed ← any_fails (λ path, asyncPath ← handleAsyncCallEraseV2 path;
                                  mret (bool_decide (asyncPath = ""%string))) endpoints;
      mret (if failed : bool then -1 else 0)
  end.
End Nsm.

(** ** What an asynchronous call costs *)

Definition any_call (_ : Call) : Prop := True.

Lemma poll_status_bounded `{TokenEnv} n asyncPath status :
  emits_n (2 * n) any_call (poll_status n asyncPath status).
Proof.
  revert status. induction n as [|n IH]; intros status; cbn [poll_status]; [apply emits_n_ret|].
  eapply (emits_n_bind 1 (2 * n + 1)); [lia|by apply (emits_n_call (reply := reply) _ ProcessBus)|]. intros [signal|];
    [|apply (emits_n_impl 0); [lia|apply emits_n_ret]].
  cbv zeta. case_decide; [apply (emits_n_impl 0); [lia|apply emits_n_ret]|].
  eapply (emits_n_bind 1 (2 * n)); [lia|by apply (emits_n_call (reply := reply) _ (WaitBus 100))|].
  intros [_|]; [apply IH|apply (emits_n_impl 0); [lia|apply emits_n_ret]].
Qed.

Lemma await_status_bounded `{TokenEnv} n asyncPath :
  emits_n (1 + 2 * n) any_call (await_status n asyncPath).
Proof.
  eapply (emits_n_bind 1 (2 * n)); [lia|by apply (emits_n_call (reply := reply) _ (GetProperty _ _ _ _))|]. intros [s|].
  - cbv zeta. case_decide; [apply (emits_n_impl 0); [lia|apply emits_n_ret]|].
    apply poll_status_bounded.
  - apply (emits_n_impl 0); [lia|apply emits_n_ret].
Qed.

(** The calls that wait for an outcome. *)
Definition waits (c : Call) : Prop :=
  match c with
  | ProcessBus | WaitBus _ | GetAsyncValue _ => True
  | GetProperty _ _ interface _ => interface = nsmAsyncStatusIntfName
  | _ => False
  end.

Lemma poll_status_waits `{TokenEnv} n asyncPath status : emits waits (poll_status n asyncPath status).
Proof.
  revert status. induction n as [|n IH]; intros status; cbn [poll_status]; [apply emits_ret|].
  apply emits_bind; [by apply (emits_call (reply := reply) _ ProcessBus)|]. intros [signal|]; [|apply emits_ret].
  cbv zeta. case_decide; [apply emits_ret|].
  apply emits_bind; [by apply (emits_call (reply := reply) _ (WaitBus 100))|]. intros [_|]; [apply IH|apply emits_ret].
Qed.

Lemma await_status_waits `{TokenEnv} n asyncPath : emits waits (await_status n asyncPath).
Proof.
  apply emits_bind; [by apply (emits_call (reply := reply) _ (GetProperty _ _ _ _))|].
  intros [st|]; [|apply emits_ret]. cbv zeta. case_decide; [apply emits_ret|].
  apply poll_status_waits.
Qed.

Lemma logAsyncError_waits `{TokenEnv} path : emits waits (logAsyncError path).
Proof.
  apply emits_bind; [|intros _; apply emits_ret].
  by apply (emits_call (reply := reply) _ (GetAsyncValue _)).
Qed.

(** What an installation does once it has its asynchronous path. *)
Lemma install_rest_waits `{TokenEnv} asyncPath :
  emits waits
    (if decide (asyncPath = ""%string) then mret ""%string else
     status ← await_status propertyChangeIterations asyncPath;
     match status with
     | Unread | Broken => mret ""%string
     | Told status =>
         if decide (status = "Success"%string) then mret asyncPath else
         _ ← logAsyncError asyncPath; mret ""%string
     end).
Proof.
  case_decide; [apply emits_ret|].
  apply emits_bind; [apply await_status_waits|]. intros [| |status]; [apply emits_ret..|].
  case_decide; [apply emits_ret|].
  apply emits_bind; [apply logAsyncError_waits|]. intros _. apply emits_ret.
Qed.

(** ** Sessions

    What the installation is at: the endpoint whose id was read last, and the
    file that is open, with the token it holds. *)
Record Session := mkSession {
  at_device : option (string * string);
  open_fd : option (Z * option buffer);
}.

Definition session0 : Session := mkSession None None.

Definition only_if (P : Prop) `{Decision P} (s : Session) : option Session :=
  if decide P then Some s else None.

(** One file is open at a time; it is given to the endpoint whose id is the
    serial number of the token it holds, whole. *)
Definition session_step (tokens : TokenMap) (s : Session) (e : Event (reply := reply))
    : option Session :=
  match e with existT c r =>
    match c return reply c → option Session with
    | GetProperty _ path interface _ => λ serialNumber,
        if decide (interface = nsmDebugTokenStatusIntfName)
        then only_if (open_fd s = None) (mkSession (pair path <$> serialNumber) None)
        else Some s
    | MemfdCreate => λ fd,
        only_if (open_fd s = None)
          (if fd <? 0 then s else mkSession (at_device s) (Some (fd, None)))
    | WriteFd fd data => λ n,
        only_if (open_fd s = Some (fd, None))
          (mkSession (at_device s)
             (Some (fd, if n =? Z.of_nat (length data) then Some data else None)))
    | RewindFd fd => λ _, only_if (fst <$> open_fd s = Some fd) s
    | CallInstallToken path fd => λ _,
        match at_device s, open_fd s with
        | Some (path', serialNumber), Some (fd', Some token) =>
            only_if (path' = path ∧ fd' = fd ∧ serialNumber ≠ ""%string ∧ (serialNumber, token) ∈ tokens) s
        | _, _ => None
        end
    | CloseFd fd => λ _, only_if (fst <$> open_fd s = Some fd) (mkSession (at_device s) None)
    | CallEraseToken _ _ _ | CallDebugToken _ _ => λ _, None
    | _ => λ _, Some s
    end r
  end.

Lemma only_if_true P `{Decision P} s : P → only_if P s = Some s.
Proof. intros HP. unfold only_if. by rewrite decide_True. Qed.

Section Sessions.
Context `{TokenEnv} (tokens : TokenMap).

Abbreviation conforms := (conforms (session_step tokens)).
Abbreviation quiet := (quiet (session_step tokens)).

Lemma waits_quiet s c : waits c → quiet s c.
Proof. destruct c; try done. intros -> r. done. Qed.

Lemma install_call_conforms path serialNumber fd token :
  serialNumber ≠ ""%string → (serialNumber, token) ∈ tokens →
  let s := mkSession (Some (path, serialNumber)) (Some (fd, Some token)) in
  conforms s (handleAsyncCallInstallV2 path fd) (λ _, s).
Proof.
  intros Hne Hin s. unfold handleAsyncCallInstallV2.
  apply (conforms_bind _ _ _ (λ _, s)).
  { apply (conforms_call (reply := reply) s (CallInstallToken path fd) (λ _, s)). intros r.
    cbn [session_step s at_device open_fd]. by rewrite only_if_true. }
  intros asyncPath. apply conforms_quiet. eapply emits_impl; [apply waits_quiet|].
  apply install_rest_waits.
Qed.

Lemma install_token_conforms path serialNumber token :
  serialNumber ≠ ""%string → (serialNumber, token) ∈ tokens →
  let s := mkSession (Some (path, serialNumber)) None in
  conforms s (install_token path token) (λ _, s).
Proof.
  intros Hne Hin s. unfold install_token.
  apply (conforms_bind _ _ _ (λ fd, if fd <? 0 then s else mkSession (at_device s) (Some (fd, None)))).
  { apply (conforms_call (reply := reply) s MemfdCreate). intros fd. cbn [session_step].
    by rewrite only_if_true. }
  intros memfd. destruct (memfd <? 0); [by apply conforms_ret|].
  set (held n := mkSession (at_device s) (Some (memfd, if n =? Z.of_nat (length token) then Some token else None))).
  assert (Hclose : ∀ n, conforms (held n) (call (CloseFd memfd)) (λ _, s)).
  { intros n. apply (conforms_call (reply := reply) (held n) (CloseFd memfd)). intros r.
    cbn [session_step held open_fd]. by rewrite only_if_true. }
  apply (conforms_bind _ _ _ held).
  { apply (conforms_call (reply := reply) _ (WriteFd memfd token)). intros n.
    cbn [session_step open_fd at_device]. by rewrite only_if_true. }
  intros n. unfold held at 1. specialize (Hclose n). unfold held in Hclose.
  destruct (n =? Z.of_nat (length token)); cbn [negb].
  2: { eapply conforms_bind; [exact Hclose|]. intros ?. by apply conforms_ret. }
  eapply conforms_bind; [|intros ?; eapply conforms_bind; [by apply install_call_conforms|]].
  - apply (conforms_call (reply := reply) _ (RewindFd memfd) (λ _, _)). intros r.
    cbn [session_step open_fd]. by rewrite only_if_true.
  - intros asyncPath. eapply conforms_bind; [exact Hclose|]. intros ?. by apply conforms_ret.
Qed.

Lemma install_tokens_conforms path serialNumber l :
  serialNumber ≠ ""%string → Forall (λ token, (serialNumber, token) ∈ tokens) l →
  let s := mkSession (Some (path, serialNumber)) None in
  conforms s (install_tokens path l) (λ _, s).
Proof.
  intros Hne Hl s. induction Hl as [|token l Hin Hl IH]; cbn [install_tokens]; [by apply conforms_ret|].
  eapply conforms_bind; [by apply install_token_conforms|]. intros ok.
  eapply conforms_bind; [exact IH|]. intros [installed failed]. by apply conforms_ret.
Qed.

Definition idle (s : Session) : Prop := open_fd s = None.

Lemma install_endpoints_leaves s paths :
  idle s → leaves (session_step tokens) idle s (install_endpoints tokens paths).
Proof.
  revert s. induction paths as [|path paths IH]; intros s Hs; cbn [install_endpoints].
  { by apply leaves_ret. }
  apply (leaves_bind _ idle s _ _ (λ r : option string, mkSession (pair path <$> r) None)).
  { apply (conforms_call (reply := reply) s (GetProperty _ path _ _)). intros r.
    cbn [session_step]. by rewrite decide_True, only_if_true. }
  intros property. cbv beta. set (s' := mkSession (pair path <$> property) None).
  apply (leaves_bind _ idle s' _ _ (λ _, s')).
  - destruct property as [serialNumber|]; [|by apply conforms_ret].
    case_decide as Hne; [by apply conforms_ret|]. apply install_tokens_conforms; [done|].
    apply Forall_fmap, Forall_forall. intros [sn token] Hin.
    by apply list_elem_of_filter in Hin as [<- Hin].
  - intros [installed failed]. apply leaves_seq; [by apply IH|].
    intros [installed' failed'] s'' Hs''. by apply leaves_ret.
Qed.

(** C36: What an installation gives to an endpoint is a token of the package whose
    serial number is the id the endpoint has just reported, written whole; a
    file is open only for that, and closed whatever happens. *)
Theorem installation_conforms :
  leaves (session_step tokens) idle session0 (nsmTokenInstallV2 tokens).
Proof.
  unfold nsmTokenInstallV2, enumerateNsmDebugTokenEndpointsV2.
  apply (leaves_bind _ idle session0 _ _ (λ _, session0)).
  { eapply conforms_bind; [|intros ?; by apply conforms_ret].
    by apply (conforms_call (reply := reply) _ (GetSubTree _ _) (λ _, session0)). }
  intros [[|path paths]|]; [by apply leaves_ret| |by apply leaves_ret].
  apply leaves_seq; [by apply install_endpoints_leaves|].
  intros [installed failed] s Hs. by apply leaves_ret.
Qed.
End Sessions.

(** ** What a result says *)

Definition is_install (c : Call) : bool := if c is CallInstallToken _ _ then true else false.
Definition is_memfd (c : Call) : bool := if c is MemfdCreate then true else false.

Abbreviation installs := (count (reply := reply) is_install).
Abbreviation attempts := (count (reply := reply) is_memfd).

Lemma waits_none es :
  calls_ok waits es → installs es = 0%nat ∧ attempts es = 0%nat.
Proof.
  intros Hes. split; apply count_none; (eapply Forall_impl; [exact Hes|]); by intros [[] r].
Qed.

Section Results.
Context `{TokenEnv}.

Lemma install_call_bounded path fd : emits_n 103 any_call (handleAsyncCallInstallV2 path fd).
Proof.
  eapply (emits_n_bind 1 102); [lia|by apply (emits_n_call (reply := reply) _ (CallInstallToken path fd))|].
  intros asyncPath. cbv zeta. case_decide; [apply (emits_n_impl 0); [lia|apply emits_n_ret]|].
  eapply (emits_n_bind 101 1); [unfold propertyChangeIterations; lia|apply await_status_bounded|].
  intros [| |status]; [apply (emits_n_impl 0); [lia|apply emits_n_ret]..|].
  case_decide; [apply (emits_n_impl 0); [lia|apply emits_n_ret]|].
  eapply (emits_n_bind 1 0); [lia| |intros _; apply emits_n_ret].
  eapply (emits_n_bind 1 0); [lia|by apply (emits_n_call (reply := reply) _ (GetAsyncValue _))|].
  intros ?. apply emits_n_ret.
Qed.

Lemma erase_call_bounded path : emits_n 64 any_call (handleAsyncCallEraseV2 path).
Proof.
  eapply (emits_n_bind 1 63); [lia|by apply (emits_n_call (reply := reply) _ (CallEraseToken path _ _))|].
  intros asyncPath. cbv zeta. case_decide; [apply (emits_n_impl 0); [lia|apply emits_n_ret]|].
  eapply (emits_n_bind 61 2); [unfold eraseIterations; lia|apply await_status_bounded|].
  intros [| |status]; [apply (emits_n_impl 0); [lia|apply emits_n_ret]..|].
  case_decide; [apply (emits_n_impl 0); [lia|apply emits_n_ret]|].
  eapply (emits_n_bind 1 1); [lia| |].
  - eapply (emits_n_bind 1 0); [lia|by apply (emits_n_call (reply := reply) _ (GetAsyncValue _))|].
    intros ?. apply emits_n_ret.
  - intros ?. eapply (emits_n_bind 1 0);
      [lia|by apply (emits_n_call (reply := reply) _ (GetAsyncValue _))|].
    intros ?. apply emits_n_ret.
Qed.

(** Whatever the service answers, and however the signals arrive, an
    asynchronous call ends: after 103 calls at most for an installation, 64 for
    an erasure. *)
Theorem async_calls_bounded path fd :
  emits_n 103 any_call (handleAsyncCallInstallV2 path fd) ∧
  emits_n 64 any_call (handleAsyncCallEraseV2 path).
Proof. split; [apply install_call_bounded|apply erase_call_bounded]. Qed.

Lemma install_call_counts path fd :
  does (handleAsyncCallInstallV2 path fd) (λ _ es, installs es = 1%nat ∧ attempts es = 0%nat).
Proof.
  unfold handleAsyncCallInstallV2.
  apply (does_bind _ _ (λ _ es, installs es = 1%nat ∧ attempts es = 0%nat)).
  { by apply (does_call (reply := reply) (CallInstallToken path fd)). }
  intros asyncPath es [Hi Ha]. eapply does_impl; [apply install_rest_waits|].
  intros r es' [Hi' Ha']%waits_none. rewrite !count_app. lia.
Qed.

(** One attempt, and an installation if it succeeds. *)
Lemma install_token_counts path token :
  does (install_token path token) (λ ok es,
    attempts es = 1%nat ∧ (installs es ≤ 1)%nat ∧ (ok = true → installs es = 1%nat)).
Proof.
  unfold install_token.
  apply (does_bind _ _ (λ _ es, installs es = 0%nat ∧ attempts es = 1%nat)).
  { by apply (does_call (reply := reply) MemfdCreate). }
  intros memfd es [Hi Ha]. destruct (memfd <? 0).
  { apply does_ret. rewrite app_nil_r. split_and!; [done|lia|done]. }
  apply (does_bind _ _ (λ _ es', installs es' = 0%nat ∧ attempts es' = 0%nat)).
  { by apply (does_call (reply := reply) (WriteFd memfd token)). }
  intros written es1 [Hi1 Ha1]. destruct (written =? _); cbn [negb].
  2: { eapply does_bind; [by apply (does_call (reply := reply) (CloseFd memfd) (λ _ es', installs es' = 0%nat ∧ attempts es' = 0%nat))|].
       intros _ es2 [Hi2 Ha2]. apply does_ret. rewrite app_nil_r, !count_app. split_and!; [lia|lia|done]. }
  eapply does_bind; [by apply (does_call (reply := reply) (RewindFd memfd) (λ _ es', installs es' = 0%nat ∧ attempts es' = 0%nat))|].
  intros _ es2 [Hi2 Ha2]. eapply does_bind; [apply install_call_counts|].
  intros asyncPath es3 [Hi3 Ha3].
  eapply does_bind; [by apply (does_call (reply := reply) (CloseFd memfd) (λ _ es', installs es' = 0%nat ∧ attempts es' = 0%nat))|].
  intros _ es4 [Hi4 Ha4]. apply does_ret. rewrite app_nil_r, !count_app. split_and!; lia.
Qed.

(** Without a failure, as many installations as attempts. *)
Definition accounted (r : nat * bool) (es : list (Event (reply := reply))) : Prop :=
  (installs es ≤ attempts es)%nat ∧
  (r.2 = false → installs es = r.1 ∧ attempts es = r.1).

Lemma install_tokens_counts path l : does (install_tokens path l) accounted.
Proof.
  induction l as [|token l IH]; cbn [install_tokens]; [by apply does_ret|].
  eapply does_bind; [apply install_token_counts|]. intros ok es (Ha & Hi & Hok). cbv beta.
  eapply does_bind; [exact IH|]. intros [installed failed] es' [Hle Hr]. apply does_ret.
  unfold accounted in *. cbn [fst snd] in *. rewrite app_nil_r, !count_app.
  split; [lia|]. intros [Hok' Hf]%orb_false_iff. apply negb_false_iff in Hok'. subst ok.
  specialize (Hok eq_refl). specialize (Hr Hf). lia.
Qed.

Lemma install_endpoints_counts tokens paths : does (install_endpoints tokens paths) accounted.
Proof.
  induction paths as [|path paths IH]; cbn [install_endpoints]; [by apply does_ret|].
  apply (does_bind _ _ (λ _ es, installs es = 0%nat ∧ attempts es = 0%nat)).
  { by apply (does_call (reply := reply) (GetProperty _ path _ _)). }
  intros property es [Hi Ha]. apply (does_bind _ _ accounted).
  { destruct property as [sn|]; [|by apply does_ret].
    case_decide; [by apply does_ret|apply install_tokens_counts]. }
  intros [installed failed] es1 [Hle1 Hr1]. eapply does_bind; [exact IH|].
  intros [installed' failed'] es2 [Hle2 Hr2]. apply does_ret.
  unfold accounted in *. cbn [fst snd] in *. rewrite app_nil_r, !count_app.
  split; [lia|]. intros [Hf Hf']%orb_false_iff.
  specialize (Hr1 Hf). specialize (Hr2 Hf'). lia.
Qed.

(** An installation that reports success has installed tokens, and every token
    it tried; one that reports no match has tried none. *)
Theorem install_result_meaning tokens :
  does (nsmTokenInstallV2 tokens) (λ rc es,
    (installs es ≤ attempts es)%nat ∧
    (rc = installTokenSuccess → (0 < installs es)%nat ∧ installs es = attempts es) ∧
    (rc = installTokenNoMatch → attempts es = 0%nat) ∧
    (rc = installTokenSuccess ∨ rc = installTokenNoMatch ∨ rc = installTokenFailed)).
Proof.
  unfold nsmTokenInstallV2, enumerateNsmDebugTokenEndpointsV2.
  apply (does_bind _ _ (λ _ es, installs es = 0%nat ∧ attempts es = 0%nat)).
  { eapply does_bind; [by apply (does_call (reply := reply) (GetSubTree _ _) (λ _ es, installs es = 0%nat ∧ attempts es = 0%nat))|].
    intros objects es Hes. apply does_ret. by rewrite app_nil_r. }
  intros endpoints es [Hi Ha].
  assert (Hfail : does (mret installTokenFailed : M Z) (λ rc es',
    (installs (es ++ es') ≤ attempts (es ++ es'))%nat ∧
    (rc = installTokenSuccess → (0 < installs (es ++ es'))%nat ∧ installs (es ++ es') = attempts (es ++ es')) ∧
    (rc = installTokenNoMatch → attempts (es ++ es') = 0%nat) ∧
    (rc = installTokenSuccess ∨ rc = installTokenNoMatch ∨ rc = installTokenFailed))).
  { apply does_ret. rewrite app_nil_r. split_and!; [lia|done|done|tauto]. }
  destruct endpoints as [[|path paths]|]; [exact Hfail| |exact Hfail].
  eapply does_bind; [apply install_endpoints_counts|].
  intros [installed failed] es' [Hle Hr]. apply does_ret. cbn [fst snd] in *.
  rewrite app_nil_r, !count_app. destruct failed; [split_and!; [lia|done|done|tauto]|].
  specialize (Hr eq_refl). destruct (Nat.eqb_spec installed 0); split_and!; intros; try done; try lia; tauto.
Qed.
End Results.

(** ** What the service tells

    An installation is told to have come to the last status of the asynchronous
    operation it was answered with: the one that is read, and those that are signalled
    after it. *)
Record Attempt := mkAttempt { async_path : option string; told : option string }.

(** The attempts that are over, as whether they have succeeded, and the last one. *)
Record Ledger := mkLedger { over : list bool; going : option Attempt }.

Definition ledger0 : Ledger := mkLedger [] None.

Definition succeeded (a : Attempt) : bool := bool_decide (told a = Some "Success"%string).

Definition outcomes (L : Ledger) : list bool := over L ++ option_list (succeeded <$> going L).

Definition hear (a : Attempt) (e : Event (reply := reply)) : Attempt :=
  match e with existT c r =>
    match c return reply c → Attempt with
    | CallInstallToken _ _ => λ asyncPath, mkAttempt asyncPath None
    | GetProperty _ path interface _ => λ status,
        if decide (interface = nsmAsyncStatusIntfName ∧ async_path a = Some path)
        then mkAttempt (async_path a) (last_field <$> status) else a
    | ProcessBus => λ signal,
        match signal with
        | Some (Some (path, Some status)) =>
            if decide (async_path a = Some path) then mkAttempt (async_path a) (Some (last_field status)) else a
        | _ => a
        end
    | _ => λ _, a
    end r
  end.

(** An attempt begins with the file for its token. *)
Definition enter (L : Ledger) (e : Event (reply := reply)) : Ledger :=
  if is_memfd (projT1 e) then mkLedger (outcomes L) (Some (mkAttempt None None))
  else mkLedger (over L) ((λ a, hear a e) <$> going L).

Definition ledger (L : Ledger) (es : list (Event (reply := reply))) : Ledger := foldl enter L es.

Lemma ledger_app L es es' : ledger L (es ++ es') = ledger (ledger L es) es'.
Proof. apply foldl_app. Qed.

(** There is an outcome for each attempt. *)
Lemma outcomes_length L es : length (outcomes (ledger L es)) = (length (outcomes L) + attempts es)%nat.
Proof.
  revert L. induction es as [|e es IH]; intros L; [by rewrite Nat.add_0_r|].
  change (ledger L (e :: es)) with (ledger (enter L e) es). rewrite IH. unfold enter. cbn [count].
  destruct (is_memfd (projT1 e)); unfold outcomes; cbn [over going].
  - rewrite length_app. cbn [fmap option_fmap option_map option_list option_rect length]. lia.
  - rewrite !length_app. by destruct (going L).
Qed.

(** Calls that do not begin an attempt are heard by the last. *)
Lemma ledger_hears L es :
  calls_ok (λ c, is_memfd c = false) es → ledger L es = mkLedger (over L) ((λ a, foldl hear a es) <$> going L).
Proof.
  intros Hes. revert L. induction Hes as [|e es He _ IH]; intros L; [by destruct L as [o []]|].
  change (ledger L (e :: es)) with (ledger (enter L e) es). rewrite IH. unfold enter. rewrite He. cbn [over going].
  by destruct (going L).
Qed.

(** Calls that say nothing. *)
Definition says_nothing (c : Call) : Prop :=
  match c with
  | MemfdCreate | CallInstallToken _ _ | ProcessBus => False
  | GetProperty _ _ interface _ => interface ≠ nsmAsyncStatusIntfName
  | _ => True
  end.

Lemma ledger_still L es : calls_ok says_nothing es → ledger L es = L.
Proof.
  intros Hes. rewrite ledger_hears by (eapply Forall_impl; [exact Hes|]; by intros [[] r]).
  assert (Hh : ∀ a, foldl hear a es = a).
  { induction Hes as [|[c r] es Hc _ IH]; intros a; [done|]. cbn [foldl]. rewrite IH.
    destruct c; try done. cbn [hear]. rewrite decide_False; [done|]. by intros [? _]. }
  destruct L as [o [a|]]; [|done]. cbn. by rewrite Hh.
Qed.

Section Outcomes.
Context `{TokenEnv}.

Lemma poll_status_told n asyncPath status :
  status = "InProgress"%string →
  does (poll_status n asyncPath status) (λ st es, ∀ a,
    async_path a = Some asyncPath → told a = Some status →
    succeeded (foldl hear a es) = bool_decide (st = Told "Success")).
Proof.
  revert status. induction n as [|n IH]; intros status ->; cbn [poll_status].
  { apply does_ret. intros a _ Ht. unfold succeeded. cbn [foldl]. by rewrite Ht. }
  apply (does_step (reply := reply) ProcessBus). intros [signal|].
  2: { apply does_ret. intros a _ Ht. unfold succeeded. cbn [foldl hear]. by rewrite Ht. }
  cbv zeta. set (status' := on_signal asyncPath signal "InProgress").
  assert (Hhear : ∀ a, async_path a = Some asyncPath → told a = Some "InProgress"%string →
    async_path (hear a (existT ProcessBus (Some signal))) = Some asyncPath ∧
    told (hear a (existT ProcessBus (Some signal))) = Some status').
  { intros a Hp Ht. unfold status', on_signal. cbn [hear]. destruct signal as [[path [s|]]|]; [|done|done].
    rewrite Hp. destruct (decide (path = asyncPath)) as [->|Hne]; [by rewrite decide_True|].
    rewrite decide_False by naive_solver. by rewrite Ht. }
  case_decide as Hs.
  { apply does_ret. intros a Hp Ht. destruct (Hhear a Hp Ht) as [_ Ht']. cbn [foldl]. unfold succeeded. rewrite Ht'.
    apply bool_decide_ext. split; cbn; congruence. }
  apply (does_step (reply := reply) (WaitBus 100)). intros [[]|].
  - eapply does_impl; [by apply IH|]. intros st es Hes a Hp Ht. destruct (Hhear a Hp Ht) as [Hp' Ht'].
    cbn [foldl]. change (hear ?a (existT (WaitBus 100) _)) with a. by apply Hes.
  - apply does_ret. intros a Hp Ht. destruct (Hhear a Hp Ht) as [Hp' Ht']. unfold succeeded. cbn [foldl].
    change (hear ?a (existT (WaitBus 100) _)) with a. by rewrite Ht', Hs.
Qed.

Lemma await_status_told n asyncPath :
  does (await_status n asyncPath) (λ st es, ∀ a,
    async_path a = Some asyncPath → told a = None →
    succeeded (foldl hear a es) = bool_decide (st = Told "Success")).
Proof.
  unfold await_status. apply (does_step (reply := reply) (GetProperty _ asyncPath _ _)).
  assert (Hhear : ∀ a r, async_path a = Some asyncPath →
    hear a (existT (GetProperty nsmService asyncPath nsmAsyncStatusIntfName "Status") r) =
    mkAttempt (Some asyncPath) (last_field <$> r)).
  { intros a r Hp. cbn [hear]. by rewrite decide_True, Hp. }
  intros [s|]; cbv zeta.
  - case_decide as Hs.
    + apply does_ret. intros a Hp _. cbn [foldl]. rewrite Hhear by done. apply bool_decide_ext. split; cbn; congruence.
    + eapply does_impl; [by apply poll_status_told|]. intros st es Hes a Hp _.
      cbn [foldl]. rewrite Hhear by done. by apply Hes.
  - apply does_ret. intros a Hp _. cbn [foldl]. by rewrite Hhear.
Qed.

(** A call returns a path exactly when the installation is told to have succeeded. *)
Lemma install_call_told path fd :
  does (handleAsyncCallInstallV2 path fd) (λ r es,
    calls_ok (λ c, is_memfd c = false) es ∧
    ∀ a, succeeded (foldl hear a es) = negb (bool_decide (r = ""%string))).
Proof.
  apply does_and.
  { eapply emits_impl; [|apply (emits_bind (λ c, waits c ∨ c = CallInstallToken path fd))].
    - by intros c [Hc| ->]; [destruct c|].
    - apply (emits_call (reply := reply) _ (CallInstallToken path fd)). by right.
    - intros r. eapply emits_impl; [|apply install_rest_waits]. by left. }
  unfold handleAsyncCallInstallV2. apply (does_step (reply := reply) (CallInstallToken path fd)). intros r. cbv zeta.
  case_decide as Hr; [by apply does_ret|].
  destruct r as [asyncPath|]; [|done]. change (default ""%string (Some asyncPath)) with asyncPath in Hr |- *.
  eapply does_bind; [apply await_status_told|]. intros st es Hes.
  assert (Ha : ∀ a, succeeded (foldl hear a (existT (CallInstallToken path fd) (Some asyncPath) :: es)) =
    bool_decide (st = Told "Success")).
  { intros a. by apply Hes. }
  assert (Hfail : st ≠ Told "Success" → does (mret ""%string : M string) (λ r es0, ∀ a,
    succeeded (foldl hear a (existT (CallInstallToken path fd) (Some asyncPath) :: es ++ es0)) = negb (bool_decide (r = ""%string)))).
  { intros Hst. apply does_ret. intros a. by rewrite app_nil_r, Ha, bool_decide_false. }
  destruct st as [| |status]; [by apply Hfail..|]. destruct (decide (status = "Success"%string)) as [Hs|Hs].
  - apply does_ret. intros a. rewrite app_nil_r, Ha, Hs, bool_decide_true by done. by rewrite bool_decide_false.
  - unfold logAsyncError, getAsyncValue.
    eapply (does_bind _ _ (λ _ es0, calls_ok says_nothing es0 ∧ ∀ a, foldl hear a es0 = a)).
    + apply (does_step (reply := reply) (GetAsyncValue _)). intros v. apply does_ret. by split; [constructor|].
    + intros _ es0 [_ Hes0]. apply does_ret. intros a. rewrite app_nil_r.
      change (?x :: es ++ es0) with ((x :: es) ++ es0). rewrite foldl_app, Hes0, Ha. by rewrite bool_decide_false by naive_solver.
Qed.

(** [adds m f]: the attempts that [m] makes have the outcomes [f]. *)
Definition adds {A} (m : M A) (f : A → list bool → Prop) : Prop :=
  does m (λ r es, ∃ l, f r l ∧ ∀ L, outcomes (ledger L es) = outcomes L ++ l).

Lemma adds_ret {A} (r : A) (f : A → list bool → Prop) : f r [] → adds (mret r) f.
Proof. intros Hf. apply does_ret. exists []. split; [done|]. intros L. by rewrite app_nil_r. Qed.

Lemma adds_bind {A B} (m : M A) (k : A → M B) f g :
  adds m f → (∀ a l, f a l → adds (k a) (λ b l', g b (l ++ l'))) → adds (m ≫= k) g.
Proof.
  intros Hm Hk. eapply does_bind; [exact Hm|]. intros a es (l & Hl & Hes). eapply does_impl; [by apply Hk|].
  intros b es' (l' & Hl' & Hes'). exists (l ++ l'). split; [done|]. intros L.
  by rewrite ledger_app, Hes', Hes, app_assoc.
Qed.

Lemma adds_nothing {A} (m : M A) (f : A → list bool → Prop) : emits says_nothing m → (∀ r, f r []) → adds m f.
Proof.
  intros Hm Hf. eapply does_impl; [exact Hm|]. intros r es Hes. exists []. split; [done|]. intros L.
  by rewrite ledger_still, app_nil_r.
Qed.

Lemma install_token_told path token : adds (install_token path token) (λ ok l, l = [ok]).
Proof.
  unfold install_token, adds. apply (does_step (reply := reply) MemfdCreate). intros memfd.
  set (L1 := λ L, mkLedger (outcomes L) (Some (mkAttempt None None))).
  assert (Hfail : ∀ pre, calls_ok says_nothing pre → does (mret false : M bool) (λ ok es, ∃ l, l = [ok] ∧
    ∀ L, outcomes (ledger L (existT MemfdCreate memfd :: pre ++ es)) = outcomes L ++ l)).
  { intros pre Hpre. apply does_ret. exists [false]. split; [done|]. intros L. rewrite app_nil_r.
    change (ledger L (?x :: pre)) with (ledger (L1 L) pre). by rewrite ledger_still. }
  destruct (memfd <? 0); [apply (Hfail []); constructor|].
  apply (does_step (reply := reply) (WriteFd memfd token)). intros written. destruct (negb _).
  { apply (does_step (reply := reply) (CloseFd memfd)). intros r.
    apply (Hfail [_; _]). by repeat constructor. }
  apply (does_step (reply := reply) (RewindFd memfd)). intros rewound.
  eapply does_bind; [apply install_call_told|]. intros asyncPath es [Hes Ht].
  apply (does_step (reply := reply) (CloseFd memfd)). intros closed. apply does_ret.
  eexists. split; [done|]. intros L.
  change (ledger L (?x :: ?y :: ?z :: ?l)) with (ledger (L1 L) ([y; z] ++ l)).
  rewrite ledger_app, (ledger_still _ [_; _]) by repeat constructor.
  rewrite ledger_app, (ledger_still _ [_]), ledger_hears by first [done|repeat constructor].
  unfold outcomes at 1. cbn [over going L1 fmap option_fmap option_map option_list option_rect]. by rewrite Ht.
Qed.

(** Without a failure every attempt has succeeded, and they are as many as are counted. *)
Definition all_told (r : nat * bool) (l : list bool) : Prop := r.2 = false → l = replicate r.1 true.

Lemma all_told_app r r' l l' :
  all_told r l → all_told r' l' → all_told ((r.1 + r'.1)%nat, r.2 || r'.2) (l ++ l').
Proof. intros Hl Hl' [H1 H2]%orb_false_iff. cbn [fst]. by rewrite replicate_add, Hl, Hl'. Qed.

Lemma install_tokens_told path l : adds (install_tokens path l) all_told.
Proof.
  induction l as [|token l IH]; cbn [install_tokens]; [by apply adds_ret|].
  eapply adds_bind; [apply install_token_told|]. intros ok ? ->. eapply adds_bind; [exact IH|].
  intros [installed failed] l' Hl'. apply adds_ret. rewrite app_nil_r.
  apply (all_told_app ((if ok then 1 else 0)%nat, negb ok) (installed, failed)); [|done]. by destruct ok.
Qed.

Lemma install_endpoints_told tokens paths : adds (install_endpoints tokens paths) all_told.
Proof.
  induction paths as [|path paths IH]; cbn [install_endpoints]; [by apply adds_ret|].
  apply (adds_bind _ _ (λ _ l, l = [])).
  { apply adds_nothing; [|done]. by apply (emits_call (reply := reply) _ (GetProperty _ path _ _)). }
  intros property ? ->. apply (adds_bind _ _ all_told).
  { destruct property as [sn|]; [|by apply adds_ret]. case_decide; [by apply adds_ret|apply install_tokens_told]. }
  intros [installed failed] l Hl. eapply adds_bind; [exact IH|]. intros [installed' failed'] l' Hl'.
  apply adds_ret. rewrite app_nil_r. cbn [app]. by apply (all_told_app (installed, failed) (installed', failed')).
Qed.

(** An installation that reports success is told so of every attempt, and has made one. *)
Lemma install_told tokens :
  adds (nsmTokenInstallV2 tokens) (λ rc l,
    rc ≠ installTokenFailed → rc ≠ installTokenNoMatch → l ≠ [] ∧ Forall (eq true) l).
Proof.
  unfold nsmTokenInstallV2, enumerateNsmDebugTokenEndpointsV2.
  apply (adds_bind _ _ (λ _ l, l = [])).
  { apply adds_nothing; [|done]. apply emits_bind; [|intros ?; apply emits_ret].
    by apply (emits_call (reply := reply) _ (GetSubTree _ _)). }
  intros [[|path paths]|] ? ->; [by apply adds_ret; intros []| |by apply adds_ret; intros []].
  eapply adds_bind; [apply install_endpoints_told|]. intros [installed failed] l Hl. apply adds_ret.
  rewrite app_nil_r. cbn [app]. destruct failed; [by intros []|]. rewrite Hl by done. cbn [fst].
  destruct installed as [|n]; [by intros _ []|]. intros _ _. split; [done|]. by apply Forall_replicate.
Qed.
End Outcomes.

(** ** No messages

    The calls of NSM leave no entry in the log. *)
Definition unlogged (c : Call) : Prop := if c is CreateEntry _ _ _ then False else True.

Lemma waits_unlogged `{TokenEnv} {A} (m : M A) : emits waits m → emits unlogged m.
Proof. apply emits_impl. by intros []. Qed.

Lemma any_fails_emits `{TokenEnv} P f paths : (∀ path, emits P (f path)) → emits P (any_fails f paths).
Proof.
  intros Hf. induction paths as [|path paths IH]; cbn [any_fails]; [apply emits_ret|].
  apply emits_bind; [apply Hf|]. intros failed. apply emits_bind; [exact IH|]. intros rest.
  apply emits_ret.
Qed.

Section Unlogged.
Context `{TokenEnv}.

Lemma install_call_unlogged path fd : emits unlogged (handleAsyncCallInstallV2 path fd).
Proof.
  apply emits_bind; [by apply (emits_call (reply := reply) _ (CallInstallToken path fd))|].
  intros asyncPath. apply waits_unlogged, install_rest_waits.
Qed.

Lemma erase_call_unlogged path : emits unlogged (handleAsyncCallEraseV2 path).
Proof.
  apply emits_bind; [by apply (emits_call (reply := reply) _ (CallEraseToken path _ _))|].
  intros asyncPath. apply waits_unlogged. cbv zeta. case_decide; [apply emits_ret|].
  apply emits_bind; [apply await_status_waits|]. intros [| |status]; [apply emits_ret..|].
  case_decide; [apply emits_ret|]. apply emits_bind; [apply logAsyncError_waits|]. intros _.
  apply emits_bind; [by apply (emits_call (reply := reply) _ (GetAsyncValue _))|].
  intros errorValue. apply emits_ret.
Qed.

Lemma install_token_unlogged path token : emits unlogged (install_token path token).
Proof.
  unfold install_token.
  apply emits_bind; [by apply (emits_call (reply := reply) _ MemfdCreate)|]. intros memfd.
  destruct (memfd <? 0); [apply emits_ret|].
  apply emits_bind; [by apply (emits_call (reply := reply) _ (WriteFd memfd token))|]. intros n.
  assert (Hclose : emits unlogged (call (CloseFd memfd)))
    by (by apply (emits_call (reply := reply) _ (CloseFd memfd))).
  destruct (negb _); [apply emits_bind; [exact Hclose|intros ?; apply emits_ret]|].
  apply emits_bind; [by apply (emits_call (reply := reply) _ (RewindFd memfd))|]. intros ?.
  apply emits_bind; [apply install_call_unlogged|]. intros asyncPath.
  apply emits_bind; [exact Hclose|]. intros ?. apply emits_ret.
Qed.

Lemma install_tokens_unlogged path l : emits unlogged (install_tokens path l).
Proof.
  induction l as [|token l IH]; cbn [install_tokens]; [apply emits_ret|].
  apply emits_bind; [apply install_token_unlogged|]. intros ok.
  apply emits_bind; [exact IH|]. intros []. apply emits_ret.
Qed.

Lemma install_endpoints_unlogged tokens paths : emits unlogged (install_endpoints tokens paths).
Proof.
  induction paths as [|path paths IH]; cbn [install_endpoints]; [apply emits_ret|].
  emits_auto; first [apply install_tokens_unlogged | exact IH | done].
Qed.

Lemma enumerate_unlogged : emits unlogged enumerateNsmDebugTokenEndpointsV2.
Proof. unfold enumerateNsmDebugTokenEndpointsV2. by emits_auto. Qed.

Lemma nsmTokenInstallV2_unlogged tokens : emits unlogged (nsmTokenInstallV2 tokens).
Proof.
  apply emits_bind; [by apply enumerate_unlogged|].
  intros [[|path paths]|]; [apply emits_ret| |apply emits_ret].
  apply emits_bind; [apply install_endpoints_unlogged|]. intros []. apply emits_ret.
Qed.

Lemma nsmTokenEraseV2_unlogged : emits unlogged nsmTokenEraseV2.
Proof.
  apply emits_bind; [by apply enumerate_unlogged|].
  intros [[|path paths]|]; [apply emits_ret| |apply emits_ret].
  apply emits_bind; [|intros failed; apply emits_ret]. apply any_fails_emits.
  clear path paths. intros path. apply emits_bind; [apply erase_call_unlogged|].
  intros asyncPath. apply emits_ret.
Qed.
End Unlogged.
