(* ===== verification/TokenMain.v ===== *)
(** * The debug token tool

    Installing a package of tokens and erasing all tokens, as
    src/debug_token/main.cpp runs them, with the erase policy
    (src/debug_token/update_debug_token.cpp). *)

From stdpp Require Import list strings gmap.
From S2P Require Import Prelude Bytes Text Trace Tokens TokenLog TokenNsm.

(** [debug_token/update_debug_token.hpp:398-403 DebugTokenInstallStatus] *)
Inductive DebugTokenInstallStatus :=
| DebugTokenInstallSuccess | DebugTokenInstallFailed | DebugTokenInstallNone.

#[export] Instance DebugTokenInstallStatus_eq_dec : EqDecision DebugTokenInstallStatus.
Proof. solve_decision. Defined.

(** [debug_token/update_debug_token.hpp:91-92 erasePolicyIntfName] *)
Definition erasePolicyIntfName : string := "com.nvidia.DebugToken.ErasePolicy".
Definition erasePolicyPath : string := "/com/nvidia/debug_token/".

(** [debug_token/main.cpp:32-33 EraseToken] *)
Definition EraseToken : Z := 0.
Definition InstallToken : Z := 1.

Section Main.
Context `{TokenEnv}.

(** [debug_token/update_debug_token.cpp:111-162 getErasePolicy] *)
Definition getErasePolicy : M string :=
  response ← call (GetSubTree erasePolicyPath erasePolicyIntfName);
  match response with
  | Some [o] =>
      policy ← call (GetProperty (mapper_service o) (mapper_path o) erasePolicyIntfName "Policy");
      mret (default "" (last_field <$> policy))
  | _ => mret ""%string
  end.

(** [debug_token/update_debug_token.cpp:34-79 installDebugToken]
    An exception of the parser leaves it. *)
Definition installDebugToken (debugTokenPath : string) : M (res TokenFault DebugTokenInstallStatus) :=
  file ← call (ReadTokenFile debugTokenPath);
  match updateTokenMap file [] with
  | Throw e => mret (Throw e)
  | Ok (status, tokens) =>
      if negb (status =? 0) then
        _ ← createMessageRegistryResourceErrors resourceErrorsDetected DEBUG_TOKEN_INSTALL_NAME
              Common TokenParseFailure "";
        mret (Ok DebugTokenInstallFailed)
      else
      installRc ← nsmTokenInstallV2 tokens;
      if installRc =? installTokenFailed then mret (Ok DebugTokenInstallFailed) else
      if installRc =? installTokenNoMatch then
        _ ← createLog debugTokenInstallationSkipped
              (entry_data debugTokenInstallationSkipped "no matching devices") Informational;
        mret (Ok DebugTokenInstallNone)
      else mret (Ok DebugTokenInstallSuccess)
  end.

(** [debug_token/update_debug_token.cpp:81-109 eraseDebugToken] *)
Definition eraseDebugToken : M Z :=
  policy ← getErasePolicy;
  if decide (policy = "Manual"%string) then
    _ ← createLog debugTokenEraseSkipped
          (entry_data debugTokenEraseSkipped "erase policy is set to Manual") Informational;
    mret eraseTokenSkipped
  else
  rc ← nsmTokenEraseV2;
  mret (if negb (rc =? 0) then eraseTokenFailed else eraseTokenSuccess).

(** [debug_token/main.cpp:35-123 main]
    The arguments after the name of the program; the exit status. *)
Definition main (args : list string) : M Z :=
  match args with
  | operation :: version :: rest =>
      match stoi operation with
      | None => mret (-1)
      | Some operation =>
          if operation =? EraseToken then
            eraseRc ← eraseDebugToken;
            _ ← (if eraseRc =? eraseTokenFailed then
                   createMessageRegistryResourceErrors debugTokenEraseFailed DEBUG_TOKEN_ERASE_NAME
                     TokenErase EraseFailed ""
                 else mret ());
            mret 0
          else if operation =? InstallToken then
            match rest with
            | [debugTokenPath] =>
                status ← installDebugToken debugTokenPath;
                match status with
                | Throw _ | Ok DebugTokenInstallFailed => mret (-1)
                | Ok DebugTokenInstallNone => mret 0
                | Ok DebugTokenInstallSuccess =>
                    _ ← createMessageRegistry updateSuccessful DEBUG_TOKEN_INSTALL_NAME version;
                    mret 0
                end
            | _ => mret (-1)
            end
          else mret (-1)
      end
  | _ => mret (-1)
  end.
End Main.

(** ** What the log says *)

Definition is_entry (id : string) (c : Call) : bool :=
  match c with CreateEntry id' _ _ => bool_decide (id' = id) | _ => false end.
Definition is_erase (c : Call) : bool := if c is CallEraseToken _ _ _ then true else false.

Abbreviation entries id := (count (reply := reply) (is_entry id)).
Abbreviation erasures := (count (reply := reply) is_erase).

Lemma unlogged_entries es id : calls_ok unlogged es → entries id es = 0%nat.
Proof.
  intros Hes. apply count_none. eapply Forall_impl; [exact Hes|]. by intros [[] r].
Qed.

Section Truth.
Context `{TokenEnv}.

(** An entry of a kind that is not among [ids]. *)
Lemma log_entry messageID addData level :
  does (createLog messageID addData level) (λ _ es,
    installs es = 0%nat ∧ attempts es = 0%nat ∧ erasures es = 0%nat ∧
    ∀ id, entries id es = if bool_decide (messageID = id) then 1%nat else 0%nat).
Proof.
  apply (does_call (reply := reply) (CreateEntry messageID level addData)). intros r.
  split_and!; [done..|]. intros id. cbn. by rewrite Nat.add_0_r.
Qed.

Lemma errors_entry messageID component type code device :
  does (createMessageRegistryResourceErrors messageID component type code device) (λ _ es,
    installs es = 0%nat ∧ attempts es = 0%nat ∧ erasures es = 0%nat ∧
    ∀ id, messageID ≠ id → entries id es = 0%nat).
Proof.
  unfold createMessageRegistryResourceErrors. destruct (getMessage _ _ _) as [[message resolution]|].
  - eapply does_impl; [apply log_entry|]. intros a es (H1 & H2 & H3 & H4).
    split_and!; [done..|]. intros id Hid. by rewrite H4, bool_decide_eq_false_2.
  - apply does_ret. by split_and!.
Qed.

(** What the log says is not told by the service. *)
Lemma entries_tell_nothing messageID addData level : emits says_nothing (createLog messageID addData level).
Proof. by apply (emits_call (reply := reply) _ (CreateEntry messageID level addData)). Qed.

(** What an installation that reports success is told of its attempts. *)
Lemma install_all_told path :
  adds (installDebugToken path) (λ status l, status = Ok DebugTokenInstallSuccess → l ≠ [] ∧ Forall (eq true) l).
Proof.
  unfold installDebugToken. apply (adds_bind _ _ (λ _ l, l = [])).
  { apply adds_nothing; [|done]. by apply (emits_call (reply := reply) _ (ReadTokenFile path)). }
  intros file ? ->. destruct (updateTokenMap file []) as [[status tokens]|e]; [|by apply adds_ret].
  destruct (negb (status =? 0)).
  { eapply (adds_bind _ _ (λ _ l, l = [])); [|intros ? ? ->; by apply adds_ret].
    apply adds_nothing; [|done]. unfold createMessageRegistryResourceErrors.
    destruct (getMessage _ _ _) as [[message resolution]|]; [apply entries_tell_nothing|apply emits_ret]. }
  eapply adds_bind; [apply install_told|]. intros rc l Hl. cbn beta in Hl.
  destruct (rc =? installTokenFailed) eqn:H1; [by apply adds_ret|].
  destruct (rc =? installTokenNoMatch) eqn:H2.
  { eapply (adds_bind _ _ (λ _ l, l = [])); [|intros ? ? ->; by apply adds_ret].
    apply adds_nothing; [apply entries_tell_nothing|done]. }
  apply adds_ret. intros _. rewrite app_nil_r. by apply Hl; apply Z.eqb_neq.
Qed.

(** What a run of an installation says and has done. *)
Lemma install_truth path :
  does (installDebugToken path) (λ status es,
    entries updateSuccessful es = 0%nat ∧ entries debugTokenEraseSkipped es = 0%nat ∧
    ((0 < entries debugTokenInstallationSkipped es)%nat →
       status = Ok DebugTokenInstallNone ∧ attempts es = 0%nat) ∧
    (status = Ok DebugTokenInstallSuccess → (0 < installs es)%nat ∧ installs es = attempts es)).
Proof.
  unfold installDebugToken.
  apply (does_bind _ _ (λ _ es, installs es = 0%nat ∧ attempts es = 0%nat ∧ ∀ id, entries id es = 0%nat)).
  { by apply (does_call (reply := reply) (ReadTokenFile path)). }
  intros file es (Hi & Ha & He). destruct (updateTokenMap file []) as [[status tokens]|e].
  2: { apply does_ret. rewrite app_nil_r, !He. split_and!; [done..|lia|done]. }
  destruct (negb (status =? 0)).
  { eapply does_bind; [apply errors_entry|]. intros _ es' (Hi' & Ha' & _ & He').
    apply does_ret. rewrite app_nil_r, !count_app, !He, !He' by done. split_and!; [done..|lia|done]. }
  eapply (does_bind _ _ (λ rc es', (∀ id, entries id es' = 0%nat) ∧
    (rc = installTokenSuccess → (0 < installs es')%nat ∧ installs es' = attempts es') ∧
    (rc = installTokenNoMatch → attempts es' = 0%nat) ∧
    (rc = installTokenSuccess ∨ rc = installTokenNoMatch ∨ rc = installTokenFailed))).
  { intros w. destruct (install_result_meaning tokens w) as (es' & Hes & _ & H1 & H2 & H3).
    destruct (nsmTokenInstallV2_unlogged tokens w) as (es2 & Hes2 & Hu).
    rewrite Hes in Hes2. apply app_inv_head in Hes2. subst es2. exists es'.
    split_and!; [done| |done..]. intros id. by apply unlogged_entries. }
  intros rc es' (He' & Hs & Hn & [-> | [-> | ->]]); cbn.
  - apply does_ret. rewrite app_nil_r, !count_app, !He, !He'.
    destruct (Hs eq_refl). split_and!; [done..|lia|lia].
  - eapply does_bind; [apply log_entry|]. intros _ es2 (Hi2 & Ha2 & _ & He2).
    apply does_ret. rewrite app_nil_r, !count_app, !He, !He', !He2.
    specialize (Hn eq_refl). split_and!; [done..| |done]. intros _. split; [done|lia].
  - apply does_ret. rewrite app_nil_r, !count_app, !He, !He'. split_and!; [done..|lia|done].
Qed.

Lemma erase_truth :
  does eraseDebugToken (λ rc es,
    entries updateSuccessful es = 0%nat ∧ entries debugTokenInstallationSkipped es = 0%nat ∧
    ((0 < entries debugTokenEraseSkipped es)%nat → rc = eraseTokenSkipped ∧ erasures es = 0%nat)).
Proof.
  unfold eraseDebugToken, getErasePolicy.
  apply (does_bind _ _ (λ _ es, erasures es = 0%nat ∧ ∀ id, entries id es = 0%nat)).
  { eapply does_bind; [by apply (does_call (reply := reply) (GetSubTree _ _)
      (λ _ es, erasures es = 0%nat ∧ ∀ id, entries id es = 0%nat))|].
    intros [[|o [|o' l]]|] es [H1 H2]; try (apply does_ret; by rewrite app_nil_r).
    eapply does_bind; [by apply (does_call (reply := reply) (GetProperty _ _ _ _)
      (λ _ es, erasures es = 0%nat ∧ ∀ id, entries id es = 0%nat))|].
    intros policy es' [H3 H4]. apply does_ret. rewrite app_nil_r.
    split; [rewrite count_app; lia|intros id; rewrite count_app, H2, H4; done]. }
  intros policy es [Hc He]. case_decide.
  - eapply does_bind; [apply log_entry|]. intros _ es2 (_ & _ & Hc2 & He2).
    apply does_ret. rewrite app_nil_r, !count_app, !He, !He2.
    split_and!; [done..|]. intros _. split; [done|lia].
  - eapply does_bind; [apply nsmTokenEraseV2_unlogged|]. intros rc es2 Hu.
    apply does_ret. rewrite app_nil_r, !count_app, !He, !unlogged_entries by done.
    split_and!; [done..|lia].
Qed.

(** What the log has claimed, and what was done. *)
Definition truth (status : Z) (es : list (Event (reply := reply))) : Prop :=
  ((0 < entries updateSuccessful es)%nat →
     status = 0 ∧ (0 < installs es)%nat ∧ installs es = attempts es ∧
     outcomes (ledger ledger0 es) = replicate (attempts es) true) ∧
  ((0 < entries debugTokenInstallationSkipped es)%nat → status = 0 ∧ attempts es = 0%nat) ∧
  ((0 < entries debugTokenEraseSkipped es)%nat → status = 0 ∧ erasures es = 0%nat).

(** With no claim of a success. *)
Lemma truth_unclaimed status es :
  entries updateSuccessful es = 0%nat →
  ((0 < entries debugTokenInstallationSkipped es)%nat → status = 0 ∧ attempts es = 0%nat) →
  ((0 < entries debugTokenEraseSkipped es)%nat → status = 0 ∧ erasures es = 0%nat) → truth status es.
Proof. intros He H1 H2. split_and!; [lia|done|done]. Qed.

Lemma truth_nothing (status : Z) : does (mret status : M Z) truth.
Proof. apply does_ret. apply truth_unclaimed; [done|cbn; lia..]. Qed.

(** C35: Whatever the arguments and whatever happens, the log claims an installation only
    if tokens were given to endpoints, all that were tried, and the service has told
    of each of them that its installation has succeeded; and it says that an operation
    was skipped only if nothing was touched. *)
Theorem log_tells_truth args :
  does (main args) (λ status es,
    ((0 < entries updateSuccessful es)%nat →
       status = 0 ∧ (0 < installs es)%nat ∧ installs es = attempts es ∧
       outcomes (ledger ledger0 es) = replicate (attempts es) true) ∧
    ((0 < entries debugTokenInstallationSkipped es)%nat → status = 0 ∧ attempts es = 0%nat) ∧
    ((0 < entries debugTokenEraseSkipped es)%nat → status = 0 ∧ erasures es = 0%nat)).
Proof.
  change (does (main args) truth).
  unfold main. destruct args as [|operation [|version rest]]; [apply truth_nothing..|].
  destruct (stoi operation) as [op|]; [|apply truth_nothing].
  destruct (op =? EraseToken); [|destruct (op =? InstallToken); [|apply truth_nothing]].
  - eapply does_bind; [apply erase_truth|]. intros rc es (H1 & H2 & H3).
    eapply (does_bind _ _ (λ _ es', erasures es' = 0%nat ∧ entries updateSuccessful es' = 0%nat ∧
      entries debugTokenInstallationSkipped es' = 0%nat ∧ entries debugTokenEraseSkipped es' = 0%nat)).
    { destruct (rc =? eraseTokenFailed); [|by apply does_ret].
      eapply does_impl; [apply errors_entry|]. intros _ es' (_ & _ & Hc & He).
      split_and!; [done|by apply He..]. }
    intros _ es' (Hc & E1 & E2 & E3). apply does_ret. rewrite app_nil_r.
    apply truth_unclaimed; rewrite ?count_app; [lia..|]. intros Hs. split; [done|]. destruct H3 as [_ H3]; lia.
  - destruct rest as [|path [|? ?]]; [apply truth_nothing| |apply truth_nothing].
    eapply does_bind; [apply (does_and _ _ _ (install_truth path) (install_all_told path))|].
    intros status es [(H1 & H2 & H3 & H4) (l & Hl & Htold)].
    destruct status as [[]|e].
    + destruct (H4 eq_refl) as [Hi Ha]. destruct (Hl eq_refl) as [_ Hall].
      eapply does_bind; [unfold createMessageRegistry; rewrite decide_True by done;
        apply (does_and _ _ _ (log_entry _ _ _) (entries_tell_nothing _ _ _))|].
      intros _ es' [(Hi' & Ha' & Hc' & He') Hq]. apply does_ret. rewrite app_nil_r. unfold truth.
      rewrite !count_app, !He', H2, ledger_app, (ledger_still _ es') by done.
      rewrite bool_decide_eq_true_2, !bool_decide_eq_false_2 by done.
      split_and!; [|intros Hs; destruct H3 as [H3 _]; [lia|done]|lia].
      intros _. split_and!; [done|lia|lia|]. pose proof (outcomes_length ledger0 es) as Hlen.
      rewrite (Htold ledger0) in Hlen |- *. cbn [outcomes over going ledger0 app] in Hlen |- *.
      symmetry. apply replicate_as_Forall_2; [|done]. rewrite Hlen, Ha'. cbn. lia.
    + apply does_ret. rewrite app_nil_r. apply truth_unclaimed; [done| |lia]. intros Hs. by destruct (H3 Hs).
    + apply does_ret. rewrite app_nil_r. apply truth_unclaimed; [done| |lia]. intros Hs. by destruct (H3 Hs).
    + apply does_ret. rewrite app_nil_r. apply truth_unclaimed; [done| |lia]. intros Hs. by destruct (H3 Hs).
Qed.
End Truth.
