(* ===== verification/DfuStatus.v ===== *)
(** * The USB DFU recovery tool: its environment, and the status of the HMC

    What src/recovery_tool/usbdfu_recovery_tool asks of libgpiod, of the processes it
    runs, of the file system, of the clock and of D-Bus is the type [Call]; nothing is
    assumed of the answers. A GPIO line is known by its name. With it the searches in
    sysfs (src/recovery_tool/common/usb_sysfs.hpp) and process_utils.cpp; what the USB
    devices and the listing of dfu-util say of the HMC (usbdfu_status.cpp); and how
    long [pollUntil] waits and what the parser of the listing reads. *)

From stdpp Require Import list strings gmap.
From Stdlib Require Import Ascii.
From S2P Require Import Prelude Json Text Trace Registry.

(** * The USB DFU recovery tool: its environment *)

(** The properties of the interfaces of an object; those that are no string are
    known by their presence alone. *)
Definition InterfaceMap : Type := gmap string (gmap string (option string)).

Inductive Call :=
(* libgpiod; the end of a handle that was not released closes its chip, which
   gives the line back *)
| FindLine (name : string)
| RequestLine (name : string)
| SetValue (name : string) (value : Z)
| ReleaseLine (name : string)
| DropLine (name : string)
(* a pipe, a process under timeout(1), its output to the end, its exit *)
| RunProcess (argv : list string) (timeoutSecs : Z)
| SleepFor (ms : Z)
(* the steady clock, in nanoseconds *)
| Now
(* the names in a directory, each with whether it is a regular file, in the
   order the iterator gives, up to its end or its first error *)
| ListDirectory (path : string)
| ReadLine (path : string)
| IsRegularFile (path : string)
| IsDirectory (path : string)
| FileSize (path : string)
| CopyFile (source target : string)
| ResizeFile (path : string) (size : Z)
| RemoveFile (path : string)
(* a file that opens, and the JSON value it holds if it parses *)
| ReadJson (path : string)
| GetManagedObjects (service path : string)
| CreateEntry (entry : Entry).

(** A call that throws answers the text of the exception; a file operation that
    fails, that of its error. *)
Definition reply (c : Call) : Type :=
  match c with
  | FindLine _ => res string bool
  | RequestLine _ | SetValue _ _ | CopyFile _ _ | ResizeFile _ _ => res string ()
  | RunProcess _ _ => option (string * option Z)
  | Now => Z
  | ListDirectory _ => list (string * bool)
  | ReadLine _ => option string
  | IsRegularFile _ | IsDirectory _ => bool
  | FileSize _ => res string Z
  | ReadJson _ => option (option json)
  | GetManagedObjects _ _ => list (string * InterfaceMap)
  | ReleaseLine _ | DropLine _ | SleepFor _ | RemoveFile _ | CreateEntry _ => ()
  end.

Abbreviation DfuEnv := (Env reply).

Section Io.
Context `{DfuEnv}.

(** ** Processes *)

(** [recovery_tool/usbdfu_recovery_tool/process_utils.cpp:60-99 capture]
    The output and the exit status; none if the process could not be run, was
    killed by the timeout or ended on a signal. *)
Definition capture (argv : list string) (timeoutSecs : Z) : M (option (string * Z)) :=
  result ← call (RunProcess argv timeoutSecs);
  mret match result with
       | Some (output, Some status) =>
           if (status =? 124) || (status =? 127) then None else Some (output, status)
       | _ => None
       end.

(** ** USB devices in sysfs *)

(** [recovery_tool/common/usb_sysfs.hpp:28-52 readAttribute] *)
Definition readAttribute (attr : string) : M string :=
  line ← call (ReadLine attr);
  mret match line with None => ""%string | Some value => tolower (trim_right value) end.

(** [recovery_tool/common/usb_sysfs.hpp:54-61 Device] *)
Record Device := mkDevice { portPath : string; vid : string; pid : string }.

(** [recovery_tool/common/usb_sysfs.hpp:75-94 findDevice]
    The loop over the entries of the directory. *)
Fixpoint find_among (root vid pid portFilter : string) (names : list string) : M (option Device) :=
  match names with
  | [] => mret None
  | name :: names =>
      if decide (portFilter ≠ ""%string ∧ name ≠ portFilter)
      then find_among root vid pid portFilter names else
      let dev := path_append root name in
      devVid ← readAttribute (path_append dev "idVendor");
      if decide (devVid = ""%string ∨ devVid ≠ vid)
      then find_among root vid pid portFilter names else
      devPid ← readAttribute (path_append dev "idProduct");
      if decide (devPid = pid) then mret (Some (mkDevice name devVid devPid))
      else find_among root vid pid portFilter names
  end.

(** [recovery_tool/common/usb_sysfs.hpp:70-96 findDevice] *)
Definition findDevice (root vid pid portFilter : string) : M (option Device) :=
  entries ← call (ListDirectory root);
  find_among root vid pid portFilter entries.*1.

(** ** Waiting *)

(** [recovery_tool/usbdfu_recovery_tool/perform_dfu_recovery.cpp:77-90 pollUntil]
    The loop, with what [ready()] has found. A nap takes a millisecond at
    least, so that [timeout - elapsed] naps are enough. *)
Fixpoint poll_from {A} (fuel : nat) (timeout interval deadline elapsed : Z) (ready : M (option A))
    : M (option A) :=
  found ← ready;
  match found with
  | Some a => mret (Some a)
  | None =>
      if timeout <=? elapsed then mret None else
      now ← call Now;
      if deadline <=? now then mret None else
      let nap := Z.min interval (timeout - elapsed) in
      _ ← call (SleepFor nap);
      match fuel with
      | O => mret None
      | S fuel => poll_from fuel timeout interval deadline (elapsed + nap) ready
      end
  end.

(** [recovery_tool/usbdfu_recovery_tool/perform_dfu_recovery.cpp:66-91 pollUntil] *)
Definition pollUntil {A} (timeoutMs intervalMs : Z) (ready : M (option A)) : M (option A) :=
  let timeout := Z.max 0 timeoutMs in
  let interval := Z.max 1 intervalMs in
  now ← call Now;
  poll_from (Z.to_nat timeout) timeout interval (now + timeout * 1000000) 0 ready.

(** ** GPIO lines *)

(** [recovery_tool/usbdfu_recovery_tool/perform_dfu_recovery.cpp:103-136 requestOutputLine]
    The line is held, or the message. *)
Definition requestOutputLine (pinName : string) (value : Z) : M (res string ()) :=
  line ← call (FindLine pinName);
  match line with
  | Throw what => mret (Throw ("GPIO lookup failed for " +:+ pinName +:+ ": " +:+ what))
  | Ok false => mret (Throw ("GPIO line not found: " +:+ pinName))
  | Ok true =>
      requested ← call (RequestLine pinName);
      driven ← match requested with
               | Ok _ => call (SetValue pinName value)
               | Throw what => mret (Throw what)
               end;
      match driven with
      | Ok _ => mret (Ok ())
      | Throw what =>
          _ ← call (DropLine pinName);
          mret (Throw ("Failed to drive GPIO " +:+ pinName +:+ "=" +:+ to_string value +:+ ": " +:+ what))
      end
  end%string.
End Io.

(** * The recovery status of the HMC *)

(** * The recovery status of the HMC *)

#[local] Open Scope string_scope.

(** ** Identities *)

(** [recovery_tool/usbdfu_recovery_tool/usbdfu_status.hpp:35-47 UsbId] *)
Record UsbId := mkUsbId { id_vid : string; id_pid : string }.

#[export] Instance UsbId_eq_dec : EqDecision UsbId.
Proof. solve_decision. Defined.

Definition UsbId_str (id : UsbId) : string := id_vid id +:+ ":" +:+ id_pid id.

Definition is_hex (c : ascii) : bool := bool_decide (is_Some (hex_char c)).

(** Four hexadecimal digits, and what follows them. *)
Definition hex4 (s : string) : option (string * string) :=
  match s with
  | String a (String b (String c (String d rest))) =>
      if is_hex a && is_hex b && is_hex c && is_hex d
      then Some (String a (String b (String c (String d ""))), rest) else None
  | _ => None
  end.

(** [recovery_tool/usbdfu_recovery_tool/usbdfu_status.cpp:35-44 parse] *)
Definition UsbId_parse (text : string) : option UsbId :=
  '(v, s) ← hex4 text;
  s ← expect ":" s;
  '(p, s) ← hex4 s;
  if decide (s = "") then Some (mkUsbId (tolower v) (tolower p)) else None.

(** ** The listing of dfu-util *)

(** [recovery_tool/usbdfu_recovery_tool/usbdfu_status.hpp:68-74 DfuAlt] *)
Record DfuAlt := mkDfuAlt { alt_usbId : string; alt_path : string; alt_name : string }.

(** [recovery_tool/usbdfu_recovery_tool/usbdfu_status.cpp:30-33 isRecoveryAlt] *)
Definition isRecoveryAlt (name : string) : bool := String.prefix "recovery" name.

(** [recovery_tool/usbdfu_recovery_tool/usbdfu_status.cpp:94-96 parseDfuUtilList]
    The patterns: an identity in brackets, and a field in quotes. *)
Definition idRe (s : string) : option (string * string) :=
  s ← expect "[" s;
  '(v, s) ← hex4 s;
  s ← expect ":" s;
  '(p, s) ← hex4 s;
  _ ← expect "]" s;
  Some (v, p).

Definition fieldRe (field : string) (s : string) : option string :=
  s ← expect (field +:+ "=" +:+ dquote) s;
  until (ascii_of_nat 34) s.

(** [recovery_tool/usbdfu_recovery_tool/usbdfu_status.cpp:107-121 parseDfuUtilList]
    A line that reports a device. *)
Definition parse_alt (line : string) : DfuAlt :=
  mkDfuAlt
    match search idRe line with Some (v, p) => tolower v +:+ ":" +:+ tolower p | None => "" end
    (default "" (search (fieldRe "path") line))
    (default "" (search (fieldRe "name") line)).

(** [recovery_tool/usbdfu_recovery_tool/usbdfu_status.cpp:90-124 parseDfuUtilList] *)
Definition parseDfuUtilList (output : string) : list DfuAlt :=
  parse_alt <$> base.filter (λ line, contains "Found DFU:" line = true) (split "010" output).

(** ** The status *)

(** [recovery_tool/usbdfu_recovery_tool/usbdfu_status.hpp:49-63 RecoveryState] *)
Inductive RecoveryState := InRecovery | NotInRecovery | Unknown.
Inductive RecoveryStage := Stage_None | BootRom | RecoveryUBoot.

#[export] Instance RecoveryState_eq_dec : EqDecision RecoveryState.
Proof. solve_decision. Defined.
#[export] Instance RecoveryStage_eq_dec : EqDecision RecoveryStage.
Proof. solve_decision. Defined.

(** [recovery_tool/usbdfu_recovery_tool/usbdfu_status.cpp:46-72 toString] *)
Definition state_toString (state : RecoveryState) : string :=
  match state with
  | InRecovery => "In Recovery" | NotInRecovery => "Not in Recovery" | Unknown => "Unknown"
  end.

Definition stage_toString (stage : RecoveryStage) : string :=
  match stage with
  | BootRom => "BootROM" | RecoveryUBoot => "RecoveryUBoot" | Stage_None => "None"
  end.

(** [recovery_tool/usbdfu_recovery_tool/usbdfu_status.hpp:89-97 RecoveryStatus] *)
Record RecoveryStatus := mkRecoveryStatus {
  state : RecoveryState;
  stage : RecoveryStage;
  usbDevicePresent : bool;
  usbPortPath : string;
  usbId : string;
  dfuAltSettings : list string;
  error : string;
}.

(** [recovery_tool/usbdfu_recovery_tool/usbdfu_status.cpp:74-88 toJson] *)
Definition status_toJson (s : RecoveryStatus) : json :=
  let j := members_set "Recovery Status" (JString (state_toString (state s))) [] in
  let j := members_set "Recovery Stage" (JString (stage_toString (stage s))) j in
  let j := members_set "USB Device Present" (JBool (usbDevicePresent s)) j in
  let j := members_set "USB Port Path" (JString (usbPortPath s)) j in
  let j := members_set "USB ID" (JString (usbId s)) j in
  let j := members_set "DFU Alt Settings" (JArray (JString <$> dfuAltSettings s)) j in
  JObject (if decide (error s = "") then j else members_set "Error" (JString (error s)) j).

(** A recovery target on the port that is probed; any port if that is empty. *)
Definition recovery_target (portPath : string) (a : DfuAlt) : bool :=
  isRecoveryAlt (alt_name a) && (bool_decide (portPath = "") || bool_decide (alt_path a = portPath)).

Definition Device_id (d : Device) : string := vid d +:+ ":" +:+ pid d.

(** [recovery_tool/usbdfu_recovery_tool/usbdfu_status.cpp:126-186 deriveRecoveryStatus] *)
Definition deriveRecoveryStatus (bootRom : option Device) (dfuAlts : list DfuAlt)
    (functional : option Device) (functionalConfigured : bool) (portPath_ : string) : RecoveryStatus :=
  let names := alt_name <$> dfuAlts in
  let recoveryAlt : option DfuAlt := snd <$> find_if (recovery_target portPath_) dfuAlts in
  match bootRom, recoveryAlt with
  | Some b, _ =>
      mkRecoveryStatus InRecovery (if recoveryAlt then RecoveryUBoot else BootRom) true
        (portPath b) (Device_id b) names ""
  | None, Some a => mkRecoveryStatus InRecovery RecoveryUBoot true (alt_path a) (alt_usbId a) names ""
  | None, None =>
      match functional with
      | Some f => mkRecoveryStatus NotInRecovery Stage_None true (portPath f) (Device_id f) names ""
      | None =>
          mkRecoveryStatus Unknown Stage_None false "" "" names
            (if functionalConfigured then
               "HMC not found on USB: neither the DFU device nor the functional identity is present"
             else "HMC not in DFU mode and no functional USB identity is configured; health cannot be determined")
      end
  end.

(** [recovery_tool/usbdfu_recovery_tool/usbdfu_status.hpp:76-87 StatusConfig] *)
Record StatusConfig := mkStatusConfig {
  sc_usbSysfsRoot : string;
  sc_bootRomId : UsbId;
  sc_functionalId : option UsbId;
  sc_usbPortFilter : string;
  sc_dfuUtilPath : string;
  sc_dfuListTimeoutSecs : Z;
}.

(** The command that lists the DFU devices of a port. *)
Definition list_command (dfuUtilPath usbPortFilter : string) : list string :=
  [dfuUtilPath; "-l"] ++ (if decide (usbPortFilter = "") then [] else ["-p"; usbPortFilter]).

Section Status.
Context `{DfuEnv}.

(** [recovery_tool/usbdfu_recovery_tool/usbdfu_status.cpp:188-242 getRecoveryStatus] *)
Definition getRecoveryStatus (cfg : StatusConfig) : M RecoveryStatus :=
  bootRom ← findDevice (sc_usbSysfsRoot cfg) (id_vid (sc_bootRomId cfg)) (id_pid (sc_bootRomId cfg))
              (sc_usbPortFilter cfg);
  functional ←
    match sc_functionalId cfg with
    | None => mret None
    | Some id => findDevice (sc_usbSysfsRoot cfg) (id_vid id) (id_pid id) (sc_usbPortFilter cfg)
    end;
  out ← capture (list_command (sc_dfuUtilPath cfg) (sc_usbPortFilter cfg)) (sc_dfuListTimeoutSecs cfg);
  let alts := match out with Some (output, _) => parseDfuUtilList output | None => [] end in
  let listError := if out then "" else "dfu-util -l could not be executed" in
  let expectedPort :=
    match bootRom with
    | Some b => if decide (sc_usbPortFilter cfg = "") then portPath b else sc_usbPortFilter cfg
    | None => sc_usbPortFilter cfg
    end in
  let status := deriveRecoveryStatus bootRom alts functional
                  (if sc_functionalId cfg then true else false) expectedPort in
  mret (if decide (listError ≠ "" ∧ error status = "") then
          mkRecoveryStatus (state status) (stage status) (usbDevicePresent status)
            (usbPortPath status) (usbId status) (dfuAltSettings status) listError
        else status).
End Status.

(** * Polls and listings of the USB DFU recovery *)

#[local] Open Scope list_scope.
#[local] Open Scope Z_scope.

(** ** Naps *)

Definition nap (e : Event (reply := reply)) : option Z :=
  match e with existT (SleepFor ms) _ => Some ms | _ => None end.

(** The milliseconds slept. *)
Definition slept (es : list (Event (reply := reply))) : Z := foldr Z.add 0 (omap nap es).

Definition naps (es : list (Event (reply := reply))) : Z := Z.of_nat (length (omap nap es)).

Lemma slept_app es es' : slept (es ++ es') = slept es + slept es'.
Proof.
  unfold slept. rewrite omap_app. induction (omap nap es) as [|ms l IH]; [done|]. cbn in *. lia.
Qed.

Lemma naps_app es es' : naps (es ++ es') = naps es + naps es'.
Proof. unfold naps. rewrite omap_app, length_app. lia. Qed.

(** A program that does not sleep. *)
Definition awake (c : Call) : Prop := if c is SleepFor _ then False else True.

Lemma awake_slept es : calls_ok awake es → slept es = 0 ∧ naps es = 0.
Proof.
  unfold slept, naps. intros Hes.
  enough (omap nap es = []) as -> by done.
  induction Hes as [|[c r] es Hc Hes IH]; [done|]. cbn [omap list_omap]. by destruct c.
Qed.

(** The clock was read at [now]. *)
Definition read_at (now : Z) (es : list (Event (reply := reply))) : Prop := existT Now now ∈ es.

Section Poll.
Context `{DfuEnv} {A : Type} (ready : M (option A)) (Hready : emits awake ready).

Lemma poll_from_bounded fuel timeout interval deadline elapsed :
  1 ≤ interval → 0 ≤ elapsed ≤ timeout → timeout - elapsed ≤ Z.of_nat fuel →
  does (poll_from fuel timeout interval deadline elapsed ready) (λ r es,
    slept es ≤ timeout - elapsed ∧ naps es * interval ≤ timeout - elapsed + interval - 1 ∧
    (r = None → slept es = timeout - elapsed ∨ ∃ now, read_at now es ∧ deadline ≤ now)).
Proof.
  intros Hi. revert elapsed. induction fuel as [|fuel IH]; intros elapsed He Hf; cbn [poll_from].
  - eapply does_bind; [exact Hready|]. intros [a|] es [Hs Hn]%awake_slept; cbv beta.
    { apply does_ret. rewrite app_nil_r, Hs, Hn. split_and!; [lia|lia|done]. }
    replace (timeout <=? elapsed) with true by lia. apply does_ret. rewrite app_nil_r, Hs, Hn.
    split_and!; [lia|lia|]. intros _. left. lia.
  - eapply does_bind; [exact Hready|]. intros [a|] es [Hs Hn]%awake_slept; cbv beta.
    { apply does_ret. rewrite app_nil_r, Hs, Hn. split_and!; [lia|lia|done]. }
    destruct (Z.leb_spec timeout elapsed) as [Ht|Ht].
    { apply does_ret. rewrite app_nil_r, Hs, Hn. split_and!; [lia|lia|]. intros _. left. lia. }
    refine (does_step (reply := reply) Now _ _ _). intros now. destruct (Z.leb_spec deadline now) as [Hd|Hd].
    { apply does_ret. rewrite slept_app, naps_app, Hs, Hn.
      change (slept [existT Now now]) with 0. change (naps [existT Now now]) with 0. split_and!; [lia|lia|].
      intros _. right. exists now. split; [|done]. apply elem_of_app. right. by left. }
    cbv zeta. set (n := Z.min interval (timeout - elapsed)).
    refine (does_step (reply := reply) (SleepFor n) _ _ _). intros u.
    eapply does_impl; [apply (IH (elapsed + n)); lia|].
    intros r es3 (Hs3 & Hn3 & Hr).
    change (existT Now now :: existT (SleepFor n) u :: es3)
      with ([existT Now now : Event (reply := reply)] ++ [existT (SleepFor n) u] ++ es3).
    rewrite !slept_app, !naps_app, Hs, Hn.
    change (slept [existT Now now]) with 0. change (naps [existT Now now]) with 0.
    change (slept [existT (SleepFor n) u]) with (n + 0). change (naps [existT (SleepFor n) u]) with 1.
    assert (0 ≤ naps es3) by (unfold naps; lia).
    split_and!; [lia| |].
    { destruct (decide (interval ≤ timeout - elapsed)) as [Hle|Hgt].
      - replace n with interval in * by lia. nia.
      - replace n with (timeout - elapsed) in * by lia. assert (naps es3 = 0) as -> by nia. lia. }
    intros Hnone. destruct (Hr Hnone) as [Hl|(now' & Hin & Hle)]; [left; lia|].
    right. exists now'. split; [|done]. unfold read_at. rewrite !elem_of_app. tauto.
Qed.

(** A poll naps no longer than its timeout in all, in no more naps than intervals
    begun; and it gives up only after the whole of the timeout, or past it by
    the clock. *)
Theorem polls_bounded timeoutMs intervalMs :
  does (pollUntil timeoutMs intervalMs ready) (λ r es,
    slept es ≤ Z.max 0 timeoutMs ∧
    naps es * Z.max 1 intervalMs ≤ Z.max 0 timeoutMs + Z.max 1 intervalMs - 1 ∧
    (r = None → slept es = Z.max 0 timeoutMs ∨
       ∃ start rest now, es = existT Now start :: rest ∧ read_at now rest ∧
         start + Z.max 0 timeoutMs * 1000000 ≤ now)).
Proof.
  unfold pollUntil. cbv zeta. refine (does_step (reply := reply) Now _ _ _). intros start.
  eapply does_impl; [apply poll_from_bounded; lia|]. intros r es (Hs & Hn & Hr).
  change (existT Now start :: es) with ([existT Now start : Event (reply := reply)] ++ es).
  rewrite slept_app, naps_app.
  change (slept [existT Now start]) with 0. change (naps [existT Now start]) with 0.
  split_and!; [lia|lia|]. intros Hnone. destruct (Hr Hnone) as [Hl|(now & Hin & Hle)]; [left; lia|].
  right. by exists start, es, now.
Qed.
End Poll.

(** ** The listing of dfu-util *)

#[local] Open Scope string_scope.

(** What dfu-util prints of a device. *)
Record Listed := mkListed {
  l_vid : string; l_pid : string; l_ver : string; l_devnum : string; l_cfg : string;
  l_intf : string; l_path : string; l_alt : string; l_name : string; l_serial : string;
}.

Definition print_listed (l : Listed) : string :=
  "Found DFU: [" +:+ l_vid l +:+ ":" +:+ l_pid l +:+ "] ver=" +:+ l_ver l +:+ ", devnum=" +:+
  l_devnum l +:+ ", cfg=" +:+ l_cfg l +:+ ", intf=" +:+ l_intf l +:+ ", path=" +:+ dquote +:+ l_path l +:+
  dquote +:+ ", alt=" +:+ l_alt l +:+ ", name=" +:+ dquote +:+ l_name l +:+ dquote +:+ ", serial=" +:+
  quoted (l_serial l).

(** A character of the numbers and port paths that are printed. *)
Definition plain_char (c : ascii) : bool :=
  is_hex c || bool_decide (c ∈ ["-"; "."; ":"]%char).

Definition plain (s : string) : bool := free (λ c, negb (plain_char c)) s.

(** Four hexadecimal digits in lower case. *)
Definition id_ok (s : string) : Prop := hex4 s = Some (s, "") ∧ tolower s = s.

Definition Listed_ok (l : Listed) : Prop :=
  id_ok (l_vid l) ∧ id_ok (l_pid l) ∧
  Forall (λ s, plain s = true) [l_ver l; l_devnum l; l_cfg l; l_intf l; l_path l; l_alt l] ∧
  free (is_char (ascii_of_nat 34)) (l_name l) = true ∧
  Forall (λ s, free (is_char "010") s = true) [l_name l; l_serial l].

Lemma hex4_app s t : hex4 s = Some (s, "") → hex4 (s +:+ t) = Some (s, t).
Proof.
  destruct s as [|a [|b [|c [|d rest]]]]; try done. intros Hs.
  change (String a (String b (String c (String d rest))) +:+ t)
    with (String a (String b (String c (String d (rest +:+ t))))).
  unfold hex4 in *. destruct (is_hex a && is_hex b && is_hex c && is_hex d); [|done].
  by simplify_eq.
Qed.

Lemma hex4_plain s : hex4 s = Some (s, "") → plain s = true.
Proof.
  destruct s as [|a [|b [|c [|d rest]]]]; try done. unfold hex4. intros Hs.
  destruct (is_hex a && is_hex b && is_hex c && is_hex d) eqn:Hh; [|done]. simplify_eq.
  apply andb_true_iff in Hh as [Hh Hd]. apply andb_true_iff in Hh as [Hh Hc].
  apply andb_true_iff in Hh as [Ha Hb]. unfold plain, plain_char. cbn [free].
  by rewrite Ha, Hb, Hc, Hd.
Qed.

(** A plain string has no character that is not plain. *)
Lemma plain_free c s : plain_char c = false → plain s = true → free (is_char c) s = true.
Proof.
  intros Hc. apply free_impl. intros d Hd. apply bool_decide_eq_true in Hd. subst d. by rewrite Hc.
Qed.

Lemma fieldRe_clash field s : clash (field +:+ "=" +:+ dquote) s = true → fieldRe field s = None.
Proof. intros Hc. unfold fieldRe. by rewrite expect_clash. Qed.

Lemma fieldRe_here field s t :
  free (is_char (ascii_of_nat 34)) s = true → fieldRe field (field +:+ "=" +:+ dquote +:+ s +:+ dquote +:+ t) = Some s.
Proof.
  intros Hs. unfold fieldRe.
  replace (field +:+ "=" +:+ dquote +:+ s +:+ dquote +:+ t)
    with ((field +:+ "=" +:+ dquote) +:+ s +:+ String (ascii_of_nat 34) t) by (by rewrite <-!string_app_assoc).
  rewrite expect_app. cbn. by apply until_app.
Qed.

Lemma idRe_here v p t :
  hex4 v = Some (v, "") → hex4 p = Some (p, "") → idRe ("[" +:+ v +:+ ":" +:+ p +:+ "]" +:+ t) = Some (v, p).
Proof.
  intros Hv Hp. unfold idRe. rewrite expect_app. cbn [mbind option_bind]. rewrite hex4_app by done.
  cbn [mbind option_bind]. rewrite expect_app. cbn [mbind option_bind]. rewrite hex4_app by done.
  cbn [mbind option_bind]. by rewrite expect_app.
Qed.

Lemma idRe_clash s : clash "[" s = true → idRe s = None.
Proof. intros Hc. unfold idRe. by rewrite expect_clash. Qed.

Lemma plain_clashes c p s : plain_char c = false → plain s = true → clashes (String c p) s = true.
Proof. intros Hc Hs. by apply clashes_free, plain_free. Qed.

(** What the parser reads of what dfu-util prints. *)
Definition alt_of (l : Listed) : DfuAlt := mkDfuAlt (l_vid l +:+ ":" +:+ l_pid l) (l_path l) (l_name l).

(** Skip what comes before the match of a pattern that needs [p]. *)
Ltac skip_to p lem :=
  repeat rewrite (search_clashes _ p) by
    (first [apply lem | vm_compute; reflexivity | apply plain_clashes; [reflexivity|assumption]]).

Lemma parse_listed l : Listed_ok l → parse_alt (print_listed l) = alt_of l.
Proof.
  intros ([Hv Hvl] & [Hp Hpl] & Hplain & Hname & _).
  pose proof (hex4_plain _ Hv) as Hvp. pose proof (hex4_plain _ Hp) as Hpp.
  rewrite !Forall_cons in Hplain. destruct Hplain as (H1 & H2 & H3 & H4 & H5 & H6 & _).
  assert (Hpath : free (is_char (ascii_of_nat 34)) (l_path l) = true) by by apply plain_free.
  unfold parse_alt, alt_of, print_listed, quoted. f_equal.
  - change ("Found DFU: [" +:+ ?u) with ("Found DFU: " +:+ "[" +:+ u).
    change ("] ver=" +:+ ?u) with ("]" +:+ " ver=" +:+ u).
    rewrite (search_clashes _ "[") by (apply idRe_clash || done).
    rewrite (search_here _ _ _ (idRe_here _ _ _ Hv Hp)). by rewrite Hvl, Hpl.
  - change (", path=" +:+ ?u) with (", " +:+ "path" +:+ "=" +:+ u).
    skip_to ("path" +:+ "=" +:+ dquote) (fieldRe_clash "path").
    by rewrite (search_here _ _ _ (fieldRe_here _ _ _ Hpath)).
  - change (", name=" +:+ ?u) with (", " +:+ "name" +:+ "=" +:+ u).
    skip_to ("name" +:+ "=" +:+ dquote) (fieldRe_clash "name").
    by rewrite (search_here _ _ _ (fieldRe_here _ _ _ Hname)).
Qed.

(** A line of the output: of a device, or any other. *)
Inductive OutputLine := Device_line (l : Listed) | Other_line (s : string).

Definition print_line (o : OutputLine) : string :=
  match o with Device_line l => print_listed l | Other_line s => s end.

Definition line_ok (o : OutputLine) : Prop :=
  match o with
  | Device_line l => Listed_ok l
  | Other_line s => free (is_char "010") s = true ∧ contains "Found DFU:" s = false
  end.

Lemma print_line_free o : line_ok o → free (is_char "010") (print_line o) = true.
Proof.
  destruct o as [l|s]; [|by intros [? ?]].
  intros ([Hv _] & [Hp _] & Hplain & _ & Hfree).
  apply hex4_plain in Hv, Hp. rewrite !Forall_cons in Hplain. rewrite !Forall_cons in Hfree.
  destruct Hplain as (H1 & H2 & H3 & H4 & H5 & H6 & _). destruct Hfree as (H7 & H8 & _).
  unfold print_line, print_listed, quoted. rewrite !free_app.
  pose proof (plain_free "010") as Hf.
  by rewrite (Hf (l_vid l)), (Hf (l_pid l)), (Hf (l_ver l)), (Hf (l_devnum l)), (Hf (l_cfg l)),
    (Hf (l_intf l)), (Hf (l_path l)), (Hf (l_alt l)), H7, H8.
Qed.

(** The parser reads what dfu-util prints: of each device its identity, its port
    and the name of its target, in order, whatever else is in the output. *)
Theorem listing_parsed lines (Hlines : Forall line_ok lines) (Hne : lines ≠ []) :
  parseDfuUtilList (join (String "010" "") (print_line <$> lines)) =
    omap (λ o, match o with Device_line l => Some (alt_of l) | Other_line _ => None end) lines.
Proof.
  unfold parseDfuUtilList. rewrite split_join.
  2: by destruct lines.
  2: { apply Forall_fmap. eapply Forall_impl; [exact Hlines|]. apply print_line_free. }
  clear Hne. induction Hlines as [|o lines Ho Hlines IH]; [done|]. cbn [fmap list_fmap omap list_omap].
  destruct o as [l|s]; cbn [print_line].
  - rewrite filter_cons_True.
    + cbn [fmap list_fmap]. by rewrite parse_listed, IH.
    + unfold print_listed. change ("Found DFU: [" +:+ ?u) with ("" +:+ "Found DFU:" +:+ " [" +:+ u).
      by apply contains_app.
  - destruct Ho as [_ Ho]. by rewrite filter_cons_False by by rewrite Ho.
Qed.

(** A listing of two targets of one device. *)
Definition listed_ex (alt name : string) : Listed :=
  mkListed "2245" "27a0" "0100" "11" "1" "0" "1-1.3" alt name "UNKNOWN".

Lemma listing_parsed_witness :
  parseDfuUtilList (join (String "010" "")
    [("dfu-util 0.11")%string; print_listed (listed_ex "0" "fw_logs_cs0");
     print_listed (listed_ex "1" "recovery_cs0"); ""]) =
  [mkDfuAlt "2245:27a0" "1-1.3" "fw_logs_cs0"; mkDfuAlt "2245:27a0" "1-1.3" "recovery_cs0"].
Proof.
  refine (listing_parsed [Other_line "dfu-util 0.11"; Device_line (listed_ex "0" "fw_logs_cs0");
    Device_line (listed_ex "1" "recovery_cs0"); Other_line ""] _ _); [|discriminate].
  repeat constructor.
Defined.
