(* ===== verification/DfuRecovery.v ===== *)
(** * The USB DFU recovery of the HMC

    src/recovery_tool/usbdfu_recovery_tool/perform_dfu_recovery.cpp: the HMC is
    held in recovery by its straps, a bundle of boot images is sent to its boot
    ROM, then the flash image to the U-Boot that has come up, and the straps are
    given back.

    A function that fills a JSON object and answers a boolean is a function into
    [res members members]: [Throw] is false. The objects such functions are
    given are empty. The lines a session holds are passed along. Seconds and
    milliseconds are integers of any size: their products overflow beyond 24
    days. *)

From stdpp Require Import list strings gmap.
From Stdlib Require Import Ascii.
From S2P Require Import Prelude Json Text Trace Registry DfuStatus.

#[local] Open Scope string_scope.

(** ** Constants *)

(** [recovery_tool/common/message_registry.hpp:676-687 USBDFURecoveryErrorCode] *)
Inductive USBDFURecoveryErrorCode :=
| GPIOAssertFailed | BundleSendFailed | FirmwareFlashFailed | GPIODeassertFailed
| DfuEnumerationFailed | InvalidConfiguration | PackageIncomplete | RecoveryUBootDfuTimeout
| RecoveryVerificationFailed.

(** [recovery_tool/usbdfu_recovery_tool/perform_dfu_recovery.cpp:29-32 code] *)
Definition code (c : USBDFURecoveryErrorCode) : Z :=
  match c with
  | GPIOAssertFailed => 1 | BundleSendFailed => 2 | FirmwareFlashFailed => 3
  | GPIODeassertFailed => 4 | DfuEnumerationFailed => 5 | InvalidConfiguration => 6
  | PackageIncomplete => 7 | RecoveryUBootDfuTimeout => 8 | RecoveryVerificationFailed => 9
  end.

(** [recovery_tool/usbdfu_recovery_tool/perform_dfu_recovery.hpp:29-41 bootRomDfuVendorId]
    and the other names. *)
Definition bootRomDfuVendorId : string := "2245".
Definition bootRomDfuProductId : string := "2700".
Definition defaultUsbSysfsRoot : string := "/sys/bus/usb/devices".
Definition defaultDfuAltSetting : string := "recovery_cs0".
Definition bothChipSelectsAlt : string := "recovery_both".

(** [recovery_tool/usbdfu_recovery_tool/perform_dfu_recovery.hpp:43-56 parseActiveLowPolarity] *)
Definition parseActiveLowPolarity (value : string) : option bool :=
  if decide (value = "ActiveHigh") then Some false else
  if decide (value = "ActiveLow") then Some true else None.

(** [recovery_tool/usbdfu_recovery_tool/perform_dfu_recovery.hpp:58-66 gpioActive] *)
Definition gpioActive (activeLow : bool) : Z := if activeLow then 0 else 1.
Definition gpioInactive (activeLow : bool) : Z := if activeLow then 1 else 0.

(** [recovery_tool/usbdfu_recovery_tool/perform_dfu_recovery.hpp:74-74 defaultFlashLengthBytes] *)
Definition defaultFlashLengthBytes : Z := 0x03F30000.

(** [recovery_tool/usbdfu_recovery_tool/perform_dfu_recovery.hpp:81-110 timing] *)
Definition strapSettleSecs : Z := 1.
Definition resetPulseSecs : Z := 1.

(** ** Configuration *)

(** [recovery_tool/usbdfu_recovery_tool/perform_dfu_recovery.hpp:173-229 Config] *)
Record Config := mkConfig {
  recoveryGpioName : string;
  resetGpioName : string;
  spiMuxGpioName : string;
  recoveryActiveLow : bool;
  resetActiveLow : bool;
  dfuUtilPath : string;
  dfuAltSetting : string;
  flashLengthBytes : Z;
  detachAfterFlash : bool;
  usbSysfsRoot : string;
  dfuVendorId : string;
  dfuProductId : string;
  bundleStepDelaySecs : Z;
  bundleStepTimeoutSecs : Z;
  dfuEnumerationTimeoutSecs : Z;
  dfuEnumerationPollMs : Z;
  uBootDfuTimeoutSecs : Z;
  uBootDfuPollSecs : Z;
  flashTimeoutSecs : Z;
  postFlashSettleSecs : Z;
  postFlashPollSecs : Z;
  functionalUsbId : option UsbId;
  usbPortFilter : string;
  forceRecovery : bool;
  verifyAfterRecovery : bool;
  postRecoveryVerifyTimeoutSecs : Z;
  postRecoveryVerifyPollMs : Z;
  dfuListTimeoutSecs : Z;
}.

(** [recovery_tool/usbdfu_recovery_tool/perform_dfu_recovery.hpp:81-110 Config_default]
    The values of the initialisers. *)
Definition Config_default : Config :=
  mkConfig "" "" "" false true "" defaultDfuAltSetting defaultFlashLengthBytes true
    defaultUsbSysfsRoot bootRomDfuVendorId bootRomDfuProductId
    10 120 15 500 180 5 300 1200 10 None "" false true 60 1000 30.

(** [recovery_tool/usbdfu_recovery_tool/perform_dfu_recovery.hpp:231-239 Outcome] *)
Inductive Outcome := Recovered | Skipped | Failed.

#[export] Instance Outcome_eq_dec : EqDecision Outcome.
Proof. solve_decision. Defined.

(** [recovery_tool/usbdfu_recovery_tool/perform_dfu_recovery.hpp:241-246 DfuTransfer] *)
Inductive DfuTransfer := BundleStage | FirmwareImage.

(** [recovery_tool/usbdfu_recovery_tool/perform_dfu_recovery.hpp:115-119 GpioSession]
    The names of the lines that are held. *)
Record GpioSession := mkGpioSession {
  spiMuxLine : option string;
  recoveryLine : option string;
}.

Definition no_lines : GpioSession := mkGpioSession None None.

(** ** The JSON object of a result *)

(** [recovery_tool/usbdfu_recovery_tool/perform_dfu_recovery.cpp:45-52 setFailure] *)
Definition setFailure_ (out : members) (error : string) : members :=
  members_set "Error" (JString error) (members_set "Status" (JString "Failed") out).

Definition set_code (out : members) (errorCode : USBDFURecoveryErrorCode) : members :=
  members_set "ErrorCode" (JUnsigned (code errorCode)) out.

(** [recovery_tool/usbdfu_recovery_tool/perform_dfu_recovery.cpp:36-43 setFailure] *)
Definition setFailure (out : members) (error : string) (errorCode : USBDFURecoveryErrorCode) : members :=
  set_code (setFailure_ out error) errorCode.

Definition successful (out : members) : members := members_set "Status" (JString "Successful") out.

(** [out["Steps"][step] = result] *)
Definition set_step (step result : string) (out : members) : members :=
  let steps := match members_find out "Steps" with Some (JObject m) => m | _ => [] end in
  members_set "Steps" (JObject (members_set step (JString result) steps)) out.

Definition value_or (m : members) (key dflt : string) : string :=
  default dflt (value_string m key dflt).

(** [recovery_tool/usbdfu_recovery_tool/perform_dfu_recovery.cpp:54-64 failStep]
    A step that fails has set the members that are read, to values of their
    types. *)
Definition failStep (out : members) (step : string) (stepResult : members) (fallback : string)
    (fallbackCode : USBDFURecoveryErrorCode) : members :=
  let out := setFailure_ (set_step step "Failed" out) (value_or stepResult "Error" fallback) in
  members_set "ErrorCode"
    match members_find stepResult "ErrorCode" with
    | Some v => v
    | None => JUnsigned (code fallbackCode)
    end out.

Section Recovery.
Context `{DfuEnv} (cfg : Config).

(** ** The lines *)

Definition release_line (line : option string) : M () :=
  match line with Some name => call (ReleaseLine name) | None => mret () end.

(** [recovery_tool/usbdfu_recovery_tool/perform_dfu_recovery.hpp:131-153 release]
    The handles are dropped, whether or not a release throws. *)
Definition release (session : GpioSession) : M GpioSession :=
  _ ← release_line (recoveryLine session);
  _ ← release_line (spiMuxLine session);
  mret no_lines.

(** [recovery_tool/usbdfu_recovery_tool/perform_dfu_recovery.cpp:138-164 pulseReset]
    The line is given back when its handle ends. *)
Definition pulseReset : M bool :=
  line ← requestOutputLine (resetGpioName cfg) (gpioActive (resetActiveLow cfg));
  match line with
  | Throw _ => mret false
  | Ok _ =>
      _ ← call (SleepFor (resetPulseSecs * 1000));
      released ← call (SetValue (resetGpioName cfg) (gpioInactive (resetActiveLow cfg)));
      _ ← call (DropLine (resetGpioName cfg));
      mret (is_ok released)
  end.

(** [recovery_tool/usbdfu_recovery_tool/perform_dfu_recovery.cpp:262-304 setRecoveryStrap] *)
Definition setRecoveryStrap (recoveryValue : bool) (session : GpioSession) (pulseResetAfter : bool)
    : M (res members members * GpioSession) :=
  session ← release session;
  mux ← requestOutputLine (spiMuxGpioName cfg) 0;
  match mux with
  | Throw err => mret (Throw (setFailure_ [] ("Failed to set SPI MUX GPIO: " +:+ err)), session)
  | Ok _ =>
      let session := mkGpioSession (Some (spiMuxGpioName cfg)) None in
      let recoveryLevel := if recoveryValue then gpioActive (recoveryActiveLow cfg)
                           else gpioInactive (recoveryActiveLow cfg) in
      strap ← requestOutputLine (recoveryGpioName cfg) recoveryLevel;
      match strap with
      | Throw err =>
          session ← release session;
          mret (Throw (setFailure_ [] ((if recoveryValue then "Failed to assert" else "Failed to deassert")
                                       +:+ " recovery GPIO: " +:+ err)), session)
      | Ok _ =>
          let session := mkGpioSession (Some (spiMuxGpioName cfg)) (Some (recoveryGpioName cfg)) in
          _ ← call (SleepFor (strapSettleSecs * 1000));
          pulsed ← (if pulseResetAfter then pulseReset else mret true);
          if negb pulsed then
            session ← release session;
            mret (Throw (setFailure_ [] ("Failed to pulse reset GPIO: " +:+ resetGpioName cfg)), session)
          else mret (Ok (successful []), session)
      end
  end.

(** ** Waiting *)

Definition dfu_device : M (option Device) :=
  findDevice (usbSysfsRoot cfg) (dfuVendorId cfg) (dfuProductId cfg) (usbPortFilter cfg).

(** [std::to_string] of an int. *)
Definition int_to_string (v : Z) : string :=
  if (v <? 0)%Z then "-" +:+ to_string (- v) else to_string v.

(** [recovery_tool/usbdfu_recovery_tool/perform_dfu_recovery.cpp:306-335 waitForDfuEnumeration] *)
Definition waitForDfuEnumeration (out : members) : M (res members members) :=
  enumerated ← pollUntil (dfuEnumerationTimeoutSecs cfg * 1000) (dfuEnumerationPollMs cfg) dfu_device;
  mret match enumerated with
       | Some _ => Ok out
       | None =>
           Throw (setFailure out ("HMC did not enumerate as USB DFU device " +:+ dfuVendorId cfg +:+ ":" +:+
             dfuProductId cfg +:+ " within " +:+ int_to_string (dfuEnumerationTimeoutSecs cfg) +:+ "s")
             DfuEnumerationFailed)
       end.

(** [recovery_tool/usbdfu_recovery_tool/perform_dfu_recovery.cpp:337-345 isProgrammingComplete] *)
Definition isProgrammingComplete : M (option ()) := mret None.

(** [recovery_tool/usbdfu_recovery_tool/perform_dfu_recovery.cpp:347-369 waitForProgrammingComplete] *)
Definition waitForProgrammingComplete : M () :=
  let chipSelects := if decide (dfuAltSetting cfg = bothChipSelectsAlt) then 2%Z else 1%Z in
  let settleSecs := (Z.max 0 (postFlashSettleSecs cfg) * chipSelects)%Z in
  let pollSecs := Z.max 1 (postFlashPollSecs cfg) in
  _ ← pollUntil (settleSecs * 1000) (pollSecs * 1000) isProgrammingComplete;
  mret ().

(** [recovery_tool/usbdfu_recovery_tool/perform_dfu_recovery.cpp:595-620 waitForRecoveryExit] *)
Definition waitForRecoveryExit : M (res members members) :=
  gone ← pollUntil (postRecoveryVerifyTimeoutSecs cfg * 1000) (postRecoveryVerifyPollMs cfg)
           (device ← dfu_device;
            mret match device with Some _ => None | None => Some () end);
  mret match gone with
       | Some _ => Ok (members_set "DfuDeviceGone" (JBool true) [])
       | None =>
           Throw (setFailure (members_set "DfuDeviceGone" (JBool false) [])
             ("HMC still enumerates as USB DFU device " +:+ dfuVendorId cfg +:+ ":" +:+
              dfuProductId cfg +:+ " " +:+ int_to_string (postRecoveryVerifyTimeoutSecs cfg) +:+
              "s after recovery") RecoveryVerificationFailed)
       end.

(** [recovery_tool/usbdfu_recovery_tool/perform_dfu_recovery.cpp:622-671 waitForRecoveryUBoot] *)
Definition waitForRecoveryUBoot : M (res members members) :=
  if (uBootDfuTimeoutSecs cfg <=? 0)%Z then mret (Ok []) else
  ready ← pollUntil (uBootDfuTimeoutSecs cfg * 1000) (uBootDfuPollSecs cfg * 1000)
    (listing ← capture (list_command (dfuUtilPath cfg) (usbPortFilter cfg)) (dfuListTimeoutSecs cfg);
     mret match listing with
          | None => None
          | Some (output, _) =>
              let names := alt_name <$> parseDfuUtilList output in
              if existsb isRecoveryAlt names then Some names else None
          end);
  mret match ready with
       | Some names => Ok (members_set "DfuAltSettings" (JArray (JString <$> names)) [])
       | None =>
           Throw (setFailure [] ("Recovery U-Boot did not expose the recovery_* DFU targets within " +:+
             int_to_string (uBootDfuTimeoutSecs cfg) +:+ "s") RecoveryUBootDfuTimeout)
       end.

(** ** Entering and leaving recovery *)

(** [recovery_tool/usbdfu_recovery_tool/perform_dfu_recovery.cpp:371-390 assertRecoveryMode] *)
Definition assertRecoveryMode (session : GpioSession) : M (res members members * GpioSession) :=
  '(strap, session) ← setRecoveryStrap true session true;
  match strap with
  | Throw out => mret (Throw (set_code out GPIOAssertFailed), session)
  | Ok out =>
      enumerated ← waitForDfuEnumeration out;
      mret (match enumerated with Throw out => Throw out | Ok out => Ok (successful out) end, session)
  end.

(** [recovery_tool/usbdfu_recovery_tool/perform_dfu_recovery.cpp:392-410 deassertRecoveryMode] *)
Definition deassertRecoveryMode (session : GpioSession) : M (res members members * GpioSession) :=
  '(strap, session) ← setRecoveryStrap false session true;
  match strap with
  | Throw out => mret (Throw (set_code out GPIODeassertFailed), session)
  | Ok out =>
      session ← release session;
      mret (Ok (successful out), session)
  end.

(** ** Transfers *)

(** [recovery_tool/usbdfu_recovery_tool/perform_dfu_recovery.cpp:190-208 runDfuUtil]
    The last five lines that are not empty. *)
Definition output_tail (output : string) : string :=
  let lines := base.filter (λ line, line ≠ "") (split "010" output) in
  join " | " (drop (length lines - 5) lines).

(** [recovery_tool/usbdfu_recovery_tool/perform_dfu_recovery.cpp:166-216 runDfuUtil] *)
Definition runDfuUtil (dfuUtilArgs : list string) (timeoutSecs : Z) : M (res members ()) :=
  let cmdLog := join " " (dfuUtilPath cfg :: dfuUtilArgs) in
  output ← capture (dfuUtilPath cfg :: dfuUtilArgs) timeoutSecs;
  let exitCode := match output with Some (_, exitCode) => exitCode | None => (-1)%Z end in
  if bool_decide (is_Some output) && (exitCode =? 0)%Z then mret (Ok ()) else
  let tail := match output with Some (output, _) => output_tail output | None => "" end in
  let out := members_set "Error" (JString ("dfu-util failed: " +:+ cmdLog)) [] in
  let out := members_set "DfuUtilExitCode" (JInteger exitCode) out in
  mret (Throw (members_set "DfuUtilOutput" (JString tail) out)).

(** [recovery_tool/usbdfu_recovery_tool/perform_dfu_recovery.cpp:218-233 transferParams]
    Label, arguments and timeout. *)
Definition transferParams (transfer : DfuTransfer) : string * list string * Z :=
  match transfer with
  | FirmwareImage => ("Firmware image", ["-a"; dfuAltSetting cfg], flashTimeoutSecs cfg)
  | BundleStage => ("Bundle binary", [], bundleStepTimeoutSecs cfg)
  end.

(** [recovery_tool/usbdfu_recovery_tool/perform_dfu_recovery.cpp:235-260 runDfuDownload] *)
Definition runDfuDownload (transfer : DfuTransfer) (filePath : string) : M (res members ()) :=
  let '(label, args, timeoutSecs) := transferParams transfer in
  result ← runDfuUtil (args ++ ["-D"; filePath]) timeoutSecs;
  mret match result with
       | Ok _ => Ok ()
       | Throw dfuOut =>
           let out := setFailure_ [] (value_or dfuOut "Error" ("dfu-util download failed for " +:+ label)) in
           Throw match members_find dfuOut "DfuUtilOutput", members_find dfuOut "DfuUtilExitCode" with
                 | Some output, Some exitCode =>
                     members_set "DfuUtilExitCode" exitCode (members_set "DfuUtilOutput" output out)
                 | _, _ => out
                 end
       end.

(** [recovery_tool/usbdfu_recovery_tool/perform_dfu_recovery.cpp:420-446 runPreliminaryBundle]
    The loop, from stage [i] on. *)
Fixpoint send_bundle (i : Z) (bundle : list string) : M (res members members) :=
  match bundle with
  | [] => mret (Ok (successful []))
  | file :: bundle =>
      result ← runDfuDownload BundleStage file;
      match result with
      | Throw s =>
          let out := members_set "Status" (JString "Failed") [] in
          let out := members_set "FailedStep" (JInteger (i + 1)) out in
          let out := members_set "FailedBinary" (JString (path_filename file)) out in
          let out := members_set "Error" (JString (value_or s "Error" "dfu-util download failed")) out in
          mret (Throw (set_code out BundleSendFailed))
      | Ok _ =>
          _ ← (if decide (bundle = []) then mret ()
               else call (SleepFor (bundleStepDelaySecs cfg * 1000)));
          send_bundle (i + 1) bundle
      end
  end.

(** [recovery_tool/usbdfu_recovery_tool/perform_dfu_recovery.cpp:412-447 runPreliminaryBundle] *)
Definition runPreliminaryBundle (bundle : list string) : M (res members members) := send_bundle 0 bundle.

(** [recovery_tool/usbdfu_recovery_tool/perform_dfu_recovery.hpp:248-267 StagedImage] *)
Record StagedImage := mkStagedImage { staged_path : string; sizeBytes : Z; temporary : bool }.

(** [recovery_tool/usbdfu_recovery_tool/perform_dfu_recovery.cpp:449-501 prepareFlashImage] *)
Definition prepareFlashImage (imagePath : string) (lengthBytes : Z) : M (res members () * StagedImage) :=
  size ← call (FileSize imagePath);
  match size with
  | Throw message =>
      mret (Throw (setFailure_ [] ("Cannot stat firmware image " +:+ imagePath +:+ ": " +:+ message)),
            mkStagedImage "" 0 false)
  | Ok size =>
      if (lengthBytes =? 0)%Z || (size <=? lengthBytes)%Z
      then mret (Ok (), mkStagedImage imagePath size false) else
      let tmp := imagePath +:+ ".dfu" in
      copied ← call (CopyFile imagePath tmp);
      match copied with
      | Throw message =>
          mret (Throw (setFailure_ [] ("Failed to stage truncated firmware image " +:+ tmp +:+ ": " +:+ message)),
                mkStagedImage imagePath size false)
      | Ok _ =>
          resized ← call (ResizeFile tmp lengthBytes);
          mret match resized with
               | Throw message =>
                   (Throw (setFailure_ [] ("Failed to truncate staged firmware image " +:+ tmp +:+ ": " +:+ message)),
                    mkStagedImage tmp size true)
               | Ok _ => (Ok (), mkStagedImage tmp lengthBytes true)
               end
      end
  end.

(** [recovery_tool/usbdfu_recovery_tool/perform_dfu_recovery.hpp:259-266 StagedImage_destroy] *)
Definition StagedImage_destroy (staged : StagedImage) : M () :=
  if temporary staged then call (RemoveFile (staged_path staged)) else mret ().

(** [recovery_tool/usbdfu_recovery_tool/perform_dfu_recovery.cpp:520-553 flashFirmware]
    Once the image is staged. *)
Definition send_image (staged : StagedImage) : M (res members members) :=
  sent ← runDfuDownload FirmwareImage (staged_path staged);
  match sent with
  | Throw s =>
      mret (Throw (setFailure [] (value_or s "Error" "dfu-util firmware flash failed") FirmwareFlashFailed))
  | Ok _ =>
      let out := members_set "DfuAlt" (JString (dfuAltSetting cfg)) (successful []) in
      let out := members_set "FlashedBytes" (JUnsigned (sizeBytes staged)) out in
      if detachAfterFlash cfg then
        detached ← runDfuUtil ["-a"; dfuAltSetting cfg; "-e"] (dfuListTimeoutSecs cfg);
        mret match detached with
             | Ok _ => Ok out
             | Throw detach =>
                 Throw (setFailure out (value_or detach "Error"
                   "Failed to detach the DFU session; recovery U-Boot will not program SPI")
                   FirmwareFlashFailed)
             end
      else mret (Ok out)
  end.

(** [recovery_tool/usbdfu_recovery_tool/perform_dfu_recovery.cpp:503-554 flashFirmware] *)
Definition flashFirmware (imagePath : string) : M (res members members) :=
  '(prepared, staged) ← prepareFlashImage imagePath (flashLengthBytes cfg);
  result ←
    match prepared with
    | Throw out => mret (Throw (set_code out FirmwareFlashFailed))
    | Ok _ => send_image staged
    end;
  _ ← StagedImage_destroy staged;
  mret result.

(** ** The recovery *)

(** [recovery_tool/usbdfu_recovery_tool/perform_dfu_recovery.cpp:571-579 preflightChecks]
    The first file of the bundle that is not there. *)
Fixpoint missing_binary (bundle : list string) : M (option string) :=
  match bundle with
  | [] => mret None
  | binPath :: bundle =>
      regular ← call (IsRegularFile binPath);
      if negb regular then mret (Some binPath) else missing_binary bundle
  end.

(** [recovery_tool/usbdfu_recovery_tool/perform_dfu_recovery.cpp:556-581 preflightChecks] *)
Definition preflightChecks (fwspiImage : string) (bundle : list string) (out : members)
    : M (res members members) :=
  regular ← call (IsRegularFile fwspiImage);
  if negb regular then
    mret (Throw (setFailure out ("Firmware image not found: " +:+ fwspiImage) FirmwareFlashFailed)) else
  if decide (bundle = []) then
    mret (Throw (setFailure out "Preliminary bundle is empty" InvalidConfiguration)) else
  missing ← missing_binary bundle;
  mret match missing with
       | Some binPath =>
           Throw (setFailure out ("Bundle binary not found: " +:+ binPath) BundleSendFailed)
       | None => Ok out
       end.

(** [recovery_tool/usbdfu_recovery_tool/perform_dfu_recovery.cpp:583-593 probeStatus] *)
Definition probeStatus : M RecoveryStatus :=
  getRecoveryStatus (mkStatusConfig (usbSysfsRoot cfg) (mkUsbId (dfuVendorId cfg) (dfuProductId cfg))
    (functionalUsbId cfg) (usbPortFilter cfg) (dfuUtilPath cfg) (dfuListTimeoutSecs cfg)).

Definition set_outcome (outcome : string) (out : members) : members :=
  members_set "Outcome" (JString outcome) out.

(** [recovery_tool/usbdfu_recovery_tool/perform_dfu_recovery.cpp:680-686 fail] *)
Definition fail (out : members) (step : string) (s : members) (fallback : string)
    (fallbackCode : USBDFURecoveryErrorCode) : members :=
  set_outcome "Failed" (failStep out step s fallback fallbackCode).

(** [recovery_tool/usbdfu_recovery_tool/perform_dfu_recovery.cpp:722-775 performRecovery]
    Holding the straps, with a reset pulse unless the HMC is in DFU already. *)
Definition enter_recovery (alreadyInRecovery : bool) (out : members) (session : GpioSession)
    : M (res members members * GpioSession) :=
  if alreadyInRecovery then
    '(strap, session) ← setRecoveryStrap true session false;
    mret (match strap with
          | Throw s => Throw (fail out "AssertRecovery" s "setRecoveryStrap failed" GPIOAssertFailed)
          | Ok _ => Ok (set_step "DfuEnumeration" "Skipped" (set_step "ResetPulse1" "Skipped"
                          (set_step "AssertRecovery" "Successful" out)))
          end, session)
  else
    '(asserted, session) ← assertRecoveryMode session;
    match asserted with
    | Throw s =>
        let outcome := fail out "AssertRecovery" s "assertRecoveryMode failed" GPIOAssertFailed in
        session ←
          match members_find s "ErrorCode" with
          | Some (JUnsigned c) =>
              if (c =? code DfuEnumerationFailed)%Z then
                '(_, session) ← deassertRecoveryMode session; mret session
              else mret session
          | _ => mret session
          end;
        mret (Throw outcome, session)
    | Ok _ =>
        mret (Ok (set_step "DfuEnumeration" "Successful" (set_step "ResetPulse1" "Successful"
                    (set_step "AssertRecovery" "Successful" out))), session)
    end.

(** A step that fails once the straps are held: they are given back. *)
Definition abandon (outcome : members) (session : GpioSession) : M (res members members * GpioSession) :=
  '(_, session) ← deassertRecoveryMode session;
  mret (Throw outcome, session).

(** [recovery_tool/usbdfu_recovery_tool/perform_dfu_recovery.cpp:777-808 performRecovery]
    The bundle, unless recovery U-Boot is up. *)
Definition boot_recovery (uBootReady : bool) (bundle : list string) (out : members)
    (session : GpioSession) : M (res members members * GpioSession) :=
  if uBootReady then mret (Ok (set_step "PreliminaryBundle" "Skipped" out), session) else
  sent ← runPreliminaryBundle bundle;
  match sent with
  | Throw s =>
      abandon (fail out "PreliminaryBundle" s "Preliminary bundle failed" BundleSendFailed) session
  | Ok _ =>
      let out := set_step "PreliminaryBundle" "Successful" out in
      ready ← waitForRecoveryUBoot;
      match ready with
      | Throw w =>
          abandon (fail out "RecoveryUBoot" w "recovery U-Boot DFU targets not found"
                     RecoveryUBootDfuTimeout) session
      | Ok _ => mret (Ok (set_step "RecoveryUBoot" "Successful" out), session)
      end
  end.

(** [recovery_tool/usbdfu_recovery_tool/perform_dfu_recovery.cpp:810-824 performRecovery] *)
Definition flash_image (fwspiImage : string) (out : members) (session : GpioSession)
    : M (res members members * GpioSession) :=
  flashed ← flashFirmware fwspiImage;
  match flashed with
  | Throw s => abandon (fail out "FlashFirmware" s "Firmware flash failed" FirmwareFlashFailed) session
  | Ok s =>
      let out := set_step "FlashFirmware" "Successful" out in
      let out := members_set "DfuAlt" (JString (value_or s "DfuAlt" (dfuAltSetting cfg))) out in
      mret (Ok (members_set "FlashedBytes" (default (JUnsigned 0) (members_find s "FlashedBytes")) out),
            session)
  end.

(** [recovery_tool/usbdfu_recovery_tool/perform_dfu_recovery.cpp:829-858 performRecovery]
    Back to a normal boot, and out of DFU. *)
Definition leave_recovery (out : members) (session : GpioSession)
    : M (res members members * GpioSession) :=
  _ ← (if detachAfterFlash cfg then waitForProgrammingComplete else mret ());
  '(deasserted, session) ← deassertRecoveryMode session;
  match deasserted with
  | Throw s =>
      mret (Throw (fail out "DeassertRecovery" s "deassertRecoveryMode failed" GPIODeassertFailed), session)
  | Ok _ =>
      let out := set_step "ResetPulse2" "Successful" (set_step "DeassertRecovery" "Successful" out) in
      exited ← (if verifyAfterRecovery cfg then waitForRecoveryExit else mret (Ok []));
      mret (match exited with
            | Throw s => Throw (fail out "Verify" s "HMC did not leave DFU mode" RecoveryVerificationFailed)
            | Ok _ =>
                let out := if verifyAfterRecovery cfg then set_step "Verify" "Successful" out else out in
                Ok (set_outcome "Recovered" (successful out))
            end, session)
  end.

(** A step, unless an earlier one has failed. *)
Definition and_then (f : members → GpioSession → M (res members members * GpioSession))
    (r : res members members * GpioSession) : M (res members members * GpioSession) :=
  match r with
  | (Throw out, session) => mret (Throw out, session)
  | (Ok out, session) => f out session
  end.

(** [recovery_tool/usbdfu_recovery_tool/perform_dfu_recovery.cpp:673-859 performRecovery] *)
Definition performRecovery (fwspiImage : string) (bundle : list string)
    (probed : option RecoveryStatus) (session : GpioSession) : M (Outcome * members * GpioSession) :=
  preflight ← preflightChecks fwspiImage bundle [("Steps", JNull)];
  match preflight with
  | Throw out => mret (Failed, set_outcome "Failed" (set_step "Preflight" "Failed" out), session)
  | Ok out =>
      let out := set_step "Preflight" "Successful" out in
      status ← match probed with Some status => mret status | None => probeStatus end;
      let out := members_set "StatusCheck" (status_toJson status) out in
      let out := set_step "StatusCheck" (if decide (error status = "") then "Successful" else "Inconclusive") out in
      if negb (forceRecovery cfg) && bool_decide (state status = NotInRecovery) then
        mret (Skipped, set_outcome "Skipped" (members_set "Status" (JString "Skipped") out), session)
      else
      let alreadyInRecovery := negb (forceRecovery cfg) && bool_decide (state status = InRecovery) in
      let uBootReady := alreadyInRecovery && bool_decide (stage status = RecoveryUBoot) in
      r ← enter_recovery alreadyInRecovery out session;
      r ← and_then (boot_recovery uBootReady bundle) r;
      r ← and_then (flash_image fwspiImage) r;
      r ← and_then leave_recovery r;
      mret match r with
           | (Ok out, session) => (Recovered, out, session)
           | (Throw out, session) => (Failed, out, session)
           end
  end.
End Recovery.
