(* ===== verification/DfuLines.v ===== *)
(** * The lines a USB DFU recovery holds

    A recovery of src/recovery_tool/usbdfu_recovery_tool gives back every GPIO
    line it requests, and transfers only while the straps are held. The calls
    that only look, and the functions that make no other, are shared with the
    files that follow. *)

From stdpp Require Import list strings gmap.
From Stdlib Require Import Ascii.
From S2P Require Import Prelude Json Text Trace Registry DfuStatus DfuRecovery.

#[local] Open Scope string_scope.

(** ** The lines

    A line is requested before it is driven and given back once; dfu-util
    transfers only while the HMC owns its flash and its strap is asserted, and
    the reset is driven only while both straps are. *)

Abbreviation Gpio := (gmap string (option Z)).

(** A command that only lists. *)
Definition is_listing (argv : list string) : bool := bool_decide (argv !! 1%nat = Some "-l").

(** Calls that only look. *)
Definition watching (c : Call) : Prop :=
  match c with
  | Now | SleepFor _ | ListDirectory _ | ReadLine _ | IsRegularFile _ => True
  | RunProcess argv _ => is_listing argv = true
  | _ => False
  end.

(** Calls that concern no line, and no log. *)
Definition lineless (c : Call) : Prop :=
  match c with
  | FindLine _ | RequestLine _ | SetValue _ _ | ReleaseLine _ | DropLine _ | CreateEntry _ => False
  | _ => True
  end.

Lemma watching_lineless c : watching c → lineless c.
Proof. by destruct c. Qed.

Section Watching.
Context `{DfuEnv}.

Lemma capture_emits (P : Call → Prop) argv timeoutSecs :
  P (RunProcess argv timeoutSecs) → emits P (capture argv timeoutSecs).
Proof. intros HP. apply emits_bind; [emit|intros r; apply emits_ret]. Qed.

Lemma readAttribute_watching attr : emits watching (readAttribute attr).
Proof. apply emits_bind; [emit|intros r; apply emits_ret]. Qed.

Lemma findDevice_watching root vid pid portFilter : emits watching (findDevice root vid pid portFilter).
Proof.
  apply emits_bind; [emit|]. intros entries.
  induction (entries.*1) as [|name names IH]; [apply emits_ret|]. cbn [find_among].
  case_decide; [done|]. apply emits_bind; [apply readAttribute_watching|]. intros v.
  case_decide; [done|]. apply emits_bind; [apply readAttribute_watching|]. intros p.
  case_decide; [apply emits_ret|done].
Qed.

Lemma poll_from_emits {A} (P : Call → Prop) fuel timeout interval deadline elapsed (ready : M (option A)) :
  P Now → (∀ ms, P (SleepFor ms)) → emits P ready →
  emits P (poll_from fuel timeout interval deadline elapsed ready).
Proof.
  intros HNow HSleep Hready. revert elapsed.
  induction fuel as [|fuel IH]; intros elapsed; cbn [poll_from];
    (apply emits_bind; [done|]; intros [a|]; [apply emits_ret|]; case_match; [apply emits_ret|];
     apply emits_bind; [emit|]; intros now'; case_match; [apply emits_ret|];
     cbv zeta; apply emits_bind; [emit|]; intros []).
  - apply emits_ret.
  - apply IH.
Qed.

Lemma pollUntil_emits {A} (P : Call → Prop) timeout interval (ready : M (option A)) :
  P Now → (∀ ms, P (SleepFor ms)) → emits P ready → emits P (pollUntil timeout interval ready).
Proof.
  intros HNow HSleep Hready. apply emits_bind; [emit|]. intros now. by apply poll_from_emits.
Qed.

Lemma list_command_listing util port : is_listing (list_command util port) = true.
Proof. done. Qed.

Lemma getRecoveryStatus_watching sc : emits watching (getRecoveryStatus sc).
Proof.
  apply emits_bind; [apply findDevice_watching|]. intros bootRom.
  apply emits_bind; [destruct (sc_functionalId sc); [apply findDevice_watching|apply emits_ret]|].
  intros functional. apply emits_bind; [by apply capture_emits|]. intros out. apply emits_ret.
Qed.

Lemma missing_binary_watching bundle : emits watching (missing_binary bundle).
Proof.
  induction bundle as [|file bundle IH]; [apply emits_ret|]. cbn [missing_binary].
  apply emits_bind; [emit|]. intros regular.
  destruct (negb regular); [apply emits_ret|done].
Qed.

Lemma preflight_watching image bundle out : emits watching (preflightChecks image bundle out).
Proof.
  apply emits_bind; [emit|]. intros regular.
  destruct (negb regular); [apply emits_ret|]. case_decide; [apply emits_ret|].
  apply emits_bind; [apply missing_binary_watching|]. intros missing. apply emits_ret.
Qed.

Context (cfg : Config).

Lemma waitForDfuEnumeration_watching out : emits watching (waitForDfuEnumeration cfg out).
Proof.
  apply emits_bind; [apply pollUntil_emits; [done|done|apply findDevice_watching]|].
  intros r. apply emits_ret.
Qed.

Lemma waitForProgrammingComplete_watching : emits watching (waitForProgrammingComplete cfg).
Proof.
  apply emits_bind; [apply pollUntil_emits; [done|done|apply emits_ret]|]. intros r. apply emits_ret.
Qed.

Lemma waitForRecoveryExit_watching : emits watching (waitForRecoveryExit cfg).
Proof.
  apply emits_bind; [apply pollUntil_emits; [done|done|]|intros r; apply emits_ret].
  apply emits_bind; [apply findDevice_watching|intros d; apply emits_ret].
Qed.

Lemma waitForRecoveryUBoot_watching : emits watching (waitForRecoveryUBoot cfg).
Proof.
  unfold waitForRecoveryUBoot. case_match; [apply emits_ret|].
  apply emits_bind; [apply pollUntil_emits; [done|done|]|intros r; apply emits_ret].
  apply emits_bind; [by apply capture_emits|intros l; apply emits_ret].
Qed.

Lemma runDfuUtil_lineless args timeoutSecs : emits lineless (runDfuUtil cfg args timeoutSecs).
Proof.
  apply emits_bind; [by apply capture_emits|]. intros out. cbv zeta.
  destruct (_ && _); apply emits_ret.
Qed.

Lemma runDfuDownload_lineless transfer file : emits lineless (runDfuDownload cfg transfer file).
Proof.
  unfold runDfuDownload. destruct (transferParams cfg transfer) as [[label args] timeoutSecs].
  apply emits_bind; [apply runDfuUtil_lineless|intros r; apply emits_ret].
Qed.

Lemma bundle_lineless i bundle : emits lineless (send_bundle cfg i bundle).
Proof.
  revert i. induction bundle as [|file bundle IH]; intros i; [apply emits_ret|]. cbn [send_bundle].
  apply emits_bind; [apply runDfuDownload_lineless|]. intros [r|s]; [|apply emits_ret].
  apply emits_bind; [|intros []; apply IH].
  case_decide; [apply emits_ret|emit].
Qed.

Lemma flash_lineless image : emits lineless (flashFirmware cfg image).
Proof.
  unfold flashFirmware, prepareFlashImage. apply emits_bind.
  - apply emits_bind; [emit|].
    intros [size|what]; [|apply emits_ret]. destruct (_ || _); [apply emits_ret|]. cbv zeta.
    apply emits_bind; [emit|].
    intros [r|what]; [|apply emits_ret].
    apply emits_bind; [emit|].
    intros [r'|what]; apply emits_ret.
  - intros [prepared staged]. apply emits_bind.
    + destruct prepared as [r|out]; [|apply emits_ret]. unfold send_image.
      apply emits_bind; [apply runDfuDownload_lineless|]. intros [r'|s]; [|apply emits_ret]. cbv zeta.
      destruct (detachAfterFlash cfg); [|apply emits_ret].
      apply emits_bind; [apply runDfuUtil_lineless|intros d; apply emits_ret].
    + intros result. apply emits_bind; [|intros []; apply emits_ret].
      unfold StagedImage_destroy. destruct (temporary staged); [|apply emits_ret].
      emit.
Qed.
End Watching.

Section Lines.
Context (cfg : Config).

Definition strap_level (asserted : bool) : Z :=
  if asserted then gpioActive (recoveryActiveLow cfg) else gpioInactive (recoveryActiveLow cfg).

Definition straps_held (asserted : bool) (s : Gpio) : Prop :=
  s !! spiMuxGpioName cfg = Some (Some 0%Z) ∧ s !! recoveryGpioName cfg = Some (Some (strap_level asserted)).

Definition gpio_step (s : Gpio) (e : Event (reply := reply)) : option Gpio :=
  let '(existT c r) := e in
  match c return reply c → option Gpio with
  | RequestLine name => λ r, allow (s !! name = None) (if is_ok r then <[name := None]> s else s)
  | SetValue name v => λ r,
      allow (is_Some (s !! name) ∧
             (name = resetGpioName cfg → straps_held true s ∨ straps_held false s))
        (if is_ok r then <[name := Some v]> s else s)
  | ReleaseLine name => λ _, allow (is_Some (s !! name)) (delete name s)
  | DropLine name => λ _, Some (delete name s)
  | RunProcess argv _ => λ _, allow (is_listing argv = false → straps_held true s) s
  | _ => λ _, Some s
  end r.

(** The three lines are distinct. *)
Context (Hnames : NoDup [spiMuxGpioName cfg; recoveryGpioName cfg; resetGpioName cfg]).
Context `{DfuEnv}.

Abbreviation reaches := (reaches gpio_step).

Definition full_session : GpioSession :=
  mkGpioSession (Some (spiMuxGpioName cfg)) (Some (recoveryGpioName cfg)).

Definition mux_held : Gpio := {[spiMuxGpioName cfg := Some 0%Z]}.
Definition held (asserted : bool) : Gpio :=
  <[recoveryGpioName cfg := Some (strap_level asserted)]> mux_held.

(** What a session holds. *)
Definition holds (session : GpioSession) (s : Gpio) : Prop :=
  (session = no_lines ∧ s = ∅) ∨ (session = full_session ∧ ∃ b, s = held b).

Lemma names_ne :
  spiMuxGpioName cfg ≠ recoveryGpioName cfg ∧ spiMuxGpioName cfg ≠ resetGpioName cfg ∧
  recoveryGpioName cfg ≠ resetGpioName cfg.
Proof.
  apply NoDup_cons in Hnames as [Hm Hnames']. apply NoDup_cons in Hnames' as [Hr _].
  set_solver.
Qed.

Lemma held_straps b : straps_held b (held b).
Proof.
  destruct names_ne as (H1 & H2 & H3). unfold straps_held, held, mux_held.
  by rewrite lookup_insert_ne, lookup_singleton_eq, lookup_insert_eq.
Qed.

(** Requesting a line that is free, and that may be driven once it is held. *)
Lemma request_reaches name v s :
  s !! name = None →
  (name = resetGpioName cfg → straps_held true s ∨ straps_held false s) →
  reaches s (requestOutputLine name v)
    (λ r s', s' = if is_ok r then <[name := Some v]> s else s).
Proof.
  intros Hfree Hreset. unfold requestOutputLine.
  refine (reaches_step (reply := reply) s (FindLine name) _ _ _). intros line. exists s. split; [done|].
  destruct line as [[]|what]; try by apply reaches_ret.
  refine (reaches_step (reply := reply) s (RequestLine name) _ _ _). intros requested. eexists.
  split; [by apply allow_true|].
  destruct requested as [[]|what]; cbn [is_ok].
  - refine (reaches_step (reply := reply) _ (SetValue name v) _ _ _). intros driven. eexists. split.
    { apply allow_true. split; [rewrite lookup_insert_eq; by eexists|].
      intros Hn. specialize (Hreset Hn). destruct names_ne as (H1 & H2 & H3).
      unfold straps_held in *. rewrite !lookup_insert_ne by congruence. done. }
    destruct driven as [[]|what]; cbn [is_ok].
    { apply reaches_ret. by rewrite insert_insert_eq. }
    refine (reaches_step (reply := reply) _ (DropLine name) _ _ _). intros []. eexists. split; [done|].
    apply reaches_ret. by rewrite delete_insert_id.
  - apply reaches_bind_ret. refine (reaches_step (reply := reply) _ (DropLine name) _ _ _). intros [].
    eexists. split; [done|]. apply reaches_ret. by rewrite delete_id.
Qed.

Lemma held_reset b : held b !! resetGpioName cfg = None.
Proof.
  destruct names_ne as (H1 & H2 & H3). unfold held, mux_held.
  by rewrite lookup_insert_ne, lookup_singleton_ne.
Qed.

Lemma pulse_reaches b : reaches (held b) (pulseReset cfg) (λ _ s', s' = held b).
Proof.
  assert (Hs : straps_held true (held b) ∨ straps_held false (held b))
    by (destruct b; [left|right]; apply held_straps).
  destruct names_ne as (H1 & H2 & H3). unfold pulseReset. eapply reaches_bind.
  { apply request_reaches; [apply held_reset|done]. }
  intros [[]|what] s' ->; cbn [is_ok]; [|by apply reaches_ret].
  refine (reaches_step (reply := reply) _ (SleepFor _) _ _ _). intros []. eexists. split; [done|].
  refine (reaches_step (reply := reply) _ (SetValue _ _) _ _ _). intros released. eexists. split.
  { apply allow_true. split; [rewrite lookup_insert_eq; by eexists|]. intros _.
    unfold straps_held in *. by rewrite !lookup_insert_ne. }
  refine (reaches_step (reply := reply) _ (DropLine _) _ _ _). intros []. eexists. split; [done|].
  apply reaches_ret. destruct released; cbn [is_ok]; rewrite ?insert_insert_eq;
    apply delete_insert_id, held_reset.
Qed.

Lemma release_mux :
  reaches mux_held (release (mkGpioSession (Some (spiMuxGpioName cfg)) None))
    (λ r s', r = no_lines ∧ s' = ∅).
Proof.
  apply reaches_bind_ret. refine (reaches_step (reply := reply) _ (ReleaseLine _) _ _ _). intros [].
  eexists. split; [apply allow_true; unfold mux_held; rewrite lookup_singleton_eq; by eexists|].
  apply reaches_ret. split; [done|]. apply delete_singleton_eq.
Qed.

(** Giving back what a session holds. *)
Lemma release_reaches session s :
  holds session s → reaches s (release session) (λ r s', r = no_lines ∧ s' = ∅).
Proof.
  destruct names_ne as (H1 & H2 & H3). intros [[-> ->]|[-> [b ->]]].
  { by apply reaches_bind_ret, reaches_bind_ret, reaches_ret. }
  unfold release, full_session. cbn [recoveryLine spiMuxLine release_line].
  refine (reaches_step (reply := reply) _ (ReleaseLine _) _ _ _). intros []. eexists.
  split; [apply allow_true; unfold held; rewrite lookup_insert_eq; by eexists|].
  unfold held. rewrite delete_insert_id by (unfold mux_held; by rewrite lookup_singleton_ne).
  apply release_mux.
Qed.

(** Setting the straps: they are held at the level asked for, or nothing is. *)
Definition strapped (b : bool) (r : res members members * GpioSession) (s : Gpio) : Prop :=
  if is_ok r.1 then r.2 = full_session ∧ s = held b else r.2 = no_lines ∧ s = ∅.

Lemma watching_quiet s c : watching c → quiet gpio_step s c.
Proof. intros Hc. destruct c; try done. intros r. cbn in *. apply allow_true. rewrite Hc. done. Qed.

Lemma lineless_quiet c : lineless c → quiet gpio_step (held true) c.
Proof.
  intros Hc. destruct c; try done. intros r. cbn in *. apply allow_true. intros _. apply held_straps.
Qed.

Lemma watching_reaches {A} s (m : M A) : emits watching m → reaches s m (λ _ s', s' = s).
Proof.
  intros Hm. apply reaches_quiet. eapply emits_impl; [|exact Hm]. apply watching_quiet.
Qed.

Lemma lineless_reaches {A} (m : M A) :
  emits lineless m → reaches (held true) m (λ _ s', s' = held true).
Proof. intros Hm. apply reaches_quiet. eapply emits_impl; [apply lineless_quiet|exact Hm]. Qed.

Lemma strap_reaches b session s pulse :
  holds session s → reaches s (setRecoveryStrap cfg b session pulse) (strapped b).
Proof.
  intros Hs. destruct names_ne as (H1 & H2 & H3). unfold setRecoveryStrap.
  eapply reaches_bind; [by apply release_reaches|]. intros session' s' [-> ->].
  eapply reaches_bind; [apply request_reaches; [done|congruence]|].
  intros [[]|err] s' ->; cbn [is_ok]; [|by apply reaches_ret]. cbv zeta.
  change (<[spiMuxGpioName cfg := Some 0%Z]> ∅) with mux_held.
  eapply reaches_bind.
  { apply request_reaches; [unfold mux_held; by rewrite lookup_singleton_ne|congruence]. }
  intros strap s' Hs'. destruct strap as [[]|err]; cbn [is_ok] in Hs'.
  - refine (reaches_step (reply := reply) _ (SleepFor _) _ _ _). intros []. eexists. split; [done|].
    assert (s' = held b) as -> by (by destruct b).
    eapply (reaches_bind _ _ _ _ (λ _ s', s' = held b)).
    { destruct pulse; [apply pulse_reaches|by apply reaches_ret]. }
    intros pulsed ? ->. destruct pulsed; cbn [negb]; [by apply reaches_ret|].
    eapply reaches_bind; [apply release_reaches; right; by eauto|].
    intros session'' ? [-> ->]. by apply reaches_ret.
  - subst s'. eapply reaches_bind; [apply release_mux|]. intros session'' ? [-> ->]. by apply reaches_ret.
Qed.

Lemma enumeration_code out :
  returns (waitForDfuEnumeration cfg out) (λ r, match r with
    | Ok _ => True
    | Throw out => members_find out "ErrorCode" = Some (JUnsigned (code DfuEnumerationFailed))
    end).
Proof.
  apply returns_any. intros [d|]; apply returns_ret; [done|]. apply members_find_set.
Qed.

(** Entering recovery: the straps are held, or nothing is, or the HMC has not
    come up and they are still held. *)
Lemma assert_reaches session s :
  holds session s →
  reaches s (assertRecoveryMode cfg session) (λ r s',
    (r.2 = full_session ∧ s' = held true ∧
       match r.1 with
       | Ok _ => True
       | Throw out => members_find out "ErrorCode" = Some (JUnsigned (code DfuEnumerationFailed))
       end) ∨
    (r.2 = no_lines ∧ s' = ∅ ∧
       ∃ out, r.1 = Throw out ∧ members_find out "ErrorCode" = Some (JUnsigned (code GPIOAssertFailed)))).
Proof.
  intros Hs. eapply reaches_bind; [by apply (strap_reaches true)|].
  intros [[out|out] session'] s' Hst; cbn in Hst; destruct Hst as [-> ->].
  - eapply reaches_bind; [apply reaches_returns; [apply lineless_reaches; eapply emits_impl;
      [apply watching_lineless|apply waitForDfuEnumeration_watching]|apply enumeration_code]|].
    intros [out'|out'] ? [-> Hcode]; apply reaches_ret; left; by split_and!.
  - apply reaches_ret. right. split_and!; [done|done|]. eexists. split; [done|].
    apply members_find_set.
Qed.

(** Leaving recovery gives the lines back, whatever happens. *)
Lemma deassert_reaches session s :
  holds session s →
  reaches s (deassertRecoveryMode cfg session) (λ r s', r.2 = no_lines ∧ s' = ∅).
Proof.
  intros Hs. eapply reaches_bind; [by apply (strap_reaches false)|].
  intros [[out|out] session'] s' Hst; cbn in Hst; destruct Hst as [-> ->]; [|by apply reaches_ret].
  eapply reaches_bind; [apply release_reaches; right; by eauto|]. intros session'' ? [-> ->].
  by apply reaches_ret.
Qed.


(** The straps are asserted, for the steps to come, or nothing is held. *)
Definition in_recovery (r : res members members * GpioSession) (s : Gpio) : Prop :=
  if is_ok r.1 then r.2 = full_session ∧ s = held true else r.2 = no_lines ∧ s = ∅.

Lemma enter_reaches already out session s :
  holds session s → reaches s (enter_recovery cfg already out session) in_recovery.
Proof.
  intros Hs. unfold enter_recovery. destruct already.
  - eapply reaches_bind; [by apply (strap_reaches true)|].
    intros [[o|o] session'] s' Hst; by apply reaches_ret.
  - eapply reaches_bind; [by apply assert_reaches|].
    intros [r session'] s' Hst; cbn in Hst; destruct Hst as [(-> & -> & Hr)|(-> & -> & o & -> & Hcode)].
    + destruct r as [o|o]; [by apply reaches_ret|]. cbv zeta. rewrite Hr.
      cbn [code Z.eqb Pos.eqb]. eapply (reaches_bind _ _ _ _ (λ r s', r = no_lines ∧ s' = ∅)).
      * eapply reaches_bind; [apply deassert_reaches; right; by eauto|].
        intros [r session''] s' Hst. by apply reaches_ret.
      * intros session'' ? [-> ->]. by apply reaches_ret.
    + cbv zeta. rewrite Hcode. cbn [code Z.eqb Pos.eqb]. apply reaches_bind_ret. by apply reaches_ret.
Qed.

Lemma abandon_reaches outcome s :
  s = held true → reaches s (abandon cfg outcome full_session) in_recovery.
Proof.
  intros ->. eapply reaches_bind; [apply deassert_reaches; right; by eauto|].
  intros [r session'] s' Hst. by apply reaches_ret.
Qed.

Lemma boot_reaches uBootReady bundle out :
  reaches (held true) (boot_recovery cfg uBootReady bundle out full_session) in_recovery.
Proof.
  unfold boot_recovery. destruct uBootReady; [by apply reaches_ret|].
  eapply reaches_bind; [apply lineless_reaches, bundle_lineless|].
  intros [o|o] ? ->; [|by apply abandon_reaches].
  eapply reaches_bind; [apply watching_reaches, waitForRecoveryUBoot_watching|].
  intros [o'|o'] ? ->; [by apply reaches_ret|by apply abandon_reaches].
Qed.

Lemma flash_reaches image out :
  reaches (held true) (flash_image cfg image out full_session) in_recovery.
Proof.
  eapply reaches_bind; [apply lineless_reaches, flash_lineless|].
  intros [o|o] ? ->; [by apply reaches_ret|by apply abandon_reaches].
Qed.

Lemma leave_reaches out :
  reaches (held true) (leave_recovery cfg out full_session) (λ r s', r.2 = no_lines ∧ s' = ∅).
Proof.
  eapply (reaches_bind _ _ _ _ (λ _ s', s' = held true)).
  { destruct (detachAfterFlash cfg); [|by apply reaches_ret].
    apply watching_reaches, waitForProgrammingComplete_watching. }
  intros [] ? ->. eapply reaches_bind; [apply deassert_reaches; right; by eauto|].
  intros [[o|o] session] s' [Hsession ->]; cbn in Hsession; subst session; [|by apply reaches_ret].
  cbv zeta.
  eapply (reaches_bind _ _ _ _ (λ _ s', s' = ∅)).
  - destruct (verifyAfterRecovery cfg); [|by apply reaches_ret].
    apply watching_reaches, waitForRecoveryExit_watching.
  - intros exited ? ->. by apply reaches_ret.
Qed.

Lemma and_then_reaches f r s (Q : res members members * GpioSession → Gpio → Prop) :
  in_recovery r s → (∀ out, reaches (held true) (f out full_session) Q) →
  (∀ out, Q (Throw out, no_lines) ∅) →
  reaches s (and_then f r) Q.
Proof.
  destruct r as [[out|out] session]; intros [Hsession Hs] Hf HQ; cbn in Hsession, Hs; subst.
  - apply Hf.
  - by apply reaches_ret.
Qed.

(** C37: Whatever happens, the three lines are requested before they are driven and
    given back, once; the reset is driven only while both straps are; and
    dfu-util transfers nothing unless the HMC owns its flash and its recovery
    strap is asserted. *)
Theorem lines_returned image bundle probed :
  leaves gpio_step (λ s, s = ∅) ∅ (performRecovery cfg image bundle probed no_lines).
Proof.
  enough (Hr : reaches ∅ (performRecovery cfg image bundle probed no_lines) (λ _ s, s = ∅)) by exact Hr.
  unfold performRecovery. eapply reaches_bind; [apply watching_reaches, preflight_watching|].
  intros [out|out] ? ->; [|by apply reaches_ret]. cbv zeta.
  eapply (reaches_bind _ _ _ _ (λ _ s, s = ∅)).
  { destruct probed; [by apply reaches_ret|]. apply watching_reaches, getRecoveryStatus_watching. }
  intros status ? ->. case_match; [by apply reaches_ret|]. cbv zeta.
  eapply reaches_bind; [apply enter_reaches; by left|]. intros r s Hr.
  eapply reaches_bind; [apply and_then_reaches; [exact Hr|intros o; apply boot_reaches|done]|].
  clear s Hr. intros r' s Hr.
  eapply reaches_bind; [apply and_then_reaches; [exact Hr|intros o; apply flash_reaches|done]|].
  clear s Hr. intros r'' s Hr. eapply reaches_bind.
  { apply (and_then_reaches _ _ _ (λ r s', r.2 = no_lines ∧ s' = ∅)); [exact Hr|apply leave_reaches|done]. }
  intros [[o|o] session] s' [_ ->]; by apply reaches_ret.
Qed.
End Lines.
