(* ===== verification/DfuOrder.v ===== *)
(** * The order of a USB DFU recovery

    What a recovery of src/recovery_tool/usbdfu_recovery_tool drives and sends,
    and in what order. *)

From stdpp Require Import list strings gmap.
From Stdlib Require Import Ascii.
From S2P Require Import Prelude Json Text Trace Registry DfuStatus DfuRecovery DfuLines.

#[local] Open Scope string_scope.

(** ** The order of what is done *)

(** A level driven, or a transfer that dfu-util says it has made. *)
Inductive Move := Drive (name : string) (value : Z) | Sent (argv : list string).

Definition move (e : Event (reply := reply)) : option Move :=
  let '(existT c r) := e in
  match c return reply c → option Move with
  | SetValue name value => λ r, if is_ok r then Some (Drive name value) else None
  | RunProcess argv _ => λ r,
      match r with
      | Some (_, Some 0%Z) => if is_listing argv then None else Some (Sent argv)
      | _ => None
      end
  | _ => λ _, None
  end r.

Abbreviation moves := (omap move).

Definition is_sent (m : Move) : bool := if m is Sent _ then true else false.
Definition sends (ms : list Move) : list Move := base.filter (λ m, is_sent m = true) ms.

Lemma sends_app ms ms' : sends (ms ++ ms') = (sends ms ++ sends ms')%list.
Proof. apply filter_app. Qed.

(** The moves of a step: those planned, or up to some transfer of them. *)
Definition steps (plan : list Move) (ok : bool) (ms : list Move) : Prop :=
  if ok then ms = plan else sends ms `prefix_of` sends plan.

Lemma steps_weaken plan plan' ms :
  steps plan false ms → steps (plan ++ plan') false ms.
Proof. unfold steps. rewrite sends_app. by apply prefix_app_r. Qed.

Lemma steps_app plan plan' ok ms : steps plan' ok ms → steps (plan ++ plan') ok (plan ++ ms).
Proof.
  unfold steps. destruct ok; [by intros ->|]. rewrite !sends_app. by apply prefix_app.
Qed.

Section Moves.
Context `{DfuEnv}.

Definition makes {A} (m : M A) (Q : A → list Move → Prop) : Prop := does m (λ a es, Q a (moves es)).

Lemma makes_ret {A} (a : A) (Q : A → list Move → Prop) : Q a [] → makes (mret a) Q.
Proof. intros HQ. by apply (does_ret a (λ a es, Q a (moves es))). Qed.

Lemma makes_bind {A B} (m : M A) (f : A → M B) R Q :
  makes m R → (∀ a ms, R a ms → makes (f a) (λ b ms', Q b (ms ++ ms')%list)) → makes (m ≫= f) Q.
Proof.
  intros Hm Hf. eapply does_bind; [exact Hm|]. intros a es Hes.
  eapply does_impl; [exact (Hf a _ Hes)|]. intros b es'. cbv beta. by rewrite omap_app.
Qed.

(** After a program of which the moves are known. *)
Lemma makes_then {A B} (m : M A) (f : A → M B) ms Q :
  makes m (λ _ ms', ms' = ms) → (∀ a, makes (f a) (λ b ms', Q b (ms ++ ms')%list)) → makes (m ≫= f) Q.
Proof. intros Hm Hf. eapply makes_bind; [exact Hm|]. intros a ? ->. apply Hf. Qed.

Lemma makes_skip {A B} (m : M A) (f : A → M B) Q :
  makes m (λ _ ms, ms = []) → (∀ a, makes (f a) Q) → makes (m ≫= f) Q.
Proof. intros Hm Hf. by apply (makes_then _ _ []). Qed.

Lemma makes_step {B} c (f : reply c → M B) Q :
  (∀ r, makes (f r) (λ b ms, Q b (option_list (move (existT c r)) ++ ms)%list)) → makes (call c ≫= f) Q.
Proof.
  intros Hf. apply (makes_bind _ _ (λ r ms, ms = option_list (move (existT c r)))).
  - apply does_call. intros r. cbn [omap list_omap]. by destruct (move _).
  - intros r ? ->. apply Hf.
Qed.

Lemma makes_impl {A} (m : M A) (Q Q' : A → list Move → Prop) :
  makes m Q → (∀ a ms, Q a ms → Q' a ms) → makes m Q'.
Proof. intros Hm HQ. eapply does_impl; [exact Hm|]. eauto. Qed.

Lemma watching_makes {A} (m : M A) : emits watching m → makes m (λ _ ms, ms = []).
Proof.
  intros Hm. eapply does_impl; [exact Hm|]. intros a es Hes. cbv beta.
  induction Hes as [|[c r] es Hc Hes IH]; [done|]. cbn [omap list_omap]. rewrite IH.
  destruct c; try done. cbn in Hc |- *. rewrite Hc. by repeat case_match.
Qed.

Lemma request_makes name v :
  makes (requestOutputLine name v) (λ r ms, ms = if is_ok r then [Drive name v] else []).
Proof.
  refine (makes_step (FindLine name) _ _ _). intros [[]|what]; try by apply makes_ret.
  refine (makes_step (RequestLine name) _ _ _). intros [[]|what].
  - refine (makes_step (SetValue name v) _ _ _). intros [[]|what]; cbn; [by apply makes_ret|].
    refine (makes_step (DropLine name) _ _ _). intros []. by apply makes_ret.
  - apply (makes_bind _ _ (λ r ms, r = Throw what ∧ ms = [])); [by apply makes_ret|].
    intros driven ms [-> ->]. refine (makes_step (DropLine name) _ _ _). intros []. by apply makes_ret.
Qed.

Lemma release_makes session : makes (release session) (λ _ ms, ms = []).
Proof.
  destruct session as [[m|] [r|]]; unfold release; cbn [recoveryLine spiMuxLine release_line];
    repeat (first [ refine (makes_step (ReleaseLine _) _ _ _); intros []
                  | apply (makes_then _ _ []); [by apply makes_ret|]; intros [] ]); by apply makes_ret.
Qed.

Context (cfg : Config).

Definition pulse : list Move :=
  [Drive (resetGpioName cfg) (gpioActive (resetActiveLow cfg));
   Drive (resetGpioName cfg) (gpioInactive (resetActiveLow cfg))].

Definition straps (asserted : bool) : list Move :=
  [Drive (spiMuxGpioName cfg) 0; Drive (recoveryGpioName cfg) (strap_level cfg asserted)].

Definition sent_bundle (bundle : list string) : list Move :=
  (λ file, Sent [dfuUtilPath cfg; "-D"; file]) <$> bundle.

Definition sent_image (file : string) : list Move :=
  Sent [dfuUtilPath cfg; "-a"; dfuAltSetting cfg; "-D"; file] ::
  (if detachAfterFlash cfg then [Sent [dfuUtilPath cfg; "-a"; dfuAltSetting cfg; "-e"]] else []).

(** What a recovery does when nothing fails. *)
Definition recovery_plan (already uBootReady : bool) (bundle : list string) (file : string) : list Move :=
  (straps true ++ (if already then [] else pulse)) ++ (if uBootReady then [] else sent_bundle bundle) ++
  sent_image file ++ straps false ++ pulse.

Lemma pulse_makes : makes (pulseReset cfg) (λ r ms, steps pulse r ms).
Proof.
  unfold pulseReset. eapply makes_bind; [apply request_makes|].
  intros [[]|what] ms ->; cbn [is_ok]; [|apply makes_ret; apply prefix_nil].
  refine (makes_step (SleepFor _) _ _ _). intros [].
  refine (makes_step (SetValue _ _) _ _ _). intros [[]|what];
    refine (makes_step (DropLine _) _ _ _); intros []; apply makes_ret; [done|apply prefix_nil].
Qed.

Lemma strap_makes b session p :
  makes (setRecoveryStrap cfg b session p) (λ r ms,
    steps (straps b ++ if p then pulse else []) (is_ok r.1) ms).
Proof.
  assert (Hfail : ∀ plan ms, Forall (λ m, is_sent m = false) ms → steps plan false ms).
  { intros plan ms Hms. unfold steps.
    enough (sends ms = []) as -> by apply prefix_nil.
    unfold sends. induction Hms as [|m ms Hm Hms IH]; [done|]. rewrite filter_cons_False; [done|].
    by rewrite Hm. }
  unfold setRecoveryStrap. apply (makes_then _ _ []); [apply release_makes|]. intros session'.
  eapply makes_bind; [apply request_makes|].
  intros [[]|err] ms ->; cbn [is_ok]; [|apply makes_ret, Hfail; by constructor]. cbv zeta.
  eapply makes_bind; [apply request_makes|].
  intros [[]|err] ms ->; cbn [is_ok].
  2: { apply (makes_then _ _ []); [apply release_makes|]. intros session''.
       apply makes_ret, Hfail. by repeat constructor. }
  refine (makes_step (SleepFor _) _ _ _). intros [].
  apply (makes_bind _ _ (λ r ms, steps (if p then pulse else []) r ms)).
  { destruct p; [apply pulse_makes|by apply makes_ret]. }
  intros pulsed ms Hms. destruct pulsed; cbn [negb].
  - apply makes_ret. cbn in Hms. subst ms. cbn. rewrite !app_nil_r. by destruct b.
  - apply (makes_then _ _ []); [apply release_makes|]. intros session''. apply makes_ret.
    cbn. rewrite app_nil_r. by apply (steps_app (straps b)) in Hms; destruct b.
Qed.

Lemma dfuUtil_makes args timeoutSecs :
  is_listing (dfuUtilPath cfg :: args) = false →
  makes (runDfuUtil cfg args timeoutSecs) (λ r ms, steps [Sent (dfuUtilPath cfg :: args)] (is_ok r) ms).
Proof.
  intros Hargs. unfold runDfuUtil. cbv zeta.
  apply (makes_bind _ _ (λ r ms, ms = match r with Some (_, 0%Z) => [Sent (dfuUtilPath cfg :: args)] | _ => [] end)).
  - refine (makes_step (RunProcess _ _) _ _ _). intros r. apply makes_ret. cbn [move].
    rewrite Hargs. destruct r as [[output [status|]]|]; [|done..].
    destruct (Z.eqb_spec status 124) as [->|_]; [done|]. destruct (Z.eqb_spec status 127) as [->|_]; [done|].
    cbn. by destruct status.
  - intros [[output status]|] ms ->; cbn [bool_decide_true].
    + rewrite bool_decide_true by by eexists. destruct (Z.eqb_spec status 0) as [->|Hne]; cbn [andb].
      * by apply makes_ret.
      * apply makes_ret. cbn. destruct status; [done|apply prefix_nil..].
    + rewrite bool_decide_false by by intros [? ?]. apply makes_ret, prefix_nil.
Qed.

Lemma download_makes transfer file :
  makes (runDfuDownload cfg transfer file) (λ r ms,
    steps [Sent (dfuUtilPath cfg :: (transferParams cfg transfer).1.2 ++ ["-D"; file])%list] (is_ok r) ms).
Proof.
  unfold runDfuDownload. destruct (transferParams cfg transfer) as [[label args] timeoutSecs] eqn:Ht.
  eapply makes_bind; [apply dfuUtil_makes; by destruct transfer; injection Ht as <- <- <-|].
  intros [[]|out] ms Hms; apply makes_ret; by rewrite app_nil_r.
Qed.

Lemma bundle_makes i bundle :
  makes (send_bundle cfg i bundle) (λ r ms, steps (sent_bundle bundle) (is_ok r) ms).
Proof.
  revert i. induction bundle as [|file bundle IH]; intros i; [by apply makes_ret|]. cbn [send_bundle].
  eapply makes_bind; [apply download_makes|]. intros [[]|s] ms Hms; cbn [is_ok] in Hms.
  - apply (makes_then _ _ []).
    { case_decide; [by apply makes_ret|]. apply watching_makes. emit. }
    intros []. eapply makes_impl; [apply IH|]. intros r ms' Hms'. cbv beta. unfold steps in Hms. subst ms.
    by apply (steps_app [Sent [dfuUtilPath cfg; "-D"; file]]).
  - apply makes_ret. rewrite app_nil_r. by apply (steps_weaken [Sent [dfuUtilPath cfg; "-D"; file]]).
Qed.

(** The file that is flashed is the image or its copy. *)
Definition image_file (image file : string) : Prop := file = image ∨ file = image +:+ ".dfu".

Lemma send_image_makes staged :
  makes (send_image cfg staged) (λ r ms, steps (sent_image (staged_path staged)) (is_ok r) ms).
Proof.
  unfold send_image. eapply makes_bind; [apply download_makes|].
  intros [[]|s] ms Hms; cbn [is_ok] in Hms; cbv zeta.
  - unfold steps in Hms. cbn in Hms. subst ms. unfold sent_image. destruct (detachAfterFlash cfg).
    + eapply makes_bind; [by apply dfuUtil_makes|]. intros [[]|d] ms Hms; apply makes_ret; rewrite app_nil_r;
        by apply (steps_app [_]).
    + by apply makes_ret.
  - apply makes_ret. rewrite app_nil_r. by apply (steps_weaken [_]).
Qed.

Lemma flash_makes image :
  makes (flashFirmware cfg image) (λ r ms, ∃ file, image_file image file ∧ steps (sent_image file) (is_ok r) ms).
Proof.
  unfold flashFirmware. apply (makes_bind _ _ (λ r ms, ms = [] ∧ (is_ok r.1 = true → image_file image (staged_path r.2)))).
  { unfold prepareFlashImage. refine (makes_step (FileSize _) _ _ _). intros [size|what]; [|by apply makes_ret].
    destruct (_ || _); [apply makes_ret; split; [done|by left]|]. cbv zeta.
    refine (makes_step (CopyFile _ _) _ _ _). intros [[]|what]; [|by apply makes_ret].
    refine (makes_step (ResizeFile _ _) _ _ _). intros [[]|what]; apply makes_ret; (split; [done|]);
      [by right|done]. }
  intros [prepared staged] ms [-> Hfile]. cbn [fst snd] in Hfile.
  apply (makes_bind _ _ (λ r ms, ∃ file, image_file image file ∧ steps (sent_image file) (is_ok r) ms)).
  - destruct prepared as [[]|out].
    + eapply makes_impl; [apply send_image_makes|]. intros r ms Hms. exists (staged_path staged).
      split; [by apply Hfile|done].
    + apply makes_ret. exists image. split; [by left|apply prefix_nil].
  - intros r ms Hms. apply (makes_bind _ _ (λ _ ms, ms = [])).
    + unfold StagedImage_destroy. destruct (temporary staged); [|by apply makes_ret].
      apply (does_call (reply := reply) (RemoveFile _)). intros []. done.
    + intros [] ? ->. apply makes_ret. by rewrite app_nil_r.
Qed.

(** ** The steps of the recovery *)

Definition stage_makes (m : M (res members members * GpioSession)) (plan : list Move) : Prop :=
  makes m (λ r ms, steps plan (is_ok r.1) ms).

(** A step that only sends nothing may fail after others. *)
Lemma unsent_steps plan ms : sends ms = [] → steps plan false ms.
Proof. unfold steps. intros ->. apply prefix_nil. Qed.

Lemma straps_unsent b (p : bool) ok ms :
  steps (straps b ++ if p then pulse else []) ok ms → sends ms = [].
Proof.
  destruct ok; cbn [steps]; [intros ->; by destruct p|].
  intros Hp. apply prefix_nil_inv. by destruct p.
Qed.

Lemma deassert_makes session :
  stage_makes (deassertRecoveryMode cfg session) (straps false ++ pulse).
Proof.
  eapply makes_bind; [apply (strap_makes false)|]. intros [[o|o] session'] ms Hms; cbn [fst is_ok] in Hms.
  - apply (makes_then _ _ []); [apply release_makes|]. intros session''. apply makes_ret. by rewrite app_nil_r.
  - apply makes_ret. by rewrite app_nil_r.
Qed.

Lemma enter_makes already out session :
  stage_makes (enter_recovery cfg already out session) (straps true ++ if already then [] else pulse).
Proof.
  unfold enter_recovery. destruct already.
  - eapply makes_bind; [apply (strap_makes true _ false)|].
    intros [[o|o] session'] ms Hms; apply makes_ret; rewrite !app_nil_r; rewrite app_nil_r in Hms; exact Hms.
  - apply (makes_bind _ _ (λ r ms, steps (straps true ++ pulse) (is_ok r.1) ms)).
    { eapply makes_bind; [apply (strap_makes true _ true)|].
      intros [[o|o] session'] ms Hms; [|apply makes_ret; by rewrite app_nil_r].
      apply (makes_then _ _ []).
      { apply watching_makes, waitForDfuEnumeration_watching. }
      cbn in Hms. subst ms. intros [o'|o']; apply makes_ret; rewrite !app_nil_r; [done|].
      by apply unsent_steps. }
    intros [[o|o] session'] ms Hms; [apply makes_ret; by rewrite app_nil_r|]. cbv zeta.
    pose proof (straps_unsent true true false ms Hms) as Hu.
    apply (makes_bind _ _ (λ _ ms', sends ms' = [])).
    + destruct (members_find o "ErrorCode") as [[]|]; try by apply makes_ret.
      destruct (_ =? _)%Z; [|by apply makes_ret].
      eapply makes_bind; [apply deassert_makes|]. intros [r session''] ms' Hms'. apply makes_ret.
      rewrite app_nil_r. exact (straps_unsent false true _ _ Hms').
    + intros session'' ms' Hu'. apply makes_ret. apply unsent_steps. by rewrite app_nil_r, sends_app, Hu, Hu'.
Qed.

Lemma abandon_makes outcome session plan ms :
  steps plan false ms →
  makes (abandon cfg outcome session) (λ r ms', steps plan (is_ok r.1) (ms ++ ms')).
Proof.
  intros Hms. eapply makes_bind; [apply deassert_makes|]. intros [r session'] ms' Hms'. apply makes_ret.
  cbn. unfold steps in *. rewrite app_nil_r, sends_app, (straps_unsent false true _ _ Hms'), app_nil_r. done.
Qed.

Lemma boot_makes uBootReady bundle out session :
  stage_makes (boot_recovery cfg uBootReady bundle out session) (if uBootReady then [] else sent_bundle bundle).
Proof.
  unfold boot_recovery. destruct uBootReady; [by apply makes_ret|].
  eapply makes_bind; [apply bundle_makes|].
  intros [o|o] ms Hms; cbn [is_ok] in Hms; [|by apply abandon_makes]. cbv zeta.
  apply makes_skip; [apply watching_makes, waitForRecoveryUBoot_watching|].
  intros [o'|o']; [apply makes_ret; by rewrite app_nil_r|].
  apply abandon_makes. cbn in Hms. subst ms. by unfold steps.
Qed.

Lemma flash_image_makes image out session :
  makes (flash_image cfg image out session) (λ r ms,
    ∃ file, image_file image file ∧ steps (sent_image file) (is_ok r.1) ms).
Proof.
  eapply makes_bind; [apply flash_makes|]. intros [o|o] ms (file & Hfile & Hms); cbn [is_ok] in Hms.
  - apply makes_ret. exists file. rewrite app_nil_r. by split.
  - eapply makes_impl; [apply (abandon_makes _ _ _ _ Hms)|]. intros r ms' Hms'. exists file. by split.
Qed.

Lemma leave_makes out session :
  stage_makes (leave_recovery cfg out session) (straps false ++ pulse).
Proof.
  apply makes_skip.
  { destruct (detachAfterFlash cfg); [|by apply makes_ret].
    apply watching_makes, waitForProgrammingComplete_watching. }
  intros []. eapply makes_bind; [apply deassert_makes|].
  intros [[o|o] session'] ms Hms; cbn [fst is_ok] in Hms; [|apply makes_ret; by rewrite app_nil_r].
  cbv zeta. apply makes_skip.
  { destruct (verifyAfterRecovery cfg); [|by apply makes_ret].
    apply watching_makes, waitForRecoveryExit_watching. }
  intros [e|e]; apply makes_ret; rewrite app_nil_r; [done|]. cbn in Hms. subst ms. by apply unsent_steps.
Qed.

(** Steps one after the other: a step is not made once an earlier one has
    failed. *)
Lemma and_then_makes f r plan (P : list Move → Prop) ms :
  steps plan (is_ok r.1) ms → (∃ plan', P plan') →
  (∀ out session, makes (f out session) (λ r ms', ∃ plan', P plan' ∧ steps plan' (is_ok r.1) ms')) →
  makes (and_then f r) (λ r' ms', ∃ plan', P plan' ∧ steps (plan ++ plan') (is_ok r'.1) (ms ++ ms')).
Proof.
  destruct r as [[out|out] session]; cbn [fst is_ok]; intros Hms [plan' HP] Hf.
  - eapply makes_impl; [apply Hf|]. intros r' ms' (plan'' & HP' & Hms'). exists plan''. split; [done|].
    cbn in Hms. subst ms. by apply steps_app.
  - apply makes_ret. exists plan'. rewrite app_nil_r. split; [done|]. by apply steps_weaken.
Qed.

Lemma stage_exact (m : M (res members members * GpioSession)) plan :
  stage_makes m plan → makes m (λ r ms, ∃ plan', plan' = plan ∧ steps plan' (is_ok r.1) ms).
Proof.
  intros Hm. apply (makes_impl _ (λ r ms, steps plan (is_ok r.1) ms)); [exact Hm|].
  intros r ms Hms. by exists plan.
Qed.

Definition already_in (status : RecoveryStatus) : bool :=
  negb (forceRecovery cfg) && bool_decide (state status = InRecovery).
Definition uBoot_ready (status : RecoveryStatus) : bool :=
  already_in status && bool_decide (stage status = RecoveryUBoot).
Definition healthy (status : RecoveryStatus) : bool :=
  negb (forceRecovery cfg) && bool_decide (state status = NotInRecovery).

(** What a recovery that goes by [status] may do. *)
Definition did (image : string) (bundle : list string) (status : RecoveryStatus) (outcome : Outcome)
    (ms : list Move) : Prop :=
  match outcome with
  | Skipped => healthy status = true ∧ ms = []
  | _ =>
      healthy status = false ∧ ∃ file, image_file image file ∧
        steps (recovery_plan (already_in status) (uBoot_ready status) bundle file)
          (bool_decide (outcome = Recovered)) ms
  end.

(** C38: A recovery that succeeds has held the straps, pulsed the reset if the HMC was
    not in DFU already, sent the bundle in order unless U-Boot was up, then the
    image, ended the session, put the straps back and pulsed the reset, and
    nothing else; one that fails has sent a part of that, in this order; one
    that is skipped has touched nothing. *)
Theorem recovery_in_order image bundle status session :
  does (performRecovery cfg image bundle (Some status) session) (λ r es,
    (r.1.1 = Failed ∧ moves es = []) ∨ did image bundle status r.1.1 (moves es)).
Proof.
  apply (makes_skip (preflightChecks image bundle [("Steps", JNull)])
    _ (λ r ms, (r.1.1 = Failed ∧ ms = []) ∨ did image bundle status r.1.1 ms)).
  { apply watching_makes, preflight_watching. }
  intros [out|out]; [|apply makes_ret; by left]. cbv zeta.
  apply (makes_bind _ _ (λ s ms, s = status ∧ ms = [])); [by apply makes_ret|]. intros ? ? [-> ->].
  change (negb (forceRecovery cfg) && bool_decide (state status = NotInRecovery)) with (healthy status).
  destruct (healthy status) eqn:Hh; [apply makes_ret; right; done|]. cbv zeta.
  change (negb (forceRecovery cfg) && bool_decide (state status = InRecovery)) with (already_in status).
  change (already_in status && bool_decide (stage status = RecoveryUBoot)) with (uBoot_ready status).
  eapply makes_bind; [apply enter_makes|]. intros r ms Hms.
  eapply makes_bind.
  { eapply (and_then_makes _ _ _ (λ p, p = if uBoot_ready status then [] else sent_bundle bundle));
      [exact Hms|by eexists|intros o s; apply stage_exact, boot_makes]. }
  intros r1 ms1 (? & -> & Hms1). cbv beta. eapply makes_bind.
  { eapply (and_then_makes _ _ _ (λ p, ∃ file, image_file image file ∧ p = sent_image file));
      [exact Hms1|exists (sent_image image), image; split; [by left|done]|].
    intros o s. eapply makes_impl; [apply flash_image_makes|]. intros r' ms' (file & Hfile & Hms').
    exists (sent_image file). split; [by exists file|done]. }
  intros r2 ms2 (? & (file & Hfile & ->) & Hms2). cbv beta. eapply makes_bind.
  { eapply (and_then_makes _ _ _ (λ p, p = straps false ++ pulse)%list);
      [exact Hms2|by eexists|intros o s; apply stage_exact, leave_makes]. }
  intros [[o|o] s] ms3 (? & -> & Hms3); apply makes_ret; right; (split; [done|]); exists file;
    (split; [done|]); unfold recovery_plan; rewrite app_nil_r, !app_assoc in *; exact Hms3.
Qed.

(** A healthy HMC is only looked at. *)
Lemma healthy_untouched image bundle status session :
  healthy status = true → emits watching (performRecovery cfg image bundle (Some status) session).
Proof.
  intros Hh. apply emits_bind; [apply preflight_watching|]. intros [out|out]; [|apply emits_ret].
  cbv zeta. apply (does_bind _ _ (λ s es, s = status ∧ es = [])); [by apply does_ret|].
  intros ? ? [-> ->]. unfold healthy in Hh. rewrite Hh. apply emits_ret.
Qed.
End Moves.
