(* ===== verification/DfuImage.v ===== *)
(** * The image a USB DFU recovery sends, and what it says

    The flash image of a recovery of src/recovery_tool/usbdfu_recovery_tool is
    cut before it is sent; every failure is reported. *)

From stdpp Require Import list strings gmap.
From Stdlib Require Import Ascii.
From S2P Require Import Prelude Json Text Trace Registry DfuStatus DfuRecovery DfuLines.

#[local] Open Scope string_scope.

(** ** The tail of the flash

    The last part of the flash holds data that must survive: the image is cut
    to [flashLengthBytes] before it is sent, in a copy that is removed. *)

(** What is known of the image and of its copy. *)
Record Staging := mkStaging {
  image_fits : bool;
  copy_there : bool;
  copy_cut : bool;
}.

(** The file a command flashes. *)
Definition flash_file (argv : list string) : option string :=
  match argv with
  | [_; a; _; d; file] => if decide (a = "-a" ∧ d = "-D") then Some file else None
  | _ => None
  end.

Section Tail.
Context `{DfuEnv} (cfg : Config) (image : string).

Definition copy : string := image +:+ ".dfu".

Definition within (size : Z) : bool := ((flashLengthBytes cfg =? 0) || (size <=? flashLengthBytes cfg))%Z.

Definition staging_step (s : Staging) (e : Event (reply := reply)) : option Staging :=
  let '(existT c r) := e in
  match c return reply c → option Staging with
  | FileSize path => λ r,
      Some match r with
           | Ok size => if decide (path = image) then mkStaging (within size) (copy_there s) (copy_cut s) else s
           | Throw _ => s
           end
  | CopyFile source target => λ r,
      allow (source = image ∧ target = copy)
        (if is_ok r then mkStaging (image_fits s) true false else s)
  | ResizeFile path size => λ r,
      allow (path = copy ∧ copy_there s = true)
        (if is_ok r then mkStaging (image_fits s) true (within size) else s)
  | RemoveFile path => λ _,
      allow (path = copy ∧ copy_there s = true) (mkStaging (image_fits s) false false)
  | RunProcess argv _ => λ _,
      match flash_file argv with
      | Some file => allow (file = image ∧ image_fits s = true ∨ file = copy ∧ copy_cut s = true) s
      | None => Some s
      end
  | _ => λ _, Some s
  end r.

Abbreviation reaches := (reaches staging_step).

(** Calls that concern neither file, nor the log. *)
Definition unstaged (c : Call) : Prop :=
  match c with
  | FileSize _ | CopyFile _ _ | ResizeFile _ _ | RemoveFile _ | CreateEntry _ => False
  | RunProcess argv _ => flash_file argv = None
  | _ => True
  end.

Lemma unstaged_reaches {A} s (m : M A) : emits unstaged m → reaches s m (λ _ s', s' = s).
Proof.
  intros Hm. apply reaches_quiet. eapply emits_impl; [|exact Hm].
  intros c Hc r. destruct c; try done. cbn in *. by rewrite Hc.
Qed.

Lemma listing_unflash argv : is_listing argv = true → flash_file argv = None.
Proof.
  unfold is_listing. intros Hl%bool_decide_eq_true. destruct argv as [|u [|a [|x [|d [|f [|]]]]]]; try done.
  injection Hl as ->. cbn. by rewrite decide_False by by intros [? ?].
Qed.

Lemma watching_unstaged c : watching c → unstaged c.
Proof. destruct c; try done. apply listing_unflash. Qed.

Lemma request_unstaged name v : emits unstaged (requestOutputLine name v).
Proof.
  apply emits_bind; [emit|]. intros [[]|what]; try apply emits_ret. apply emits_bind; [emit|].
  intros [[]|what]; (apply emits_bind; [first [emit|apply emits_ret]|]; intros [[]|what'];
    [apply emits_ret|]; apply emits_bind; [emit|]; intros []; apply emits_ret).
Qed.

Lemma release_unstaged session : emits unstaged (release session).
Proof.
  destruct session as [[m|] [r|]]; unfold release; cbn [recoveryLine spiMuxLine release_line];
    repeat (apply emits_bind; [first [emit|apply emits_ret]|]; intros []); apply emits_ret.
Qed.

Lemma pulse_unstaged : emits unstaged (pulseReset cfg).
Proof.
  apply emits_bind; [apply request_unstaged|]. intros [r|err]; [|apply emits_ret].
  repeat (apply emits_bind; [emit|]; intros ?). apply emits_ret.
Qed.

Lemma strap_unstaged b session p : emits unstaged (setRecoveryStrap cfg b session p).
Proof.
  apply emits_bind; [apply release_unstaged|]. intros s.
  apply emits_bind; [apply request_unstaged|]. intros [r|err]; [|apply emits_ret]. cbv zeta.
  apply emits_bind; [apply request_unstaged|]. intros [r'|err].
  - apply emits_bind; [emit|]. intros [].
    apply emits_bind; [destruct p; [apply pulse_unstaged|apply emits_ret]|]. intros pulsed.
    destruct (negb pulsed); [|apply emits_ret].
    apply emits_bind; [apply release_unstaged|]. intros s'. apply emits_ret.
  - apply emits_bind; [apply release_unstaged|]. intros s'. apply emits_ret.
Qed.

Lemma watch_unstaged {A} (m : M A) : emits watching m → emits unstaged m.
Proof. apply emits_impl, watching_unstaged. Qed.

Lemma deassert_unstaged session : emits unstaged (deassertRecoveryMode cfg session).
Proof.
  apply emits_bind; [apply strap_unstaged|]. intros [[o|o] s]; [|apply emits_ret].
  apply emits_bind; [apply release_unstaged|]. intros s'. apply emits_ret.
Qed.

Lemma abandon_unstaged outcome session : emits unstaged (abandon cfg outcome session).
Proof. apply emits_bind; [apply deassert_unstaged|]. intros [o s]. apply emits_ret. Qed.

Lemma enter_unstaged already out session : emits unstaged (enter_recovery cfg already out session).
Proof.
  unfold enter_recovery. destruct already.
  { apply emits_bind; [apply strap_unstaged|]. intros [o s]. apply emits_ret. }
  apply emits_bind.
  - apply emits_bind; [apply strap_unstaged|]. intros [[o|o] s]; [|apply emits_ret].
    apply emits_bind; [apply watch_unstaged, waitForDfuEnumeration_watching|]. intros e. apply emits_ret.
  - intros [[o|o] s]; [apply emits_ret|]. cbv zeta. apply emits_bind; [|intros s'; apply emits_ret].
    destruct (members_find o "ErrorCode") as [[]|]; try apply emits_ret.
    destruct (_ =? _)%Z; [|apply emits_ret]. apply emits_bind; [apply deassert_unstaged|].
    intros [o' s']. apply emits_ret.
Qed.

Lemma bundle_unstaged i bundle : emits unstaged (send_bundle cfg i bundle).
Proof.
  revert i. induction bundle as [|file bundle IH]; intros i; [apply emits_ret|]. cbn [send_bundle].
  apply emits_bind.
  - apply emits_bind; [|intros r; apply emits_ret]. apply emits_bind; [by apply capture_emits|].
    intros out. cbv zeta. destruct (_ && _); apply emits_ret.
  - intros [r|s]; [|apply emits_ret]. apply emits_bind; [case_decide; [apply emits_ret|emit]|].
    intros []. apply IH.
Qed.

Lemma boot_unstaged uBootReady bundle out session :
  emits unstaged (boot_recovery cfg uBootReady bundle out session).
Proof.
  unfold boot_recovery. destruct uBootReady; [apply emits_ret|].
  apply emits_bind; [apply bundle_unstaged|]. intros [o|o]; [|apply abandon_unstaged]. cbv zeta.
  apply emits_bind; [apply watch_unstaged, waitForRecoveryUBoot_watching|].
  intros [o'|o']; [apply emits_ret|apply abandon_unstaged].
Qed.

Lemma leave_unstaged out session : emits unstaged (leave_recovery cfg out session).
Proof.
  apply emits_bind.
  { destruct (detachAfterFlash cfg); [|apply emits_ret].
    apply watch_unstaged, waitForProgrammingComplete_watching. }
  intros []. apply emits_bind; [apply deassert_unstaged|]. intros [[o|o] s]; [|apply emits_ret]. cbv zeta.
  apply emits_bind; [|intros e; apply emits_ret].
  destruct (verifyAfterRecovery cfg); [|apply emits_ret]. apply watch_unstaged, waitForRecoveryExit_watching.
Qed.

(** A staged image may be sent: it is the image, which fits, or its cut copy. *)
Definition sendable (staged : StagedImage) (s : Staging) : Prop :=
  staged_path staged = image ∧ image_fits s = true ∨ staged_path staged = copy ∧ copy_cut s = true.

Lemma prepare_reaches s :
  copy_there s = false →
  reaches s (prepareFlashImage image (flashLengthBytes cfg)) (λ r s',
    temporary r.2 = copy_there s' ∧ (temporary r.2 = true → staged_path r.2 = copy) ∧
    (is_ok r.1 = true → sendable r.2 s')).
Proof.
  intros Hs. refine (reaches_step (reply := reply) s (FileSize image) _ _ _). intros size. eexists.
  split; [done|]. destruct size as [size|what]; [|by apply reaches_ret]. rewrite decide_True by done.
  change ((flashLengthBytes cfg =? 0)%Z || (size <=? flashLengthBytes cfg)%Z) with (within size).
  destruct (within size); [apply reaches_ret; split_and!; [done|done|by left]|]. cbv zeta.
  refine (reaches_step (reply := reply) _ (CopyFile image copy) _ _ _). intros copied. eexists.
  split; [by apply allow_true|]. destruct copied as [[]|what]; cbn [is_ok image_fits]; [|by apply reaches_ret].
  refine (reaches_step (reply := reply) _ (ResizeFile copy _) _ _ _). intros resized. eexists.
  split; [by apply allow_true|]. destruct resized as [[]|what]; apply reaches_ret; [|done].
  split_and!; [done|done|]. intros _. right. split; [done|]. cbn. unfold within.
  rewrite Z.leb_refl. apply orb_true_r.
Qed.

Lemma send_quiet staged s :
  sendable staged s → emits (quiet staging_step s) (send_image cfg staged).
Proof.
  intros Hs. unfold send_image. apply emits_bind.
  - unfold runDfuDownload. cbn [transferParams]. apply emits_bind; [|intros r; apply emits_ret].
    apply emits_bind; [|intros out; cbv zeta; destruct (_ && _); apply emits_ret].
    apply capture_emits. intros r. cbn. by apply allow_true.
  - intros [[]|o]; [|apply emits_ret]. cbv zeta. destruct (detachAfterFlash cfg); [|apply emits_ret].
    apply emits_bind; [|intros d; apply emits_ret].
    apply emits_bind; [|intros out; cbv zeta; destruct (_ && _); apply emits_ret].
    by apply capture_emits.
Qed.

Lemma flash_stages s :
  copy_there s = false → reaches s (flashFirmware cfg image) (λ _ s', copy_there s' = false).
Proof.
  intros Hs. eapply reaches_bind; [by apply prepare_reaches|]. intros [prepared staged] s1 (Ht & Hp & Hsend).
  cbn [fst snd] in *. eapply (reaches_bind _ _ _ _ (λ _ s2, s2 = s1)).
  { destruct prepared as [[]|o]; [|by apply reaches_ret]. apply reaches_quiet, send_quiet. by apply Hsend. }
  intros result ? ->. unfold StagedImage_destroy. destruct (temporary staged).
  - refine (reaches_step (reply := reply) _ (RemoveFile _) _ _ _). intros []. eexists.
    split; [apply allow_true; split; [by apply Hp|done]|]. by apply reaches_ret.
  - by apply reaches_bind_ret, reaches_ret.
Qed.

Lemma flash_image_stages out session s :
  copy_there s = false → reaches s (flash_image cfg image out session) (λ _ s', copy_there s' = false).
Proof.
  intros Hs. eapply reaches_bind; [by apply flash_stages|]. intros [o|o] s' Hs'; [by apply reaches_ret|].
  eapply reaches_impl; [apply unstaged_reaches, abandon_unstaged|]. by intros r s'' ->.
Qed.

Lemma and_then_unstaged f r :
  (∀ out session, emits unstaged (f out session)) → emits unstaged (and_then f r).
Proof. destruct r as [[out|out] session]; intros Hf; [apply Hf|apply emits_ret]. Qed.

(** No more of an image than the part that may be replaced is ever sent: what
    dfu-util flashes is the image, found to fit, or a copy cut to fit, which is
    removed whatever happens. *)
Theorem tail_never_sent bundle probed session s (Hs : copy_there s = false) :
  leaves staging_step (λ s, copy_there s = false) s (performRecovery cfg image bundle probed session).
Proof.
  enough (Hr : reaches s (performRecovery cfg image bundle probed session) (λ _ s', copy_there s' = false))
    by exact Hr.
  eapply reaches_bind; [apply unstaged_reaches, watch_unstaged, preflight_watching|].
  intros [out|out] ? ->; [|by apply reaches_ret]. cbv zeta.
  apply (reaches_bind _ _ _ _ (λ _ s', s' = s)).
  { destruct probed; [by apply reaches_ret|].
    apply unstaged_reaches, watch_unstaged, getRecoveryStatus_watching. }
  intros status ? ->. case_match; [by apply reaches_ret|].
  eapply reaches_bind; [apply unstaged_reaches, enter_unstaged|]. intros r ? ->.
  eapply reaches_bind; [apply unstaged_reaches, and_then_unstaged; intros o s'; apply boot_unstaged|].
  intros r' ? ->. apply (reaches_bind _ _ _ _ (λ _ s', copy_there s' = false)).
  { destruct r' as [[o|o] s']; [by apply flash_image_stages|by apply reaches_ret]. }
  intros r'' s' Hs'. eapply reaches_bind.
  { apply unstaged_reaches, and_then_unstaged. intros o s''. apply leave_unstaged. }
  intros [[o|o] s''] ? ->; by apply reaches_ret.
Qed.
End Tail.

(** ** What is said of a failure *)

(** Every code has an entry in the message registry. *)
Lemma code_reportable c : reportable USBDFURecovery (code c) = true.
Proof. by destruct c. Qed.

(** A result says that the recovery has failed, why, and with what code. *)
Definition failure (out : members) : Prop :=
  members_find out "Status" = Some (JString "Failed") ∧
  members_find out "Outcome" = Some (JString "Failed") ∧
  (∃ error, members_find out "Error" = Some (JString error)) ∧
  ∃ c, members_find out "ErrorCode" = Some (JUnsigned (code c)).

(** A failed step gives one of the codes, if it gives one. *)
Definition coded (s : members) : Prop :=
  match members_find s "ErrorCode" with Some v => ∃ c, v = JUnsigned (code c) | None => True end.

Lemma fail_failure out step s fallback c : coded s → failure (fail out step s fallback c).
Proof.
  intros Hs. unfold failure, fail, set_outcome, failStep, setFailure_. find_members.
  split_and!; [done|done|by eexists|]. unfold coded in Hs.
  destruct (members_find s "ErrorCode"); [destruct Hs as [c' ->]|]; by eexists.
Qed.

Lemma coded_failure_ out error : coded out → coded (setFailure_ out error).
Proof. unfold coded, setFailure_. by find_members. Qed.

Lemma coded_set out c : coded (set_code out c).
Proof. unfold coded, set_code. rewrite members_find_set. by eexists. Qed.

Definition throws (P : members → Prop) {A} (r : res members A) : Prop :=
  match r with Throw out => P out | Ok _ => True end.

Section Reports.
Context `{DfuEnv} (cfg : Config).

Lemma strap_coded b session p : returns (setRecoveryStrap cfg b session p) (λ r, throws coded r.1).
Proof.
  apply returns_any. intros s. apply returns_any. intros [r|err]; [|by apply returns_ret]. cbv zeta.
  apply returns_any. intros [r'|err]; [|by apply returns_any; intros s'; apply returns_ret].
  apply returns_any. intros []. apply returns_any. intros pulsed. destruct (negb pulsed).
  - by apply returns_any; intros s'; apply returns_ret.
  - by apply returns_ret.
Qed.

Lemma enumeration_coded out : returns (waitForDfuEnumeration cfg out) (throws coded).
Proof. apply returns_any. intros [d|]; apply returns_ret; [done|apply coded_set]. Qed.

Lemma assert_coded session : returns (assertRecoveryMode cfg session) (λ r, throws coded r.1).
Proof.
  apply returns_any. intros [[o|o] s]; [|by apply returns_ret, coded_set].
  eapply returns_bind; [apply enumeration_coded|]. intros [o'|o'] Ho; by apply returns_ret.
Qed.

Lemma deassert_coded session : returns (deassertRecoveryMode cfg session) (λ r, throws coded r.1).
Proof.
  apply returns_any. intros [[o|o] s]; [|by apply returns_ret, coded_set].
  apply returns_any. intros s'. by apply returns_ret.
Qed.

Lemma bundle_coded i bundle : returns (send_bundle cfg i bundle) (throws coded).
Proof.
  revert i. induction bundle as [|file bundle IH]; intros i; [by apply returns_ret|]. cbn [send_bundle].
  apply returns_any. intros [r|s]; [|by apply returns_ret, coded_set].
  apply returns_any. intros []. apply IH.
Qed.

Lemma uboot_coded : returns (waitForRecoveryUBoot cfg) (throws coded).
Proof.
  unfold waitForRecoveryUBoot. case_match; [by apply returns_ret|].
  apply returns_any. intros [names|]; apply returns_ret; [done|apply coded_set].
Qed.

Lemma exit_coded : returns (waitForRecoveryExit cfg) (throws coded).
Proof. apply returns_any. intros [u|]; apply returns_ret; [done|apply coded_set]. Qed.

Lemma flash_coded image : returns (flashFirmware cfg image) (throws coded).
Proof.
  apply returns_any. intros [prepared staged]. apply (returns_bind _ _ (throws coded)).
  - destruct prepared as [[]|o]; [|apply returns_ret, coded_set].
    apply returns_any. intros [[]|s]; [|apply returns_ret, coded_set]. cbv zeta.
    destruct (detachAfterFlash cfg); [|by apply returns_ret].
    apply returns_any. intros [[]|d]; apply returns_ret; [done|apply coded_set].
  - intros r Hr. apply returns_any. intros []. by apply returns_ret.
Qed.

Abbreviation stage_fails m := (returns m (λ r : res members members * GpioSession, throws failure r.1)).

Lemma enter_fails already out session : stage_fails (enter_recovery cfg already out session).
Proof.
  unfold enter_recovery. destruct already.
  - eapply returns_bind; [apply strap_coded|]. intros [[o|o] s] Ho; apply returns_ret; [done|by apply fail_failure].
  - eapply returns_bind; [apply assert_coded|]. intros [[o|o] s] Ho; [by apply returns_ret|]. cbv zeta.
    apply returns_any. intros s'. by apply returns_ret, fail_failure.
Qed.

Lemma abandon_fails outcome session : failure outcome → stage_fails (abandon cfg outcome session).
Proof. intros Hf. apply returns_any. intros [r s]. by apply returns_ret. Qed.

Lemma boot_fails uBootReady bundle out session : stage_fails (boot_recovery cfg uBootReady bundle out session).
Proof.
  unfold boot_recovery. destruct uBootReady; [by apply returns_ret|].
  eapply returns_bind; [apply bundle_coded|]. intros [o|o] Ho; [|by apply abandon_fails, fail_failure]. cbv zeta.
  eapply returns_bind; [apply uboot_coded|]. intros [o'|o'] Ho'; [by apply returns_ret|].
  by apply abandon_fails, fail_failure.
Qed.

Lemma flash_image_fails image out session : stage_fails (flash_image cfg image out session).
Proof.
  eapply returns_bind; [apply flash_coded|]. intros [o|o] Ho; [by apply returns_ret|].
  by apply abandon_fails, fail_failure.
Qed.

Definition success (out : members) : Prop :=
  members_find out "Status" = Some (JString "Successful") ∧
  members_find out "Outcome" = Some (JString "Recovered").

Lemma leave_says out session :
  returns (leave_recovery cfg out session)
    (λ r, match r.1 with Throw o => failure o | Ok o => success o end).
Proof.
  apply returns_any. intros []. eapply returns_bind; [apply deassert_coded|].
  intros [[o|o] s] Ho; [|by apply returns_ret, fail_failure]. cbv zeta.
  apply (returns_bind _ _ (throws coded)).
  { destruct (verifyAfterRecovery cfg); [apply exit_coded|by apply returns_ret]. }
  intros [o'|o'] Ho'; apply returns_ret; [|by apply fail_failure].
  cbn [fst]. unfold success, set_outcome, successful. by find_members.
Qed.

Lemma and_then_says f r (P : members → Prop) :
  throws failure r.1 →
  (∀ out session, returns (f out session) (λ r, match r.1 with Throw o => failure o | Ok o => P o end)) →
  returns (and_then f r) (λ r, match r.1 with Throw o => failure o | Ok o => P o end).
Proof. destruct r as [[out|out] session]; intros Hr Hf; [apply Hf|by apply returns_ret]. Qed.

(** The outcome of a recovery is in what it says; a failure is said with its
    cause and one of the codes, which all have a message. *)
Theorem outcome_reported image bundle probed session :
  returns (performRecovery cfg image bundle probed session) (λ r,
    match r.1.1 with
    | Failed => failure r.1.2
    | Skipped => members_find r.1.2 "Status" = Some (JString "Skipped") ∧
                 members_find r.1.2 "Outcome" = Some (JString "Skipped")
    | Recovered => success r.1.2
    end).
Proof.
  apply (returns_bind _ _ (throws (λ o, failure (set_outcome "Failed" (set_step "Preflight" "Failed" o))))).
  { assert (Hfail : ∀ out error c,
      failure (set_outcome "Failed" (set_step "Preflight" "Failed" (setFailure out error c)))).
    { intros out error c. unfold failure, set_outcome, set_step, setFailure, set_code, setFailure_. find_members.
      split_and!; [done|done|by eexists|by eexists]. }
    apply returns_any. intros regular. destruct (negb regular); [apply returns_ret, Hfail|].
    case_decide; [apply returns_ret, Hfail|]. apply returns_any. intros [file|]; apply returns_ret; [apply Hfail|done]. }
  intros [out|out] Ho; [|by apply returns_ret]. cbv zeta.
  apply returns_any. intros status. destruct (_ && _).
  { apply returns_ret. cbn [fst snd]. unfold set_outcome. by find_members. }
  eapply returns_bind; [apply enter_fails|]. intros r Hr.
  eapply returns_bind; [apply (and_then_says _ _ (λ _, True)); [exact Hr|intros o s; apply boot_fails]|].
  intros r1 Hr1. eapply returns_bind.
  { apply (and_then_says _ _ (λ _, True)); [exact Hr1|intros o s; apply flash_image_fails]. }
  intros r2 Hr2. eapply returns_bind; [apply and_then_says; [exact Hr2|intros o s; apply leave_says]|].
  intros [[o|o] s] Hr3; by apply returns_ret.
Qed.
End Reports.
