(* ===== verification/DfuMain.v ===== *)
(** * The programs of the USB DFU recovery

    The recovery configuration and the package of
    src/recovery_tool/usbdfu_recovery_tool/perform_dfu_recovery.cpp, the command
    line (main.cpp) and the worker that systemd starts (main_dbus.cpp). *)

From stdpp Require Import list strings gmap.
From Stdlib Require Import Ascii.
From S2P Require Import Prelude Json Bytes Text Trace Registry DfuStatus DfuRecovery.

#[local] Open Scope string_scope.

(** ** The recovery configuration *)

Definition apostrophe (s : string) : string := "'" +:+ s +:+ "'".

(** [recovery_tool/usbdfu_recovery_tool/perform_dfu_recovery.cpp:871-895 applyPolarity] *)
Definition applyPolarity (entry : members) (property : string) (dest : bool) : res members bool :=
  match members_find entry property with
  | None => Ok dest
  | Some (JString value) =>
      match parseActiveLowPolarity value with
      | Some activeLow => Ok activeLow
      | None => Throw (setFailure [] (property +:+ " must be ActiveHigh or ActiveLow") InvalidConfiguration)
      end
  | Some _ => Throw (setFailure [] (property +:+ " is not a string") InvalidConfiguration)
  end.

(** [recovery_tool/usbdfu_recovery_tool/perform_dfu_recovery.cpp:931-978 loadRecoveryConfig]
    The entry that was selected; none for an exception, of a name that is no
    string. *)
Definition load_entry (configPath : string) (cfg : Config) (entry : members) : option (res members Config) :=
  let missing property :=
    name ← value_string entry "Name" "<unnamed>";
    Some (Throw (setFailure [] (property +:+ " missing from " +:+ name +:+ " in " +:+ configPath)
                   InvalidConfiguration)) in
  match members_find entry "RecoveryGpioName" with
  | Some (JString recoveryName) =>
  match members_find entry "ResetGpioName" with
  | Some (JString resetName) =>
  match members_find entry "SpiMuxGpioName" with
  | Some (JString muxName) =>
      let cfg := {| cfg with recoveryGpioName := recoveryName; resetGpioName := resetName;
                             spiMuxGpioName := muxName |} in
      Some (
        recoveryLow ← applyPolarity entry "RecoveryGpioPolarity" (recoveryActiveLow cfg);
        resetLow ← applyPolarity entry "ResetGpioPolarity" (resetActiveLow cfg);
        let cfg := {| cfg with recoveryActiveLow := recoveryLow; resetActiveLow := resetLow |} in
        cfg ← match members_find entry "FunctionalUsbId" with
              | Some (JString id) =>
                  match UsbId_parse id with
                  | Some parsed => Ok {| cfg with functionalUsbId := Some parsed |}
                  | None =>
                      Throw (setFailure [] ("FunctionalUsbId must be vvvv:pppp, got " +:+ apostrophe id +:+
                                            " in " +:+ configPath) InvalidConfiguration)
                  end
              | _ => Ok cfg
              end;
        Ok match members_find entry "UsbPort" with
           | Some (JString port) => {| cfg with usbPortFilter := port |}
           | _ => cfg
           end)
  | _ => missing "SpiMuxGpioName"
  end
  | _ => missing "ResetGpioName"
  end
  | _ => missing "RecoveryGpioName"
  end.

(** [recovery_tool/usbdfu_recovery_tool/perform_dfu_recovery.cpp:920-986 loadRecoveryConfig]
    The loop over the entries. *)
Fixpoint load_entries (configPath deviceName : string) (cfg : Config) (entries : list json)
    : option (res members Config) :=
  match entries with
  | [] =>
      Some (Throw (setFailure [] ("No USBDFURecovery entry" +:+
        (if decide (deviceName = "") then "" else " named " +:+ deviceName) +:+ " in " +:+ configPath)
        InvalidConfiguration))
  | JObject entry :: entries =>
      type ← value_string entry "Type" "";
      if decide (type ≠ "USBDFURecovery") then load_entries configPath deviceName cfg entries else
      skip ← (if decide (deviceName = "") then Some false else
                name ← value_string entry "Name" ""; Some (bool_decide (name ≠ deviceName)));
      if skip : bool then load_entries configPath deviceName cfg entries
      else load_entry configPath cfg entry
  | _ :: entries => load_entries configPath deviceName cfg entries
  end.

Section Programs.
Context `{DfuEnv}.

(** [recovery_tool/usbdfu_recovery_tool/perform_dfu_recovery.cpp:899-987 loadRecoveryConfig] *)
Definition loadRecoveryConfig (configPath deviceName : string) (cfg : Config)
    : M (option (res members Config)) :=
  file ← call (ReadJson configPath);
  mret match file with
       | None =>
           Some (Throw (setFailure [] ("Recovery configuration not readable: " +:+ configPath)
                          InvalidConfiguration))
       | Some config =>
           match config ≫= λ c, json_find c "Exposes" with
           | Some (JArray entries) => load_entries configPath deviceName cfg entries
           | _ =>
               Some (Throw (setFailure [] ("Recovery configuration has no Exposes array: " +:+ configPath)
                              InvalidConfiguration))
           end
       end.

(** ** The package *)

(** [recovery_tool/common/usbdfu_components.hpp:31-38 Component] *)
Record Component := mkComponent {
  comp_id : Z;
  comp_name : string;
  comp_firmware : bool;
  comp_optional : bool;
}.

(** [recovery_tool/common/usbdfu_components.hpp:41-54 componentMap] *)
Definition componentMap : list Component :=
  [mkComponent 0x1 "Caliptra_FW" false false; mkComponent 0x2 "SoC_Manifest" false false;
   mkComponent 0x3 "MCU_Runtime" false false; mkComponent 0x4 "DP_FW" false false;
   mkComponent 0x5 "DDR_PMU_Train_IMEM" false false; mkComponent 0x6 "DDR_PMU_Train_DMEM" false false;
   mkComponent 0x7 "BL31" false false; mkComponent 0x8 "TEE" false false;
   mkComponent 0x9 "U-Boot" false false; mkComponent 0xA "Zephyr_SSP" false true;
   mkComponent 0xB "Zephyr_TSP" false true; mkComponent 0x10 "HMC_SPI_Image" true false].

(** [recovery_tool/usbdfu_recovery_tool/perform_dfu_recovery.hpp:403-407 PackageContents] *)
Record PackageContents := mkPackageContents { pk_bundle : list string; firmwareImage : string }.

(** [0x{:X}] of a component identifier. *)
Definition component_hex (id : Z) : string := "0x" +:+ format_hex (if (id <? 16)%Z then 1 else 2) id.

(** The paths of the regular files of a directory. *)
Definition regular_entries (directory : string) (entries : list (string * bool)) : list string :=
  (λ e, path_append directory e.1) <$> base.filter (λ e, e.2 = true) entries.

Definition incomplete (error : string) : members := setFailure [] error PackageIncomplete.

(** [recovery_tool/usbdfu_recovery_tool/perform_dfu_recovery.cpp:1002-1057 resolvePackageComponents]
    The loop over the components. *)
Fixpoint resolve_components (packageDir : string) (components : list Component)
    (contents : PackageContents) : M (res members PackageContents) :=
  match components with
  | [] => mret (Ok contents)
  | c :: components =>
      let componentDir := path_append packageDir (to_string (comp_id c)) in
      entries ← call (ListDirectory componentDir);
      let regular := regular_entries componentDir entries in
      let named := component_hex (comp_id c) +:+ " (" +:+ comp_name c +:+ ")" in
      match regular with
      | [] =>
          if comp_optional c then resolve_components packageDir components contents
          else mret (Throw (incomplete ("Recovery package component " +:+ named +:+
                 " missing: no file under " +:+ componentDir)))
      | [file] =>
          resolve_components packageDir components
            (if comp_firmware c then mkPackageContents (pk_bundle contents) file
             else mkPackageContents (pk_bundle contents ++ [file]) (firmwareImage contents))
      | _ =>
          mret (Throw (incomplete ("Recovery package component " +:+ named +:+ " has " +:+
                 to_string (Z.of_nat (length regular)) +:+ " files under " +:+ componentDir +:+
                 "; expected exactly one")))
      end
  end.

(** [recovery_tool/usbdfu_recovery_tool/perform_dfu_recovery.cpp:989-1059 resolvePackageComponents] *)
Definition resolvePackageComponents (packageDir : string) : M (res members PackageContents) :=
  directory ← call (IsDirectory packageDir);
  if negb directory
  then mret (Throw (incomplete ("Recovery package directory not found: " +:+ packageDir)))
  else resolve_components packageDir componentMap (mkPackageContents [] "").

(** ** The configuration of the platform *)

(** The options of the build. *)
Record BuildOptions := mkBuildOptions {
  USBDFU_UTIL_PATH : string;
  USBDFU_RECOVERY_DFU_ALT : string;
  USBDFU_RECOVERY_FLASH_LENGTH : Z;
  USBDFU_RECOVERY_POST_FLASH_SETTLE : Z;
}.

(** [recovery_tool/usbdfu_recovery_tool/default_config.hpp:21-30 makeDefaultConfig] *)
Definition makeDefaultConfig (o : BuildOptions) : Config :=
  {| Config_default with
     dfuUtilPath := USBDFU_UTIL_PATH o; dfuAltSetting := USBDFU_RECOVERY_DFU_ALT o;
     flashLengthBytes := USBDFU_RECOVERY_FLASH_LENGTH o;
     postFlashSettleSecs := USBDFU_RECOVERY_POST_FLASH_SETTLE o |}.

(** ** The command line *)

(** [recovery_tool/usbdfu_recovery_tool/main.cpp:98-225 main]
    What the command line is parsed to: the command, the options that are not of
    the configuration, and the configuration with those that are. *)
Inductive Command := PerformRecovery | GetRecoveryStatus | AssertRecovery | DeassertRecovery.

Record CommandLine := mkCommandLine {
  command : Command;
  images : list string;
  packageDir : string;
  configPath : string;
  deviceName : string;
  noDetach : bool;
  noVerify : bool;
  opt_functionalUsbId : option string;
  opt_usbPort : option string;
  parsed_config : Config;
}.

(** [recovery_tool/usbdfu_recovery_tool/main.cpp:78-96 emit]
    The result, and the exit status. *)
Definition emit_ (output : members) (ok : bool) : json * Z := (JObject output, if ok then 0%Z else 1%Z).

(** [recovery_tool/usbdfu_recovery_tool/main.cpp:242-266 main]
    The options that override the recovery configuration. *)
Definition override (o : CommandLine) (cfg : Config) : res members Config :=
  let cfg := {| cfg with verifyAfterRecovery := negb (noVerify o) |} in
  let cfg := match opt_usbPort o with Some port => {| cfg with usbPortFilter := port |} | None => cfg end in
  match opt_functionalUsbId o with
  | None => Ok cfg
  | Some "" => Ok {| cfg with functionalUsbId := None |}
  | Some id =>
      match UsbId_parse id with
      | Some parsed => Ok {| cfg with functionalUsbId := Some parsed |}
      | None =>
          Throw (setFailure [] ("--functional-usb-id must be vvvv:pppp (hex), got " +:+ apostrophe id)
                   InvalidConfiguration)
      end
  end.

(** [recovery_tool/usbdfu_recovery_tool/main.cpp:278-306 main]
    The bundle and the image: of the package, or of the list. *)
Definition recovery_inputs (o : CommandLine) : M (res members (list string * string)) :=
  if decide (packageDir o ≠ "") then
    resolved ← resolvePackageComponents (packageDir o);
    mret match resolved with
         | Ok contents => Ok (pk_bundle contents, firmwareImage contents)
         | Throw out => Throw out
         end
  else
    mret match reverse (images o) with
         | image :: stage :: stages => Ok (reverse (stage :: stages), image)
         | _ =>
             Throw (setFailure [] "--images needs at least one bundle stage and the firmware image, unless --package-dir is given"
                      InvalidConfiguration)
         end.

(** [recovery_tool/usbdfu_recovery_tool/main.cpp:268-322 main]
    The command, with its configuration; the lines are given back when the
    recovery object ends. *)
Definition run_command (o : CommandLine) (cfg : Config) : M (json * Z) :=
  match command o with
  | GetRecoveryStatus => status ← probeStatus cfg; mret (status_toJson status, 0%Z)
  | PerformRecovery =>
      inputs ← recovery_inputs o;
      match inputs with
      | Throw out => mret (emit_ out false)
      | Ok (bundle, image) =>
          '(outcome, out, session) ← performRecovery cfg image bundle None no_lines;
          _ ← release session;
          mret (emit_ out (bool_decide (outcome ≠ Failed)))
      end
  | AssertRecovery =>
      '(r, session) ← assertRecoveryMode cfg no_lines;
      _ ← release session;
      mret match r with Ok out => emit_ out true | Throw out => emit_ out false end
  | DeassertRecovery =>
      '(r, session) ← deassertRecoveryMode cfg no_lines;
      _ ← release session;
      mret match r with Ok out => emit_ out true | Throw out => emit_ out false end
  end.

(** [recovery_tool/usbdfu_recovery_tool/main.cpp:227-333 main]
    The text of an exception is the library's. *)
Definition tool_main (what : string) (o : CommandLine) : M (json * Z) :=
  let cfg := parsed_config o in
  let cfg := {| cfg with detachAfterFlash := negb (noDetach o) |} in
  loaded ← loadRecoveryConfig (configPath o) (deviceName o) cfg;
  match loaded with
  | None => mret (emit_ (setFailure [] what InvalidConfiguration) false)
  | Some (Throw out) => mret (emit_ out false)
  | Some (Ok cfg) =>
      match override o cfg with
      | Throw out => mret (emit_ out false)
      | Ok cfg => run_command o cfg
      end
  end.

(** ** The worker *)

(** [recovery_tool/usbdfu_recovery_tool/main_dbus.cpp:40-55 entityManagerService]
    and the other names. *)
Definition entityManagerService : string := "xyz.openbmc_project.EntityManager".
Definition entityManagerObjManager : string := "/xyz/openbmc_project/inventory".
Definition usbDfuRecoveryObjInterface : string := "xyz.openbmc_project.Configuration.USBDFURecovery".
Definition fallbackDeviceName : string := "USBDFURecovery".

(** [recovery_tool/usbdfu_recovery_tool/main_dbus.cpp:65-85 getStringProperty] *)
Definition getStringProperty (interfaces : InterfaceMap) (interface property : string) : option string :=
  properties ← interfaces !! interface;
  value ← properties !! property;
  match value with
  | Some value => if decide (value = "") then None else Some value
  | None => None
  end.

Definition recoveryProperty (interfaces : InterfaceMap) (property : string) : option string :=
  getStringProperty interfaces usbDfuRecoveryObjInterface property.

(** [recovery_tool/usbdfu_recovery_tool/main_dbus.cpp:87-110 readGpioConfig] *)
Definition readGpioConfig (interfaces : InterfaceMap) (cfg : Config) : res string Config :=
  match recoveryProperty interfaces "RecoveryGpioName" with
  | None => Throw "RecoveryGpioName"
  | Some recoveryName =>
  match recoveryProperty interfaces "ResetGpioName" with
  | None => Throw "ResetGpioName"
  | Some resetName =>
  match recoveryProperty interfaces "SpiMuxGpioName" with
  | None => Throw "SpiMuxGpioName"
  | Some muxName =>
      Ok {| cfg with recoveryGpioName := recoveryName; resetGpioName := resetName;
                     spiMuxGpioName := muxName |}
  end end end.

Definition polarity (interfaces : InterfaceMap) (property : string) (dest : bool) : res string bool :=
  match recoveryProperty interfaces property with
  | None => Ok dest
  | Some value =>
      match parseActiveLowPolarity value with Some activeLow => Ok activeLow | None => Throw property end
  end.

(** [recovery_tool/usbdfu_recovery_tool/main_dbus.cpp:112-142 readGpioPolarity] *)
Definition readGpioPolarity (interfaces : InterfaceMap) (cfg : Config) : res string Config :=
  recoveryLow ← polarity interfaces "RecoveryGpioPolarity" (recoveryActiveLow cfg);
  resetLow ← polarity interfaces "ResetGpioPolarity" (resetActiveLow cfg);
  Ok {| cfg with recoveryActiveLow := recoveryLow; resetActiveLow := resetLow |}.

(** [recovery_tool/usbdfu_recovery_tool/main_dbus.cpp:144-168 readStatusConfig] *)
Definition readStatusConfig (interfaces : InterfaceMap) (cfg : Config) : res string Config :=
  cfg ← match recoveryProperty interfaces "FunctionalUsbId" with
        | None => Ok cfg
        | Some id =>
            match UsbId_parse id with
            | Some parsed => Ok {| cfg with functionalUsbId := Some parsed |}
            | None => Throw ("FunctionalUsbId must be vvvv:pppp, got " +:+ apostrophe id)
            end
        end;
  Ok match recoveryProperty interfaces "UsbPort" with
     | Some port => {| cfg with usbPortFilter := port |}
     | None => cfg
     end.

(** [recovery_tool/usbdfu_recovery_tool/main_dbus.cpp:170-177 errorCodeOf] *)
Definition errorCodeOf (out : members) : Z :=
  match members_find out "ErrorCode" with Some (JUnsigned c) => c | _ => deviceRecoveryFailed end.

Definition log (entry : option Entry) : M () :=
  match entry with Some entry => call (CreateEntry entry) | None => mret () end.

Definition log_message (messageID device : string) : M () := log (createMessageRegistry messageID device).

Definition log_error (errorCode : Z) (device : string) : M () :=
  log (createMessageRegistryResourceErrors resourceErrorsDetected USBDFURecovery errorCode device Critical).

(** [recovery_tool/usbdfu_recovery_tool/main_dbus.cpp:249-288 usbdfuServiceMain]
    The configuration of a device. *)
Definition device_config (o : BuildOptions) (interfaces : InterfaceMap) : res string Config :=
  cfg ← readGpioConfig interfaces (makeDefaultConfig o);
  cfg ← readStatusConfig interfaces cfg;
  readGpioPolarity interfaces cfg.

(** [recovery_tool/usbdfu_recovery_tool/main_dbus.cpp:247-339 usbdfuServiceMain]
    One device: whether it fails the worker. *)
Definition recover_device (o : BuildOptions) (package : PackageContents) (device : string)
    (interfaces : InterfaceMap) : M bool :=
  match device_config o interfaces with
  | Throw _ => _ ← log_error (code InvalidConfiguration) device; mret true
  | Ok cfg =>
      status ← probeStatus cfg;
      if decide (state status = NotInRecovery) then
        _ ← log_message firmwareNotInRecovery device; mret false
      else
      _ ← log_message recoveryStarted device;
      '(outcome, out, session) ← performRecovery cfg (firmwareImage package) (pk_bundle package)
                                   (Some status) no_lines;
      _ ← match outcome with
          | Failed => log_error (errorCodeOf out) device
          | Skipped => log_message firmwareNotInRecovery device
          | Recovered => log_message recoverySuccessful device
          end;
      _ ← release session;
      mret (bool_decide (outcome = Failed))
  end.

(** The devices one after the other, and whether one has failed. *)
Fixpoint recover_devices (o : BuildOptions) (package : PackageContents)
    (targets : list (string * InterfaceMap)) : M bool :=
  match targets with
  | [] => mret false
  | (device, interfaces) :: targets =>
      failed ← recover_device o package device interfaces;
      rest ← recover_devices o package targets;
      mret (failed || rest)
  end.

Fixpoint log_errors (errorCode : Z) (devices : list string) : M () :=
  match devices with
  | [] => mret ()
  | device :: devices => _ ← log_error errorCode device; log_errors errorCode devices
  end.

(** [recovery_tool/usbdfu_recovery_tool/main_dbus.cpp:200-210 usbdfuServiceMain]
    The objects that have the interface, by the last component of their path. *)
Definition targets_of (managedObjects : list (string * InterfaceMap)) : list (string * InterfaceMap) :=
  (λ object : string * InterfaceMap, (path_filename object.1, object.2)) <$>
    base.filter (λ object : string * InterfaceMap, is_Some (object.2 !! usbDfuRecoveryObjInterface)) managedObjects.

(** [recovery_tool/usbdfu_recovery_tool/main_dbus.cpp:183-342 usbdfuServiceMain] *)
Definition usbdfuServiceMain (o : BuildOptions) (args : list string) : M Z :=
  match args with
  | [] => mret (-1)%Z
  | dir :: _ =>
      managedObjects ← call (GetManagedObjects entityManagerService entityManagerObjManager);
      let targets := targets_of managedObjects in
      if decide (targets.*1 = []) then
        _ ← log_error noDevicesFound fallbackDeviceName; mret (-1)%Z
      else
      resolved ← resolvePackageComponents dir;
      match resolved with
      | Throw _ => _ ← log_errors (code PackageIncomplete) targets.*1; mret (-1)%Z
      | Ok package =>
          failed ← recover_devices o package targets;
          mret (if failed : bool then (-1)%Z else 0%Z)
      end
  end.
End Programs.
