(* ===== verification/DfuWorker.v ===== *)
(** * What the USB DFU recovery worker answers

    The entries that the worker of
    src/recovery_tool/usbdfu_recovery_tool/main_dbus.cpp leaves in the log, for
    each device that is configured, and its exit status. *)

From stdpp Require Import list strings gmap.
From Stdlib Require Import Ascii.
From S2P Require Import Prelude Json Text Trace Registry DfuStatus DfuRecovery DfuLines DfuOrder DfuImage DfuMain.

#[local] Open Scope string_scope.

(** ** The entries *)

Definition entry_of (e : Event (reply := reply)) : option Entry :=
  match projT1 e with CreateEntry entry => Some entry | _ => None end.

Abbreviation logged := (omap entry_of).

Definition silent (c : Call) : Prop := match c with CreateEntry _ => False | _ => True end.

Lemma silent_logged es : calls_ok silent es → logged es = [].
Proof.
  induction 1 as [|[c r] es Hc Hes IH]; [done|]. cbn [omap list_omap]. rewrite IH. by destruct c.
Qed.

(** What the log says of an error, and of a message. *)
Definition error_entry (errorCode : Z) (device : string) : option Entry :=
  createMessageRegistryResourceErrors resourceErrorsDetected USBDFURecovery errorCode device Critical.

Abbreviation message_entry := createMessageRegistry.

(** What a device leaves in the log, and whether it has failed: it is not
    configured; it is healthy; or its recovery has started, and has failed with
    one of the codes or has succeeded. *)
Inductive answered (device : string) : list (option Entry) → bool → Prop :=
| answered_unconfigured : answered device [error_entry (code InvalidConfiguration) device] true
| answered_healthy : answered device [message_entry firmwareNotInRecovery device] false
| answered_failed c : answered device [message_entry recoveryStarted device; error_entry (code c) device] true
| answered_recovered :
    answered device [message_entry recoveryStarted device; message_entry recoverySuccessful device] false.

Section Worker.
Context `{DfuEnv} (o : BuildOptions).

(** [m] leaves entries, in the log. *)
Definition logs {A} (m : M A) (Q : A → list Entry → Prop) : Prop := does m (λ a es, Q a (logged es)).

Lemma logs_ret {A} (a : A) (Q : A → list Entry → Prop) : Q a [] → logs (mret a) Q.
Proof. intros HQ. by apply (does_ret a (λ a es, Q a (logged es))). Qed.

Lemma logs_bind {A B} (m : M A) (f : A → M B) R Q :
  logs m R → (∀ a l, R a l → logs (f a) (λ b l', Q b (l ++ l')%list)) → logs (m ≫= f) Q.
Proof.
  intros Hm Hf. eapply does_bind; [exact Hm|]. intros a es Hes.
  eapply does_impl; [exact (Hf a _ Hes)|]. intros b es'. cbv beta. by rewrite omap_app.
Qed.

Lemma logs_skip {A B} (m : M A) (f : A → M B) Q :
  emits silent m → (∀ a, logs (f a) Q) → logs (m ≫= f) Q.
Proof.
  intros Hm Hf. apply (logs_bind _ _ (λ _ l, l = [])).
  - eapply does_impl; [exact Hm|]. intros a es. apply silent_logged.
  - intros a ? ->. apply Hf.
Qed.

Lemma log_logs entry : logs (log entry) (λ _ l, l = option_list entry).
Proof.
  destruct entry as [entry|]; [|by apply logs_ret]. by refine (does_call (reply := reply) (CreateEntry entry) _ _).
Qed.

(** ** A recovery leaves no entry *)

Lemma unstaged_silent {A} (m : M A) : emits unstaged m → emits silent m.
Proof. apply emits_impl. by intros []. Qed.

Lemma watching_silent {A} (m : M A) : emits watching m → emits silent m.
Proof. intros Hm. by apply unstaged_silent, watch_unstaged. Qed.

Lemma dfuUtil_silent cfg args timeoutSecs : emits silent (runDfuUtil cfg args timeoutSecs).
Proof.
  apply emits_bind; [by apply capture_emits|]. intros out. cbv zeta. destruct (_ && _); apply emits_ret.
Qed.

Lemma flash_silent cfg image : emits silent (flashFirmware cfg image).
Proof.
  apply emits_bind.
  { apply emits_bind; [emit|]. intros [size|what]; [|apply emits_ret]. destruct (_ || _); [apply emits_ret|].
    cbv zeta. apply emits_bind; [emit|]. intros [[]|what]; [|apply emits_ret].
    apply emits_bind; [emit|intros r; apply emits_ret]. }
  intros [prepared staged]. apply emits_bind.
  - destruct prepared as [[]|out]; [|apply emits_ret]. apply emits_bind.
    + apply emits_bind; [apply dfuUtil_silent|intros r; apply emits_ret].
    + intros [[]|out]; [|apply emits_ret]. cbv zeta. destruct (detachAfterFlash cfg); [|apply emits_ret].
      apply emits_bind; [apply dfuUtil_silent|intros d; apply emits_ret].
  - intros r. apply emits_bind; [|intros []; apply emits_ret].
    unfold StagedImage_destroy. destruct (temporary staged); [emit|apply emits_ret].
Qed.

Lemma recovery_silent cfg image bundle probed session :
  emits silent (performRecovery cfg image bundle probed session).
Proof.
  apply emits_bind; [apply watching_silent, preflight_watching|]. intros [out|out]; [|apply emits_ret]. cbv zeta.
  apply emits_bind; [destruct probed; [apply emits_ret|apply watching_silent, getRecoveryStatus_watching]|].
  intros status. case_match; [apply emits_ret|].
  apply emits_bind; [apply unstaged_silent, enter_unstaged|]. intros r.
  apply emits_bind; [apply unstaged_silent, and_then_unstaged; intros o' s; apply boot_unstaged|]. intros r'.
  apply emits_bind.
  { destruct r' as [[o'|o'] s]; [|apply emits_ret]. apply emits_bind; [apply flash_silent|].
    intros [o''|o'']; [apply emits_ret|apply unstaged_silent, abandon_unstaged]. }
  intros r''. apply emits_bind; [apply unstaged_silent, and_then_unstaged; intros o' s; apply leave_unstaged|].
  intros [[o'|o'] s]; apply emits_ret.
Qed.

(** ** A device *)

(** Only a healthy HMC is skipped. *)
Lemma skipped_healthy cfg image bundle status session :
  returns (performRecovery cfg image bundle (Some status) session)
    (λ r, r.1.1 = Skipped → state status = NotInRecovery).
Proof.
  intros w. destruct (recovery_in_order cfg image bundle status session w) as (es & _ & [[Hf _]|Hd]);
    [by rewrite Hf|]. intros Hs. rewrite Hs in Hd. destruct Hd as [Hh _]. unfold healthy in Hh.
  by apply andb_prop in Hh as [_ ?%bool_decide_eq_true].
Qed.

Lemma failure_code out : failure out → ∃ c, errorCodeOf out = code c.
Proof. intros (_ & _ & _ & c & Hc). exists c. unfold errorCodeOf. by rewrite Hc. Qed.

(** What the recovery of a device that is not healthy answers. *)
Lemma recovery_answers cfg image bundle status session :
  state status ≠ NotInRecovery →
  logs (performRecovery cfg image bundle (Some status) session) (λ r l,
    l = [] ∧ r.1.1 ≠ Skipped ∧ (r.1.1 = Failed → ∃ c, errorCodeOf r.1.2 = code c)).
Proof.
  intros Hs w. destruct (recovery_silent cfg image bundle (Some status) session w) as (es & Hes & Hl).
  exists es. split; [done|]. split_and!.
  - by apply silent_logged.
  - intros Hr. by apply (skipped_healthy cfg image bundle status session w) in Hr.
  - intros Hr. pose proof (outcome_reported cfg image bundle (Some status) session w) as Ho.
    cbv beta in Ho. rewrite Hr in Ho. by apply failure_code.
Qed.

(** Every code leaves its entry. *)
Lemma error_logs c device :
  logs (log_error (code c) device) (λ _ l, Some <$> l = [error_entry (code c) device]).
Proof.
  eapply does_impl; [apply log_logs|]. cbv beta. intros [] es ->. fold (error_entry (code c) device).
  destruct (proj2 (reported_error resourceErrorsDetected USBDFURecovery (code c) device Critical)
    (code_reportable c)) as [e He]. unfold error_entry. by rewrite He.
Qed.

Lemma device_answered package device interfaces :
  logs (recover_device o package device interfaces) (λ failed l, answered device (Some <$> l) failed).
Proof.
  unfold recover_device. destruct (device_config o interfaces) as [cfg|what].
  - apply logs_skip; [apply watching_silent, getRecoveryStatus_watching|]. intros status.
    destruct (decide (state status = NotInRecovery)) as [Hs|Hs].
    + eapply logs_bind; [apply log_logs|]. intros [] ? ->. apply logs_ret. constructor.
    + eapply logs_bind; [apply log_logs|]. intros [] ? ->.
      eapply logs_bind; [by apply recovery_answers|]. intros [[outcome out] session] ? (-> & Hk & Hf).
      cbn [fst snd] in *. destruct outcome; [|done|].
      * eapply logs_bind; [apply log_logs|]. intros [] ? ->.
        apply logs_skip; [apply unstaged_silent, release_unstaged|]. intros s. apply logs_ret. constructor.
      * destruct (Hf eq_refl) as [c ->]. eapply logs_bind; [apply error_logs|]. intros [] l Hl.
        apply logs_skip; [apply unstaged_silent, release_unstaged|]. intros s. apply logs_ret.
        rewrite app_nil_l, app_nil_r, fmap_app, Hl. apply (answered_failed device c).
  - eapply logs_bind; [apply error_logs|]. intros [] l Hl. apply logs_ret. rewrite app_nil_r, Hl. constructor.
Qed.

(** ** The worker *)

(** The devices, each with what it left and whether it failed. *)
Lemma devices_answered package targets :
  logs (recover_devices o package targets) (λ failed l, ∃ answers,
    Forall2 (λ target answer, answered target.1 (Some <$> answer.1) answer.2) targets answers ∧
    l = concat answers.*1 ∧ failed = existsb id answers.*2).
Proof.
  induction targets as [|[device interfaces] targets IH]; [apply logs_ret; by exists []|]. cbn [recover_devices].
  eapply logs_bind; [apply device_answered|]. intros failed l Hl.
  eapply logs_bind; [exact IH|]. intros rest l' (answers & Hf & -> & ->). apply logs_ret.
  exists ((l, failed) :: answers). rewrite app_nil_r. split_and!; [by constructor|done|done].
Qed.

Lemma errors_logged c devices :
  logs (log_errors (code c) devices) (λ _ l, Some <$> l = error_entry (code c) <$> devices).
Proof.
  induction devices as [|device devices IH]; [by apply logs_ret|]. cbn [log_errors].
  eapply logs_bind; [apply error_logs|]. intros [] l Hl.
  eapply does_impl; [exact IH|]. cbv beta. intros [] es Hes. rewrite fmap_app, Hl, Hes. done.
Qed.

Lemma resolve_silent packageDir : emits silent (resolvePackageComponents packageDir).
Proof.
  apply emits_bind; [emit|]. intros [|]; [|apply emits_ret].
  enough (Hr : ∀ components contents, emits silent (resolve_components packageDir components contents)) by apply Hr.
  induction components as [|c components IH]; intros contents; [apply emits_ret|]. cbn [resolve_components].
  cbv zeta. apply emits_bind; [emit|]. intros entries.
  destruct (regular_entries _ _) as [|file [|]]; [destruct (comp_optional c); [apply IH|apply emits_ret]|apply IH|apply emits_ret].
Qed.

(** The answers of the devices, by the entries they should leave. *)
Definition as_entries (answer : list Entry * bool) : list (option Entry) * bool := (Some <$> answer.1, answer.2).

Lemma answers_entries answers : Some <$> concat answers.*1 = concat (as_entries <$> answers).*1.
Proof. induction answers as [|a answers IH]; [done|]. cbn. by rewrite fmap_app, IH. Qed.

Lemma answers_failed answers : (as_entries <$> answers).*2 = answers.*2.
Proof. by induction answers as [|a answers IH]; [|cbn; rewrite IH]. Qed.

(** What the worker answers for the devices that are configured. *)
Inductive worker_answer (targets : list string) : Z → list (option Entry) → Prop :=
| no_devices : targets = [] → worker_answer targets (-1) [error_entry noDevicesFound fallbackDeviceName]
| package_incomplete :
    targets ≠ [] → worker_answer targets (-1) (error_entry (code PackageIncomplete) <$> targets)
| devices_done answers :
    targets ≠ [] →
    Forall2 (λ device answer, answered device answer.1 answer.2) targets answers →
    worker_answer targets (if existsb id answers.*2 then -1 else 0) (concat answers.*1).

(** The worker answers for every device that is configured, in order: each leaves
    the entries of one of the outcomes; and the exit status is zero exactly when
    none has failed. *)
Theorem worker_answers dir args :
  does (usbdfuServiceMain o (dir :: args)) (λ status es, ∃ objects rest,
    es = existT (GetManagedObjects entityManagerService entityManagerObjManager) objects :: rest ∧
    worker_answer (targets_of objects).*1 status (Some <$> logged es)).
Proof.
  refine (does_step (reply := reply) (GetManagedObjects _ _) _ _ _). intros objects. cbv zeta.
  apply (does_impl _ (λ status es, worker_answer (targets_of objects).*1 status (Some <$> logged es)));
    [|intros status es Hw; by exists objects, es].
  change (logs (if decide ((targets_of objects).*1 = []) then
      _ ← log_error noDevicesFound fallbackDeviceName; mret (-1)%Z
    else
    resolved ← resolvePackageComponents dir;
    match resolved with
    | Throw _ => _ ← log_errors (code PackageIncomplete) (targets_of objects).*1; mret (-1)%Z
    | Ok package =>
        failed ← recover_devices o package (targets_of objects);
        mret (if failed : bool then (-1)%Z else 0%Z)
    end) (λ status l, worker_answer (targets_of objects).*1 status (Some <$> l))).
  case_decide as Ht.
  { eapply logs_bind; [apply log_logs|]. intros [] ? ->. apply logs_ret. by constructor. }
  apply logs_skip; [apply resolve_silent|]. intros [package|out].
  - eapply logs_bind; [apply devices_answered|]. intros failed l (answers & Hf & -> & ->). apply logs_ret.
    rewrite app_nil_r, answers_entries, <- answers_failed. by apply devices_done, Forall2_fmap.
  - eapply logs_bind; [apply errors_logged|]. intros [] l Hl. apply logs_ret. rewrite app_nil_r, Hl. by constructor.
Qed.
End Worker.

(** ** The package *)

(** The regular files of a directory that was listed. *)
Definition regular_files (e : Event (reply := reply)) : option (list string) :=
  let '(existT c r) := e in
  match c return reply c → option (list string) with
  | ListDirectory path => λ entries, Some (regular_entries path entries)
  | _ => λ _, None
  end r.

Abbreviation listed := (omap regular_files).

(** A component has one file, or is optional and has none. *)
Definition fits (c : Component) (files : list string) : bool :=
  match files with [_] => true | [] => comp_optional c | _ => false end.

Section Package.
Context `{DfuEnv} (dir : string).

(** What a package is resolved to from the files of its components; or the
    first component that does not fit. *)
Definition resolved (components : list Component) (files : list (list string)) (bundle : list string)
    (r : res members PackageContents) : Prop :=
  match r with
  | Ok package =>
      Forall2 (λ c l, fits c l = true) components files ∧
      (bundle ++ concat files)%list = (pk_bundle package ++ [firmwareImage package])%list
  | Throw out =>
      members_find out "ErrorCode" = Some (JUnsigned (code PackageIncomplete)) ∧
      ∃ before c after ok bad, components = (before ++ c :: after)%list ∧ files = (ok ++ [bad])%list ∧
        Forall2 (λ c l, fits c l = true) before ok ∧ fits c bad = false
  end.

Lemma resolved_cons c components l files bundle r :
  fits c l = true → resolved components files (bundle ++ l) r → resolved (c :: components) (l :: files) bundle r.
Proof.
  intros Hf. destruct r as [package|out]; cbn [resolved].
  - intros [Hfs Hb]. split; [by constructor|]. rewrite <- Hb, <- app_assoc. done.
  - intros [He (before & c' & after & ok & bad & -> & -> & Hfs & Hbad)]. split; [done|].
    exists (c :: before), c', after, (l :: ok), bad. split_and!; [done|done|by constructor|done].
Qed.

Lemma resolved_bad c components l bundle error :
  fits c l = false → resolved (c :: components) [l] bundle (Throw (incomplete error)).
Proof.
  intros Hl. split; [unfold incomplete, setFailure, set_code; find_members; done|].
  by exists [], c, components, [], l.
Qed.

(** The components of the bundle, and the image, which is the last. *)
Lemma components_resolved components image contents :
  Forall (λ c, comp_firmware c = false) components → comp_firmware image = true → comp_optional image = false →
  does (resolve_components dir (components ++ [image]) contents)
    (λ r es, resolved (components ++ [image]) (listed es) (pk_bundle contents) r).
Proof.
  intros Hc Hi Ho. revert contents. induction Hc as [|c components Hcf Hc IH]; intros contents;
    cbn [app resolve_components]; refine (does_step (reply := reply) (ListDirectory _) _ _ _); intros entries; cbv zeta.
  - destruct (regular_entries _ entries) as [|file [|file' l]] eqn:Hl.
    + rewrite Ho. apply does_ret. cbn [omap list_omap regular_files]. rewrite Hl. by apply resolved_bad.
    + rewrite Hi. apply does_ret. cbn [omap list_omap regular_files]. rewrite Hl.
      split; [by repeat constructor|done].
    + apply does_ret. cbn [omap list_omap regular_files]. rewrite Hl. by apply resolved_bad.
  - destruct (regular_entries _ entries) as [|file [|file' l]] eqn:Hl.
    + destruct (comp_optional c) eqn:Hopt.
      * eapply does_impl; [apply IH|]. intros r es Hr. cbn [omap list_omap regular_files]. rewrite Hl.
        apply resolved_cons; [done|]. by rewrite app_nil_r.
      * apply does_ret. cbn [omap list_omap regular_files]. rewrite Hl. by apply resolved_bad.
    + rewrite Hcf. eapply does_impl; [apply IH|]. intros r es Hr. cbn [omap list_omap regular_files]. rewrite Hl.
      by apply resolved_cons.
    + apply does_ret. cbn [omap list_omap regular_files]. rewrite Hl. by apply resolved_bad.
Qed.

(** A package is complete when each component has one file, save the optional
    ones that may have none; the bundle is then their files in the order of the
    map, and the image that of the last. What is resolved otherwise is the
    directory that is missing, or the first component that does not fit. *)
Theorem package_resolved :
  does (resolvePackageComponents dir) (λ r es, ∃ directory rest,
    es = existT (IsDirectory dir) directory :: rest ∧
    if directory then resolved componentMap (listed rest) [] r
    else rest = [] ∧ ∃ out, r = Throw out).
Proof.
  refine (does_step (reply := reply) (IsDirectory dir) _ _ _). intros [|].
  - eapply does_impl; [apply (components_resolved (removelast componentMap)); [by repeat constructor|done|done]|].
    intros r es Hr. by exists true, es.
  - apply does_ret. exists false, []. split; [done|]. split; [done|by eexists].
Qed.
End Package.
