(* ===== verification/DfuExample.v ===== *)
(** * A bench for the USB DFU recovery

    An environment on which a recovery of
    src/recovery_tool/usbdfu_recovery_tool succeeds, on which the theorems of the
    other files are applied: the lines are there, dfu-util succeeds and lists the
    targets of recovery U-Boot, and the boot ROM is on port 1-1.3. *)

From stdpp Require Import list strings gmap.
From Stdlib Require Import Ascii.
From S2P Require Import Prelude Json Text Trace Registry DfuStatus DfuRecovery DfuLines DfuOrder DfuImage DfuMain DfuWorker.

#[local] Open Scope string_scope.

Definition bench_objects : list (string * InterfaceMap) :=
  [("/xyz/openbmc_project/inventory/HMC_0",
    {[usbDfuRecoveryObjInterface :=
        {["RecoveryGpioName" := Some "RECOVERY"; "ResetGpioName" := Some "RESET"; "SpiMuxGpioName" := Some "MUX"]}]})].

Definition bench_reply (c : Call) : reply c :=
  match c with
  | FindLine _ => Ok true
  | RequestLine _ | SetValue _ _ | CopyFile _ _ | ResizeFile _ _ => Ok ()
  | RunProcess argv _ =>
      Some (if is_listing argv then print_listed (listed_ex "0" "recovery_cs0") else "", Some 0%Z)
  | Now => 0%Z
  | ListDirectory _ => [("1-1.3", true)]
  | ReadLine path => Some (if decide (path_filename path = "idVendor") then "2245" else "2700")
  | IsRegularFile _ | IsDirectory _ => true
  | FileSize _ => Ok 0x4000000%Z
  | ReadJson _ => None
  | GetManagedObjects _ _ => bench_objects
  | ReleaseLine _ | DropLine _ | SleepFor _ | RemoveFile _ | CreateEntry _ => ()
  end.

#[export] Instance bench : DfuEnv := {| env_state := (); respond := λ c _, (bench_reply c, ()) |}.

Definition start : World (reply := reply) := mkWorld () [].

Definition bench_config : Config :=
  {| Config_default with
     recoveryGpioName := "RECOVERY"; resetGpioName := "RESET"; spiMuxGpioName := "MUX";
     dfuUtilPath := "/usr/bin/dfu-util"; forceRecovery := true; verifyAfterRecovery := false |}.

(** A recovery that is forced sends its bundle and the cut image, between the
    straps. *)
Example bench_recovers :
  let '(outcome, _, _, w) := performRecovery bench_config "hmc.bin" ["caliptra.bin"] None no_lines start in
  outcome = Recovered ∧ moves (w_trace w) = recovery_plan bench_config false false ["caliptra.bin"] "hmc.bin.dfu".
Proof. by vm_compute. Qed.

Lemma lines_returned_witness :
  NoDup ["MUX"; "RECOVERY"; "RESET"] ∧
  leaves (gpio_step bench_config) (λ s, s = ∅) ∅ (performRecovery bench_config "hmc.bin" ["caliptra.bin"] None no_lines).
Proof.
  assert (Hn : NoDup ["MUX"; "RECOVERY"; "RESET"]) by (apply (bool_decide_unpack _); by vm_compute).
  split; [exact Hn|]. apply (lines_returned bench_config Hn).
Defined.

Lemma tail_never_sent_witness :
  leaves (staging_step bench_config "hmc.bin") (λ s, copy_there s = false) (mkStaging false false false)
    (performRecovery bench_config "hmc.bin" ["caliptra.bin"] None no_lines).
Proof. apply (tail_never_sent bench_config "hmc.bin"). reflexivity. Defined.

Lemma polls_bounded_witness :
  does (pollUntil 10000 3000 (mret (None : option ()))) (λ r es,
    slept es ≤ Z.max 0 10000 ∧
    naps es * Z.max 1 3000 ≤ Z.max 0 10000 + Z.max 1 3000 - 1 ∧
    (r = None → slept es = Z.max 0 10000 ∨
       ∃ start rest now, es = existT Now start :: rest ∧ read_at now rest ∧
         start + Z.max 0 10000 * 1000000 ≤ now))%Z.
Proof. apply (polls_bounded (mret (None : option ()))). apply emits_ret. Defined.

(** The package has one file for each component, and the device leaves its
    entries; but its boot ROM has not left the bus. *)
Example bench_worker :
  let '(status, w) := usbdfuServiceMain
    (mkBuildOptions "/usr/bin/dfu-util" "recovery_cs0" defaultFlashLengthBytes 300) ["/tmp/images/1"] start in
  (status, Some <$> logged (w_trace w)) =
    ((-1)%Z, [message_entry recoveryStarted "HMC_0";
              error_entry (code RecoveryVerificationFailed) "HMC_0"]).
Proof. by vm_compute. Qed.
