(* ===== verification/McuManager.v ===== *)
(** * The MCU recovery manager and its environment

    What src/recovery_tool/mcu_recovery_tool asks of libgpiod, of libusb, of the I2C
    bus, of the processes it runs, of the file system and of D-Bus is the type [Call];
    nothing is assumed of the answers. A GPIO line is known by its name, a USB device
    by a number. The methods of the manager change its state and may throw: they have
    a monad of their own. The manager itself is that of mcu_recovery_manager.hpp and
    .cpp: an MCU is held in its boot loader by a strap and a reset pulse, checked and
    flashed through blhost, and let go. Methods are given identifiers of [mcuMap]. *)

From stdpp Require Import list strings gmap.
From Stdlib Require Import Ascii.
From S2P Require Import Prelude Json Bytes Text Trace Registry.

(** * The MCU recovery tool: its environment *)

Inductive Call :=
(* libgpiod *)
| FindLine (name : string)
| RequestLine (name : string) (value : Z)
| SetValue (name : string) (value : Z)
| ReleaseLine (name : string)
| SleepUs (us : Z)
(* libusb *)
| UsbInit
| UsbExit
| GetDeviceList
| FreeDeviceList (devices : list nat)
| GetPortNumbers (device : nat)
| GetBusNumber (device : nat)
| GetDeviceAddress (device : nat)
| GetDeviceDescriptor (device : nat)
| GetActiveConfigDescriptor (device : nat)
| FreeConfigDescriptor (device : nat)
(* an I2C bus: [open], [I2C_SLAVE], a quick write, [close] *)
| OpenDevice (path : string)
| SetSlave (fd : Z) (address : Z)
| QuickWrite (fd : Z)
| CloseFd (fd : Z)
(* [popen], reading all of the output, and [pclose] *)
| RunCommand (command : string)
| ReadFile (path : string)
(* a file that opens, and the JSON value it holds if it parses *)
| ReadJson (path : string)
(* D-Bus: the objects with the recovery interface, and their properties *)
| GetSubTree
| GetString (path property : string)
| GetUint64 (path property : string)
| CreateEntry (entry : Entry).

(** A call of libgpiod answers whether it returns or throws; a call of libusb,
    its error or its result. A device descriptor is filled whatever the result:
    vendor and product. A configuration is the classes of the alternate settings
    of each interface. *)
Definition reply (c : Call) : Type :=
  match c with
  | FindLine _ => option bool
  | RequestLine _ _ | SetValue _ _ | ReleaseLine _ => bool
  | UsbInit => Z
  | GetDeviceList => res Z (list nat)
  | GetPortNumbers _ => res Z (list Z)
  | GetBusNumber _ | GetDeviceAddress _ => Z
  | GetDeviceDescriptor _ => Z * (Z * Z)
  | GetActiveConfigDescriptor _ => res Z (list (list Z))
  | OpenDevice _ => option Z
  | SetSlave _ _ | QuickWrite _ => bool
  | RunCommand _ => option string
  | ReadFile _ => option buffer
  | ReadJson _ => option (option json)
  | GetSubTree => list string
  | GetString _ _ => option string
  | GetUint64 _ _ => option Z
  | SleepUs _ | UsbExit | FreeDeviceList _ | FreeConfigDescriptor _ | CloseFd _ | CreateEntry _ => ()
  end.

Abbreviation McuEnv := (Env reply).

(** What stops a method: an exception, which a handler may catch, or behaviour
    that is undefined. *)
Inductive Fault := Exception | Undefined.

(** ** Methods *)

Section Methods.
Context {S : Type} `{McuEnv}.

(** A method on a state [S]. *)
Definition T (A : Type) : Type := S → M (res Fault A * S).

#[export] Instance T_ret : MRet T := λ A a s, mret (Ok a, s).
#[export] Instance T_bind : MBind T := λ A B f m s,
  '(r, s) ← m s;
  match r with Ok a => f a s | Throw e => mret (Throw e, s) end.

Definition throw {A} (e : Fault) : T A := λ s, mret (Throw e, s).

(** [catch (const std::exception&)] *)
Definition catch (m handler : T ()) : T () := λ s,
  '(r, s) ← m s;
  match r with
  | Throw Exception => handler s
  | r => mret (r, s)
  end.

(** A program that does not touch the state. *)
Definition lift {A} (m : M A) : T A := λ s, a ← m; mret (Ok a, s).

Definition get : T S := λ s, mret (Ok s, s).
Definition modify (f : S → S) : T () := λ s, mret (Ok (), f s).

(** A call, which throws when it answers false. *)
Definition or_throw (ok : bool) : T () := if ok then mret () else throw Exception.

(** ** What a method does *)

(** [ensures m s R]: from [s], whatever the world, [m] ends with [r] in [s']
    having made calls [es], with [R r s' es]. *)
Definition ensures {A} (m : T A) (s : S) (R : res Fault A → S → list (Event (reply := reply)) → Prop) : Prop :=
  does (m s) (λ rs es, R rs.1 rs.2 es).

Lemma ensures_ret {A} (a : A) s (R : res Fault A → S → list (Event (reply := reply)) → Prop) :
  R (Ok a) s [] → ensures (mret a) s R.
Proof. intros HR. by apply (does_ret (Ok a, s)). Qed.

Lemma ensures_throw {A} e s (R : res Fault A → S → list (Event (reply := reply)) → Prop) :
  R (Throw e) s [] → ensures (throw e) s R.
Proof. intros HR. by apply (does_ret (Throw e, s)). Qed.

Lemma ensures_get s (R : res Fault S → S → list (Event (reply := reply)) → Prop) :
  R (Ok s) s [] → ensures get s R.
Proof. intros HR. by apply (does_ret (Ok s, s)). Qed.

Lemma ensures_modify f s (R : res Fault () → S → list (Event (reply := reply)) → Prop) :
  R (Ok ()) (f s) [] → ensures (modify f) s R.
Proof. intros HR. by apply (does_ret (Ok (), f s)). Qed.

Lemma ensures_impl {A} (m : T A) s (R R' : res Fault A → S → list (Event (reply := reply)) → Prop) :
  ensures m s R → (∀ r s' es, R r s' es → R' r s' es) → ensures m s R'.
Proof. intros Hm HR. eapply does_impl; [exact Hm|]. intros [r s'] es. apply HR. Qed.

Lemma ensures_and {A} (m : T A) s (R R' : res Fault A → S → list (Event (reply := reply)) → Prop) :
  ensures m s R → ensures m s R' → ensures m s (λ r s' es, R r s' es ∧ R' r s' es).
Proof. intros Hm Hm'. exact (does_and _ _ _ Hm Hm'). Qed.

(** A part that only reads or changes the state. *)
Lemma ensures_pure {A B} (m : T A) (f : A → T B) s a s1 (R : res Fault B → S → list (Event (reply := reply)) → Prop) :
  m s = mret (Ok a, s1) → ensures (f a) s1 R → ensures (m ≫= f) s R.
Proof. unfold ensures, mbind, T_bind. by intros ->. Qed.

Lemma ensures_bind {A B} (m : T A) (f : A → T B) s
    (R1 : res Fault A → S → list (Event (reply := reply)) → Prop)
    (R : res Fault B → S → list (Event (reply := reply)) → Prop) :
  ensures m s R1 →
  (∀ a s1 es, R1 (Ok a) s1 es → ensures (f a) s1 (λ r s' es', R r s' (es ++ es'))) →
  (∀ e s1 es, R1 (Throw e) s1 es → R (Throw e) s1 es) →
  ensures (m ≫= f) s R.
Proof.
  intros Hm Hf He. eapply does_bind; [exact Hm|]. intros [[a|e] s1] es HR1.
  - by apply Hf.
  - apply does_ret. rewrite app_nil_r. by apply He.
Qed.

Lemma ensures_catch (m handler : T ()) s
    (R1 R : res Fault () → S → list (Event (reply := reply)) → Prop) :
  ensures m s R1 →
  (∀ s1 es, R1 (Throw Exception) s1 es → ensures handler s1 (λ r s' es', R r s' (es ++ es'))) →
  (∀ r s1 es, r ≠ Throw Exception → R1 r s1 es → R r s1 es) →
  ensures (catch m handler) s R.
Proof.
  intros Hm Hh Hr. eapply does_bind; [exact Hm|]. intros [r s1] es HR1.
  destruct r as [a|[|]]; [|by apply Hh|]; apply does_ret; rewrite app_nil_r; by apply Hr.
Qed.

Lemma ensures_lift {A} (m : M A) s (R1 : A → list (Event (reply := reply)) → Prop)
    (R : res Fault A → S → list (Event (reply := reply)) → Prop) :
  does m R1 → (∀ a es, R1 a es → R (Ok a) s es) → ensures (lift m) s R.
Proof.
  intros Hm HR. eapply does_bind; [exact Hm|]. intros a es Ha. apply does_ret.
  rewrite app_nil_r. by apply HR.
Qed.

Lemma ensures_call c s (R : res Fault (reply c) → S → list (Event (reply := reply)) → Prop) :
  (∀ r, R (Ok r) s [existT c r]) → ensures (lift (call c)) s R.
Proof.
  intros HR. apply (ensures_lift (call c) s (λ r es, es = [existT c r])); [by apply does_call|].
  intros r ? ->. apply HR.
Qed.

(** A call first. *)
Lemma ensures_step {B} c (f : reply c → T B) s (R : res Fault B → S → list (Event (reply := reply)) → Prop) :
  (∀ r, ensures (f r) s (λ r' s' es, R r' s' (existT c r :: es))) → ensures (lift (call c) ≫= f) s R.
Proof.
  intros Hf. apply (ensures_bind _ _ _ (λ r s1 es, ∃ a, r = Ok a ∧ s1 = s ∧ es = [existT c a])).
  - apply ensures_call. intros r. by exists r.
  - intros a s1 es (? & [= <-] & -> & ->). apply Hf.
  - by intros e s1 es (? & ? & _).
Qed.
End Methods.

Arguments T _ {_} _.
Arguments ensures_call {_ _} c s R _.
Arguments ensures_step {_ _ _} c f s R _.

(** * The recovery of MCUs *)

#[local] Open Scope string_scope.

(** ** Configuration and state *)

(** [recovery_tool/mcu_recovery_tool/mcu_recovery_manager.hpp:41-52 parseActiveLowPolarity] *)
Definition parseActiveLowPolarity (value : string) : option bool :=
  if decide (value = "ActiveHigh") then Some false else
  if decide (value = "ActiveLow") then Some true else None.

(** [recovery_tool/mcu_recovery_tool/mcu_recovery_manager.hpp:54-60 lenEncryptKey]
    and the other constants. *)
Definition lenEncryptKey : nat := 96.
Definition nvdaVendorId : Z := 0x0955.
Definition mcuResetActiveUs : Z := 500000.
Definition mcuResetDelaySec : Z := 3.
Definition LIBUSB_CLASS_MCTP : Z := 0x14.
Definition LIBUSB_CLASS_HID : Z := 3.
Definition LIBUSB_SUCCESS : Z := 0.

(** [recovery_tool/mcu_recovery_tool/mcu_recovery_manager.hpp:83-88 InterfaceType] *)
Inductive InterfaceType := USB | I2C | Unknown.

#[export] Instance InterfaceType_eq_dec : EqDecision InterfaceType.
Proof. solve_decision. Defined.

(** [recovery_tool/mcu_recovery_tool/mcu_recovery_manager.hpp:70-89 MCUInfo] *)
Record MCUInfo := mkMCUInfo {
  device : string;
  usbPort : string;
  resetGpioName : string;
  recoveryGpioName : string;
  i2cBus : Z;
  normalI2cAddress : Z;
  recoveryI2cAddress : Z;
  functionalPid : Z;
  resetActiveLow : bool;
  recoveryActiveLow : bool;
  interfaceType : InterfaceType;
}.

Definition MCUInfo_default : MCUInfo := mkMCUInfo "" "" "" "" 0 0 0 0 true true Unknown.

(** [recovery_tool/mcu_recovery_tool/mcu_recovery_manager.hpp:99-108 MCUDevice]
    A line is known by its name. *)
Record MCUDevice := mkMCUDevice {
  curUsbDevice : option nat;
  idVendor : Z;
  idProduct : Z;
  resetPin : option string;
  recoveryPin : option string;
  inRecoveryMode : bool;
  hasMctpClass : bool;
  i2cHealthy : bool;
}.

Definition MCUDevice_default : MCUDevice := mkMCUDevice None 0 0 None None false false false.

(** [recovery_tool/mcu_recovery_tool/mcu_recovery_manager.hpp:271-275 MCURecoveryManager]
    [messageRegistry] and [context] by whether they are there. *)
Record Manager := mkManager {
  context : bool;
  mcuMap : list (string * MCUInfo);
  mcuDevices : gmap string MCUDevice;
  messageRegistry : bool;
}.

(** [recovery_tool/mcu_recovery_tool/mcu_recovery_manager.cpp:53-54 MCURecoveryManager] *)
Definition Manager_new : Manager := mkManager false [] ∅ false.

(** [recovery_tool/mcu_recovery_tool/mcu_recovery_manager.cpp:36-46 gpioInactive] *)
Definition gpioInactive (activeLow : bool) : Z := if activeLow then 1 else 0.
Definition gpioActive (activeLow : bool) : Z := if activeLow then 0 else 1.

(** [recovery_tool/common/message_registry.hpp:115-125 MCURecoveryErrorCode] *)
Inductive MCURecoveryErrorCode :=
| CmdExecFailed | DevNotProvisioned | GetSecurityStateFailed | NotSecureDevice | ReadMemoryFailed
| EncryptKeyNotSet | SbFileWriteFailed | InvalidSBFile.

Definition code (c : MCURecoveryErrorCode) : Z :=
  match c with
  | CmdExecFailed => 1 | DevNotProvisioned => 2 | GetSecurityStateFailed => 3 | NotSecureDevice => 4
  | ReadMemoryFailed => 5 | EncryptKeyNotSet => 6 | SbFileWriteFailed => 7 | InvalidSBFile => 8
  end.

(** [recovery_tool/mcu_recovery_tool/utils.cpp:524-530 toHexString] *)
Definition toHexString (value : Z) : string := format_hex 4 value.

(** The lines that [std::getline] reads; a last line that is empty is not one, but
    is of no effect where they are searched. *)
Definition lines_of (output : string) : list string := split "010" output.

(** [recovery_tool/mcu_recovery_tool/utils.cpp:552-565 isCommandSuccessful] *)
Definition isCommandSuccessful (output : string) : bool :=
  existsb (λ line, contains "Response status" line && contains "Success" line) (lines_of output).

(** [recovery_tool/mcu_recovery_tool/mcu_recovery_manager.cpp:91-97 getI2cTarget] *)
Definition getI2cTarget (bus address : Z) : string :=
  "/dev/i2c-" +:+ to_string bus +:+ ",0x" +:+ hex16 address.

Definition hex_only (line : string) : string :=
  String.string_of_list_ascii (base.filter (λ c, is_Some (hex_char c)) (String.list_ascii_of_string line)).

(** [recovery_tool/mcu_recovery_tool/mcu_recovery_manager.cpp:521-550 isEncryptKeyEmpty]
    The loop over the lines. *)
Fixpoint key_data (dataStarted : bool) (hexData : string) (lines : list string) : string :=
  match lines with
  | [] => hexData
  | line :: lines =>
      if contains "Successful response to command 'read-memory'" line then key_data true hexData lines else
      let hexData :=
        if dataStarted && (String.length hexData <? lenEncryptKey)%nat then hexData +:+ hex_only line
        else hexData in
      if (lenEncryptKey <=? String.length hexData)%nat then hexData else key_data dataStarted hexData lines
  end.

(** [recovery_tool/mcu_recovery_tool/mcu_recovery_manager.cpp:519-562 isEncryptKeyEmpty] *)
Definition isEncryptKeyEmpty (rawData : string) : bool :=
  let hexData := key_data false "" (lines_of rawData) in
  if decide (String.length hexData ≠ lenEncryptKey) then false
  else forallb (λ c, bool_decide (c = "0"%char)) (String.list_ascii_of_string hexData).

(** [recovery_tool/mcu_recovery_tool/mcu_recovery_manager.cpp:354-381 updateDevHealth]
    Whether it is in recovery mode, and whether it has the MCTP class, by the
    classes of its settings. *)
Fixpoint health (hasHidClass : bool) (classes : list Z) : bool * bool :=
  match classes with
  | [] => (hasHidClass, false)
  | c :: classes =>
      if decide (c = LIBUSB_CLASS_MCTP) then (false, true)
      else health (hasHidClass || bool_decide (c = LIBUSB_CLASS_HID)) classes
  end.

Section Manager.
Context `{McuEnv}.

Abbreviation T := (T Manager).

Definition info (deviceId : string) : T MCUInfo :=
  s ← get; mret (default MCUInfo_default (assoc deviceId (mcuMap s))).

(** [mcuDevices[deviceId]], which is there from then on. *)
Definition dev (deviceId : string) : T MCUDevice :=
  s ← get;
  match mcuDevices s !! deviceId with
  | Some d => mret d
  | None =>
      _ ← modify (λ s, {| s with mcuDevices := <[deviceId := MCUDevice_default]> (mcuDevices s) |});
      mret MCUDevice_default
  end.

Definition set_dev (deviceId : string) (f : MCUDevice → MCUDevice) : T () :=
  d ← dev deviceId;
  modify (λ s, {| s with mcuDevices := <[deviceId := f d]> (mcuDevices s) |}).

(** The identifiers of [mcuDevices], in order: all are of [mcuMap]. *)
Definition device_ids (s : Manager) : list string :=
  base.filter (λ deviceId, is_Some (mcuDevices s !! deviceId)) (mcuMap s).*1.

(** [for (x : l)] whose body may throw. *)
Fixpoint loop {A} (body : A → T ()) (l : list A) : T () :=
  match l with [] => mret () | x :: l => _ ← body x; loop body l end.

(** ** The state of a device *)

(** [recovery_tool/mcu_recovery_tool/mcu_recovery_manager.cpp:99-137 probeI2cAddress] *)
Definition probeI2cAddress (i : MCUInfo) (address : Z) : M bool :=
  fd ← call (OpenDevice ("/dev/i2c-" +:+ to_string (i2cBus i)));
  match fd with
  | None => mret false
  | Some fd =>
      addressed ← call (SetSlave fd address);
      if negb addressed then _ ← call (CloseFd fd); mret false else
      written ← call (QuickWrite fd);
      _ ← call (CloseFd fd);
      mret written
  end.

(** [recovery_tool/mcu_recovery_tool/mcu_recovery_manager.cpp:139-160 updateI2cDevInfo] *)
Definition updateI2cDevInfo (deviceId : string) : T bool :=
  _ ← dev deviceId;
  i ← info deviceId;
  healthy ← lift (probeI2cAddress i (normalI2cAddress i));
  _ ← set_dev deviceId (λ d, {| d with i2cHealthy := healthy |});
  recovery ← lift (probeI2cAddress i (recoveryI2cAddress i));
  _ ← set_dev deviceId (λ d, {| d with inRecoveryMode := recovery |});
  mret (healthy || recovery).

(** [recovery_tool/mcu_recovery_tool/mcu_recovery_manager.cpp:328-349 getFullPortPath] *)
Definition getFullPortPath (device : nat) : M string :=
  ports ← call (GetPortNumbers device);
  match ports with
  | Throw _ => mret ""
  | Ok ports =>
      bus ← call (GetBusNumber device);
      mret (to_string bus +:+ "-" +:+ join "." (to_string <$> ports))
  end.

(** [recovery_tool/mcu_recovery_tool/mcu_recovery_manager.cpp:351-382 updateDevHealth] *)
Definition updateDevHealth (deviceId : string) (config : list (list Z)) : T () :=
  let '(recovery, mctp) := health false (concat config) in
  set_dev deviceId (λ d, {| d with inRecoveryMode := recovery; hasMctpClass := mctp |}).

(** [recovery_tool/mcu_recovery_tool/mcu_recovery_manager.cpp:404-439 updateUsbDevInfo]
    The loop over the devices: whether one is at the port, and the retries. *)
Fixpoint find_device (deviceId port : string) (devices : list nat) (retries : Z) : T (bool * Z) :=
  match devices with
  | [] => mret (false, retries)
  | device :: devices =>
      path ← lift (getFullPortPath device);
      if decide (port ≠ path) then find_device deviceId port devices retries else
      _ ← set_dev deviceId (λ d, {| d with curUsbDevice := Some device |});
      '(ret, (vendor, product)) ← lift (call (GetDeviceDescriptor device));
      _ ← set_dev deviceId (λ d, {| d with idVendor := vendor; idProduct := product |});
      if decide (ret ≠ LIBUSB_SUCCESS) then
        _ ← set_dev deviceId (λ d, {| d with curUsbDevice := None |});
        mret (true, retries + 1)%Z
      else
      config ← lift (call (GetActiveConfigDescriptor device));
      match config with
      | Throw _ =>
          _ ← set_dev deviceId (λ d, {| d with curUsbDevice := None |});
          mret (true, retries + 1)%Z
      | Ok config =>
          _ ← updateDevHealth deviceId config;
          _ ← lift (call (FreeConfigDescriptor device));
          mret (true, retries)
      end
  end.

(** [recovery_tool/mcu_recovery_tool/mcu_recovery_manager.cpp:384-462 updateUsbDevInfo]
    Each round adds one to the retries at least, so that five are enough. *)
Fixpoint usb_attempts (fuel : nat) (deviceId : string) (retries : Z) : T bool :=
  match fuel with
  | O => mret false
  | S fuel =>
      if (5 <=? retries)%Z then mret false else
      list ← lift (call GetDeviceList);
      _ ← set_dev deviceId (λ d, {| d with curUsbDevice := None |});
      match list with
      | Throw _ => usb_attempts fuel deviceId (retries + 1)
      | Ok devices =>
          i ← info deviceId;
          '(deviceFound, retries) ← find_device deviceId (usbPort i) devices retries;
          _ ← lift (call (FreeDeviceList devices));
          d ← dev deviceId;
          if deviceFound && bool_decide (is_Some (curUsbDevice d)) then mret true else
          let retries := (retries + 1)%Z in
          _ ← (if (retries <? 5)%Z then lift (call (SleepUs 2000000)) else mret ());
          usb_attempts fuel deviceId retries
      end
  end.

Definition updateUsbDevInfo (deviceId : string) : T bool := usb_attempts 5 deviceId 0.

(** [recovery_tool/mcu_recovery_tool/mcu_recovery_manager.cpp:464-472 updateDevInfo] *)
Definition updateDevInfo (deviceId : string) : T bool :=
  i ← info deviceId;
  if decide (interfaceType i = I2C) then updateI2cDevInfo deviceId else updateUsbDevInfo deviceId.

(** [recovery_tool/mcu_recovery_tool/mcu_recovery_manager.cpp:474-483 updateAllDeviceInfo] *)
Definition updateAllDeviceInfo : T () :=
  s ← get; loop (λ deviceId, _ ← updateDevInfo deviceId; mret ()) (mcuMap s).*1.

(** [recovery_tool/mcu_recovery_tool/mcu_recovery_manager.hpp:193-213 isHealthy] *)
Definition isHealthy (s : Manager) (deviceId : string) : bool :=
  match assoc deviceId (mcuMap s), mcuDevices s !! deviceId with
  | Some i, Some d =>
      if decide (interfaceType i = I2C) then i2cHealthy d
      else hasMctpClass d || bool_decide (functionalPid i = idProduct d)
  | _, _ => false
  end.

(** [recovery_tool/mcu_recovery_tool/mcu_recovery_manager.hpp:221-233 isInRecoveryMode] *)
Definition isInRecoveryMode (s : Manager) (deviceId : string) : bool :=
  match mcuDevices s !! deviceId with Some d => inRecoveryMode d | None => false end.

(** [recovery_tool/mcu_recovery_tool/mcu_recovery_manager.hpp:308-316 isDeviceProvisioned] *)
Definition isDeviceProvisioned (deviceId : string) : T bool :=
  i ← info deviceId;
  if decide (interfaceType i = I2C) then mret true else
  d ← dev deviceId;
  mret (bool_decide (nvdaVendorId = idVendor d)).

(** ** The lines *)

(** A line that is not there is the empty object, whose use throws. *)
Definition find_line (name : string) : T (option string) :=
  found ← lift (call (FindLine name));
  match found with
  | None => throw Exception
  | Some found => mret (if found : bool then Some name else None)
  end.

Definition on_line (line : option string) (f : string → M bool) : T () :=
  match line with
  | None => throw Exception
  | Some name => ok ← lift (f name); or_throw ok
  end.

Definition set_value (line : option string) (value : Z) : T () := on_line line (λ name, call (SetValue name value)).
Definition release (line : option string) : T () := on_line line (λ name, call (ReleaseLine name)).
Definition request (line : option string) (value : Z) : T () := on_line line (λ name, call (RequestLine name value)).

(** [recovery_tool/mcu_recovery_tool/mcu_recovery_manager.cpp:166-189 initGpioLines]
    The lines of a device. *)
Definition init_lines (deviceId : string) (i : MCUInfo) : T () :=
  reset ← find_line (resetGpioName i);
  _ ← set_dev deviceId (λ d, {| d with resetPin := reset |});
  match reset with
  | None => mret ()
  | Some _ =>
      recovery ← find_line (recoveryGpioName i);
      _ ← set_dev deviceId (λ d, {| d with recoveryPin := recovery |});
      match recovery with
      | None => mret ()
      | Some _ =>
          _ ← request reset (gpioInactive (resetActiveLow i));
          request recovery (gpioInactive (recoveryActiveLow i))
      end
  end.

(** What [try] answers: whether no exception was thrown. *)
Definition succeeds (m : T ()) : T bool := λ s,
  '(r, s) ← m s;
  mret (match r with
        | Ok _ => Ok true
        | Throw Exception => Ok false
        | Throw Undefined => Throw Undefined
        end, s).

(** [recovery_tool/mcu_recovery_tool/mcu_recovery_manager.cpp:162-200 initGpioLines]
    The loop over the devices. *)
Fixpoint init_each (l : list (string * MCUInfo)) : T bool :=
  match l with
  | [] => mret true
  | (deviceId, i) :: l =>
      ok ← succeeds (init_lines deviceId i);
      if negb ok then mret false else init_each l
  end.

Definition initGpioLines : T bool := s ← get; init_each (mcuMap s).

(** [recovery_tool/mcu_recovery_tool/mcu_recovery_manager.cpp:202-224 releaseGpioLines] *)
Definition releaseGpioLines : T () :=
  s ← get;
  loop (λ deviceId,
    d ← dev deviceId;
    _ ← succeeds (
      _ ← (if resetPin d then release (resetPin d) else mret ());
      if recoveryPin d then release (recoveryPin d) else mret ());
    mret ()) (device_ids s).

(** [recovery_tool/mcu_recovery_tool/mcu_recovery_manager.cpp:64-89 initialize] *)
Definition initialize (map : list (string * MCUInfo)) (registry : bool) (initGpio : bool) : T bool :=
  _ ← modify (λ s, {| s with mcuMap := map; messageRegistry := messageRegistry s || registry |});
  let hasUsb := existsb (λ item, bool_decide (interfaceType item.2 = USB)) map in
  ok ← (if hasUsb : bool then
          ret ← lift (call UsbInit);
          if (ret <? 0)%Z then mret false else
          _ ← modify (λ s, {| s with context := true |}); mret true
        else mret true);
  if negb ok then mret false else
  if initGpio then initGpioLines else mret true.

(** The reset of a device, with its strap at [level]. *)
Definition strap_and_pulse (i : MCUInfo) (d : MCUDevice) (level : Z) : T () :=
  _ ← set_value (recoveryPin d) level;
  _ ← lift (call (SleepUs mcuResetActiveUs));
  _ ← set_value (resetPin d) (gpioActive (resetActiveLow i));
  _ ← lift (call (SleepUs mcuResetActiveUs));
  _ ← set_value (resetPin d) (gpioInactive (resetActiveLow i));
  lift (call (SleepUs (mcuResetDelaySec * 1000000))).

Definition has_lines (d : MCUDevice) : bool :=
  bool_decide (is_Some (recoveryPin d)) && bool_decide (is_Some (resetPin d)).

(** [recovery_tool/mcu_recovery_tool/mcu_recovery_manager.cpp:226-244 enterRecoveryMode] *)
Definition enterRecoveryMode (deviceId : string) : T () :=
  i ← info deviceId;
  d ← dev deviceId;
  if negb (has_lines d) then mret () else strap_and_pulse i d (gpioActive (recoveryActiveLow i)).

(** [recovery_tool/mcu_recovery_tool/mcu_recovery_manager.cpp:296-315 exitRecoveryMode] *)
Definition exitRecoveryMode (deviceId : string) : T () :=
  i ← info deviceId;
  d ← dev deviceId;
  if negb (has_lines d) then mret () else strap_and_pulse i d (gpioInactive (recoveryActiveLow i)).

(** The devices that have their lines, each with one of them driven. *)
Definition drive_each (line : MCUDevice → option string) (level : MCUInfo → Z) (deviceId : string) : T () :=
  i ← info deviceId;
  d ← dev deviceId;
  if negb (has_lines d) then mret () else set_value (line d) (level i).

(** [recovery_tool/mcu_recovery_tool/mcu_recovery_manager.cpp:246-294 enterRecoveryModeAll] *)
Definition enterRecoveryModeAll : T () :=
  s ← get;
  if decide (mcuDevices s = ∅) then mret () else
  _ ← loop (drive_each recoveryPin (λ i, gpioActive (recoveryActiveLow i))) (device_ids s);
  _ ← lift (call (SleepUs mcuResetActiveUs));
  _ ← loop (drive_each resetPin (λ i, gpioActive (resetActiveLow i))) (device_ids s);
  _ ← lift (call (SleepUs mcuResetActiveUs));
  _ ← loop (drive_each resetPin (λ i, gpioInactive (resetActiveLow i))) (device_ids s);
  lift (call (SleepUs (mcuResetDelaySec * 1000000))).
End Manager.
