(* ===== verification/McuRecovery.v ===== *)
(** * The flows of the MCU recovery tool

    The recovery and the reset of MCUs
    (src/recovery_tool/mcu_recovery_tool/mcu_recovery_manager.cpp), their
    configuration (utils.cpp) and the two programs (mcu_recovery_app.cpp,
    mcu_recovery_interfaces.cpp). *)

From stdpp Require Import list strings gmap.
From Stdlib Require Import Ascii.
From S2P Require Import Prelude Json Bytes Text Trace Registry McuManager.

#[local] Open Scope string_scope.

Section Recovery.
Context `{McuEnv}.

Abbreviation T := (T Manager).

(** ** The log *)

Definition log (entry : option Entry) : T () :=
  s ← get;
  if messageRegistry s then
    match entry with Some entry => lift (call (CreateEntry entry)) | None => mret () end
  else mret ().

Definition log_message (messageID : string) (deviceId : string) : T () :=
  i ← info deviceId; log (createMessageRegistry messageID (device i)).

Definition log_failure (errorCode : Z) (severity : Level) (name : string) : T () :=
  log (createMessageRegistryResourceErrors resourceErrorsDetected MCURecovery errorCode name severity).

Definition log_error (errorCode : Z) (deviceId : string) : T () :=
  i ← info deviceId; log_failure errorCode Critical (device i).

(** [recovery_tool/mcu_recovery_tool/mcu_recovery_manager.cpp:317-326 handleRecoveryError] *)
Definition handleRecoveryError (deviceId : string) : T () :=
  _ ← exitRecoveryMode deviceId;
  log_error deviceRecoveryFailed deviceId.

(** ** The recovery of a device *)

(** [recovery_tool/mcu_recovery_tool/utils.cpp:532-550 executeCommand] *)
Definition executeCommand (cmd : string) : T string :=
  output ← lift (call (RunCommand cmd));
  match output with Some output => mret output | None => throw Exception end.

(** The number of a null device is undefined. *)
Definition of_device (d : option nat) (c : nat → M Z) : T Z :=
  match d with Some d => lift (c d) | None => throw Undefined end.

(** [recovery_tool/mcu_recovery_tool/mcu_recovery_manager.cpp:603-624 performRecovery]
    The arguments that say which device blhost talks to. *)
Definition blhost_target (deviceId : string) : T (option string) :=
  i ← info deviceId;
  match interfaceType i with
  | USB =>
      d ← dev deviceId;
      bus ← of_device (curUsbDevice d) (λ device, call (GetBusNumber device));
      number ← of_device (curUsbDevice d) (λ device, call (GetDeviceAddress device));
      mret (Some ("--usb-bus-device " +:+ to_string bus +:+ ":" +:+ to_string number +:+
                  " --usb-id " +:+ toHexString (idVendor d) +:+ ":" +:+ toHexString (idProduct d)))
  | I2C => mret (Some ("-i " +:+ getI2cTarget (i2cBus i) (recoveryI2cAddress i)))
  | Unknown => mret None
  end.

Definition cmdSecState (target : string) : string := "blhost " +:+ target +:+ " get-property security-state".
Definition cmdGetKey (target : string) : string := "blhost " +:+ target +:+ " read-memory 0x1004160 48".
Definition cmdWrite (target binaryFilePath : string) : string :=
  "blhost " +:+ target +:+ " receive-sb-file " +:+ binaryFilePath.

Definition stop_recovery (errorCode : MCURecoveryErrorCode) (deviceId : string) : T () :=
  _ ← log_error (code errorCode) deviceId;
  handleRecoveryError deviceId.

(** [recovery_tool/mcu_recovery_tool/mcu_recovery_manager.cpp:635-707 performRecovery]
    Whether the device takes images: it is locked, or its key is set. *)
Definition check_security (target deviceId : string) : T bool :=
  secStateOutput ← executeCommand (cmdSecState target);
  if negb (isCommandSuccessful secStateOutput) then
    _ ← stop_recovery GetSecurityStateFailed deviceId; mret false
  else if negb (contains "UNSECURE" secStateOutput) then mret true else
  i ← info deviceId;
  _ ← log_failure (code NotSecureDevice) Warning (device i);
  getKeyOutput ← executeCommand (cmdGetKey target);
  if negb (isCommandSuccessful getKeyOutput) then
    _ ← stop_recovery ReadMemoryFailed deviceId; mret false
  else if isEncryptKeyEmpty getKeyOutput then
    _ ← stop_recovery EncryptKeyNotSet deviceId; mret false
  else mret true.

(** [recovery_tool/mcu_recovery_tool/mcu_recovery_manager.cpp:728-781 performRecovery]
    The device after its flash was written. *)
Definition conclude (deviceId : string) : T () :=
  _ ← exitRecoveryMode deviceId;
  found ← updateDevInfo deviceId;
  if negb found then handleRecoveryError deviceId else
  s ← get;
  if isHealthy s deviceId then log_message recoverySuccessful deviceId
  else log_error deviceRecoveryFailed deviceId.

(** [recovery_tool/mcu_recovery_tool/mcu_recovery_manager.cpp:600-795 performRecovery] *)
Definition performRecovery (deviceId binaryFilePath : string) : T () :=
  target ← blhost_target deviceId;
  match target with
  | None => mret ()
  | Some target =>
      _ ← log_message recoveryStarted deviceId;
      catch
        (takes ← check_security target deviceId;
         if negb takes then mret () else
         write_output ← executeCommand (cmdWrite target binaryFilePath);
         if negb (isCommandSuccessful write_output) then stop_recovery CmdExecFailed deviceId
         else conclude deviceId)
        (log_error (code CmdExecFailed) deviceId)
  end.

(** [recovery_tool/mcu_recovery_tool/mcu_recovery_manager.cpp:564-598 isSB3FileValid] *)
Definition isSB3FileValid (binaryFilePath : string) : M bool :=
  file ← call (ReadFile binaryFilePath);
  mret match file with
       | None => false
       | Some bytes =>
           if decide (length bytes < 8)%nat then false else
           let hdr := take 8 bytes in
           bool_decide (hdr = [0x73; 0x62; 0x76; 0x33; 0x01; 0x00; 0x03; 0x00]%Z) ||
           (bool_decide (hdr !! 0%nat = Some 0x02%Z) && bool_decide (hdr !! 3%nat = Some 0x87%Z))
       end.

(** [recovery_tool/mcu_recovery_tool/mcu_recovery_manager.cpp:815-877 performRecoveryFlow]
    One device of the flow. *)
Definition recover_device (binaryFilePath : string) (forceUpdate : bool) (deviceId : string) : T () :=
  found ← updateDevInfo deviceId;
  if negb found then mret () else
  provisioned ← isDeviceProvisioned deviceId;
  if negb provisioned then log_error (code DevNotProvisioned) deviceId else
  s ← get;
  if isHealthy s deviceId && negb forceUpdate then log_message firmwareNotInRecovery deviceId else
  _ ← enterRecoveryMode deviceId;
  found ← updateDevInfo deviceId;
  if negb found then mret () else performRecovery deviceId binaryFilePath.

(** [recovery_tool/mcu_recovery_tool/mcu_recovery_manager.cpp:797-880 performRecoveryFlow] *)
Definition performRecoveryFlow (binaryFilePath : string) (forceUpdate : bool) : T () :=
  valid ← lift (isSB3FileValid binaryFilePath);
  if negb valid then log_failure (code InvalidSBFile) Critical "Invalid SB3/SB4 file" else
  s ← get;
  loop (recover_device binaryFilePath forceUpdate) (mcuMap s).*1.

(** ** The reset of all devices *)

Definition drive_reset (level : MCUInfo → Z) (deviceId : string) : T () :=
  i ← info deviceId;
  d ← dev deviceId;
  if resetPin d then set_value (resetPin d) (level i) else mret ().

(** A device gives its lines back, those it has. *)
Definition give_back (deviceId : string) : T () :=
  d ← dev deviceId;
  _ ← (if resetPin d then
         _ ← release (resetPin d); set_dev deviceId (λ d, {| d with resetPin := None |})
       else mret ());
  if recoveryPin d then
    _ ← release (recoveryPin d); set_dev deviceId (λ d, {| d with recoveryPin := None |})
  else mret ().

(** [recovery_tool/mcu_recovery_tool/mcu_recovery_manager.cpp:914-962 performResetFlow]
    The devices that are not healthy yet. *)
Fixpoint still_unhealthy (deviceIds : list string) : T (list string) :=
  match deviceIds with
  | [] => mret []
  | deviceId :: deviceIds =>
      found ← updateDevInfo deviceId;
      s ← get;
      if found && isHealthy s deviceId then
        _ ← give_back deviceId; still_unhealthy deviceIds
      else rest ← still_unhealthy deviceIds; mret (deviceId :: rest)
  end.

(** [recovery_tool/mcu_recovery_tool/mcu_recovery_manager.cpp:888-963 performResetFlow]
    Ten rounds at most. *)
Fixpoint reset_rounds (rounds : nat) (mcuList : list string) : T (list string) :=
  match rounds with
  | O => mret mcuList
  | S rounds =>
      if decide (mcuList = []) then mret mcuList else
      s ← get;
      _ ← loop (drive_reset (λ i, gpioActive (resetActiveLow i))) (device_ids s);
      _ ← lift (call (SleepUs mcuResetActiveUs));
      _ ← loop (drive_reset (λ i, gpioInactive (resetActiveLow i))) (device_ids s);
      _ ← lift (call (SleepUs (mcuResetDelaySec * 1000000)));
      mcuList ← still_unhealthy mcuList;
      reset_rounds rounds mcuList
  end.

(** [recovery_tool/mcu_recovery_tool/mcu_recovery_manager.cpp:882-994 performResetFlow]
    The devices that are not healthy in the end, which are logged. *)
Definition performResetFlow : T (list string) :=
  s ← get;
  failed ← reset_rounds 10 (mcuMap s).*1;
  s ← get;
  _ ← loop give_back (device_ids s);
  mret failed.
End Recovery.
