(* ===== verification/McuMain.v ===== *)
(** * The configuration of MCUs, and the programs

    src/recovery_tool/mcu_recovery_tool/utils.cpp reads the MCUs from Entity Manager or
    from a file; mcu_recovery_app.cpp is the worker, and mcu_recovery_interfaces.cpp the
    command, whose arguments are those that the library has parsed. At the end, what is
    read of the key that blhost prints and of the entries of the configuration. *)

From stdpp Require Import list strings gmap.
From Stdlib Require Import Ascii.
From S2P Require Import Prelude Json Bytes Text Trace Registry McuManager McuRecovery.

(** * The configuration of MCUs, and the programs *)

#[local] Open Scope string_scope.

(** [recovery_tool/mcu_recovery_tool/utils.cpp:103-114 parseInterfaceType] *)
Definition parseInterfaceType (value : string) : InterfaceType :=
  if decide (value = "USB") then USB else if decide (value = "I2C") then I2C else Unknown.

(** ** The entries of a file *)

(** [item[key]] of a constant item: a key that is missing is undefined. *)
Definition item_at (item : json) (key : string) : res Fault json :=
  match item with
  | JObject m => match members_find m key with Some v => Ok v | None => Throw Undefined end
  | _ => Throw Exception
  end.

Definition as_string (v : json) : res Fault string :=
  match v with JString s => Ok s | _ => Throw Exception end.

Definition string_at (item : json) (key : string) : res Fault string := v ← item_at item key; as_string v.

Definition u16 (v : Z) : Z := wrap 16 v.

Section File.
Context (ulong_bits : Z).

(** [recovery_tool/mcu_recovery_tool/utils.cpp:271-292 parseHexField] *)
Definition parseHexField (item : json) (field : string) : res Fault (option Z) :=
  match json_find item field with
  | Some (JString s) => match stoul0 ulong_bits s with Some v => Ok (Some (u16 v)) | None => Throw Exception end
  | Some (JUnsigned v) | Some (JInteger v) => Ok (Some (u16 v))
  | _ => Ok None
  end.

(** [recovery_tool/mcu_recovery_tool/utils.cpp:314-345 parseJsonFile]
    A polarity: none for an entry to skip. *)
Definition parse_polarity (item : json) (field : string) : option bool :=
  match json_find item field with
  | None => Some true
  | Some (JString pol) => parseActiveLowPolarity pol
  | Some _ => None
  end.

(** [recovery_tool/mcu_recovery_tool/utils.cpp:293-402 parseJsonFile]
    An entry of the type; none for one to skip. *)
Definition parse_entry (item : json) : res Fault (option MCUInfo) :=
  type ← match json_find item "Interface" with
         | None => Ok USB
         | Some v => s ← as_string v; Ok (parseInterfaceType s)
         end;
  if decide (type = Unknown) then Ok None else
  resetName ← string_at item "ResetGpioName";
  recoveryName ← string_at item "RecoveryGpioName";
  name ← string_at item "Name";
  match parse_polarity item "ResetGpioPolarity" with
  | None => Ok None
  | Some resetLow =>
  match parse_polarity item "RecoveryGpioPolarity" with
  | None => Ok None
  | Some recoveryLow =>
  if decide (type = USB) then
    port ← string_at item "USBPort";
    pid ← parseHexField item "ProductId";
    Ok match pid with
       | None => None
       | Some pid => Some (mkMCUInfo name port resetName recoveryName 0 0 0 pid resetLow recoveryLow USB)
       end
  else
  match json_find item "I2CBus" with
  | Some (JUnsigned bus) | Some (JInteger bus) =>
      normal ← parseHexField item "NormalI2CAddress";
      match normal with
      | None => Ok None
      | Some normal =>
          recovery ← parseHexField item "RecoveryI2CAddress";
          Ok match recovery with
             | None => None
             | Some recovery =>
                 Some (mkMCUInfo name "" resetName recoveryName (u8 bus) normal recovery 0 resetLow recoveryLow I2C)
             end
      end
  | _ => Ok None
  end
  end end.

(** [recovery_tool/mcu_recovery_tool/utils.cpp:262-405 parseJsonFile]
    The loop over the entries. *)
Fixpoint parse_entries (items : list json) (map : list (string * MCUInfo)) : res Fault (list (string * MCUInfo)) :=
  match items with
  | [] => Ok map
  | item :: items =>
      type ← item_at item "Type";
      let wanted := match type with JString t => bool_decide (t = "MCURecovery") | _ => false end in
      if negb wanted then parse_entries items map else
      parsed ← parse_entry item;
      parse_entries items match parsed with Some i => assign (device i) i map | None => map end
  end.

(** The values that a loop over a value goes through. *)
Definition items_of (v : json) : list json :=
  match v with JArray l => l | JObject m => m.*2 | JNull => [] | v => [v] end.

(** [recovery_tool/mcu_recovery_tool/utils.cpp:246-407 parseJsonFile]
    The object is changed by the search for its member, if it is null. *)
Definition parse_config (j : json) : res Fault (list (string * MCUInfo)) :=
  match j with
  | JNull => Ok []
  | JObject m => parse_entries (default [] (items_of <$> members_find m "Exposes")) []
  | _ => Throw Exception
  end.
End File.

Section Programs.
Context `{McuEnv} (ulong_bits : Z).

(** [recovery_tool/mcu_recovery_tool/utils.cpp:246-407 parseJsonFile] *)
Definition parseJsonFile (jsonFilePath : string) : M (res Fault (list (string * MCUInfo))) :=
  file ← call (ReadJson jsonFilePath);
  mret match file with
       | Some (Some j) => parse_config ulong_bits j
       | _ => Throw Exception
       end.

(** ** Entity Manager *)

Definition polarity (objectPath property : string) : M (option bool) :=
  value ← call (GetString objectPath property);
  mret match value with None => Some true | Some value => parseActiveLowPolarity value end.

(** [recovery_tool/mcu_recovery_tool/utils.cpp:182-240 populateMCUInfo]
    What depends on the interface. *)
Definition populate_usb (objectPath : string) (i : MCUInfo) : M (option MCUInfo) :=
  port ← call (GetString objectPath "USBPort");
  match port with
  | None => mret None
  | Some port =>
      pid ← call (GetUint64 objectPath "ProductId");
      mret match pid with
           | None => None
           | Some pidValue =>
               if (65535 <? pidValue)%Z then None
               else Some {| i with usbPort := port; functionalPid := pidValue |}
           end
  end.

Definition populate_i2c (objectPath : string) (i : MCUInfo) : M (option MCUInfo) :=
  bus ← call (GetUint64 objectPath "I2CBus");
  normalAddr ← call (GetUint64 objectPath "NormalI2CAddress");
  recoveryAddr ← call (GetUint64 objectPath "RecoveryI2CAddress");
  mret match bus, normalAddr, recoveryAddr with
       | Some bus, Some normalAddr, Some recoveryAddr =>
           if ((255 <? bus) || (65535 <? normalAddr) || (65535 <? recoveryAddr))%Z then None
           else Some {| i with i2cBus := bus; normalI2cAddress := normalAddr; recoveryI2cAddress := recoveryAddr |}
       | _, _, _ => None
       end.

(** [recovery_tool/mcu_recovery_tool/utils.cpp:116-244 populateMCUInfo] *)
Definition populateMCUInfo (objectPath deviceName : string) : M (option MCUInfo) :=
  interface ← call (GetString objectPath "Interface");
  let type := parseInterfaceType (default "USB" interface) in
  if decide (type = Unknown) then mret None else
  resetName ← call (GetString objectPath "ResetGpioName");
  match resetName with
  | None => mret None
  | Some resetName =>
  recoveryName ← call (GetString objectPath "RecoveryGpioName");
  match recoveryName with
  | None => mret None
  | Some recoveryName =>
  resetLow ← polarity objectPath "ResetGpioPolarity";
  match resetLow with
  | None => mret None
  | Some resetLow =>
  recoveryLow ← polarity objectPath "RecoveryGpioPolarity";
  match recoveryLow with
  | None => mret None
  | Some recoveryLow =>
      let i := mkMCUInfo deviceName "" resetName recoveryName 0 0 0 0 resetLow recoveryLow type in
      if decide (type = USB) then populate_usb objectPath i else populate_i2c objectPath i
  end end end end.

(** The devices of the objects that are wanted. *)
Fixpoint collect (wanted : string → M bool) (paths : list string) (map : list (string * MCUInfo))
    : M (list (string * MCUInfo)) :=
  match paths with
  | [] => mret map
  | objectPath :: paths =>
      want ← wanted objectPath;
      if negb want then collect wanted paths map else
      i ← populateMCUInfo objectPath (path_filename objectPath);
      collect wanted paths match i with Some i => assign (device i) i map | None => map end
  end.

Definition has_property (property value : string) (objectPath : string) : M bool :=
  v ← call (GetString objectPath property); mret (bool_decide (v = Some value)).

(** [recovery_tool/mcu_recovery_tool/utils.cpp:409-450 getMCUConfigByTargetFromDbus] *)
Definition getMCUConfigByTargetFromDbus (target : string) : M (list (string * MCUInfo)) :=
  paths ← call GetSubTree; collect (has_property "Target" target) paths [].

(** [recovery_tool/mcu_recovery_tool/utils.cpp:452-479 getAllMCUConfigFromDbus] *)
Definition getAllMCUConfigFromDbus : M (list (string * MCUInfo)) :=
  paths ← call GetSubTree; collect (λ _, mret true) paths [].

(** [recovery_tool/mcu_recovery_tool/utils.cpp:481-522 getMCUConfigByChassisFromDbus] *)
Definition getMCUConfigByChassisFromDbus (chassisName : string) : M (list (string * MCUInfo)) :=
  paths ← call GetSubTree; collect (has_property "ChassisName" chassisName) paths [].

(** ** The worker *)

(** The end of a manager: its context is given back. *)
Definition finish {A} (run : M (res Fault A * Manager)) : M (res Fault A) :=
  '(r, s) ← run;
  _ ← (if context s then call UsbExit else mret ());
  mret r.

(** [recovery_tool/mcu_recovery_tool/mcu_recovery_app.cpp:56-69 main]
    The flow, from the configuration on: the exit status. *)
Definition worker (mcuConfig : list (string * MCUInfo)) (binaryFilePath : string) : T Manager Z :=
  initialized ← initialize mcuConfig true true;
  if negb initialized then mret (-1)%Z else
  _ ← performRecoveryFlow binaryFilePath false;
  mret 0%Z.

(** [recovery_tool/mcu_recovery_tool/mcu_recovery_app.cpp:33-77 main] *)
Definition app_main (args : list string) : M (res Fault Z) :=
  match args with
  | binaryFilePath :: target :: _ =>
      mcuConfig ← getMCUConfigByTargetFromDbus target;
      if decide (mcuConfig = []) then
        _ ← match createMessageRegistryResourceErrors resourceErrorsDetected MCURecovery noDevicesFound
                    "MCURecovery" Critical with
            | Some entry => call (CreateEntry entry)
            | None => mret ()
            end;
        mret (Ok (-1)%Z)
      else
        r ← finish (worker mcuConfig binaryFilePath Manager_new);
        mret match r with Throw Exception => Ok (-1)%Z | r => r end
  | _ => mret (Ok (-1)%Z)
  end.

(** ** The command *)

(** [recovery_tool/mcu_recovery_tool/mcu_recovery_interfaces.cpp:36-45 main]
    What the library parses. *)
Inductive Command := PerformRecovery | ForceReset | GetDeviceStatus | SetForceRecovery.

Record Options := mkOptions {
  jsonFilePath : string;
  binaryFilePath : string;
  target : string;
  chassisName : string;
  forceUpdate : bool;
  useDbus : bool;
}.

(** [recovery_tool/mcu_recovery_tool/mcu_recovery_interfaces.cpp:109-188 getMCUConfig] *)
Definition getMCUConfig (o : Options) (allowAll : bool) : M (res Fault (list (string * MCUInfo))) :=
  config ←
    (if decide (jsonFilePath o ≠ "") then
       if useDbus o then mret (Throw Exception) else parseJsonFile (jsonFilePath o)
     else if negb (useDbus o) then mret (Throw Exception)
     else if decide (chassisName o ≠ "") then
       config ← getMCUConfigByChassisFromDbus (chassisName o);
       mret (if decide (length config ≠ 1%nat) then Throw Exception else Ok config)
     else if decide (target o ≠ "") then
       config ← getMCUConfigByTargetFromDbus (target o); mret (Ok config)
     else if allowAll then config ← getAllMCUConfigFromDbus; mret (Ok config)
     else mret (Throw Exception));
  mret match config with Ok [] => Throw Exception | config => config end.

(** [recovery_tool/mcu_recovery_tool/mcu_recovery_interfaces.cpp:258-292 main]
    The rounds that wait for the devices. *)
Fixpoint wait_ready (rounds : nat) (deviceIds : list string) : T Manager () :=
  match rounds with
  | O => mret ()
  | S rounds =>
      _ ← lift (call (SleepUs 1000000));
      _ ← updateAllDeviceInfo;
      s ← get;
      if forallb (isInRecoveryMode s) deviceIds then mret () else wait_ready rounds deviceIds
  end.

(** [recovery_tool/mcu_recovery_tool/mcu_recovery_interfaces.cpp:245-326 main]
    [SetForceRecovery] once the manager is initialised. *)
Definition set_force_recovery (deviceIds : list string) : T Manager () :=
  entered ← succeeds enterRecoveryModeAll;
  if negb entered then mret () else
  _ ← wait_ready 3 deviceIds;
  s ← get;
  if forallb (isInRecoveryMode s) deviceIds then mret () else throw Exception.

(** [recovery_tool/mcu_recovery_tool/mcu_recovery_interfaces.cpp:192-243 main]
    The callback of a command. *)
Definition run_command (c : Command) (o : Options) : T Manager () :=
  config ← lift (getMCUConfig o match c with PerformRecovery => false | _ => true end);
  match config with
  | Throw e => throw e
  | Ok config =>
      initialized ← initialize config false match c with GetDeviceStatus => false | _ => true end;
      if negb initialized then mret () else
      match c with
      | PerformRecovery => performRecoveryFlow (binaryFilePath o) (forceUpdate o)
      | ForceReset => _ ← performResetFlow; mret ()
      | GetDeviceStatus => updateAllDeviceInfo
      | SetForceRecovery => set_force_recovery config.*1
      end
  end.

(** [recovery_tool/mcu_recovery_tool/mcu_recovery_interfaces.cpp:31-347 main] *)
Definition tool_main (c : Command) (o : Options) : M (res Fault Z) :=
  r ← finish (run_command c o Manager_new);
  mret match r with
       | Ok _ => Ok 0%Z
       | Throw Exception => Ok 1%Z
       | Throw Undefined => Throw Undefined
       end.
End Programs.

(** * What the MCU recovery reads *)

#[local] Open Scope string_scope.

(** ** The key *)

Definition header : string := "Successful response to command 'read-memory'".

(** A row of the memory that blhost prints. *)
Definition print_row (row : buffer) : string := join " " (format_hex_lower 2 <$> row).

Definition is_zero (c : ascii) : bool := bool_decide (c = "0"%char).

(** What matters of a byte that is printed. *)
Definition byte_printed (b : Z) : bool :=
  free (λ c, negb (bool_decide (is_Some (hex_char c)))) (format_hex_lower 2 b) &&
  (String.length (format_hex_lower 2 b) =? 2)%nat &&
  eqb (forallb is_zero (String.list_ascii_of_string (format_hex_lower 2 b))) (b =? 0)%Z.

Lemma byte_is_printed b : word 8 b → byte_printed b = true.
Proof.
  intros Hb. apply (word_check byte_printed 8 b); [lia| |done]. by vm_compute.
Qed.

Lemma string_length_app s t : String.length (s +:+ t) = (String.length s + String.length t)%nat.
Proof.
  induction s as [|c s IH]; [done|]. change (String c s +:+ t) with (String c (s +:+ t)). cbn. by rewrite IH.
Qed.

Lemma list_ascii_app s t :
  String.list_ascii_of_string (s +:+ t) = (String.list_ascii_of_string s ++ String.list_ascii_of_string t)%list.
Proof.
  induction s as [|c s IH]; [done|]. change (String c s +:+ t) with (String c (s +:+ t)). cbn. by rewrite IH.
Qed.

Lemma string_of_app l l' :
  String.string_of_list_ascii (l ++ l') = String.string_of_list_ascii l +:+ String.string_of_list_ascii l'.
Proof.
  induction l as [|c l IH]; [done|]. cbn [app String.string_of_list_ascii]. by rewrite IH.
Qed.

Lemma hex_only_app s t : hex_only (s +:+ t) = hex_only s +:+ hex_only t.
Proof. unfold hex_only. by rewrite list_ascii_app, filter_app, string_of_app. Qed.

Lemma hex_only_hex s :
  free (λ c, negb (bool_decide (is_Some (hex_char c)))) s = true → hex_only s = s.
Proof.
  unfold hex_only. induction s as [|c s IH]; [done|]. cbn [free]. rewrite negb_involutive.
  intros [Hc%bool_decide_eq_true Hs]%andb_true_iff. cbn [String.list_ascii_of_string].
  rewrite filter_cons_True by done. cbn. by rewrite IH.
Qed.

Lemma printed_parts b : word 8 b →
  hex_only (format_hex_lower 2 b) = format_hex_lower 2 b ∧ String.length (format_hex_lower 2 b) = 2%nat ∧
  forallb is_zero (String.list_ascii_of_string (format_hex_lower 2 b)) = (b =? 0)%Z ∧
  free (is_char "S") (format_hex_lower 2 b) = true ∧ free (is_char "010") (format_hex_lower 2 b) = true.
Proof.
  intros Hb. pose proof (byte_is_printed b Hb) as Hp. unfold byte_printed in Hp.
  apply andb_true_iff in Hp as [[Hh Hl]%andb_true_iff Hz]. apply Nat.eqb_eq in Hl. apply eqb_prop in Hz.
  split_and!; [by apply hex_only_hex|done|done| |]; (eapply free_impl; [|exact Hh]);
    intros c; unfold is_char; intros ->%bool_decide_eq_true; apply negb_true_iff, bool_decide_eq_false;
    by intros [? ?].
Qed.

Definition printed (key : buffer) : string := cat (format_hex_lower 2 <$> key).

Lemma cat_app l l' : cat (l ++ l') = cat l +:+ cat l'.
Proof. induction l as [|s l IH]; [done|]. cbn [app cat]. by rewrite IH, string_app_assoc. Qed.

Lemma row_read row : bytes_ok row → hex_only (print_row row) = printed row.
Proof.
  unfold print_row, printed. induction 1 as [|b row Hb Hrow IH]; [done|].
  destruct (printed_parts b Hb) as (Hh & _). cbn [fmap list_fmap cat].
  destruct row as [|b' row]; cbn [fmap list_fmap join] in *.
  - rewrite Hh. symmetry. by rewrite string_app_nil.
  - rewrite !hex_only_app, Hh. cbn [fmap list_fmap] in IH. by rewrite IH.
Qed.

Lemma row_free (c : ascii) row :
  bytes_ok row → c = "S"%char ∨ c = "010"%char → free (is_char c) (print_row row) = true.
Proof.
  unfold print_row. intros Hrow Hc. induction Hrow as [|b row Hb Hrow IH]; [done|].
  destruct (printed_parts b Hb) as (_ & _ & _ & HS & Hn).
  assert (Hb' : free (is_char c) (format_hex_lower 2 b) = true) by (by destruct Hc as [-> | ->]).
  destruct row as [|b' row]; cbn [fmap list_fmap join] in *; [done|].
  rewrite !free_app, Hb'. cbn [fmap list_fmap] in IH. rewrite IH. by destruct Hc as [-> | ->].
Qed.

Lemma contains_free c p s : free (is_char c) s = true → contains (String c p) s = false.
Proof.
  intros Hs. unfold contains. rewrite <- (string_app_nil s).
  rewrite (search_skip _ c) by (done || intros; by apply expect_head). done.
Qed.

Lemma printed_length key : bytes_ok key → String.length (printed key) = (2 * length key)%nat.
Proof.
  unfold printed. induction 1 as [|b key Hb Hkey IH]; [done|]. destruct (printed_parts b Hb) as (_ & Hl & _).
  cbn [fmap list_fmap cat length]. rewrite string_length_app, Hl, IH. lia.
Qed.

Lemma printed_zero key :
  bytes_ok key → forallb is_zero (String.list_ascii_of_string (printed key)) = forallb (λ b, b =? 0)%Z key.
Proof.
  unfold printed. induction 1 as [|b key Hb Hkey IH]; [done|]. destruct (printed_parts b Hb) as (_ & _ & Hz & _).
  cbn [fmap list_fmap cat forallb]. by rewrite list_ascii_app, forallb_app, Hz, IH.
Qed.

(** Lines before the header count for nothing. *)
Lemma key_before before lines :
  Forall (λ s, contains header s = false) before → key_data false "" (before ++ lines) = key_data false "" lines.
Proof. induction 1 as [|s before Hs Hb IH]; [done|]. cbn [app key_data]. fold header. by rewrite Hs. Qed.

(** Nor do lines after the key. *)
Lemma key_after hexData lines : (lenEncryptKey ≤ String.length hexData)%nat → key_data true hexData lines = hexData.
Proof.
  intros Hl. induction lines as [|s lines IH]; [done|]. cbn [key_data]. destruct (contains _ s); [done|].
  apply Nat.leb_le in Hl as Hl'. replace (String.length hexData <? lenEncryptKey)%nat with false by
    (symmetry; apply Nat.ltb_ge; lia). cbn [andb]. by rewrite Hl'.
Qed.

Lemma key_rows rows hexData after :
  Forall bytes_ok rows → (String.length hexData + 2 * length (concat rows) = lenEncryptKey)%nat →
  key_data true hexData ((print_row <$> rows) ++ after) = hexData +:+ printed (concat rows).
Proof.
  intros Hrows. revert hexData. induction Hrows as [|row rows Hrow Hrows IH]; intros hexData Hl.
  { cbn in Hl |- *. rewrite key_after by lia. by rewrite string_app_nil. }
  cbn [concat] in Hl. cbn [fmap list_fmap app key_data concat]. rewrite length_app in Hl.
  rewrite (contains_free "S") by (by apply row_free; [|left]).
  assert (Hrl : String.length (hex_only (print_row row)) = (2 * length row)%nat)
    by (rewrite row_read by done; by apply printed_length).
  assert (Hp : hexData +:+ printed (row ++ concat rows) =
    (hexData +:+ hex_only (print_row row)) +:+ printed (concat rows)).
  { rewrite row_read by done. unfold printed. by rewrite fmap_app, cat_app, string_app_assoc. }
  destruct (Nat.ltb_spec (String.length hexData) lenEncryptKey) as [Hlt|Hge]; cbn [andb].
  - destruct (Nat.leb_spec lenEncryptKey (String.length (hexData +:+ hex_only (print_row row)))) as [Hfull|Hmore].
    + rewrite string_length_app, Hrl in Hfull. destruct (concat rows) as [|b key] eqn:Hc.
      * rewrite Hp. change (printed []) with "". by rewrite string_app_nil.
      * cbn [length] in Hl. lia.
    + rewrite IH; [done|]. rewrite string_length_app, Hrl. lia.
  - assert (length row = 0 ∧ length (concat rows) = 0)%nat as [Hr Hc] by lia.
    apply Nat.leb_le in Hge as ->. apply length_zero_iff_nil in Hr, Hc. rewrite Hr, Hc.
    change (printed ([] ++ [])) with "". by rewrite string_app_nil.
Qed.

(** The key that blhost has printed, in rows of any length, is empty exactly when all
    its bytes are zero, whatever is printed around it. *)
Theorem key_read before after_header rows after
    (Hbefore : Forall (λ s, contains header s = false) before)
    (Hheader : contains header after_header = true)
    (Hlines : Forall (λ s, free (is_char "010") s = true) (after_header :: before ++ after))
    (Hrows : Forall bytes_ok rows) (Hkey : length (concat rows) = 48%nat) :
  isEncryptKeyEmpty (join (String "010" "") (before ++ after_header :: (print_row <$> rows) ++ after)) =
    forallb (λ b, b =? 0)%Z (concat rows).
Proof.
  unfold isEncryptKeyEmpty, lines_of. rewrite split_join.
  2: by destruct before.
  2: { apply Forall_cons in Hlines as [Hh [Hb Ha]%Forall_app]. apply Forall_app; split; [done|].
       apply Forall_cons; split; [done|]. apply Forall_app; split; [|done].
       apply Forall_fmap. eapply Forall_impl; [exact Hrows|]. intros row Hrow.
       apply row_free; [done|by right]. }
  rewrite key_before by done. cbn [key_data]. fold header. rewrite Hheader.
  rewrite key_rows by (done || by rewrite Hkey). change ("" +:+ ?s) with s.
  assert (Hok : bytes_ok (concat rows)) by by apply Forall_concat.
  rewrite decide_False by (rewrite printed_length by done; by rewrite Hkey; intros []).
  by rewrite printed_zero.
Qed.

(** ** The configuration *)

Definition print_polarity (activeLow : bool) : json := JString (if activeLow then "ActiveLow" else "ActiveHigh").

(** An MCU of the configuration as an entry of the file. *)
Definition print_entry (i : MCUInfo) : json :=
  JObject ([("Name", JString (device i)); ("Type", JString "MCURecovery");
            ("Interface", JString match interfaceType i with I2C => "I2C" | _ => "USB" end);
            ("ResetGpioName", JString (resetGpioName i)); ("RecoveryGpioName", JString (recoveryGpioName i));
            ("ResetGpioPolarity", print_polarity (resetActiveLow i));
            ("RecoveryGpioPolarity", print_polarity (recoveryActiveLow i))] ++
           match interfaceType i with
           | I2C => [("I2CBus", JUnsigned (i2cBus i)); ("NormalI2CAddress", JUnsigned (normalI2cAddress i));
                     ("RecoveryI2CAddress", JUnsigned (recoveryI2cAddress i))]
           | _ => [("USBPort", JString (usbPort i)); ("ProductId", JUnsigned (functionalPid i))]
           end).

(** The members of the other interface are not given. *)
Definition entry_ok (i : MCUInfo) : Prop :=
  match interfaceType i with
  | USB => word 16 (functionalPid i) ∧ i2cBus i = 0 ∧ normalI2cAddress i = 0 ∧ recoveryI2cAddress i = 0
  | I2C => word 8 (i2cBus i) ∧ word 16 (normalI2cAddress i) ∧ word 16 (recoveryI2cAddress i) ∧
           usbPort i = "" ∧ functionalPid i = 0
  | Unknown => False
  end%Z.

(** What a file exposes: MCUs, and entries of other types. *)
Inductive Exposed := Exposed_mcu (i : MCUInfo) | Exposed_other (type : string) (m : members).

Definition exposed_ok (e : Exposed) : Prop :=
  match e with
  | Exposed_mcu i => entry_ok i
  | Exposed_other type m => type ≠ "MCURecovery" ∧ members_find m "Type" = Some (JString type)
  end.

Definition print_exposed (e : Exposed) : json :=
  match e with Exposed_mcu i => print_entry i | Exposed_other _ m => JObject m end.

Definition mcus (l : list Exposed) : list MCUInfo :=
  omap (λ e, match e with Exposed_mcu i => Some i | Exposed_other _ _ => None end) l.

Lemma polarity_printed b : parseActiveLowPolarity (if b : bool then "ActiveLow" else "ActiveHigh") = Some b.
Proof. by destruct b. Qed.

Lemma entry_parsed w i : entry_ok i → parse_entry w (print_entry i) = Ok (Some i).
Proof.
  destruct i as [name port resetName recoveryName bus normal recovery pid resetLow recoveryLow []];
    unfold entry_ok; cbn [interfaceType functionalPid i2cBus normalI2cAddress recoveryI2cAddress usbPort];
    [intros (Hp & -> & -> & ->)|intros (Hb & Hn & Hr & -> & ->)|done];
    unfold parse_entry, parse_polarity, parseHexField, string_at, item_at, print_entry, print_polarity; cbn;
    rewrite !polarity_printed; unfold u16, u8; by rewrite ?wrap_small by done.
Qed.

Lemma entries_parsed w l map : Forall exposed_ok l →
  parse_entries w (print_exposed <$> l) map = Ok (foldl (λ map i, assign (device i) i map) map (mcus l)).
Proof.
  intros Hl. revert map. induction Hl as [|[i|type m] l He Hl IH]; intros map; [done| |];
    cbn [fmap list_fmap parse_entries print_exposed].
  - change (item_at (print_entry i) "Type") with (Ok (E := Fault) (JString "MCURecovery")).
    unfold mbind, res_bind. cbn [negb]. rewrite bool_decide_true by done. cbn [negb].
    rewrite entry_parsed by done. apply IH.
  - destruct He as [Hne Ht]. unfold item_at. rewrite Ht. unfold mbind, res_bind.
    rewrite bool_decide_false by done. apply IH.
Qed.

Lemma assigned l map i :
  (∀ j, j ∈ l → device j ≠ device i) → assoc (device i) map = Some i →
  assoc (device i) (foldl (λ map j, assign (device j) j map) map l) = Some i.
Proof.
  revert map. induction l as [|j l IH]; intros map Hne Hi; [done|]. cbn [foldl].
  apply IH; [intros k Hk; apply Hne; by right|]. rewrite assoc_assign_ne; [done|]. apply Hne. left.
Qed.

(** A file that exposes MCUs of distinct names, among entries of other types, gives
    every one of them its configuration. *)
Theorem config_parsed w l (Hl : Forall exposed_ok l) (Hnames : NoDup (device <$> mcus l)) :
  ∃ map, parse_config w (JObject [("Exposes", JArray (print_exposed <$> l))]) = Ok map ∧
    ∀ i, i ∈ mcus l → assoc (device i) map = Some i.
Proof.
  exists (foldl (λ map i, assign (device i) i map) [] (mcus l)). split; [by apply entries_parsed|].
  revert Hnames. generalize (@nil (string * MCUInfo)). induction (mcus l) as [|j js IH]; intros map Hn i Hi;
    [by apply elem_of_nil in Hi|]. cbn [fmap list_fmap] in Hn. apply NoDup_cons in Hn as [Hj Hn]. cbn [foldl].
  apply elem_of_cons in Hi as [-> | Hi]; [|by apply IH].
  apply assigned; [|apply assoc_assign]. intros k Hk Heq. apply Hj. rewrite <- Heq. by apply list_elem_of_fmap_2.
Qed.
