(* ===== verification/McuUpdate.v ===== *)
(** * Looking at the MCUs

    What an update of the state of a device does: it leaves the configuration
    alone, gives back what it asks of libusb and of the I2C bus, makes a bounded
    number of attempts, and finds a device or nothing
    (src/recovery_tool/mcu_recovery_tool/mcu_recovery_manager.cpp). *)

From stdpp Require Import list strings gmap.
From Stdlib Require Import Ascii.
From S2P Require Import Prelude Json Bytes Text Trace Registry McuManager.

#[local] Open Scope string_scope.

(** ** The state *)

Definition info_of (s : Manager) (deviceId : string) : MCUInfo :=
  default MCUInfo_default (assoc deviceId (mcuMap s)).

Definition dev_of (s : Manager) (deviceId : string) : MCUDevice :=
  default MCUDevice_default (mcuDevices s !! deviceId).

Definition with_dev (s : Manager) (deviceId : string) (d : MCUDevice) : Manager :=
  {| s with mcuDevices := <[deviceId := d]> (mcuDevices s) |}.

(** The lines of a device. *)
Definition lines_eq (d d' : MCUDevice) : Prop := resetPin d' = resetPin d ∧ recoveryPin d' = recoveryPin d.

(** The configuration and the lines are as they were. *)
Definition frame (s s' : Manager) : Prop :=
  mcuMap s' = mcuMap s ∧ messageRegistry s' = messageRegistry s ∧ context s' = context s ∧
  ∀ deviceId, lines_eq (dev_of s deviceId) (dev_of s' deviceId).

#[export] Instance frame_preorder : PreOrder frame.
Proof.
  split; [intros s; by split_and!|]. intros s1 s2 s3 (Hm & Hr & Hc & Hl) (Hm' & Hr' & Hc' & Hl'). unfold frame.
  rewrite Hm', Hr', Hc'. split_and!; [done..|]. intros deviceId.
  destruct (Hl deviceId) as [? ?], (Hl' deviceId) as [? ?]. split; by etrans.
Qed.

Lemma dev_of_with s deviceId d : dev_of (with_dev s deviceId d) deviceId = d.
Proof. unfold dev_of. cbn. by rewrite lookup_insert_eq. Qed.

Lemma dev_of_with_ne s deviceId other d :
  deviceId ≠ other → dev_of (with_dev s deviceId d) other = dev_of s other.
Proof. intros Hne. unfold dev_of. cbn. by rewrite lookup_insert_ne. Qed.

Lemma frame_with_dev s deviceId d : lines_eq (dev_of s deviceId) d → frame s (with_dev s deviceId d).
Proof.
  intros Hl. split_and!; [done..|]. intros other. destruct (decide (deviceId = other)) as [<-|Hne].
  - by rewrite dev_of_with.
  - by rewrite dev_of_with_ne.
Qed.

Lemma info_of_frame s s' deviceId : frame s s' → info_of s' deviceId = info_of s deviceId.
Proof. intros (Hm & _). unfold info_of. by rewrite Hm. Qed.

(** ** What is held *)

(** The device list and the configuration that libusb has given, the I2C bus that
    is open; how often the devices were listed, and the waits. *)
Record Held := mkHeld {
  listed : option (list nat);
  configured : option nat;
  opened : option Z;
  lists : nat;
  naps : nat;
}.

Definition nothing (n k : nat) : Held := mkHeld None None None n k.

(** A device may be used as long as the list that holds it. *)
Definition usable (u : Held) (d : nat) : Prop := d ∈ default [] (listed u).

#[export] Instance usable_dec u d : Decision (usable u d).
Proof. unfold usable. apply _. Defined.

Definition held_step (u : Held) (e : Event (reply := reply)) : option Held :=
  let '(existT c r) := e in
  match c return reply c → option Held with
  | GetDeviceList => λ r,
      allow (listed u = None)
        {| u with listed := match r with Ok devices => Some devices | Throw _ => None end; lists := S (lists u) |}
  | FreeDeviceList devices => λ _,
      allow (listed u = Some devices ∧ configured u = None) {| u with listed := None |}
  | GetPortNumbers d | GetBusNumber d | GetDeviceAddress d | GetDeviceDescriptor d => λ _, allow (usable u d) u
  | GetActiveConfigDescriptor d => λ r,
      allow (usable u d ∧ configured u = None) (if is_ok r then {| u with configured := Some d |} else u)
  | FreeConfigDescriptor d => λ _, allow (configured u = Some d) {| u with configured := None |}
  | OpenDevice _ => λ r, allow (opened u = None) {| u with opened := r |}
  | SetSlave fd _ | QuickWrite fd => λ _, allow (opened u = Some fd) u
  | CloseFd fd => λ _, allow (opened u = Some fd) {| u with opened := None |}
  | SleepUs _ => λ _, Some {| u with naps := S (naps u) |}
  | _ => λ _, Some u
  end r.

Section Update.
Context `{McuEnv}.

(** ** Parts that only concern the state *)

Lemma info_pure deviceId s : info deviceId s = mret (Ok (info_of s deviceId), s).
Proof. done. Qed.

Lemma dev_pure deviceId s : dev deviceId s = mret (Ok (dev_of s deviceId), with_dev s deviceId (dev_of s deviceId)).
Proof.
  unfold dev, dev_of, with_dev. destruct s as [c m ds r]. unfold mbind at 1, T_bind, get. cbn.
  unfold mbind, M_bind, mret at 1, M_ret. cbn. destruct (ds !! deviceId) as [d|] eqn:Hd; cbn; [|done].
  by rewrite insert_id.
Qed.

Lemma set_dev_pure deviceId f s :
  set_dev deviceId f s = mret (Ok (), with_dev s deviceId (f (dev_of s deviceId))).
Proof.
  unfold set_dev, mbind, T_bind. rewrite dev_pure. unfold mbind, M_bind, mret, M_ret, modify. cbn.
  unfold with_dev. cbn. by rewrite insert_insert_eq.
Qed.

(** ** A method that does not throw, and what it holds *)

(** From [s], holding [u], [m] answers some [a] in [s'], holding [u'], with
    [Q a s' u']. *)
Definition finds {A} (u : Held) (m : T Manager A) (s : Manager) (Q : A → Manager → Held → Prop) : Prop :=
  ensures m s (λ r s' es, frame s s' ∧ ∃ a u', r = Ok a ∧ run held_step u es = Some u' ∧ Q a s' u').

Lemma finds_ret {A} u (a : A) s (Q : A → Manager → Held → Prop) : Q a s u → finds u (mret a) s Q.
Proof. intros HQ. apply ensures_ret. split; [done|]. by exists a, u. Qed.

Lemma finds_impl {A} u (m : T Manager A) s (Q Q' : A → Manager → Held → Prop) :
  finds u m s Q → (∀ a s' u', frame s s' → Q a s' u' → Q' a s' u') → finds u m s Q'.
Proof.
  unfold finds. intros Hm HQ. eapply ensures_impl; [exact Hm|]. intros r s' es (Hf & a & u' & -> & Hr & Ha).
  split; [done|]. exists a, u'. eauto.
Qed.

Lemma finds_bind {A B} u (m : T Manager A) (f : A → T Manager B) s Q1 Q :
  finds u m s Q1 → (∀ a s1 u1, frame s s1 → Q1 a s1 u1 → finds u1 (f a) s1 Q) → finds u (m ≫= f) s Q.
Proof.
  unfold finds. intros Hm Hf. eapply ensures_bind; [exact Hm| |by intros e s1 es (_ & ? & ? & ? & _)].
  intros a s1 es (Hfr & ? & u1 & [= <-] & Hr & HQ).
  eapply ensures_impl; [by apply Hf|]. intros r s' es' (Hfr' & b & u' & -> & Hr' & HQ').
  split; [by etrans|]. exists b, u'. by rewrite events_run_app, Hr.
Qed.

Lemma finds_pure {A B} u (m : T Manager A) (f : A → T Manager B) s a s1 Q :
  m s = mret (Ok a, s1) → frame s s1 → finds u (f a) s1 Q → finds u (m ≫= f) s Q.
Proof.
  unfold finds. intros Hm Hfr Hf. eapply ensures_pure; [exact Hm|]. eapply ensures_impl; [exact Hf|].
  intros r s' es (Hfr' & Hr). split; [by etrans|done].
Qed.

Lemma finds_info {B} u deviceId (f : MCUInfo → T Manager B) s Q :
  finds u (f (info_of s deviceId)) s Q → finds u (info deviceId ≫= f) s Q.
Proof. by apply finds_pure. Qed.

Lemma finds_dev {B} u deviceId (f : MCUDevice → T Manager B) s Q :
  finds u (f (dev_of s deviceId)) (with_dev s deviceId (dev_of s deviceId)) Q → finds u (dev deviceId ≫= f) s Q.
Proof. apply finds_pure; [apply dev_pure|by apply frame_with_dev]. Qed.

Lemma finds_set_dev {B} u deviceId g (f : () → T Manager B) s Q :
  (∀ d, lines_eq d (g d)) →
  finds u (f ()) (with_dev s deviceId (g (dev_of s deviceId))) Q → finds u (set_dev deviceId g ≫= f) s Q.
Proof. intros Hg. apply finds_pure; [apply set_dev_pure|by apply frame_with_dev]. Qed.

Lemma finds_step {B} u c (f : reply c → T Manager B) s Q :
  (∀ r, ∃ u', held_step u (existT (P := reply) c r) = Some u' ∧ finds u' (f r) s Q) → finds u (lift (call c) ≫= f) s Q.
Proof.
  unfold finds. intros Hf. refine (ensures_step c f s _ _). intros r. destruct (Hf r) as (u' & Hu & Hr).
  eapply ensures_impl; [exact Hr|]. intros r' s' es (Hfr & a & u'' & -> & Hrun & HQ).
  split; [done|]. exists a, u''. split_and!; [done| |done]. cbn [run]. by rewrite Hu.
Qed.

(** A program that does not touch the state. *)
Lemma finds_lift {A B} u (m : M A) (f : A → T Manager B) s (Q1 : A → Held → Prop) Q :
  reaches held_step u m Q1 → (∀ a u1, Q1 a u1 → finds u1 (f a) s Q) → finds u (lift m ≫= f) s Q.
Proof.
  intros Hm Hf. apply (finds_bind _ _ _ _ (λ a s1 u1, s1 = s ∧ Q1 a u1)).
  - eapply (ensures_lift m); [exact Hm|]. intros a es (u1 & Hr & HQ). split; [done|]. by exists a, u1.
  - intros a s1 u1 _ [-> HQ]. by apply Hf.
Qed.

(** ** USB devices *)

Lemma port_path_found u d : usable u d → reaches held_step u (getFullPortPath d) (λ _ u', u' = u).
Proof.
  intros Hd. refine (reaches_step (reply := reply) u (GetPortNumbers d) _ _ _). intros ports. exists u.
  split; [by apply allow_true|]. destruct ports as [ports|e]; [|by apply reaches_ret].
  refine (reaches_step (reply := reply) u (GetBusNumber d) _ _ _). intros bus. exists u.
  split; [by apply allow_true|]. by apply reaches_ret.
Qed.

Lemma device_found u deviceId port devices ds retries s :
  listed u = Some ds → configured u = None → devices ⊆ ds →
  finds u (find_device deviceId port devices retries) s (λ r _ u', u' = u ∧ (retries ≤ r.2)%Z).
Proof.
  intros Hl Hc. revert s. induction devices as [|d devices IH]; intros s Hds; cbn [find_device].
  { apply finds_ret. split; [done|]. cbn. lia. }
  assert (Hd : usable u d) by (unfold usable; rewrite Hl; apply Hds; left).
  eapply finds_lift; [by apply port_path_found|]. intros path ? ->. case_decide.
  { apply IH. intros x Hx. apply Hds. by right. }
  apply finds_set_dev; [done|]. refine (finds_step u (GetDeviceDescriptor d) _ _ _ _).
  intros [ret [vendor product]]. exists u. split; [by apply allow_true|].
  apply finds_set_dev; [done|]. case_decide.
  { apply finds_set_dev; [done|]. apply finds_ret. split; [done|]. cbn. lia. }
  refine (finds_step u (GetActiveConfigDescriptor d) _ _ _ _). intros [config|e].
  - eexists. split; [by apply allow_true|]. cbn [is_ok].
    unfold updateDevHealth. destruct (health false (concat config)) as [recovery mctp].
    apply finds_set_dev; [done|].
    refine (finds_step _ (FreeConfigDescriptor d) _ _ _ _). intros []. eexists.
    split; [by apply allow_true|]. apply finds_ret. split; [by destruct u; cbn in *; subst|cbn; lia].
  - eexists. split; [by apply allow_true|]. apply finds_set_dev; [done|]. apply finds_ret. split; [done|]. cbn. lia.
Qed.

Lemma attempts_found deviceId fuel retries n k s :
  finds (nothing n k) (usb_attempts fuel deviceId retries) s (λ found s' u', ∃ n' k',
    u' = nothing n' k' ∧ (n' ≤ n + fuel)%nat ∧ (Z.of_nat k' ≤ Z.of_nat k + Z.max 0 (4 - retries))%Z ∧
    (found = true → is_Some (curUsbDevice (dev_of s' deviceId)))).
Proof.
  revert retries n k s. induction fuel as [|fuel IH]; intros retries n k s; cbn [usb_attempts].
  { apply finds_ret. exists n, k. split_and!; [done|lia|lia|done]. }
  destruct (Z.leb_spec 5 retries); [apply finds_ret; exists n, k; split_and!; [done|lia|lia|done]|].
  refine (finds_step _ GetDeviceList _ _ _ _). intros [devices|e]; (eexists; split; [by apply allow_true|]);
    (apply finds_set_dev; [done|]).
  - apply finds_info. eapply finds_bind; [by apply (device_found _ _ _ devices devices)|].
    intros [deviceFound retries'] s1 ? _ [-> Hr]. cbn [snd] in Hr.
    refine (finds_step _ (FreeDeviceList devices) _ _ _ _). intros []. eexists. split; [by apply allow_true|].
    apply finds_dev. destruct (deviceFound && _) eqn:Hf.
    + apply andb_prop in Hf as [_ Hf%bool_decide_eq_true]. apply finds_ret. exists (S n), k.
      split_and!; [done|lia|lia|]. intros _. by rewrite dev_of_with.
    + cbv zeta. destruct (Z.ltb_spec (retries' + 1) 5).
      * refine (finds_step _ (SleepUs 2000000) _ _ _ _). intros []. eexists. split; [done|].
        eapply finds_impl; [apply (IH (retries' + 1)%Z (S n) (S k))|].
        intros found s' u' _ (n' & k' & -> & Hn & Hk & Hd). exists n', k'. split_and!; [done|lia|lia|done].
      * eapply (finds_pure _ (mret ())); [done|done|].
        eapply finds_impl; [apply (IH (retries' + 1)%Z (S n) k)|].
        intros found s' u' _ (n' & k' & -> & Hn & Hk & Hd). exists n', k'. split_and!; [done|lia|lia|done].
  - eapply finds_impl; [apply (IH (retries + 1)%Z (S n) k)|].
    intros found s' u' _ (n' & k' & -> & Hn & Hk & Hd). exists n', k'. split_and!; [done|lia|lia|done].
Qed.

(** ** I2C devices *)

Lemma probe_found i address n k :
  reaches held_step (nothing n k) (probeI2cAddress i address) (λ _ u', u' = nothing n k).
Proof.
  refine (reaches_step (reply := reply) _ (OpenDevice _) _ _ _). intros [fd|]; (eexists; split; [by apply allow_true|]);
    [|by apply reaches_ret].
  refine (reaches_step (reply := reply) _ (SetSlave fd address) _ _ _). intros addressed.
  eexists. split; [by apply allow_true|]. destruct (negb addressed).
  { refine (reaches_step (reply := reply) _ (CloseFd fd) _ _ _). intros []. eexists.
    split; [by apply allow_true|]. by apply reaches_ret. }
  refine (reaches_step (reply := reply) _ (QuickWrite fd) _ _ _). intros written.
  eexists. split; [by apply allow_true|].
  refine (reaches_step (reply := reply) _ (CloseFd fd) _ _ _). intros []. eexists.
  split; [by apply allow_true|]. by apply reaches_ret.
Qed.

Lemma i2c_found deviceId n k s :
  finds (nothing n k) (updateI2cDevInfo deviceId) s (λ found s' u', u' = nothing n k ∧
    found = i2cHealthy (dev_of s' deviceId) || inRecoveryMode (dev_of s' deviceId)).
Proof.
  apply finds_dev, finds_info. eapply finds_lift; [apply probe_found|]. intros healthy ? ->.
  apply finds_set_dev; [done|]. eapply finds_lift; [apply probe_found|]. intros recovery ? ->.
  apply finds_set_dev; [done|]. apply finds_ret. split; [done|]. by rewrite !dev_of_with.
Qed.

(** ** An update *)

(** What a device that was found has. *)
Definition present (s : Manager) (deviceId : string) : Prop :=
  if decide (interfaceType (info_of s deviceId) = I2C)
  then i2cHealthy (dev_of s deviceId) = true ∨ inRecoveryMode (dev_of s deviceId) = true
  else is_Some (curUsbDevice (dev_of s deviceId)).

(** An update gives back all it holds and leaves the configuration alone; it lists
    the USB devices at most five times and waits at most four; and a device it
    finds answers on its bus, or is the one at the port. *)
Theorem update_gives_back deviceId n k s :
  finds (nothing n k) (updateDevInfo deviceId) s (λ found s' u', ∃ n' k',
    u' = nothing n' k' ∧ (n' ≤ n + 5)%nat ∧ (k' ≤ k + 4)%nat ∧ (found = true → present s' deviceId)).
Proof.
  apply finds_info. case_decide as Hi.
  - eapply finds_impl; [apply i2c_found|]. intros found s' u' Hf [-> ->]. exists n, k.
    split_and!; [done|lia|lia|]. intros Hd%orb_true_iff. unfold present.
    by rewrite (info_of_frame s s') , decide_True.
  - eapply finds_impl; [apply attempts_found|]. intros found s' u' Hf (n' & k' & -> & Hn & Hk & Hd). exists n', k'.
    split_and!; [done|lia|lia|]. unfold present. by rewrite (info_of_frame s s'), decide_False.
Qed.

(** The corollary for what an update calls: nothing on the lines, in processes, or
    in the log. *)
Definition looking (c : Call) : Prop :=
  match c with
  | SleepUs _ | GetDeviceList | FreeDeviceList _ | GetPortNumbers _ | GetBusNumber _ | GetDeviceAddress _
  | GetDeviceDescriptor _ | GetActiveConfigDescriptor _ | FreeConfigDescriptor _
  | OpenDevice _ | SetSlave _ _ | QuickWrite _ | CloseFd _ => True
  | _ => False
  end.

(** [m] makes only calls that satisfy [P], from every state. *)
Definition calls {A} (P : Call → Prop) (m : T Manager A) : Prop := ∀ s, emits P (m s).

Lemma calls_ret {A} P (a : A) : calls P (mret a).
Proof. intros s. apply emits_ret. Qed.

Lemma calls_throw {A} P e : calls P (throw e : T Manager A).
Proof. intros s. apply emits_ret. Qed.

Lemma calls_bind {A B} P (m : T Manager A) (f : A → T Manager B) :
  calls P m → (∀ a, calls P (f a)) → calls P (m ≫= f).
Proof.
  intros Hm Hf s. apply emits_bind; [apply Hm|]. intros [[a|e] s']; [apply Hf|apply emits_ret].
Qed.

Lemma calls_lift {A} P (m : M A) : emits P m → calls P (lift m).
Proof. intros Hm s. apply emits_bind; [exact Hm|]. intros a. apply emits_ret. Qed.

Lemma calls_call P c : P c → calls P (lift (call c)).
Proof. intros Hc. apply calls_lift. emit. Qed.

(** One call, which the predicate allows. *)
#[local] Ltac one_call := match goal with |- calls ?P (lift (call ?c)) => refine (calls_call P c _); done end.

Lemma calls_get P : calls P (get : T Manager Manager).
Proof. intros s. apply emits_ret. Qed.

Lemma calls_pure {A} P (m : T Manager A) : (∀ s, ∃ a s', m s = mret (Ok a, s')) → calls P m.
Proof. intros Hm s. destruct (Hm s) as (a & s' & ->). apply emits_ret. Qed.

Lemma calls_info P deviceId : calls P (info deviceId).
Proof. apply calls_pure. intros s. by eexists _, _. Qed.

Lemma calls_dev P deviceId : calls P (dev deviceId).
Proof. apply calls_pure. intros s. eexists _, _. apply dev_pure. Qed.

Lemma calls_set_dev P deviceId f : calls P (set_dev deviceId f).
Proof. apply calls_pure. intros s. eexists _, _. apply set_dev_pure. Qed.

Lemma calls_loop {A} P (body : A → T Manager ()) l : (∀ x, calls P (body x)) → calls P (loop body l).
Proof.
  intros Hb. induction l as [|x l IH]; [apply calls_ret|]. apply calls_bind; [apply Hb|intros _; exact IH].
Qed.

Lemma find_device_looks deviceId port devices retries : calls looking (find_device deviceId port devices retries).
Proof.
  induction devices as [|d devices IH]; cbn [find_device]; [apply calls_ret|].
  apply calls_bind.
  { apply calls_lift, emits_bind; [emit|]. intros [ports|e]; [|apply emits_ret].
    apply emits_bind; [emit|intros bus; apply emits_ret]. }
  intros path. case_decide; [exact IH|]. apply calls_bind; [apply calls_set_dev|]. intros [].
  apply calls_bind; [one_call|]. intros [ret [vendor product]].
  apply calls_bind; [apply calls_set_dev|]. intros [].
  case_decide; [apply calls_bind; [apply calls_set_dev|intros []; apply calls_ret]|].
  apply calls_bind; [one_call|]. intros [config|e].
  - apply calls_bind; [unfold updateDevHealth; destruct (health _ _); apply calls_set_dev|]. intros [].
    apply calls_bind; [one_call|intros []; apply calls_ret].
  - apply calls_bind; [apply calls_set_dev|intros []; apply calls_ret].
Qed.

Lemma attempts_look fuel deviceId retries : calls looking (usb_attempts fuel deviceId retries).
Proof.
  revert retries. induction fuel as [|fuel IH]; intros retries; cbn [usb_attempts]; [apply calls_ret|].
  destruct (5 <=? retries)%Z; [apply calls_ret|]. apply calls_bind; [one_call|]. intros list.
  apply calls_bind; [apply calls_set_dev|]. intros []. destruct list as [devices|e]; [|apply IH].
  apply calls_bind; [apply calls_info|]. intros i. apply calls_bind; [apply find_device_looks|].
  intros [deviceFound retries']. apply calls_bind; [one_call|]. intros [].
  apply calls_bind; [apply calls_dev|]. intros d. destruct (deviceFound && _); [apply calls_ret|]. cbv zeta.
  apply calls_bind; [destruct (_ <? _)%Z; [one_call|apply calls_ret]|]. intros []. apply IH.
Qed.

Lemma probe_looks i address : emits looking (probeI2cAddress i address).
Proof.
  apply emits_bind; [emit|]. intros [fd|]; [|apply emits_ret]. apply emits_bind; [emit|]. intros addressed.
  destruct (negb addressed); repeat (apply emits_bind; [emit|]; intros ?); apply emits_ret.
Qed.

Lemma update_looks deviceId : calls looking (updateDevInfo deviceId).
Proof.
  apply calls_bind; [apply calls_info|]. intros i. case_decide; [|apply attempts_look].
  apply calls_bind; [apply calls_dev|]. intros d. apply calls_bind; [apply calls_info|]. intros i'.
  apply calls_bind; [apply calls_lift, probe_looks|]. intros healthy.
  apply calls_bind; [apply calls_set_dev|]. intros [].
  apply calls_bind; [apply calls_lift, probe_looks|]. intros recovery.
  apply calls_bind; [apply calls_set_dev|]. intros []. apply calls_ret.
Qed.
End Update.

Ltac one_call := match goal with |- calls ?P (lift (call ?c)) => refine (calls_call P c _); done end.
