(* ===== verification/McuFlow.v ===== *)
(** * What a recovery of MCUs says and runs

    The entries that a recovery leaves in the log and the commands of blhost it
    runs, in order, for each device
    (src/recovery_tool/mcu_recovery_tool/mcu_recovery_manager.cpp). *)

From stdpp Require Import list strings gmap.
From Stdlib Require Import Ascii.
From S2P Require Import Prelude Json Bytes Text Trace Registry McuManager McuRecovery McuUpdate.

#[local] Open Scope string_scope.

(** ** What is seen *)

(** An entry in the log; a command, with its output if it could be run. *)
Inductive Obs := Said (entry : Entry) | Ran (command : string) (output : option string).

Definition obs (e : Event (reply := reply)) : option Obs :=
  let '(existT c r) := e in
  match c return reply c → option Obs with
  | CreateEntry entry => λ _, Some (Said entry)
  | RunCommand command => λ output, Some (Ran command output)
  | _ => λ _, None
  end r.

Abbreviation seen := (omap obs).

(** Calls that are not seen. *)
Definition unseen (c : Call) : Prop :=
  match c with CreateEntry _ | RunCommand _ => False | _ => True end.

Lemma unseen_nil es : calls_ok unseen es → seen es = [].
Proof.
  induction 1 as [|[c r] es Hc Hes IH]; [done|]. cbn [omap list_omap]. rewrite IH. by destruct c.
Qed.

(** ** The grammar *)

Section Grammar.
Context (registry : bool).

Definition say (entry : option Entry) : list Obs :=
  if registry then match entry with Some entry => [Said entry] | None => [] end else [].

Definition message (messageID device : string) : list Obs := say (createMessageRegistry messageID device).

Definition failure (errorCode : Z) (severity : Level) (device : string) : list Obs :=
  say (createMessageRegistryResourceErrors resourceErrorsDetected MCURecovery errorCode device severity).

Definition err (errorCode : Z) (device : string) : list Obs := failure errorCode Critical device.

(** The end of a recovery that gives up: the device is let go, or that throws. *)
Inductive given_up (name : string) : list Obs → Prop :=
| let_go : given_up name (err deviceRecoveryFailed name)
| thrown : given_up name (err (code CmdExecFailed) name).

(** The image is sent: the device takes it and comes back healthy; or something
    fails. *)
Inductive sent (name target path : string) : list Obs → Prop :=
| sent_not_run : sent name target path (Ran (cmdWrite target path) None :: err (code CmdExecFailed) name)
| sent_refused output l :
    isCommandSuccessful output = false → given_up name l →
    sent name target path (Ran (cmdWrite target path) (Some output) :: err (code CmdExecFailed) name ++ l)
| sent_lost output l :
    isCommandSuccessful output = true → given_up name l →
    sent name target path (Ran (cmdWrite target path) (Some output) :: l)
| sent_healthy output :
    isCommandSuccessful output = true →
    sent name target path (Ran (cmdWrite target path) (Some output) :: message recoverySuccessful name).

(** The key of an unlocked device is read; it takes images only if it is set. *)
Inductive keyed (name target path : string) : list Obs → Prop :=
| key_not_run : keyed name target path (Ran (cmdGetKey target) None :: err (code CmdExecFailed) name)
| key_refused output l :
    isCommandSuccessful output = false → given_up name l →
    keyed name target path (Ran (cmdGetKey target) (Some output) :: err (code ReadMemoryFailed) name ++ l)
| key_empty output l :
    isCommandSuccessful output = true → isEncryptKeyEmpty output = true → given_up name l →
    keyed name target path (Ran (cmdGetKey target) (Some output) :: err (code EncryptKeyNotSet) name ++ l)
| key_set output l :
    isCommandSuccessful output = true → isEncryptKeyEmpty output = false → sent name target path l →
    keyed name target path (Ran (cmdGetKey target) (Some output) :: l).

(** The security state is read first. *)
Inductive checked (name target path : string) : list Obs → Prop :=
| state_not_run : checked name target path (Ran (cmdSecState target) None :: err (code CmdExecFailed) name)
| state_refused output l :
    isCommandSuccessful output = false → given_up name l →
    checked name target path (Ran (cmdSecState target) (Some output) :: err (code GetSecurityStateFailed) name ++ l)
| state_locked output l :
    isCommandSuccessful output = true → contains "UNSECURE" output = false → sent name target path l →
    checked name target path (Ran (cmdSecState target) (Some output) :: l)
| state_unlocked output l :
    isCommandSuccessful output = true → contains "UNSECURE" output = true → keyed name target path l →
    checked name target path (Ran (cmdSecState target) (Some output) :: failure (code NotSecureDevice) Warning name ++ l).

(** What is seen of a device. *)
Inductive answer (path : string) (force : bool) (i : MCUInfo) : list Obs → Prop :=
| answer_absent : answer path force i []
| answer_unprovisioned : answer path force i (err (code DevNotProvisioned) (device i))
| answer_healthy : force = false → answer path force i (message firmwareNotInRecovery (device i))
| answer_recovery target l :
    interfaceType i ≠ Unknown → checked (device i) target path l →
    answer path force i (message recoveryStarted (device i) ++ l).
End Grammar.

(** ** Methods and what is seen of them *)

Section Flow.
Context `{McuEnv}.

(** From [s], [m] keeps the configuration, is defined, and ends with [r] in [s'],
    having shown [l], with [Q r s' l]. *)
Definition shows {A} (m : T Manager A) (s : Manager) (Q : res Fault A → Manager → list Obs → Prop) : Prop :=
  ensures m s (λ r s' es, frame s s' ∧ r ≠ Throw Undefined ∧ Q r s' (seen es)).

Lemma shows_ret {A} (a : A) s (Q : res Fault A → Manager → list Obs → Prop) : Q (Ok a) s [] → shows (mret a) s Q.
Proof. intros HQ. by apply ensures_ret. Qed.

Lemma shows_throw {A} s (Q : res Fault A → Manager → list Obs → Prop) :
  Q (Throw Exception) s [] → shows (throw Exception) s Q.
Proof. intros HQ. by apply ensures_throw. Qed.

Lemma shows_impl {A} (m : T Manager A) s (Q Q' : res Fault A → Manager → list Obs → Prop) :
  shows m s Q → (∀ r s' l, frame s s' → Q r s' l → Q' r s' l) → shows m s Q'.
Proof.
  unfold shows. intros Hm HQ. eapply ensures_impl; [exact Hm|]. intros r s' es (Hf & Hr & Hl). eauto.
Qed.

Lemma shows_bind {A B} (m : T Manager A) (f : A → T Manager B) s
    (Q1 : res Fault A → Manager → list Obs → Prop) (Q : res Fault B → Manager → list Obs → Prop) :
  shows m s Q1 →
  (∀ a s1 l, frame s s1 → Q1 (Ok a) s1 l → shows (f a) s1 (λ r s' l', Q r s' (l ++ l')%list)) →
  (∀ s1 l, frame s s1 → Q1 (Throw Exception) s1 l → Q (Throw Exception) s1 l) →
  shows (m ≫= f) s Q.
Proof.
  unfold shows. intros Hm Hf He. eapply ensures_bind; [exact Hm| |].
  - intros a s1 es (Hfr & _ & HQ). eapply ensures_impl; [by apply Hf|].
    intros r s' es' (Hfr' & Hr & HQ'). rewrite omap_app. split_and!; [by etrans|done|done].
  - intros [|] s1 es (Hfr & Hr & HQ); [|done]. split_and!; [done|done|by apply He].
Qed.

(** A part that does not throw. *)
Lemma shows_then {A B} (m : T Manager A) (f : A → T Manager B) s (Q1 : A → Manager → list Obs → Prop) Q :
  shows m s (λ r s' l, ∃ a, r = Ok a ∧ Q1 a s' l) →
  (∀ a s1 l, frame s s1 → Q1 a s1 l → shows (f a) s1 (λ r s' l', Q r s' (l ++ l')%list)) →
  shows (m ≫= f) s Q.
Proof.
  intros Hm Hf. eapply shows_bind; [exact Hm| |by intros s1 l _ (? & ? & _)].
  intros a s1 l Hfr (? & [= <-] & HQ). by apply Hf.
Qed.

Lemma shows_pure {A B} (m : T Manager A) (f : A → T Manager B) s a s1 Q :
  m s = mret (Ok a, s1) → frame s s1 → shows (f a) s1 Q → shows (m ≫= f) s Q.
Proof.
  unfold shows. intros Hm Hfr Hf. eapply ensures_pure; [exact Hm|]. eapply ensures_impl; [exact Hf|].
  intros r s' es (Hfr' & Hr). split; [by etrans|done].
Qed.

Lemma shows_info {B} deviceId (f : MCUInfo → T Manager B) s Q :
  shows (f (info_of s deviceId)) s Q → shows (info deviceId ≫= f) s Q.
Proof. by apply shows_pure. Qed.

Lemma shows_get {B} (f : Manager → T Manager B) s Q : shows (f s) s Q → shows (get ≫= f) s Q.
Proof. by apply shows_pure. Qed.

Lemma shows_catch (m handler : T Manager ()) s (Q1 Q : res Fault () → Manager → list Obs → Prop) :
  shows m s Q1 →
  (∀ s1 l, frame s s1 → Q1 (Throw Exception) s1 l → shows handler s1 (λ r s' l', Q r s' (l ++ l')%list)) →
  (∀ s1 l, frame s s1 → Q1 (Ok ()) s1 l → Q (Ok ()) s1 l) →
  shows (catch m handler) s Q.
Proof.
  unfold shows. intros Hm Hh Ho. eapply ensures_catch; [exact Hm| |].
  - intros s1 es (Hfr & _ & HQ). eapply ensures_impl; [by apply Hh|].
    intros r s' es' (Hfr' & Hr & HQ'). rewrite omap_app. split_and!; [by etrans|done|done].
  - intros [[]|[|]] s1 es Hne (Hfr & Hr & HQ); [|done|done]. split_and!; [done|done|by apply Ho].
Qed.

(** A method that shows nothing. *)
Definition hidden {A} (m : T Manager A) : Prop := ∀ s, shows m s (λ _ _ l, l = []).

Lemma hidden_seq {A B} (m : T Manager A) (f : A → T Manager B) :
  hidden m → (∀ a, hidden (f a)) → hidden (m ≫= f).
Proof.
  intros Hm Hf s. eapply shows_bind; [apply Hm| |by intros]. intros a s1 ? _ ->. apply Hf.
Qed.

Lemma hidden_call c : unseen c → hidden (lift (call c)).
Proof.
  intros Hc s. apply ensures_call. intros r. split_and!; [done|done|]. cbn. by destruct c.
Qed.

Lemma hidden_ret {A} (a : A) : hidden (mret a).
Proof. intros s. by apply shows_ret. Qed.

Lemma hidden_info deviceId : hidden (info deviceId).
Proof. intros s. by apply ensures_ret. Qed.

Lemma hidden_dev deviceId : hidden (dev deviceId).
Proof.
  intros s. unfold shows, ensures. rewrite dev_pure. apply does_ret. split_and!; [by apply frame_with_dev|done|done].
Qed.

Lemma hidden_set_value line value : hidden (set_value line value).
Proof.
  unfold set_value, on_line. destruct line as [name|]; [|intros s; by apply shows_throw].
  apply hidden_seq; [by refine (hidden_call (SetValue name value) _)|].
  intros [|]; [apply hidden_ret|intros s; by apply shows_throw].
Qed.

Lemma hidden_strap i d level : hidden (strap_and_pulse i d level).
Proof.
  repeat (apply hidden_seq; [first [apply hidden_set_value|by refine (hidden_call (SleepUs _) _)]|]; intros []).
  by refine (hidden_call (SleepUs _) _).
Qed.

Lemma hidden_enter deviceId : hidden (enterRecoveryMode deviceId).
Proof.
  apply hidden_seq; [apply hidden_info|]. intros i. apply hidden_seq; [apply hidden_dev|]. intros d.
  destruct (negb (has_lines d)); [apply hidden_ret|apply hidden_strap].
Qed.

Lemma hidden_exit deviceId : hidden (exitRecoveryMode deviceId).
Proof.
  apply hidden_seq; [apply hidden_info|]. intros i. apply hidden_seq; [apply hidden_dev|]. intros d.
  destruct (negb (has_lines d)); [apply hidden_ret|apply hidden_strap].
Qed.

Lemma hidden_provisioned deviceId : hidden (isDeviceProvisioned deviceId).
Proof.
  apply hidden_seq; [apply hidden_info|]. intros i. case_decide; [apply hidden_ret|].
  apply hidden_seq; [apply hidden_dev|]. intros d. apply hidden_ret.
Qed.

(** An update shows nothing, and what it finds is present. *)
Lemma shows_update {B} deviceId (f : bool → T Manager B) s Q :
  (∀ found s1, frame s s1 → (found = true → present s1 deviceId) → shows (f found) s1 Q) →
  shows (updateDevInfo deviceId ≫= f) s Q.
Proof.
  intros Hf. eapply (shows_then _ _ _ (λ found s1 l, l = [] ∧ (found = true → present s1 deviceId))).
  - assert (Hlook : ensures (updateDevInfo deviceId) s (λ _ _ es, calls_ok looking es))
      by exact (update_looks deviceId s).
    pose proof (update_gives_back deviceId 0 0 s) as Hup. unfold finds in Hup.
    eapply ensures_impl; [exact (ensures_and _ _ _ _ Hup Hlook)|].
    + intros r s1 es [(Hfr & found & u' & -> & _ & (n' & k' & _ & _ & _ & Hp)) Hl].
      split_and!; [done|done|]. exists found. split_and!; [done| |done].
      apply unseen_nil. eapply Forall_impl; [exact Hl|]. intros [c r]. by destruct c.
  - intros found s1 ? Hfr [-> Hp]. by apply Hf.
Qed.

(** ** What is said *)

Lemma shows_log entry s :
  shows (log entry) s (λ r s' l, r = Ok () ∧ s' = s ∧ l = say (messageRegistry s) entry).
Proof.
  unfold log. apply shows_get. unfold say. destruct (messageRegistry s); [|by apply shows_ret].
  destruct entry as [entry|]; [|by apply shows_ret].
  apply (ensures_call (CreateEntry entry)). by intros [].
Qed.

(** An entry first. *)
Lemma shows_log_then {B} entry (f : () → T Manager B) s Q :
  shows (f ()) s (λ r s' l, Q r s' (say (messageRegistry s) entry ++ l)%list) → shows (log entry ≫= f) s Q.
Proof.
  intros Hf. eapply shows_bind; [apply shows_log| |by intros s1 l _ (? & _)].
  intros [] s1 l _ (_ & -> & ->). exact Hf.
Qed.

Lemma shows_error errorCode deviceId s :
  shows (log_error errorCode deviceId) s (λ r s' l, r = Ok () ∧
    l = err (messageRegistry s) errorCode (device (info_of s deviceId))).
Proof.
  apply shows_info. eapply shows_impl; [apply shows_log|]. by intros r s' l _ (-> & _ & ->).
Qed.

Lemma shows_message messageID deviceId s :
  shows (log_message messageID deviceId) s (λ r s' l, r = Ok () ∧
    l = message (messageRegistry s) messageID (device (info_of s deviceId))).
Proof.
  apply shows_info. eapply shows_impl; [apply shows_log|]. by intros r s' l _ (-> & _ & ->).
Qed.

Lemma registry_of_frame s s' : frame s s' → messageRegistry s' = messageRegistry s.
Proof. by intros (_ & Hr & _). Qed.

(** ** A recovery *)

Section Device.
Context (deviceId : string) (registry : bool) (name : string).

(** The log there is, and the name it knows the device by. *)
Definition named (s : Manager) : Prop := messageRegistry s = registry ∧ device (info_of s deviceId) = name.

Lemma named_frame s s' : frame s s' → named s → named s'.
Proof.
  intros Hf [Hr Hn]. split; [by rewrite (registry_of_frame s s')|by rewrite (info_of_frame s s')].
Qed.

Lemma named_error errorCode s :
  named s → shows (log_error errorCode deviceId) s (λ r s' l, r = Ok () ∧ l = err registry errorCode name).
Proof. intros [<- <-]. apply shows_error. Qed.

Lemma named_message messageID s :
  named s → shows (log_message messageID deviceId) s (λ r s' l, r = Ok () ∧ l = message registry messageID name).
Proof. intros [<- <-]. apply shows_message. Qed.

Lemma named_failure errorCode severity s :
  named s → shows (log_failure errorCode severity name) s (λ r s' l, r = Ok () ∧ s' = s ∧
    l = failure registry errorCode severity name).
Proof. intros [<- _]. apply shows_log. Qed.

(** What the handler adds. *)
Definition caught {A} (r : res Fault A) : list Obs :=
  match r with Ok _ => [] | Throw _ => err registry (code CmdExecFailed) name end.

(** With what the handler adds, [m] shows [G]. *)
Definition tries (m : T Manager ()) (s : Manager) (G : list Obs → Prop) : Prop :=
  shows m s (λ r _ l, G (l ++ caught r)%list).

Lemma tries_handle s : named s → tries (handleRecoveryError deviceId) s (given_up registry name).
Proof.
  intros Hn. eapply shows_bind; [apply hidden_exit| |intros s1 l _ ->; constructor].
  intros [] s1 ? Hfr ->. eapply shows_impl; [by apply named_error, (named_frame s)|].
  intros r s' l _ (-> & ->). cbn. rewrite app_nil_r. constructor.
Qed.

Lemma tries_stop_recovery c s :
  named s →
  tries (stop_recovery c deviceId) s (λ l, ∃ l', given_up registry name l' ∧ l = (err registry (code c) name ++ l')%list).
Proof.
  intros Hn. eapply shows_bind; [by apply named_error| |by intros s1 l _ (? & _)].
  intros [] s1 ? Hfr (_ & ->). eapply shows_impl; [by apply tries_handle, (named_frame s)|].
  intros r s' l _ Hl. exists (l ++ caught r)%list. by rewrite app_assoc.
Qed.

(** A command first. *)
Lemma shows_execute {B} cmd (f : string → T Manager B) s Q :
  (∀ output, shows (f output) s (λ r s' l, Q r s' (Ran cmd (Some output) :: l))) →
  Q (Throw Exception) s [Ran cmd None] →
  shows (executeCommand cmd ≫= f) s Q.
Proof.
  intros Hf Ht. eapply (shows_bind _ _ _ (λ r s1 l, s1 = s ∧
    l = [Ran cmd match r with Ok output => Some output | Throw _ => None end])).
  - refine (ensures_step (RunCommand cmd) _ s _ _). intros [output|].
    + apply ensures_ret. done.
    + apply ensures_throw. done.
  - intros output s1 l _ [-> ->]. apply Hf.
  - by intros s1 l _ [-> ->].
Qed.

Context (target path : string).

Lemma conclude_sent output s :
  named s → isCommandSuccessful output = true →
  tries (conclude deviceId) s (λ l, sent registry name target path (Ran (cmdWrite target path) (Some output) :: l)).
Proof.
  intros Hn Ho. eapply shows_bind; [apply hidden_exit| |].
  - intros [] s1 ? Hfr ->. apply shows_update. intros found s2 Hfr2 _.
    assert (Hn2 : named s2) by (eapply named_frame; [|exact Hn]; by etrans).
    destruct found; cbn [negb].
    + apply shows_get. destruct (isHealthy s2 deviceId).
      * eapply shows_impl; [by apply named_message|]. intros r s' l _ (-> & ->). cbn. rewrite app_nil_r.
        by constructor.
      * eapply shows_impl; [by apply named_error|]. intros r s' l _ (-> & ->). cbn. rewrite app_nil_r.
        constructor; [done|constructor].
    + eapply shows_impl; [by apply tries_handle|]. intros r s' l _ Hl. by constructor.
  - intros s1 l _ ->. constructor; [done|constructor].
Qed.

Lemma write_sent s :
  named s →
  tries (write_output ← executeCommand (cmdWrite target path);
         if negb (isCommandSuccessful write_output) then stop_recovery CmdExecFailed deviceId
         else conclude deviceId) s (sent registry name target path).
Proof.
  intros Hn. apply shows_execute; [|constructor]. intros output.
  destruct (isCommandSuccessful output) eqn:Ho; cbn [negb].
  - eapply shows_impl; [by apply conclude_sent|]. done.
  - eapply shows_impl; [by apply tries_stop_recovery|]. intros r s' l _ (l' & Hg & Hl).
    cbn [app]. rewrite Hl. by constructor.
Qed.

(** The check: what may follow it, if the device takes images. *)
Definition check_shows (r : res Fault bool) (l : list Obs) : Prop :=
  match r with
  | Ok true => ∀ l', sent registry name target path l' → checked registry name target path (l ++ l')
  | r => checked registry name target path (l ++ caught r)
  end.

(** A check that fails gives the device up. *)
Lemma check_gives_up c s (G : list Obs → Prop) :
  named s → (∀ l, given_up registry name l → G (err registry (code c) name ++ l)%list) →
  shows (_ ← stop_recovery c deviceId; mret false) s (λ r _ l,
    match r with Ok true => False | r => G (l ++ caught r)%list end).
Proof.
  intros Hn HG. eapply shows_bind; [by apply tries_stop_recovery| |].
  - intros [] s1 l _ (l' & Hg & Hl). cbn [caught] in Hl. apply shows_ret. cbn [caught]. rewrite !app_nil_r.
    rewrite app_nil_r in Hl. subst l. by apply HG.
  - intros s1 l _ (l' & Hg & Hl). cbn [caught] in *. rewrite Hl. by apply HG.
Qed.

Lemma security_checked s : named s → shows (check_security target deviceId) s (λ r _ l, check_shows r l).
Proof.
  intros Hn. apply shows_execute; [|constructor]. intros output.
  destruct (isCommandSuccessful output) eqn:Ho; cbn [negb].
  2: { eapply shows_impl; [apply (check_gives_up GetSecurityStateFailed _ (λ l, checked registry name target path
         (Ran (cmdSecState target) (Some output) :: l)) Hn)|].
       - intros l Hl. by constructor.
       - by intros [[|]|] s' l _ Hl. }
  destruct (contains "UNSECURE" output) eqn:Hu; cbn [negb].
  2: { apply shows_ret. intros l' Hl'. by constructor. }
  apply shows_info. rewrite (proj2 Hn). eapply shows_bind; [by apply named_failure| |by intros s1 l _ (? & _)].
  intros [] s1 w _ (_ & -> & ->). apply shows_execute;
    [|cbn [check_shows app]; rewrite <- app_assoc; by apply state_unlocked; [..|constructor]].
  intros key. destruct (isCommandSuccessful key) eqn:Hk; cbn [negb].
  2: { eapply shows_impl; [apply (check_gives_up ReadMemoryFailed _ (λ l, checked registry name target path
         (Ran (cmdSecState target) (Some output) :: failure registry (code NotSecureDevice) Warning name ++
          Ran (cmdGetKey target) (Some key) :: l)) Hn)|].
       - intros l Hl. by apply state_unlocked; [..|constructor].
       - intros [[|]|] s' l _ Hl; [done| |]; cbn [check_shows app] in *; rewrite <- !app_assoc; exact Hl. }
  destruct (isEncryptKeyEmpty key) eqn:He.
  - eapply shows_impl; [apply (check_gives_up EncryptKeyNotSet _ (λ l, checked registry name target path
         (Ran (cmdSecState target) (Some output) :: failure registry (code NotSecureDevice) Warning name ++
          Ran (cmdGetKey target) (Some key) :: l)) Hn)|].
    + intros l Hl. by apply state_unlocked; [..|constructor].
    + intros [[|]|] s' l _ Hl; [done| |]; cbn [check_shows app] in *; rewrite <- !app_assoc; exact Hl.
  - apply shows_ret. intros l' Hl'. cbn [app]. rewrite <- app_assoc. by apply state_unlocked; [..|constructor].
Qed.

(** ** A device of the flow *)

Lemma recovery_checked s : named s →
  tries (takes ← check_security target deviceId;
         if negb takes then mret () else
         write_output ← executeCommand (cmdWrite target path);
         if negb (isCommandSuccessful write_output) then stop_recovery CmdExecFailed deviceId
         else conclude deviceId) s (checked registry name target path).
Proof.
  intros Hn. eapply shows_bind; [by apply security_checked| |].
  - intros [|] s1 l Hfr Hl; cbn [negb check_shows] in *.
    + eapply shows_impl; [by apply write_sent, (named_frame s)|]. intros r s' l' _ Hs. rewrite <- app_assoc. by apply Hl.
    + apply shows_ret. cbn [caught] in *. by rewrite app_nil_r.
  - by intros s1 l _ Hl.
Qed.
End Device.

Lemma shows_call c s :
  unseen c → shows (lift (call c)) s (λ r s' l, ∃ a, r = Ok a ∧ s' = s ∧ l = []).
Proof.
  intros Hc. apply ensures_call. intros r. split_and!; [done|done|]. exists r. split_and!; [done|done|]. cbn. by destruct c.
Qed.

(** The device blhost talks to is there, if it was found. *)
Lemma shows_target deviceId s :
  present s deviceId →
  shows (blhost_target deviceId) s (λ r s' l, l = [] ∧ ∃ target, r = Ok target ∧
    (is_Some target → interfaceType (info_of s deviceId) ≠ Unknown) ∧
    (interfaceType (info_of s deviceId) ≠ Unknown → is_Some target)).
Proof.
  intros Hp. apply shows_info. unfold present in Hp.
  destruct (interfaceType (info_of s deviceId)) eqn:Hi.
  - rewrite decide_False in Hp by done. destruct Hp as [d Hd].
    eapply shows_pure; [apply dev_pure|by apply frame_with_dev|]. rewrite Hd. cbn [of_device].
    eapply shows_then; [by apply (shows_call (GetBusNumber d))|]. intros bus s1 ? _ [_ ->].
    eapply shows_then; [by apply (shows_call (GetDeviceAddress d))|]. intros number s2 ? _ [_ ->].
    apply shows_ret. split; [done|]. by eexists.
  - apply shows_ret. split; [done|]. by eexists.
  - apply shows_ret. split; [done|]. exists None. split; [done|]. split; [by intros [? ?]|done].
Qed.

Lemma recovery_shown deviceId path force s :
  present s deviceId →
  shows (performRecovery deviceId path) s (λ r _ l, r = Ok () ∧
    answer (messageRegistry s) path force (info_of s deviceId) l).
Proof.
  intros Hp. eapply shows_bind; [by apply shows_target| |by intros s1 l _ (_ & ? & ? & _)].
  intros target s1 ? Hfr (-> & ? & [= <-] & Hi & _). destruct target as [target|].
  2: { apply shows_ret. split; [done|constructor]. }
  specialize (Hi (ltac:(by eexists))).
  assert (Hn : named deviceId (messageRegistry s) (device (info_of s deviceId)) s1) by (by apply (named_frame _ _ _ s)).
  eapply shows_bind; [by apply named_message| |by intros s2 l _ (? & _)].
  intros [] s2 ? Hfr2 (_ & ->). eapply shows_catch.
  - by apply recovery_checked, (named_frame _ _ _ s1).
  - intros s3 l Hfr3 Hl. eapply shows_impl; [by apply named_error, (named_frame _ _ _ s2); [|apply (named_frame _ _ _ s1)]|].
    intros r s' l' _ (-> & ->). split; [done|]. by apply (answer_recovery _ _ _ _ target).
  - intros s3 l _ Hl. cbn [caught] in Hl. rewrite app_nil_r in Hl. split; [done|].
    by apply (answer_recovery _ _ _ _ target).
Qed.

(** What a device shows; nothing, when it cannot be held in recovery. *)
Lemma device_shown deviceId path force s :
  shows (recover_device path force deviceId) s (λ r _ l,
    match r with
    | Ok _ => answer (messageRegistry s) path force (info_of s deviceId) l
    | Throw _ => l = []
    end).
Proof.
  apply shows_update. intros found s1 Hfr _. destruct found; cbn [negb]; [|apply shows_ret; constructor].
  assert (Hn : named deviceId (messageRegistry s) (device (info_of s deviceId)) s1) by (by apply (named_frame _ _ _ s)).
  eapply shows_bind; [apply hidden_provisioned| |by intros s2 l _ ->]. intros provisioned s2 ? Hfr2 ->.
  assert (Hn2 : named deviceId (messageRegistry s) (device (info_of s deviceId)) s2) by (by apply (named_frame _ _ _ s1)).
  destruct provisioned; cbn [negb].
  2: { eapply shows_impl; [by apply named_error|]. intros r s' l _ (-> & ->). constructor. }
  apply shows_get. destruct (isHealthy s2 deviceId && negb force) eqn:Hh.
  { apply andb_prop in Hh as [_ Hh]. destruct force; [done|].
    eapply shows_impl; [by apply named_message|]. intros r s' l _ (-> & ->). by constructor. }
  eapply shows_bind; [apply hidden_enter| |by intros s3 l _ ->]. intros [] s3 ? Hfr3 ->.
  apply shows_update. intros found s4 Hfr4 Hp. destruct found; cbn [negb]; [|apply shows_ret; constructor].
  eapply shows_impl; [by apply recovery_shown, Hp|]. intros r s' l _ (-> & Ha).
  assert (Hf : frame s s4) by (by repeat (etrans; [eassumption|])).
  by rewrite (registry_of_frame s s4), (info_of_frame s s4) in Ha by done.
Qed.

(** ** The flow *)

(** C39: A recovery flow says that the image is invalid; or it goes through the devices
    in order, and each shows one of the answers. It may end early, when the lines
    of a device cannot be driven: nothing more is seen then. *)
Theorem flow_answers path force s :
  shows (performRecoveryFlow path force) s (λ r _ l,
    l = err (messageRegistry s) (code InvalidSBFile) "Invalid SB3/SB4 file" ∧ r = Ok () ∨
    ∃ done rest answers, (mcuMap s).*1 = (done ++ rest)%list ∧ l = concat answers ∧
      Forall2 (λ deviceId, answer (messageRegistry s) path force (info_of s deviceId)) done answers ∧
      (r = Ok () ↔ rest = [])).
Proof.
  eapply (shows_then _ _ _ (λ _ s1 l, s1 = s ∧ l = [])).
  { eapply (ensures_lift _ _ (λ _ es, calls_ok unseen es)).
    - apply (emits_bind unseen); [emit|]. intros file. apply emits_ret.
    - intros valid es Hes. split_and!; [done|done|]. exists valid. split_and!; [done|done|by apply unseen_nil]. }
  intros valid s1 ? _ [-> ->]. destruct valid; cbn [negb app].
  2: { eapply shows_impl; [apply shows_log|]. intros r s' l _ (-> & _ & ->). by left. }
  apply shows_get.
  enough (Hl : ∀ ids s1, frame s s1 → shows (loop (recover_device path force) ids) s1 (λ r _ l,
    ∃ done rest answers, ids = (done ++ rest)%list ∧ l = concat answers ∧
      Forall2 (λ deviceId, answer (messageRegistry s) path force (info_of s deviceId)) done answers ∧
      (r = Ok () ↔ rest = []))).
  { eapply shows_impl; [by apply Hl|]. intros r s' l _ Hr. by right. }
  induction ids as [|deviceId ids IH]; intros s1 Hfr; cbn [loop].
  { apply shows_ret. by exists [], [], []. }
  eapply shows_bind; [apply device_shown| |].
  - intros [] s2 l Hfr2 Ha. rewrite (registry_of_frame s s1), (info_of_frame s s1) in Ha by done.
    eapply shows_impl; [apply IH; by etrans|].
    intros r s' l' _ (done & rest & answers & -> & -> & Hf & Hr). exists (deviceId :: done), rest, (l :: answers).
    split_and!; [done|done|by constructor|done].
  - intros s2 l Hfr2 ->. exists [], (deviceId :: ids), []. split_and!; [done|done|done|done].
Qed.

(** ** The entries exist *)

(** Every entry of the grammar is in the log: the codes are all in the table. *)
Theorem entries_exist name (errorCode : Z) severity :
  errorCode = deviceRecoveryFailed ∨ errorCode = noDevicesFound ∨ (∃ c, errorCode = code c) →
  ∃ entry, failure true errorCode severity name = [Said entry].
Proof.
  intros [->|[->|[c ->]]]; [by eexists..|]. destruct c; by eexists.
Qed.
End Flow.
