(* ===== verification/McuReset.v ===== *)
(** * The lines of the MCUs

    In what order the straps and resets of all devices are driven; and the reset of all
    devices, which gives the lines of a device back when it has become healthy, drives
    it no more, and in the end holds none
    (src/recovery_tool/mcu_recovery_tool/mcu_recovery_manager.cpp). *)

From stdpp Require Import list strings gmap.
From Stdlib Require Import Ascii.
From S2P Require Import Prelude Json Bytes Text Trace Registry McuManager McuRecovery McuUpdate.

(** * The lines of the MCUs *)

#[local] Open Scope string_scope.

(** ** Levels *)

(** A level that was driven. *)
Definition drive (e : Event (reply := reply)) : option (string * Z) :=
  let '(existT c r) := e in
  match c return reply c → option (string * Z) with
  | SetValue name value => λ r, if r : bool then Some (name, value) else None
  | _ => λ _, None
  end r.

Abbreviation drives := (omap drive).

(** One of the lines of a device that has both, at a level; of each device. *)
Definition planned_one (s : Manager) (line : MCUDevice → option string) (level : MCUInfo → Z)
    (deviceId : string) : option (string * Z) :=
  if has_lines (dev_of s deviceId)
  then (λ name, (name, level (info_of s deviceId))) <$> line (dev_of s deviceId) else None.

Definition planned (s : Manager) (line : MCUDevice → option string) (level : MCUInfo → Z)
    (deviceIds : list string) : list (string * Z) :=
  omap (planned_one s line level) deviceIds.

(** All straps, then all resets, then all resets released. *)
Definition enter_plan (s : Manager) : list (string * Z) :=
  planned s recoveryPin (λ i, gpioActive (recoveryActiveLow i)) (device_ids s) ++
  planned s resetPin (λ i, gpioActive (resetActiveLow i)) (device_ids s) ++
  planned s resetPin (λ i, gpioInactive (resetActiveLow i)) (device_ids s).

Lemma planned_frame s s' (line : MCUDevice → option string) level deviceIds :
  frame s s' → (∀ d d', lines_eq d d' → line d' = line d) →
  planned s' line level deviceIds = planned s line level deviceIds.
Proof.
  intros Hf Hline. apply list_omap_ext. apply Forall_Forall2_diag, Forall_true. intros deviceId. unfold planned_one.
  rewrite (info_of_frame s s') by done. destruct Hf as (_ & _ & _ & Hl). specialize (Hl deviceId).
  rewrite (Hline _ _ Hl). unfold has_lines. by destruct Hl as [-> ->].
Qed.

Lemma no_devices s : mcuDevices s = ∅ → device_ids s = [].
Proof.
  intros He. unfold device_ids. induction (mcuMap s).*1 as [|deviceId ids IH]; [done|].
  rewrite filter_cons_False; [done|]. rewrite He, lookup_empty. by intros [? ?].
Qed.

Section Enter.
Context `{McuEnv}.

(** [m] drives what is planned, or a part of it when it throws. *)
Definition drives_plan {A} (m : T Manager A) (s : Manager) (plan : list (string * Z)) : Prop :=
  ensures m s (λ r s' es, frame s s' ∧ drives es `prefix_of` plan ∧ (is_ok r = true → drives es = plan)).

Lemma drives_plan_bind {A B} (m : T Manager A) (f : A → T Manager B) s plan plan' :
  drives_plan m s plan → (∀ a s1, frame s s1 → drives_plan (f a) s1 plan') →
  drives_plan (m ≫= f) s (plan ++ plan').
Proof.
  unfold drives_plan. intros Hm Hf. eapply ensures_bind; [exact Hm| |].
  - intros a s1 es (Hfr & _ & Hes). eapply ensures_impl; [by apply Hf|].
    intros r s' es' (Hfr' & Hp & Hr). rewrite omap_app, (Hes eq_refl). split_and!; [by etrans| |].
    + by apply prefix_app.
    + intros Hok. by rewrite Hr.
  - intros e s1 es (Hfr & Hp & _). split_and!; [done|by apply prefix_app_r|done].
Qed.

Lemma drives_plan_last {A B} (m : T Manager A) (f : A → T Manager B) s plan plan' :
  plan' = plan → drives_plan m s plan → (∀ a s1, drives_plan (f a) s1 []) → drives_plan (m ≫= f) s plan'.
Proof.
  intros -> Hm Hf. rewrite <- (app_nil_r plan). apply drives_plan_bind; [done|]. intros a s1 _. apply Hf.
Qed.

Lemma drives_plan_quiet {A} (m : T Manager A) s :
  ensures m s (λ r s' es, frame s s' ∧ drives es = []) → drives_plan m s [].
Proof.
  intros Hm. eapply ensures_impl; [exact Hm|]. intros r s' es [Hfr Hd]. by rewrite Hd.
Qed.

Lemma drives_plan_sleep us s : drives_plan (lift (call (SleepUs us))) s [].
Proof. apply drives_plan_quiet, ensures_call. by intros []. Qed.

Lemma set_value_drives line value s :
  drives_plan (set_value line value) s (option_list ((λ name, (name, value)) <$> line)).
Proof.
  unfold set_value, on_line. destruct line as [name|]; [|by apply ensures_throw].
  refine (ensures_step (SetValue name value) _ s _ _). intros [|]; cbn.
  - apply ensures_ret. by split_and!.
  - apply ensures_throw. split_and!; [done|apply prefix_nil|done].
Qed.

Lemma drive_each_drives line level deviceId s :
  drives_plan (drive_each line level deviceId) s (planned s line level [deviceId]).
Proof.
  unfold drive_each. eapply ensures_pure; [done|]. eapply ensures_pure; [apply dev_pure|].
  unfold planned, planned_one. cbn [omap list_omap].
  assert (Hf : frame s (with_dev s deviceId (dev_of s deviceId))) by by apply frame_with_dev.
  destruct (has_lines (dev_of s deviceId)); cbn [negb].
  - eapply ensures_impl; [apply set_value_drives|]. intros r s' es (Hfr & Hp & Hr).
    split_and!; [by etrans|by destruct (line (dev_of s deviceId))|by destruct (line (dev_of s deviceId))].
  - apply ensures_ret. split_and!; [done|apply prefix_nil|done].
Qed.

Lemma loop_drives line level s s0 deviceIds :
  (∀ d d', lines_eq d d' → line d' = line d) → frame s0 s →
  drives_plan (loop (drive_each line level) deviceIds) s (planned s0 line level deviceIds).
Proof.
  intros Hline. revert s. induction deviceIds as [|deviceId deviceIds IH]; intros s Hf; cbn [loop].
  { apply ensures_ret. by split_and!. }
  change (deviceId :: deviceIds) with ([deviceId] ++ deviceIds)%list. unfold planned. rewrite omap_app.
  apply drives_plan_bind.
  - pose proof (drive_each_drives line level deviceId s) as Hd. by rewrite (planned_frame s0 s) in Hd.
  - intros [] s1 Hf1. apply IH. by etrans.
Qed.

(** All devices are put into recovery at once: every strap is asserted before any
    reset, and every reset before any is released, at the levels of the
    configuration; what is driven when it throws is a part of that. *)
Theorem straps_before_resets s :
  ensures enterRecoveryModeAll s (λ r _ es,
    drives es `prefix_of` enter_plan s ∧ (r = Ok () → drives es = enter_plan s)).
Proof.
  eapply ensures_pure; [done|]. case_decide as He.
  { apply ensures_ret. unfold enter_plan. by rewrite no_devices. }
  assert (Hp : drives_plan (
    _ ← loop (drive_each recoveryPin (λ i, gpioActive (recoveryActiveLow i))) (device_ids s);
    _ ← lift (call (SleepUs mcuResetActiveUs));
    _ ← loop (drive_each resetPin (λ i, gpioActive (resetActiveLow i))) (device_ids s);
    _ ← lift (call (SleepUs mcuResetActiveUs));
    _ ← loop (drive_each resetPin (λ i, gpioInactive (resetActiveLow i))) (device_ids s);
    lift (call (SleepUs (mcuResetDelaySec * 1000000)))) s (enter_plan s)).
  { unfold enter_plan. apply drives_plan_bind; [by apply loop_drives; [intros ? ? []|]|]. intros [] s1 Hf1.
    apply (drives_plan_bind _ _ _ []); [apply drives_plan_sleep|]. intros [] s2 Hf2.
    apply drives_plan_bind; [apply loop_drives; [by intros ? ? []|by etrans]|]. intros [] s3 Hf3.
    apply (drives_plan_bind _ _ _ []); [apply drives_plan_sleep|]. intros [] s4 Hf4.
    eapply (drives_plan_last _ _ _ _ _ eq_refl);
      [|intros; apply drives_plan_sleep]. apply loop_drives; [by intros ? ? []|by repeat (etrans; [eassumption|])]. }
  unfold drives_plan in Hp. eapply ensures_impl; [exact Hp|]. intros r s' es (_ & Hpre & Hr). split; [done|]. intros ->. by apply Hr.
Qed.
End Enter.

(** * The reset of MCUs gives their lines back *)

#[local] Open Scope string_scope.

(** ** The lines that are held *)

Definition lines_of_dev (d : MCUDevice) : list string := option_list (resetPin d) ++ option_list (recoveryPin d).

(** The lines of all devices. *)
Definition pins_at (s : Manager) (deviceIds : list string) : list string :=
  concat ((λ deviceId, lines_of_dev (dev_of s deviceId)) <$> deviceIds).

Definition pins (s : Manager) : list string := pins_at s (mcuMap s).*1.

Definition held (s : Manager) : gset string := list_to_set (pins s).

(** A line is driven and released only while it is held. *)
Definition line_step (u : gset string) (e : Event (reply := reply)) : option (gset string) :=
  let '(existT c r) := e in
  match c return reply c → option (gset string) with
  | SetValue name _ => λ _, allow (name ∈ u) u
  | ReleaseLine name => λ r, allow (name ∈ u) (if r : bool then u ∖ {[name]} else u)
  | _ => λ _, Some u
  end r.

(** The devices are distinct, and so are their lines. *)
Definition distinct (s : Manager) : Prop := NoDup (mcuMap s).*1 ∧ NoDup (pins s).

(** The configuration is as it was, and no device has more lines. *)
Definition fewer (s s' : Manager) : Prop :=
  mcuMap s' = mcuMap s ∧ ∀ deviceId, lines_of_dev (dev_of s' deviceId) ⊆ lines_of_dev (dev_of s deviceId).

#[export] Instance fewer_preorder : PreOrder fewer.
Proof.
  split; [intros s; split; [done|]; intros deviceId; reflexivity|]. intros s1 s2 s3 [Hm Hl] [Hm' Hl']. split; [congruence|].
  intros deviceId. etrans; [apply Hl'|apply Hl].
Qed.

Lemma frame_pins s s' : frame s s' → pins s' = pins s.
Proof.
  intros (Hm & _ & _ & Hl). unfold pins, pins_at. rewrite Hm. f_equal. apply list_fmap_ext.
  intros i deviceId _. unfold lines_of_dev. by destruct (Hl deviceId) as [-> ->].
Qed.

Lemma frame_fewer s s' : frame s s' → fewer s s'.
Proof.
  intros (Hm & _ & _ & Hl). split; [done|]. intros deviceId. unfold lines_of_dev. by destruct (Hl deviceId) as [-> ->].
Qed.

Lemma pins_at_other s deviceId d deviceIds :
  deviceId ∉ deviceIds → pins_at (with_dev s deviceId d) deviceIds = pins_at s deviceIds.
Proof.
  intros Hn. unfold pins_at. f_equal. apply list_fmap_ext. intros i other Ho.
  rewrite dev_of_with_ne; [done|]. intros ->. by apply Hn, (list_elem_of_lookup_2 _ i).
Qed.

(** The lines of one device, among all. *)
Lemma pins_split s deviceId :
  distinct s → deviceId ∈ (mcuMap s).*1 → ∃ rest,
    pins s ≡ₚ lines_of_dev (dev_of s deviceId) ++ rest ∧
    ∀ d, pins (with_dev s deviceId d) ≡ₚ lines_of_dev d ++ rest.
Proof.
  intros [Hids _] (l1 & l2 & Hl)%list_elem_of_split. rewrite Hl in Hids.
  apply NoDup_app in Hids as (Hn1 & Hd & Hn2). apply NoDup_cons in Hn2 as [Hn2 _].
  assert (H1 : deviceId ∉ l1) by (intros ?; apply (Hd deviceId); [done|left]).
  assert (Hs : ∀ s', pins_at s' (l1 ++ deviceId :: l2) ≡ₚ
    lines_of_dev (dev_of s' deviceId) ++ pins_at s' l1 ++ pins_at s' l2).
  { intros s'. unfold pins_at. rewrite fmap_app, concat_app. cbn [fmap list_fmap concat]. solve_Permutation. }
  exists (pins_at s l1 ++ pins_at s l2)%list. split.
  - unfold pins. rewrite Hl. apply Hs.
  - intros d. unfold pins. change (mcuMap (with_dev s deviceId d)) with (mcuMap s). rewrite Hl, Hs.
    by rewrite dev_of_with, !pins_at_other.
Qed.

Lemma pin_held s deviceId name :
  distinct s → deviceId ∈ (mcuMap s).*1 → name ∈ lines_of_dev (dev_of s deviceId) → name ∈ held s.
Proof.
  intros Hs Hid Hn. destruct (pins_split s deviceId Hs Hid) as (rest & Hp & _).
  apply elem_of_list_to_set. rewrite Hp. apply elem_of_app. by left.
Qed.

(** A device that gives a line back holds the rest. *)
Lemma pin_given_back s deviceId d name :
  distinct s → deviceId ∈ (mcuMap s).*1 → lines_of_dev (dev_of s deviceId) ≡ₚ name :: lines_of_dev d →
  distinct (with_dev s deviceId d) ∧ held (with_dev s deviceId d) = held s ∖ {[name]}.
Proof.
  intros Hs Hid Hd. destruct (pins_split s deviceId Hs Hid) as (rest & Hp & Hp').
  destruct Hs as [Hids Hn]. rewrite Hp, Hd in Hn. cbn in Hn. apply NoDup_cons in Hn as [Hname Hn].
  split.
  - split; [done|]. by rewrite (Hp' d).
  - apply leibniz_equiv. unfold held. rewrite Hp, (Hp' d), Hd. cbn [app list_to_set foldr].
    apply set_equiv. intros x. rewrite elem_of_difference. cbn.
    rewrite elem_of_union, elem_of_singleton, elem_of_list_to_set. split; [|naive_solver].
    intros Hx. split; [by right|]. by intros ->.
Qed.

Section Reset.
Context `{McuEnv}.

(** From [s], [m] drives and releases only what it holds, whatever happens. *)
Definition lined {A} (m : T Manager A) (s : Manager) (Q : A → Manager → Prop) : Prop :=
  distinct s →
  ensures m s (λ r s' es, fewer s s' ∧ distinct s' ∧ run line_step (held s) es = Some (held s') ∧
    match r with Ok a => Q a s' | Throw _ => True end).

Lemma lined_ret {A} (a : A) s (Q : A → Manager → Prop) : Q a s → lined (mret a) s Q.
Proof. intros HQ Hs. by apply ensures_ret. Qed.

Lemma lined_impl {A} (m : T Manager A) s (Q Q' : A → Manager → Prop) :
  lined m s Q → (∀ a s', fewer s s' → Q a s' → Q' a s') → lined m s Q'.
Proof.
  unfold lined. intros Hm HQ Hs. eapply ensures_impl; [by apply Hm|].
  intros [a|e] s' es (Hf & Hd & Hr & Ha); split_and!; eauto.
Qed.

Lemma lined_bind {A B} (m : T Manager A) (f : A → T Manager B) s Q1 Q :
  lined m s Q1 → (∀ a s1, fewer s s1 → Q1 a s1 → lined (f a) s1 Q) → lined (m ≫= f) s Q.
Proof.
  unfold lined. intros Hm Hf Hs. eapply ensures_bind; [by apply Hm| |].
  - intros a s1 es (Hfw & Hd & Hr & Ha). eapply ensures_impl; [by apply Hf|].
    intros r s' es' (Hfw' & Hd' & Hr' & Ha'). split_and!; [by etrans|done| |done].
    by rewrite events_run_app, Hr.
  - intros e s1 es (Hfw & Hd & Hr & _). by split_and!.
Qed.

(** Calls that concern no line. *)
Definition off_lines (c : Call) : Prop :=
  match c with SetValue _ _ | ReleaseLine _ => False | _ => True end.

Lemma lined_quiet {A} (m : T Manager A) s (Q : A → Manager → Prop) :
  calls off_lines m →
  ensures m s (λ r s' _, frame s s' ∧ match r with Ok a => Q a s' | Throw _ => True end) →
  lined m s Q.
Proof.
  intros Hc Hm Hs. assert (Hc' : ensures m s (λ _ _ es, calls_ok off_lines es)) by exact (Hc s).
  eapply ensures_impl; [exact (ensures_and _ _ _ _ Hm Hc')|]. intros r s' es [[Hf HQ] Hes].
  split_and!; [by apply frame_fewer| | |done].
  - destruct Hs as [Hids Hp]. split; [by rewrite (proj1 Hf)|by rewrite (frame_pins s s')].
  - unfold held. rewrite (frame_pins s s') by done. clear -Hes. induction Hes as [|[c r] es Hc Hes IH]; [done|].
    cbn [run]. by destruct c.
Qed.

Lemma lined_sleep us s : lined (lift (call (SleepUs us))) s (λ _ s', s' = s).
Proof.
  apply lined_quiet; [one_call|]. apply ensures_call. by intros [].
Qed.

Lemma lined_pure {A B} (m : T Manager A) (f : A → T Manager B) s a s1 Q :
  m s = mret (Ok a, s1) → frame s s1 → lined (f a) s1 Q → lined (m ≫= f) s Q.
Proof.
  unfold lined. intros Hm Hf Hl Hs. eapply ensures_pure; [exact Hm|].
  eapply ensures_impl; [apply Hl|].
  - destruct Hs as [Hids Hp]. split; [by rewrite (proj1 Hf)|by rewrite (frame_pins s s1)].
  - intros r s' es (Hfw & Hd & Hr & HQ). split_and!; [|done| |done].
    + etrans; [by apply frame_fewer|done].
    + unfold held in *. by rewrite (frame_pins s s1) in Hr.
Qed.

Lemma lined_info {B} deviceId (f : MCUInfo → T Manager B) s Q :
  lined (f (info_of s deviceId)) s Q → lined (info deviceId ≫= f) s Q.
Proof. by apply lined_pure. Qed.

Lemma lined_get {B} (f : Manager → T Manager B) s Q : lined (f s) s Q → lined (get ≫= f) s Q.
Proof. by apply lined_pure. Qed.

Lemma lined_dev {B} deviceId (f : MCUDevice → T Manager B) s Q :
  lined (f (dev_of s deviceId)) (with_dev s deviceId (dev_of s deviceId)) Q → lined (dev deviceId ≫= f) s Q.
Proof. apply lined_pure; [apply dev_pure|by apply frame_with_dev]. Qed.

(** ** The parts of the flow *)

Lemma update_lined deviceId s : lined (updateDevInfo deviceId) s (λ _ _, True).
Proof.
  apply lined_quiet.
  - intros s1. eapply emits_impl; [|apply update_looks]. by intros [].
  - pose proof (update_gives_back deviceId 0 0 s) as Hu. unfold finds in Hu.
    eapply ensures_impl; [exact Hu|]. intros r s' es (Hf & a & u' & -> & _). done.
Qed.

(** Driving a line that is held. *)
Lemma set_value_lined name value s :
  name ∈ held s → lined (set_value (Some name) value) s (λ _ s', s' = s).
Proof.
  intros Hn Hs. refine (ensures_step (SetValue name value) _ s _ _). intros [|].
  - apply ensures_ret. split_and!; [done|done| |done]. cbn. by rewrite allow_true.
  - apply ensures_throw. split_and!; [done|done| |done]. cbn. by rewrite allow_true.
Qed.

Lemma drive_reset_lined level deviceId s :
  deviceId ∈ (mcuMap s).*1 → lined (drive_reset level deviceId) s (λ _ _, True).
Proof.
  intros Hid Hs. revert Hs. apply lined_info, lined_dev.
  set (s1 := with_dev s deviceId (dev_of s deviceId)).
  destruct (resetPin (dev_of s deviceId)) as [name|] eqn:Hr; [|by apply lined_ret].
  intros Hs1. eapply lined_impl; [apply set_value_lined|done|done].
  apply (pin_held s1 deviceId); [done|done|]. unfold s1. rewrite dev_of_with. unfold lines_of_dev. rewrite Hr. by left.
Qed.

(** A line is given back, and the device forgets it. *)
Lemma give_line_lined deviceId name g s :
  deviceId ∈ (mcuMap s).*1 → lines_of_dev (dev_of s deviceId) ≡ₚ name :: lines_of_dev (g (dev_of s deviceId)) →
  lined (_ ← release (Some name); set_dev deviceId g) s (λ _ s', s' = with_dev s deviceId (g (dev_of s deviceId))).
Proof.
  intros Hid Hd Hs. destruct (pin_given_back s deviceId (g (dev_of s deviceId)) name Hs Hid Hd) as [Hs' Hh].
  assert (Hn : name ∈ held s).
  { apply (pin_held s deviceId); [done|done|]. rewrite Hd. left. }
  eapply (ensures_bind _ _ _ (λ r s1 es, s1 = s ∧
    run line_step (held s) es = Some (if is_ok r then held s ∖ {[name]} else held s))).
  - refine (ensures_step (ReleaseLine name) _ s _ _). intros [|].
    + apply ensures_ret. split; [done|]. cbn. by rewrite allow_true.
    + apply ensures_throw. split; [done|]. cbn. by rewrite allow_true.
  - intros [] s1 es [-> Hr]. unfold ensures. rewrite set_dev_pure. apply does_ret. cbn [fst snd].
    rewrite app_nil_r. split_and!; [|done|by rewrite Hr, Hh|done]. split; [done|].
    intros other. destruct (decide (deviceId = other)) as [<-|Hne]; [|by rewrite dev_of_with_ne].
    rewrite dev_of_with. intros x Hx. rewrite Hd. by right.
  - intros e s1 es [-> Hr]. by split_and!.
Qed.

Lemma give_back_lined deviceId s :
  deviceId ∈ (mcuMap s).*1 → lined (give_back deviceId) s (λ _ s', lines_of_dev (dev_of s' deviceId) = []).
Proof.
  intros Hid. apply lined_dev. set (d := dev_of s deviceId). set (s1 := with_dev s deviceId d).
  apply (lined_bind _ _ _ (λ _ s2, mcuMap s2 = mcuMap s ∧ dev_of s2 deviceId = {| d with resetPin := None |})).
  - destruct (resetPin d) as [name|] eqn:Hr.
    + eapply lined_impl; [apply give_line_lined; [done|]|].
      * unfold s1. rewrite dev_of_with. unfold lines_of_dev. by rewrite Hr.
      * intros [] s2 _ ->. split; [done|]. unfold s1. by rewrite !dev_of_with.
    + apply lined_ret. split; [done|]. unfold s1. rewrite dev_of_with. destruct d. cbn in *. by subst.
  - intros [] s2 _ [Hm Hd2]. destruct (recoveryPin d) as [name|] eqn:Hr.
    + eapply lined_impl; [apply give_line_lined; [by rewrite Hm|]|].
      * by rewrite Hd2.
      * intros [] s3 _ ->. rewrite dev_of_with, Hd2. done.
    + apply lined_ret. by rewrite Hd2.
Qed.

Lemma subset_nil {A} (l : list A) : l ⊆ [] → l = [].
Proof. destruct l as [|x l]; [done|]. intros Hl. destruct (not_elem_of_nil x). apply Hl. left. Qed.

(** A loop over the devices. *)
Lemma loop_lined (body : string → T Manager ()) (P : string → Manager → Prop) s0 deviceIds s :
  (∀ deviceId s1 s2, fewer s1 s2 → P deviceId s1 → P deviceId s2) →
  (∀ deviceId s1, deviceId ∈ (mcuMap s1).*1 → lined (body deviceId) s1 (λ _, P deviceId)) →
  fewer s0 s → deviceIds ⊆ (mcuMap s0).*1 →
  lined (loop body deviceIds) s (λ _ s', ∀ deviceId, deviceId ∈ deviceIds → P deviceId s').
Proof.
  intros HP Hb. revert s. induction deviceIds as [|deviceId deviceIds IH]; intros s Hf Hsub; cbn [loop].
  { apply lined_ret. by intros ? ?%elem_of_nil. }
  eapply lined_bind; [apply Hb; rewrite (proj1 Hf); apply Hsub; left|]. intros [] s1 Hf1 HP1.
  eapply lined_impl; [apply IH; [by etrans|intros x Hx; apply Hsub; by right]|].
  intros [] s2 Hf2 HPs other [->|Ho]%elem_of_cons; [by eapply HP|by apply HPs].
Qed.

Lemma device_ids_subset s : device_ids s ⊆ (mcuMap s).*1.
Proof. intros x Hx. unfold device_ids in Hx. by apply list_elem_of_filter in Hx as [_ Hx]. Qed.

Lemma still_unhealthy_lined deviceIds s :
  deviceIds ⊆ (mcuMap s).*1 → lined (still_unhealthy deviceIds) s (λ l _, l ⊆ deviceIds).
Proof.
  revert s. induction deviceIds as [|deviceId deviceIds IH]; intros s Hsub; cbn [still_unhealthy].
  { apply lined_ret. done. }
  eapply lined_bind; [apply update_lined|]. intros found s1 Hf1 _. apply lined_get.
  assert (Hsub1 : deviceIds ⊆ (mcuMap s1).*1) by (rewrite (proj1 Hf1); intros x Hx; apply Hsub; by right).
  destruct (found && isHealthy s1 deviceId).
  - eapply lined_bind; [apply give_back_lined; rewrite (proj1 Hf1); apply Hsub; left|].
    intros [] s2 Hf2 _. eapply lined_impl; [apply IH; by rewrite (proj1 Hf2)|].
    intros l s' _ Hl x Hx. right. by apply Hl.
  - eapply lined_bind; [by apply IH|]. intros l s2 _ Hl. apply lined_ret.
    intros x [->|Hx]%elem_of_cons; [by left|right; by apply Hl].
Qed.

Lemma drive_all_lined level s0 s :
  fewer s0 s → lined (loop (drive_reset level) (device_ids s0)) s (λ _ _, True).
Proof.
  intros Hf. eapply lined_impl; [apply (loop_lined _ (λ _ _, True) s0)|done].
  - done.
  - intros. by apply drive_reset_lined.
  - done.
  - apply device_ids_subset.
Qed.

Lemma rounds_lined rounds mcuList s :
  mcuList ⊆ (mcuMap s).*1 → lined (reset_rounds rounds mcuList) s (λ l _, l ⊆ mcuList).
Proof.
  revert mcuList s. induction rounds as [|rounds IH]; intros mcuList s Hsub; cbn [reset_rounds]; [by apply lined_ret|].
  case_decide; [by apply lined_ret|]. apply lined_get.
  eapply lined_bind; [by apply (drive_all_lined _ s)|]. intros [] s1 Hf1 _.
  eapply lined_bind; [apply lined_sleep|]. intros [] ? _ ->.
  eapply lined_bind; [by apply (drive_all_lined _ s)|]. intros [] s2 Hf2 _.
  eapply lined_bind; [apply lined_sleep|]. intros [] ? _ ->.
  assert (Hm : mcuMap s2 = mcuMap s) by (by rewrite (proj1 Hf2), (proj1 Hf1)).
  eapply lined_bind; [apply still_unhealthy_lined; by rewrite Hm|]. intros l s3 Hf3 Hl.
  eapply lined_impl; [apply IH; rewrite (proj1 Hf3), Hm; etrans; [exact Hl|done]|].
  intros l' s' _ Hl'. etrans; [exact Hl'|done].
Qed.

(** The reset of all devices drives a line only as long as it holds it, and gives it
    back at most once, whatever happens. When it ends, it holds no line, and the
    devices it reports are some of those of the configuration. *)
Theorem reset_gives_lines_back s :
  distinct s →
  ensures performResetFlow s (λ r s' es, run line_step (held s) es = Some (held s') ∧
    ∀ failed, r = Ok failed → held s' = ∅ ∧ failed ⊆ (mcuMap s).*1).
Proof.
  intros Hs. enough (Hl : lined performResetFlow s (λ failed s', held s' = ∅ ∧ failed ⊆ (mcuMap s).*1)).
  { eapply ensures_impl; [by apply Hl|]. intros r s' es (_ & _ & Hr & HQ). split; [done|]. by intros failed ->. }
  apply lined_get. eapply lined_bind; [by apply rounds_lined|]. intros failed s1 Hf1 Hfailed. apply lined_get.
  eapply lined_bind.
  { apply (loop_lined _ (λ deviceId s', lines_of_dev (dev_of s' deviceId) = []) s1).
    - intros deviceId s2 s3 [_ Hl] He. specialize (Hl deviceId). rewrite He in Hl.
      by apply subset_nil.
    - intros deviceId s2 Hid. by apply give_back_lined.
    - done.
    - apply device_ids_subset. }
  intros [] s2 Hf2 He. apply lined_ret. split; [|done].
  assert (Hn : ∀ deviceId, deviceId ∈ (mcuMap s1).*1 → lines_of_dev (dev_of s2 deviceId) = []).
  { intros deviceId Hid. destruct (mcuDevices s1 !! deviceId) as [d|] eqn:Hd.
    - apply He, list_elem_of_filter. split; [by rewrite Hd|done].
    - apply subset_nil. etrans; [apply Hf2|]. unfold dev_of. by rewrite Hd. }
  unfold held, pins, pins_at. rewrite (proj1 Hf2). revert Hn. generalize (mcuMap s1).*1.
  induction l as [|deviceId l IH]; intros Hn; [done|]. cbn [fmap list_fmap concat].
  rewrite Hn by left. apply IH. intros other Ho. apply Hn. by right.
Qed.
End Reset.
