(* ===== verification/McuExample.v ===== *)
(** * A bench for the MCU recovery

    Environments on which the flows of src/recovery_tool/mcu_recovery_tool run:
    two MCUs on USB, and one on I2C. *)

From stdpp Require Import list strings gmap.
From Stdlib Require Import Ascii.
From S2P Require Import Prelude Json Bytes Text Trace Registry McuManager McuRecovery McuMain McuUpdate McuFlow McuReset.

#[local] Open Scope string_scope.

Definition mcu_usb (name port : string) : MCUInfo :=
  mkMCUInfo name port (name +:+ "_RST") (name +:+ "_REC") 0 0 0 0xCF10 true true USB.

Definition mcu_i2c : MCUInfo := mkMCUInfo "C" "" "C_RST" "C_REC" 3 0x20 0x10 0 true false I2C.

Definition bench_map : list (string * MCUInfo) :=
  [("A", mcu_usb "A" "1-1"); ("B", mcu_usb "B" "1-2"); ("C", mcu_i2c)].

(** The state of the bench: how often the devices were listed. [seen] says whether a
    device is on the bus at that time, [classes] what it shows. *)
Section Bench.
Context (on_bus : nat → bool) (classes : list Z) (blhost : string).

Definition bench_reply (n : nat) (c : Call) : reply c :=
  match c with
  | FindLine _ => Some true
  | RequestLine _ _ | SetValue _ _ | ReleaseLine _ => true
  | UsbInit => 0%Z
  | GetDeviceList => Ok (if on_bus n then [1; 2]%nat else [])
  | GetPortNumbers d => Ok [Z.of_nat d]
  | GetBusNumber _ => 1%Z
  | GetDeviceAddress d => Z.of_nat d
  | GetDeviceDescriptor _ => (0, (nvdaVendorId, 0x1234))%Z
  | GetActiveConfigDescriptor _ => Ok [classes]
  | OpenDevice _ => Some 3%Z
  | SetSlave _ _ | QuickWrite _ => true
  | RunCommand _ => Some blhost
  | ReadFile _ => Some [0x73; 0x62; 0x76; 0x33; 0x01; 0x00; 0x03; 0x00]%Z
  | ReadJson _ => None
  | GetSubTree => []
  | GetString _ _ => None
  | GetUint64 _ _ => None
  | SleepUs _ | UsbExit | FreeDeviceList _ | FreeConfigDescriptor _ | CloseFd _ | CreateEntry _ => ()
  end.

Definition bench_env : McuEnv :=
  {| env_state := nat;
     respond := λ c n, (bench_reply n c, if c is GetDeviceList then S n else n) |}.
End Bench.

Definition start {env : McuEnv} (e : env_state (Env := env)) : World (reply := reply) := mkWorld e [].

Definition blhost_ok : string := "Response status = 0 (0x0) Success.".

(** A manager once it is initialised. *)
Definition ready (map : list (string * MCUInfo)) : Manager :=
  mkManager true map
    (list_to_map ((λ e : string * MCUInfo,
       (e.1, {| MCUDevice_default with resetPin := Some (resetGpioName e.2); recoveryPin := Some (recoveryGpioName e.2) |}))
     <$> map)) true.

(** [initialize] gets there. *)
Example bench_initialized :
  let env := bench_env (λ _, true) [] blhost_ok in
  (initialize bench_map true true Manager_new (start (env := env) 0%nat)).1 = (Ok true, ready bench_map).
Proof. by vm_compute. Qed.

(** An MCU in its boot loader is recovered: it comes back with the MCTP class, which
    this bench shows from the start. *)
Example bench_flow :
  let env := bench_env (λ _, true) [LIBUSB_CLASS_MCTP] blhost_ok in
  let '(r, w) := performRecoveryFlow "mcu.sb3" true (ready [("A", mcu_usb "A" "1-1")]) (start (env := env) 0%nat) in
  r.1 = Ok () ∧
  seen (w_trace w) =
    (message true recoveryStarted "A" ++
     [Ran "blhost --usb-bus-device 1:1 --usb-id 0955:1234 get-property security-state" (Some blhost_ok);
      Ran "blhost --usb-bus-device 1:1 --usb-id 0955:1234 receive-sb-file mcu.sb3" (Some blhost_ok)] ++
     message true recoverySuccessful "A")%list.
Proof. vm_compute. split; reflexivity. Qed.

(** A device that does not come up in its boot loader is left with its strap
    asserted: nothing puts it back. *)
Example strap_left_asserted :
  let env := bench_env (λ n, (n =? 0)%nat) [LIBUSB_CLASS_HID] blhost_ok in
  let '(r, w) := performRecoveryFlow "mcu.sb3" false (ready [("A", mcu_usb "A" "1-1")]) (start (env := env) 0%nat) in
  r.1 = Ok () ∧ drives (w_trace w) = [("A_REC", 0); ("A_RST", 0); ("A_RST", 1)]%Z ∧ seen (w_trace w) = [].
Proof. vm_compute. repeat split; reflexivity. Qed.

(** A recovery asks for the number of a device whose list was given back: what the
    flow holds is not enough for that. *)
Example device_used_after_list :
  let env := bench_env (λ _, true) [LIBUSB_CLASS_MCTP] blhost_ok in
  let '(r, w) := performRecoveryFlow "mcu.sb3" true (ready [("A", mcu_usb "A" "1-1")]) (start (env := env) 0%nat) in
  run held_step (nothing 0 0) (w_trace w) = None.
Proof. by vm_compute. Qed.

Lemma reset_gives_lines_back_witness :
  let env := bench_env (λ _, true) [LIBUSB_CLASS_MCTP] blhost_ok in
  @ensures _ env _ performResetFlow (ready bench_map) (λ r s' es,
    run line_step (held (ready bench_map)) es = Some (held s') ∧
    ∀ failed, r = Ok failed → held s' = ∅ ∧ failed ⊆ bench_map.*1).
Proof.
  intros env. apply (@reset_gives_lines_back env (ready bench_map)).
  split; apply (bool_decide_unpack _); by vm_compute.
Defined.

Definition key_lines : list string := ["00 00 00 00"; "00 00 00 00"].

Lemma key_read_witness :
  isEncryptKeyEmpty (join (String "010" "")
    (["Inject command 'read-memory'"] ++ "Successful response to command 'read-memory'(0x03)" ::
     (print_row <$> [replicate 16 0%Z; replicate 16 0%Z; replicate 16 0%Z]) ++ ["Response status = 0 (0x0) Success."])) = true.
Proof.
  apply (key_read ["Inject command 'read-memory'"] "Successful response to command 'read-memory'(0x03)"
    [replicate 16 0%Z; replicate 16 0%Z; replicate 16 0%Z] ["Response status = 0 (0x0) Success."]);
    [by repeat constructor|done|by repeat constructor| |done].
  repeat constructor; by vm_compute.
Defined.

Lemma config_parsed_witness :
  ∃ map, parse_config 32 (JObject [("Exposes", JArray
    [print_entry (mcu_usb "A" "1-1"); JObject [("Type", JString "ADC")]; print_entry mcu_i2c])]) = Ok map ∧
    ∀ i, i ∈ [mcu_usb "A" "1-1"; mcu_i2c] → assoc (device i) map = Some i.
Proof.
  apply (config_parsed 32 [Exposed_mcu (mcu_usb "A" "1-1"); Exposed_other "ADC" [("Type", JString "ADC")];
    Exposed_mcu mcu_i2c]).
  - repeat constructor; try done; by vm_compute.
  - apply (bool_decide_unpack _). by vm_compute.
Defined.
