(* ===== verification/Threads.v ===== *)
(** * Programs as trees of calls, and threads

    A program is the tree of the calls it makes: each node is a call of the
    environment, with what follows each answer; a leaf is the value it returns or
    the exception it throws. A tree can be stopped after any call, so threads
    interleave: a pool of programs runs under a schedule, one call at a time. The
    file holds the monad, the calculus [wp] of what a program does, and what a
    thread of a pool does. *)

From stdpp Require Import list.
From S2P Require Import Prelude Trace.

Inductive Prog {Call : Type} (reply : Call → Type) (E A : Type) : Type :=
| Done (r : res E A)
| Step (c : Call) (k : reply c → Prog reply E A).
Arguments Done {Call reply E A} r.
Arguments Step {Call reply E A} c k.

(** ** The monad *)

Section Programs.
Context {Call : Type} {reply : Call → Type} {E : Type}.
#[local] Abbreviation P := (Prog reply E).
#[local] Abbreviation event := (Event (reply := reply)).

#[export] Instance Prog_ret : MRet P := λ A a, Done (Ok a).

Fixpoint prog_bind {A B} (f : A → P B) (p : P A) : P B :=
  match p with
  | Done (Ok a) => f a
  | Done (Throw e) => Done (Throw e)
  | Step c k => Step c (λ r, prog_bind f (k r))
  end.
#[export] Instance Prog_bind : MBind P := λ A B f p, prog_bind f p.

Definition act (c : Call) : P (reply c) := Step c (λ r, Done (Ok r)).
Definition raise {A} (e : E) : P A := Done (Throw e).
Definition of_res {A} (r : res E A) : P A := Done r.

(** [try { p } catch (e) { handler(e) }] *)
Fixpoint try_catch {A} (p : P A) (handler : E → P A) : P A :=
  match p with
  | Done (Ok a) => Done (Ok a)
  | Done (Throw e) => handler e
  | Step c k => Step c (λ r, try_catch (k r) handler)
  end.

(** [p] in a scope whose end calls the destructor [d]. *)
Fixpoint scoped {A} (p : P A) (d : P ()) : P A :=
  match p with
  | Done r => prog_bind (λ _, Done r) d
  | Step c k => Step c (λ r, scoped (k r) d)
  end.

(** [for (x : l)] whose body only has effects. *)
Fixpoint for_all {A} (f : A → P ()) (l : list A) : P () :=
  match l with [] => mret () | x :: l => _ ← f x; for_all f l end.

(** ** What a program does

    [wp p R]: whatever is answered, [p] ends with [r] having made calls [es],
    with [R r es]. *)
Fixpoint wp {A} (p : P A) (R : res E A → list event → Prop) : Prop :=
  match p with
  | Done r => R r []
  | Step c k => ∀ r, wp (k r) (λ x es, R x (existT c r :: es))
  end.

Lemma wp_impl {A} (p : P A) (R R' : res E A → list event → Prop) :
  wp p R → (∀ r es, R r es → R' r es) → wp p R'.
Proof.
  revert R R'. induction p as [r|c k IH]; intros R R' Hp HR; [by apply HR|].
  intros r. eapply IH; [apply Hp|]. intros x es. apply HR.
Qed.

Lemma wp_and {A} (p : P A) (R R' : res E A → list event → Prop) :
  wp p R → wp p R' → wp p (λ r es, R r es ∧ R' r es).
Proof.
  revert R R'. induction p as [r|c k IH]; intros R R' Hp Hp'; [done|].
  intros r. exact (IH r _ _ (Hp r) (Hp' r)).
Qed.

Lemma wp_bind {A B} (p : P A) (f : A → P B) (R : res E B → list event → Prop) :
  wp p (λ r es, match r with
                | Ok a => wp (f a) (λ x es', R x (es ++ es'))
                | Throw e => R (Throw e) es
                end) →
  wp (p ≫= f) R.
Proof.
  unfold mbind, Prog_bind. revert R. induction p as [[a|e]|c k IH]; intros R Hp; [done..|].
  intros r. apply IH, Hp.
Qed.

(** With what is known of the first part. *)
Lemma wp_seq {A B} (p : P A) (f : A → P B) (R1 : res E A → list event → Prop)
    (R : res E B → list event → Prop) :
  wp p R1 →
  (∀ a es, R1 (Ok a) es → wp (f a) (λ x es', R x (es ++ es'))) →
  (∀ e es, R1 (Throw e) es → R (Throw e) es) →
  wp (p ≫= f) R.
Proof.
  intros Hp Hf He. apply wp_bind. eapply wp_impl; [exact Hp|]. intros [a|e] es; [apply Hf|apply He].
Qed.

Lemma wp_step {B} c (f : reply c → P B) (R : res E B → list event → Prop) :
  (∀ r, wp (f r) (λ x es, R x (existT c r :: es))) → wp (act c ≫= f) R.
Proof. done. Qed.

Lemma wp_try {A} (p : P A) (handler : E → P A) (R1 R : res E A → list event → Prop) :
  wp p R1 →
  (∀ a es, R1 (Ok a) es → R (Ok a) es) →
  (∀ e es, R1 (Throw e) es → wp (handler e) (λ x es', R x (es ++ es'))) →
  wp (try_catch p handler) R.
Proof.
  revert R1 R. induction p as [[a|e]|c k IH]; intros R1 R Hp Ha He.
  - by apply Ha.
  - exact (He e [] Hp).
  - intros r. apply (IH r (λ x es, R1 x (existT c r :: es))); [apply Hp| |].
    + intros a es. apply Ha.
    + intros e es. apply He.
Qed.

Lemma wp_scoped {A} (p : P A) (d : P ()) (R1 R : res E A → list event → Prop) :
  wp p R1 →
  (∀ r es, R1 r es → wp d (λ x es', R (match x with Ok _ => r | Throw e => Throw e end) (es ++ es'))) →
  wp (scoped p d) R.
Proof.
  revert R1 R. induction p as [r|c k IH]; intros R1 R Hp Hd.
  - apply (wp_bind d). eapply wp_impl; [exact (Hd r [] Hp)|]. intros [u|e] es Hx; [|exact Hx].
    cbn. by rewrite app_nil_r.
  - intros r. apply (IH r (λ x es, R1 x (existT c r :: es))); [apply Hp|]. intros x es. apply Hd.
Qed.

(** [only K p]: whatever is answered, [p] makes only calls of the kind [K]. *)
Definition only {A} (K : Call → Prop) (p : P A) : Prop := wp p (λ _ es, Forall (λ e, K (projT1 e)) es).

Lemma only_done {A} K (r : res E A) : only K (Done r).
Proof. constructor. Qed.

Lemma only_ret {A} K (a : A) : only K (mret a).
Proof. constructor. Qed.

Lemma only_step {A} (K : Call → Prop) c (k : reply c → P A) : K c → (∀ r, only K (k r)) → only K (Step c k).
Proof. intros Hc Hk r. eapply wp_impl; [apply Hk|]. intros x es Hes. by constructor. Qed.

Lemma only_act (K : Call → Prop) c : K c → only K (act c).
Proof. intros Hc. apply only_step; [done|]. intros r. apply only_done. Qed.

Lemma only_bind {A B} K (p : P A) (f : A → P B) : only K p → (∀ a, only K (f a)) → only K (p ≫= f).
Proof.
  intros Hp Hf. eapply wp_seq; [exact Hp| |done]. intros a es Hes.
  eapply wp_impl; [apply Hf|]. intros r es' Hes'. by apply Forall_app.
Qed.

Lemma only_try {A} K (p : P A) handler : only K p → (∀ e, only K (handler e)) → only K (try_catch p handler).
Proof.
  intros Hp Hh. eapply wp_try; [exact Hp|done|]. intros e es Hes.
  eapply wp_impl; [apply Hh|]. intros r es' Hes'. by apply Forall_app.
Qed.

Lemma only_scoped {A} K (p : P A) (d : P ()) : only K p → only K d → only K (scoped p d).
Proof.
  intros Hp Hd. eapply wp_scoped; [exact Hp|]. intros r es Hes.
  eapply wp_impl; [exact Hd|]. intros x es' Hes'. by apply Forall_app.
Qed.

(** ** Its calls one by one

    [steps p es q]: after the calls [es], what remains of [p] is [q]. *)
Inductive steps {A} : P A → list event → P A → Prop :=
| steps_nil p : steps p [] p
| steps_cons c k r es q : steps (k r) es q → steps (Step c k) (existT c r :: es) q.

Lemma wp_done {A} (p : P A) R es r : wp p R → steps p es (Done r) → R r es.
Proof.
  intros Hp Hs. remember (Done r) as q eqn:Hq. revert R Hp.
  induction Hs as [p|c k x es q Hs IH]; intros R Hp; [by subst|]. exact (IH Hq _ (Hp x)).
Qed.

Lemma wp_steps {A} (p q : P A) R es : wp p R → steps p es q → wp q (λ r es', R r (es ++ es')).
Proof.
  intros Hp Hs. revert R Hp. induction Hs as [p|c k x es q Hs IH]; intros R Hp; [done|].
  exact (IH _ (Hp x)).
Qed.

Lemma steps_snoc {A} (p : P A) es c k r : steps p es (Step c k) → steps p (es ++ [existT c r]) (k r).
Proof.
  intros Hs. remember (Step c k) as q eqn:Hq. revert Hq.
  induction Hs as [p|c' k' x es q Hs IH]; intros ->; cbn; constructor; [constructor|by apply IH].
Qed.

(** ** Protocols *)

(** From [s] the calls of [p] are allowed, and [Q] holds of what it returns and
    of the state it leaves. *)
Section Protocol.
Context {S : Type} (step : S → event → option S).

Definition keeps {A} (s : S) (p : P A) (Q : res E A → S → Prop) : Prop :=
  wp p (λ r es, ∃ s', run step s es = Some s' ∧ Q r s').

Lemma keeps_done {A} s (r : res E A) (Q : res E A → S → Prop) : Q r s → keeps s (Done r) Q.
Proof. intros HQ. by exists s. Qed.

Lemma keeps_impl {A} s (p : P A) (Q Q' : res E A → S → Prop) :
  keeps s p Q → (∀ r s', Q r s' → Q' r s') → keeps s p Q'.
Proof. intros Hp HQ. eapply wp_impl; [exact Hp|]. intros r es (s' & Hr & H'). eauto. Qed.

Lemma keeps_step {A} s c (k : reply c → P A) (Q : res E A → S → Prop) :
  (∀ r, ∃ s1, step s (existT c r) = Some s1 ∧ keeps s1 (k r) Q) → keeps s (Step c k) Q.
Proof.
  intros Hk r. destruct (Hk r) as (s1 & Hs1 & Hk1). eapply wp_impl; [exact Hk1|].
  intros x es (s' & Hr & HQ). exists s'. split; [|done]. cbn [run]. by rewrite Hs1.
Qed.

Lemma keeps_bind {A B} s (p : P A) (f : A → P B) (Q1 : res E A → S → Prop) (Q : res E B → S → Prop) :
  keeps s p Q1 → (∀ a s1, Q1 (Ok a) s1 → keeps s1 (f a) Q) → (∀ e s1, Q1 (Throw e) s1 → Q (Throw e) s1) →
  keeps s (p ≫= f) Q.
Proof.
  intros Hp Hf He. eapply wp_seq; [exact Hp| |].
  - intros a es (s1 & Hr1 & H1). eapply wp_impl; [by apply (Hf a s1)|].
    intros x es' (s2 & Hr2 & H2). exists s2. by rewrite events_run_app, Hr1.
  - intros e es (s1 & Hr1 & H1). eauto.
Qed.

Lemma keeps_try {A} s (p : P A) (handler : E → P A) (Q1 Q : res E A → S → Prop) :
  keeps s p Q1 → (∀ a s1, Q1 (Ok a) s1 → Q (Ok a) s1) →
  (∀ e s1, Q1 (Throw e) s1 → keeps s1 (handler e) Q) → keeps s (try_catch p handler) Q.
Proof.
  intros Hp Ha He. eapply wp_try; [exact Hp| |].
  - intros a es (s1 & Hr1 & H1). eauto.
  - intros e es (s1 & Hr1 & H1). eapply wp_impl; [by apply (He e s1)|].
    intros x es' (s2 & Hr2 & H2). exists s2. by rewrite events_run_app, Hr1.
Qed.

Lemma keeps_scoped {A} s (p : P A) (d : P ()) (Q1 Q : res E A → S → Prop) :
  keeps s p Q1 →
  (∀ r s1, Q1 r s1 → keeps s1 d (λ x s', Q (match x with Ok _ => r | Throw e => Throw e end) s')) →
  keeps s (scoped p d) Q.
Proof.
  intros Hp Hd. eapply wp_scoped; [exact Hp|]. intros r es (s1 & Hr1 & H1).
  eapply wp_impl; [by apply (Hd r s1)|]. intros x es' (s2 & Hr2 & H2). exists s2.
  by rewrite events_run_app, Hr1.
Qed.

Lemma keeps_for {A} s (f : A → P ()) l (Q : res E () → S → Prop) :
  (∀ x, x ∈ l → keeps s (f x) (λ r s', s' = s ∧ (r = Ok () ∨ Q r s))) → Q (Ok ()) s → keeps s (for_all f l) Q.
Proof.
  intros Hf HQ. induction l as [|x l IH]; [by apply keeps_done|]. cbn [for_all].
  eapply keeps_bind; [apply Hf; by left| |].
  - intros [] s1 [-> _]. apply IH. intros y Hy. apply Hf. by right.
  - intros e s1 [-> [?|?]]; done.
Qed.
End Protocol.
End Programs.

Arguments wp_step {Call reply E B} c f R _.
Arguments keeps_step {Call reply E S step A} s c k Q _.

Create HintDb only.
#[export] Hint Resolve only_done only_ret : only.

(** Follow a program down to its calls; what [K] says of a call is decided by
    computation. *)
Ltac only_go :=
  repeat first
  [ solve [eauto with only]
  | match goal with |- only _ (act ?c) => refine (only_act _ c _); exact I end
  | match goal with |- only _ (Step ?c _) => apply only_step; [exact I|intros ?] end
  | apply only_bind; [|intros ?]
  | apply only_try; [|intros ?]
  | apply only_scoped
  | progress cbn beta iota zeta
  | case_match ].

(** ** Threads *)

Section Threads.
Context {Call : Type} {reply : Call → Type} `{!Env reply} {E A : Type}.
#[local] Abbreviation P := (Prog reply E A).
#[local] Abbreviation event := (Event (reply := reply)).

(** A program that runs alone. *)
Fixpoint exec (p : P) (e : env_state) : list event * res E A * env_state :=
  match p with
  | Done r => ([], r, e)
  | Step c k =>
      let '(r, e) := respond c e in
      let '(es, x, e) := exec (k r) e in
      (existT c r :: es, x, e)
  end.

Lemma exec_steps p e : steps p (exec p e).1.1 (Done (exec p e).1.2).
Proof.
  revert e. induction p as [r|c k IH]; intros e; [constructor|]. cbn [exec].
  destruct (respond c e) as [r e1]. specialize (IH r e1).
  destruct (exec (k r) e1) as [[es x] e2]. by constructor.
Qed.

Lemma exec_wp p e R : wp p R → R (exec p e).1.2 (exec p e).1.1.
Proof. intros Hp. eapply wp_done; [exact Hp|apply exec_steps]. Qed.

Record Pool := mkPool { p_env : env_state; p_threads : list P; p_trace : list (nat * event) }.

(** The next call of thread [i]; nothing happens when it has ended. *)
Definition tick (i : nat) (s : Pool) : Pool :=
  match p_threads s !! i with
  | Some (Step c k) =>
      let '(r, e) := respond c (p_env s) in
      mkPool e (<[i := k r]> (p_threads s)) (p_trace s ++ [(i, existT c r)])
  | _ => s
  end.

Definition schedule (sc : list nat) (s : Pool) : Pool := foldl (λ s i, tick i s) s sc.

(** The calls of one thread. *)
Definition project (i : nat) (tr : list (nat * event)) : list event :=
  (filter (λ x, x.1 = i) tr).*2.

(** What every thread has come to, once all have ended. *)
Fixpoint results (ps : list P) : option (list (res E A)) :=
  match ps with
  | [] => Some []
  | Done r :: ps => cons r <$> results ps
  | Step _ _ :: _ => None
  end.

Lemma project_app i tr tr' : project i (tr ++ tr') = project i tr ++ project i tr'.
Proof. unfold project. by rewrite filter_app, fmap_app. Qed.

Lemma project_one i j ev : project i [(j, ev)] = if decide (j = i) then [ev] else [].
Proof. unfold project. cbn. by case_decide. Qed.

(** Thread by thread, [s] has come from the programs [ps]. *)
Definition from (ps : list P) (s : Pool) : Prop :=
  length (p_threads s) = length ps ∧
  ∀ i p q, ps !! i = Some p → p_threads s !! i = Some q → steps p (project i (p_trace s)) q.

Lemma tick_from ps i s : from ps s → from ps (tick i s).
Proof.
  intros [Hl Hs]. unfold tick. destruct (p_threads s !! i) as [[x|c k]|] eqn:Hi; [done| |done].
  destruct (respond c (p_env s)) as [r e]. split; cbn [p_threads p_trace]; [by rewrite length_insert|].
  intros j p q Hp Hq. rewrite project_app, project_one. case_decide as Hij.
  - subst j. rewrite list_lookup_insert in Hq. rewrite decide_True in Hq
      by (split; [done|by eapply lookup_lt_Some]). injection Hq as <-.
    apply steps_snoc. by eapply Hs.
  - rewrite app_nil_r. rewrite list_lookup_insert_ne in Hq by done. by eapply Hs.
Qed.

Lemma schedule_from ps sc s : from ps s → from ps (schedule sc s).
Proof. revert s. induction sc as [|i sc IH]; intros s Hs; [done|]. apply IH. by apply tick_from. Qed.

Lemma start_from ps e : from ps (mkPool e ps []).
Proof. split; [done|]. cbn. intros i p q Hp Hq. replace q with p by congruence. constructor. Qed.

Lemma results_lookup ps rs i :
  results ps = Some rs → ∀ r, rs !! i = Some r ↔ ps !! i = Some (Done r).
Proof.
  revert rs i. induction ps as [|[x|c k] ps IH]; intros rs i Hrs; cbn in Hrs; [by simplify_eq| |done].
  destruct (results ps) as [rs'|] eqn:Hr; cbn in Hrs; [|done]. injection Hrs as <-.
  destruct i as [|i]; cbn; [by split; intros [= ->]|]. by apply IH.
Qed.

Lemma results_length ps rs : results ps = Some rs → length rs = length ps.
Proof.
  revert rs. induction ps as [|[x|c k] ps IH]; intros rs Hrs; cbn in Hrs; [by simplify_eq| |done].
  destruct (results ps) as [rs'|]; cbn in Hrs; [|done]. injection Hrs as <-. cbn. by rewrite IH.
Qed.

(** Whatever the schedule, a thread that has ended has done what its program does. *)
Theorem thread_done ps sc e rs i p r R :
  results (p_threads (schedule sc (mkPool e ps []))) = Some rs →
  ps !! i = Some p → rs !! i = Some r → wp p R →
  R r (project i (p_trace (schedule sc (mkPool e ps [])))).
Proof.
  intros Hrs Hp Hr HR. destruct (schedule_from ps sc _ (start_from ps e)) as [Hl Hs].
  eapply wp_done; [exact HR|]. eapply Hs; [exact Hp|]. by apply (results_lookup _ rs).
Qed.

(** A thread that has not ended has done a part of it that its protocol allows. *)
Lemma thread_keeps {S} (step : S → event → option S) ps sc e i p s Q :
  ps !! i = Some p → keeps step s p Q →
  is_Some (run step s (project i (p_trace (schedule sc (mkPool e ps []))))).
Proof.
  intros Hp HQ. destruct (schedule_from ps sc _ (start_from ps e)) as [Hl Hs].
  destruct (lookup_lt_is_Some_2 (p_threads (schedule sc (mkPool e ps []))) i) as [q Hq].
  { rewrite Hl. by eapply lookup_lt_Some. }
  specialize (Hs i p q Hp Hq). pose proof (wp_steps _ _ _ _ HQ Hs) as Hw.
  apply (exec_wp q e) in Hw as (s' & Hr & _). rewrite events_run_app in Hr.
  destruct (run step s _); [by eexists|done].
Qed.

(** ** Fair schedules end *)

(** The pool after [m] choices of an endless schedule. *)
Definition after (sched : nat → nat) (m : nat) (s : Pool) : Pool := schedule (sched <$> seq 0 m) s.

(** Every thread gets its turn, again and again. *)
Definition fair (n : nat) (sched : nat → nat) : Prop :=
  ∀ i m, (i < n)%nat → ∃ m', (m ≤ m')%nat ∧ sched m' = i.

Lemma after_S sched m s : after sched (S m) s = tick (sched m) (after sched m s).
Proof. unfold after, schedule. by rewrite seq_S, fmap_app, foldl_app. Qed.

Lemma tick_other i j s : i ≠ j → p_threads (tick i s) !! j = p_threads s !! j.
Proof.
  intros Hij. unfold tick. destruct (p_threads s !! i) as [[x|c k]|]; [done| |done].
  destruct (respond c (p_env s)). cbn. by rewrite list_lookup_insert_ne.
Qed.

Lemma tick_done i j s r :
  p_threads s !! j = Some (Done r) → p_threads (tick i s) !! j = Some (Done r).
Proof.
  intros Hj. destruct (decide (i = j)) as [->|Hne]; [|by rewrite tick_other].
  unfold tick. by rewrite Hj.
Qed.

Lemma tick_step i s c k :
  p_threads s !! i = Some (Step c k) → ∃ r, p_threads (tick i s) !! i = Some (k r).
Proof.
  intros Hi. unfold tick. rewrite Hi. destruct (respond c (p_env s)) as [r e]. exists r. cbn.
  rewrite list_lookup_insert, decide_True; [done|]. split; [done|by eapply lookup_lt_Some].
Qed.

Lemma after_done sched m m' s i r :
  (m ≤ m')%nat → p_threads (after sched m s) !! i = Some (Done r) →
  p_threads (after sched m' s) !! i = Some (Done r).
Proof. induction 1 as [|m' Hm IH]; intros Hi; [done|]. rewrite after_S. by apply tick_done, IH. Qed.

Lemma thread_ends sched s i p m :
  (∀ m, ∃ m', (m ≤ m')%nat ∧ sched m' = i) → p_threads (after sched m s) !! i = Some p →
  ∃ m' r, p_threads (after sched m' s) !! i = Some (Done r).
Proof.
  intros Hfair. revert m. induction p as [r|c k IH]; intros m Hp; [eauto|].
  destruct (Hfair m) as (m' & Hm & Hi). revert Hp. remember (m' - m)%nat as d eqn:Hd.
  revert m Hm Hd. induction d as [|d IHd]; intros m Hm Hd Hp.
  - assert (m' = m) as -> by lia. destruct (tick_step i _ c k Hp) as [r Hr].
    apply (IH r (S m)). by rewrite after_S, Hi.
  - destruct (decide (sched m = i)) as [He|Hne].
    + destruct (tick_step i _ c k Hp) as [r Hr]. apply (IH r (S m)). by rewrite after_S, He.
    + apply (IHd (S m)); [lia|lia|]. by rewrite after_S, tick_other.
Qed.

Lemma results_all ps : (∀ i p, ps !! i = Some p → ∃ r, p = Done r) → is_Some (results ps).
Proof.
  induction ps as [|p ps IH]; intros Hps; [by eexists|]. destruct (Hps 0%nat p eq_refl) as [r ->].
  destruct IH as [rs Hrs]; [by intros i; apply (Hps (S i))|]. cbn. rewrite Hrs. by eexists.
Qed.

(** Under a fair schedule every thread ends. *)
Theorem fair_ends ps e sched :
  fair (length ps) sched →
  ∃ m, ∀ m', (m ≤ m')%nat → is_Some (results (p_threads (after sched m' (mkPool e ps [])))).
Proof.
  intros Hfair. set (s := mkPool e ps []).
  assert (Hn : ∀ n, (n ≤ length ps)%nat → ∃ m, ∀ i, (i < n)%nat → ∃ r, p_threads (after sched m s) !! i = Some (Done r)).
  { induction n as [|n IH]; intros Hl; [exists 0%nat; lia|]. destruct IH as [m Hm]; [lia|].
    destruct (lookup_lt_is_Some_2 ps n) as [p Hp]; [lia|].
    destruct (thread_ends sched s n p 0%nat) as (m' & r & Hr); [by intros; apply Hfair|done|].
    exists (max m m'). intros i Hi. destruct (decide (i = n)) as [->|Hne].
    - exists r. eapply after_done; [|exact Hr]. lia.
    - destruct (Hm i) as [r' Hr']; [lia|]. exists r'. eapply after_done; [|exact Hr']. lia. }
  destruct (Hn _ (le_n _)) as [m Hm]. exists m. intros m' Hm'. apply results_all. intros i p Hp.
  assert (i < length ps)%nat as Hi.
  { destruct (schedule_from ps (sched <$> seq 0 m') _ (start_from ps e)) as [Hl _].
    rewrite <- Hl. by eapply lookup_lt_Some. }
  destruct (Hm i Hi) as [r Hr]. exists r. apply (after_done _ _ m') in Hr; [|done]. congruence.
Qed.
End Threads.

Arguments Pool {Call} reply {Env0} E A.
