(* ===== verification/OcpIo.v ===== *)
(** * The OCP and the Glacier recovery tools: their environment

    What src/recovery_tool/ocp_recovery_tool and
    src/recovery_tool/glacier_recovery_tool ask of an I2C bus, of the file system
    and of D-Bus is the type [Call]; nothing is assumed of the answers. An
    exception is the text that its [what] tells. *)

From stdpp Require Import list strings gmap.
From S2P Require Import Prelude Bytes Json Trace Threads Registry.

(** The values of D-Bus properties: only flags are looked at. *)
Inductive Value := ValueBool (value : bool) | ValueOther.

(** The interfaces of an object with their properties. *)
Definition InterfaceMap : Type := list (string * list (string * Value)).

Inductive Call :=
(* an I2C bus: [open], [ioctl] with I2C_RDWR, [close] *)
| OpenDevice (path : string)
| I2cWrite (fd addr : Z) (data : buffer)
| I2cRead (fd addr : Z) (command : buffer) (len : Z)
| CloseFd (fd : Z)
| SleepSec (seconds : Z)
(* files *)
| PathExists (path : string)
| IsDirectory (path : string)
| IsRegularFile (path : string)
| ListDirectory (recursive : bool) (path : string)
| ReadFile (path : string)
| WriteFile (path contents : string)
(* D-Bus: the objects of the inventory in the order of their paths, and the
   properties of an interface *)
| ConnectBus
| GetManagedObjects
| GetString (path property : string)
| GetUint64 (path interface property : string)
| CreateEntry (entry : Entry)
(* what the user and the journal are told *)
| PrintJson (value : json)
| LogProgress (imageName targetName : string) (progress written imageSize : Z).

(** A call of the file system or of D-Bus answers or throws; a directory lists the
    paths of what it holds. A transfer answers whether it succeeds, a read with
    the bytes that came. *)
Definition reply (c : Call) : Type :=
  match c with
  | OpenDevice _ => option Z
  | I2cWrite _ _ _ => bool
  | I2cRead _ _ _ _ => option buffer
  | PathExists _ | IsDirectory _ | IsRegularFile _ => res string bool
  | ListDirectory _ _ => res string (list string)
  | ReadFile _ => option buffer
  | WriteFile _ _ => bool
  | ConnectBus => res string ()
  | GetManagedObjects => res string (list (string * InterfaceMap))
  | GetString _ _ => res string string
  | GetUint64 _ _ _ => res string Z
  | CloseFd _ | SleepSec _ | CreateEntry _ | PrintJson _ | LogProgress _ _ _ _ _ => ()
  end.

Abbreviation OcpEnv := (Env reply).
Abbreviation P := (Prog reply string).
Abbreviation event := (Event (reply := reply)).

(** A call that answers or throws. *)
Definition ask {A} (c : Call) (answer : reply c → res string A) : P A := Step c (λ r, Done (answer r)).

(** The buffer of a read of [len] bytes, over which the bytes that came are written. *)
Definition fill (len : Z) (bytes : buffer) : buffer := resize (Z.to_nat len) 0 (u8 <$> bytes).

Lemma fill_length len bytes : length (fill len bytes) = Z.to_nat len.
Proof. apply length_resize. Qed.

Lemma u8_ok (bytes : buffer) : bytes_ok (u8 <$> bytes).
Proof. apply Forall_fmap, Forall_true. intros x. by apply wrap_word. Qed.

Lemma fill_ok len bytes : bytes_ok (fill len bytes).
Proof. unfold fill. apply Forall_resize; [by unfold word|]. apply u8_ok. Qed.

(** Bytes that are no more than asked for are what the buffer starts with; zeros follow. *)
Lemma fill_short len bytes :
  (length bytes ≤ Z.to_nat len)%nat → bytes_ok bytes →
  fill len bytes = bytes ++ replicate (Z.to_nat len - length bytes) 0.
Proof.
  intros Hl Hb. unfold fill. rewrite resize_spec.
  replace (u8 <$> bytes) with bytes; [by rewrite take_ge|].
  clear Hl. induction Hb as [|b l Hb Hl IH]; [done|]. cbn. f_equal; [symmetry; by apply wrap_small|done].
Qed.

(** The byte at [i]. *)
Definition at_ (l : buffer) (i : nat) : Z := nth i l 0.

Lemma at_word l i : bytes_ok l → word 8 (at_ l i).
Proof.
  intros Hl. unfold at_. destruct (nth_lookup_or_length l i 0) as [Hi|Hi].
  - unfold bytes_ok in Hl. rewrite Forall_forall in Hl. apply Hl. by eapply list_elem_of_lookup_2.
  - rewrite nth_overflow by done. by unfold word.
Qed.
