(* ===== verification/OcpCommands.v ===== *)
(** * The commands of OCP recovery

    src/recovery_tool/common/i2c_utils.cpp and
    src/recovery_tool/ocp_recovery_tool/recovery_commands.cpp: the transfers on the
    bus, the registers of a device in recovery, and the transfer of an image through
    its memory window. A command that answers a flag with data or a message is a
    [res] that it returns; what only a verbose run prints is left out. *)

From stdpp Require Import list strings.
From S2P Require Import Prelude Bytes Text Trace Threads OcpIo.

#[local] Open Scope string_scope.
#[local] Open Scope Z_scope.

(** ** Transfers *)

(** The length of a message has 16 bits. *)
Definition i2c_len (l : Z) : Z := wrap 16 l.

(** [recovery_tool/common/i2c_utils.cpp:77-112 sendI2cCmdForWrite] *)
Definition sendI2cCmdForWrite (fd slaveId : Z) (writeData : buffer) : P bool :=
  if bool_decide (writeData = []) then mret false else
  act (I2cWrite fd slaveId (take (Z.to_nat (i2c_len (Z.of_nat (length writeData)))) writeData)).

(** [recovery_tool/common/i2c_utils.cpp:25-75 sendI2cCmdForRead]
    What the buffer of [readSize] bytes holds, when the transfer succeeds. *)
Definition sendI2cCmdForRead (fd slaveId : Z) (commandData : buffer) (readSize : Z) : P (option buffer) :=
  if readSize =? 0 then mret None else
  if bool_decide (commandData = []) then mret None else
  r ← act (I2cRead fd slaveId (take (Z.to_nat (i2c_len (Z.of_nat (length commandData)))) commandData) (i2c_len readSize));
  mret match r with
       | Some bytes => Some (fill readSize (take (Z.to_nat (i2c_len readSize)) bytes))
       | None => None
       end.

(** ** Registers *)

(** [recovery_tool/ocp_recovery_tool/recovery_commands.hpp:48-58 RecoveryCommands] *)
Definition DeviceID : Z := 0x23.
Definition DeviceStatusCmd : Z := 0x24.
Definition ResetCmd : Z := 0x25.
Definition RecoveryCtrl : Z := 0x26.
Definition RecoveryStatusCmd : Z := 0x27.
Definition IndirectCtrl : Z := 0x29.
Definition IndirectStatus : Z := 0x2A.
Definition IndirectData : Z := 0x2B.

(** [recovery_tool/ocp_recovery_tool/recovery_commands.hpp:65-72 ResponseLength] *)
Definition DeviceIDResLen : Z := 25.
Definition DeviceStatusResLen : Z := 25.
Definition RecoveryStatusResLen : Z := 3.
Definition IndirectStatusResLen : Z := 7.
Definition CMSLogsChunkSize : Z := 253.

Definition CMS0 : Z := 0.
Definition FromMemoryWindow : Z := 1.

(** [recovery_tool/ocp_recovery_tool/recovery_commands.hpp:122-136 OCPRecoveryCommands]
    An address is an [int]. *)
Record Device := mkDevice {
  busAddress : Z;
  slaveAddress : Z;
  emulation : bool;
}.

Section Commands.
(** The size of a chunk: 252 bytes, or 32 for a CP2112; the bits of a [size_t];
    and the device. *)
Context (chunkSize : nat) (size_bits : Z) (dev : Device).

(** [recovery_tool/ocp_recovery_tool/recovery_commands.cpp:32-35 constructI2CDevicePath] *)
Definition constructI2CDevicePath : string := "/dev/i2c-" +:+ int_to_string (busAddress dev).

(** [recovery_tool/ocp_recovery_tool/recovery_commands.cpp:37-46 openI2CDevice] *)
Definition openI2CDevice : P Z :=
  fd ← act (OpenDevice constructI2CDevicePath);
  match fd with
  | None => raise "Failed to open device."
  | Some fd => mret fd
  end.

(** [fw-status/mctp_util/utils.hpp:36-61 CustomFD]
    The scope of a [CustomFD]. *)
Definition with_device {A} (body : Z → P A) : P A :=
  fd ← openI2CDevice;
  scoped (body fd) (act (CloseFd fd)).

(** The address on the bus. *)
Definition slave : Z := wrap 16 (slaveAddress dev).

Definition write_register (writeData : buffer) : P bool :=
  with_device (λ fd, sendI2cCmdForWrite fd slave writeData).

(** A register that is read; its exceptions become the message [prefix] starts. *)
Definition read_register (prefix : string) (command len : Z) : P (res string buffer) :=
  with_device (λ fd,
    try_catch
      (r ← sendI2cCmdForRead fd slave [command] len;
       mret match r with
            | Some readBuffer => Ok readBuffer
            | None => Throw "Failed to read data from device."
            end)
      (λ what, mret (Throw (prefix +:+ what)))).

(** [recovery_tool/ocp_recovery_tool/recovery_commands.cpp:70-101 setRecoveryControlRegisterCommand] *)
Definition setRecoveryControlRegisterCommand (imageType : Z) (activation : bool) : P bool :=
  _ ← if emulation dev then act (SleepSec 1) else mret ();
  write_register [RecoveryCtrl; 3; imageType; FromMemoryWindow; if activation then 0xF else 0].

(** [recovery_tool/ocp_recovery_tool/recovery_commands.cpp:103-120 setIndirectControlRegisterCommand] *)
Definition setIndirectControlRegisterCommand (imageType : Z) : P bool :=
  write_register [IndirectCtrl; 6; imageType; 0; 0; 0; 0; 0].

(** [recovery_tool/ocp_recovery_tool/recovery_commands.cpp:122-135 sendIndirectDataCommand] *)
Definition sendIndirectDataCommand (data : buffer) : P bool :=
  write_register (IndirectData :: u8 (Z.of_nat (length data)) :: data).

(** [recovery_tool/ocp_recovery_tool/recovery_commands.cpp:137-162 getIndirectStatusCommand] *)
Definition getIndirectStatusCommand : P (res string buffer) :=
  read_register "" IndirectStatus IndirectStatusResLen.

(** The bit by which the device acknowledges. *)
Definition acknowledged (hexResponse : buffer) : bool := (at_ hexResponse 1 .& 4) ≫ 2 =? 1.

(** [recovery_tool/ocp_recovery_tool/recovery_commands.cpp:173-208 isDeviceReadyForTx] *)
Fixpoint poll_ready (tries : nat) : P bool :=
  match tries with
  | O => mret false
  | S tries =>
      response ← getIndirectStatusCommand;
      match response with
      | Throw _ => mret false
      | Ok hexResponse =>
          if acknowledged hexResponse then mret true else
          _ ← act (SleepSec 1); poll_ready tries
      end
  end.

(** [recovery_tool/ocp_recovery_tool/recovery_commands.cpp:164-209 isDeviceReadyForTx] *)
Definition isDeviceReadyForTx : P bool :=
  _ ← if emulation dev then act (SleepSec 1) else mret ();
  poll_ready 5.

(** [recovery_tool/ocp_recovery_tool/recovery_commands.cpp:240-255 writeRecoveryChunk] *)
Fixpoint attempt_chunk (attempts : nat) (dataChunk : buffer) : P bool :=
  match attempts with
  | O => mret false
  | S attempts =>
      sent ← sendIndirectDataCommand dataChunk;
      if negb sent then attempt_chunk attempts dataChunk else
      ready ← isDeviceReadyForTx;
      if negb ready then attempt_chunk attempts dataChunk else mret true
  end.

(** [recovery_tool/ocp_recovery_tool/recovery_commands.cpp:211-256 writeRecoveryChunk]
    Whether the chunk is written, and the progress last logged. *)
Definition writeRecoveryChunk (imageName targetName : string) (imageData : buffer) (offset : nat)
    (lastLoggedProgress : Z) : P (bool * Z) :=
  let imageSize := length imageData in
  let currentChunkSize := Nat.min chunkSize (imageSize - offset) in
  let dataChunk := take currentChunkSize (drop offset imageData) in
  let last := if (offset =? 0)%nat then 0 else lastLoggedProgress in
  let written := Z.of_nat (offset + currentChunkSize) in
  let progress := u8 (wrap size_bits (written * 100) / Z.of_nat imageSize) in
  last ← if last / 10 <? progress / 10
         then _ ← act (LogProgress imageName targetName progress written (Z.of_nat imageSize)); mret progress
         else mret last;
  ok ← attempt_chunk 3 dataChunk;
  mret (ok, last).

(** [recovery_tool/ocp_recovery_tool/recovery_commands.cpp:265-272 writeRecoveryImage]
    From [offset] on; [fuel] bounds the number of chunks. *)
Fixpoint write_chunks (fuel : nat) (imageName targetName : string) (imageData : buffer) (offset : nat)
    (last : Z) : P (bool * Z) :=
  match fuel with
  | O => mret (true, last)
  | S fuel =>
      if (offset <? length imageData)%nat then
        '(ok, last) ← writeRecoveryChunk imageName targetName imageData offset last;
        if negb ok then mret (false, last)
        else write_chunks fuel imageName targetName imageData (offset + chunkSize) last
      else mret (true, last)
  end.

(** [recovery_tool/ocp_recovery_tool/recovery_commands.cpp:258-273 writeRecoveryImage]
    A chunk is not empty, so that the image has at most as many as bytes. *)
Definition writeRecoveryImage (imageName targetName : string) (imageData : buffer) (last : Z) : P (bool * Z) :=
  write_chunks (length imageData) imageName targetName imageData 0 last.

(** [recovery_tool/ocp_recovery_tool/recovery_commands.cpp:275-292 readFirmwareImage]
    Nothing, for a file that does not open. *)
Definition readFirmwareImage (filePath : string) : P buffer :=
  contents ← act (ReadFile filePath);
  mret (default [] contents).

(** ** Commands *)

(** [recovery_tool/ocp_recovery_tool/recovery_commands.cpp:299-326 getDeviceIDCommand] *)
Definition getDeviceIDCommand : P (res string buffer) :=
  read_register "Error in GetDeviceId: " DeviceID DeviceIDResLen.

(** [recovery_tool/ocp_recovery_tool/recovery_commands.cpp:328-355 setForceRecoveryMode] *)
Definition setForceRecoveryMode : P (res string ()) :=
  with_device (λ fd,
    try_catch
      (ok ← sendI2cCmdForWrite fd slave [ResetCmd; 3; 1; 0x0F; 1];
       mret (if negb ok then Throw "Failed to set device into recovery mode" else Ok ()))
      (λ what, mret (Throw ("Failed to set device into recovery mode : " +:+ what)))).

(** [recovery_tool/ocp_recovery_tool/recovery_commands.cpp:357-384 getDeviceStatusCommand] *)
Definition getDeviceStatusCommand : P (res string buffer) :=
  read_register "Error in Get Device Status: " DeviceStatusCmd DeviceStatusResLen.

(** [recovery_tool/ocp_recovery_tool/recovery_commands.cpp:386-414 getRecoveryStatusCommand] *)
Definition getRecoveryStatusCommand : P (res string buffer) :=
  read_register "Error in Get Recovery Status: " RecoveryStatusCmd RecoveryStatusResLen.

(** [recovery_tool/ocp_recovery_tool/recovery_commands.cpp:424-468 performRecoveryCommand]
    What one image takes. *)
Definition recover_image (imagePath : string) (last : Z) : P (res string () * Z) :=
  exists_ ← ask (PathExists imagePath) id;
  if negb exists_ then mret (Throw ("Image does not exist: " +:+ imagePath), last) else
  imageBytes ← readFirmwareImage imagePath;
  if bool_decide (imageBytes = [])
  then mret (Throw ("Failed to read data from the image file or file is empty: " +:+ imagePath), last) else
  ok ← setRecoveryControlRegisterCommand CMS0 false;
  if negb ok then mret (Throw ("Writing to RecoveryControlRegister failed for " +:+ imagePath), last) else
  ok ← setIndirectControlRegisterCommand CMS0;
  if negb ok then mret (Throw ("Writing to IndirectControlRegister failed for " +:+ imagePath), last) else
  '(ok, last) ← writeRecoveryImage imagePath "CMS0" imageBytes last;
  if negb ok then mret (Throw ("Writing " +:+ imagePath +:+ " recovery image failed"), last) else
  ok ← setRecoveryControlRegisterCommand CMS0 true;
  if negb ok then mret (Throw ("Activating " +:+ imagePath +:+ " recovery image failed."), last) else
  mret (Ok (), last).

(** [recovery_tool/ocp_recovery_tool/recovery_commands.cpp:422-471 performRecoveryCommand] *)
Fixpoint recover_images (imagePaths : list string) (last : Z) : P (res string ()) :=
  match imagePaths with
  | [] => mret (Ok ())
  | imagePath :: imagePaths =>
      '(r, last) ← recover_image imagePath last;
      match r with Ok _ => recover_images imagePaths last | Throw m => mret (Throw m) end
  end.

(** [recovery_tool/ocp_recovery_tool/recovery_commands.cpp:416-478 performRecoveryCommand] *)
Definition performRecoveryCommand (imagePaths : list string) : P (res string ()) :=
  try_catch (recover_images imagePaths 0)
    (λ what, mret (Throw ("Error in Performing Recovery: " +:+ what))).

(** [recovery_tool/ocp_recovery_tool/recovery_commands.cpp:480-503 saveToLogFile] *)
Definition saveToLogFile (hexData : buffer) (filePath : string) : P (res string ()) :=
  ok ← act (WriteFile filePath (String.concat "" ((λ b, "0x" +:+ format_hex_lower 2 b +:+ " ") <$> hexData)));
  mret (if negb ok then Throw ("Failed to open " +:+ filePath +:+ " for writing.") else Ok ()).

(** [recovery_tool/ocp_recovery_tool/recovery_commands.cpp:526-540 getCMSLogs] *)
Fixpoint read_logs (fd : Z) (reads : nat) (i : Z) (combinedLogs : buffer) : P (res string buffer) :=
  match reads with
  | O => mret (Ok combinedLogs)
  | S reads =>
      r ← sendI2cCmdForRead fd slave [IndirectData] CMSLogsChunkSize;
      match r with
      | None => mret (Throw ("Failed to read " +:+ int_to_string (i + 1) +:+ "/3 chunk of CMS2 logs"))
      | Some readBuffer => read_logs fd reads (i + 1) (combinedLogs ++ readBuffer)%list
      end
  end.

(** [recovery_tool/ocp_recovery_tool/recovery_commands.cpp:505-543 getCMSLogs] *)
Definition getCMSLogs (window : Z) : P (res string buffer) :=
  ok ← setIndirectControlRegisterCommand window;
  if negb ok then mret (Throw "Failed to set cms2 in the INDIRECT_CTRL register") else
  with_device (λ fd, read_logs fd 3 0 []).
End Commands.
