(* ===== verification/OcpTool.v ===== *)
(** * The interactive OCP recovery tool

    src/recovery_tool/ocp_recovery_tool/usb_i2c_mapper.cpp, recoverytool_utils.cpp
    and recoverytool_interface.cpp: the bus behind a USB port, the registers of a
    device decoded into JSON, and the commands. The parsing of the command line is
    the CLI library's; a command starts from its options. *)

From stdpp Require Import list strings.
From Stdlib Require Import Ascii.
From S2P Require Import Prelude Bytes Text Json Trace Threads OcpIo OcpCommands.

#[local] Open Scope string_scope.
#[local] Open Scope Z_scope.

(** ** The bus behind a USB port *)

(** [std::stoull(s)]: none is its exception. *)
Definition stoull (s : string) : option Z :=
  let '(negative, s) :=
    match trim_left s with
    | String "-" rest => (true, rest)
    | String "+" rest => (false, rest)
    | s => (false, s)
    end in
  v ← dec_digits None s;
  if 2 ^ 64 <=? v then None else Some (if negative : bool then (- v) mod 2 ^ 64 else v).

Example stoull_ex :
  (stoull "12", stoull "7-dev", stoull "dev", stoull "", stoull "-1", stoull "18446744073709551616") =
  (Some 12, Some 7, None, None, Some (2 ^ 64 - 1), None).
Proof. reflexivity. Qed.

Definition usbDevicePath : string := "/sys/bus/usb/devices/".
Definition i2cBusPrefix : string := "i2c-".

(** [recovery_tool/ocp_recovery_tool/usb_i2c_mapper.cpp:47-64 getI2CBusFromUSBPort]
    The number of a directory of the name [i2c-<number>]. *)
Definition bus_number (dirname : string) : option Z :=
  rest ← expect i2cBusPrefix dirname;
  stoull rest.

(** [recovery_tool/ocp_recovery_tool/usb_i2c_mapper.cpp:41-68 getI2CBusFromUSBPort]
    The first directory with the name of a bus. *)
Fixpoint first_bus (paths : list string) : P (option Z) :=
  match paths with
  | [] => mret None
  | path :: paths =>
      directory ← ask (IsDirectory path) id;
      match (if directory : bool then bus_number (path_filename path) else None) with
      | Some busNum => mret (Some (int32 busNum))
      | None => first_bus paths
      end
  end.

(** [recovery_tool/ocp_recovery_tool/usb_i2c_mapper.cpp:70-111 getI2CBusFromUSBPort]
    The interfaces of the port, and in them the same. *)
Fixpoint interface_bus (usbPort : string) (paths : list string) : P (option Z) :=
  match paths with
  | [] => mret None
  | path :: paths =>
      directory ← ask (IsDirectory path) id;
      if directory && String.prefix (usbPort +:+ ":") (path_filename path) then
        subEntries ← ask (ListDirectory false path) id;
        found ← first_bus subEntries;
        match found with
        | Some busNum => mret (Some busNum)
        | None => interface_bus usbPort paths
        end
      else interface_bus usbPort paths
  end.

(** [recovery_tool/ocp_recovery_tool/usb_i2c_mapper.cpp:28-119 getI2CBusFromUSBPort] *)
Definition getI2CBusFromUSBPort (usbPort : string) : P Z :=
  let basePath := usbDevicePath +:+ usbPort in
  exists_ ← ask (PathExists basePath) id;
  if negb exists_ then mret (-1) else
  entries ← ask (ListDirectory true basePath) id;
  found ← first_bus entries;
  match found with
  | Some busNum => mret busNum
  | None =>
      entries ← ask (ListDirectory false basePath) id;
      found ← interface_bus usbPort entries;
      mret (default (-1) found)
  end.

(** ** Names *)

(** [recovery_tool/ocp_recovery_tool/recoverytool_utils.hpp:49-64 DeviceStatus] *)
Definition DeviceStatus_RecoveryMode : Z := 3.
(** [recovery_tool/ocp_recovery_tool/recoverytool_utils.hpp:120-130 RecoveryStatus] *)
Definition RecoveryStatus_AwaitingRecoveryImg : Z := 1.

(** [recovery_tool/ocp_recovery_tool/recoverytool_utils.cpp:31-52 deviceIDToStr] *)
Definition deviceIDToStr (id : Z) : string :=
  match id with
  | 0 => "PCI Vendor"
  | 1 => "IANA"
  | 2 => "UUID"
  | 3 => "PnP Vendor"
  | 4 => "ACPI Vendor"
  | 5 => "IANA Enterprise Type"
  | 0xFF => "NVMe MI"
  | _ => "Reserved/Unknown"
  end.

(** [recovery_tool/ocp_recovery_tool/recoverytool_utils.cpp:54-77 deviceStatusToStr] *)
Definition deviceStatusToStr (status : Z) : string :=
  match status with
  | 0 => "Status Pending"
  | 1 => "Device healthy"
  | 2 => "Device Error"
  | 3 => "Recovery mode"
  | 4 => "Recovery Pending"
  | 5 => "Running Recovery Image"
  | 0xE => "Boot Failure"
  | 0xF => "Fatal Error"
  | _ => "Reserved/Unknown"
  end.

(** [recovery_tool/ocp_recovery_tool/recoverytool_utils.cpp:79-98 protocolErrorToStr] *)
Definition protocolErrorToStr (error : Z) : string :=
  match error with
  | 0 => "No Protocol Error"
  | 1 => "Unsupported/Write Command"
  | 2 => "Unsupported Parameter"
  | 3 => "Length write error"
  | 4 => "CRC Error"
  | 0xFF => "General Protocol Error"
  | _ => "Reserved/Unknown"
  end.

(** [recovery_tool/ocp_recovery_tool/recoverytool_utils.cpp:100-156 recoveryReasonCodeToStr] *)
Definition recoveryReasonCodeToStr (code : Z) : string :=
  match code with
  | 0x0 => "No Boot Failure detected"
  | 0x1 => "Generic hardware error"
  | 0x2 => "Generic hardware soft error - soft error may be recoverable"
  | 0x3 => "Self-test failure (e.g., RSA self test failure, FIPs self test failure,, etc.)"
  | 0x4 => "Corrupted/missing critical data"
  | 0x5 => "Missing/corrupt key manifest"
  | 0x6 => "Authentication Failure on key manifest"
  | 0x7 => "Anti-rollback failure on key manifest"
  | 0x8 => "Missing/corrupt boot loader (first mutable code) firmware image"
  | 0x9 => "Authentication failure on boot loader (1st mutable code) firmware image"
  | 0xA => "Anti-rollback failure boot loader (1st mutable code) firmware image"
  | 0xB => "Missing/corrupt main/management firmware image"
  | 0xC => "Authentication Failure main/management firmware image"
  | 0xD => "Anti-rollback Failure main/management firmware image"
  | 0xE => "Missing/corrupt recovery firmware"
  | 0xF => "Authentication Failure recovery firmware"
  | 0x10 => "Anti-rollback Failure on recovery firmware"
  | 0x11 => "Forced Recovery"
  | _ =>
      if (0x12 <=? code) && (code <=? 0x7F) then "Reserved"
      else if (0x80 <=? code) && (code <=? 0xFF) then "Vendor Unique Boot Failure Code"
      else "Unknown"
  end.

(** [recovery_tool/ocp_recovery_tool/recoverytool_utils.cpp:158-181 recoveryStatusToStr] *)
Definition recoveryStatusToStr (status : Z) : string :=
  match status with
  | 0 => "Not in recovery mode"
  | 1 => "Awaiting recovery image"
  | 2 => "Booting recovery image"
  | 3 => "Recovery successful"
  | 0xC => "Recovery failed"
  | 0xD => "Recovery image authentication error"
  | 0xE => "Error entering Recovery mode (might be administratively disabled)"
  | 0xF => "Invalid component address space"
  | _ => "Reserved"
  end.

(** ** What the registers say *)

(** Members set one after the other. *)
Definition members_of (l : list (string * json)) : members :=
  foldl (λ m e, members_set e.1 e.2 m) [] l.

(** [hexData[i] << 8 | hexData[j]] *)
Definition pair_at (hexData : buffer) (i j : nat) : Z := (at_ hexData i ≪ 8) .| at_ hexData j.

Definition error_response (errorMsg : string) : members := members_of [("Error", JString errorMsg)].

(** [recovery_tool/ocp_recovery_tool/recoverytool_utils.cpp:183-190 assignPerformRecoveryError] *)
Definition assignPerformRecoveryError (errorMsg : string) : members :=
  members_of [("Error", JString errorMsg); ("Status", JString "Failed")].

(** [recovery_tool/ocp_recovery_tool/recoverytool_utils.cpp:209-222 getDeviceIDJson] *)
Definition device_id (hexData : buffer) : members :=
  if negb (at_ hexData 1 =? 0) then error_response "Found unknown Descriptor Type" else
  members_of
    [("Initial Descriptor Type", JString (deviceIDToStr (at_ hexData 1)));
     ("PCI Vendor ID", JInteger (pair_at hexData 3 4));
     ("PCI DeviceId", JInteger (pair_at hexData 5 6));
     ("PCI Subsystem Vendor ID", JInteger (pair_at hexData 7 8));
     ("PCI Subsytem ID", JInteger (pair_at hexData 9 10));
     ("PCI Revision ID", JUnsigned (at_ hexData 11))].

(** [recovery_tool/ocp_recovery_tool/recoverytool_utils.cpp:297-309 getDeviceStatusJson] *)
Definition vendor_status (hexData : buffer) : string :=
  String.concat "" ((λ b, format_hex 2 b +:+ " ") <$>
    take (Nat.min (Z.to_nat (at_ hexData 7)) (length hexData - 8)) (drop 8 hexData)).

(** [recovery_tool/ocp_recovery_tool/recoverytool_utils.cpp:283-312 getDeviceStatusJson] *)
Definition device_status (hexData : buffer) : members :=
  members_of
    ([("Device Status", JString (deviceStatusToStr (at_ hexData 1)));
      ("Protocol Error", JString (protocolErrorToStr (at_ hexData 2)));
      ("Recovery Reason Codes", JString (recoveryReasonCodeToStr (pair_at hexData 4 3)));
      ("Heartbeat", JInteger (pair_at hexData 6 5));
      ("Vendor Status Length", JInteger (at_ hexData 7))] ++
     if 0 <? at_ hexData 7 then [("Vendor Status(in hex)", JString (vendor_status hexData))] else []).

(** [recovery_tool/ocp_recovery_tool/recoverytool_utils.cpp:345-347 getRecoveryStatusJson]
    The status is in bits 3:0, the index of the image in bits 7:4. *)
Definition recovery_status_of (hexData : buffer) : Z := at_ hexData 1 .& 0x0F.
(** [recovery_tool/ocp_recovery_tool/recoverytool_utils.cpp:349-354 getRecoveryStatusJson] *)
Definition recovery_index_of (hexData : buffer) : Z := (at_ hexData 1 .& 0xF0) ≫ 4.

(** [recovery_tool/ocp_recovery_tool/recoverytool_utils.cpp:356-361 getRecoveryStatusJson] *)
Definition recovery_status (hexData : buffer) : members :=
  members_of
    [("Device Recovery Status", JString (recoveryStatusToStr (recovery_status_of hexData)));
     ("Recovery Image Index", JString (to_string (recovery_index_of hexData)));
     ("Vendor Specific Status", JString (to_string (at_ hexData 2)))].

Section Tool.
Context (chunkSize : nat) (size_bits : Z) (dev : Device).

(** A command whose failures and exceptions are the member [Error]. *)
Definition respond_with {A} (p : P (res string A)) (f : A → members) : P members :=
  try_catch
    (r ← p; mret match r with Ok a => f a | Throw errorMsg => error_response errorMsg end)
    (λ what, mret (error_response what)).

(** [recovery_tool/ocp_recovery_tool/recoverytool_utils.cpp:192-237 getDeviceIDJson] *)
Definition getDeviceIDJson : P members := respond_with (getDeviceIDCommand dev) device_id.

(** [recovery_tool/ocp_recovery_tool/recoverytool_utils.cpp:239-272 setForceRecoveryMode] *)
Definition setForceRecoveryMode : P members :=
  respond_with (OcpCommands.setForceRecoveryMode dev) (λ _, members_of [("Status", JString "Success")]).

(** [recovery_tool/ocp_recovery_tool/recoverytool_utils.cpp:274-333 getDeviceStatusJson] *)
Definition getDeviceStatusJson : P members := respond_with (getDeviceStatusCommand dev) device_status.

(** [recovery_tool/ocp_recovery_tool/recoverytool_utils.cpp:335-382 getRecoveryStatusJson] *)
Definition getRecoveryStatusJson : P members := respond_with (getRecoveryStatusCommand dev) recovery_status.

Definition wait_emulation : P () := if emulation dev then act (SleepSec 1) else mret ().

(** [recovery_tool/ocp_recovery_tool/recoverytool_utils.cpp:384-464 performRecovery] *)
Definition performRecovery (imagePaths : list string) : P members :=
  try_catch
    (if bool_decide (imagePaths = []) then mret (assignPerformRecoveryError "Image paths are empty") else
     response ← getDeviceStatusJson;
     _ ← wait_emulation;
     match members_find response "Device Status" with
     | None => mret (assignPerformRecoveryError "Getting Device Status Failed")
     | Some (JString status) =>
       if negb (status =? deviceStatusToStr DeviceStatus_RecoveryMode)%string
       then mret (assignPerformRecoveryError "Device is not in recovery mode") else
       response ← getRecoveryStatusJson;
       _ ← wait_emulation;
       match members_find response "Device Recovery Status" with
       | None => mret (assignPerformRecoveryError "Getting Recovery Status Failed")
       | Some (JString status) =>
         if negb (status =? recoveryStatusToStr RecoveryStatus_AwaitingRecoveryImg)%string
         then mret (assignPerformRecoveryError "Device is not ready to receive recovery images") else
         r ← performRecoveryCommand chunkSize size_bits dev imagePaths;
         mret match r with
              | Throw errorMsg => assignPerformRecoveryError errorMsg
              | Ok _ => members_of [("Status", JString "Successful")]
              end
       | Some _ => mret (assignPerformRecoveryError "Device is not ready to receive recovery images")
       end
     | Some _ => mret (assignPerformRecoveryError "Device is not in recovery mode")
     end)
    (λ what, mret (members_of [("Error", JString what); ("Status", JString "Failed")])).

(** [recovery_tool/ocp_recovery_tool/recoverytool_utils.cpp:466-513 processCMSLogs] *)
Definition processCMSLogs (logFilePath : string) (window : Z) : P members :=
  try_catch
    (r ← getCMSLogs dev window;
     match r with
     | Ok hexData =>
         r ← saveToLogFile hexData logFilePath;
         mret match r with
              | Throw errorMsg => members_of [("Status", JString "Failed"); ("Error", JString errorMsg)]
              | Ok _ => members_of [("Status", JString "Successful")]
              end
     | Throw errMsg => mret (members_of [("Error", JString errMsg); ("Status", JString "Failed")])
     end)
    (λ what, mret (members_of [("Error", JString ("Exception while fetching CMS logs: " +:+ what));
                               ("Status", JString "Failed")])).
End Tool.

(** ** Commands *)

(** [recovery_tool/ocp_recovery_tool/recoverytool_interface.cpp:41-238 CommandInterface]
    The commands with the options of their own. *)
Inductive Command :=
| GetDeviceID
| GetDeviceStatus
| GetRecoveryStatus
| SetForceRecoveryMode
| PerformRecovery (imagePaths : list string)
| GetCMSLogs (outFile : string) (window : Z).

(** [recovery_tool/ocp_recovery_tool/recoverytool_interface.cpp:27-38 CreateOcpRecoveryToolObj] *)
Definition CreateOcpRecoveryToolObj (busAddress slaveAddress : Z) (portPath : string) (emulation : bool) : P Device :=
  busAddress ← if bool_decide (portPath = "") then mret busAddress else getI2CBusFromUSBPort portPath;
  mret (mkDevice busAddress slaveAddress emulation).

Definition run_command (chunkSize : nat) (size_bits : Z) (dev : Device) (command : Command) : P members :=
  match command with
  | GetDeviceID => getDeviceIDJson dev
  | GetDeviceStatus => getDeviceStatusJson dev
  | GetRecoveryStatus => getRecoveryStatusJson dev
  | SetForceRecoveryMode => setForceRecoveryMode dev
  | PerformRecovery imagePaths => performRecovery chunkSize size_bits dev imagePaths
  | GetCMSLogs outFile window => processCMSLogs dev outFile window
  end.

Definition print_json (value : json) : P () := act (PrintJson value).

(** [recovery_tool/ocp_recovery_tool/recoverytool_interface.cpp:53-66 exec]
    An exception, of the search for the bus, goes to the user as text. *)
Definition exec_command (chunkSize : nat) (size_bits : Z) (busAddress slaveAddress : Z) (portPath : string)
    (emulation : bool) (command : Command) : P () :=
  try_catch
    (dev ← CreateOcpRecoveryToolObj busAddress slaveAddress portPath emulation;
     jsonResponse ← run_command chunkSize size_bits dev command;
     print_json (JObject jsonResponse))
    (λ _, mret ()).
