(* ===== verification/OcpRecovery.v ===== *)
(** * OCP recovery of a device

    src/recovery_tool/ocp_recovery_tool/recovery_commandline.cpp and
    ocp_commandline.cpp: the state of a device, its recovery, and the service that
    recovers the devices that Entity Manager knows, each in a thread of its own.
    Journal messages are left out. *)

From stdpp Require Import list strings.
From S2P Require Import Prelude Bytes Text Json Trace Threads Registry OcpIo OcpCommands OcpTool.

#[local] Open Scope string_scope.
#[local] Open Scope Z_scope.

(** ** The state of a device *)

(** [recovery_tool/ocp_recovery_tool/recovery_commands.hpp:111-117 OperationalStatus] *)
Inductive OperationalStatus := Operational | InRecoveryMode | UnknownState | Unreachable.

#[export] Instance OperationalStatus_eq_dec : EqDecision OperationalStatus.
Proof. solve_decision. Defined.

(** [recovery_tool/ocp_recovery_tool/recovery_commandline.hpp:39-44 RecoveryReturnCode] *)
Inductive RecoveryReturnCode := SUCCESS | SKIPPED | FAILURE.

#[export] Instance RecoveryReturnCode_eq_dec : EqDecision RecoveryReturnCode.
Proof. solve_decision. Defined.

(** A value of these enumerations is any [int]. *)
Definition CommandFailure : Z := -1.

(** [recovery_tool/ocp_recovery_tool/recovery_commandline.hpp:50-66 DeviceStatusCode] *)
Definition DeviceHealthy : Z := 1.
Definition RecoveryMode : Z := 3.
Definition RecoveryImgRunning : Z := 5.
Definition BootFailure : Z := 0xE.

(** [recovery_tool/ocp_recovery_tool/recovery_commandline.hpp:72-84 ProtocolError] *)
Definition NoProtocolError : Z := 0.
Definition DeviceNotResponding : Z := 5.
Definition GeneralProtocolError : Z := 0xFF.

(** [recovery_tool/ocp_recovery_tool/recovery_commandline.hpp:123-134 RecoveryStatus] *)
Definition NotInRecoveryMode : Z := 0.
Definition AwaitingRecoveryImg : Z := 1.
Definition BootingRecoveryImg : Z := 2.
Definition RecoverySuccess : Z := 3.

(** [recovery_tool/ocp_recovery_tool/recovery_commandline.hpp:140-145 DeviceStatus] *)
Record DeviceStatus := mkDeviceStatus {
  statusCode : Z;
  recoveryReason : Z;
  protocolError : Z;
}.

(** [recovery_tool/ocp_recovery_tool/recovery_commandline.cpp:29-33 getDeviceStatus]
    What the registers say. *)
Definition status_of (hexData : buffer) : DeviceStatus :=
  mkDeviceStatus (at_ hexData 1) (pair_at hexData 4 3) (at_ hexData 2).

Section Device.
Context (chunkSize : nat) (size_bits : Z) (dev : Device) (device : string).

(** [recovery_tool/ocp_recovery_tool/recovery_commandline.cpp:20-46 getDeviceStatus] *)
Definition getDeviceStatus : P DeviceStatus :=
  let failed := mkDeviceStatus CommandFailure 0 DeviceNotResponding in
  try_catch
    (r ← getDeviceStatusCommand dev;
     mret match r with Ok hexData => status_of hexData | Throw _ => failed end)
    (λ _, mret failed).

(** [recovery_tool/ocp_recovery_tool/recovery_commandline.cpp:48-80 getRecoveryStatus] *)
Definition getRecoveryStatus : P (Z * Z) :=
  try_catch
    (r ← getRecoveryStatusCommand dev;
     mret match r with
          | Ok hexData => (recovery_status_of hexData, recovery_index_of hexData)
          | Throw _ => (CommandFailure, 0)
          end)
    (λ _, mret (CommandFailure, 0)).

(** [recovery_tool/ocp_recovery_tool/recovery_commandline.cpp:215-230 getOperationalStatus]
    The state that the two registers tell; a register that is not read is
    [CommandFailure]. *)
Definition classify (statusCode recoveryStatus : Z) : OperationalStatus :=
  if (statusCode =? DeviceHealthy) ||
     ((statusCode =? RecoveryImgRunning) &&
      ((recoveryStatus =? BootingRecoveryImg) || (recoveryStatus =? RecoverySuccess)))
  then Operational
  else if (statusCode =? RecoveryMode) && (recoveryStatus =? AwaitingRecoveryImg)
  then InRecoveryMode
  else UnknownState.

(** [recovery_tool/ocp_recovery_tool/recovery_commandline.cpp:191-238 getOperationalStatus]
    With the status of the device, the protocol error and the recovery status. *)
Definition getOperationalStatus : P (OperationalStatus * Z * Z * Z) :=
  deviceStatus ← getDeviceStatus;
  if statusCode deviceStatus =? CommandFailure
  then mret (Unreachable, CommandFailure, protocolError deviceStatus, NotInRecoveryMode) else
  '(recoveryStatus, _) ← getRecoveryStatus;
  if recoveryStatus =? CommandFailure
  then mret (Unreachable, statusCode deviceStatus, DeviceNotResponding, NotInRecoveryMode) else
  let status := classify (statusCode deviceStatus) recoveryStatus in
  mret (status, statusCode deviceStatus, NoProtocolError,
        match status with UnknownState => recoveryStatus | _ => NotInRecoveryMode end).

(** ** Recovery *)

Definition log (entry : option Entry) : P () :=
  match entry with Some entry => act (CreateEntry entry) | None => mret () end.

Definition log_message (messageID : string) : P () := log (createMessageRegistry messageID device).

(** [static_cast<ErrorCode>] *)
Definition log_error (recoveryProtocol : RecoveryProtocol) (errorCode : Z) : P () :=
  log (createMessageRegistryResourceErrors resourceErrorsDetected recoveryProtocol (u8 errorCode) device Critical).

(** [recovery_tool/ocp_recovery_tool/recovery_commandline.cpp:267-299 performRecovery]
    The device made ready for its images: what to return when it cannot be. *)
Definition force_recovery (operationalStatus : OperationalStatus) : P bool :=
  if bool_decide (operationalStatus ≠ UnknownState) then mret true else
  r ← OcpCommands.setForceRecoveryMode dev;
  match r with
  | Throw _ => _ ← log_error OCPRecoveryProtocolError GeneralProtocolError; mret false
  | Ok _ =>
      _ ← act (SleepSec 1);
      '(status, _, _, _) ← getOperationalStatus;
      if bool_decide (status ≠ InRecoveryMode)
      then _ ← log_error OCPRecoveryProtocolError GeneralProtocolError; mret false
      else mret true
  end.

(** [recovery_tool/ocp_recovery_tool/recovery_commandline.cpp:319-351 performRecovery]
    After the images: has the device come up? *)
Definition check_recovery : P RecoveryReturnCode :=
  _ ← act (SleepSec 1);
  '(postRecOperationalStatus, postRecDeviceStatus, _, postRecRecoveryStatus) ← getOperationalStatus;
  if bool_decide (postRecOperationalStatus = Operational)
  then _ ← log_message recoverySuccessful; mret SUCCESS else
  _ ← if bool_decide (postRecOperationalStatus = InRecoveryMode) || (postRecDeviceStatus =? BootFailure)
      then log_error OCPRecoveryProtocolError postRecRecoveryStatus
      else log_error OCPDeviceStatusCode postRecDeviceStatus;
  mret FAILURE.

(** [recovery_tool/ocp_recovery_tool/recovery_commandline.cpp:240-363 performRecovery] *)
Definition performRecovery (imagePaths : list string) : P RecoveryReturnCode :=
  try_catch
    ('(operationalStatus, _, protocolError, _) ← getOperationalStatus;
     if bool_decide (operationalStatus = Operational)
     then _ ← log_message firmwareNotInRecovery; mret SKIPPED else
     if bool_decide (operationalStatus = Unreachable)
     then _ ← log_error OCPRecoveryProtocolError protocolError; mret FAILURE else
     ready ← force_recovery operationalStatus;
     if negb ready then mret FAILURE else
     _ ← log_message recoveryStarted;
     r ← performRecoveryCommand chunkSize size_bits dev imagePaths;
     match r with
     | Throw _ => _ ← log_error OCPRecoveryProtocolError GeneralProtocolError; mret FAILURE
     | Ok _ => check_recovery
     end)
    (λ _, _ ← log_error OCPRecoveryProtocolError GeneralProtocolError; mret FAILURE).
End Device.

(** ** The devices *)

Definition ocpObjInterface : string := "xyz.openbmc_project.Configuration.OCPRecovery".

(** [recovery_tool/ocp_recovery_tool/ocp_commandline.cpp:53-60 getI2CBus] *)
Definition getI2CBus (objPath : string) : P Z :=
  v ← ask (GetUint64 objPath ocpObjInterface "I2CBus") id; mret (u32 v).

(** [recovery_tool/ocp_recovery_tool/ocp_commandline.cpp:72-79 getAddress] *)
Definition getAddress (objPath : string) : P Z :=
  v ← ask (GetUint64 objPath ocpObjInterface "I2CAddress") id; mret (u32 v).

(** [recovery_tool/ocp_recovery_tool/ocp_commandline.cpp:91-98 getUSBPort] *)
Definition getUSBPort (objPath : string) : P string := ask (GetString objPath "USBPort") id.

(** [recovery_tool/ocp_recovery_tool/ocp_commandline.cpp:110-126 hasUSBPortProperty] *)
Definition hasUSBPortProperty (objPath : string) : P bool :=
  try_catch (_ ← ask (GetString objPath "USBPort") id; mret true) (λ _, mret false).

(** [recovery_tool/ocp_recovery_tool/ocp_commandline.cpp:128-133 DeviceRecoveryTarget] *)
Record DeviceRecoveryTarget := mkTarget {
  target_device : string;
  target_busAddr : Z;
  target_slaveAddr : Z;
}.

(** [recovery_tool/ocp_recovery_tool/ocp_commandline.cpp:153-172 collectRecoveryTargets]
    The bus of a device; none is a USB port without one. *)
Definition target_bus (objPath : string) : P (option Z) :=
  usb ← hasUSBPortProperty objPath;
  if negb usb then busAddr ← getI2CBus objPath; mret (Some busAddr) else
  usbPort ← getUSBPort objPath;
  i2cBus ← getI2CBusFromUSBPort usbPort;
  mret (if i2cBus <? 0 then None else Some (u32 i2cBus)).

(** [recovery_tool/ocp_recovery_tool/ocp_commandline.cpp:135-178 collectRecoveryTargets] *)
Fixpoint collectRecoveryTargets (managedObjects : list (string * InterfaceMap)) : P (list DeviceRecoveryTarget) :=
  match managedObjects with
  | [] => mret []
  | (objPath, interfaces) :: managedObjects =>
      if negb (bool_decide (ocpObjInterface ∈ interfaces.*1)) then collectRecoveryTargets managedObjects else
      busAddr ← target_bus objPath;
      match busAddr with
      | None => collectRecoveryTargets managedObjects
      | Some busAddr =>
          slaveAddr ← getAddress objPath;
          targets ← collectRecoveryTargets managedObjects;
          mret (mkTarget (path_filename objPath) busAddr slaveAddr :: targets)
      end
  end.

(** [recovery_tool/ocp_recovery_tool/ocp_commandline.cpp:24-35 CommandOptions]
    The path of the base directory and the flag that are used. *)
Record CommandOptions := mkOptions {
  baseImagePath : string;
  opt_emulation : bool;
}.

Section Service.
(** The four components that the build names, in the order of the recovery. *)
Context (chunkSize : nat) (size_bits : Z).
Context (GPU_OCP_FSP_COMP_ID GPU_OCP_BUILD_INFO_COMP_ID GPU_OCP_OOBHUB_COMP_ID GPU_OCP_FSP_RT_COMP_ID : string).

(** The device of a target: its addresses converted to [int]. *)
Definition device_of (target : DeviceRecoveryTarget) (emulation : bool) : Device :=
  mkDevice (int32 (target_busAddr target)) (int32 (target_slaveAddr target)) emulation.

(** [recovery_tool/ocp_recovery_tool/ocp_commandline.cpp:180-202 performRecoveryForDevice]
    What a thread runs: whether the recovery fails. *)
Definition performRecoveryForDevice (imagePaths : list string) (emulation : bool) (target : DeviceRecoveryTarget)
    : P bool :=
  try_catch
    (_ ← ask ConnectBus id;
     status ← performRecovery chunkSize size_bits (device_of target emulation) (target_device target) imagePaths;
     mret (bool_decide (status = FAILURE)))
    (λ _, mret true).

(** [recovery_tool/ocp_recovery_tool/ocp_commandline.cpp:263-269 getRecoveryImagePath] *)
Fixpoint first_regular (paths : list string) : P string :=
  match paths with
  | [] => mret ""
  | path :: paths =>
      regular ← ask (IsRegularFile path) id;
      if regular : bool then mret path else first_regular paths
  end.

(** [recovery_tool/ocp_recovery_tool/ocp_commandline.cpp:254-277 getRecoveryImagePath] *)
Definition getRecoveryImagePath (dirPath : string) : P string :=
  try_catch
    (exists_ ← ask (PathExists dirPath) id;
     if negb exists_ then mret "" else
     directory ← ask (IsDirectory dirPath) id;
     if negb directory then mret "" else
     entries ← ask (ListDirectory false dirPath) id;
     first_regular entries)
    (λ _, mret "").

(** [recovery_tool/ocp_recovery_tool/ocp_commandline.cpp:298-308 main] *)
Fixpoint find_images (baseImagePath : string) (ids : list string) : P (list string) :=
  match ids with
  | [] => mret []
  | compId :: ids =>
      path ← getRecoveryImagePath (baseImagePath +:+ "/" +:+ compId);
      paths ← find_images baseImagePath ids;
      mret (path :: paths)
  end.

(** [recovery_tool/ocp_recovery_tool/ocp_commandline.cpp:279-328 main]
    What is done before the threads start, up to [collectRecoveryTargets] of
    [performRecovery]: the code to exit with, or the images and the devices. *)
Definition prepare (opts : CommandOptions) : P (Z + list string * list DeviceRecoveryTarget) :=
  imagePaths ← find_images (baseImagePath opts)
    [GPU_OCP_FSP_COMP_ID; GPU_OCP_BUILD_INFO_COMP_ID; GPU_OCP_OOBHUB_COMP_ID; GPU_OCP_FSP_RT_COMP_ID];
  if existsb (λ p, bool_decide (p = "")) imagePaths then mret (inl 1) else
  _ ← ask ConnectBus id;
  managedObjects ← ask GetManagedObjects id;
  if bool_decide (managedObjects = []) then
    _ ← log_error "OCPRecovery" OCPRecoveryProtocolError noDevicesFound;
    mret (inl 1)
  else
  targets ← collectRecoveryTargets managedObjects;
  mret (if bool_decide (targets = []) then inl 0 else inr (imagePaths, targets)).

(** [recovery_tool/ocp_recovery_tool/ocp_commandline.cpp:229-236 performRecovery]
    The threads of the devices. *)
Definition threads (opts : CommandOptions) (imagePaths : list string) (targets : list DeviceRecoveryTarget) : list (P bool) :=
  performRecoveryForDevice imagePaths (opt_emulation opts) <$> targets.

(** [recovery_tool/ocp_recovery_tool/ocp_commandline.cpp:238-245 performRecovery]
    The code once every thread has ended; none before. A thread that throws would
    throw out of [future.get]. *)
Definition joined (rs : option (list (res string bool))) : option Z :=
  match rs with
  | None => None
  | Some rs => Some (if forallb (λ r : res string bool, match r with Ok failed => negb failed | Throw _ => false end) rs then 0 else 1)
  end.

(** [recovery_tool/ocp_recovery_tool/ocp_commandline.cpp:204-246 performRecovery]
    The service in a world, its threads under a schedule: what was done before the
    threads, what they did, and the code. Any exception exits with 1. *)
Definition main `{OcpEnv} (opts : CommandOptions) (sched : list nat) (e : env_state)
    : list event * list (nat * event) * option Z :=
  let '(es, r, e) := exec (prepare opts) e in
  match r with
  | Throw _ => (es, [], Some 1)
  | Ok (inl code) => (es, [], Some code)
  | Ok (inr (imagePaths, targets)) =>
      let pool := schedule sched (mkPool e (threads opts imagePaths targets) []) in
      (es, p_trace pool, joined (results (p_threads pool)))
  end.
End Service.
