(* ===== verification/OcpSeen.v ===== *)
(** * What an OCP recovery does that matters

    The transfers on the bus, the images that are loaded and the entries that are
    logged, in the order in which they happen; and the calculus [sees] of the
    programs of the OCP recovery tools in these terms. *)

From stdpp Require Import list strings.
From S2P Require Import Prelude Bytes Text Trace Threads Registry OcpIo OcpCommands.

#[local] Open Scope Z_scope.

Inductive Obs :=
| Wrote (data : buffer) (ok : bool)
| Took (command : buffer) (bytes : option buffer)
| Loaded (path : string) (contents : option buffer)
| Logged (entry : Entry).

Definition obs_of (ev : event) : list Obs :=
  match ev with
  | existT (I2cWrite _ _ data) ok => [Wrote data ok]
  | existT (I2cRead _ _ command len) bytes => [Took command (fill len <$> bytes)]
  | existT (ReadFile path) contents => [Loaded path contents]
  | existT (CreateEntry entry) _ => [Logged entry]
  | _ => []
  end.

Definition seen (es : list event) : list Obs := mbind obs_of es.

Lemma seen_app es es' : seen (es ++ es') = seen es ++ seen es'.
Proof. apply bind_app. Qed.

(** [sees p Q]: whatever is answered, [Q] holds of what [p] returns and of what is
    seen of it. *)
Definition sees {A} (p : P A) (Q : res string A → list Obs → Prop) : Prop := wp p (λ r es, Q r (seen es)).
#[global] Arguments sees : simpl never.

Lemma sees_done {A} (r : res string A) (Q : res string A → list Obs → Prop) : Q r [] → sees (Done r) Q.
Proof. done. Qed.

Lemma sees_impl {A} (p : P A) (Q Q' : res string A → list Obs → Prop) :
  sees p Q → (∀ r o, Q r o → Q' r o) → sees p Q'.
Proof. intros Hp HQ. eapply wp_impl; [exact Hp|]. intros r es. apply HQ. Qed.

Lemma sees_bind {A B} (p : P A) (f : A → P B) Q1 (Q : res string B → list Obs → Prop) :
  sees p Q1 → (∀ a o, Q1 (Ok a) o → sees (f a) (λ r o', Q r (o ++ o'))) →
  (∀ e o, Q1 (Throw e) o → Q (Throw e) o) → sees (p ≫= f) Q.
Proof.
  intros Hp Hf He. eapply wp_seq; [exact Hp| |].
  - intros a es Ha. eapply wp_impl; [exact (Hf a (seen es) Ha)|]. intros r es'. by rewrite seen_app.
  - intros e es. apply He.
Qed.

Lemma sees_try {A} (p : P A) (handler : string → P A) Q1 (Q : res string A → list Obs → Prop) :
  sees p Q1 → (∀ a o, Q1 (Ok a) o → Q (Ok a) o) →
  (∀ e o, Q1 (Throw e) o → sees (handler e) (λ r o', Q r (o ++ o'))) → sees (try_catch p handler) Q.
Proof.
  intros Hp Ha Hh. eapply wp_try; [exact Hp|intros a es; apply Ha|].
  intros e es He. eapply wp_impl; [exact (Hh e (seen es) He)|]. intros r es'. by rewrite seen_app.
Qed.

(** A call, with what is seen of it. *)
Lemma sees_step {A} c (k : reply c → P A) (Q : res string A → list Obs → Prop) :
  (∀ r, sees (k r) (λ x o, Q x (obs_of (existT (P := reply) c r) ++ o))) → sees (Step c k) Q.
Proof. intros Hk r. eapply wp_impl; [apply Hk|]. intros x es. cbn beta. done. Qed.

(** Calls that are not seen. *)
Definition silent (c : Call) : Prop := ∀ r, obs_of (existT (P := reply) c r) = [].

Lemma sees_silent {A} c (k : reply c → P A) (Q : res string A → list Obs → Prop) :
  silent c → (∀ r, sees (k r) Q) → sees (Step c k) Q.
Proof. intros Hc Hk. apply sees_step. intros r. by rewrite (Hc r). Qed.

Lemma sees_act {A} c (f : reply c → P A) (Q : res string A → list Obs → Prop) :
  silent c → (∀ r, sees (f r) Q) → sees (act c ≫= f) Q.
Proof. apply sees_silent. Qed.

Lemma sees_ask {A B} c answer (f : A → P B) (Q : res string B → list Obs → Prop) :
  silent c → (∀ a, sees (f a) Q) → (∀ e, Q (Throw e) []) → sees (ask c answer ≫= f) Q.
Proof.
  intros Hc Hf He. apply (sees_silent c (λ r, prog_bind f (Done (answer r)))); [done|].
  intros r. destruct (answer r); [apply Hf|]. apply sees_done, He.
Qed.

(** The wait of the emulation. *)
Lemma sees_wait {A} (b : bool) n (p : P A) (Q : res string A → list Obs → Prop) :
  sees p Q → sees ((if b then act (SleepSec n) else mret ()) ≫= λ _, p) Q.
Proof. intros Hp. destruct b; [by apply sees_act|exact Hp]. Qed.

Lemma sees_device {A} dev (body : Z → P A) (Q : res string A → list Obs → Prop) :
  (∀ fd, sees (body fd) Q) → (∀ e, Q (Throw e) []) → sees (with_device dev body) Q.
Proof.
  intros Hb He. unfold with_device, openI2CDevice.
  apply (sees_bind _ _ (λ _ o, o = [])).
  - apply sees_act; [done|]. by intros [fd|]; apply sees_done.
  - intros fd o ->. eapply wp_scoped; [exact (Hb fd)|]. intros r es Hr u. cbn.
    rewrite seen_app. cbn. by rewrite app_nil_r.
  - intros e o ->. apply He.
Qed.

(** ** Transfers *)

Lemma i2c_len_small len : 0 ≤ len < 2 ^ 16 → i2c_len len = len.
Proof. intros Hl. unfold i2c_len. apply wrap_small. unfold word. lia. Qed.

Lemma sees_write fd addr data (Q : res string bool → list Obs → Prop) :
  data ≠ [] → Z.of_nat (length data) < 2 ^ 16 → (∀ ok, Q (Ok ok) [Wrote data ok]) →
  sees (sendI2cCmdForWrite fd addr data) Q.
Proof.
  intros Hne Hl HQ. unfold sendI2cCmdForWrite. rewrite bool_decide_false by done.
  apply sees_step. intros ok. apply sees_done. cbn.
  replace (take _ data) with data; [apply HQ|]. symmetry. apply take_ge. rewrite i2c_len_small; lia.
Qed.

(** What is filled does not depend on more bytes than are asked for. *)
Lemma fill_take len bytes : fill len (take (Z.to_nat len) bytes) = fill len bytes.
Proof.
  unfold fill. rewrite fmap_take. apply list_eq. intros i.
  destruct (decide (i < Z.to_nat len)%nat) as [Hi|Hi]; [|by rewrite !lookup_resize_old by lia].
  destruct (decide (i < length bytes)%nat) as [Hb|Hb].
  - rewrite !lookup_resize by (rewrite ?length_take, ?length_fmap; lia). by rewrite lookup_take_lt.
  - by rewrite !lookup_resize_new by (rewrite ?length_take, ?length_fmap; lia).
Qed.

Lemma sees_read fd addr command len (Q : res string (option buffer) → list Obs → Prop) :
  0 < len < 2 ^ 16 → command ≠ [] → Z.of_nat (length command) < 2 ^ 16 →
  (∀ bytes, Q (Ok (Some (fill len bytes))) [Took command (Some (fill len bytes))]) →
  Q (Ok None) [Took command None] → sees (sendI2cCmdForRead fd addr command len) Q.
Proof.
  intros Hl Hne Hc HQ Hn. unfold sendI2cCmdForRead. rewrite (proj2 (Z.eqb_neq len 0)) by lia.
  rewrite bool_decide_false, (i2c_len_small len) by (done || lia).
  replace (take _ command) with command by (symmetry; apply take_ge; rewrite i2c_len_small; lia).
  apply (sees_step (I2cRead fd addr command len)). intros [bytes|]; apply sees_done; cbn; [|apply Hn].
  rewrite fill_take. apply HQ.
Qed.

(** ** Registers *)

Lemma sees_write_register dev data (Q : res string bool → list Obs → Prop) :
  data ≠ [] → Z.of_nat (length data) < 2 ^ 16 →
  (∀ ok, Q (Ok ok) [Wrote data ok]) → (∀ e, Q (Throw e) []) → sees (write_register dev data) Q.
Proof. intros Hne Hl HQ He. apply sees_device; [|done]. intros fd. by apply sees_write. Qed.

Lemma sees_read_register dev prefix command len (Q : res string (res string buffer) → list Obs → Prop) :
  0 < len < 2 ^ 16 →
  (∀ bytes, Q (Ok (Ok (fill len bytes))) [Took [command] (Some (fill len bytes))]) →
  (∀ m, Q (Ok (Throw m)) [Took [command] None]) → (∀ e, Q (Throw e) []) →
  sees (read_register dev prefix command len) Q.
Proof.
  intros Hl HQ Hn He. apply sees_device; [|done]. intros fd.
  apply (sees_try _ _ (λ r os, match r with
    | Ok r => match r with Ok b => Q (Ok (Ok b)) os | Throw m => Q (Ok (Throw m)) os end
    | Throw e => False end)); [|by intros [?|?]|done].
  apply (sees_bind _ _ (λ r os, match r with
    | Ok (Some b) => Q (Ok (Ok b)) os | Ok None => ∀ m, Q (Ok (Throw m)) os | Throw e => False end));
    [by apply sees_read| |done].
  intros [b|] o Ho; apply sees_done; rewrite app_nil_r; [exact Ho|apply Ho].
Qed.
