(* ===== verification/OcpImage.v ===== *)
(** * What a device in recovery is given

    A device is a memory window: INDIRECT_CTRL puts its offset back to zero,
    INDIRECT_DATA appends, and RECOVERY_CTRL activates what has come in. The file
    shows what the transfer of the images leaves in the window when they are
    activated, and how many transfers it takes. *)

From stdpp Require Import list strings.
From S2P Require Import Prelude Bytes Text Trace Threads Registry OcpIo OcpCommands OcpSeen.

#[local] Open Scope Z_scope.

(** ** The window of a device *)

Record Window := mkWindow { fed : list buffer; activated : list (list buffer) }.

Definition blank : Window := mkWindow [] [].

Definition accept (w : Window) (data : buffer) : Window :=
  match data with
  | command :: _ :: payload =>
      if command =? IndirectData then mkWindow (fed w ++ [payload]) (activated w) else
      if command =? IndirectCtrl then mkWindow [] (activated w) else
      if (command =? RecoveryCtrl) && (at_ payload 2 =? 0xF) then mkWindow (fed w) (activated w ++ [fed w])
      else w
  | _ => w
  end.

Definition deliver (w : Window) (o : Obs) : Window :=
  match o with Wrote data true => accept w data | _ => w end.

Definition delivered (w : Window) (os : list Obs) : Window := foldl deliver w os.
#[local] Arguments delivered : simpl never.

(** ** What is counted *)

Definition is_data (o : Obs) : bool :=
  match o with Wrote (command :: _) true => command =? IndirectData | _ => false end.
Definition is_ack (o : Obs) : bool :=
  match o with Took [command] (Some bytes) => (command =? IndirectStatus) && acknowledged bytes | _ => false end.
Definition is_transfer (o : Obs) : bool :=
  match o with Wrote _ _ | Took _ _ => true | _ => false end.

Definition tally (p : Obs → bool) (os : list Obs) : nat := length (List.filter p os).

(** The packets that the device took, those that it acknowledged, the transfers
    tried, and the images that were loaded, with the files they were loaded from. *)
Definition packets : list Obs → nat := tally is_data.
Definition acks : list Obs → nat := tally is_ack.
Definition transfers : list Obs → nat := tally is_transfer.
Definition loaded (os : list Obs) : list (string * buffer) :=
  omap (λ o, match o with Loaded path contents => pair path <$> contents | _ => None end) os.
Definition images (os : list Obs) : list buffer := (loaded os).*2.

Fixpoint total {A} (f : A → nat) (l : list A) : nat :=
  match l with [] => 0 | x :: l => f x + total f l end.

Lemma tally_app p o o' : tally p (o ++ o') = (tally p o + tally p o')%nat.
Proof. unfold tally. by rewrite List.filter_app, length_app. Qed.

Lemma loaded_app o o' : loaded (o ++ o') = loaded o ++ loaded o'.
Proof. apply omap_app. Qed.

Lemma images_app o o' : images (o ++ o') = images o ++ images o'.
Proof. unfold images. by rewrite loaded_app, fmap_app. Qed.

Lemma images_nil os : images os = [] → loaded os = [].
Proof. apply fmap_nil_inv. Qed.

Lemma images_length os : length (images os) = length (loaded os).*1.
Proof. unfold images. by rewrite !length_fmap. Qed.

Lemma delivered_app w o o' : delivered w (o ++ o') = delivered (delivered w o) o'.
Proof. apply foldl_app. Qed.

Lemma delivered_cons w o os : delivered w (o :: os) = delivered (deliver w o) os.
Proof. done. Qed.

Lemma delivered_nil w : delivered w [] = w.
Proof. done. Qed.

(** Every chunk at least once, in order, and at most three times. *)
Inductive stutter : list buffer → list buffer → Prop :=
| stutter_nil : stutter [] []
| stutter_cons chunk n cs got :
    (1 ≤ n ≤ 3)%nat → stutter cs got → stutter (chunk :: cs) (replicate n chunk ++ got).

Lemma stutter_length cs got : stutter cs got → (length cs ≤ length got)%nat.
Proof. induction 1; cbn; rewrite ?length_app, ?length_replicate; lia. Qed.

Lemma stutter_same cs got : stutter cs got → length got = length cs → got = cs.
Proof.
  induction 1 as [|chunk n cs got Hn Hs IH]; [done|]. rewrite length_app, length_replicate. cbn.
  intros Hl. pose proof (stutter_length _ _ Hs). assert (n = 1)%nat as -> by lia. cbn.
  f_equal. apply IH. lia.
Qed.

Section Image.
Context (chunkSize : nat) (size_bits : Z) (dev : Device).
Context (chunk_range : (0 < chunkSize ≤ 252)%nat).

(** ** A chunk *)

(** Polls do not write; an acknowledgement is the last of them. *)
Definition polled (n : nat) (ok : bool) (os : list Obs) : Prop :=
  (∀ w, delivered w os = w) ∧ images os = [] ∧ packets os = 0%nat ∧
  acks os = (if ok then 1 else 0)%nat ∧ (transfers os ≤ n)%nat.

Definition is_true_ok (r : res string bool) : bool := match r with Ok b => b | Throw _ => false end.

Lemma poll_sees n : sees (poll_ready dev n) (λ r os, polled n (is_true_ok r) os).
Proof.
  induction n as [|n IH]; cbn [poll_ready]; [by repeat split|].
  apply (sees_bind _ _ (λ r os, match r with
    | Ok (Ok bytes) => os = [Took [IndirectStatus] (Some bytes)]
    | Ok (Throw _) => os = [Took [IndirectStatus] None]
    | Throw _ => os = [] end)).
  - by apply sees_read_register.
  - intros [bytes|m] os ->; [|apply sees_done; repeat split; cbn; lia].
    destruct (acknowledged bytes) eqn:Ha.
    + apply sees_done. unfold polled, acks, packets, transfers, tally. cbn. rewrite Ha. repeat split. cbn; lia.
    + apply sees_act; [done|]. intros []. eapply sees_impl; [exact IH|].
      intros r os (Hd & Hi & Hp & Hk & Ht). unfold polled, acks, packets, transfers, tally in *. cbn. rewrite Ha.
      repeat split; try done. lia.
  - intros e os ->. repeat split; cbn; lia.
Qed.

Lemma ready_sees : sees (isDeviceReadyForTx dev) (λ r os, polled 5 (is_true_ok r) os).
Proof. apply sees_wait, poll_sees. Qed.

(** The transfer of data: nothing is activated. *)
Record moved (cs : list buffer) (n : nat) (ok : bool) (os : list Obs) : Prop := mkMoved {
  moved_images : images os = [];
  moved_activated : ∀ w, activated (delivered w os) = activated w;
  moved_transfers : (transfers os ≤ n)%nat;
  moved_fed : ok = true → ∃ got, stutter cs got ∧ (∀ w, fed (delivered w os) = fed w ++ got) ∧
    packets os = length got ∧ acks os = length cs;
}.

Definition packet (data : buffer) : buffer := IndirectData :: u8 (Z.of_nat (length data)) :: data.

(** Up to [n] attempts; every one but the last of those the device took is not
    acknowledged. *)
Definition attempted (n : nat) (chunk : buffer) (ok : bool) (os : list Obs) : Prop :=
  images os = [] ∧ (∀ w, activated (delivered w os) = activated w) ∧ (transfers os ≤ 6 * n)%nat ∧
  ∃ c, (c ≤ n)%nat ∧ (∀ w, fed (delivered w os) = fed w ++ replicate c chunk) ∧ packets os = c ∧
       acks os = (if ok then 1 else 0)%nat ∧ (ok = true → 1 ≤ c)%nat.

Lemma attempted_nil n chunk : attempted n chunk false [].
Proof.
  unfold attempted. split_and!; [done|done|cbn; lia|]. exists 0%nat.
  split_and!; [lia| |done|done|done]. intros w. cbn. by rewrite app_nil_r.
Qed.

(** An attempt that fails, and those that follow. *)
Lemma attempted_again n chunk ok (taken : bool) os os' :
  polled 5 false os → attempted n chunk ok os' →
  attempted (S n) chunk ok (Wrote (packet chunk) taken :: os ++ os').
Proof.
  intros (Hd & Hi & Hp & Hk & Ht) (Hi' & Ha' & Ht' & c & Hc & Hf & Hp' & Hk' & H1).
  set (o := Wrote (packet chunk) taken).
  assert (Ho : packets [o] = (if taken then 1 else 0)%nat ∧ acks [o] = 0%nat ∧ transfers [o] = 1%nat)
    by by destruct taken.
  destruct Ho as (Hop & Hok & Hot). unfold packets, acks, transfers in *.
  change (o :: os ++ os') with ([o] ++ os ++ os').
  assert (Hw : ∀ w, delivered w [o] = if taken then mkWindow (fed w ++ [chunk]) (activated w) else w)
    by by destruct taken.
  unfold attempted, packets, acks, transfers. setoid_rewrite delivered_app. setoid_rewrite delivered_app.
  setoid_rewrite Hd. rewrite !images_app, Hi, Hi', !tally_app, Hop, Hok, Hot, Hp, Hp', Hk, Hk'.
  split_and!; [done| |lia|].
  - intros w. rewrite Ha', Hw. by destruct taken.
  - exists (if taken then S c else c). split_and!; [destruct taken; lia| |destruct taken; lia|done|].
    2: { intros H. specialize (H1 H). destruct taken; lia. }
    intros w. rewrite Hf, Hw. destruct taken; [|done]. cbn. by rewrite <- app_assoc.
Qed.

Lemma attempt_sees n chunk :
  Z.of_nat (length chunk) < 2 ^ 16 - 2 →
  sees (attempt_chunk dev n chunk) (λ r os, attempted n chunk (is_true_ok r) os).
Proof.
  intros Hl. induction n as [|n IH]; cbn [attempt_chunk]; [apply sees_done, attempted_nil|].
  assert (Hnone : polled 5 false []) by (repeat split; cbn; lia).
  apply (sees_bind _ _ (λ r os, match r with
    | Ok taken => os = [Wrote (packet chunk) taken] | Throw _ => os = [] end)).
  - apply sees_write_register; [done|cbn [length]; lia|done|done].
  - intros taken os ->. destruct taken; cbn [negb].
    + eapply sees_bind; [apply ready_sees| |].
      * intros [|] os Hos; cbn [negb].
        -- apply sees_done. destruct Hos as (Hd & Hi & Hp & Hk & Ht). rewrite app_nil_r.
           unfold attempted, packets, acks, transfers in *. change ([?o] ++ os) with ([o] ++ os).
           setoid_rewrite delivered_app. rewrite images_app, !tally_app, Hi, Hp, Hk. cbn.
           split_and!; [done| |lia|].
           ++ intros w. by rewrite Hd.
           ++ exists 1%nat. split_and!; [lia| |done|done|lia]. intros w. by rewrite Hd.
        -- eapply sees_impl; [exact IH|]. intros r o' Ho'. exact (attempted_again n chunk _ true os o' Hos Ho').
      * intros e os Hos. pose proof (attempted_again n chunk false true os [] Hos (attempted_nil _ _)) as Ha.
        by rewrite app_nil_r in Ha.
    + eapply sees_impl; [exact IH|]. intros r o' Ho'. exact (attempted_again n chunk _ false [] o' Hnone Ho').
  - intros e os ->. apply attempted_nil.
Qed.

(** ** An image *)

Lemma moved_cons chunk cs n ok os os' :
  attempted 3 chunk true os → moved cs n ok os' → moved (chunk :: cs) (18 + n) ok (os ++ os').
Proof.
  intros (Hi & Ha & Ht & c & Hc & Hf & Hp & Hk & H1) [Hi' Ha' Ht' Hf'].
  unfold packets, acks, transfers in *. split; unfold packets, acks, transfers;
    setoid_rewrite delivered_app || rewrite ?images_app, ?tally_app.
  - by rewrite Hi, Hi'.
  - intros w. by rewrite Ha', Ha.
  - lia.
  - intros Hok. destruct (Hf' Hok) as (got & Hs & Hg & Hp' & Hk'). exists (replicate c chunk ++ got).
    rewrite !tally_app, Hp, Hp', Hk, Hk', length_app, length_replicate. split_and!; [|  |done|done].
    + constructor; [|done]. specialize (H1 eq_refl). lia.
    + intros w. by rewrite Hg, Hf, app_assoc.
Qed.

Lemma moved_stop chunk cs n os : attempted 3 chunk false os → moved (chunk :: cs) (18 + n) false os.
Proof. intros (Hi & Ha & Ht & _). split; [done|done|lia|done]. Qed.

Lemma moved_nil n : moved [] n true [].
Proof.
  split; [done|done|cbn; lia|]. intros _. exists []. split_and!; [constructor| |done|done].
  intros w. cbn. by rewrite app_nil_r.
Qed.

Definition first_ok (r : res string (bool * Z)) : bool := match r with Ok (b, _) => b | Throw _ => false end.

Lemma chunk_sees name target image offset last :
  sees (writeRecoveryChunk chunkSize size_bits dev name target image offset last)
    (λ r os, attempted 3 (take chunkSize (drop offset image)) (first_ok r) os).
Proof.
  unfold writeRecoveryChunk. rewrite <- take_take, <- length_drop, (take_ge (drop offset image)) by done.
  set (chunk := take chunkSize (drop offset image)).
  assert (Hl : Z.of_nat (length chunk) < 2 ^ 16 - 2) by (unfold chunk; rewrite length_take; lia).
  eapply (sees_bind _ _ (λ r os, os = [] ∧ is_ok r = true)).
  - case_match; [apply sees_act; [done|intros []]|]; by apply sees_done.
  - intros l os [-> _]. eapply sees_bind; [by apply attempt_sees| |].
    + intros ok os Hos. apply sees_done. by rewrite app_nil_r.
    + intros e os Hos. exact Hos.
  - by intros e os [-> ?].
Qed.

Lemma write_chunks_sees fuel name target image offset last :
  (length (drop offset image) ≤ fuel)%nat →
  sees (write_chunks chunkSize size_bits dev fuel name target image offset last)
    (λ r os, moved (chunks chunkSize (drop offset image)) (18 * length (chunks chunkSize (drop offset image)))
               (first_ok r) os).
Proof.
  revert offset last. induction fuel as [|fuel IH]; intros offset last Hl; cbn [write_chunks].
  { destruct (drop offset image); [|cbn in Hl; lia]. apply sees_done, moved_nil. }
  destruct (Nat.ltb_spec offset (length image)) as [Ho|Ho].
  - rewrite chunks_cons by (lia || (intros Hd; apply (f_equal length) in Hd; rewrite length_drop in Hd; cbn in Hd; lia)).
    cbn [length]. rewrite Nat.mul_succ_r, (Nat.add_comm _ 18).
    eapply sees_bind; [apply chunk_sees| |].
    + intros [[|] l] os Hos; cbn [negb].
      * rewrite drop_drop. eapply sees_impl; [apply IH; rewrite length_drop in Hl |- *; lia|].
        intros r os' Hos'. by apply moved_cons.
      * apply sees_done. rewrite app_nil_r. by apply moved_stop.
    + intros e os Hos. by apply moved_stop.
  - rewrite drop_ge by done. apply sees_done, moved_nil.
Qed.

Lemma write_image_sees name target image last :
  sees (writeRecoveryImage chunkSize size_bits dev name target image last)
    (λ r os, moved (chunks chunkSize image) (18 * length (chunks chunkSize image)) (first_ok r) os).
Proof. apply (write_chunks_sees _ _ _ _ 0). by rewrite drop_0. Qed.

(** ** The images *)

Definition chunk_count (image : buffer) : nat := length (chunks chunkSize image).

(** The transfers of an image: three, and for each chunk three attempts of one write
    and five polls. *)
Definition max_transfers (image : buffer) : nat := 3 + 18 * chunk_count image.

(** What the transfer of one image comes to: up to three transfers more than its
    chunks take; nothing is loaded but from the file it is in; when it succeeds it has
    been loaded, and is activated. *)
Definition image_done (imagePath : string) (ok : bool) (os : list Obs) : Prop :=
  (transfers os ≤ total max_transfers (images os))%nat ∧
  (loaded os).*1 `prefix_of` [imagePath] ∧
  if ok then ∃ image got, images os = [image] ∧ stutter (chunks chunkSize image) got ∧
    (∀ w, activated (delivered w os) = activated w ++ [got]) ∧ packets os = length got ∧
    acks os = chunk_count image
  else ∀ w, activated (delivered w os) = activated w.

Definition res_ok (r : res string (res string () * Z)) : bool :=
  match r with Ok (Ok _, _) => true | _ => false end.

Definition control (activation : bool) (ok : bool) : Obs :=
  Wrote [RecoveryCtrl; 3; CMS0; FromMemoryWindow; if activation then 0xF else 0] ok.
Definition rewind (ok : bool) : Obs := Wrote [IndirectCtrl; 6; CMS0; 0; 0; 0; 0; 0] ok.

Lemma control_sees activation :
  sees (setRecoveryControlRegisterCommand dev CMS0 activation)
    (λ r os, match r with Ok ok => os = [control activation ok] | Throw _ => os = [] end).
Proof. apply sees_wait. by apply sees_write_register. Qed.

Lemma rewind_sees :
  sees (setIndirectControlRegisterCommand dev CMS0)
    (λ r os, match r with Ok ok => os = [rewind ok] | Throw _ => os = [] end).
Proof. by apply sees_write_register. Qed.

(** Nothing is activated by what fails before the transfer of the data. *)
Lemma image_not_started path contents os :
  images os = [] → (transfers os ≤ 3)%nat → (∀ w, activated (delivered w os) = activated w) →
  (contents = None → os = []) → image_done path false (Loaded path contents :: os).
Proof.
  intros Hi Ht Ha Hn. destruct contents as [image|].
  2: { rewrite (Hn eq_refl). split; [cbn; done|]. split; [apply prefix_nil|done]. }
  unfold image_done. change (images (Loaded path (Some image) :: os)) with (image :: images os).
  change (loaded (Loaded path (Some image) :: os)) with ((path, image) :: loaded os). rewrite Hi, images_nil by done.
  split_and!; [|done|done]. unfold transfers, tally in *. cbn. lia.
Qed.

(** The transfer of the data, and what follows it. *)
Lemma image_moved path image ok os os' :
  moved (chunks chunkSize image) (18 * length (chunks chunkSize image)) true os →
  (os' = [] ∧ ok = false ∨ os' = [control true ok]) →
  image_done path ok (Loaded path (Some image) :: control false true :: rewind true :: os ++ os').
Proof.
  intros [Hi Ha Ht Hf] Ho. destruct (Hf eq_refl) as (got & Hs & Hg & Hp & Hk).
  change (?a :: ?b :: ?c :: os ++ os') with ([a; b; c] ++ os ++ os').
  unfold image_done, packets, acks, transfers in *. rewrite !images_app, !loaded_app, Hi, (images_nil os), !tally_app by done.
  destruct Ho as [[-> ->]| ->]; [|destruct ok];
    unfold max_transfers, chunk_count; cbn -[chunks Nat.mul]; (split; [lia|]); (split; [done|]).
  - intros w. by rewrite !delivered_cons, delivered_app, delivered_nil, Ha.
  - exists image, got. split_and!; [done|done| |lia|lia].
    intros w. rewrite !delivered_cons, delivered_app, delivered_cons, delivered_nil. cbn. by rewrite Ha, Hg.
  - intros w. by rewrite !delivered_cons, delivered_app, delivered_cons, delivered_nil; cbn; rewrite Ha.
Qed.

Lemma image_stopped path image os :
  moved (chunks chunkSize image) (18 * length (chunks chunkSize image)) false os →
  image_done path false (Loaded path (Some image) :: control false true :: rewind true :: os).
Proof.
  intros [Hi Ha Ht _]. change (?a :: ?b :: ?c :: os) with ([a; b; c] ++ os).
  unfold image_done, max_transfers, chunk_count, transfers in *.
  rewrite images_app, loaded_app, Hi, (images_nil os), tally_app by done. cbn -[chunks Nat.mul]. split_and!; [lia|done|].
  intros w. by rewrite !delivered_cons, Ha.
Qed.

Lemma read_image_sees path :
  sees (readFirmwareImage path)
    (λ r os, ∃ contents, r = Ok (default [] contents) ∧ os = [Loaded path contents]).
Proof. apply (sees_step (ReadFile path)). intros contents. apply sees_done. by exists contents. Qed.

Lemma recover_image_sees imagePath last :
  sees (recover_image chunkSize size_bits dev imagePath last) (λ r os, image_done imagePath (res_ok r) os).
Proof.
  assert (Hnil : image_done imagePath false []) by (split_and!; cbn; [lia|apply prefix_nil|done]).
  unfold recover_image. apply sees_ask; [done|intros exists_|done].
  destruct exists_; cbn [negb]; [|by apply sees_done].
  eapply sees_bind; [apply read_image_sees| |by intros e os (? & ? & _)].
  intros image os (contents & Hread & ->). injection Hread as ->. case_bool_decide as Hempty.
  { apply sees_done. apply image_not_started; done || (cbn; lia). }
  destruct contents as [image|]; [|done]. cbn [default].
  eapply sees_bind; [apply control_sees| |].
  2: { intros e os ->. apply image_not_started; done || (cbn; lia). }
  intros ok os ->. destruct ok; cbn [negb].
  2: { apply sees_done. apply image_not_started; done || (cbn; lia). }
  eapply sees_bind; [apply rewind_sees| |].
  2: { intros e os ->. apply image_not_started; done || (cbn; lia). }
  intros ok os ->. destruct ok; cbn [negb].
  2: { apply sees_done. apply image_not_started; done || (cbn; lia). }
  eapply sees_bind; [apply write_image_sees| |].
  2: { intros e os Hos. by apply image_stopped. }
  intros [[|] l] os Hos; cbn [negb].
  2: { apply sees_done. rewrite app_nil_r. by apply image_stopped. }
  eapply sees_bind; [apply control_sees| |].
  2: { intros e os' ->. apply (image_moved imagePath image false os []); auto. }
  intros ok os' ->. destruct ok; cbn [negb]; apply sees_done; rewrite app_nil_r.
  - apply (image_moved imagePath image true os); auto.
  - apply (image_moved imagePath image false os); auto.
Qed.

Definition all_ok (r : res string (res string ())) : bool := match r with Ok (Ok _) => true | _ => false end.

(** What the transfer of several comes to: they are loaded one by one from their files,
    in order, and as many as [got] are activated. *)
Definition images_done (imagePaths : list string) (ok : bool) (os : list Obs) : Prop :=
  (transfers os ≤ total max_transfers (images os))%nat ∧
  (loaded os).*1 `prefix_of` imagePaths ∧
  ∃ got, (∀ w, activated (delivered w os) = activated w ++ got) ∧
    Forall2 (λ image fed, stutter (chunks chunkSize image) fed) (take (length got) (images os)) got ∧
    if ok then length got = length imagePaths ∧ packets os = total length got ∧
               acks os = total chunk_count (images os)
    else True.

Lemma images_done_stop path paths os : image_done path false os → images_done (path :: paths) false os.
Proof.
  intros (Ht & Hl & Ha). split_and!; [done| |].
  - etrans; [exact Hl|]. apply prefix_cons, prefix_nil.
  - exists []. split_and!; [|by constructor|done]. intros w. by rewrite Ha, app_nil_r.
Qed.

Lemma images_done_cons path paths ok os os' :
  image_done path true os → images_done paths ok os' → images_done (path :: paths) ok (os ++ os').
Proof.
  intros (Ht & Hl & image & got1 & Hi & Hs & Ha & Hp & Hk) (Ht' & Hl' & got & Ha' & Hf' & Hok).
  unfold images_done, packets, acks, transfers in *.
  rewrite !images_app, !tally_app, loaded_app, fmap_app. rewrite Hi in *. cbn in Ht, Hk |- *.
  assert ((loaded os).*1 = [path]) as ->.
  { pose proof (images_length os) as Hn. rewrite Hi in Hn. destruct (loaded os).*1 as [|p [|? ?]]; [done| |done].
    by apply prefix_cons_inv_1 in Hl as ->. }
  split_and!; [lia|by apply prefix_cons|]. exists (got1 :: got). split_and!.
  - intros w. by rewrite delivered_app, Ha', Ha, <- app_assoc.
  - cbn. by constructor.
  - destruct ok; [|done]. destruct Hok as (Hn & Hp' & Hk'). cbn. split_and!; lia.
Qed.

Lemma recover_images_sees imagePaths last :
  sees (recover_images chunkSize size_bits dev imagePaths last)
    (λ r os, images_done imagePaths (all_ok r) os).
Proof.
  revert last. induction imagePaths as [|imagePath imagePaths IH]; intros last; cbn [recover_images].
  { apply sees_done. split_and!; cbn; [lia|done|]. exists []. split_and!; try done. intros w. by rewrite app_nil_r. }
  eapply sees_bind; [apply recover_image_sees| |].
  - intros [[[]|m] l] os Hos.
    + eapply sees_impl; [apply IH|]. intros r os'. by apply images_done_cons.
    + apply sees_done. rewrite app_nil_r. by apply images_done_stop.
  - intros e os Hos. by apply images_done_stop.
Qed.

Lemma perform_command_sees imagePaths :
  sees (performRecoveryCommand chunkSize size_bits dev imagePaths)
    (λ r os, images_done imagePaths (all_ok r) os).
Proof.
  eapply sees_try; [apply recover_images_sees|done|].
  intros e os Hos. apply sees_done. by rewrite app_nil_r.
Qed.

Lemma stutters_length imgs got :
  Forall2 (λ image fed, stutter (chunks chunkSize image) fed) imgs got →
  (total chunk_count imgs ≤ total length got)%nat.
Proof.
  induction 1 as [|image fed imgs got Hs Hf IH]; [done|]. apply stutter_length in Hs.
  cbn. unfold chunk_count at 1. lia.
Qed.

(** As many chunks as were sent: each was sent once. *)
Lemma stutters_same imgs got :
  Forall2 (λ image fed, stutter (chunks chunkSize image) fed) imgs got →
  total length got = total chunk_count imgs → (λ fed, concat fed) <$> got = imgs.
Proof.
  induction 1 as [|image fed imgs got Hs Hf IH]; [done|]. cbn. unfold chunk_count at 1. intros Heq.
  pose proof (stutters_length _ _ Hf). pose proof (stutter_length _ _ Hs). f_equal; [|apply IH; lia].
  rewrite (stutter_same _ _ Hs) by lia. apply concat_chunks. lia.
Qed.

(** ** What is proved of the transfer *)

(** C9: The images are loaded from the files given, one after the other in their order.
    The device activates what was loaded one by one in this order, each only when all of
    it has come in: every chunk of it once at least, in order, and three times at most.
    The command succeeds only when the image of every file is activated; and when the
    device acknowledges whatever it takes, what it activates is the images themselves. *)
Theorem images_delivered imagePaths :
  sees (performRecoveryCommand chunkSize size_bits dev imagePaths) (λ r os,
    let got := activated (delivered blank os) in
    (loaded os).*1 `prefix_of` imagePaths ∧
    Forall2 (λ image fed, stutter (chunks chunkSize image) fed) (take (length got) (loaded os).*2) got ∧
    (all_ok r = true →
      (loaded os).*1 = imagePaths ∧ length got = length imagePaths ∧
      (packets os = acks os → (λ fed, concat fed) <$> got = (loaded os).*2))).
Proof.
  eapply sees_impl; [apply perform_command_sees|]. intros r os (Ht & Hl & got & Ha & Hf & Hok).
  rewrite Ha. cbn. split; [done|]. split; [done|]. intros Hr. rewrite Hr in Hok. destruct Hok as (Hn & Hp & Hk).
  apply Forall2_length in Hf as Hlen. rewrite length_take, images_length in Hlen.
  pose proof (prefix_length _ _ Hl). split_and!; [apply prefix_length_eq; [done|lia]|done|].
  intros Heq. rewrite take_ge in Hf by (rewrite images_length; lia). rewrite Hp, Hk in Heq. clear -Hf Heq chunk_range.
  by apply stutters_same.
Qed.

(** C10: A recovery ends after a bounded number of transfers: three for each image that
    is loaded, and eighteen for each of its chunks. *)
Theorem transfers_bounded imagePaths :
  sees (performRecoveryCommand chunkSize size_bits dev imagePaths) (λ r os,
    (length (images os) ≤ length imagePaths)%nat ∧
    (transfers os ≤ total max_transfers (images os))%nat).
Proof.
  eapply sees_impl; [apply perform_command_sees|]. intros r os (Ht & Hl & _). split; [|done].
  rewrite images_length. by apply prefix_length.
Qed.
End Image.
