(* ===== verification/OcpOutcome.v ===== *)
(** * What an OCP recovery comes to

    Each device is recovered in a thread of its own. The file shows that a thread
    speaks to its own device only and closes what it opens, whatever the schedule; that
    a recovery comes to one of a few outcomes, with the entries that each leaves in the
    log; when the user learns of a failure; and what the service comes to once its
    threads have ended. *)

From stdpp Require Import list strings.
From S2P Require Import Prelude Json Bytes Text Trace Registry Threads OcpIo OcpCommands OcpTool OcpRecovery OcpSeen OcpImage.

(** * The devices of an OCP recovery *)

#[local] Open Scope Z_scope.

(** ** One device at a time *)

Section Bus.
Context (dev : Device).

(** The descriptor that is open, between the calls of a thread. *)
Definition bus_step (open : option Z) (ev : event) : option (option Z) :=
  match ev with
  | existT (OpenDevice path) fd => allow (open = None ∧ path = constructI2CDevicePath dev) fd
  | existT (I2cWrite fd addr _) _ => allow (open = Some fd ∧ addr = slave dev) open
  | existT (I2cRead fd addr _ _) _ => allow (open = Some fd ∧ addr = slave dev) open
  | existT (CloseFd fd) _ => allow (open = Some fd) None
  | _ => Some open
  end.

(** A program that starts and ends with nothing open. *)
Definition rests {A} (p : P A) : Prop := keeps bus_step None p (λ _ s, s = None).

Definition off_bus (c : Call) : Prop := ∀ open r, bus_step open (existT (P := reply) c r) = Some open.

Lemma rests_done {A} (r : res string A) : rests (Done r).
Proof. by apply keeps_done. Qed.

Lemma rests_ret {A} (a : A) : rests (mret a).
Proof. apply rests_done. Qed.

Lemma rests_bind {A B} (p : P A) (f : A → P B) : rests p → (∀ a, rests (f a)) → rests (p ≫= f).
Proof. intros Hp Hf. eapply keeps_bind; [exact Hp| |done]. intros a s ->. apply Hf. Qed.

Lemma rests_try {A} (p : P A) handler : rests p → (∀ e, rests (handler e)) → rests (try_catch p handler).
Proof. intros Hp Hh. eapply keeps_try; [exact Hp|done|]. intros e s ->. apply Hh. Qed.

Lemma rests_step {A} c (k : reply c → P A) : off_bus c → (∀ r, rests (k r)) → rests (Step c k).
Proof. intros Hc Hk. apply keeps_step. intros r. exists None. split; [apply Hc|apply Hk]. Qed.

Lemma rests_act c : off_bus c → rests (act c).
Proof. intros Hc. apply rests_step; [done|]. intros r. apply rests_done. Qed.

Lemma rests_ask {A} c (answer : reply c → res string A) : off_bus c → rests (ask c answer).
Proof. intros Hc. apply rests_step; [done|]. intros r. apply rests_done. Qed.

(** A program of transfers on the descriptor [fd]. *)
Definition on {A} (fd : Z) (p : P A) : Prop := keeps bus_step (Some fd) p (λ _ s, s = Some fd).

Lemma on_bind {A B} fd (p : P A) (f : A → P B) : on fd p → (∀ a, on fd (f a)) → on fd (p ≫= f).
Proof. intros Hp Hf. eapply keeps_bind; [exact Hp| |done]. intros a s ->. apply Hf. Qed.

Lemma on_try {A} fd (p : P A) handler : on fd p → (∀ e, on fd (handler e)) → on fd (try_catch p handler).
Proof. intros Hp Hh. eapply keeps_try; [exact Hp|done|]. intros e s ->. apply Hh. Qed.

Lemma on_done {A} fd (r : res string A) : on fd (Done r).
Proof. by apply keeps_done. Qed.

Lemma on_write fd data : on fd (sendI2cCmdForWrite fd (slave dev) data).
Proof.
  unfold sendI2cCmdForWrite. case_bool_decide; [apply on_done|]. apply keeps_step. intros r.
  exists (Some fd). split; [by apply allow_true|apply on_done].
Qed.

Lemma on_read fd command len : on fd (sendI2cCmdForRead fd (slave dev) command len).
Proof.
  unfold sendI2cCmdForRead. case_match; [apply on_done|]. case_bool_decide; [apply on_done|].
  apply keeps_step. intros r. exists (Some fd). split; [by apply allow_true|apply on_done].
Qed.

Lemma rests_device {A} (body : Z → P A) : (∀ fd, on fd (body fd)) → rests (with_device dev body).
Proof.
  intros Hb. unfold with_device, openI2CDevice.
  apply (keeps_bind _ _ _ _ (λ r s, match r with Ok fd => s = Some fd | Throw _ => s = None end)).
  - apply keeps_step. intros fd. exists fd. split; [by apply allow_true|].
    by destruct fd; apply keeps_done.
  - intros fd s ->. eapply keeps_scoped; [apply Hb|]. intros r s ->. apply keeps_step. intros [].
    exists None. split; [by apply allow_true|by apply keeps_done].
  - by intros e s ->.
Qed.
End Bus.

Create HintDb rests.
#[export] Hint Resolve rests_done rests_ret on_done on_write on_read : rests.

(** Follow a program down to its calls. *)
Ltac rests_go :=
  repeat first
  [ solve [eauto with rests]
  | match goal with
    | |- rests _ (act ?c) => apply (rests_act _ c); by intros ? []
    | |- rests _ (ask ?c _) => apply (rests_ask _ c); done
    end
  | apply rests_device; intros ?
  | apply rests_bind; [|intros ?]
  | apply rests_try; [|intros ?]
  | apply on_bind; [|intros ?]
  | apply on_try; [|intros ?]
  | progress cbn beta iota zeta
  | case_match ].

Section Recovery.
Context (chunkSize : nat) (size_bits : Z) (dev : Device) (device : string).

Lemma rests_write data : rests dev (write_register dev data).
Proof. unfold write_register. rests_go. Qed.

Lemma rests_read prefix command len : rests dev (read_register dev prefix command len).
Proof. unfold read_register. rests_go. Qed.

#[local] Hint Resolve rests_write rests_read : rests.

Lemma rests_log entry : rests dev (log entry).
Proof. unfold log. rests_go. Qed.

Lemma rests_poll n : rests dev (poll_ready dev n).
Proof. induction n as [|n IH]; cbn [poll_ready]; unfold getIndirectStatusCommand; rests_go. Qed.

#[local] Hint Resolve rests_log rests_poll : rests.

Lemma rests_attempt n chunk : rests dev (attempt_chunk dev n chunk).
Proof.
  induction n as [|n IH]; cbn [attempt_chunk]; [apply rests_ret|].
  unfold sendIndirectDataCommand, isDeviceReadyForTx. rests_go.
Qed.

#[local] Hint Resolve rests_attempt : rests.

Lemma rests_chunks fuel name target image offset last :
  rests dev (write_chunks chunkSize size_bits dev fuel name target image offset last).
Proof.
  revert offset last. induction fuel as [|fuel IH]; intros offset last; cbn [write_chunks]; [apply rests_ret|].
  unfold writeRecoveryChunk. rests_go.
Qed.

#[local] Hint Resolve rests_chunks : rests.

Lemma rests_images imagePaths last : rests dev (recover_images chunkSize size_bits dev imagePaths last).
Proof.
  revert last. induction imagePaths as [|path paths IH]; intros last; cbn [recover_images]; [apply rests_ret|].
  unfold recover_image, readFirmwareImage, writeRecoveryImage, setRecoveryControlRegisterCommand,
    setIndirectControlRegisterCommand. rests_go.
Qed.

#[local] Hint Resolve rests_images : rests.

Lemma rests_status : rests dev (getOperationalStatus dev).
Proof.
  unfold getOperationalStatus, getDeviceStatus, getRecoveryStatus, getDeviceStatusCommand,
    getRecoveryStatusCommand. rests_go.
Qed.

#[local] Hint Resolve rests_status : rests.

Lemma rests_recovery imagePaths : rests dev (performRecovery chunkSize size_bits dev device imagePaths).
Proof.
  unfold performRecovery, performRecoveryCommand, force_recovery, check_recovery, OcpCommands.setForceRecoveryMode,
    log_message, log_error. rests_go.
Qed.
End Recovery.

(** The thread of a target. *)
Lemma rests_target chunkSize size_bits imagePaths emulation target :
  rests (device_of target emulation) (performRecoveryForDevice chunkSize size_bits imagePaths emulation target).
Proof.
  unfold performRecoveryForDevice. apply rests_try; [|intros; apply rests_ret].
  apply rests_bind; [by apply rests_ask|]. intros []. apply rests_bind; [apply rests_recovery|].
  intros code. apply rests_ret.
Qed.

(** * What an OCP recovery comes to *)

#[local] Open Scope Z_scope.

Definition entries (os : list Obs) : list Entry :=
  omap (λ o, match o with Logged entry => Some entry | _ => None end) os.

Lemma entries_app os os' : entries (os ++ os') = entries os ++ entries os'.
Proof. apply omap_app. Qed.

(** ** The state of a device *)

(** What a register was last read as. *)
Fixpoint register (command : Z) (os : list Obs) : option buffer :=
  match os with
  | [] => None
  | o :: os =>
      match register command os, o with
      | Some bytes, _ => Some bytes
      | None, Took [c] bytes => if c =? command then bytes else None
      | None, _ => None
      end
  end.

(** The state that the two registers tell. *)
Definition operational (status recovery : option buffer) : OperationalStatus * Z * Z * Z :=
  match status, recovery with
  | None, _ => (Unreachable, CommandFailure, DeviceNotResponding, NotInRecoveryMode)
  | Some status, None => (Unreachable, at_ status 1, DeviceNotResponding, NotInRecoveryMode)
  | Some status, Some recovery =>
      let state := classify (at_ status 1) (recovery_status_of recovery) in
      (state, at_ status 1, NoProtocolError,
       match state with UnknownState => recovery_status_of recovery | _ => NotInRecoveryMode end)
  end.

Definition reading (os : list Obs) : OperationalStatus * Z * Z * Z :=
  operational (register DeviceStatusCmd os) (register RecoveryStatusCmd os).

Definition state_of (os : list Obs) : OperationalStatus := (reading os).1.1.1.

Section Device.
Context (chunkSize : nat) (size_bits : Z) (dev : Device) (device : string).
Context (chunk_range : (0 < chunkSize ≤ 252)%nat).

Lemma device_status_sees :
  sees (getDeviceStatus dev) (λ r os,
    ∃ s, r = Ok s ∧ entries os = [] ∧ register RecoveryStatusCmd os = None ∧
    match register DeviceStatusCmd os with
    | Some hexData => s = status_of hexData ∧ 0 ≤ at_ hexData 1
    | None => s = mkDeviceStatus CommandFailure 0 DeviceNotResponding
    end).
Proof.
  eapply (sees_try _ _ (λ r os, ∃ s, entries os = [] ∧ register RecoveryStatusCmd os = None ∧
    (r = Ok s ∨ ∃ e, r = Throw e ∧ s = mkDeviceStatus CommandFailure 0 DeviceNotResponding) ∧
    match register DeviceStatusCmd os with
    | Some hexData => s = status_of hexData ∧ 0 ≤ at_ hexData 1
    | None => s = mkDeviceStatus CommandFailure 0 DeviceNotResponding
    end)).
  - eapply (sees_bind _ _ (λ r os, match r with
      | Ok (Ok bytes) => os = [Took [DeviceStatusCmd] (Some bytes)] ∧ 0 ≤ at_ bytes 1
      | Ok (Throw _) => os = [Took [DeviceStatusCmd] None]
      | Throw _ => os = [] end)).
    + apply sees_read_register; try done. intros bytes. split; [done|]. apply at_word, fill_ok.
    + intros [bytes|m] os Hos; apply sees_done; rewrite app_nil_r.
      * destruct Hos as [-> Hb]. exists (status_of bytes). cbn. auto.
      * subst os. eexists. cbn. auto.
    + intros e os ->. eexists. cbn. split_and!; [done|done|right; eauto|done].
  - intros s os (s' & He & Hr & Hs & Hm). exists s'. split_and!; try done.
    destruct Hs as [?|(e & ? & _)]; congruence.
  - intros e os (s' & He & Hr & Hs & Hm). apply sees_done. rewrite app_nil_r.
    destruct Hs as [?|(e' & _ & ->)]; [congruence|]. eexists. split_and!; try done.
Qed.

Lemma recovery_status_sees :
  sees (getRecoveryStatus dev) (λ r os,
    ∃ s, r = Ok s ∧ entries os = [] ∧ register DeviceStatusCmd os = None ∧
    match register RecoveryStatusCmd os with
    | Some hexData => s.1 = recovery_status_of hexData ∧ 0 ≤ recovery_status_of hexData
    | None => s = (CommandFailure, 0)
    end).
Proof.
  eapply (sees_try _ _ (λ r os, ∃ s, entries os = [] ∧ register DeviceStatusCmd os = None ∧
    (r = Ok s ∨ ∃ e, r = Throw e ∧ s = (CommandFailure, 0)) ∧
    match register RecoveryStatusCmd os with
    | Some hexData => s.1 = recovery_status_of hexData ∧ 0 ≤ recovery_status_of hexData
    | None => s = (CommandFailure, 0)
    end)).
  - eapply (sees_bind _ _ (λ r os, match r with
      | Ok (Ok bytes) => os = [Took [RecoveryStatusCmd] (Some bytes)]
      | Ok (Throw _) => os = [Took [RecoveryStatusCmd] None]
      | Throw _ => os = [] end)).
    + by apply sees_read_register.
    + intros [bytes|m] os ->; apply sees_done; rewrite app_nil_r.
      * eexists (_, _). cbn. split_and!; [done|done|by left|done|].
        unfold recovery_status_of. apply Z.land_nonneg. by right.
      * eexists. cbn. auto.
    + intros e os ->. eexists. cbn. split_and!; [done|done|right; eauto|done].
  - intros s os (s' & He & Hr & Hs & Hm). exists s'. split_and!; try done.
    destruct Hs as [?|(e & ? & _)]; congruence.
  - intros e os (s' & He & Hr & Hs & Hm). apply sees_done. rewrite app_nil_r.
    destruct Hs as [?|(e' & _ & ->)]; [congruence|]. eexists. split_and!; try done.
Qed.

Lemma register_app command os os' :
  register command (os ++ os') =
  match register command os' with Some bytes => Some bytes | None => register command os end.
Proof.
  induction os as [|o os IH]; cbn; [by destruct (register command os')|]. rewrite IH.
  by destruct (register command os').
Qed.

Lemma status_sees :
  sees (getOperationalStatus dev) (λ r os, r = Ok (reading os) ∧ entries os = []).
Proof.
  eapply sees_bind; [apply device_status_sees| |by intros e os (s & ? & _)].
  intros s os (s' & [= <-] & He & Hr & Hs). unfold reading.
  destruct (register DeviceStatusCmd os) as [hs|] eqn:Hd; [destruct Hs as [-> Hpos]|subst s];
    cbn [statusCode status_of protocolError].
  2: { apply sees_done. by rewrite app_nil_r, Hd, Hr. }
  rewrite (proj2 (Z.eqb_neq _ _)) by (unfold CommandFailure; lia).
  eapply sees_bind; [apply recovery_status_sees| |by intros e os' (s & ? & _)].
  intros [rs ri] os' (s' & [= <-] & He' & Hr' & Hs').
  destruct (register RecoveryStatusCmd os') as [hr|] eqn:Hd'; [destruct Hs' as [Hrs Hpos']; cbn in Hrs|simplify_eq].
  2: { apply sees_done. rewrite app_nil_r, !register_app, Hr', Hd, Hd', Hr, entries_app, He, He'. done. }
  subst rs. rewrite (proj2 (Z.eqb_neq _ _)) by (unfold CommandFailure; lia).
  apply sees_done. by rewrite app_nil_r, !register_app, Hr', Hd, Hd', entries_app, He, He'.
Qed.

(** ** Outcomes *)

Definition message (messageID : string) : list Entry := option_list (createMessageRegistry messageID device).

Definition error (recoveryProtocol : RecoveryProtocol) (errorCode : Z) : list Entry :=
  option_list
    (createMessageRegistryResourceErrors resourceErrorsDetected recoveryProtocol (u8 errorCode) device Critical).

(** What is logged for a device that has its images and does not come up. *)
Definition not_recovered (r : OperationalStatus * Z * Z * Z) : RecoveryProtocol * Z :=
  let '(state, deviceStatus, _, recoveryStatus) := r in
  if bool_decide (state = InRecoveryMode) || (deviceStatus =? BootFailure)
  then (OCPRecoveryProtocolError, recoveryStatus) else (OCPDeviceStatusCode, deviceStatus).

(** What has been written to the device. *)
Definition given (imagePaths : list string) (ok : bool) (os : list Obs) : Prop :=
  images_done chunkSize imagePaths ok os.

(** The outcomes: what is returned, what is seen, and what of it is logged. The
    registers read last before the transfer say that the device awaits its images;
    those read after it say whether it has come up. *)
Inductive outcome (imagePaths : list string) : RecoveryReturnCode → list Obs → list Entry → Prop :=
| outcome_skipped os :
    state_of os = Operational → outcome imagePaths SKIPPED os (message firmwareNotInRecovery)
| outcome_unreachable os :
    state_of os = Unreachable →
    outcome imagePaths FAILURE os (error OCPRecoveryProtocolError DeviceNotResponding)
| outcome_not_forced before after :
    state_of before = UnknownState →
    outcome imagePaths FAILURE (before ++ after) (error OCPRecoveryProtocolError GeneralProtocolError)
| outcome_not_written before transfer after :
    state_of before = InRecoveryMode → given imagePaths false transfer →
    outcome imagePaths FAILURE (before ++ transfer ++ after)
      (message recoveryStarted ++ error OCPRecoveryProtocolError GeneralProtocolError)
| outcome_recovered before transfer after :
    state_of before = InRecoveryMode → given imagePaths true transfer → state_of after = Operational →
    outcome imagePaths SUCCESS (before ++ transfer ++ after)
      (message recoveryStarted ++ message recoverySuccessful)
| outcome_not_recovered before transfer after :
    state_of before = InRecoveryMode → given imagePaths true transfer → state_of after ≠ Operational →
    outcome imagePaths FAILURE (before ++ transfer ++ after)
      (message recoveryStarted ++ error (not_recovered (reading after)).1 (not_recovered (reading after)).2).

(** What is logged, and nothing else. *)
Lemma log_sees entry :
  sees (log entry) (λ r os, r = Ok () ∧ os = Logged <$> option_list entry).
Proof. destruct entry as [entry|]; [apply (sees_step (CreateEntry entry)); intros []|]; by apply sees_done. Qed.

Definition mute (c : Call) : Prop := match c with CreateEntry _ => False | _ => True end.

Lemma mute_sees {A} (p : P A) : only mute p → sees p (λ _ os, entries os = []).
Proof.
  intros Hp. eapply wp_impl; [exact Hp|]. intros r es Hes. cbv beta.
  induction Hes as [|[c x] es Hc Hes IH]; [done|]. cbn [seen mbind list_bind].
  change (entries (obs_of (existT (P := reply) c x) ++ seen es) = []). rewrite entries_app, IH, app_nil_r.
  by destruct c.
Qed.

Lemma write_mute data : only mute (write_register dev data).
Proof. unfold write_register, with_device, openI2CDevice, sendI2cCmdForWrite. only_go. Qed.

Lemma read_mute prefix command len : only mute (read_register dev prefix command len).
Proof. unfold read_register, with_device, openI2CDevice, sendI2cCmdForRead. only_go. Qed.

#[local] Hint Resolve write_mute read_mute : only.

Lemma poll_mute n : only mute (poll_ready dev n).
Proof. induction n as [|n IH]; cbn [poll_ready]; unfold getIndirectStatusCommand; only_go. Qed.

#[local] Hint Resolve poll_mute : only.

Lemma attempt_mute n chunk : only mute (attempt_chunk dev n chunk).
Proof. induction n as [|n IH]; cbn [attempt_chunk]; unfold sendIndirectDataCommand, isDeviceReadyForTx; only_go. Qed.

#[local] Hint Resolve attempt_mute : only.

Lemma chunks_mute fuel name target image offset last :
  only mute (write_chunks chunkSize size_bits dev fuel name target image offset last).
Proof.
  revert offset last. induction fuel as [|fuel IH]; intros offset last; cbn [write_chunks];
    unfold writeRecoveryChunk; only_go.
Qed.

#[local] Hint Resolve chunks_mute : only.

Lemma images_mute imagePaths last : only mute (recover_images chunkSize size_bits dev imagePaths last).
Proof.
  revert last. induction imagePaths as [|path paths IH]; intros last; cbn [recover_images]; [apply only_ret|].
  unfold recover_image, readFirmwareImage, writeRecoveryImage, setRecoveryControlRegisterCommand,
    setIndirectControlRegisterCommand, ask. only_go.
Qed.

Lemma command_sees imagePaths :
  sees (performRecoveryCommand chunkSize size_bits dev imagePaths)
    (λ r os, (∃ x, r = Ok x) ∧ given imagePaths (all_ok r) os ∧ entries os = []).
Proof.
  assert (Hn : wp (performRecoveryCommand chunkSize size_bits dev imagePaths) (λ r _, ∃ x, r = Ok x)).
  { unfold performRecoveryCommand. eapply (wp_try _ _ (λ _ _, True)).
    - induction (recover_images _ _ _ _ _); [done|intros ?; auto].
    - intros a es _. by exists a.
    - intros e es _. eexists. done. }
  assert (Hm : only mute (performRecoveryCommand chunkSize size_bits dev imagePaths)).
  { pose proof (images_mute imagePaths 0). unfold performRecoveryCommand. only_go. }
  apply mute_sees in Hm. pose proof (perform_command_sees chunkSize size_bits dev chunk_range imagePaths) as Hp.
  exact (wp_and _ _ _ Hn (wp_and _ _ _ Hp Hm)).
Qed.

(** ** A recovery comes to an outcome *)

Lemma entries_logged es : entries (Logged <$> es) = es.
Proof. induction es as [|e es IH]; cbn; [done|]. unfold entries in IH. by rewrite IH. Qed.

Lemma register_logged command os es : register command (os ++ (Logged <$> es)) = register command os.
Proof.
  rewrite register_app. replace (register command (Logged <$> es)) with (@None buffer); [done|].
  induction es as [|e es IH]; cbn; [done|]. by rewrite <- IH.
Qed.

Lemma reading_logged os es : reading (os ++ (Logged <$> es)) = reading os.
Proof. unfold reading. by rewrite !register_logged. Qed.

Lemma state_logged os es : state_of (os ++ (Logged <$> es)) = state_of os.
Proof. unfold state_of. by rewrite reading_logged. Qed.

(** Both registers are read when the device is in recovery. *)
Lemma state_last os os' : state_of os' = InRecoveryMode → state_of (os ++ os') = InRecoveryMode.
Proof.
  unfold state_of, reading. rewrite !register_app.
  by destruct (register DeviceStatusCmd os'), (register RecoveryStatusCmd os').
Qed.

Lemma force_sees before st :
  state_of before = st →
  sees (force_recovery dev device st) (λ r os,
    match r with
    | Ok true => entries os = [] ∧ (st ≠ UnknownState ∧ os = [] ∨ state_of os = InRecoveryMode)
    | Ok false => entries os = error OCPRecoveryProtocolError GeneralProtocolError ∧ st = UnknownState
    | Throw _ => entries os = [] ∧ st = UnknownState
    end).
Proof.
  intros _. unfold force_recovery. case_bool_decide as Hst; [by apply sees_done; auto|].
  apply (sees_bind _ _ (λ r os, entries os = [])).
  { apply sees_device; [|done]. intros fd. unfold sendI2cCmdForWrite. rewrite bool_decide_false by done.
    apply sees_step. intros ok. by apply sees_done. }
  2: { intros e os Hos. auto. }
  intros [[]|m] os Hos.
  - apply sees_act; [done|]. intros [].
    eapply sees_bind; [apply status_sees| |by intros e os' [? _]].
    intros [[[state ?] ?] ?] os' [[= Hr] He]. case_bool_decide as Hs.
    + eapply sees_bind; [apply log_sees| |by intros e os'' [? _]]. intros [] os'' [_ ->]. apply sees_done.
      by rewrite !entries_app, Hos, He, entries_logged.
    + apply sees_done. rewrite !entries_app, Hos, He. split; [done|]. right.
      rewrite app_nil_r. apply state_last. subst. unfold state_of. by rewrite <- Hr.
  - eapply sees_bind; [apply log_sees| |by intros e os'' [? _]]. intros [] os'' [_ ->]. apply sees_done.
    by rewrite !entries_app, Hos, entries_logged.
Qed.

Lemma check_sees :
  sees (check_recovery dev device) (λ r os,
    ∃ code, r = Ok code ∧
    (code = SUCCESS ∧ state_of os = Operational ∧ entries os = message recoverySuccessful ∨
     code = FAILURE ∧ state_of os ≠ Operational ∧
       entries os = error (not_recovered (reading os)).1 (not_recovered (reading os)).2)).
Proof.
  apply sees_act; [done|]. intros []. eapply sees_bind; [apply status_sees| |by intros e os [? _]].
  intros [[[state ds] pe] rs] os [[= Hr] He].
  assert (Hs : state_of os = state) by (unfold state_of; by rewrite <- Hr). case_bool_decide as Hst.
  - eapply sees_bind; [apply log_sees| |by intros e os' [? _]]. intros [] os' [_ ->]. apply sees_done.
    exists SUCCESS. split; [done|]. left.
    rewrite app_nil_r, state_logged, entries_app, He, entries_logged. by rewrite Hs.
  - eapply (sees_bind _ _ (λ r os', r = Ok () ∧
      os' = Logged <$> error (not_recovered (reading os)).1 (not_recovered (reading os)).2)).
    + rewrite <- Hr. unfold not_recovered. case_match; apply log_sees.
    + intros [] os' [_ ->]. apply sees_done. exists FAILURE. split; [done|]. right.
      rewrite app_nil_r, state_logged, reading_logged, entries_app, He, entries_logged. by rewrite Hs.
    + by intros e os' [? _].
Qed.

(** How a recovery ends once the device is known. *)
Definition ended (imagePaths : list string) (r : res string RecoveryReturnCode) (os : list Obs) : Prop :=
  ∃ code, r = Ok code ∧ outcome imagePaths code os (entries os).

(** The first exception ends a recovery: nothing is logged before it but that the
    device is in an unknown state. *)
Definition ends_or_throws (imagePaths : list string) (r : res string RecoveryReturnCode) (os : list Obs) : Prop :=
  match r with
  | Ok code => outcome imagePaths code os (entries os)
  | Throw _ => entries os = [] ∧ ∃ before after, os = before ++ after ∧ state_of before = UnknownState
  end.

Lemma transfer_sees imagePaths before :
  state_of before = InRecoveryMode → entries before = [] →
  sees
    (_ ← log_message device recoveryStarted;
     r ← performRecoveryCommand chunkSize size_bits dev imagePaths;
     match r with
     | Throw _ => _ ← log_error device OCPRecoveryProtocolError GeneralProtocolError; mret FAILURE
     | Ok _ => check_recovery dev device
     end) (λ r os, ends_or_throws imagePaths r (before ++ os)).
Proof.
  intros Hb He. eapply sees_bind; [apply log_sees| |by intros e os [? _]]. intros [] os [_ ->].
  eapply sees_bind; [apply command_sees| |by intros e os ((x & ?) & _)].
  intros r os (_ & Hg & Ho). rewrite <- (state_logged before (message recoveryStarted)) in Hb.
  destruct r as [[]|m].
  - eapply sees_impl; [apply check_sees|]. intros r os' (code & -> & Hc). cbn [ends_or_throws].
    rewrite !entries_app, He, Ho, entries_logged, (assoc_L (++) before), app_nil_l.
    destruct Hc as [(-> & Hs & ->)|(-> & Hs & ->)]; by constructor.
  - eapply sees_bind; [apply log_sees| |by intros e os' [? _]]. intros [] os' [_ ->]. apply sees_done.
    cbn [ends_or_throws].
    rewrite !entries_app, He, Ho, !entries_logged, (assoc_L (++) before), !app_nil_l, !app_nil_r. by constructor.
Qed.

(** The recovery of a device comes to one of its outcomes, whatever the device, the
    files and the log answer: it does not throw, the images are sent only when the
    device awaits them, and the code and the log are those of the outcome. *)
Theorem recovery_ends imagePaths :
  sees (performRecovery chunkSize size_bits dev device imagePaths) (ended imagePaths).
Proof.
  eapply (sees_try _ _ (ends_or_throws imagePaths)).
  - eapply sees_bind; [apply status_sees| |by intros e os [? _]].
    intros [[[st ds] pe] rs] os [[= Hr] He].
    assert (Hst : state_of os = st) by (unfold state_of; by rewrite <- Hr).
    case_bool_decide as Hop.
    { eapply sees_bind; [apply log_sees| |by intros e os' [? _]]. intros [] os' [_ ->]. apply sees_done.
      cbn [ends_or_throws]. rewrite !app_nil_r, entries_app, He, entries_logged. constructor.
      by rewrite state_logged, Hst. }
    case_bool_decide as Hun.
    { eapply sees_bind; [apply log_sees| |by intros e os' [? _]]. intros [] os' [_ ->]. apply sees_done.
      assert (pe = DeviceNotResponding) as ->.
      { subst st. unfold reading, operational, classify in Hr. repeat case_match; congruence. }
      cbn [ends_or_throws]. rewrite !app_nil_r, entries_app, He, entries_logged. constructor.
      by rewrite state_logged, Hst. }
    eapply sees_bind; [by apply (force_sees os)| |].
    + intros [|] os' Hf; cbn [negb].
      * destruct Hf as [He' Hready].
        eapply sees_impl; [apply (transfer_sees imagePaths (os ++ os'))|].
        -- destruct Hready as [[Hu ->]|Hready]; [|by apply state_last].
           rewrite app_nil_r, Hst. by destruct st.
        -- by rewrite entries_app, He, He'.
        -- intros r os''. cbv beta. by rewrite <- app_assoc.
      * destruct Hf as [He' Hu]. apply sees_done. cbn [ends_or_throws].
        rewrite app_nil_r, entries_app, He, He'. constructor. by rewrite Hst.
    + intros e os' [He' Hu]. split; [by rewrite entries_app, He, He'|]. exists os, os'. by rewrite Hst.
  - intros code os Ho. by exists code.
  - intros e os (He & before & after & -> & Hs).
    eapply sees_bind; [apply log_sees| |by intros e' os' [? _]]. intros [] os' [_ ->]. apply sees_done.
    exists FAILURE. split; [done|]. rewrite app_nil_r, !entries_app in *. rewrite He, entries_logged, <- app_assoc.
    by constructor.
Qed.

(** ** Who learns of a failure *)

(** The code that is logged for a device that has not come up is in the table of its
    protocol. *)
Definition told (r : OperationalStatus * Z * Z * Z) : bool :=
  reportable (not_recovered r).1 (u8 (not_recovered r).2).

Lemma error_logged protocol errorCode :
  reportable protocol (u8 errorCode) = true → ∃ e, error protocol errorCode = [e] ∧ entry_level e = Critical.
Proof.
  intros Hr. apply (reported_error resourceErrorsDetected _ _ device Critical) in Hr as [e He].
  exists e. unfold error. rewrite He. split; [done|].
  unfold createMessageRegistryResourceErrors in He. destruct (getMessage _ _) as [[m r]|]; [|done].
  cbn in He. by simplify_eq.
Qed.

Lemma error_unlogged protocol errorCode : reportable protocol (u8 errorCode) = false → error protocol errorCode = [].
Proof.
  intros Hr. unfold error. destruct (createMessageRegistryResourceErrors _ _ _ _ _) eqn:He; [|done].
  assert (reportable protocol (u8 errorCode) = true) as H; [|by rewrite H in Hr].
  eapply reported_error. by eexists.
Qed.

Definition critical (os : list Obs) : bool :=
  existsb (λ e, match entry_level e with Critical => true | _ => false end) (entries os).

(** What is read of a device that has not come up, and is not told to the user: that
    it still awaits its images; a boot failure of which the recovery status is not by
    chance the number of a protocol error; and any other state than the two errors of
    the table, with that of a device that does not answer. *)
Definition untold (r : OperationalStatus * Z * Z * Z) : Prop :=
  let '(state, deviceStatus, _, recoveryStatus) := r in
  state = InRecoveryMode ∨ deviceStatus = BootFailure ∧ ¬ 1 ≤ recoveryStatus ≤ 5 ∨
  deviceStatus ∉ [2; 0xF; BootFailure].

Lemma told_or_untold r : told r = true ∨ untold r.
Proof.
  destruct r as [[[state ds] pe] rs]. unfold told, not_recovered, untold.
  case_bool_decide as Hs; [by right; left|]. cbn [orb].
  destruct (Z.eqb_spec ds BootFailure) as [->|Hb]; cbn [fst snd].
  - destruct (decide (1 ≤ rs ≤ 5)) as [Hrs|Hrs]; [left|by right; right; left].
    assert (rs = 1 ∨ rs = 2 ∨ rs = 3 ∨ rs = 4 ∨ rs = 5) as [->|[->|[->|[->| ->]]]] by lia; done.
  - destruct (decide (ds ∈ [2; 0xF; BootFailure])) as [Hds|Hds]; [left|by right; right; right].
    rewrite !elem_of_cons in Hds. destruct Hds as [->|[->|[?|Hn]]]; [done|done|done|by apply not_elem_of_nil in Hn].
Qed.

Lemma critical_app os os' : critical (os ++ os') = critical os || critical os'.
Proof. unfold critical. by rewrite entries_app, existsb_app. Qed.

(** C14: A recovery that fails is logged as critical, but for a device that took all its
    images and was then read in one of the states that the tables do not know. *)
Theorem failure_reported imagePaths :
  sees (performRecovery chunkSize size_bits dev device imagePaths) (λ r os,
    r = Ok FAILURE →
    critical os = true ∨
    ∃ before transfer after, os = before ++ transfer ++ after ∧ given imagePaths true transfer ∧
      untold (reading after)).
Proof.
  eapply sees_impl; [apply recovery_ends|]. intros r os (code & -> & Ho) [= ->].
  unfold critical. remember FAILURE as code eqn:Hcode. remember (entries os) as es eqn:Hes.
  assert (Hone : ∀ protocol errorCode, reportable protocol (u8 errorCode) = true →
    existsb (λ e, match entry_level e with Critical => true | _ => false end) (error protocol errorCode) = true).
  { intros protocol errorCode (e & -> & He)%error_logged. cbn. by rewrite He. }
  destruct Ho as [os Hs|os Hs|before after Hs|before transfer after Hs Hg|before transfer after Hs Hg Ha
    |before transfer after Hs Hg Ha]; try done.
  - left. by apply Hone.
  - left. by apply Hone.
  - left. rewrite existsb_app, Hone by done. apply orb_true_r.
  - destruct (told_or_untold (reading after)) as [Ht|Hu]; [left|right; eauto 10].
    rewrite existsb_app, Hone by done. apply orb_true_r.
Qed.
(** ** How long a recovery takes *)

(** Up to [n] transfers, and no image is loaded. *)
Definition brief {A} (n : nat) (_ : res string A) (os : list Obs) : Prop := loaded os = [] ∧ (transfers os ≤ n)%nat.

Lemma brief_app {A B} n m (r : res string A) (r' : res string B) os os' :
  brief n r os → brief m r' os' → brief (n + m) r' (os ++ os').
Proof. intros [Hl Ht] [Hl' Ht']. unfold brief, transfers in *. rewrite loaded_app, tally_app, Hl, Hl'. split; [done|lia]. Qed.

Lemma brief_bind {A B} n m (p : P A) (f : A → P B) :
  sees p (brief n) → (∀ a, sees (f a) (brief m)) → sees (p ≫= f) (brief (n + m)).
Proof.
  intros Hp Hf. eapply sees_bind; [exact Hp| |].
  - intros a os Hos. eapply sees_impl; [apply Hf|]. intros r os'. by apply (brief_app n m (Ok a)).
  - intros e os [Hl Ht]. split; [done|lia].
Qed.

Lemma brief_try {A} n (p : P A) handler :
  sees p (brief n) → (∀ e, sees (handler e) (brief 0)) → sees (try_catch p handler) (brief n).
Proof.
  intros Hp Hh. eapply sees_try; [exact Hp|done|]. intros e os Hos. eapply sees_impl; [apply Hh|].
  intros r os' Hos'. pose proof (brief_app n 0 (Throw e : res string A) r os os' Hos Hos') as Hb.
  by rewrite Nat.add_0_r in Hb.
Qed.

Lemma brief_done {A} n (r : res string A) : sees (Done r) (brief n).
Proof. apply sees_done. split; [done|cbn; lia]. Qed.

Lemma brief_read prefix command len : 0 < len < 2 ^ 16 → sees (read_register dev prefix command len) (brief 1).
Proof. intros Hl. apply sees_read_register; [done|intros; split; [done|cbn; lia]..]. Qed.

Lemma brief_log entry : sees (log entry) (brief 0).
Proof. eapply sees_impl; [apply log_sees|]. intros r os [_ ->]. by destruct entry. Qed.

Lemma brief_status : sees (getOperationalStatus dev) (brief 2).
Proof.
  unfold getOperationalStatus. apply (brief_bind 1 1).
  - apply brief_try; [|intros; apply brief_done].
    apply (brief_bind 1 0); [by apply brief_read|intros; apply brief_done].
  - intros s. case_match; [apply brief_done|]. apply (brief_bind 1 0).
    + apply brief_try; [|intros; apply brief_done].
      apply (brief_bind 1 0); [by apply brief_read|intros; apply brief_done].
    + intros [rs ri]. case_match; apply brief_done.
Qed.

Lemma brief_force st : sees (force_recovery dev device st) (brief 3).
Proof.
  unfold force_recovery. case_bool_decide; [apply brief_done|]. apply (brief_bind 1 2).
  - apply sees_device; [|intros; split; [done|cbn; lia]]. intros fd. unfold sendI2cCmdForWrite. rewrite bool_decide_false by done.
    apply sees_step. intros ok. apply sees_done. split; [done|cbn; lia].
  - intros [[]|m].
    + apply sees_act; [done|]. intros []. apply (brief_bind 2 0); [apply brief_status|].
      intros [[[st' ?] ?] ?]. case_bool_decide; [|apply brief_done].
      apply (brief_bind 0 0); [apply brief_log|intros; apply brief_done].
    + apply (brief_bind 0 2); [apply brief_log|intros; apply brief_done].
Qed.

Lemma brief_check : sees (check_recovery dev device) (brief 2).
Proof.
  apply sees_act; [done|]. intros []. apply (brief_bind 2 0); [apply brief_status|].
  intros [[[st ds] pe] rs]. case_bool_decide.
  - apply (brief_bind 0 0); [apply brief_log|intros; apply brief_done].
  - apply (brief_bind 0 0); [case_match; apply brief_log|intros; apply brief_done].
Qed.

(** Up to [n] transfers more than those of the images, which are loaded in order. *)
Definition bounded {A} (imagePaths : list string) (n : nat) (_ : res string A) (os : list Obs) : Prop :=
  (loaded os).*1 `prefix_of` imagePaths ∧ (transfers os ≤ n + total (max_transfers chunkSize) (images os))%nat.

Lemma brief_bounded {A} imagePaths n (r : res string A) os : brief n r os → bounded imagePaths n r os.
Proof. intros [Hl Ht]. unfold bounded, images. rewrite Hl. split; [apply prefix_nil|cbn; lia]. Qed.

Lemma bounded_after {A B} imagePaths n m (r : res string A) (r' : res string B) os os' :
  brief n r os → bounded imagePaths m r' os' → bounded imagePaths (n + m) r' (os ++ os').
Proof.
  intros [Hl Ht] [Hl' Ht']. unfold bounded, images, transfers in *. rewrite loaded_app, tally_app, Hl. split; [done|cbn; lia].
Qed.

Lemma bounded_before {A B} imagePaths n m (r : res string A) (r' : res string B) os os' :
  bounded imagePaths n r os → brief m r' os' → bounded imagePaths (n + m) r' (os ++ os').
Proof.
  intros [Hl Ht] [Hl' Ht']. unfold bounded, images, transfers in *. rewrite loaded_app, tally_app, Hl', app_nil_r. split; [done|lia].
Qed.

Lemma bounded_first {A B} imagePaths n m (p : P A) (f : A → P B) :
  sees p (brief n) → (∀ a, sees (f a) (bounded imagePaths m)) → sees (p ≫= f) (bounded imagePaths (n + m)).
Proof.
  intros Hp Hf. eapply sees_bind; [exact Hp| |].
  - intros a os Hos. eapply sees_impl; [apply Hf|]. intros r os'. by apply (bounded_after _ n m (Ok a)).
  - intros e os Hos. pose proof (bounded_after imagePaths n m (Throw e : res string A) (Throw e : res string B) os [] Hos) as Hb.
    rewrite app_nil_r in Hb. apply Hb. split; [apply prefix_nil|cbn; lia].
Qed.

(** A recovery ends after a bounded number of transfers: seven for the registers, three
    for each image that is loaded and eighteen for each of its chunks. *)
Lemma recovery_bounded imagePaths :
  sees (performRecovery chunkSize size_bits dev device imagePaths) (bounded imagePaths 7).
Proof.
  eapply (sees_try _ _ (bounded imagePaths 7)); [|done|].
  2: { intros e os Hos. apply (sees_bind _ _ (brief 0)); [apply brief_log| |].
       - intros [] os' Hos'. apply sees_done. rewrite app_nil_r. exact (bounded_before _ 7 0 _ _ _ _ Hos Hos').
       - intros e' os' Hos'. exact (bounded_before _ 7 0 _ (Throw e' : res string ()) _ _ Hos Hos'). }
  assert (Hb : ∀ n (p : P RecoveryReturnCode), sees p (brief n) → sees p (bounded imagePaths n)).
  { intros n p Hp. eapply sees_impl; [exact Hp|]. intros r os. apply brief_bounded. }
  apply (bounded_first _ 2 5); [apply brief_status|]. intros [[[st ds] pe] rs].
  case_bool_decide; [apply Hb, (brief_bind 0 5); [apply brief_log|intros; apply brief_done]|].
  case_bool_decide; [apply Hb, (brief_bind 0 5); [apply brief_log|intros; apply brief_done]|].
  apply (bounded_first _ 3 2); [apply brief_force|]. intros [|]; cbn [negb]; [|apply Hb, brief_done].
  apply (bounded_first _ 0 2); [apply brief_log|]. intros [].
  apply (sees_bind _ _ (bounded imagePaths 0)).
  - eapply sees_impl; [apply (perform_command_sees chunkSize size_bits dev chunk_range)|]. intros r os (Ht & Hl & _). by split.
  - intros [[]|m] os Hos.
    + eapply sees_impl; [apply brief_check|]. intros r os' Hos'. exact (bounded_before _ 0 2 _ r _ _ Hos Hos').
    + eapply sees_impl; [apply (brief_bind 0 2); [apply brief_log|intros; apply brief_done]|].
      intros r os' Hos'. exact (bounded_before _ 0 2 _ r _ _ Hos Hos').
  - intros e os [Hl Ht]. split; [done|lia].
Qed.
End Device.

(** ** The service *)

Section Service.
Context (chunkSize : nat) (size_bits : Z).
Context (chunk_range : (0 < chunkSize ≤ 252)%nat).

(** What is seen of the thread of a device, and whether it fails. *)
Definition device_outcome (imagePaths : list string) (emulation : bool) (target : DeviceRecoveryTarget)
    (failed : bool) (os : list Obs) : Prop :=
  failed = true ∧ os = [] ∨
  ∃ code, failed = bool_decide (code = FAILURE) ∧
    outcome chunkSize (target_device target) imagePaths code os (entries os).

Lemma device_ends imagePaths emulation target :
  sees (performRecoveryForDevice chunkSize size_bits imagePaths emulation target) (λ r os,
    ∃ failed, r = Ok failed ∧ device_outcome imagePaths emulation target failed os).
Proof.
  eapply (sees_try _ _ (λ r os, match r with
    | Ok failed => device_outcome imagePaths emulation target failed os | Throw _ => os = [] end)).
  - apply sees_ask; [done| |done]. intros [].
    eapply sees_bind; [by apply recovery_ends| |by intros e os (code & ? & _)].
    intros code os (code' & [= <-] & Ho). apply sees_done. rewrite app_nil_r. right. eauto.
  - intros failed os Ho. eauto.
  - intros e os ->. apply sees_done. exists true. split; [done|by left].
Qed.

Lemma device_bounded imagePaths emulation target :
  sees (performRecoveryForDevice chunkSize size_bits imagePaths emulation target) (bounded chunkSize imagePaths 7).
Proof.
  assert (Hn : ∀ (r : res string bool), bounded chunkSize imagePaths 7 r []) by (intros r; split; [apply prefix_nil|cbn; lia]).
  eapply (sees_try _ _ (bounded chunkSize imagePaths 7)); [|done|].
  - apply sees_ask; [done| |intros e; apply Hn]. intros []. eapply sees_bind; [by apply recovery_bounded| |done].
    intros code os Hos. apply sees_done. by rewrite app_nil_r.
  - intros e os Hos. apply sees_done. by rewrite app_nil_r.
Qed.

Section Run.
Context `{env : OcpEnv} (GPU_OCP_FSP_COMP_ID GPU_OCP_BUILD_INFO_COMP_ID GPU_OCP_OOBHUB_COMP_ID GPU_OCP_FSP_RT_COMP_ID : string).
#[local] Abbreviation prepare := (prepare GPU_OCP_FSP_COMP_ID GPU_OCP_BUILD_INFO_COMP_ID GPU_OCP_OOBHUB_COMP_ID GPU_OCP_FSP_RT_COMP_ID).
#[local] Abbreviation main := (main chunkSize size_bits GPU_OCP_FSP_COMP_ID GPU_OCP_BUILD_INFO_COMP_ID GPU_OCP_OOBHUB_COMP_ID GPU_OCP_FSP_RT_COMP_ID).

(** C11: Whatever the schedule of the threads, when the service exits every device has
    come to an outcome of its own, and the code is zero exactly when none has
    failed. *)
Theorem service_answers opts sched e es imagePaths targets e' tr code :
  exec (prepare opts) e = (es, Ok (inr (imagePaths, targets)), e') →
  main opts sched e = (es, tr, Some code) →
  ∃ failed : list bool,
    length failed = length targets ∧ code = (if forallb negb failed then 0 else 1) ∧
    ∀ i target f, targets !! i = Some target → failed !! i = Some f →
      device_outcome imagePaths (opt_emulation opts) target f (seen (project i tr)).
Proof.
  intros Hp. unfold main. rewrite Hp. set (ps := threads _ _ _ _ _). unfold joined.
  destruct (results (p_threads (schedule sched (mkPool e' ps [])))) as [rs|] eqn:Hrs; [|done].
  intros [= Htr Hcode].
  assert (Hl : length rs = length targets).
  { rewrite (results_length _ _ Hrs). destruct (schedule_from ps sched _ (start_from ps e')) as [-> _].
    apply length_fmap. }
  assert (Hall : ∀ i target r, targets !! i = Some target → rs !! i = Some r →
    ∃ f, r = Ok f ∧ device_outcome imagePaths (opt_emulation opts) target f (seen (project i tr))).
  { intros i target r Ht Hr. subst tr.
    assert (Hi : ps !! i = Some (performRecoveryForDevice chunkSize size_bits imagePaths (opt_emulation opts) target))
      by (unfold ps, threads; by rewrite list_lookup_fmap, Ht).
    exact (thread_done ps sched e' rs i _ r _ Hrs Hi Hr (device_ends imagePaths (opt_emulation opts) target)). }
  exists ((λ r : res string bool, match r with Ok f => f | Throw _ => true end) <$> rs). split_and!.
  - by rewrite length_fmap.
  - rewrite <- Hcode. replace (forallb negb _) with
      (forallb (λ r : res string bool, match r with Ok failed => negb failed | Throw _ => false end) rs); [done|].
    clear. induction rs as [|[f|e] rs IH]; cbn; [done|by rewrite IH|done].
  - intros i target f Ht Hf. rewrite list_lookup_fmap in Hf.
    destruct (rs !! i) as [r|] eqn:Hr; [|done]. destruct (Hall i target r Ht Hr) as (f' & -> & Ho).
    cbn in Hf. by injection Hf as <-.
Qed.

(** C12: A fair schedule ends the service: from some point on it has its code. Each of
    its threads has then loaded images in their order and made at most as many
    transfers on the bus as the images call for: three for each that it has loaded,
    eighteen for each chunk of theirs, and seven. *)
Theorem service_ends opts e es imagePaths targets e' sched :
  exec (prepare opts) e = (es, Ok (inr (imagePaths, targets)), e') → fair (length targets) sched →
  ∃ m, ∀ m', (m ≤ m')%nat → ∃ tr code, main opts (sched <$> seq 0 m') e = (es, tr, Some code) ∧
    ∀ i target, targets !! i = Some target →
      let os := seen (project i tr) in
      (loaded os).*1 `prefix_of` imagePaths ∧
      (transfers os ≤ 7 + total (λ image, 3 + 18 * length (chunks chunkSize image)) (loaded os).*2)%nat.
Proof.
  intros Hp Hfair. unfold main. rewrite Hp. set (ps := threads _ _ _ _ _).
  destruct (fair_ends ps e' sched) as [m Hm].
  { unfold ps, threads. by rewrite length_fmap. }
  exists m. intros m' Hm'. destruct (Hm m' Hm') as [rs Hrs]. unfold after in Hrs. rewrite Hrs. cbn [joined].
  eexists _, _. split; [done|]. intros i target Ht.
  assert (Hi : ps !! i = Some (performRecoveryForDevice chunkSize size_bits imagePaths (opt_emulation opts) target))
    by (unfold ps, threads; by rewrite list_lookup_fmap, Ht).
  destruct (lookup_lt_is_Some_2 rs i) as [r Hr].
  { rewrite (results_length _ _ Hrs). destruct (schedule_from ps (sched <$> seq 0 m') _ (start_from ps e')) as [-> _].
    by eapply lookup_lt_Some. }
  exact (thread_done ps (sched <$> seq 0 m') e' rs i _ r _ Hrs Hi Hr (device_bounded imagePaths (opt_emulation opts) target)).
Qed.

(** C13: Whatever the schedule, and at any time, a thread of a device has spoken on the bus
    and to the address of that device only, through a descriptor that it has opened;
    when the service exits every descriptor is closed. *)
Theorem devices_isolated opts sched e es imagePaths targets e' tr code i target :
  exec (prepare opts) e = (es, Ok (inr (imagePaths, targets)), e') →
  main opts sched e = (es, tr, code) → targets !! i = Some target →
  ∃ open, run (bus_step (device_of target (opt_emulation opts))) None (project i tr) = Some open ∧
    (is_Some code → open = None).
Proof.
  intros Hp. unfold main. rewrite Hp. set (ps := threads _ _ _ _ _). intros [= Htr Hcode] Ht.
  assert (Hi : ps !! i = Some (performRecoveryForDevice chunkSize size_bits imagePaths (opt_emulation opts) target)).
  { unfold ps, threads. by rewrite list_lookup_fmap, Ht. }
  pose proof (rests_target chunkSize size_bits imagePaths (opt_emulation opts) target) as Hr.
  destruct (thread_keeps _ ps sched e' i _ _ _ Hi Hr) as [open Hopen]. rewrite Htr in Hopen. exists open.
  split; [done|]. intros [c Hc]. subst code. unfold joined in Hc.
  destruct (results (p_threads (schedule sched (mkPool e' ps [])))) as [rs|] eqn:Hrs; [|done].
  destruct (lookup_lt_is_Some_2 rs i) as [r Hri].
  { rewrite (results_length _ _ Hrs). destruct (schedule_from ps sched _ (start_from ps e')) as [-> _].
    by eapply lookup_lt_Some. }
  destruct (thread_done ps sched e' rs i _ r _ Hrs Hi Hri Hr) as (s & Hs & ->).
  rewrite Htr, Hopen in Hs. by injection Hs.
Qed.
End Run.
End Service.
