(* ===== verification/OcpStatus.v ===== *)
(** * The status of an OCP device, as it is shown

    What the interactive tool says of the registers of a device, and that it sends
    images exactly when the service would. *)

From stdpp Require Import list strings.
From S2P Require Import Prelude Json Bytes Text Trace Registry Threads OcpIo OcpCommands OcpTool OcpRecovery OcpSeen OcpImage OcpOutcome.

#[local] Open Scope Z_scope.

(** ** Names *)

Lemma recovery_mode_name v : word 8 v → (deviceStatusToStr v =? deviceStatusToStr DeviceStatus_RecoveryMode)%string = (v =? RecoveryMode).
Proof.
  intros Hv. apply eqb_true_iff.
  apply (word_check (λ v, Bool.eqb (deviceStatusToStr v =? deviceStatusToStr DeviceStatus_RecoveryMode)%string (v =? RecoveryMode)) 8);
    [lia|by vm_compute|done].
Qed.

Lemma awaiting_name v :
  word 4 v → (recoveryStatusToStr v =? recoveryStatusToStr RecoveryStatus_AwaitingRecoveryImg)%string = (v =? AwaitingRecoveryImg).
Proof.
  intros Hv. apply eqb_true_iff.
  apply (word_check (λ v, Bool.eqb (recoveryStatusToStr v =? recoveryStatusToStr RecoveryStatus_AwaitingRecoveryImg)%string (v =? AwaitingRecoveryImg)) 4);
    [lia|by vm_compute|done].
Qed.

Lemma recovery_status_word hexData : word 4 (recovery_status_of hexData).
Proof. unfold recovery_status_of. by apply (land_ones_word 4). Qed.

Lemma device_status_member hexData :
  members_find (device_status hexData) "Device Status" = Some (JString (deviceStatusToStr (at_ hexData 1))).
Proof. unfold device_status, members_of. case_match; cbn [app foldl fst snd]; by find_members. Qed.

Lemma recovery_status_member hexData :
  members_find (recovery_status hexData) "Device Recovery Status" =
  Some (JString (recoveryStatusToStr (recovery_status_of hexData))).
Proof. unfold recovery_status, members_of. cbn [foldl fst snd]. by find_members. Qed.

(** ** What the tool reads *)

Section Tool.
Context (chunkSize : nat) (size_bits : Z) (dev : Device).
Context (chunk_range : (0 < chunkSize ≤ 252)%nat).

(** A register shown as JSON: without the member [key] when it is not read. *)
Lemma shown_sees key prefix command len (f : buffer → members) :
  0 < len < 2 ^ 16 → key ≠ "Error"%string →
  sees (respond_with (read_register dev prefix command len) f) (λ r os,
    (os = [Took [command] None] ∨ os = []) ∧ (∃ m, r = Ok m ∧ members_find m key = None) ∨
    ∃ bytes, os = [Took [command] (Some bytes)] ∧ r = Ok (f bytes) ∧ bytes_ok bytes).
Proof.
  intros Hl Hkey.
  assert (Hnone : ∀ what, members_find (error_response what) key = None).
  { intros what. unfold error_response, members_of. cbn [foldl fst snd]. by rewrite members_find_set_ne. }
  eapply (sees_try _ _ (λ r os, match r with
    | Ok m => (os = [Took [command] None] ∨ os = []) ∧ members_find m key = None ∨
              ∃ bytes, os = [Took [command] (Some bytes)] ∧ m = f bytes ∧ bytes_ok bytes
    | Throw _ => os = [] end)).
  - eapply (sees_bind _ _ (λ r os, match r with
      | Ok (Ok bytes) => os = [Took [command] (Some bytes)] ∧ bytes_ok bytes
      | Ok (Throw _) => os = [Took [command] None]
      | Throw _ => os = [] end)).
    + apply sees_read_register; try done. intros bytes. split; [done|apply fill_ok].
    + intros [bytes|m] os Hos; apply sees_done; rewrite app_nil_r; [right|left].
      * destruct Hos as [-> Hb]. eauto.
      * subst os. split; [by left|apply Hnone].
    + by intros e os ->.
  - intros m os [[Hos Hm]|(bytes & -> & -> & Hb)]; [left|right]; eauto.
  - intros e os ->. apply sees_done. left. cbn. eauto.
Qed.

Lemma wait_sees : sees (wait_emulation dev) (λ r os, r = Ok () ∧ os = []).
Proof. unfold wait_emulation. destruct (emulation dev); [apply (sees_silent (SleepSec 1)); [done|intros []]|]; by apply sees_done. Qed.

(** The answer of the tool has this status. *)
Definition answers (m : members) (status : string) : Prop := members_find m "Status" = Some (JString status).

Lemma failed_answers what : answers (assignPerformRecoveryError what) "Failed".
Proof. unfold answers, assignPerformRecoveryError, members_of. cbn [foldl fst snd]. by find_members. Qed.

Lemma successful_answers : answers (members_of [("Status"%string, JString "Successful")]) "Successful".
Proof. done. Qed.

(** The registers that were read before the images. *)
Definition tool_ran (imagePaths : list string) (r : res string members) (os : list Obs) : Prop :=
  ∃ m before transfer, r = Ok m ∧ os = before ++ transfer ∧ Forall (λ o, ∃ c b, o = Took c b) before ∧
    if decide (imagePaths ≠ [] ∧ state_of before = InRecoveryMode)
    then ∃ ok : bool, given chunkSize imagePaths ok transfer ∧ answers m (if ok then "Successful" else "Failed")
    else transfer = [] ∧ answers m "Failed".

Lemma tool_refuses imagePaths what before :
  Forall (λ o, ∃ c b, o = Took c b) before → imagePaths = [] ∨ state_of before ≠ InRecoveryMode →
  tool_ran imagePaths (Ok (assignPerformRecoveryError what)) before.
Proof.
  intros Hb Hno. exists (assignPerformRecoveryError what), before, []. rewrite app_nil_r. split_and!; try done.
  rewrite decide_False by naive_solver. split; [done|apply failed_answers].
Qed.

(** The tool sends the images when the two registers say what the service takes for
    a device that awaits them, and refuses otherwise; it always answers. *)
Theorem tool_agrees imagePaths :
  sees (OcpTool.performRecovery chunkSize size_bits dev imagePaths) (tool_ran imagePaths).
Proof.
  assert (Htook : ∀ c b, Forall (λ o, ∃ c b, o = Took c b) [Took c b]) by (intros; repeat constructor; eauto).
  eapply (sees_try _ _ (λ r os, tool_ran imagePaths r os ∧ ∃ m, r = Ok m)); [|by intros ? ? [? ?]|by intros ? ? [_ (? & ?)]].
  case_bool_decide as Hne; [apply sees_done; split; [by apply tool_refuses; auto|eauto]|].
  eapply sees_bind; [by apply (shown_sees "Device Status")| |].
  2: { intros e os [[_ (? & ? & _)]|(? & _ & ? & _)]; done. }
  intros m os Hos. eapply sees_bind; [apply wait_sees| |by intros ? ? [? _]]. intros [] ? [_ ->].
  destruct Hos as [[Hos (m' & [= <-] & Hm)]|(hs & -> & [= ->] & Hhs)].
  { rewrite Hm. apply sees_done. rewrite !app_nil_r. split; [|eauto].
    apply tool_refuses; [by destruct Hos as [->| ->]|right; by destruct Hos as [->| ->]]. }
  rewrite device_status_member, recovery_mode_name by by apply at_word.
  destruct (Z.eqb_spec (at_ hs 1) RecoveryMode) as [Hmode|Hmode]; cbn [negb].
  2: { apply sees_done. rewrite !app_nil_r. split; [|eauto]. by apply tool_refuses; auto. }
  eapply sees_bind; [by apply (shown_sees "Device Recovery Status")| |].
  2: { intros e os [[_ (? & ? & _)]|(? & _ & ? & _)]; done. }
  intros m os Hos. eapply sees_bind; [apply wait_sees| |by intros ? ? [? _]]. intros [] ? [_ ->].
  destruct Hos as [[Hos (m' & [= <-] & Hm)]|(hr & -> & [= ->] & Hhr)].
  { rewrite Hm. apply sees_done. rewrite !app_nil_r. cbn [app]. split; [|eauto].
    destruct Hos as [->| ->]; (apply tool_refuses; [repeat constructor; eauto|by right]). }
  rewrite recovery_status_member, awaiting_name by apply recovery_status_word.
  set (before := [Took [DeviceStatusCmd] (Some hs); Took [RecoveryStatusCmd] (Some hr)]).
  assert (Hb : Forall (λ o, ∃ c b, o = Took c b) before) by (repeat constructor; eauto).
  assert (Hstate : state_of before = if recovery_status_of hr =? AwaitingRecoveryImg then InRecoveryMode else UnknownState).
  { change (classify (at_ hs 1) (recovery_status_of hr) =
      if recovery_status_of hr =? AwaitingRecoveryImg then InRecoveryMode else UnknownState).
    unfold classify. by rewrite Hmode. }
  destruct (recovery_status_of hr =? AwaitingRecoveryImg); cbn [negb].
  2: { apply sees_done. cbn [app]. split; [|eauto]. apply (tool_refuses _ _ before); [done|right; by rewrite Hstate]. }
  eapply sees_bind; [by apply command_sees| |by intros e os ((x & ?) & _)].
  intros r os (_ & Hg & _). apply sees_done. rewrite !app_nil_r. cbn [app].
  split; [|eauto]. eexists _, before, os. split_and!; [done|done|done|].
  rewrite decide_True by done. eexists. split; [exact Hg|].
  destruct r as [[]|what]; [done|apply failed_answers].
Qed.
End Tool.

(** ** A status read back *)

(** The register of a device: its length, the status, the protocol error, the reason,
    the heartbeat, and the status of the vendor with its length. *)
Definition encode_status (status protocolError reason heartbeat : Z) (vendor : buffer) : buffer :=
  24 :: status :: protocolError :: reason mod 256 :: reason / 256 :: heartbeat mod 256 :: heartbeat / 256 ::
  Z.of_nat (length vendor) :: vendor.

Lemma pair_little hi lo : word 8 hi → word 8 lo → (hi ≪ 8) .| lo = hi * 256 + lo.
Proof.
  intros Hhi Hlo. unfold word in *. pose proof (land_shiftl_low hi lo 8 ltac:(lia) ltac:(lia)) as Hl.
  rewrite <- Z.lxor_lor, <- Z.add_nocarry_lxor by done. rewrite Z.shiftl_mul_pow2 by lia. lia.
Qed.

Definition hex_text (bytes : buffer) : string := String.concat "" ((λ b, format_hex 2 b +:+ " ")%string <$> bytes).

Section Status.
Context (status protocolError reason heartbeat : Z) (vendor : buffer).
Context (Hs : word 8 status) (Hp : word 8 protocolError) (Hr : word 16 reason) (Hh : word 16 heartbeat).
Context (Hv : bytes_ok vendor) (Hl : (length vendor ≤ 17)%nat).
#[local] Abbreviation encoded := (encode_status status protocolError reason heartbeat vendor).

Lemma halves v : word 16 v → word 8 (v / 256) ∧ word 8 (v mod 256) ∧ v / 256 * 256 + v mod 256 = v.
Proof.
  unfold word. intros Hv'. pose proof (Z.mod_pos_bound v 256 eq_refl). pose proof (Z.div_mod v 256).
  split_and!; lia.
Qed.

Lemma encoded_ok : bytes_ok encoded.
Proof.
  destruct (halves _ Hr) as (? & ? & _), (halves _ Hh) as (? & ? & _). unfold encode_status.
  unfold bytes_ok in *. rewrite !Forall_cons. unfold word in *. split_and!; try done; lia.
Qed.

Lemma encoded_read :
  fill DeviceStatusResLen encoded = encoded ++ replicate (17 - length vendor) 0.
Proof.
  rewrite fill_short; [|cbn [encode_status length]; change (Z.to_nat DeviceStatusResLen) with 25%nat; lia|apply encoded_ok].
  done.
Qed.

Lemma encoded_pairs :
  pair_at (fill DeviceStatusResLen encoded) 4 3 = reason ∧ pair_at (fill DeviceStatusResLen encoded) 6 5 = heartbeat.
Proof.
  rewrite encoded_read. destruct (halves _ Hr) as (? & ? & Hr'), (halves _ Hh) as (? & ? & Hh').
  unfold pair_at, at_. cbn [encode_status app nth]. by rewrite !pair_little.
Qed.

Lemma encoded_vendor : vendor_status (fill DeviceStatusResLen encoded) = hex_text vendor.
Proof.
  rewrite encoded_read. unfold vendor_status, at_, hex_text. cbn [encode_status app nth drop length].
  rewrite length_app, length_replicate, Nat2Z.id, Nat.min_l by lia. by rewrite drop_0, take_app_length.
Qed.

(** What a device encodes in its register is what the service and the tool decode: a
    status with a vendor part of at most the 17 bytes that the read has room for. *)
Theorem status_read_back :
  let hexData := fill DeviceStatusResLen encoded in
  status_of hexData = mkDeviceStatus status reason protocolError ∧
  members_find (device_status hexData) "Device Status" = Some (JString (deviceStatusToStr status)) ∧
  members_find (device_status hexData) "Protocol Error" = Some (JString (protocolErrorToStr protocolError)) ∧
  members_find (device_status hexData) "Recovery Reason Codes" = Some (JString (recoveryReasonCodeToStr reason)) ∧
  members_find (device_status hexData) "Heartbeat" = Some (JInteger heartbeat) ∧
  members_find (device_status hexData) "Vendor Status Length" = Some (JInteger (Z.of_nat (length vendor))) ∧
  members_find (device_status hexData) "Vendor Status(in hex)" =
    (if bool_decide (vendor = []) then None else Some (JString (hex_text vendor))).
Proof.
  intros hexData. destruct encoded_pairs as [Hreason Hheart]. pose proof encoded_vendor as Hvendor.
  assert (Hbytes : at_ hexData 1 = status ∧ at_ hexData 2 = protocolError ∧ at_ hexData 7 = Z.of_nat (length vendor)).
  { unfold hexData. by rewrite encoded_read. }
  destruct Hbytes as (Hst & Hpe & Hlen). fold hexData in Hreason, Hheart, Hvendor. clearbody hexData.
  unfold status_of, device_status, members_of. rewrite Hreason, Hheart, Hlen, Hst, Hpe, Hvendor.
  destruct vendor as [|b l]; [|rewrite (proj2 (Z.ltb_lt 0 _)) by (cbn; lia)];
    cbn [length Z.of_nat Z.ltb Z.compare app foldl fst snd bool_decide]; split_and!; try done; by find_members.
Qed.
End Status.
