(* ===== verification/OcpExample.v ===== *)
(** * A bench for the OCP recovery

    Environments on which the programs of src/recovery_tool/ocp_recovery_tool run:
    two devices on two buses that take their images, a device that stays in recovery,
    and one that loses an acknowledgement. *)

From stdpp Require Import list strings.
From S2P Require Import Prelude Json Bytes Text Trace Registry Threads OcpIo OcpCommands OcpTool OcpRecovery OcpSeen OcpImage OcpOutcome OcpStatus.

#[local] Open Scope Z_scope.

(** The state of the bench: how many images each of the two devices has activated, and
    how often a device was polled. [boots] says whether a device comes up; the first
    [deaf] polls are not acknowledged. *)
Record Bench := mkBench { first : Z; second : Z; polls : Z }.

Section Bench.
Context (boots : bool) (deaf : Z).

Definition activations (fd : Z) (b : Bench) : Z := if fd =? 1 then first b else second b.

Definition bench_image : buffer := replicate 300 0.

Definition bench_register (fd : Z) (command : buffer) (b : Bench) : buffer :=
  let up := boots && (activations fd b =? 4) in
  match command with
  | [0x24] => [24; if up then 5 else 3; 0; 0; 0]
  | [0x27] => [2; if up then 2 else 1; 0]
  | _ => [6; if polls b <? deaf then 0 else 4]
  end.

Definition bench_reply (b : Bench) (c : Call) : reply c :=
  match c with
  | OpenDevice path => Some (if decide (path = "/dev/i2c-1") then 1 else 2)
  | I2cWrite _ _ _ => true
  | I2cRead fd _ command _ => Some (bench_register fd command b)
  | PathExists _ | IsDirectory _ | IsRegularFile _ => Ok true
  | ListDirectory _ path => Ok [path_append path "image.bin"]
  | ReadFile _ => Some bench_image
  | WriteFile _ _ => true
  | ConnectBus => Ok ()
  | GetManagedObjects => Ok [("/inventory/GPU_1", [(ocpObjInterface, [])]); ("/inventory/Fan", [("Fan", [])]);
                             ("/inventory/GPU_2", [("Other", []); (ocpObjInterface, [])])]%string
  | GetString _ _ => Throw "no such property"%string
  | GetUint64 path _ property =>
      Ok (if decide (property = "I2CAddress") then 0x69
          else if decide (path = "/inventory/GPU_1") then 1 else 2)
  | CloseFd _ | SleepSec _ | CreateEntry _ | PrintJson _ | LogProgress _ _ _ _ _ => ()
  end%string.

Definition bench_step (c : Call) (b : Bench) : Bench :=
  match c with
  | I2cWrite fd _ [0x26; _; _; _; 0xF] =>
      if fd =? 1 then mkBench (first b + 1) (second b) (polls b) else mkBench (first b) (second b + 1) (polls b)
  | I2cRead _ _ [0x2A] _ => mkBench (first b) (second b) (polls b + 1)
  | _ => b
  end.

Definition bench_env : OcpEnv := {| env_state := Bench; respond := λ c b, (bench_reply b c, bench_step c b) |}.
End Bench.

Definition bench_start : Bench := mkBench 0 0 0.

Definition bench_run {A} (boots : bool) (deaf : Z) (p : P A) : list event * res string A * Bench :=
  let env := bench_env boots deaf in exec p bench_start.

Lemma bench_chunk : (0 < 252 ≤ 252)%nat.
Proof. lia. Qed.

Definition bench_opts : CommandOptions := mkOptions "/images" false.
Definition bench_paths : list string :=
  ["/images/FSP/image.bin"; "/images/INFO/image.bin"; "/images/OOB/image.bin"; "/images/RT/image.bin"]%string.
Definition bench_targets : list DeviceRecoveryTarget := [mkTarget "GPU_1" 1 0x69; mkTarget "GPU_2" 2 0x69].
Definition bench_device : Device := mkDevice 1 0x69 false.

(** Both devices in turn. *)
Definition bench_schedule : list nat := concat (replicate 200 [0; 1]%nat).

Definition bench_prepare : P (Z + list string * list DeviceRecoveryTarget) :=
  prepare "FSP" "INFO" "OOB" "RT" bench_opts.
Definition bench_main (env : OcpEnv) (e : env_state) : list event * list (nat * event) * option Z :=
  main 252 64 "FSP" "INFO" "OOB" "RT" bench_opts bench_schedule e.

Lemma bench_prepared :
  bench_run true 0 bench_prepare =
  ((bench_run true 0 bench_prepare).1.1, Ok (inr (bench_paths, bench_targets)), (bench_run true 0 bench_prepare).2).
Proof. by vm_compute. Qed.

Example ocp_recovers :
  let env := bench_env true 0 in (bench_main env bench_start).2 = Some 0.
Proof. by vm_compute. Qed.

(** A device that takes its images and stays in recovery: the recovery fails, and no
    error is logged. *)
Example failure_untold :
  let '(es, r, _) := bench_run false 0 (performRecovery 252 64 bench_device "GPU_1" bench_paths) in
  r = Ok FAILURE ∧ critical (seen es) = false ∧ entries (seen es) = message "GPU_1" recoveryStarted.
Proof. by vm_compute. Qed.

(** An acknowledgement that does not come in time: the chunk is sent again, and the
    window that is activated has it twice. *)
Example chunk_repeated :
  let '(es, r, _) := bench_run true 5 (performRecoveryCommand 252 64 bench_device ["/images/FSP/image.bin"%string]) in
  r = Ok (Ok ()) ∧
  (λ fed, length (concat fed)) <$> activated (delivered blank (seen es)) = [length bench_image + 252]%nat.
Proof. by vm_compute. Qed.

(** ** Witnesses *)

Lemma images_delivered_witness :
  sees (performRecoveryCommand 252 64 bench_device bench_paths) (λ r os,
    let got := activated (delivered blank os) in
    (loaded os).*1 `prefix_of` bench_paths ∧
    Forall2 (λ image fed, stutter (chunks 252 image) fed) (take (length got) (loaded os).*2) got ∧
    (all_ok r = true →
      (loaded os).*1 = bench_paths ∧ length got = length bench_paths ∧
      (packets os = acks os → (λ fed, concat fed) <$> got = (loaded os).*2))).
Proof. apply (images_delivered 252 64 bench_device bench_chunk bench_paths). Defined.

Lemma transfers_bounded_witness :
  sees (performRecoveryCommand 252 64 bench_device bench_paths) (λ r os,
    (length (images os) ≤ length bench_paths)%nat ∧
    (transfers os ≤ total (max_transfers 252) (images os))%nat).
Proof. apply (transfers_bounded 252 64 bench_device bench_chunk bench_paths). Defined.

Lemma failure_reported_witness :
  sees (performRecovery 252 64 bench_device "GPU_1" bench_paths) (λ r os,
    r = Ok FAILURE →
    critical os = true ∨
    ∃ before transfer after, os = before ++ transfer ++ after ∧ given 252 bench_paths true transfer ∧
      untold (reading after)).
Proof. apply (failure_reported 252 64 bench_device "GPU_1" bench_chunk bench_paths). Defined.

Lemma service_answers_witness :
  let env := bench_env true 0 in
  ∃ failed : list bool,
    length failed = length bench_targets ∧ 0 = (if forallb negb failed then 0 else 1) ∧
    ∀ i target f, bench_targets !! i = Some target → failed !! i = Some f →
      device_outcome 252 bench_paths false target f (seen (project i (bench_main env bench_start).1.2)).
Proof.
  intros env.
  apply (service_answers (env := env) 252 64 bench_chunk "FSP" "INFO" "OOB" "RT" bench_opts bench_schedule bench_start
    (bench_run true 0 bench_prepare).1.1 bench_paths bench_targets (bench_run true 0 bench_prepare).2).
  - exact bench_prepared.
  - by vm_compute.
Defined.

Lemma devices_isolated_witness :
  let env := bench_env true 0 in
  ∃ open, run (bus_step (device_of (mkTarget "GPU_2" 2 0x69) false)) None
    (project 1 (bench_main env bench_start).1.2) = Some open ∧ (is_Some (bench_main env bench_start).2 → open = None).
Proof.
  intros env.
  apply (devices_isolated (env := env) 252 64 "FSP" "INFO" "OOB" "RT" bench_opts bench_schedule bench_start
    (bench_run true 0 bench_prepare).1.1 bench_paths bench_targets (bench_run true 0 bench_prepare).2).
  - exact bench_prepared.
  - by vm_compute.
  - reflexivity.
Defined.

Lemma turns_fair : fair 2 (λ m, Nat.modulo m 2).
Proof.
  intros i m Hi. exists (2 * m + i)%nat. split; [lia|].
  rewrite Nat.add_comm, Nat.mul_comm, Nat.Div0.mod_add. by apply Nat.mod_small.
Qed.

Lemma service_ends_witness :
  let env := bench_env true 0 in
  ∃ m, ∀ m', (m ≤ m')%nat → ∃ tr code,
    main 252 64 "FSP" "INFO" "OOB" "RT" bench_opts ((λ m, Nat.modulo m 2) <$> seq 0 m') bench_start =
    ((bench_run true 0 bench_prepare).1.1, tr, Some code) ∧
    ∀ i target, bench_targets !! i = Some target →
      let os := seen (project i tr) in
      (loaded os).*1 `prefix_of` bench_paths ∧
      (transfers os ≤ 7 + total (λ image, 3 + 18 * length (chunks 252 image)) (loaded os).*2)%nat.
Proof.
  intros env.
  apply (service_ends (env := env) 252 64 bench_chunk "FSP" "INFO" "OOB" "RT" bench_opts bench_start
    (bench_run true 0 bench_prepare).1.1 bench_paths bench_targets (bench_run true 0 bench_prepare).2).
  - exact bench_prepared.
  - exact turns_fair.
Defined.

Lemma tool_agrees_witness :
  sees (OcpTool.performRecovery 252 64 bench_device bench_paths) (tool_ran 252 bench_paths).
Proof. apply (tool_agrees 252 64 bench_device bench_chunk bench_paths). Defined.

Lemma status_read_back_witness :
  let hexData := fill DeviceStatusResLen (encode_status 3 0 0x11 0x1234 [0xAB; 0x01]) in
  status_of hexData = mkDeviceStatus 3 0x11 0 ∧
  members_find (device_status hexData) "Device Status" = Some (JString (deviceStatusToStr 3)) ∧
  members_find (device_status hexData) "Protocol Error" = Some (JString (protocolErrorToStr 0)) ∧
  members_find (device_status hexData) "Recovery Reason Codes" = Some (JString (recoveryReasonCodeToStr 0x11)) ∧
  members_find (device_status hexData) "Heartbeat" = Some (JInteger 0x1234) ∧
  members_find (device_status hexData) "Vendor Status Length" = Some (JInteger 2) ∧
  members_find (device_status hexData) "Vendor Status(in hex)" = Some (JString "AB 01 ").
Proof.
  apply (status_read_back 3 0 0x11 0x1234 [0xAB; 0x01]); try (split; lia).
  - repeat constructor; lia.
  - cbn. lia.
Defined.
