(* ===== verification/Crc32.v ===== *)
(** * The checksum of the Glacier recovery protocol

    The 32-bit CRC of src/recovery_tool/glacier_recovery_tool/glacier_recovery_commands.cpp,
    computed with a table; that it is the CRC of the polynomial of IEEE 802.3, one
    bit at a time; and that it tells apart two messages that differ in one byte. *)

From stdpp Require Import list.
From S2P Require Import Prelude Bytes.

#[local] Open Scope Z_scope.

(** [recovery_tool/glacier_recovery_tool/glacier_recovery_commands.cpp:21-64 crc32_tab] *)
Definition crc32_tab : list Z :=
  [0x00000000; 0x77073096; 0xee0e612c; 0x990951ba; 0x076dc419; 0x706af48f;
   0xe963a535; 0x9e6495a3; 0x0edb8832; 0x79dcb8a4; 0xe0d5e91e; 0x97d2d988;
   0x09b64c2b; 0x7eb17cbd; 0xe7b82d07; 0x90bf1d91; 0x1db71064; 0x6ab020f2;
   0xf3b97148; 0x84be41de; 0x1adad47d; 0x6ddde4eb; 0xf4d4b551; 0x83d385c7;
   0x136c9856; 0x646ba8c0; 0xfd62f97a; 0x8a65c9ec; 0x14015c4f; 0x63066cd9;
   0xfa0f3d63; 0x8d080df5; 0x3b6e20c8; 0x4c69105e; 0xd56041e4; 0xa2677172;
   0x3c03e4d1; 0x4b04d447; 0xd20d85fd; 0xa50ab56b; 0x35b5a8fa; 0x42b2986c;
   0xdbbbc9d6; 0xacbcf940; 0x32d86ce3; 0x45df5c75; 0xdcd60dcf; 0xabd13d59;
   0x26d930ac; 0x51de003a; 0xc8d75180; 0xbfd06116; 0x21b4f4b5; 0x56b3c423;
   0xcfba9599; 0xb8bda50f; 0x2802b89e; 0x5f058808; 0xc60cd9b2; 0xb10be924;
   0x2f6f7c87; 0x58684c11; 0xc1611dab; 0xb6662d3d; 0x76dc4190; 0x01db7106;
   0x98d220bc; 0xefd5102a; 0x71b18589; 0x06b6b51f; 0x9fbfe4a5; 0xe8b8d433;
   0x7807c9a2; 0x0f00f934; 0x9609a88e; 0xe10e9818; 0x7f6a0dbb; 0x086d3d2d;
   0x91646c97; 0xe6635c01; 0x6b6b51f4; 0x1c6c6162; 0x856530d8; 0xf262004e;
   0x6c0695ed; 0x1b01a57b; 0x8208f4c1; 0xf50fc457; 0x65b0d9c6; 0x12b7e950;
   0x8bbeb8ea; 0xfcb9887c; 0x62dd1ddf; 0x15da2d49; 0x8cd37cf3; 0xfbd44c65;
   0x4db26158; 0x3ab551ce; 0xa3bc0074; 0xd4bb30e2; 0x4adfa541; 0x3dd895d7;
   0xa4d1c46d; 0xd3d6f4fb; 0x4369e96a; 0x346ed9fc; 0xad678846; 0xda60b8d0;
   0x44042d73; 0x33031de5; 0xaa0a4c5f; 0xdd0d7cc9; 0x5005713c; 0x270241aa;
   0xbe0b1010; 0xc90c2086; 0x5768b525; 0x206f85b3; 0xb966d409; 0xce61e49f;
   0x5edef90e; 0x29d9c998; 0xb0d09822; 0xc7d7a8b4; 0x59b33d17; 0x2eb40d81;
   0xb7bd5c3b; 0xc0ba6cad; 0xedb88320; 0x9abfb3b6; 0x03b6e20c; 0x74b1d29a;
   0xead54739; 0x9dd277af; 0x04db2615; 0x73dc1683; 0xe3630b12; 0x94643b84;
   0x0d6d6a3e; 0x7a6a5aa8; 0xe40ecf0b; 0x9309ff9d; 0x0a00ae27; 0x7d079eb1;
   0xf00f9344; 0x8708a3d2; 0x1e01f268; 0x6906c2fe; 0xf762575d; 0x806567cb;
   0x196c3671; 0x6e6b06e7; 0xfed41b76; 0x89d32be0; 0x10da7a5a; 0x67dd4acc;
   0xf9b9df6f; 0x8ebeeff9; 0x17b7be43; 0x60b08ed5; 0xd6d6a3e8; 0xa1d1937e;
   0x38d8c2c4; 0x4fdff252; 0xd1bb67f1; 0xa6bc5767; 0x3fb506dd; 0x48b2364b;
   0xd80d2bda; 0xaf0a1b4c; 0x36034af6; 0x41047a60; 0xdf60efc3; 0xa867df55;
   0x316e8eef; 0x4669be79; 0xcb61b38c; 0xbc66831a; 0x256fd2a0; 0x5268e236;
   0xcc0c7795; 0xbb0b4703; 0x220216b9; 0x5505262f; 0xc5ba3bbe; 0xb2bd0b28;
   0x2bb45a92; 0x5cb36a04; 0xc2d7ffa7; 0xb5d0cf31; 0x2cd99e8b; 0x5bdeae1d;
   0x9b64c2b0; 0xec63f226; 0x756aa39c; 0x026d930a; 0x9c0906a9; 0xeb0e363f;
   0x72076785; 0x05005713; 0x95bf4a82; 0xe2b87a14; 0x7bb12bae; 0x0cb61b38;
   0x92d28e9b; 0xe5d5be0d; 0x7cdcefb7; 0x0bdbdf21; 0x86d3d2d4; 0xf1d4e242;
   0x68ddb3f8; 0x1fda836e; 0x81be16cd; 0xf6b9265b; 0x6fb077e1; 0x18b74777;
   0x88085ae6; 0xff0f6a70; 0x66063bca; 0x11010b5c; 0x8f659eff; 0xf862ae69;
   0x616bffd3; 0x166ccf45; 0xa00ae278; 0xd70dd2ee; 0x4e048354; 0x3903b3c2;
   0xa7672661; 0xd06016f7; 0x4969474d; 0x3e6e77db; 0xaed16a4a; 0xd9d65adc;
   0x40df0b66; 0x37d83bf0; 0xa9bcae53; 0xdebb9ec5; 0x47b2cf7f; 0x30b5ffe9;
   0xbdbdf21c; 0xcabac28a; 0x53b39330; 0x24b4a3a6; 0xbad03605; 0xcdd70693;
   0x54de5729; 0x23d967bf; 0xb3667a2e; 0xc4614ab8; 0x5d681b02; 0x2a6f2b94;
   0xb40bbe37; 0xc30c8ea1; 0x5a05df1b; 0x2d02ef8d].

(** [recovery_tool/glacier_recovery_tool/glacier_recovery_commands.cpp:70-71 crc32]
    One byte: [crc32_tab[(crc ^ *p++) & 0xff] ^ (crc >> 8)]. *)
Definition crc32_byte (crc b : Z) : Z := Z.lxor (nth (Z.to_nat (Z.lxor crc b .& 0xff)) crc32_tab 0) (crc ≫ 8).

(** [~0U] *)
Definition ones32 : Z := 0xffffffff.

(** [recovery_tool/glacier_recovery_tool/glacier_recovery_commands.cpp:66-73 crc32] *)
Definition crc32 (data : buffer) : Z := Z.lxor (foldl crc32_byte ones32 data) ones32.

(** The check value of the algorithm: the CRC of the digits 1 to 9. *)
Example crc32_check : crc32 [0x31; 0x32; 0x33; 0x34; 0x35; 0x36; 0x37; 0x38; 0x39] = 0xcbf43926.
Proof. vm_compute. reflexivity. Qed.

(** ** One bit at a time *)

(** The polynomial, its bits reversed. *)
Definition polynomial : Z := 0xedb88320.

(** The register, shifted by one bit. *)
Definition crc_bit (crc : Z) : Z :=
  Z.lxor (crc ≫ 1) (if Z.odd crc then polynomial else 0).

Definition crc_bits (n : nat) (crc : Z) : Z := Nat.iter n crc_bit crc.

Definition crc32_bitwise (data : buffer) : Z :=
  Z.lxor (foldl (λ crc b, crc_bits 8 (Z.lxor crc b)) ones32 data) ones32.

Lemma odd_lxor a b : Z.odd (Z.lxor a b) = xorb (Z.odd a) (Z.odd b).
Proof. rewrite <- !Z.bit0_odd. apply Z.lxor_spec. Qed.

Lemma crc_bit_lxor a b : crc_bit (Z.lxor a b) = Z.lxor (crc_bit a) (crc_bit b).
Proof.
  unfold crc_bit. rewrite Z.shiftr_lxor, odd_lxor. apply Z.bits_inj'. intros n Hn.
  rewrite !Z.lxor_spec. destruct (Z.odd a), (Z.odd b); cbn [xorb]; rewrite ?Z.bits_0;
    by repeat destruct (Z.testbit _ _).
Qed.

Lemma crc_bits_lxor n a b : crc_bits n (Z.lxor a b) = Z.lxor (crc_bits n a) (crc_bits n b).
Proof.
  induction n as [|n IH]; [done|]. change (crc_bits (S n) ?v) with (crc_bit (crc_bits n v)).
  by rewrite IH, crc_bit_lxor.
Qed.

Lemma crc_bits_add m n v : crc_bits (m + n) v = crc_bits m (crc_bits n v).
Proof. apply Nat.iter_add. Qed.

Lemma crc_bit_even v : crc_bit (2 * v) = v.
Proof.
  unfold crc_bit. rewrite Z.odd_mul. cbn [Z.odd andb]. rewrite Z.lxor_0_r, Z.shiftr_div_pow2 by lia.
  change (2 ^ 1) with 2. rewrite Z.mul_comm. by apply Z.div_mul.
Qed.

Lemma crc_bits_high n v : crc_bits n (2 ^ Z.of_nat n * v) = v.
Proof.
  revert v. induction n as [|n IH]; intros v; [unfold crc_bits; cbn; lia|].
  unfold crc_bits in *. rewrite Nat.iter_succ_r.
  replace (2 ^ Z.of_nat (S n) * v) with (2 * (2 ^ Z.of_nat n * v)) by (rewrite Nat2Z.inj_succ, Z.pow_succ_r by lia; lia).
  by rewrite crc_bit_even.
Qed.

(** The table holds what the eight shifts do to a byte. *)
Lemma tab_bits i : word 8 i → nth (Z.to_nat i) crc32_tab 0 = crc_bits 8 i.
Proof.
  intros Hi. apply Z.eqb_eq.
  apply (word_check (λ i, nth (Z.to_nat i) crc32_tab 0 =? crc_bits 8 i) 8); [lia|by vm_compute|done].
Qed.

(** The low byte of a value and the rest. *)
Lemma low_byte v : v = Z.lxor (v .& 0xff) (2 ^ Z.of_nat 8 * (v ≫ 8)).
Proof.
  change (2 ^ Z.of_nat 8) with (2 ^ 8). rewrite (Z.mul_comm (2 ^ 8)), <- Z.shiftl_mul_pow2 by lia.
  apply Z.bits_inj'. intros n Hn. rewrite Z.lxor_spec, Z.land_spec, Z.shiftl_spec by done.
  change 0xff with (Z.ones 8). rewrite Z.testbit_ones_nonneg by lia.
  destruct (Z.ltb_spec n 8).
  - rewrite (Z.testbit_neg_r _ (n - 8)) by lia. by rewrite andb_true_r, xorb_false_r.
  - rewrite Z.shiftr_spec by lia. replace (n - 8 + 8) with n by lia. by rewrite andb_false_r.
Qed.

Lemma byte_land v : word 8 (v .& 0xff).
Proof. by apply (land_ones_word 8). Qed.

Lemma byte_high b : word 8 b → b ≫ 8 = 0.
Proof. intros Hb. unfold word in Hb. rewrite Z.shiftr_div_pow2 by lia. by apply Z.div_small. Qed.

Lemma crc32_byte_bits crc b : word 8 b → crc32_byte crc b = crc_bits 8 (Z.lxor crc b).
Proof.
  intros Hb. unfold crc32_byte. rewrite tab_bits by apply byte_land.
  rewrite (low_byte (Z.lxor crc b)) at 2. rewrite crc_bits_lxor, crc_bits_high. f_equal.
  by rewrite Z.shiftr_lxor, (byte_high b), Z.lxor_0_r.
Qed.

(** The register after a message, bit by bit. *)
Lemma crc32_register_bits data crc :
  bytes_ok data → foldl crc32_byte crc data = foldl (λ crc b, crc_bits 8 (Z.lxor crc b)) crc data.
Proof.
  intros Hd. revert crc. induction Hd as [|b l Hb Hl IH]; intros crc; [done|]. cbn [foldl]. by rewrite crc32_byte_bits.
Qed.

(** C19: The table computes the CRC of the polynomial. *)
Theorem crc32_is_bitwise data : bytes_ok data → crc32 data = crc32_bitwise data.
Proof. intros Hd. unfold crc32, crc32_bitwise. by rewrite crc32_register_bits. Qed.

(** ** Errors that are detected *)

Lemma lxor_word w a b : 0 ≤ w → word w a → word w b → word w (Z.lxor a b).
Proof.
  unfold word. intros Hw Ha Hb. assert (0 ≤ Z.lxor a b) as H0 by (apply Z.lxor_nonneg; lia).
  split; [done|]. destruct (Z.eq_dec (Z.lxor a b) 0) as [->|Hne]; [apply Z.pow_pos_nonneg; lia|].
  apply Z.log2_lt_pow2; [lia|]. eapply Z.le_lt_trans; [apply Z.log2_lxor; lia|].
  assert (∀ v, 0 ≤ v < 2 ^ w → v = 0 ∨ Z.log2 v < w) as Hl.
  { intros v Hv. destruct (Z.eq_dec v 0); [by left|right; apply Z.log2_lt_pow2; lia]. }
  pose proof (Z.log2_nonneg a). pose proof (Z.log2_nonneg b). pose proof (eq_refl (Z.log2 0) : Z.log2 0 = 0).
  destruct (Hl a Ha) as [->|], (Hl b Hb) as [->|]; rewrite ?Z.lxor_0_l, ?Z.lxor_0_r in Hne; try done; lia.
Qed.

Lemma crc_bit_word v : word 32 v → word 32 (crc_bit v).
Proof.
  intros Hv. unfold crc_bit. apply lxor_word; [lia| |destruct (Z.odd v); by vm_compute].
  unfold word in *. rewrite Z.shiftr_div_pow2 by lia. change (2 ^ 1) with 2.
  pose proof (Z.div_le_upper_bound v 2 v). pose proof (Z.div_pos v 2). lia.
Qed.

(** No register but zero is shifted to zero. *)
Lemma crc_bit_zero v : word 32 v → crc_bit v = 0 → v = 0.
Proof.
  unfold crc_bit, word. intros Hv He%Z.lxor_eq. rewrite Z.shiftr_div_pow2 in He by lia.
  change (2 ^ 1) with 2 in He. pose proof (Z.div_mod v 2). pose proof (Zmod_odd v) as Hm.
  destruct (Z.odd v); [|lia]. assert (v / 2 < 2 ^ 31) by (apply Z.div_lt_upper_bound; lia).
  unfold polynomial in He. lia.
Qed.

Lemma crc_bits_word n v : word 32 v → word 32 (crc_bits n v).
Proof. intros Hv. induction n as [|n IH]; [done|]. by apply crc_bit_word. Qed.

Lemma crc_bits_inj n a b : word 32 a → word 32 b → crc_bits n a = crc_bits n b → a = b.
Proof.
  intros Ha Hb He. apply Z.lxor_eq.
  assert (Hx : word 32 (Z.lxor a b)) by (apply lxor_word; [lia|done..]).
  assert (H0 : crc_bits n (Z.lxor a b) = 0) by (rewrite crc_bits_lxor, He; apply Z.lxor_nilpotent).
  clear He Ha Hb. revert H0. generalize (Z.lxor a b) Hx. clear a b Hx.
  induction n as [|n IH]; intros v Hv H0; [done|]. apply IH; [done|].
  apply crc_bit_zero; [by apply crc_bits_word|done].
Qed.

(** Some bytes at once. *)
Lemma crc32_bytes l crc :
  bytes_ok l → foldl crc32_byte crc l = crc_bits (8 * length l) (Z.lxor crc (le_decode l)).
Proof.
  intros Hl. revert crc. induction Hl as [|b l Hb Hl IH]; intros crc; [by rewrite Z.lxor_0_r|].
  cbn [foldl le_decode]. rewrite IH, crc32_byte_bits by done.
  replace (8 * length (b :: l))%nat with (8 * length l + 8)%nat by (cbn [length]; lia).
  rewrite crc_bits_add. f_equal.
  replace (b + 256 * le_decode l) with (Z.lxor b (2 ^ Z.of_nat 8 * le_decode l)).
  - by rewrite <- Z.lxor_assoc, (crc_bits_lxor 8 (Z.lxor crc b)), crc_bits_high.
  - change (2 ^ Z.of_nat 8) with 256. rewrite <- Z.add_nocarry_lxor; [done|].
    apply Z.bits_inj'. intros n Hn. rewrite Z.land_spec, Z.bits_0.
    change 256 with (2 ^ 8). rewrite (Z.mul_comm (2 ^ 8)), <- Z.shiftl_mul_pow2, Z.shiftl_spec by lia.
    destruct (Z.ltb_spec n 8); [rewrite (Z.testbit_neg_r _ (n - 8)) by lia; apply andb_false_r|].
    unfold word in Hb. rewrite Z.bits_above_log2; [done|lia|].
    destruct (Z.eq_dec b 0) as [->|]; [cbn; lia|]. apply Z.log2_lt_pow2; [lia|].
    assert (2 ^ 8 ≤ 2 ^ n) by (apply Z.pow_le_mono_r; lia). lia.
Qed.

Lemma crc32_register l crc : bytes_ok l → word 32 crc → word 32 (foldl crc32_byte crc l).
Proof.
  intros Hl. revert crc. induction Hl as [|b l Hb Hl IH]; intros crc Hc; [done|]. cbn [foldl]. apply IH.
  rewrite crc32_byte_bits by done. apply crc_bits_word, lxor_word; [lia|done|by eapply word_mono; [|exact Hb]].
Qed.

Lemma crc32_word data : bytes_ok data → word 32 (crc32 data).
Proof. intros Hd. apply lxor_word; [lia| |by vm_compute]. by apply crc32_register. Qed.

(** The same bytes after two registers tell them apart. *)
Lemma crc32_after l a b :
  bytes_ok l → word 32 a → word 32 b → foldl crc32_byte a l = foldl crc32_byte b l → a = b.
Proof.
  intros Hl. revert a b. induction Hl as [|x l Hx Hl IH]; intros a b Ha Hb He; [done|]. cbn [foldl] in He.
  assert (Hw : ∀ v, word 32 v → word 32 (Z.lxor v x)).
  { intros v Hv. apply lxor_word; [lia|done|by eapply word_mono; [|exact Hx]]. }
  apply IH in He; rewrite ?crc32_byte_bits in * by done; try by apply crc_bits_word, Hw.
  apply crc_bits_inj in He; [|by apply Hw..].
  apply (f_equal (λ v, Z.lxor v x)) in He. by rewrite !Z.lxor_assoc, !Z.lxor_nilpotent, !Z.lxor_0_r in He.
Qed.

(** Two messages that differ in at most four bytes in a row have different checksums. *)
Lemma crc32_detects before burst burst' after :
  bytes_ok before → bytes_ok burst → bytes_ok burst' → bytes_ok after →
  length burst = length burst' → (length burst ≤ 4)%nat →
  crc32 (before ++ burst ++ after) = crc32 (before ++ burst' ++ after) → burst = burst'.
Proof.
  intros Hb Hm Hm' Ha Hl H4 He. unfold crc32 in He.
  apply (f_equal (λ v, Z.lxor v ones32)) in He.
  rewrite !Z.lxor_assoc, !Z.lxor_nilpotent, !Z.lxor_0_r, !foldl_app in He.
  assert (Hr : word 32 (foldl crc32_byte ones32 before)) by by apply crc32_register.
  apply crc32_after in He; [|done|by apply crc32_register..].
  revert He Hr. generalize (foldl crc32_byte ones32 before). intros crc He Hr.
  rewrite !crc32_bytes, Hl in He by done.
  assert (Hx : ∀ l, bytes_ok l → (length l ≤ 4)%nat → word 32 (Z.lxor crc (le_decode l))).
  { intros l Ho H. apply lxor_word; [lia|done|]. eapply word_mono; [|by apply le_decode_word]. lia. }
  apply crc_bits_inj in He; [|apply Hx; [done|lia]..].
  assert (Hd : le_decode burst = le_decode burst').
  { apply (f_equal (Z.lxor crc)) in He.
    by rewrite <- !Z.lxor_assoc, !Z.lxor_nilpotent, !Z.lxor_0_l in He. }
  rewrite <- (le_encode_decode burst), <- (le_encode_decode burst') by done. by rewrite Hl, Hd.
Qed.

Lemma crc32_is_bitwise_witness : crc32 [0x55; 0xaa] = crc32_bitwise [0x55; 0xaa].
Proof. apply crc32_is_bitwise. repeat constructor; done. Defined.
