(* ===== verification/GlacierCommands.v ===== *)
(** * The commands of Glacier recovery

    src/recovery_tool/glacier_recovery_tool/glacier_recovery_commands.hpp and .cpp:
    the frames of the protocol with their checksum, the responses of a device and
    how they are judged, the recovery image in its file, and the transfer of its
    three parts. What only a verbose run prints is left out. *)

From stdpp Require Import list strings.
From S2P Require Import Prelude Bytes Text Trace Threads OcpIo OcpCommands Crc32.

#[local] Open Scope string_scope.
#[local] Open Scope Z_scope.

(** ** Constants *)

(** [recovery_tool/glacier_recovery_tool/glacier_recovery_commands.hpp:16-17 maxRetries] *)
Definition maxRetries : nat := 5.
Definition delay1sec : Z := 1.

(** [recovery_tool/glacier_recovery_tool/glacier_recovery_commands.hpp:19-32 defaultChunkSize] *)
Definition defaultChunkSize : nat := 128.
Definition revAKHBSize : nat := 1104.
Definition revBKHBSize : nat := 576.
Definition headerLength : nat := 896.
Definition randomByteCount : nat := 32.
Definition initResponseByte0 : Z := 0xAA.
Definition initResponseByte1 : Z := 0x5A.
Definition initResponseByte2 : Z := 0xA5.
Definition crcFailField : Z := 0x1.
Definition illegalLengthField : Z := 0x2.
Definition illegalOffsetField : Z := 0x4.
Definition invalidCmdSignatureField : Z := 0x8.

(** [recovery_tool/glacier_recovery_tool/glacier_recovery_commands.hpp:38-48 RecoveryCommand] *)
Inductive RecoveryCommand :=
| Initialization | HeaderWrite | KeyHashBlobWrite | FWImageWrite | SRAMExe | GetFWInfo | GetResponseCommand
| ShowHiddenERoTs.

#[export] Instance RecoveryCommand_dec : EqDecision RecoveryCommand.
Proof. solve_decision. Defined.

(** [recovery_tool/glacier_recovery_tool/glacier_recovery_commands.hpp:38-48 RecoveryCommand] *)
Definition command_byte (cmd : RecoveryCommand) : Z :=
  match cmd with
  | Initialization => 0x55
  | HeaderWrite => 0x65
  | KeyHashBlobWrite => 0x66
  | FWImageWrite => 0x67
  | SRAMExe => 0x69
  | GetFWInfo => 0x70
  | GetResponseCommand => 0x71
  | ShowHiddenERoTs => 0x60
  end.

(** [recovery_tool/glacier_recovery_tool/glacier_recovery_commands.hpp:54-59 Revision] *)
Inductive Revision := RevA | RevB | RevUnknown.

(** [recovery_tool/glacier_recovery_tool/glacier_recovery_commands.hpp:66-89 RecoveryResult]
    [RecoveryOk] is [Ok] of the source. *)
Inductive RecoveryResult :=
| RecoveryOk
| IllegalPayloadLength
| CRCFailure
| ResponseCRCCompFailure
| IllegalHeaderOffset
| IllegalKeyHashBlobOffset
| IllegalFWImageWriteAddress
| InvalidCommandSignature
| FirmwareNotInRecovery
| InitResponseByteMismatch
| BadResponse
| InvalidCommand
| Pending
| FailedToReadData
| InvalidRevision
| SRAMCmdFailed
| FileOpenFailure
| FailedToReadVendorDetails
| FailedToReadHeader
| FailedToReadKHB
| FailedToReadFWImage.

#[export] Instance RecoveryResult_dec : EqDecision RecoveryResult.
Proof. solve_decision. Defined.

(** [recovery_tool/glacier_recovery_tool/glacier_recovery_commands.hpp:66-89 RecoveryResult] *)
Definition result_code (result : RecoveryResult) : Z :=
  match result with
  | RecoveryOk => 0x0
  | IllegalPayloadLength => 0x1
  | CRCFailure => 0x2
  | ResponseCRCCompFailure => 0x3
  | IllegalHeaderOffset => 0x4
  | IllegalKeyHashBlobOffset => 0x5
  | IllegalFWImageWriteAddress => 0x6
  | InvalidCommandSignature => 0x7
  | FirmwareNotInRecovery => 0x8
  | InitResponseByteMismatch => 0x9
  | BadResponse => 0xA
  | InvalidCommand => 0xB
  | Pending => 0xC
  | FailedToReadData => 0xD
  | InvalidRevision => 0xE
  | SRAMCmdFailed => 0xF
  | FileOpenFailure => 0x10
  | FailedToReadVendorDetails => 0x11
  | FailedToReadHeader => 0x12
  | FailedToReadKHB => 0x13
  | FailedToReadFWImage => 0x14
  end.

(** [recovery_tool/glacier_recovery_tool/glacier_recovery_commands.hpp:96-102 ResponseLength] *)
Inductive ResponseLength := WriteResponse | InitResponse | FwInfoRevAResponse | FwInfoRevBResponse.

(** [recovery_tool/glacier_recovery_tool/glacier_recovery_commands.hpp:96-102 ResponseLength] *)
Definition response_length (len : ResponseLength) : nat :=
  match len with
  | WriteResponse => 7
  | InitResponse => 8
  | FwInfoRevAResponse => 18
  | FwInfoRevBResponse => 26
  end.

(** [recovery_tool/glacier_recovery_tool/glacier_recovery_commands.cpp:86-135 recoveryResultToStr] *)
Definition recoveryResultToStr (result : RecoveryResult) : string :=
  match result with
  | RecoveryOk => "Operation successful."
  | IllegalPayloadLength => "Payload length exceeds the allocated space."
  | CRCFailure => "CRC check failed on the command parameters."
  | ResponseCRCCompFailure => "CRC mismatch between the request and response."
  | IllegalHeaderOffset => "Header offset exceeds the maximum allowed (0x37F)."
  | IllegalKeyHashBlobOffset => "Key Hash Blob offset exceeds the maximum allowed limit."
  | IllegalFWImageWriteAddress => "Firmware image address exceeds the maximum allocated address."
  | InvalidCommandSignature => "Command signature failed the authentication check using the Platform Command Key."
  | FirmwareNotInRecovery => "Device is not in Recovery."
  | InitResponseByteMismatch => "Initial response byte does not match expected value."
  | BadResponse => "Incorrect response received; bytes 3-6 do not match the expected pattern."
  | InvalidCommand => "The command issued is invalid."
  | Pending => "Command timeout; no response received for the last command."
  | FailedToReadData => "Failed to read data from the device."
  | InvalidRevision => "The firmware revision is invalid."
  | SRAMCmdFailed => "SRAM command execution failed."
  | FileOpenFailure => "Unable to open the recovery image file."
  | FailedToReadVendorDetails => "Failed to read the vendor details."
  | FailedToReadHeader => "Failed to read the image header."
  | FailedToReadKHB => "Failed to read the Key Hash Blob."
  | FailedToReadFWImage => "Failed to read the firmware image."
  end.

(** ** Frames *)

(** [recovery_tool/glacier_recovery_tool/glacier_recovery_commands.cpp:175-179 getCommandBytesWithCRC32] *)
Fixpoint append_crc (n : nat) (crc32Val : Z) (commandBytes : buffer) : buffer :=
  match n with
  | O => commandBytes
  | S n => append_crc n (crc32Val ≫ 8) (commandBytes ++ [u8 (crc32Val .& 0xFF)])
  end.

(** [recovery_tool/glacier_recovery_tool/glacier_recovery_commands.cpp:167-182 getCommandBytesWithCRC32] *)
Definition getCommandBytesWithCRC32 (recoveryCommand : RecoveryCommand) (payload : buffer) : buffer :=
  let commandBytes := command_byte recoveryCommand :: payload in
  append_crc 4 (crc32 commandBytes) commandBytes.

(** [recovery_tool/glacier_recovery_tool/glacier_recovery_commands.cpp:404-412 toOffsetBytes] *)
Definition toOffsetBytes (value : Z) : buffer :=
  [u8 (value .& 0xFF); u8 ((value ≫ 8) .& 0xFF); u8 ((value ≫ 16) .& 0xFF)].

(** [recovery_tool/glacier_recovery_tool/glacier_recovery_commands.cpp:414-434 getWriteCommandPayload] *)
Definition getWriteCommandPayload (inputPayload : buffer) (offset : Z) : buffer :=
  toOffsetBytes offset ++ [u8 (Z.of_nat (length inputPayload) - 1)] ++ inputPayload ++ replicate randomByteCount 0.

(** ** Responses *)

(** [recovery_tool/glacier_recovery_tool/glacier_recovery_commands.cpp:267-297 ValidateWriteImageResponse] *)
Definition ValidateWriteImageResponse (cmd : RecoveryCommand) (responseBytes : buffer) : RecoveryResult :=
  if negb (at_ responseBytes 2 .& crcFailField =? 0) then CRCFailure else
  if negb (at_ responseBytes 2 .& illegalLengthField =? 0) then IllegalPayloadLength else
  if negb (at_ responseBytes 2 .& invalidCmdSignatureField =? 0) then InvalidCommandSignature else
  if negb (at_ responseBytes 2 .& illegalOffsetField =? 0) then
    match cmd with
    | HeaderWrite => IllegalHeaderOffset
    | KeyHashBlobWrite => IllegalKeyHashBlobOffset
    | FWImageWrite => IllegalFWImageWriteAddress
    | _ => InvalidCommand
    end
  else RecoveryOk.

(** [recovery_tool/glacier_recovery_tool/glacier_recovery_commands.cpp:228-230 ValidateGetResponseCmd]
    The last four bytes, of which the device sends the least first. *)
Definition packed_crc (responseBytes : buffer) (length : nat) : Z :=
  u32 ((at_ responseBytes (length - 1) ≪ 24) .| (at_ responseBytes (length - 2) ≪ 16) .|
       (at_ responseBytes (length - 3) ≪ 8) .| at_ responseBytes (length - 4)).

(** [recovery_tool/glacier_recovery_tool/glacier_recovery_commands.cpp:207-265 ValidateGetResponseCmd] *)
Definition ValidateGetResponseCmd (command : RecoveryCommand) (responseBytes : buffer) (responseLen : ResponseLength)
    : RecoveryResult :=
  if at_ responseBytes 1 =? command_byte GetResponseCommand then Pending else
  if negb (at_ responseBytes 1 =? command_byte command) then FirmwareNotInRecovery else
  let len := response_length responseLen in
  if negb (length responseBytes =? len)%nat then IllegalPayloadLength else
  let respCrc := crc32 (take (length responseBytes - 4) responseBytes) in
  if negb (respCrc =? packed_crc responseBytes len) then ResponseCRCCompFailure else
  if bool_decide (command = Initialization) &&
     (negb (at_ responseBytes 2 =? initResponseByte1) || negb (at_ responseBytes 3 =? initResponseByte2))
  then InitResponseByteMismatch else
  if bool_decide (command = GetFWInfo) &&
     (negb (at_ responseBytes 3 =? 0x50) || negb (at_ responseBytes 4 =? 0x48) ||
      negb (at_ responseBytes 5 =? 0x43) || negb (at_ responseBytes 6 =? 0x4D))
  then BadResponse else
  if bool_decide (command ∈ [HeaderWrite; KeyHashBlobWrite; FWImageWrite])
  then ValidateWriteImageResponse command responseBytes
  else RecoveryOk.
