(* ===== verification/GlacierFile.v ===== *)
(** * The recovery image of Glacier in its file

    The part of [performGlacierRecovery] of
    src/recovery_tool/glacier_recovery_tool/glacier_recovery_commands.cpp that reads
    the file, on a model of [std::ifstream]; and where in the file the header, the
    firmware and the key hash blob are. *)

From stdpp Require Import list.
From S2P Require Import Prelude Bytes OcpIo GlacierCommands.

#[local] Open Scope Z_scope.

(** ** A stream that is read *)

Record ifstream := mkStream { contents : buffer; pos : nat; eof : bool; failed : bool }.

(** [fd.read(p, n)]: the bytes that are read. A stream that is not good reads nothing
    and fails; one that ends before [n] bytes reads the rest and fails. *)
Definition read (n : nat) (s : ifstream) : buffer * ifstream :=
  if eof s || failed s then ([], mkStream (contents s) (pos s) (eof s) true) else
  let got := take n (drop (pos s) (contents s)) in
  let short := (length got <? n)%nat in
  (got, mkStream (contents s) (pos s + length got) short short).

(** [fd.ignore(n)]: the end of the stream is no failure. *)
Definition ignore (n : nat) (s : ifstream) : ifstream :=
  if eof s || failed s then mkStream (contents s) (pos s) (eof s) true else
  let got := take n (drop (pos s) (contents s)) in
  mkStream (contents s) (pos s + length got) (length got <? n)%nat false.

(** [fd.seekg(p)]: also behind the end; a stream that has failed stays where it is. *)
Definition seekg (p : Z) (s : ifstream) : ifstream :=
  mkStream (contents s) (if failed s then pos s else Z.to_nat p) false (failed s).

(** A variable of 4 bytes after its first bytes were read over. *)
Definition read_over (variable : Z) (got : buffer) : Z :=
  le_decode (got ++ drop (length got) (le_encode 4 variable)).

(** ** The image *)

Record Image := mkImage { headerBin : buffer; fwBin : buffer; blobBin : buffer }.

Section Load.
Context (revision : Revision).
(** What the variables [imgOffset], [fwBinLen] and [blobAddr], which the source leaves
    uninitialised, hold at first. *)
Context (imgOffset0 fwBinLen0 blobAddr0 : Z).

(** [recovery_tool/glacier_recovery_tool/glacier_recovery_commands.cpp:544-545 performGlacierRecovery] *)
Definition blob_size : nat := match revision with RevA => revAKHBSize | _ => revBKHBSize end.

(** [recovery_tool/glacier_recovery_tool/glacier_recovery_commands.cpp:487-550 performGlacierRecovery]
    The parts of the image in the file, or what to return without. *)
Definition load_image (file : buffer) : RecoveryResult + Image :=
  let fd := mkStream file 0 false false in
  let '(got, fd) := read 3 fd in
  let imgOffset := u32 (read_over imgOffset0 got * 256) in
  let fd := seekg imgOffset fd in
  let '(vendor, fd) := read 4 fd in
  if failed fd then inl FailedToReadVendorDetails else
  let '(version, fd) := read 4 fd in
  let '(loadAddr, fd) := read 4 fd in
  let '(entryAddr, fd) := read 4 fd in
  let '(got, fd) := read 4 fd in
  let fwBinLen := u32 ((read_over fwBinLen0 got .& 0xFFFF) * 128) in
  let fd := ignore 0x18 fd in
  let '(got, fd) := read 4 fd in
  let blobAddr := read_over blobAddr0 got in
  let fd := seekg imgOffset fd in
  let '(headerBin, fd) := read headerLength fd in
  if failed fd then inl FailedToReadHeader else
  let '(fwBin, fd) := read (Z.to_nat fwBinLen + defaultChunkSize) fd in
  if failed fd then inl FailedToReadFWImage else
  let fd := seekg blobAddr fd in
  let '(blobBin, fd) := read blob_size fd in
  if failed fd then inl FailedToReadKHB else
  inr (mkImage headerBin fwBin blobBin).

(** ** Where the parts are *)

(** [n] bytes from [off]; and that the file has them. *)
Definition slice (off n : nat) (file : buffer) : buffer := take n (drop off file).
Definition within (off n : nat) (file : buffer) : Prop := (off + n ≤ length file)%nat.

(** The first three bytes give the offset of the header in pages of 256 bytes; the
    header, at 0x10, the length of the firmware in chunks of 128 bytes and, at 0x2C,
    the address of the key hash blob. *)
Definition image_offset (file : buffer) : nat := Z.to_nat (256 * le_decode (slice 0 3 file)).
Definition firmware_length (file : buffer) : nat := Z.to_nat (128 * le_decode (slice (image_offset file + 0x10) 2 file)).
Definition blob_address (file : buffer) : nat := Z.to_nat (le_decode (slice (image_offset file + 0x2C) 4 file)).

Definition complete (file : buffer) : Prop :=
  within 0 3 file ∧ within (image_offset file) headerLength file ∧
  within (image_offset file + headerLength) (firmware_length file + defaultChunkSize) file ∧
  within (blob_address file) blob_size file.

Definition image_in (file : buffer) : Image :=
  mkImage (slice (image_offset file) headerLength file)
          (slice (image_offset file + headerLength) (firmware_length file + defaultChunkSize) file)
          (slice (blob_address file) blob_size file).

Lemma slice_length off n file : within off n file → length (slice off n file) = n.
Proof. unfold within, slice. intros Hw. rewrite length_take, length_drop. lia. Qed.

Lemma slice_short off n file : (0 < n)%nat → ¬ within off n file → (length (slice off n file) < n)%nat.
Proof. unfold within, slice. intros Hn Hw. rewrite length_take, length_drop. lia. Qed.

Lemma slice_ok off n file : bytes_ok file → bytes_ok (slice off n file).
Proof. intros Hf. by apply bytes_ok_take, bytes_ok_drop. Qed.

#[export] Instance within_dec off n file : Decision (within off n file).
Proof. unfold within. apply _. Defined.

Definition good (file : buffer) (p : nat) : ifstream := mkStream file p false false.

(** Reading where the file goes on, and where it ends. *)
Lemma read_good n p file : within p n file → read n (good file p) = (slice p n file, good file (p + n)).
Proof.
  intros Hw. unfold read. cbn [eof failed orb contents pos good]. fold (slice p n file).
  rewrite slice_length by done. by rewrite Nat.ltb_irrefl.
Qed.

Lemma read_short n p file : (0 < n)%nat → ¬ within p n file → failed (read n (good file p)).2 = true.
Proof.
  intros Hn Hw. unfold read. cbn [eof failed orb contents pos good snd]. fold (slice p n file).
  apply Nat.ltb_lt. by apply slice_short.
Qed.

Lemma read_failed n s : failed s = true → failed (read n s).2 = true.
Proof. intros Hs. unfold read. by rewrite Hs, orb_true_r. Qed.

Lemma read_ended n s : eof s = true → failed (read n s).2 = true.
Proof. intros Hs. unfold read. by rewrite Hs. Qed.

Lemma ignore_failed n s : failed s = true → failed (ignore n s) = true.
Proof. intros Hs. unfold ignore. by rewrite Hs, orb_true_r. Qed.

Lemma ignore_good n p file : within p n file → ignore n (good file p) = good file (p + n).
Proof.
  intros Hw. unfold ignore. cbn [eof failed orb contents pos good]. fold (slice p n file).
  rewrite slice_length by done. by rewrite Nat.ltb_irrefl.
Qed.

Lemma ignore_short n p file : (0 < n)%nat → ¬ within p n file → eof (ignore n (good file p)) = true.
Proof.
  intros Hn Hw. unfold ignore. cbn [eof failed orb contents pos good]. fold (slice p n file).
  apply Nat.ltb_lt. by apply slice_short.
Qed.

Lemma seekg_good q p file : seekg q (good file p) = good file (Z.to_nat q).
Proof. done. Qed.

(** A whole variable is read over; what it held does not matter. *)
Lemma read_over_whole v got : length got = 4%nat → read_over v got = le_decode got.
Proof. intros Hl. unfold read_over. rewrite drop_ge, app_nil_r; [done|]. by rewrite le_encode_length, Hl. Qed.

Lemma seekg_failed q s : failed s = true → failed (seekg q s) = true.
Proof. done. Qed.

(** The offset, whose last byte is the variable's own. *)
Lemma offset_read file : bytes_ok file → within 0 3 file →
  u32 (read_over imgOffset0 (slice 0 3 file) * 256) = Z.of_nat (image_offset file).
Proof.
  intros Hf Hw. unfold read_over. rewrite slice_length by done. cbn [le_encode drop].
  assert (Hok : bytes_ok (slice 0 3 file)) by by apply slice_ok.
  pose proof (le_decode_word _ Hok) as Hd. rewrite slice_length in Hd by done.
  unfold image_offset. rewrite Z2Nat.id by (unfold word in Hd; lia). unfold word in Hd.
  change (2 ^ (8 * Z.of_nat 3)) with 16777216 in Hd.
  destruct (slice 0 3 file) as [|a [|b [|c [|? ?]]]] eqn:Hs;
    pose proof (slice_length _ _ _ Hw) as Hl; rewrite Hs in Hl; cbn in Hl; try lia.
  cbn [app le_decode] in *. unfold u32, wrap. set (g := (_ / 256) mod 256).
  replace ((a + 256 * (b + 256 * (c + 256 * (g + 256 * 0)))) * 256)
    with (256 * (a + 256 * (b + 256 * (c + 256 * 0))) + g * 2 ^ 32) by lia.
  rewrite Z.mod_add by lia. apply Z.mod_small. lia.
Qed.

(** The length of the firmware. *)
Lemma length_read file p :
  bytes_ok file → within p 4 file →
  u32 ((read_over fwBinLen0 (slice p 4 file) .& 0xFFFF) * 128) = Z.of_nat (Z.to_nat (128 * le_decode (slice p 2 file))).
Proof.
  intros Hf Hw. rewrite read_over_whole by by apply slice_length.
  assert (Hw2 : within p 2 file) by (unfold within in *; lia).
  assert (Hok : bytes_ok (slice p 2 file)) by by apply slice_ok.
  pose proof (le_decode_word _ Hok) as Hd. rewrite slice_length in Hd by done. unfold word in Hd.
  change (2 ^ (8 * Z.of_nat 2)) with 65536 in Hd.
  rewrite Z2Nat.id by lia.
  assert (Hl : le_decode (slice p 4 file) .& 0xFFFF = le_decode (slice p 2 file)).
  { replace (slice p 2 file) with (take 2 (slice p 4 file)) by (unfold slice; by rewrite take_take).
    destruct (slice p 4 file) as [|a [|b [|c [|d [|? ?]]]]] eqn:Hs;
      pose proof (slice_length _ _ _ Hw) as Hl; rewrite Hs in Hl; cbn in Hl; try lia.
    replace (slice p 2 file) with (take 2 (slice p 4 file)) in Hd by (unfold slice; by rewrite take_take).
    rewrite Hs in Hd. cbn [take le_decode] in *. change 0xFFFF with (Z.ones 16). rewrite Z.land_ones by lia.
    replace (a + 256 * (b + 256 * (c + 256 * (d + 256 * 0))))
      with (a + 256 * (b + 256 * 0) + (c + 256 * d) * 2 ^ 16) by lia.
    rewrite Z.mod_add by lia. apply Z.mod_small. lia. }
  rewrite Hl. unfold u32, wrap. rewrite Z.mod_small by lia. lia.
Qed.

Lemma read_contents n s : contents (read n s).2 = contents s.
Proof. unfold read. by destruct (eof s || failed s). Qed.

Lemma ignore_contents n s : contents (ignore n s) = contents s.
Proof. unfold ignore. by destruct (eof s || failed s). Qed.

(** Behind what the file has nothing is read, whatever was read before. *)
Lemma read_sought n q s : (0 < n)%nat → ¬ within (Z.to_nat q) n (contents s) → failed (read n (seekg q s)).2 = true.
Proof.
  intros Hn Hw. destruct s as [file p e [|]]; [by apply read_failed|]. by apply read_short.
Qed.

Lemma blob_size_pos : (0 < blob_size)%nat.
Proof. unfold blob_size, revAKHBSize, revBKHBSize. destruct revision; lia. Qed.

(** What is read of the file, with the first part that is missing. *)
Definition parts (file : buffer) : RecoveryResult + Image :=
  if negb (bool_decide (within 0 3 file ∧ within (image_offset file) 4 file)) then inl FailedToReadVendorDetails else
  if negb (bool_decide (within (image_offset file) headerLength file)) then inl FailedToReadHeader else
  if negb (bool_decide (within (image_offset file + headerLength) (firmware_length file + defaultChunkSize) file))
  then inl FailedToReadFWImage else
  if negb (bool_decide (within (blob_address file) blob_size file)) then inl FailedToReadKHB else
  inr (image_in file).

Ltac step_read := match goal with |- context [read ?n ?s] =>
    let Hc := fresh "Hc" in pose proof (read_contents n s) as Hc; destruct (read n s) as [? ?]; cbn [snd] in Hc end.

(** A file that ends in its header. *)
Lemma load_short_header file :
  bytes_ok file → within 0 3 file → within (image_offset file) 4 file → ¬ within (image_offset file) headerLength file →
  load_image file = inl FailedToReadHeader.
Proof.
  intros Hf H3 Hv Hh. unfold load_image. fold (good file 0). rewrite read_good, offset_read, seekg_good, Nat2Z.id by done.
  rewrite read_good by done. cbn [failed good]. cbv zeta.
  do 4 step_read. rename i2 into fd. pose proof (ignore_contents 0x18 fd) as Hi.
  destruct (read 4 (ignore 0x18 fd)) as [got fd'] eqn:Hr.
  pose proof (read_contents 4 (ignore 0x18 fd)) as Hr'. rewrite Hr in Hr'. cbn [snd] in Hr'.
  pose proof (read_sought headerLength (Z.of_nat (image_offset file)) fd') as Hx.
  destruct (read headerLength _) as [hdr fd''] eqn:Hh'. cbn [snd] in Hx.
  rewrite Hx; [done|unfold headerLength; lia|]. rewrite Nat2Z.id.
  by rewrite Hr', Hi, Hc2, Hc1, Hc0, Hc.
Qed.

(** Whatever the three variables held, the image is that of the file. *)
Lemma load_parts file : bytes_ok file → load_image file = parts file.
Proof.
  intros Hf. unfold parts. case_bool_decide as Hv; cbn [negb].
  2:{ unfold load_image. fold (good file 0). destruct (decide (within 0 3 file)) as [H3|H3].
      - rewrite read_good, offset_read, seekg_good, Nat2Z.id by done.
        assert (Hx : failed (read 4 (good file (image_offset file))).2 = true) by (apply read_short; [lia|tauto]).
        destruct (read 4 _) as [v fd]. cbn [snd] in Hx. by rewrite Hx.
      - assert (Hx : failed (read 3 (good file 0)).2 = true) by (apply read_short; [lia|done]).
        destruct (read 3 _) as [v fd]. cbn [snd] in Hx. cbv zeta.
        set (q := u32 _). pose proof (read_failed 4 (seekg q fd) Hx) as Hy. destruct (read 4 _) as [? ?]. cbn [snd] in Hy. by rewrite Hy. }
  destruct Hv as [H3 H4]. case_bool_decide as Hh; cbn [negb]; [|by apply load_short_header].
  unfold load_image. fold (good file 0). rewrite read_good, offset_read, seekg_good, Nat2Z.id by done.
  set (off := image_offset file) in *.
  assert (Hin : ∀ k n, (k + n ≤ headerLength)%nat → within (off + k) n file) by (unfold within in *; lia).
  rewrite read_good by done. cbn [failed good]. cbv zeta. fold (good file (off + 4)).
  repeat (rewrite read_good by (rewrite <- ?Nat.add_assoc; apply Hin; unfold headerLength; cbn; lia); cbv zeta).
  rewrite ignore_good by (rewrite <- ?Nat.add_assoc; apply Hin; unfold headerLength; cbn; lia).
  rewrite read_good by (rewrite <- ?Nat.add_assoc; apply Hin; unfold headerLength; cbn; lia).
  rewrite <- ?Nat.add_assoc. cbn [Nat.add]. rewrite seekg_good, Nat2Z.id, read_good by done. cbn [failed good].
  rewrite length_read by (try done; apply Hin; unfold headerLength; cbn; lia).
  rewrite Nat2Z.id. change (Z.to_nat (128 * le_decode (slice (off + 16) 2 file))) with (firmware_length file).
  fold (good file (off + headerLength)).
  case_bool_decide as Hw; cbn [negb].
  2:{ assert (Hx := read_short (firmware_length file + defaultChunkSize) (off + headerLength) file).
      destruct (read _ _) as [? ?]. cbn [snd] in Hx. by rewrite Hx by (done || unfold defaultChunkSize; lia). }
  rewrite read_good by done. cbn [failed good].
  rewrite read_over_whole by (apply slice_length, Hin; unfold headerLength; cbn; lia).
  fold (good file (off + headerLength + (firmware_length file + defaultChunkSize))). rewrite seekg_good.
  change (Z.to_nat (le_decode (slice (off + 44) 4 file))) with (blob_address file).
  case_bool_decide as Hb; cbn [negb]; [by rewrite read_good by done|].
  pose proof (read_short blob_size (blob_address file) file blob_size_pos Hb) as Hx.
  destruct (read _ _) as [? ?]. cbn [snd] in Hx. by rewrite Hx.
Qed.

Lemma parts_complete file image : parts file = inr image ↔ complete file ∧ image = image_in file.
Proof.
  assert (Hv : within (image_offset file) headerLength file → within (image_offset file) 4 file).
  { unfold within, headerLength. lia. }
  unfold parts, complete. repeat case_bool_decide; cbn [negb]; split; intros Hi; try done; try tauto.
  - injection Hi as <-. tauto.
  - by destruct Hi as [_ ->].
Qed.

(** C18: Whatever the uninitialised variables hold, an image is loaded exactly when the file
    has all its parts, and it is what the file has there; otherwise the first part that
    is missing is reported. *)
Theorem image_located file :
  bytes_ok file →
  load_image file = parts file ∧ ∀ image, load_image file = inr image ↔ complete file ∧ image = image_in file.
Proof. intros Hf. rewrite load_parts by done. split; [done|]. intros image. apply parts_complete. Qed.

(** The sizes of the parts of an image; its bytes. *)
Lemma firmware_bound file : bytes_ok file → Z.of_nat (firmware_length file) ≤ 128 * 65535.
Proof.
  intros Hf. unfold firmware_length.
  set (sl := slice _ 2 file). assert (Hok : bytes_ok sl) by by apply slice_ok.
  assert (Hl : (length sl ≤ 2)%nat) by (unfold sl, slice; rewrite length_take; lia).
  pose proof (le_decode_word _ Hok) as Hd. assert (Hw : word 16 (le_decode sl)) by (eapply word_mono; [|exact Hd]; lia). unfold word in Hw. lia.
Qed.

Lemma image_sizes file :
  bytes_ok file → complete file →
  length (headerBin (image_in file)) = headerLength ∧
  length (fwBin (image_in file)) = (firmware_length file + defaultChunkSize)%nat ∧
  length (blobBin (image_in file)) = blob_size.
Proof. intros Hf (_ & Hh & Hw & Hb). unfold image_in. cbn [headerBin fwBin blobBin]. by rewrite !slice_length. Qed.

Lemma image_bytes file :
  bytes_ok file →
  bytes_ok (headerBin (image_in file)) ∧ bytes_ok (fwBin (image_in file)) ∧ bytes_ok (blobBin (image_in file)).
Proof. intros Hf. unfold image_in. cbn [headerBin fwBin blobBin]. by split_and!; apply slice_ok. Qed.
End Load.
