(* ===== verification/GlacierTransfer.v ===== *)
(** * The transfers of Glacier recovery

    The operations of [GlacierRecoveryCommands] in
    src/recovery_tool/glacier_recovery_tool/glacier_recovery_commands.cpp that speak to
    a device. An operation holds the bus open until it returns, and opens it once more
    for each response. *)

From stdpp Require Import list strings.
From S2P Require Import Prelude Bytes Text Trace Threads OcpIo OcpCommands Crc32 GlacierCommands GlacierFile.

#[local] Open Scope string_scope.
#[local] Open Scope Z_scope.

Section Transfers.
(** The device, by its bus and its address; its revision; and what three uninitialised
    variables hold, as in [load_image]. *)
Context (dev : Device) (revision : Revision) (imgOffset0 fwBinLen0 blobAddr0 : Z).

(** [recovery_tool/glacier_recovery_tool/glacier_recovery_commands.cpp:184-205 GetResponse] *)
Definition GetResponse (responseLen : ResponseLength) : P buffer :=
  let commandData := getCommandBytesWithCRC32 GetResponseCommand [] in
  with_device dev (λ fd,
    r ← sendI2cCmdForRead fd (slave dev) commandData (Z.of_nat (response_length responseLen));
    match r with
    | Some readBuffer => mret readBuffer
    | None => raise (recoveryResultToStr FailedToReadData)
    end).

(** [recovery_tool/glacier_recovery_tool/glacier_recovery_commands.cpp:303-314 executeGetResponseCmdAndValidateResponse]
    The last result with its response; none for no response at all. *)
Fixpoint poll_response (tries : nat) (cmd : RecoveryCommand) (responseLen : ResponseLength)
    (last : RecoveryResult * buffer) : P (RecoveryResult * buffer) :=
  match tries with
  | O => mret last
  | S tries =>
      resBytes ← GetResponse responseLen;
      let result := ValidateGetResponseCmd cmd resBytes responseLen in
      if bool_decide (result ≠ Pending) then mret (result, resBytes) else
      _ ← act (SleepSec delay1sec);
      poll_response tries cmd responseLen (result, resBytes)
  end.

(** [recovery_tool/glacier_recovery_tool/glacier_recovery_commands.cpp:299-316 executeGetResponseCmdAndValidateResponse] *)
Definition executeGetResponseCmdAndValidateResponse (cmd : RecoveryCommand) (responseLen : ResponseLength)
    : P RecoveryResult :=
  '(result, _) ← poll_response maxRetries cmd responseLen (Pending, []);
  mret result.

(** [recovery_tool/glacier_recovery_tool/glacier_recovery_commands.cpp:318-327 performSRAMExe] *)
Definition performSRAMExe : P bool := write_register dev [command_byte SRAMExe].

(** [recovery_tool/glacier_recovery_tool/glacier_recovery_commands.cpp:334-351 performInitialization] *)
Definition performInitialization : P RecoveryResult :=
  let writeData := getCommandBytesWithCRC32 Initialization [initResponseByte0] in
  with_device dev (λ fd,
    ok ← sendI2cCmdForWrite fd (slave dev) writeData;
    if negb ok then mret FailedToReadData else
    executeGetResponseCmdAndValidateResponse Initialization InitResponse).

(** [recovery_tool/glacier_recovery_tool/glacier_recovery_commands.cpp:366-378 getFirmwareInfoCommand] *)
Definition info_length : option ResponseLength :=
  match revision with
  | RevA => Some FwInfoRevAResponse
  | RevB => Some FwInfoRevBResponse
  | RevUnknown => None
  end.

(** [recovery_tool/glacier_recovery_tool/glacier_recovery_commands.cpp:353-402 getFirmwareInfoCommand] *)
Definition getFirmwareInfoCommand : P (RecoveryResult * buffer) :=
  let writeData := getCommandBytesWithCRC32 GetFWInfo [] in
  with_device dev (λ fd,
    ok ← sendI2cCmdForWrite fd (slave dev) writeData;
    if negb ok then mret (FailedToReadData, []) else
    match info_length with
    | None => mret (InvalidRevision, [])
    | Some resLen =>
        '(recoveryResult, hexResponse) ← poll_response maxRetries GetFWInfo resLen (RecoveryOk, []);
        mret (if bool_decide (recoveryResult ≠ RecoveryOk) then (recoveryResult, []) else (recoveryResult, hexResponse))
    end).

(** [recovery_tool/glacier_recovery_tool/glacier_recovery_commands.cpp:436-453 executeWriteImageCmd] *)
Definition executeWriteImageCmd (cmd : RecoveryCommand) (dataChunk : buffer) (offset : Z) : P RecoveryResult :=
  let payload := getWriteCommandPayload dataChunk offset in
  let writeData := getCommandBytesWithCRC32 cmd payload in
  with_device dev (λ fd,
    ok ← sendI2cCmdForWrite fd (slave dev) writeData;
    if negb ok then mret FailedToReadData else
    executeGetResponseCmdAndValidateResponse cmd WriteResponse).

(** [recovery_tool/glacier_recovery_tool/glacier_recovery_commands.cpp:461-475 writeImage]
    From [i] on; [fuel] bounds the number of chunks. *)
Fixpoint write_from (fuel : nat) (cmd : RecoveryCommand) (size : nat) (data : buffer) (i : nat) : P RecoveryResult :=
  match fuel with
  | O => mret RecoveryOk
  | S fuel =>
      if (i <? size)%nat then
        let currentChunkSize := Nat.min defaultChunkSize (size - i) in
        let currentChunk := take currentChunkSize (drop i data) in
        recoveryResult ← executeWriteImageCmd cmd currentChunk (Z.of_nat i);
        if bool_decide (recoveryResult ≠ RecoveryOk) then mret recoveryResult
        else write_from fuel cmd size data (i + defaultChunkSize)
      else mret RecoveryOk
  end.

(** [recovery_tool/glacier_recovery_tool/glacier_recovery_commands.cpp:455-476 writeImage]
    There are at most as many chunks as bytes. *)
Definition writeImage (cmd : RecoveryCommand) (size : nat) (data : buffer) : P RecoveryResult :=
  write_from size cmd size data 0.

(** [recovery_tool/glacier_recovery_tool/glacier_recovery_commands.cpp:552-582 performGlacierRecovery] *)
Definition send_parts (image : Image) : P RecoveryResult :=
  writeKHBStatus ← writeImage KeyHashBlobWrite (length (blobBin image)) (blobBin image);
  if bool_decide (writeKHBStatus ≠ RecoveryOk) then mret writeKHBStatus else
  writeHeaderStatus ← writeImage HeaderWrite (length (headerBin image)) (headerBin image);
  if bool_decide (writeHeaderStatus ≠ RecoveryOk) then mret writeHeaderStatus else
  writeFWImageStatus ← writeImage FWImageWrite (length (fwBin image)) (fwBin image);
  if bool_decide (writeFWImageStatus ≠ RecoveryOk) then mret writeFWImageStatus else
  started ← performSRAMExe;
  mret (if started : bool then RecoveryOk else SRAMCmdFailed).

(** [recovery_tool/glacier_recovery_tool/glacier_recovery_commands.cpp:478-583 performGlacierRecovery] *)
Definition performGlacierRecovery (imgFilePath : string) : P RecoveryResult :=
  file ← act (ReadFile imgFilePath);
  match file with
  | None => mret FileOpenFailure
  | Some file =>
      match load_image revision imgOffset0 fwBinLen0 blobAddr0 (u8 <$> file) with
      | inl result => mret result
      | inr image => send_parts image
      end
  end.

(** [recovery_tool/glacier_recovery_tool/glacier_recovery_commands.cpp:585-594 unlockI2CDevice]
    The command goes to an address of its own. *)
Definition unlockI2CDevice : P bool :=
  with_device dev (λ fd, sendI2cCmdForWrite fd (command_byte ShowHiddenERoTs) [0xc0; 0x01]).
End Transfers.
