(* ===== verification/GlacierMain.v ===== *)
(** * The Glacier recovery programs

    src/recovery_tool/glacier_recovery_tool/glacier_recovery_utils.cpp and
    glacier_recovery_interface.cpp: the answers of the interactive tool as JSON. The
    parsing of the command line is the CLI library's; a command starts from its options.

    src/recovery_tool/glacier_recovery_tool/main.cpp: the service, in which the devices
    that the inventory names for a Glacier recovery are recovered one after the other. *)

From stdpp Require Import list strings.
From S2P Require Import Prelude Json Bytes Text Trace Registry Threads OcpIo OcpCommands OcpTool OcpRecovery Crc32 GlacierCommands GlacierFile GlacierTransfer.

(** * The interactive Glacier recovery tool *)

#[local] Open Scope string_scope.
#[local] Open Scope Z_scope.

Section Tool.
Context (dev : Device) (revision : Revision) (imgOffset0 fwBinLen0 blobAddr0 : Z).

(** [recovery_tool/glacier_recovery_tool/glacier_recovery_utils.cpp:11-44 getRecoveryStatusJson] *)
Definition getRecoveryStatusJson : P members :=
  try_catch
    (recResult ← performInitialization dev;
     mret (if bool_decide (recResult ≠ RecoveryOk) then
             if bool_decide (recResult = FirmwareNotInRecovery)
             then members_of [("Status", JString (recoveryResultToStr recResult))]
             else error_response (recoveryResultToStr recResult)
           else members_of [("Status", JString "Device is in Recovery")]))
    (λ what, mret (error_response what)).

(** [recovery_tool/glacier_recovery_tool/glacier_recovery_utils.cpp:72-76 getFirmwareInfoJson] *)
Definition firmware_info (hexData : buffer) : members :=
  members_of
    [("Build Number", JInteger (pair_at hexData 8 7));
     ("Firmware ID", JUnsigned (at_ hexData 9));
     ("Device ID", JInteger (pair_at hexData 11 10));
     ("Sub ID", JUnsigned (at_ hexData 12));
     ("Revision ID", JUnsigned (at_ hexData 13))].

(** [recovery_tool/glacier_recovery_tool/glacier_recovery_utils.cpp:46-87 getFirmwareInfoJson] *)
Definition getFirmwareInfoJson : P members :=
  try_catch
    (initRes ← performInitialization dev;
     if bool_decide (initRes ≠ RecoveryOk) then mret (error_response (recoveryResultToStr initRes)) else
     '(getFWInfoRes, hexData) ← getFirmwareInfoCommand dev revision;
     mret (if bool_decide (getFWInfoRes ≠ RecoveryOk) then error_response (recoveryResultToStr getFWInfoRes)
           else firmware_info hexData))
    (λ what, mret (error_response what)).

(** [recovery_tool/glacier_recovery_tool/glacier_recovery_utils.cpp:89-127 performRecovery] *)
Definition performRecovery (imgPath : string) : P members :=
  try_catch
    (initRes ← performInitialization dev;
     if bool_decide (initRes ≠ RecoveryOk) then mret (error_response (recoveryResultToStr initRes)) else
     recResult ← performGlacierRecovery dev revision imgOffset0 fwBinLen0 blobAddr0 imgPath;
     mret (if bool_decide (recResult ≠ RecoveryOk) then error_response (recoveryResultToStr recResult)
           else members_of [("Status", JString "Recovery Successful")]))
    (λ what, mret (error_response what)).
End Tool.

(** ** Commands *)

(** [recovery_tool/glacier_recovery_tool/glacier_recovery_interface.cpp:11-108 CommandInterface] *)
Inductive Command :=
| GetRecoveryStatus
| GetFirmwareInfo
| PerformGlacierRecovery (imagePath : string).

Section Commands.
Context (imgOffset0 fwBinLen0 blobAddr0 : Z).

(** [recovery_tool/glacier_recovery_tool/glacier_recovery_interface.cpp:23-37 exec]
    and the other two; the revision of a device is taken to be B. *)
Definition exec_command (busAddress slaveAddress : Z) (command : Command) : P () :=
  let dev := mkDevice busAddress slaveAddress false in
  try_catch
    (jsonResponse ← match command with
                    | GetRecoveryStatus => getRecoveryStatusJson dev
                    | GetFirmwareInfo => getFirmwareInfoJson dev RevB
                    | PerformGlacierRecovery imagePath =>
                        performRecovery dev RevB imgOffset0 fwBinLen0 blobAddr0 imagePath
                    end;
     print_json (JObject jsonResponse))
    (λ _, mret ()).
End Commands.

(** * The Glacier recovery service *)

#[local] Open Scope string_scope.
#[local] Open Scope Z_scope.

(** [recovery_tool/glacier_recovery_tool/main.cpp:19-20 glacierCrisisObjInterface] *)
Definition glacierCrisisObjInterface : string := "xyz.openbmc_project.Configuration.GlacierCrisisRecovery".
(** [recovery_tool/glacier_recovery_tool/main.cpp:21-22 gpioErotObjInterface] *)
Definition gpioErotObjInterface : string := "xyz.openbmc_project.Configuration.GPIOERoTRecovery".

(** [m.at(key)] *)
Definition at_key {A} (key : string) (m : list (string * A)) : res string A :=
  match assoc key m with Some a => Ok a | None => Throw "map::at" end.

(** [std::get<bool>] *)
Definition get_bool (v : Value) : res string bool :=
  match v with ValueBool b => Ok b | ValueOther => Throw "std::get: wrong index for variant" end.

(** [recovery_tool/glacier_recovery_tool/main.cpp:32-42 getI2CBusAndAddress] *)
Definition getI2CBusAndAddress (objPath interface : string) : P (Z * Z) :=
  i2cBus ← ask (GetUint64 objPath interface "I2CBus") id;
  i2cAddress ← ask (GetUint64 objPath interface "I2CAddress") id;
  mret (u32 i2cBus, u32 i2cAddress).

(** [recovery_tool/glacier_recovery_tool/main.cpp:45-67 isGlacierDevice]
    Whether an object is such a device, and the interface it is said to use: that of a
    crisis recovery without the property is none. *)
Definition isGlacierDevice (interfaces : InterfaceMap) : res string (bool * string) :=
  match assoc glacierCrisisObjInterface interfaces with
  | Some properties =>
      match assoc "isRecoverable" properties with
      | Some v =>
          match get_bool v with
          | Ok isRecoverable => Ok (isRecoverable, glacierCrisisObjInterface)
          | Throw what => Throw what
          end
      | None => Ok (true, "")
      end
  | None =>
      match assoc gpioErotObjInterface interfaces with
      | Some _ => Ok (true, gpioErotObjInterface)
      | None => Ok (false, "")
      end
  end.

(** [recovery_tool/glacier_recovery_tool/main.cpp:112-113 glacier_service_main] *)
Definition hidden_by_fpga (interfaces : InterfaceMap) (interface : string) : res string bool :=
  match at_key interface interfaces with
  | Ok properties => match at_key "HiddenByFPGA" properties with Ok v => get_bool v | Throw what => Throw what end
  | Throw what => Throw what
  end.

Section Service.
(** What three uninitialised variables hold, and [sdbusplus::object_path::filename]. *)
Context (imgOffset0 fwBinLen0 blobAddr0 : Z) (filename : string → string).

Section Device.
Context (dev : Device) (device : string) (imgPath : string).

(** [recovery_tool/glacier_recovery_tool/main.cpp:181-232 glacier_service_main]
    [attempts] are left. Here and below: whether [recoveryTaskState] is set. *)
Fixpoint check_recovered (attempts : nat) : P bool :=
  match attempts with
  | O => mret false
  | S attempts =>
      _ ← act (SleepSec delay1sec);
      postRecInitRes ← performInitialization dev;
      if bool_decide (postRecInitRes = FirmwareNotInRecovery) then
        _ ← log_message device recoverySuccessful; mret false
      else if bool_decide (postRecInitRes = RecoveryOk) then
        _ ← log_error device GlacierRecovery deviceRecoveryFailed; mret true
      else if (attempts =? 0)%nat then
        _ ← log_error device GlacierRecovery (result_code postRecInitRes); mret true
      else check_recovered attempts
  end.

(** [recovery_tool/glacier_recovery_tool/main.cpp:129-232 glacier_service_main] *)
Definition recover_shown : P bool :=
  initRes ← performInitialization dev;
  if bool_decide (initRes ≠ RecoveryOk) then
    if bool_decide (initRes = FirmwareNotInRecovery) then
      _ ← log_message device firmwareNotInRecovery; mret false
    else
      _ ← log_error device GlacierRecovery (result_code initRes); mret true
  else
  _ ← log_message device recoveryStarted;
  _ ← act (SleepSec 1);
  recResult ← performGlacierRecovery dev RevB imgOffset0 fwBinLen0 blobAddr0 imgPath;
  if bool_decide (recResult ≠ RecoveryOk) then
    _ ← log_error device GlacierRecovery (result_code recResult); mret true
  else check_recovered 3.

(** [recovery_tool/glacier_recovery_tool/main.cpp:106-243 glacier_service_main] *)
Definition recover_device (interfaces : InterfaceMap) (interface : string) : P bool :=
  try_catch
    (isHiddenByFPGA ← of_res (hidden_by_fpga interfaces interface);
     if isHiddenByFPGA : bool then
       unlocked ← unlockI2CDevice dev;
       if negb unlocked then
         _ ← log_error device GlacierRecovery deviceNotResponding; mret false
       else recover_shown
     else recover_shown)
    (λ _, _ ← log_error device GlacierRecovery deviceRecoveryFailed; mret true).
End Device.

(** [recovery_tool/glacier_recovery_tool/main.cpp:93-244 glacier_service_main]
    Whether any device has set [recoveryTaskState]. *)
Fixpoint recover_devices (imgPath : string) (managedObjects : list (string * InterfaceMap)) : P bool :=
  match managedObjects with
  | [] => mret false
  | (emObjectPath, interfaces) :: managedObjects =>
      '(glacier, interface) ← of_res (isGlacierDevice interfaces);
      if negb glacier then recover_devices imgPath managedObjects else
      '(busAdd, slaveAdd) ← getI2CBusAndAddress emObjectPath interface;
      failed ← recover_device (mkDevice (int32 busAdd) (int32 slaveAdd) false) (filename emObjectPath) imgPath
                 interfaces interface;
      rest ← recover_devices imgPath managedObjects;
      mret (failed || rest)
  end.

(** [recovery_tool/glacier_recovery_tool/main.cpp:69-246 glacier_service_main] *)
Definition glacier_service_main (argv : list string) : P Z :=
  match argv with
  | _ :: imgPath :: _ =>
      managedObjects ← ask GetManagedObjects id;
      if bool_decide (managedObjects = []) then
        _ ← log_error "GlacierCrisisRecovery" GlacierRecovery noDevicesFound; mret (-1)
      else
      failed ← recover_devices imgPath managedObjects;
      mret (if failed : bool then -1 else 0)
  | _ => mret (-1)
  end.

(** [recovery_tool/glacier_recovery_tool/main.cpp:254-271 main] *)
Definition main (argv : list string) : P Z := try_catch (glacier_service_main argv) (λ _, mret 1).
End Service.
