(* ===== verification/GlacierImage.v ===== *)
(** * What a Glacier device receives

    The frames of the protocol as a device that follows it reads them, and the course of
    a recovery: each frame goes out when the one before has been answered, the device
    comes to hold the parts of the image, and it is told to run them last. From it, what
    the device holds at any time and at the end, how many transfers that takes, and that
    a damaged response is never taken for a success. *)

From stdpp Require Import list strings.
From S2P Require Import Prelude Bytes Text Trace Threads OcpIo OcpCommands OcpSeen Crc32 GlacierCommands GlacierFile GlacierTransfer.

(** * What a Glacier device receives *)

#[local] Open Scope Z_scope.

(** ** Frames *)

Lemma append_crc_le n v l : append_crc n v l = l ++ le_encode n v.
Proof.
  revert v l. induction n as [|n IH]; intros v l; cbn [append_crc le_encode]; [by rewrite app_nil_r|].
  rewrite IH, <- app_assoc. cbn [app]. repeat f_equal.
  - change 0xFF with (Z.ones 8). rewrite Z.land_ones by lia. unfold u8, wrap. change (2 ^ 8) with 256.
    by rewrite Z.mod_mod.
  - rewrite Z.shiftr_div_pow2 by lia. done.
Qed.

Lemma frame_eq cmd payload :
  getCommandBytesWithCRC32 cmd payload =
  (command_byte cmd :: payload) ++ le_encode 4 (crc32 (command_byte cmd :: payload)).
Proof. apply append_crc_le. Qed.

Lemma frame_length cmd payload : length (getCommandBytesWithCRC32 cmd payload) = (5 + length payload)%nat.
Proof. rewrite frame_eq, length_app, le_encode_length. cbn. lia. Qed.

Lemma frame_not_nil cmd payload : getCommandBytesWithCRC32 cmd payload ≠ [].
Proof. intros H%(f_equal length). rewrite frame_length in H. done. Qed.

Lemma command_byte_word cmd : word 8 (command_byte cmd).
Proof. by destruct cmd; vm_compute. Qed.

(** How a device reads a frame: its last four bytes are the checksum of the others. *)
Definition unframe (frame : buffer) : option (Z * buffer) :=
  if (length frame <? 5)%nat then None else
  let body := take (length frame - 4) frame in
  if crc32 body =? le_decode (drop (length frame - 4) frame) then
    match body with c :: payload => Some (c, payload) | [] => None end
  else None.

(** And the payload of a write: offset, length less one, data, 32 bytes. *)
Definition unpack (payload : buffer) : option (Z * buffer) :=
  match payload with
  | o0 :: o1 :: o2 :: l :: rest =>
      let n := Z.to_nat (l + 1) in
      if (length rest =? n + randomByteCount)%nat then Some (le_decode [o0; o1; o2], take n rest) else None
  | _ => None
  end.

Lemma unframe_frame cmd payload :
  bytes_ok payload → unframe (getCommandBytesWithCRC32 cmd payload) = Some (command_byte cmd, payload).
Proof.
  intros Hp. unfold unframe. rewrite frame_length. cbn [Nat.ltb Nat.leb Nat.add Nat.sub].
  rewrite frame_eq, take_app_length', drop_app_length' by (cbn; lia).
  rewrite le_decode_encode; [by rewrite Z.eqb_refl|].
  apply crc32_word. constructor; [apply command_byte_word|done].
Qed.

Lemma toOffsetBytes_le v : word 24 v → le_decode (toOffsetBytes v) = v.
Proof.
  intros Hv. replace (toOffsetBytes v) with (le_encode 3 v); [by apply le_decode_encode|].
  unfold toOffsetBytes, u8, wrap. change 0xFF with (Z.ones 8). rewrite !Z.land_ones by lia.
  rewrite !Z.shiftr_div_pow2 by lia. rewrite !Z.mod_mod by lia. cbn [le_encode].
  change (2 ^ 8) with 256. change (2 ^ 16) with (256 * 256). by rewrite Z.div_div.
Qed.

Lemma unpack_payload data offset :
  (1 ≤ length data ≤ 256)%nat → word 24 offset → unpack (getWriteCommandPayload data offset) = Some (offset, data).
Proof.
  intros Hl Ho. unfold getWriteCommandPayload, unpack. cbn [toOffsetBytes app].
  replace (Z.to_nat (u8 (Z.of_nat (length data) - 1) + 1)) with (length data).
  2:{ unfold u8. rewrite wrap_small by (unfold word; lia). lia. }
  rewrite length_app, length_replicate, Nat.eqb_refl. repeat f_equal.
  - by apply toOffsetBytes_le.
  - by apply take_app_length.
Qed.

Lemma payload_ok data offset : bytes_ok data → bytes_ok (getWriteCommandPayload data offset).
Proof.
  intros Hd. unfold getWriteCommandPayload, toOffsetBytes. cbn [app].
  do 4 (constructor; [by apply wrap_word|]). apply bytes_ok_app. split; [done|].
  apply Forall_replicate. by vm_compute.
Qed.

(** ** Responses *)

Definition ask_response : buffer := getCommandBytesWithCRC32 GetResponseCommand [].

(** The polls of a response with what they come to: at most [tries] of them, all but the
    last pending. *)
Inductive answered (cmd : RecoveryCommand) (len : ResponseLength) : nat → list Obs → res string RecoveryResult → Prop :=
| answered_unopened n e : answered cmd len (S n) [] (Throw e)
| answered_unread n e : answered cmd len (S n) [Took ask_response None] (Throw e)
| answered_final n bytes r :
    length bytes = response_length len → bytes_ok bytes →
    ValidateGetResponseCmd cmd bytes len = r → r ≠ Pending →
    answered cmd len (S n) [Took ask_response (Some bytes)] (Ok r)
| answered_pending n bytes os r :
    ValidateGetResponseCmd cmd bytes len = Pending →
    answered cmd len n os r → answered cmd len (S n) (Took ask_response (Some bytes) :: os) r
| answered_late : answered cmd len 0 [] (Ok Pending).

Definition outcome_of {A B} (r : res string (A * B)) : res string A :=
  match r with Ok (a, _) => Ok a | Throw e => Throw e end.

Lemma response_sees dev len (Q : res string buffer → list Obs → Prop) :
  (∀ bytes, length bytes = response_length len → bytes_ok bytes → Q (Ok bytes) [Took ask_response (Some bytes)]) →
  (∀ e, Q (Throw e) [Took ask_response None]) → (∀ e, Q (Throw e) []) →
  sees (GetResponse dev len) Q.
Proof.
  intros HQ Hn He. apply sees_device; [|done]. intros fd.
  apply (sees_bind _ _ (λ r os, match r with
    | Ok (Some b) => Q (Ok b) os | Ok None => ∀ e, Q (Throw e) os | Throw e => False end)); [| |done].
  - apply sees_read; [destruct len; cbn; lia|apply frame_not_nil|rewrite frame_length; done| |apply Hn].
    intros bytes. apply HQ; [|apply fill_ok]. rewrite fill_length. by rewrite Nat2Z.id.
  - intros [b|] o Ho; apply sees_done; rewrite app_nil_r; [exact Ho|apply Ho].
Qed.

Lemma polled_sees dev n cmd len last :
  last.1 = Pending → sees (poll_response dev n cmd len last) (λ r os, answered cmd len n os (outcome_of r)).
Proof.
  revert last. induction n as [|n IH]; intros [l b] Hl; cbn [poll_response].
  - apply sees_done. cbn in *. subst l. constructor.
  - eapply (sees_bind _ _ (λ r os, match r with
      | Ok bytes => os = [Took ask_response (Some bytes)] ∧ length bytes = response_length len ∧ bytes_ok bytes
      | Throw e => os = [] ∨ os = [Took ask_response None] end)).
    + apply response_sees; [done|by right|by left].
    + intros bytes os (-> & Hb & Hok). cbv zeta. case_bool_decide as Hp.
      * apply sees_done. cbn. by apply answered_final.
      * apply sees_act; [done|]. intros _. eapply sees_impl; [by apply IH|].
        intros r os Ho. by apply answered_pending.
    + intros e os [-> | ->]; constructor.
Qed.

Lemma execute_sees dev cmd len :
  sees (executeGetResponseCmdAndValidateResponse dev cmd len) (λ r os, answered cmd len maxRetries os r).
Proof.
  eapply sees_bind; [by apply polled_sees| |].
  - intros [r b] os Ho. apply sees_done. by rewrite app_nil_r.
  - by intros e os Ho.
Qed.

(** ** Commands *)

(** A frame that is written, with its answer. *)
Inductive commanded (cmd : RecoveryCommand) (len : ResponseLength) (frame : buffer)
    : list Obs → res string RecoveryResult → Prop :=
| commanded_unopened e : commanded cmd len frame [] (Throw e)
| commanded_lost : commanded cmd len frame [Wrote frame false] (Ok FailedToReadData)
| commanded_answered os r : answered cmd len maxRetries os r → commanded cmd len frame (Wrote frame true :: os) r.

Lemma commanded_sees dev cmd len frame :
  frame ≠ [] → Z.of_nat (length frame) < 2 ^ 16 →
  sees (with_device dev (λ fd,
    ok ← sendI2cCmdForWrite fd (slave dev) frame;
    if negb ok then mret FailedToReadData else executeGetResponseCmdAndValidateResponse dev cmd len))
  (λ r os, commanded cmd len frame os r).
Proof.
  intros Hne Hl. apply sees_device; [|constructor]. intros fd.
  eapply (sees_bind _ _ (λ r os, match r with Ok ok => os = [Wrote frame ok] | Throw _ => False end));
    [by apply sees_write| |done].
  intros [] os ->; cbn [negb].
  - eapply sees_impl; [apply execute_sees|]. intros r os Ho. by constructor.
  - apply sees_done. constructor.
Qed.

Definition init_frame : buffer := getCommandBytesWithCRC32 Initialization [initResponseByte0].

Lemma init_sees dev :
  sees (performInitialization dev) (λ r os, commanded Initialization InitResponse init_frame os r).
Proof. apply commanded_sees; [apply frame_not_nil|unfold init_frame; by rewrite frame_length]. Qed.

(** ** Parts *)

(** The frames of a part from the offset [i] on. *)
Fixpoint frames (cmd : RecoveryCommand) (i : nat) (cs : list buffer) : list (RecoveryCommand * buffer) :=
  match cs with
  | [] => []
  | c :: cs =>
      (cmd, getCommandBytesWithCRC32 cmd (getWriteCommandPayload c (Z.of_nat i))) ::
      frames cmd (i + defaultChunkSize) cs
  end.

(** The course of frames that are sent one after the other. *)
Inductive delivered : list (RecoveryCommand * buffer) → list Obs → res string RecoveryResult → Prop :=
| delivered_all : delivered [] [] (Ok RecoveryOk)
| delivered_stops cmd frame plan os r :
    commanded cmd WriteResponse frame os r → r ≠ Ok RecoveryOk → delivered ((cmd, frame) :: plan) os r
| delivered_goes cmd frame plan os os' r :
    commanded cmd WriteResponse frame os (Ok RecoveryOk) → delivered plan os' r →
    delivered ((cmd, frame) :: plan) (os ++ os') r.

Lemma delivered_stop_app plan plan' os r : delivered plan os r → r ≠ Ok RecoveryOk → delivered (plan ++ plan') os r.
Proof. induction 1; intros Hr; cbn; [done|by apply delivered_stops|apply delivered_goes; auto]. Qed.

Lemma delivered_both plan plan' os os' r :
  delivered plan os (Ok RecoveryOk) → delivered plan' os' r → delivered (plan ++ plan') (os ++ os') r.
Proof.
  intros Hp Hp'. remember (Ok RecoveryOk) as x eqn:Hx.
  induction Hp as [|cmd frame plan os r' Hc Hr|cmd frame plan os1 os2 r' Hc Hp IH]; [done|done|].
  rewrite <- app_assoc. cbn. apply delivered_goes; auto.
Qed.

Lemma write_sees dev cmd chunk offset :
  (length chunk ≤ 128)%nat →
  sees (executeWriteImageCmd dev cmd chunk offset) (λ r os,
    commanded cmd WriteResponse (getCommandBytesWithCRC32 cmd (getWriteCommandPayload chunk offset)) os r).
Proof.
  intros Hl. apply commanded_sees; [apply frame_not_nil|]. rewrite frame_length. unfold getWriteCommandPayload.
  rewrite !length_app, length_replicate. unfold randomByteCount. cbn. lia.
Qed.

Lemma write_from_sees dev fuel cmd data i :
  (length data ≤ fuel + i)%nat →
  sees (write_from dev fuel cmd (length data) data i)
    (λ r os, delivered (frames cmd i (chunks defaultChunkSize (drop i data))) os r).
Proof.
  assert (Hend : ∀ i, (length data ≤ i)%nat →
    sees (mret RecoveryOk) (λ r os, delivered (frames cmd i (chunks defaultChunkSize (drop i data))) os r)).
  { intros j Hj. rewrite drop_ge by done. apply sees_done. constructor. }
  revert i. induction fuel as [|fuel IH]; intros i Hl; cbn [write_from]; [apply Hend; lia|].
  destruct (Nat.ltb_spec i (length data)) as [Hi|Hi]; [|by apply Hend]. cbv zeta.
  rewrite chunks_cons; [|unfold defaultChunkSize; lia|].
  2:{ intros Hd. apply (f_equal length) in Hd. rewrite length_drop in Hd. cbn in Hd. lia. }
  replace (take (Nat.min _ _) (drop i data)) with (take defaultChunkSize (drop i data)).
  2:{ destruct (Nat.min_spec defaultChunkSize (length data - i)) as [[? ->]|[? ->]]; [done|].
      rewrite !take_ge by (rewrite length_drop; lia). done. }
  rewrite drop_drop. cbn [frames].
  eapply sees_bind; [apply write_sees; rewrite length_take; unfold defaultChunkSize; lia| |].
  - intros r os Hc. case_bool_decide as Hr.
    + apply sees_done. rewrite app_nil_r. apply delivered_stops; [done|congruence].
    + subst r. eapply sees_impl; [apply IH; unfold defaultChunkSize; lia|].
      intros r os' Hd. by apply delivered_goes.
  - intros e os Hc. by apply delivered_stops.
Qed.

Definition part_frames (cmd : RecoveryCommand) (data : buffer) : list (RecoveryCommand * buffer) :=
  frames cmd 0 (chunks defaultChunkSize data).

Lemma writeImage_sees dev cmd data :
  sees (writeImage dev cmd (length data) data) (λ r os, delivered (part_frames cmd data) os r).
Proof.
  pose proof (write_from_sees dev (length data) cmd data 0) as Hw. rewrite drop_0 in Hw. apply Hw. lia.
Qed.

(** ** The whole recovery *)

(** The frames of an image in their order. *)
Definition frame_plan (image : Image) : list (RecoveryCommand * buffer) :=
  part_frames KeyHashBlobWrite (blobBin image) ++ part_frames HeaderWrite (headerBin image) ++
  part_frames FWImageWrite (fwBin image).

(** An image that is sent: the frames are not all answered, or they are and the device is
    told to run them. *)
Inductive sent (image : Image) : list Obs → res string RecoveryResult → Prop :=
| sent_stops os r : delivered (frame_plan image) os r → r ≠ Ok RecoveryOk → sent image os r
| sent_unopened os e : delivered (frame_plan image) os (Ok RecoveryOk) → sent image os (Throw e)
| sent_run os ok :
    delivered (frame_plan image) os (Ok RecoveryOk) →
    sent image (os ++ [Wrote [command_byte SRAMExe] ok]) (Ok (if ok : bool then RecoveryOk else SRAMCmdFailed)).

Lemma send_sees dev image : sees (send_parts dev image) (λ r os, sent image os r).
Proof.
  assert (Hstep : ∀ plan1 plan2 data cmd (k : RecoveryResult → P RecoveryResult) os1,
    frame_plan image = plan1 ++ part_frames cmd data ++ plan2 → delivered plan1 os1 (Ok RecoveryOk) →
    (∀ os, delivered (plan1 ++ part_frames cmd data) os (Ok RecoveryOk) →
           sees (k RecoveryOk) (λ r os', sent image (os ++ os') r)) →
    sees (r ← writeImage dev cmd (length data) data; if bool_decide (r ≠ RecoveryOk) then mret r else k r)
      (λ r os, sent image (os1 ++ os) r)).
  { intros plan1 plan2 data cmd k os1 Hp H1 Hk. eapply sees_bind; [apply writeImage_sees| |].
    - intros r os Hd. case_bool_decide as Hr.
      + apply sees_done. rewrite app_nil_r. apply sent_stops; [|congruence]. rewrite Hp.
        apply delivered_both; [done|]. apply delivered_stop_app; [done|congruence].
      + subst r. eapply sees_impl; [apply (Hk (os1 ++ os)), delivered_both; done|].
        intros r os'. by rewrite app_assoc.
    - intros e os Hd. apply sent_stops; [|done]. rewrite Hp. apply delivered_both; [done|]. by apply delivered_stop_app. }
  unfold send_parts. eapply sees_impl.
  - apply (Hstep [] (part_frames HeaderWrite (headerBin image) ++ part_frames FWImageWrite (fwBin image))
      _ _ _ []); [done|constructor|].
    intros os Hos. apply (Hstep (part_frames KeyHashBlobWrite (blobBin image)) (part_frames FWImageWrite (fwBin image)));
      [done|exact Hos|]. clear os Hos.
    intros os Hos. apply (Hstep (part_frames KeyHashBlobWrite (blobBin image) ++ part_frames HeaderWrite (headerBin image)) []);
      [unfold frame_plan; by rewrite app_nil_r, app_assoc|exact Hos|]. clear os Hos.
    intros os Hos. rewrite <- app_assoc in Hos. fold (frame_plan image) in Hos.
    eapply (sees_bind _ _ (λ r os, match r with Ok ok => os = [Wrote [command_byte SRAMExe] ok] | Throw _ => os = [] end)).
    + by apply sees_write_register.
    + intros ok o ->. apply sees_done. rewrite app_nil_r. by apply sent_run.
    + intros e o ->. rewrite app_nil_r. by apply sent_unopened.
  - done.
Qed.

(** A recovery from a file. *)
Definition from_file (revision : Revision) (path : string) (os : list Obs) (r : res string RecoveryResult) : Prop :=
  match os with
  | Loaded path' (Some file) :: os =>
      path' = path ∧
      match parts revision (u8 <$> file) with
      | inl result => os = [] ∧ r = Ok result
      | inr image => sent image os r
      end
  | _ => os = [Loaded path None] ∧ r = Ok FileOpenFailure
  end.

Lemma recovery_sees dev revision v1 v2 v3 imgFilePath :
  sees (performGlacierRecovery dev revision v1 v2 v3 imgFilePath) (λ r os, from_file revision imgFilePath os r).
Proof.
  apply sees_step. intros [file|]; [|by apply sees_done]. cbn [prog_bind obs_of app].
  rewrite load_parts by apply u8_ok. cbn [from_file]. destruct (parts revision (u8 <$> file)) as [result|image];
    [by apply sees_done|]. eapply sees_impl; [apply send_sees|done].
Qed.

(** ** The device *)

(** What a device holds that takes the frames. *)
Record Memory := mkMemory { key_hash_blob : buffer; header : buffer; firmware : buffer; executing : bool }.

Definition blank : Memory := mkMemory [] [] [] false.

Definition part_of (cmd : RecoveryCommand) (m : Memory) : buffer :=
  match cmd with
  | KeyHashBlobWrite => key_hash_blob m
  | HeaderWrite => header m
  | FWImageWrite => firmware m
  | _ => []
  end.

Definition set_part (cmd : RecoveryCommand) (data : buffer) (m : Memory) : Memory :=
  match cmd with
  | KeyHashBlobWrite => mkMemory data (header m) (firmware m) (executing m)
  | HeaderWrite => mkMemory (key_hash_blob m) data (firmware m) (executing m)
  | FWImageWrite => mkMemory (key_hash_blob m) (header m) data (executing m)
  | _ => m
  end.

Definition part_command (c : Z) : option RecoveryCommand :=
  match c with
  | 0x65 => Some HeaderWrite
  | 0x66 => Some KeyHashBlobWrite
  | 0x67 => Some FWImageWrite
  | _ => None
  end.

(** A frame is taken when it is whole and goes on where its part has ended. *)
Definition receive (m : Memory) (frame : buffer) : option Memory :=
  if executing m then None else
  if bool_decide (frame = [command_byte SRAMExe])
  then Some (mkMemory (key_hash_blob m) (header m) (firmware m) true) else
  '(c, payload) ← unframe frame;
  '(offset, data) ← unpack payload;
  cmd ← part_command c;
  if offset =? Z.of_nat (length (part_of cmd m)) then Some (set_part cmd (part_of cmd m ++ data) m) else None.

Fixpoint receive_all (m : Memory) (fs : list buffer) : option Memory :=
  match fs with
  | [] => Some m
  | frame :: fs => m ← receive m frame; receive_all m fs
  end.

Lemma receive_all_app m fs fs' : receive_all m (fs ++ fs') = receive_all m fs ≫= λ m, receive_all m fs'.
Proof. revert m. induction fs as [|f fs IH]; intros m; [done|]. cbn. destruct (receive m f); [apply IH|done]. Qed.

(** The commands that write a part. *)
Definition writes_part (cmd : RecoveryCommand) : Prop := part_command (command_byte cmd) = Some cmd.

Lemma receive_chunk cmd m c :
  writes_part cmd → executing m = false → bytes_ok c → (1 ≤ length c ≤ 256)%nat →
  Z.of_nat (length (part_of cmd m)) < 2 ^ 24 →
  receive m (getCommandBytesWithCRC32 cmd (getWriteCommandPayload c (Z.of_nat (length (part_of cmd m))))) =
  Some (set_part cmd (part_of cmd m ++ c) m).
Proof.
  intros Hcmd He Hc Hl Ho. unfold receive. rewrite He, bool_decide_false.
  2:{ intros H%(f_equal length). rewrite frame_length in H. done. }
  rewrite unframe_frame by by apply payload_ok. cbn [mbind option_bind].
  rewrite unpack_payload by (done || unfold word; lia). cbn [mbind option_bind]. rewrite Hcmd.
  cbn [mbind option_bind]. by rewrite Z.eqb_refl.
Qed.

Lemma part_set cmd data m : writes_part cmd → part_of cmd (set_part cmd data m) = data.
Proof. by destruct cmd. Qed.

Lemma set_set cmd data data' m : set_part cmd data (set_part cmd data' m) = set_part cmd data m.
Proof. by destruct cmd. Qed.

Lemma set_executing cmd data m : executing (set_part cmd data m) = executing m.
Proof. by destruct cmd. Qed.

Lemma set_same cmd m : set_part cmd (part_of cmd m ++ []) m = m.
Proof. rewrite app_nil_r. by destruct cmd, m. Qed.

(** Whatever is sent of the frames of some data, what the device has of it is its start. *)
Lemma part_received cmd data m fs :
  writes_part cmd → executing m = false → bytes_ok data →
  Z.of_nat (length (part_of cmd m) + length data) ≤ 2 ^ 24 →
  fs `prefix_of` (frames cmd (length (part_of cmd m)) (chunks defaultChunkSize data)).*2 →
  ∃ got, got `prefix_of` data ∧
    receive_all m fs = Some (set_part cmd (part_of cmd m ++ got) m) ∧
    (fs = (frames cmd (length (part_of cmd m)) (chunks defaultChunkSize data)).*2 → got = data).
Proof.
  intros Hcmd. remember (length data) as n eqn:Hn. revert data Hn m fs.
  induction (lt_wf n) as [n _ IH]. intros data -> m fs He Hd Hl Hfs.
  destruct (decide (data = [])) as [->|Hne].
  { exists []. apply prefix_nil_inv in Hfs. subst fs. by rewrite set_same. }
  rewrite chunks_cons in * by (done || unfold defaultChunkSize; lia). cbn [frames fmap list_fmap snd] in *.
  assert (H1 : (1 ≤ length (take defaultChunkSize data) ≤ 256)%nat).
  { rewrite length_take. unfold defaultChunkSize. destruct data; [done|]. cbn [length]. lia. }
  destruct fs as [|f fs]; [exists []; rewrite set_same; split_and!; [apply prefix_nil|done|done]|].
  apply prefix_cons_inv_1 in Hfs as Hf. subst f. apply prefix_cons_inv_2 in Hfs.
  cbn [receive_all]. rewrite receive_chunk by (done || (by apply bytes_ok_take) || (destruct data; [done|cbn [length] in Hl; lia])).
  cbn [mbind option_bind]. set (c := take defaultChunkSize data) in *. set (m1 := set_part cmd (part_of cmd m ++ c) m).
  assert (Hp : part_of cmd m1 = part_of cmd m ++ c) by by apply part_set.
  destruct (decide (drop defaultChunkSize data = [])) as [Hlast|Hmore].
  - rewrite Hlast in Hfs |- *. apply prefix_nil_inv in Hfs. subst fs. exists c.
    split_and!; [exists (drop defaultChunkSize data); unfold c; by rewrite take_drop|done|].
    intros _. unfold c. rewrite <- (take_drop defaultChunkSize data) at 2. by rewrite Hlast, app_nil_r.
  - assert (Hc : length c = defaultChunkSize).
    { unfold c. rewrite length_take.
      assert (length (drop defaultChunkSize data) ≠ 0%nat) by (intros H; apply Hmore; by apply nil_length_inv).
      rewrite length_drop in *. lia. }
    assert (Hlp : (length (part_of cmd m) + defaultChunkSize)%nat = length (part_of cmd m1)) by (rewrite Hp, length_app; lia).
    rewrite Hlp in Hfs |- *.
    assert (Hlt : (length (drop defaultChunkSize data) < length data)%nat).
    { rewrite length_drop. unfold defaultChunkSize. destruct data; [done|cbn [length]; lia]. }
    destruct (IH _ Hlt (drop defaultChunkSize data) eq_refl m1 fs) as (got & Hgot & Hr & Hall); [| | |done|].
    + unfold m1. by rewrite set_executing.
    + by apply bytes_ok_drop.
    + rewrite Hp, length_app, length_drop. unfold c in Hc |- *. rewrite length_take in Hc |- *. lia.
    + exists (c ++ got). split_and!.
      * destruct Hgot as [k Hk]. exists k. unfold c. by rewrite <- app_assoc, <- Hk, take_drop.
      * rewrite Hr, Hp. unfold m1. by rewrite set_set, app_assoc.
      * intros [= Hfs']. rewrite (Hall Hfs'). unfold c. apply take_drop.
Qed.

(** What the device has of an image: parts of it that are complete but for the one that
    is under way; it runs only when all of it is there. *)
Definition holds (image : Image) (m : Memory) : Prop :=
  key_hash_blob m `prefix_of` blobBin image ∧ header m `prefix_of` headerBin image ∧
  firmware m `prefix_of` fwBin image ∧
  (header m ≠ [] → key_hash_blob m = blobBin image) ∧ (firmware m ≠ [] → header m = headerBin image) ∧
  (executing m = true → m = mkMemory (blobBin image) (headerBin image) (fwBin image) true).

Definition image_ok (image : Image) : Prop :=
  Forall (λ part, bytes_ok part ∧ Z.of_nat (length part) ≤ 2 ^ 24 ∧ part ≠ []) [blobBin image; headerBin image; fwBin image].

Definition all_frames (image : Image) : list buffer := (frame_plan image).*2 ++ [[command_byte SRAMExe]].

Lemma prefix_split (fs l1 l2 : list buffer) :
  fs `prefix_of` l1 ++ l2 → fs `prefix_of` l1 ∨ ∃ fs', fs = l1 ++ fs' ∧ fs' `prefix_of` l2.
Proof.
  revert fs. induction l1 as [|x l1 IH]; intros fs Hfs; [right; by exists fs|].
  destruct fs as [|f fs]; [left; apply prefix_nil|]. cbn in Hfs.
  apply prefix_cons_inv_1 in Hfs as Hf. subst f. apply prefix_cons_inv_2 in Hfs.
  destruct (IH _ Hfs) as [H|(fs' & -> & H)]; [left; by apply prefix_cons|right; by exists fs'].
Qed.

Lemma prefix_more (l l' : list buffer) x k : l `prefix_of` l' → l ≠ l' ++ x :: k.
Proof. intros Hp ->. apply prefix_length in Hp. rewrite length_app in Hp. cbn in Hp. lia. Qed.

Lemma prefix_one (fs : list buffer) x : fs `prefix_of` [x] → fs = [] ∨ fs = [x].
Proof.
  destruct fs as [|f [|g k]]; intros Hp; [by left| |].
  - apply prefix_cons_inv_1 in Hp. subst f. by right.
  - apply prefix_length in Hp. cbn in Hp. lia.
Qed.

(** The frames of a part, to a device that has nothing of it. *)
Definition sent_part (cmd : RecoveryCommand) (data : buffer) : list buffer := (part_frames cmd data).*2.

Section Parts.
Context (cmd : RecoveryCommand) (data : buffer) (m : Memory).
Context (part : writes_part cmd) (idle : executing m = false) (empty : part_of cmd m = []).
Context (data_ok : bytes_ok data ∧ Z.of_nat (length data) ≤ 2 ^ 24 ∧ data ≠ []).

Lemma part_sent fs :
  fs `prefix_of` sent_part cmd data →
  ∃ got, got `prefix_of` data ∧ receive_all m fs = Some (set_part cmd got m) ∧ (fs = sent_part cmd data → got = data).
Proof.
  intros Hfs. destruct data_ok as (Hb & Hl & _). destruct (part_received cmd data m fs) as (got & Hg & Hr & Ha);
    rewrite ?empty; try done. rewrite empty in Hr, Ha. by exists got.
Qed.

Lemma part_full : receive_all m (sent_part cmd data) = Some (set_part cmd data m).
Proof. destruct (part_sent (sent_part cmd data)) as (got & _ & Hr & Ha); [done|]. by rewrite Hr, (Ha eq_refl). Qed.
End Parts.

Lemma plan_received image fs :
  image_ok image → fs `prefix_of` all_frames image →
  ∃ m, receive_all blank fs = Some m ∧ holds image m ∧ (fs = all_frames image → executing m = true).
Proof.
  destruct image as [h w b]. unfold image_ok, all_frames, frame_plan. cbn [blobBin headerBin fwBin].
  intros [Hb [Hh [Hw _]%Forall_cons]%Forall_cons]%Forall_cons Hfs.
  rewrite !fmap_app, <- !app_assoc in *.
  fold (sent_part KeyHashBlobWrite b) (sent_part HeaderWrite h) (sent_part FWImageWrite w) in *.
  assert (Hlast : ∀ l : list buffer, ∃ x k, l ++ [[command_byte SRAMExe]] = x :: k) by (intros []; by do 2 eexists).
  apply prefix_split in Hfs as [Hfs|(fs1 & -> & Hfs)].
  { destruct (part_sent KeyHashBlobWrite b blank eq_refl eq_refl eq_refl Hb fs Hfs) as (got & Hg & Hr & _).
    eexists. split; [exact Hr|]. split; [by split_and!; try apply prefix_nil|]. intros ->. exfalso.
    destruct (Hlast (sent_part HeaderWrite h ++ sent_part FWImageWrite w)) as (x & k & Hx).
    rewrite <- app_assoc in Hx. rewrite Hx in Hfs. by eapply prefix_more. }
  rewrite receive_all_app, part_full by done. cbn [mbind option_bind]. set (m1 := set_part _ b blank).
  apply prefix_split in Hfs as [Hfs|(fs2 & -> & Hfs)].
  { destruct (part_sent HeaderWrite h m1 eq_refl eq_refl eq_refl Hh fs1 Hfs) as (got & Hg & Hr & _).
    eexists. split; [exact Hr|]. split; [by split_and!; try apply prefix_nil|]. intros Hall%app_inv_head. exfalso.
    destruct (Hlast (sent_part FWImageWrite w)) as (x & k & Hx). rewrite Hx in Hall. by eapply prefix_more. }
  rewrite receive_all_app, part_full by done. cbn [mbind option_bind]. set (m2 := set_part _ h m1).
  apply prefix_split in Hfs as [Hfs|(fs3 & -> & Hfs)].
  { destruct (part_sent FWImageWrite w m2 eq_refl eq_refl eq_refl Hw fs2 Hfs) as (got & Hg & Hr & _).
    eexists. split; [exact Hr|]. split; [by split_and!; try apply prefix_nil|].
    intros Hall%app_inv_head%app_inv_head. exfalso. by eapply prefix_more. }
  rewrite receive_all_app, part_full by done. cbn [mbind option_bind].
  destruct (prefix_one _ _ Hfs) as [-> | ->].
  - eexists. split; [done|]. split; [by split_and!|]. by intros ?%app_inv_head%app_inv_head%app_inv_head.
  - exists (mkMemory b h w true). by split_and!.
Qed.

(** * The image that a Glacier recovery leaves *)

#[local] Open Scope Z_scope.

(** ** What was written *)

Definition written (os : list Obs) : list buffer :=
  omap (λ o, match o with Wrote data _ => Some data | _ => None end) os.

Lemma written_app os os' : written (os ++ os') = written os ++ written os'.
Proof. apply omap_app. Qed.

Lemma answered_written cmd len n os r : answered cmd len n os r → written os = [].
Proof. by induction 1. Qed.

Lemma answered_length cmd len n os r : answered cmd len n os r → (length os ≤ n)%nat.
Proof. induction 1; cbn; lia. Qed.

Lemma commanded_written cmd len frame os r :
  commanded cmd len frame os r → written os `prefix_of` [frame] ∧ (r = Ok RecoveryOk → written os = [frame]).
Proof.
  intros [e| |os' r' Ha]; [split; [apply prefix_nil|done]|done|].
  change (written (Wrote frame true :: os')) with (frame :: written os').
  by rewrite (answered_written _ _ _ _ _ Ha).
Qed.

Lemma commanded_length cmd len frame os r : commanded cmd len frame os r → (length os ≤ 1 + maxRetries)%nat.
Proof.
  intros [e| |os' r' Ha]; unfold maxRetries; cbn [length]; [lia..|]. apply answered_length in Ha. unfold maxRetries in Ha. lia.
Qed.

Lemma delivered_written plan os r :
  delivered plan os r → written os `prefix_of` plan.*2 ∧ (r = Ok RecoveryOk → written os = plan.*2).
Proof.
  induction 1 as [|cmd frame plan os r Hc Hr|cmd frame plan os os' r Hc Hd [IHp IHe]]; [done| |].
  - apply commanded_written in Hc as [Hc _]. cbn. split; [|done]. etrans; [exact Hc|]. by exists plan.*2.
  - apply commanded_written in Hc as [_ Hc]. rewrite written_app, Hc by done. cbn.
    split; [by apply prefix_cons|]. intros Hr. by rewrite IHe.
Qed.

Lemma delivered_length plan os r : delivered plan os r → (length os ≤ (1 + maxRetries) * length plan)%nat.
Proof.
  induction 1 as [|cmd frame plan os r Hc Hr|cmd frame plan os os' r Hc Hd IH];
    rewrite ?length_app; cbn [length]; try apply commanded_length in Hc; unfold maxRetries in *; lia.
Qed.

Lemma sent_written image os r :
  sent image os r → written os `prefix_of` all_frames image ∧ (r = Ok RecoveryOk → written os = all_frames image).
Proof.
  intros [os' r' Hd Hr|os' e Hd|os' ok Hd]; apply delivered_written in Hd as [Hp He]; unfold all_frames.
  - split; [|done]. by apply prefix_app_r.
  - split; [|done]. by apply prefix_app_r.
  - rewrite written_app, He by done. by split.
Qed.

Lemma sent_length image os r : sent image os r → (length os ≤ 1 + (1 + maxRetries) * length (frame_plan image))%nat.
Proof.
  intros [os' r' Hd Hr|os' e Hd|os' ok Hd]; apply delivered_length in Hd; rewrite ?length_app; cbn [length]; lia.
Qed.

(** ** Responses that are taken *)

Lemma at_last (l k : buffer) i : at_ (l ++ k) (length l + i) = at_ k i.
Proof. unfold at_. rewrite app_nth2 by lia. f_equal. lia. Qed.

Lemma packed_last l k : length k = 4%nat → packed_crc (l ++ k) (length l + 4) = packed_crc k 4.
Proof.
  intros Hk. unfold packed_crc.
  replace (length l + 4 - 1)%nat with (length l + 3)%nat by lia.
  replace (length l + 4 - 2)%nat with (length l + 2)%nat by lia.
  replace (length l + 4 - 3)%nat with (length l + 1)%nat by lia.
  replace (length l + 4 - 4)%nat with (length l + 0)%nat by lia.
  by rewrite !at_last.
Qed.

(** A response that is taken is intact. *)
Lemma accepted_intact cmd body crc len :
  length crc = 4%nat → ValidateGetResponseCmd cmd (body ++ crc) len = RecoveryOk → crc32 body = packed_crc crc 4.
Proof.
  intros Hc Hv. unfold ValidateGetResponseCmd in Hv.
  destruct (at_ _ 1 =? command_byte GetResponseCommand); [done|].
  destruct (negb (at_ _ 1 =? command_byte cmd)); [done|]. cbv zeta in Hv.
  destruct (Nat.eqb_spec (length (body ++ crc)) (response_length len)) as [Hl|]; [|done]. cbn [negb] in Hv.
  destruct (Z.eqb_spec (crc32 (take (length (body ++ crc) - 4) (body ++ crc))) (packed_crc (body ++ crc) (response_length len)))
    as [He|]; [|done].
  rewrite <- Hl, length_app, Hc, packed_last in He by done.
  rewrite take_app_length' in He by lia. done.
Qed.

(** ** Frame by frame *)

(** The answers to a frame that let the next one follow, as the protocol has them: some
    that are pending, and the response of a write to the command of the frame: its three
    bytes with none of the four errors set in the last of them, and their CRC. *)
Definition cleared (frame : buffer) (polls : list Obs) : Prop :=
  ∃ (pendings : list buffer) b0 command status,
    frame !! 0%nat = Some command ∧
    polls = (λ p, Took ask_response (Some p)) <$>
      pendings ++ [[b0; command; status] ++ le_encode 4 (crc32_bitwise [b0; command; status])] ∧
    Forall (λ p, at_ p 1 = 0x71) pendings ∧
    (length polls ≤ 5)%nat ∧
    ∀ bit, 0 ≤ bit < 4 → Z.testbit status bit = false.

(** Some frames sent in their order, as far as the device answers them. *)
Inductive in_turn : list buffer → list Obs → Prop :=
| turn_none frames : in_turn frames []
| turn_lost frame frames : in_turn (frame :: frames) [Wrote frame false]
| turn_last frame frames polls :
    Forall (λ o, ∃ bytes, o = Took ask_response bytes) polls → (length polls ≤ 5)%nat →
    in_turn (frame :: frames) (Wrote frame true :: polls)
| turn_next frame frames polls os :
    cleared frame polls → in_turn frames os → in_turn (frame :: frames) (Wrote frame true :: polls ++ os).

Lemma lor_word hi lo w : 0 ≤ w → word w lo → (hi ≪ w) .| lo = hi * 2 ^ w + lo.
Proof.
  intros Hw Hlo. unfold word in Hlo. pose proof (land_shiftl_low hi lo w ltac:(lia) ltac:(lia)) as Hl.
  rewrite <- Z.lxor_lor, <- Z.add_nocarry_lxor by done. rewrite Z.shiftl_mul_pow2 by lia. lia.
Qed.

Lemma quad_little b0 b1 b2 b3 :
  bytes_ok [b0; b1; b2; b3] → packed_crc [b0; b1; b2; b3] 4 = le_decode [b0; b1; b2; b3].
Proof.
  intros Hb. pose proof (le_decode_word _ Hb) as Hw. cbn in Hw.
  unfold bytes_ok in Hb. rewrite !Forall_cons in Hb. destruct Hb as (H0 & H1 & H2 & H3 & _). unfold word in *.
  unfold packed_crc. change (at_ _ (4 - 1)) with b3. change (at_ _ (4 - 2)) with b2.
  change (at_ _ (4 - 3)) with b1. change (at_ _ (4 - 4)) with b0.
  rewrite <- !Z.lor_assoc. rewrite (lor_word b1 b0 8), (lor_word b2 _ 16), (lor_word b3 _ 24) by (done || unfold word; lia).
  unfold u32. rewrite wrap_small by (unfold word; lia). cbn [le_decode]. lia.
Qed.

(** The four errors of a response. *)
Lemma errors_clear status cmd response :
  word 8 status → at_ response 2 = status → ValidateWriteImageResponse cmd response = RecoveryOk →
  ∀ bit, 0 ≤ bit < 4 → Z.testbit status bit = false.
Proof.
  unfold ValidateWriteImageResponse. intros Hs -> Hv bit Hbit.
  assert (Hall : (status .& crcFailField =? 0) && (status .& illegalLengthField =? 0) &&
                 (status .& invalidCmdSignatureField =? 0) && (status .& illegalOffsetField =? 0) = true).
  { destruct (status .& crcFailField =? 0); [|done]. destruct (status .& illegalLengthField =? 0); [|done].
    destruct (status .& invalidCmdSignatureField =? 0); [|done].
    destruct (status .& illegalOffsetField =? 0); [done|]. by destruct cmd. }
  pose proof (word_check (λ status, implb ((status .& crcFailField =? 0) && (status .& illegalLengthField =? 0) &&
                 (status .& invalidCmdSignatureField =? 0) && (status .& illegalOffsetField =? 0))
    (negb (existsb (λ bit, Z.testbit status bit) [0; 1; 2; 3]))) 8 status ltac:(lia) ltac:(by vm_compute) Hs) as Hc.
  cbn beta in Hc. rewrite Hall in Hc. cbn [implb existsb] in Hc.
  assert (bit = 0 ∨ bit = 1 ∨ bit = 2 ∨ bit = 3) as [->|[->|[->| ->]]] by lia;
    apply negb_true_iff in Hc; rewrite !orb_false_iff in Hc; tauto.
Qed.

Lemma accepted_write cmd bytes len :
  writes_part cmd → ValidateGetResponseCmd cmd bytes len = RecoveryOk →
  at_ bytes 1 = command_byte cmd ∧ ValidateWriteImageResponse cmd bytes = RecoveryOk.
Proof.
  intros Hcmd Hv. unfold ValidateGetResponseCmd in Hv. destruct (at_ bytes 1 =? command_byte GetResponseCommand); [done|].
  destruct (Z.eqb_spec (at_ bytes 1) (command_byte cmd)) as [Hc|]; [|done]. split; [done|]. cbn [negb] in Hv. cbv zeta in Hv.
  assert (cmd ≠ Initialization ∧ cmd ≠ GetFWInfo ∧ cmd ∈ [HeaderWrite; KeyHashBlobWrite; FWImageWrite])
    as (Hi & Hg & Hw) by (destruct cmd; try done; set_solver).
  rewrite (bool_decide_false _ Hi), (bool_decide_false _ Hg), (bool_decide_true _ Hw) in Hv. cbn [andb] in Hv.
  destruct (negb _); [done|]. by destruct (negb _).
Qed.

Lemma checksum_bits l : bytes_ok l → crc32_bitwise l = crc32 l.
Proof. intros Hl. unfold crc32, crc32_bitwise. by rewrite crc32_register_bits. Qed.

(** A response that is taken is one the protocol knows as clear. *)
Lemma accepted_clear cmd bytes :
  writes_part cmd → length bytes = 7%nat → bytes_ok bytes → ValidateGetResponseCmd cmd bytes WriteResponse = RecoveryOk →
  ∃ b0 status, bytes = [b0; command_byte cmd; status] ++ le_encode 4 (crc32_bitwise [b0; command_byte cmd; status]) ∧
    ∀ bit, 0 ≤ bit < 4 → Z.testbit status bit = false.
Proof.
  intros Hcmd Hl Hb Hv. destruct bytes as [|b0 [|c [|status crc]]]; try done.
  change ([b0; c; status]) with ([b0; c; status] ++ []) in *. injection Hl as Hl.
  change (b0 :: c :: status :: crc) with ([b0; c; status] ++ crc) in Hv, Hb |- *.
  apply bytes_ok_app in Hb as [Hb Hc].
  pose proof (accepted_intact cmd [b0; c; status] crc WriteResponse Hl Hv) as Hcrc.
  assert (packed_crc crc 4 = le_decode crc) as Hp.
  { destruct crc as [|? [|? [|? [|? [|? ?]]]]]; try done. by apply quad_little. }
  assert (crc = le_encode 4 (crc32_bitwise [b0; c; status])) as Hcrc'.
  { rewrite checksum_bits, Hcrc, Hp, <- Hl by done. symmetry. by apply le_encode_decode. }
  destruct (accepted_write _ _ _ Hcmd Hv) as [Hcmd' Hw]. cbn in Hcmd'. subst c.
  exists b0, status. rewrite <- Hcrc'. split; [done|].
  unfold bytes_ok in Hb. rewrite !Forall_cons in Hb. destruct Hb as (_ & _ & Hs & _).
  by apply (errors_clear status cmd ([b0; command_byte cmd; status] ++ crc) Hs).
Qed.

Lemma pending_byte cmd bytes len : ValidateGetResponseCmd cmd bytes len = Pending → at_ bytes 1 = 0x71.
Proof.
  unfold ValidateGetResponseCmd. destruct (Z.eqb_spec (at_ bytes 1) (command_byte GetResponseCommand)) as [->|]; [done|].
  cbv zeta. unfold ValidateWriteImageResponse. by repeat case_match.
Qed.

Lemma answered_ok cmd len n os :
  answered cmd len n os (Ok RecoveryOk) →
  ∃ (pendings : list buffer) bytes, os = (λ p, Took ask_response (Some p)) <$> pendings ++ [bytes] ∧
    Forall (λ p, at_ p 1 = 0x71) pendings ∧ length bytes = response_length len ∧ bytes_ok bytes ∧
    ValidateGetResponseCmd cmd bytes len = RecoveryOk.
Proof.
  remember (Ok RecoveryOk) as x eqn:Hx. induction 1 as [| |n bytes r Hl Hb Hv _|n bytes os r Hv Ha IH|]; try done.
  - injection Hx as ->. by exists [], bytes.
  - destruct (IH Hx) as (ps & last & -> & Hp & Hlast). exists (bytes :: ps), last. split; [done|].
    split; [|done]. constructor; [by eapply pending_byte|done].
Qed.

Lemma answered_polls cmd len n os r : answered cmd len n os r → Forall (λ o, ∃ bytes, o = Took ask_response bytes) os.
Proof. induction 1; repeat constructor; eauto. Qed.

(** A frame that starts with the command of a part, and its answer. *)
Lemma commanded_turn cmd frame frames os r :
  commanded cmd WriteResponse frame os r → in_turn (frame :: frames) os.
Proof.
  intros [e| |os' r' Ha]; [constructor..|]. constructor; [by eapply answered_polls|by apply answered_length in Ha].
Qed.

Lemma commanded_clear cmd frame frames os os' :
  writes_part cmd → frame !! 0%nat = Some (command_byte cmd) →
  commanded cmd WriteResponse frame os (Ok RecoveryOk) → in_turn frames os' → in_turn (frame :: frames) (os ++ os').
Proof.
  intros Hcmd Hf Hc Hos'. remember (Ok RecoveryOk) as x eqn:Hx. destruct Hc as [e| |os r Ha]; [done|done|]. subst r. cbn [app].
  constructor; [|done]. pose proof (answered_length _ _ _ _ _ Ha) as Hlen.
  apply answered_ok in Ha as (ps & bytes & -> & Hp & Hl & Hb & Hv).
  destruct (accepted_clear _ _ Hcmd Hl Hb Hv) as (b0 & status & -> & Hbits). by exists ps, b0, (command_byte cmd), status.
Qed.

(** The frames of a plan are those of parts. *)
Definition plan_ok (plan : list (RecoveryCommand * buffer)) : Prop :=
  Forall (λ '(cmd, frame), writes_part cmd ∧ frame !! 0%nat = Some (command_byte cmd)) plan.

Lemma frames_ok cmd i cs : writes_part cmd → plan_ok (frames cmd i cs).
Proof.
  intros Hcmd. revert i. induction cs as [|c cs IH]; intros i; cbn [frames]; [constructor|].
  constructor; [|apply IH]. by rewrite frame_eq.
Qed.

Lemma plan_image_ok image : plan_ok (frame_plan image).
Proof. unfold plan_ok, frame_plan. rewrite !Forall_app. by split_and!; apply frames_ok. Qed.

Lemma delivered_turn plan rest os r :
  plan_ok plan → delivered plan os r → r ≠ Ok RecoveryOk → in_turn (plan.*2 ++ rest) os.
Proof.
  intros Hp Hd Hr. induction Hd as [|cmd frame plan os r Hc _|cmd frame plan os os' r Hc Hd IH]; [done| |];
    apply Forall_cons in Hp as [[Hw Hf] Hp].
  - by eapply commanded_turn.
  - by eapply commanded_clear; eauto.
Qed.

Lemma delivered_turns plan rest os os' :
  plan_ok plan → delivered plan os (Ok RecoveryOk) → in_turn rest os' → in_turn (plan.*2 ++ rest) (os ++ os').
Proof.
  intros Hp Hd Hr. remember (Ok RecoveryOk) as x eqn:Hx.
  induction Hd as [|cmd frame plan os r Hc Hne|cmd frame plan os1 os2 r Hc Hd IH]; [done|done|].
  apply Forall_cons in Hp as [[Hw Hf] Hp]. rewrite <- app_assoc. eapply commanded_clear; eauto.
Qed.

Lemma sent_in_turn image os r : sent image os r → in_turn (all_frames image) os.
Proof.
  pose proof (plan_image_ok image) as Hp. unfold all_frames. intros [os' r' Hd Hr|os' e Hd|os' ok Hd].
  - by eapply delivered_turn.
  - rewrite <- (app_nil_r os'). apply delivered_turns; [done|done|constructor].
  - apply delivered_turns; [done|done|]. destruct ok; [|constructor]. constructor; [constructor|cbn; lia].
Qed.

(** ** What the device holds *)

(** The parts of a file are not empty and small enough for their offsets. *)
Lemma parts_ok revision file image : bytes_ok file → parts revision file = inr image → image_ok image.
Proof.
  intros Hf [Hc ->]%parts_complete. destruct (image_sizes _ _ Hf Hc) as (Hh & Hw & Hb).
  destruct (image_bytes revision _ Hf) as (Bh & Bw & Bb). pose proof (firmware_bound _ Hf) as Hl.
  assert (Hne : ∀ l : buffer, (0 < length l)%nat → l ≠ []) by (intros [|] ?; [cbn in *; lia|done]).
  assert (Hbs : (0 < blob_size revision ≤ 1104)%nat).
  { unfold blob_size, revAKHBSize, revBKHBSize. destruct revision; lia. }
  unfold headerLength, defaultChunkSize in *.
  repeat (apply Forall_cons; split); [..|by apply Forall_nil];
    split_and!; try done; try (apply Hne; lia); lia.
Qed.

Section Recovery.
Context (dev : Device) (revision : Revision) (v1 v2 v3 : Z) (imgFilePath : string).

(** C15: At any time during a recovery, and whether or not the last frame has come through,
    the device holds parts of the image of the file that are complete but for the one
    under way, and runs only a complete image; a recovery that succeeds leaves it
    running the image. Without an image in the file nothing is written. *)
Theorem image_received :
  sees (performGlacierRecovery dev revision v1 v2 v3 imgFilePath) (λ r os,
    match os with
    | Loaded path (Some file) :: _ =>
        path = imgFilePath ∧
        match parts revision (u8 <$> file) with
        | inl result => written os = [] ∧ r = Ok result
        | inr image =>
            (∀ fs, fs `prefix_of` written os → ∃ m, receive_all blank fs = Some m ∧ holds image m) ∧
            (r = Ok RecoveryOk →
             receive_all blank (written os) = Some (mkMemory (blobBin image) (headerBin image) (fwBin image) true))
        end
    | _ => os = [Loaded imgFilePath None] ∧ r = Ok FileOpenFailure
    end).
Proof.
  eapply sees_impl; [apply recovery_sees|]. intros r os Hos. unfold from_file in Hos.
  destruct os as [|[| |path [file|]|] os]; try (by destruct Hos).
  destruct Hos as [-> Hos]. split; [done|].
  destruct (parts revision (u8 <$> file)) as [result|image] eqn:Hp; [by destruct Hos as [-> ->]|].
  pose proof (parts_ok _ _ _ (u8_ok file) Hp) as Hok. apply sent_written in Hos as [Hpre Hall].
  change (written (Loaded imgFilePath (Some file) :: os)) with (written os). split.
  - intros fs Hfs. destruct (plan_received image fs) as (m & Hm & Hh & _); [done|by etrans|]. by exists m.
  - intros Hr. rewrite Hall by done. destruct (plan_received image (all_frames image)) as (m & Hm & Hh & He); [done|done|].
    rewrite Hm. f_equal. by apply Hh, He.
Qed.

(** C16: A recovery goes frame by frame, in the order of the parts: the next one is sent
    only when the device took the one before and has answered it, within five polls,
    with a response that carries its CRC, names its command and has no error set, and
    every poll before that one was pending; the image is run only after all of them.
    It takes at most six transfers for a chunk and one more, and succeeds only when
    every frame has gone out. *)
Theorem recovery_in_steps :
  sees (performGlacierRecovery dev revision v1 v2 v3 imgFilePath) (λ r os,
    from_file revision imgFilePath os r ∧
    match os with
    | Loaded _ (Some file) :: transfers =>
        match parts revision (u8 <$> file) with
        | inl _ => transfers = []
        | inr image =>
            in_turn (all_frames image) transfers ∧
            (length transfers ≤ 1 + 6 * length (frame_plan image))%nat ∧
            (r = Ok RecoveryOk → written transfers = all_frames image)
        end
    | _ => os = [Loaded imgFilePath None]
    end).
Proof.
  eapply sees_impl; [apply recovery_sees|]. intros r os Hos. split; [done|]. unfold from_file in Hos.
  destruct os as [|[| |path [file|]|] os]; try (by destruct Hos). destruct Hos as [_ Hos].
  destruct (parts revision (u8 <$> file)) as [result|image]; [by destruct Hos|].
  split_and!; [by eapply sent_in_turn|by eapply sent_length|]. by apply sent_written in Hos as [_ Hos].
Qed.
End Recovery.

(** ** Damaged responses *)

(** A response that is taken for a success is none any more when up to four bytes in a
    row are damaged in front of its checksum. *)
Theorem damage_refused cmd len before burst burst' after crc :
  bytes_ok (before ++ burst ++ after) → bytes_ok burst' → length crc = 4%nat →
  length burst = length burst' → (length burst ≤ 4)%nat → burst ≠ burst' →
  ValidateGetResponseCmd cmd ((before ++ burst ++ after) ++ crc) len = RecoveryOk →
  ValidateGetResponseCmd cmd ((before ++ burst' ++ after) ++ crc) len ≠ RecoveryOk.
Proof.
  intros (Hb & (Hm & Ha)%bytes_ok_app)%bytes_ok_app Hm' Hc Hl H4 Hne Hv Hv'.
  apply accepted_intact in Hv, Hv'; [|done..]. apply Hne, (crc32_detects before _ _ after); try done. congruence.
Qed.
