(* ===== verification/GlacierOutcome.v ===== *)
(** * What the Glacier recovery service comes to

    The outcomes of the recovery of a device, with what is logged of each; the service
    over the objects of the inventory; and when the user learns of a failure. *)

From stdpp Require Import list strings.
From S2P Require Import Prelude Bytes Text Trace Registry Threads OcpIo OcpCommands OcpTool OcpRecovery OcpSeen OcpOutcome Crc32 GlacierCommands GlacierFile GlacierTransfer GlacierMain GlacierImage.

#[local] Open Scope Z_scope.

(** ** Codes that are reported *)

(** A result that is an error has its message in the table, but for two that only the
    interactive tool sees. *)
Definition in_table (r : RecoveryResult) : Prop := r ∉ [RecoveryOk; BadResponse; InvalidRevision].

#[export] Instance in_table_dec r : Decision (in_table r).
Proof. unfold in_table. apply _. Defined.









(** ** Outcomes *)

Definition logs (es : list Entry) : list Obs := Logged <$> es.


Section Device.
Context (v1 v2 v3 : Z) (dev : Device) (device imgPath : string).

Definition unlock_frame : buffer := [0xc0; 0x01].

(** A device that is there to be spoken to. *)
Inductive opened (hidden : bool) : list Obs → Prop :=
| opened_shown : hidden = false → opened hidden []
| opened_unlocked : hidden = true → opened hidden [Wrote unlock_frame true].






Lemma error_sees errorCode :
  sees (log_error device GlacierRecovery errorCode) (λ r os, r = Ok () ∧ os = logs (error device GlacierRecovery errorCode)).
Proof. apply log_sees. Qed.

(** A message or an error, and what is returned after it. *)
Lemma logged_sees {A} (p : P ()) es (a : A) (Q : res string A → list Obs → Prop) :
  sees p (λ r os, r = Ok () ∧ os = logs es) → Q (Ok a) (logs es) → sees (_ ← p; mret a) Q.
Proof.
  intros Hp HQ. eapply sees_bind; [exact Hp| |by intros e os [? _]].
  intros [] os [_ ->]. apply sees_done. by rewrite app_nil_r.
Qed.





Lemma opened_entries h pre : opened h pre → entries pre = [].
Proof. by destruct 1. Qed.

(** ** A device comes to an outcome *)








End Device.

(** ** The service *)

Section Service.
Context (v1 v2 v3 : Z) (filename : string → string).






(** ** Who learns of a failure *)










(** ** A configuration that is never recovered *)

(** The crisis interface without the property [isRecoverable], which the source takes for
    a recoverable device: nothing is written to it, and it always fails. *)
Theorem unmarked_never_recovered interfaces properties dev device imgPath :
  assoc glacierCrisisObjInterface interfaces = Some properties → assoc "isRecoverable"%string properties = None →
  assoc ""%string interfaces = None →
  ∃ interface, isGlacierDevice interfaces = Ok (true, interface) ∧
    sees (recover_device v1 v2 v3 dev device imgPath interfaces interface)
      (λ r os, r = Ok true ∧ os = logs (error device GlacierRecovery deviceRecoveryFailed)).
Proof.
  intros Hc Hp He. exists ""%string. unfold isGlacierDevice. rewrite Hc, Hp. split; [done|].
  unfold recover_device, hidden_by_fpga, at_key. rewrite He. cbn [of_res mbind Prog_bind prog_bind try_catch].
  eapply logged_sees; [apply error_sees|done].
Qed.
End Service.
