(* ===== verification/GlacierExample.v ===== *)
(** * A bench for the Glacier recovery

    An environment with a device that follows the protocol, a file with a small image,
    and an inventory of two devices, one of them hidden; what the programs do there, and
    the witnesses of the theorems. *)

From stdpp Require Import list strings.
From S2P Require Import Prelude Json Bytes Text Trace Registry Threads OcpIo OcpCommands OcpTool OcpRecovery OcpSeen OcpOutcome Crc32 GlacierCommands GlacierFile GlacierTransfer GlacierMain GlacierImage GlacierOutcome.

#[local] Open Scope Z_scope.

(** The file: its header is at 0x100, there is no firmware but its last chunk, and the
    key hash blob is the beginning of the file. *)
Definition small_file : buffer := [1; 0; 0] ++ replicate 1277 0.

(** The last command that the device was given, and whether it runs. *)
Record DeviceState := mkState { command : Z; runs : bool }.

Definition device_response (b : DeviceState) : buffer :=
  let body := if runs b then [0; 0; 0] else
              if command b =? 0x55 then [0; 0x55; 0x5A; 0xA5] else [0; command b; 0] in
  body ++ le_encode 4 (crc32 body).

Section Bench.
(** Whether the hidden device can be unlocked. *)
Context (unlocks : bool).

Definition glacier_reply (b : DeviceState) (c : Call) : reply c :=
  match c return reply c with
  | OpenDevice _ => Some 3
  | I2cWrite _ addr _ => unlocks || negb (addr =? 0x60)%Z
  | I2cRead _ _ _ _ => Some (device_response b)
  | PathExists _ | IsDirectory _ | IsRegularFile _ => Ok true
  | ListDirectory _ _ => Ok []
  | ReadFile _ => Some small_file
  | WriteFile _ _ => true
  | ConnectBus => Ok ()
  | GetManagedObjects =>
      Ok [("/inventory/ERoT_0", [(gpioErotObjInterface, [("HiddenByFPGA", ValueBool true)])]);
          ("/inventory/Fan", [("Fan", [])])]
  | GetString _ _ => Throw "no such property"
  | GetUint64 _ _ _ => Ok 0x41
  | CloseFd _ | SleepSec _ | CreateEntry _ | PrintJson _ | LogProgress _ _ _ _ _ => ()
  end%string.

Definition glacier_step (c : Call) (b : DeviceState) : DeviceState :=
  match c with
  | I2cWrite _ _ [0x69] => mkState 0x69 true
  | I2cWrite _ _ (c :: _) => mkState c (runs b)
  | _ => b
  end.

Definition glacier_env : OcpEnv :=
  {| env_state := DeviceState; respond := λ c b, (glacier_reply b c, glacier_step c b) |}.
End Bench.

Definition glacier_run {A} (unlocks : bool) (p : P A) : list event * res string A * DeviceState :=
  let env := glacier_env unlocks in exec p (mkState 0 false).

Definition glacier_main : P Z := GlacierMain.main 7 8 9 path_filename ["glacier-recovery"; "/images/ap.bin"]%string.

(** The device is unlocked, gets its image and comes up. *)
Example glacier_recovers :
  let '(es, r, _) := glacier_run true glacier_main in
  r = Ok 0 ∧ entries (seen es) = message "ERoT_0" recoveryStarted ++ message "ERoT_0" recoverySuccessful ∧
  length (written (seen es)) = 17%nat.
Proof. by vm_compute. Qed.

(** A device that cannot be unlocked is logged as an error, and the service exits with
    zero. *)
Example locked_device_unnoticed :
  let '(es, r, _) := glacier_run false glacier_main in
  r = Ok 0 ∧ critical (seen es) = true ∧ written (seen es) = [unlock_frame].
Proof. by vm_compute. Qed.

(** What the interactive tool answers about this device. *)
Example glacier_tool_answers :
  let dev := mkDevice 1 0x41 false in
  (glacier_run true (GlacierMain.performRecovery dev RevB 7 8 9 "/images/ap.bin")).1.2 =
    Ok (members_of [("Status", JString "Recovery Successful")]%string) ∧
  (glacier_run true (GlacierMain.getRecoveryStatusJson dev)).1.2 =
    Ok (members_of [("Status", JString "Device is in Recovery")]%string).
Proof. by vm_compute. Qed.

(** ** Witnesses *)

Lemma small_file_ok : bytes_ok small_file.
Proof. apply bytes_ok_app. split; [by repeat constructor|apply Forall_replicate; by vm_compute]. Qed.

Lemma image_located_witness :
  load_image RevB 7 8 9 small_file = parts RevB small_file ∧
  ∀ image, load_image RevB 7 8 9 small_file = inr image ↔ complete RevB small_file ∧ image = image_in RevB small_file.
Proof. apply (image_located RevB 7 8 9 small_file small_file_ok). Defined.

(** A response to a write, and the same with its status damaged. *)
Lemma damage_refused_witness :
  ValidateGetResponseCmd HeaderWrite (([0; 0x65] ++ [1] ++ []) ++ le_encode 4 (crc32 [0; 0x65; 0])) WriteResponse ≠ RecoveryOk.
Proof.
  apply (damage_refused HeaderWrite WriteResponse [0; 0x65] [0] [1] [] (le_encode 4 (crc32 [0; 0x65; 0]))).
  - by repeat constructor.
  - by repeat constructor.
  - reflexivity.
  - reflexivity.
  - cbn. lia.
  - done.
  - by vm_compute.
Defined.
