(* ===== verification/NvConfig.v ===== *)
(** * The configuration file of the NVSwitch manager

    src/nvswitch-config/nvswitch_config_manager.cpp, [parseConfigFile] and the helpers it
    uses: a line at a time into blobs of bytes, which the metadata at the end must
    agree with. A configuration that is printed reads back; what is read has no empty
    blob and is no larger than its text. *)

From stdpp Require Import list strings pretty.
From Stdlib Require Import Ascii.
From S2P Require Import Prelude Bytes Text.

#[local] Open Scope string_scope.
#[local] Open Scope list_scope.
#[local] Open Scope Z_scope.

(** ** Helpers *)

(** [nvswitch-config/nvswitch_config_manager.cpp:672-681 trimInPlace] *)
Definition trimInPlace (s : string) : string := trim_left (trim_right s).

(** The bytes of pairs of hexadecimal digits; [i] is the index of the first. *)
Fixpoint hex_pairs (i : Z) (hexStr : string) : res string buffer :=
  match hexStr with
  | String hi (String lo rest) =>
      match hex_char hi, hex_char lo with
      | Some h, Some l =>
          bytes ← hex_pairs (i + 1) rest;
          Ok (16 * h + l :: bytes)
      | _, _ =>
          Throw ("Non-hex character in blob string at byte offset " +:+ to_string i +:+ " (chars '" +:+
                 String hi (String lo "')."))
      end
  | _ => Ok []
  end.

(** [nvswitch-config/nvswitch_config_manager.cpp:683-721 hexStringToBytes] *)
Definition hexStringToBytes (hexStr : string) : res string buffer :=
  if Nat.odd (String.length hexStr)
  then Throw ("Hex string has odd length (" +:+ to_string (Z.of_nat (String.length hexStr)) +:+ "); must be a multiple of 2.")
  else hex_pairs 0 hexStr.

(** All of a string as decimal digits, added to [acc]. *)
Fixpoint all_digits (acc : Z) (s : string) : option Z :=
  match s with
  | "" => Some acc
  | String c rest =>
      if (48 <=? code c) && (code c <=? 57) then all_digits (10 * acc + (code c - 48)) rest else None
  end.

(** [std::from_chars] of an [int] that must read all of a string: none if it does not,
    or if the value does not fit. *)
Definition from_chars_int (s : string) : option Z :=
  let '(sign, s) := match s with String "-" rest => (-1, rest) | _ => (1, s) end in
  if bool_decide (s = "") then None else
  v ← all_digits 0 s;
  let v := sign * v in
  if (- 2 ^ 31 <=? v) && (v <=? 2 ^ 31 - 1) then Some v else None.

(** What stands before the first colon, and behind it. *)
Fixpoint cut_colon (s : string) : option (string * string) :=
  match s with
  | "" => None
  | String c rest =>
      if decide (c = ":"%char) then Some ("", rest)
      else '(key, value) ← cut_colon rest; Some (String c key, value)
  end.

(** ** The parser *)

(** [nvswitch-config/nvswitch_config_manager.hpp:76-81 SwitchConfig] *)
Record SwitchConfig := mkSwitchConfig {
  portsDown : list buffer;
  configure : list buffer;
  portsUp : list buffer;
}.

(** [nvswitch-config/nvswitch_config_manager.cpp:749-756 parseConfigFile] *)
Inductive Section_ := NoSection | PortsDown | Configure | PortsUp | Metadata.

(** [nvswitch-config/nvswitch_config_manager.cpp:758-764 parseConfigFile] *)
Inductive MetaSub := NoSizes | PortsDownSizes | ConfigureSizes | PortsUpSizes.

(** [nvswitch-config/nvswitch_config_manager.cpp:766-776 parseConfigFile]
    The variables of the loop. *)
Record Scan := mkScan {
  result : SwitchConfig;
  expectedPortsDown : Z;
  expectedConfigure : Z;
  expectedPortsUp : Z;
  portsDownSizes : list Z;
  configureSizes : list Z;
  portsUpSizes : list Z;
  section : Section_;
  metaSub : MetaSub;
}.

#[export] Instance Section_dec : EqDecision Section_.
Proof. solve_decision. Defined.

Definition scan_start : Scan := mkScan (mkSwitchConfig [] [] []) (-1) (-1) (-1) [] [] [] NoSection NoSizes.

Definition set_section (section : Section_) (s : Scan) : Scan :=
  mkScan (result s) (expectedPortsDown s) (expectedConfigure s) (expectedPortsUp s)
    (portsDownSizes s) (configureSizes s) (portsUpSizes s) section NoSizes.

Definition set_metaSub (sub : MetaSub) (s : Scan) : Scan :=
  mkScan (result s) (expectedPortsDown s) (expectedConfigure s) (expectedPortsUp s)
    (portsDownSizes s) (configureSizes s) (portsUpSizes s) (section s) sub.

Definition set_counts (down conf up : Z) (s : Scan) : Scan :=
  mkScan (result s) down conf up (portsDownSizes s) (configureSizes s) (portsUpSizes s) (section s) (metaSub s).

(** [nvswitch-config/nvswitch_config_manager.cpp:823-836 parseConfigFile] *)
Definition add_blob (bytes : buffer) (s : Scan) : Scan :=
  let r := result s in
  let r := match section s with
           | PortsDown => mkSwitchConfig (portsDown r ++ [bytes]) (configure r) (portsUp r)
           | Configure => mkSwitchConfig (portsDown r) (configure r ++ [bytes]) (portsUp r)
           | PortsUp => mkSwitchConfig (portsDown r) (configure r) (portsUp r ++ [bytes])
           | _ => r
           end in
  mkScan r (expectedPortsDown s) (expectedConfigure s) (expectedPortsUp s)
    (portsDownSizes s) (configureSizes s) (portsUpSizes s) (section s) (metaSub s).

(** [nvswitch-config/nvswitch_config_manager.cpp:885-902 parseConfigFile] *)
Definition add_size (val : Z) (s : Scan) : Scan :=
  let '(down, conf, up) :=
    match metaSub s with
    | PortsDownSizes => (portsDownSizes s ++ [val], configureSizes s, portsUpSizes s)
    | ConfigureSizes => (portsDownSizes s, configureSizes s ++ [val], portsUpSizes s)
    | PortsUpSizes => (portsDownSizes s, configureSizes s, portsUpSizes s ++ [val])
    | NoSizes => (portsDownSizes s, configureSizes s, portsUpSizes s)
    end in
  mkScan (result s) (expectedPortsDown s) (expectedConfigure s) (expectedPortsUp s) down conf up (section s) (metaSub s).

Definition at_line (lineNum : Z) : string := " at line " +:+ to_string lineNum.

(** [nvswitch-config/nvswitch_config_manager.cpp:803-837 parseConfigFile]
    A list item that is not indented. *)
Definition root_item (lineNum : Z) (stripped : string) (s : Scan) : res string Scan :=
  if bool_decide (section s = Metadata ∨ section s = NoSection) then Ok s else
  let hexStr := trimInPlace (String.substring 2 (String.length stripped) stripped) in
  if bool_decide (hexStr = "") then Throw ("Empty blob entry" +:+ at_line lineNum) else
  bytes ← hexStringToBytes hexStr;
  Ok (add_blob bytes s).

(** [nvswitch-config/nvswitch_config_manager.cpp:838-859 parseConfigFile] *)
Definition root_key (key : string) (s : Scan) : Scan :=
  let key := trimInPlace key in
  if bool_decide (key = "ports_down" ∨ key = "ports-down") then set_section PortsDown s
  else if bool_decide (key = "configure") then set_section Configure s
  else if bool_decide (key = "ports_up" ∨ key = "ports-up") then set_section PortsUp s
  else if bool_decide (key = "metadata") then set_section Metadata s
  else set_metaSub NoSizes s.

(** [nvswitch-config/nvswitch_config_manager.cpp:866-903 parseConfigFile]
    A list item of the metadata. *)
Definition size_item (lineNum : Z) (stripped : string) (s : Scan) : res string Scan :=
  let valStr := trimInPlace (String.substring 2 (String.length stripped) stripped) in
  if bool_decide (valStr = "") then Throw ("Empty metadata list entry" +:+ at_line lineNum) else
  match from_chars_int valStr with
  | None => Throw ("Non-integer value '" +:+ valStr +:+ "' in metadata size list" +:+ at_line lineNum)
  | Some val => Ok (add_size val s)
  end.

(** [nvswitch-config/nvswitch_config_manager.cpp:914-926 parseConfigFile] *)
Definition parseCount (lineNum : Z) (valStr name : string) : res string Z :=
  if bool_decide (valStr = "") then Throw (name +:+ " has no value" +:+ at_line lineNum) else
  match from_chars_int valStr with
  | None => Throw ("Invalid integer for " +:+ name +:+ at_line lineNum)
  | Some v => Ok v
  end.

(** [nvswitch-config/nvswitch_config_manager.cpp:904-945 parseConfigFile] *)
Definition metadata_key (lineNum : Z) (key value : string) (s : Scan) : res string Scan :=
  let key := trimInPlace key in
  let valStr := trimInPlace value in
  let s := set_metaSub NoSizes s in
  if bool_decide (key = "ports_down_count" ∨ key = "ports-down-count") then
    v ← parseCount lineNum valStr "ports_down_count";
    Ok (set_counts v (expectedConfigure s) (expectedPortsUp s) s)
  else if bool_decide (key = "configure_count" ∨ key = "configure-count") then
    v ← parseCount lineNum valStr "configure_count";
    Ok (set_counts (expectedPortsDown s) v (expectedPortsUp s) s)
  else if bool_decide (key = "ports_up_count" ∨ key = "ports-up-count") then
    v ← parseCount lineNum valStr "ports_up_count";
    Ok (set_counts (expectedPortsDown s) (expectedConfigure s) v s)
  else if bool_decide (key = "ports_down_sizes" ∨ key = "ports-down-sizes") then Ok (set_metaSub PortsDownSizes s)
  else if bool_decide (key = "configure_sizes" ∨ key = "configure-sizes") then Ok (set_metaSub ConfigureSizes s)
  else if bool_decide (key = "ports_up_sizes" ∨ key = "ports-up-sizes") then Ok (set_metaSub PortsUpSizes s)
  else Ok s.

Definition newline : ascii := "010"%char.
Definition carriage_return : ascii := "013"%char.

(** [line.pop_back()] of a carriage return. *)
Fixpoint drop_return (line : string) : string :=
  match line with
  | "" => ""
  | String c "" => if decide (c = carriage_return) then "" else line
  | String c rest => String c (drop_return rest)
  end.

Definition indented (line : string) : bool :=
  match line with String c _ => bool_decide (c = " "%char ∨ c = "009"%char) | "" => false end.

Definition list_item (stripped : string) : bool :=
  match stripped with String "-" (String " " _) => true | _ => false end.

Definition nothing (stripped : string) : bool :=
  match stripped with String c _ => bool_decide (c = "#"%char) | "" => true end.

(** [nvswitch-config/nvswitch_config_manager.cpp:784-946 parseConfigFile] *)
Definition parse_line (lineNum : Z) (line : string) (s : Scan) : res string Scan :=
  let line := drop_return line in
  let stripped := trimInPlace line in
  if nothing stripped then Ok s
  else if negb (indented line) then
    if list_item stripped then root_item lineNum stripped s
    else match cut_colon stripped with
         | Some (key, _) => Ok (root_key key s)
         | None => Ok s
         end
  else if bool_decide (section s ≠ Metadata) then Ok s
  else if list_item stripped then size_item lineNum stripped s
  else match cut_colon stripped with
       | Some (key, value) => metadata_key lineNum key value s
       | None => Ok s
       end.

(** [nvswitch-config/nvswitch_config_manager.cpp:778-947 parseConfigFile]
    What follows the last line break is one more line, which is skipped if empty. *)
Fixpoint scan_lines (lineNum : Z) (lines : list string) (s : Scan) : res string Scan :=
  match lines with
  | [] => Ok s
  | line :: lines => s ← parse_line lineNum line s; scan_lines (lineNum + 1) lines s
  end.

(** [nvswitch-config/nvswitch_config_manager.cpp:963-979 parseConfigFile] *)
Definition check_count (name : string) (expected : Z) (blobs : list buffer) : res string () :=
  let found := Z.of_nat (length blobs) in
  guard_ (int32 found =? expected)
    (name +:+ " blob count mismatch: metadata says " +:+ to_string expected +:+ " but found " +:+ to_string found).

(** [nvswitch-config/nvswitch_config_manager.cpp:991-999 parseConfigFile] *)
Fixpoint check_sizes (sectionName : string) (i : Z) (blobs : list buffer) (sizes : list Z) : res string () :=
  match blobs, sizes with
  | blob :: blobs, size :: sizes =>
      let found := Z.of_nat (length blob) in
      _ ← guard_ (int32 found =? size)
            (sectionName +:+ "[" +:+ to_string i +:+ "] size mismatch: metadata says " +:+
             int_to_string size +:+ " bytes but hex decodes to " +:+ to_string found +:+ " bytes.");
      check_sizes sectionName (i + 1) blobs sizes
  | _, _ => Ok ()
  end.

(** [nvswitch-config/nvswitch_config_manager.cpp:981-1000 parseConfigFile] *)
Definition validateSizes (blobs : list buffer) (sizes : list Z) (sectionName : string) : res string () :=
  if bool_decide (sizes = []) then Ok () else
  _ ← guard_ (int32 (Z.of_nat (length sizes)) =? int32 (Z.of_nat (length blobs)))
        (sectionName +:+ " sizes list length (" +:+ to_string (Z.of_nat (length sizes)) +:+
         ") does not match blob count (" +:+ to_string (Z.of_nat (length blobs)) +:+ ").");
  check_sizes sectionName 0 blobs sizes.

(** [nvswitch-config/nvswitch_config_manager.cpp:958-1005 parseConfigFile] *)
Definition conclude (s : Scan) : res string SwitchConfig :=
  _ ← guard_ (negb ((expectedPortsDown s <? 0) || (expectedConfigure s <? 0) || (expectedPortsUp s <? 0)))
        ("Config file is missing metadata or required count fields " +:+
         "(ports_down_count / configure_count / ports_up_count).");
  _ ← check_count "ports_down" (expectedPortsDown s) (portsDown (result s));
  _ ← check_count "configure" (expectedConfigure s) (configure (result s));
  _ ← check_count "ports_up" (expectedPortsUp s) (portsUp (result s));
  _ ← validateSizes (portsDown (result s)) (portsDownSizes s) "ports_down";
  _ ← validateSizes (configure (result s)) (configureSizes s) "configure";
  _ ← validateSizes (portsUp (result s)) (portsUpSizes s) "ports_up";
  Ok (result s).

(** [nvswitch-config/nvswitch_config_manager.cpp:747-1006 parseConfigFile] *)
Definition parseConfigFile (content : string) : res string SwitchConfig :=
  s ← scan_lines 1 (split newline content) scan_start;
  conclude s.

(** ** The file of the README *)

(** The example of nvswitch-config/README.md indents the entries of its lists: they
    are passed over, so that the file is refused. *)
Definition readme_lines : list string :=
  ["ports_down:";
   "  - deadbeef01020304";
   "  - deadbeef01020304";
   "configure:";
   "  - deadbeef";
   "ports_up:";
   "  - deadbeef01020304";
   "  - deadbeef01020304";
   "metadata:";
   "  ports_down_count: 2";
   "  ports_down_sizes:";
   "    - 8";
   "    - 8";
   "  configure_count: 1";
   "  configure_sizes:";
   "    - 4";
   "  ports_up_count: 2";
   "  ports_up_sizes:";
   "    - 8";
   "    - 8"].

Example readme_refused :
  parseConfigFile (join (String newline "") readme_lines) =
  Throw "ports_down blob count mismatch: metadata says 2 but found 0".
Proof. by vm_compute. Qed.

(** The same with the entries of the three lists not indented. *)
Example unindented_accepted :
  let unindent line := if String.prefix "  - " line then String.substring 2 (String.length line) line else line in
  parseConfigFile (join (String newline "") ((unindent <$> take 8 readme_lines) ++ drop 8 readme_lines)) =
  Ok (mkSwitchConfig
        (replicate 2 [0xde; 0xad; 0xbe; 0xef; 1; 2; 3; 4])
        [[0xde; 0xad; 0xbe; 0xef]]
        (replicate 2 [0xde; 0xad; 0xbe; 0xef; 1; 2; 3; 4])).
Proof. by vm_compute. Qed.

(** ** A configuration that is printed *)

Definition hex (bytes : buffer) : string := cat (format_hex_lower 2 <$> bytes).
Definition print_blob (bytes : buffer) : string := "- " +:+ hex bytes.
Definition print_size (n : Z) : string := "  - " +:+ to_string n.

(** Its lines, in the form that the comment of [parseConfigFile] gives. *)
Definition print_lines (c : SwitchConfig) : list string :=
  ["ports_down:"] ++ (print_blob <$> portsDown c) ++
  ["configure:"] ++ (print_blob <$> configure c) ++
  ["ports_up:"] ++ (print_blob <$> portsUp c) ++
  ["metadata:"] ++
  ["  ports_down_count: " +:+ to_string (Z.of_nat (length (portsDown c))); "  ports_down_sizes:"] ++
  (print_size ∘ Z.of_nat ∘ length <$> portsDown c) ++
  ["  configure_count: " +:+ to_string (Z.of_nat (length (configure c))); "  configure_sizes:"] ++
  (print_size ∘ Z.of_nat ∘ length <$> configure c) ++
  ["  ports_up_count: " +:+ to_string (Z.of_nat (length (portsUp c))); "  ports_up_sizes:"] ++
  (print_size ∘ Z.of_nat ∘ length <$> portsUp c).

Definition print_config (c : SwitchConfig) : string := join (String newline "") (print_lines c).

(** What can be written in a file: blobs that are not empty, in numbers and sizes that
    an [int] holds. *)
Definition small (n : nat) : Prop := Z.of_nat n < 2 ^ 31.
Definition blobs_ok (blobs : list buffer) : Prop :=
  small (length blobs) ∧ Forall (λ b, bytes_ok b ∧ b ≠ [] ∧ small (length b)) blobs.
Definition config_ok (c : SwitchConfig) : Prop := blobs_ok (portsDown c) ∧ blobs_ok (configure c) ∧ blobs_ok (portsUp c).

(** ** Reading back *)

(** A digit of a number. *)
Lemma digit_char d :
  0 ≤ d < 10 → ∀ c, c = pretty_N_char (Z.to_N d) →
  (48 <=? code c) && (code c <=? 57) = true ∧ code c - 48 = d ∧ is_space c = false ∧ c ≠ newline.
Proof.
  intros Hd c ->. assert (d = 0 ∨ d = 1 ∨ d = 2 ∨ d = 3 ∨ d = 4 ∨ d = 5 ∨ d = 6 ∨ d = 7 ∨ d = 8 ∨ d = 9) as Hc by lia.
  by repeat destruct Hc as [->|Hc]; subst; vm_compute.
Qed.

Lemma pretty_char x : ∃ d, 0 ≤ d < 10 ∧ Z.to_N d = (x `mod` 10)%N ∧ d = Z.of_N (x `mod` 10)%N.
Proof.
  assert (Hx : (x `mod` 10 < 10)%N) by by apply N.mod_lt. generalize dependent (x `mod` 10)%N. intros m Hm.
  exists (Z.of_N m). split_and!; lia.
Qed.

(** The digits of a number behind those of its tens. *)
Lemma all_digits_go x s : all_digits 0 (pretty_N_go x s) = all_digits (Z.of_N x) s.
Proof.
  revert s. induction (N.lt_wf_0 x) as [x _ IH]. intros s.
  destruct (decide (x = 0%N)) as [->|Hx]; [by rewrite pretty_N_go_0|].
  rewrite pretty_N_go_step, IH by (try apply N.div_lt; lia).
  destruct (pretty_char x) as (d & Hd & HN & Hz). rewrite <- HN.
  destruct (digit_char d Hd _ eq_refl) as (Hdig & Hval & _). cbn [all_digits]. rewrite Hdig, Hval. f_equal.
  pose proof (N.div_mod x 10). subst d. lia.
Qed.

Lemma free_go (P : ascii → bool) x s :
  (∀ d, 0 ≤ d < 10 → P (pretty_N_char (Z.to_N d)) = false) → free P s = true → free P (pretty_N_go x s) = true.
Proof.
  intros HP. revert s. induction (N.lt_wf_0 x) as [x _ IH]. intros s Hs.
  destruct (decide (x = 0%N)) as [->|Hx]; [by rewrite pretty_N_go_0|].
  rewrite pretty_N_go_step by lia. apply IH; [apply N.div_lt; lia|].
  destruct (pretty_char x) as (d & Hd & HN & _). cbn [free]. by rewrite <- HN, HP, Hs.
Qed.

Lemma to_string_digits v : 0 ≤ v → all_digits 0 (to_string v) = Some v.
Proof.
  intros Hv. unfold to_string, pretty, pretty_N. case_decide as H0.
  - replace v with 0 by lia. done.
  - rewrite all_digits_go. cbn. f_equal. lia.
Qed.

Lemma to_string_free (P : ascii → bool) v :
  (∀ d, 0 ≤ d < 10 → P (pretty_N_char (Z.to_N d)) = false) → free P (to_string v) = true.
Proof.
  intros HP. unfold to_string, pretty, pretty_N. case_decide; [|by apply free_go].
  pose proof (HP 0 ltac:(lia)) as H0. cbn in H0 |- *. by rewrite H0.
Qed.

Lemma to_string_cons v : ∃ c rest, to_string v = String c rest ∧ c ≠ "-"%char.
Proof.
  assert (Hf : free (is_char "-"%char) (to_string v) = true).
  { apply to_string_free. intros d Hd. unfold is_char. apply bool_decide_eq_false_2. intros He.
    destruct (digit_char d Hd _ eq_refl) as (H & _). rewrite He in H. by vm_compute in H. }
  destruct (to_string v) as [|c rest] eqn:Hs.
  - exfalso. unfold to_string, pretty, pretty_N in Hs. case_decide as H0; [done|].
    pose proof (all_digits_go (Z.to_N v) "") as Ha. rewrite Hs in Ha. cbn in Ha. injection Ha. lia.
  - exists c, rest. split; [done|]. cbn [free] in Hf. intros ->. by rewrite andb_comm in Hf; cbn in Hf; destruct (free _ rest).
Qed.

Lemma to_string_space v : free is_space (to_string v) = true.
Proof. apply to_string_free. intros d Hd. by destruct (digit_char d Hd _ eq_refl) as (_ & _ & H & _). Qed.

(** A number that fits is read back. *)
Lemma from_chars_to_string n : 0 ≤ n < 2 ^ 31 → from_chars_int (to_string n) = Some n.
Proof.
  intros Hn. destruct (to_string_cons n) as (c & rest & Hs & Hc). unfold from_chars_int.
  replace (match to_string n with String "-" rest => (-1, rest) | _ => (1, to_string n) end) with (1, to_string n).
  2:{ rewrite Hs. destruct (decide (c = "-"%char)) as [->|_]; [done|].
      destruct c as [[] [] [] [] [] [] [] []]; done. }
  rewrite bool_decide_false by by rewrite Hs. rewrite to_string_digits by lia. cbn [mbind option_bind].
  rewrite Z.mul_1_l. change (- 2 ^ 31) with (-2147483648). change (2 ^ 31) with 2147483648 in *.
  rewrite (proj2 (Z.leb_le _ _)), (proj2 (Z.leb_le _ _)) by lia. done.
Qed.

(** The bytes of a blob. *)
Definition hex_back (b : Z) : bool :=
  match format_hex_lower 2 b with
  | String hi (String lo "") =>
      match hex_char hi, hex_char lo with
      | Some h, Some l => (16 * h + l =? b) && negb (is_space hi) && negb (is_space lo) &&
          negb (bool_decide (hi = newline)) && negb (bool_decide (lo = newline))
      | _, _ => false
      end
  | _ => false
  end.

Lemma hex_byte b : word 8 b → ∃ hi lo h l, format_hex_lower 2 b = String hi (String lo "") ∧
  hex_char hi = Some h ∧ hex_char lo = Some l ∧ b = 16 * h + l ∧ is_space hi = false ∧ is_space lo = false ∧
  hi ≠ newline ∧ lo ≠ newline.
Proof.
  intros Hb. assert (H : hex_back b = true) by (apply (word_check hex_back 8); [lia|by vm_compute|done]).
  unfold hex_back in H. destruct (format_hex_lower 2 b) as [|hi [|lo [|? ?]]]; try done.
  destruct (hex_char hi) as [h|] eqn:Hh, (hex_char lo) as [l|] eqn:Hl; try done. bool_to_prop.
  exists hi, lo, h, l. by split_and!.
Qed.

Lemma hex_read i bytes : bytes_ok bytes → hex_pairs i (hex bytes) = Ok bytes.
Proof.
  intros Hb. revert i. induction Hb as [|b l Hb Hl IH]; intros i; [done|]. unfold hex. cbn [fmap list_fmap cat].
  destruct (hex_byte b Hb) as (hi & lo & h & d & -> & Hh & Hd & -> & _).
  change (hex_pairs i (String hi (String lo (hex l))) = Ok (16 * h + d :: l)). cbn [hex_pairs].
  rewrite Hh, Hd, IH. done.
Qed.

Lemma hex_length bytes : bytes_ok bytes → String.length (hex bytes) = (2 * length bytes)%nat.
Proof.
  induction 1 as [|b l Hb Hl IH]; [done|]. unfold hex. cbn [fmap list_fmap cat].
  destruct (hex_byte b Hb) as (hi & lo & h & d & -> & _).
  change (String.length (String hi (String lo (hex l))) = 2 * length (b :: l))%nat. cbn [String.length length]. rewrite IH. lia.
Qed.

Lemma hex_space bytes : bytes_ok bytes → free is_space (hex bytes) = true.
Proof.
  induction 1 as [|b l Hb Hl IH]; [done|]. unfold hex. cbn [fmap list_fmap cat].
  destruct (hex_byte b Hb) as (hi & lo & h & d & -> & _ & _ & _ & Hhi & Hlo & _).
  change (free is_space (String hi (String lo (hex l))) = true). cbn [free]. by rewrite Hhi, Hlo, IH.
Qed.

Lemma hexStringToBytes_hex bytes : bytes_ok bytes → hexStringToBytes (hex bytes) = Ok bytes.
Proof.
  intros Hb. unfold hexStringToBytes. rewrite hex_length by done.
  rewrite Nat.odd_mul. cbn [Nat.odd negb andb]. by apply hex_read.
Qed.

(** *** A line *)

Lemma drop_return_free line : free (is_char carriage_return) line = true → drop_return line = line.
Proof.
  induction line as [|c line IH]; [done|]. cbn [free]. intros [Hc Hl]%andb_true_iff.
  apply negb_true_iff, bool_decide_eq_false_1 in Hc. destruct line as [|d line].
  - cbn. by case_decide.
  - change (String c (drop_return (String d line)) = String c (String d line)). by rewrite IH.
Qed.

Lemma free_return s : free is_space s = true → free (is_char carriage_return) s = true.
Proof. apply free_impl. intros c Hc. apply bool_decide_eq_true_1 in Hc. by subst. Qed.

Lemma substring_all n s : (String.length s ≤ n)%nat → String.substring 0 n s = s.
Proof.
  revert n. induction s as [|c s IH]; intros [|n] Hn; cbn in *; [done..|lia|]. by rewrite IH by lia.
Qed.

Lemma substring_item n c d s : (String.length s ≤ n)%nat → String.substring 2 n (String c (String d s)) = s.
Proof. apply substring_all. Qed.

Lemma trimInPlace_free s : free is_space s = true → trimInPlace s = s.
Proof.
  intros Hs. unfold trimInPlace. rewrite trim_right_space_free by done. destruct s as [|c s]; [done|].
  cbn [free trim_left] in *. by destruct (is_space c).
Qed.

(** A line whose last word is a value. *)
Lemma trimInPlace_value c p v :
  is_space c = false → free is_space v = true → v ≠ "" → trimInPlace (String c p +:+ v) = String c p +:+ v.
Proof.
  intros Hc Hv Hne. unfold trimInPlace. rewrite trim_right_app by done.
  change (String c p +:+ v) with (String c (p +:+ v)). cbn [trim_left]. by rewrite Hc.
Qed.

Lemma trimInPlace_indented c p v :
  is_space c = false → free is_space v = true → v ≠ "" →
  trimInPlace ("  " +:+ String c p +:+ v) = String c p +:+ v.
Proof.
  intros Hc Hv Hne. unfold trimInPlace. rewrite string_app_assoc, trim_right_app by done.
  change (trim_left (String c (p +:+ v)) = String c (p +:+ v)). cbn [trim_left]. by rewrite Hc.
Qed.

Lemma hex_nonempty b : bytes_ok b → b ≠ [] → hex b ≠ "".
Proof. intros Hb Hne He. pose proof (hex_length b Hb) as Hl. rewrite He in Hl. by destruct b. Qed.

Lemma to_string_nonempty v : to_string v ≠ "".
Proof. by destruct (to_string_cons v) as (c & rest & -> & _). Qed.

(** The section of a list of blobs. *)
Definition blob_section (sec : Section_) : bool := match sec with PortsDown | Configure | PortsUp => true | _ => false end.

Lemma parse_blob n b s :
  blob_section (section s) = true → bytes_ok b → b ≠ [] → parse_line n (print_blob b) s = Ok (add_blob b s).
Proof.
  intros Hs Hb Hne. pose proof (hex_space b Hb) as Hf. pose proof (hex_nonempty b Hb Hne) as Hh.
  assert (Hd : drop_return (print_blob b) = print_blob b).
  { apply drop_return_free. unfold print_blob. by rewrite free_app, (free_return (hex b)). }
  assert (Ht : trimInPlace (print_blob b) = print_blob b).
  { apply (trimInPlace_value "-"%char " "); done. }
  unfold parse_line. rewrite Hd, Ht.
  change (root_item n (print_blob b) s = Ok (add_blob b s)). unfold root_item.
  rewrite bool_decide_false by (intros [He|He]; by rewrite He in Hs).
  change (print_blob b) with (String "-" (String " " (hex b))).
  rewrite substring_item by (cbn; lia). rewrite trimInPlace_free by done.
  rewrite bool_decide_false by done. by rewrite hexStringToBytes_hex.
Qed.

(** An indented line [key value], where the key is more than one word. *)
Lemma value_line c key v :
  is_space c = false → free (is_char carriage_return) (String c key) = true →
  drop_return ("  " +:+ String c key +:+ to_string v) = "  " +:+ String c key +:+ to_string v ∧
  trimInPlace ("  " +:+ String c key +:+ to_string v) = String c key +:+ to_string v.
Proof.
  intros Hc Hk. split.
  - apply drop_return_free. rewrite !free_app, Hk, (free_return (to_string v)) by apply to_string_space. done.
  - apply trimInPlace_indented; [done|apply to_string_space|apply to_string_nonempty].
Qed.

Lemma to_string_small k : small k → from_chars_int (to_string (Z.of_nat k)) = Some (Z.of_nat k).
Proof. intros Hk. apply from_chars_to_string. unfold small in Hk. lia. Qed.

Lemma parse_size n (k : nat) s :
  section s = Metadata → small k → parse_line n (print_size (Z.of_nat k)) s = Ok (add_size (Z.of_nat k) s).
Proof.
  intros Hs Hk. destruct (value_line "-"%char " " (Z.of_nat k)) as [Hd Ht]; [done..|].
  unfold parse_line. change (print_size (Z.of_nat k)) with ("  " +:+ "- " +:+ to_string (Z.of_nat k)).
  rewrite Hd, Ht.
  change ((if bool_decide (section s ≠ Metadata) then Ok s else size_item n ("- " +:+ to_string (Z.of_nat k)) s) =
          Ok (add_size (Z.of_nat k) s)).
  rewrite bool_decide_false by (intros Hx; by apply Hx). unfold size_item.
  change ("- " +:+ ?v) with (String "-" (String " " v)).
  rewrite substring_item by (cbn; lia). rewrite (trimInPlace_free (to_string _)) by apply to_string_space.
  by rewrite bool_decide_false, to_string_small by (done || apply to_string_nonempty).
Qed.

Lemma parse_key n c key name v s :
  section s = Metadata → is_space c = false → c ≠ "#"%char → free (is_char carriage_return) (String c key) = true →
  list_item (String c key +:+ to_string v) = false →
  cut_colon (String c key +:+ to_string v) = Some (name, " " +:+ to_string v) →
  parse_line n ("  " +:+ String c key +:+ to_string v) s = metadata_key n name (" " +:+ to_string v) s.
Proof.
  intros Hs Hc Hh Hf Hi Hcut. destruct (value_line c key v) as [Hd Ht]; [done..|].
  unfold parse_line. rewrite Hd, Ht, Hi, Hcut.
  change (indented ("  " +:+ String c key +:+ to_string v)) with true.
  cbn [negb]. rewrite (bool_decide_false (section s ≠ Metadata)) by (intros Hx; by apply Hx).
  change (String c key +:+ ?w) with (String c (key +:+ w)). cbn [nothing]. by rewrite bool_decide_false.
Qed.

Lemma trim_count v : trimInPlace (" " +:+ to_string v) = to_string v.
Proof.
  unfold trimInPlace. rewrite trim_right_app by (apply to_string_space || apply to_string_nonempty).
  change (trim_left (to_string v) = to_string v).
  destruct (to_string_cons v) as (c & rest & Hv & _). pose proof (to_string_space v) as Hf.
  rewrite Hv in *. cbn [free trim_left] in *. by destruct (is_space c).
Qed.

(** *** Lines *)

Lemma scan_lines_app n l1 l2 s :
  scan_lines n (l1 ++ l2) s = (s1 ← scan_lines n l1 s; scan_lines (n + Z.of_nat (length l1)) l2 s1).
Proof.
  revert n s. induction l1 as [|x l1 IH]; intros n s; cbn [app scan_lines]; [cbn; by rewrite Z.add_0_r|].
  destruct (parse_line n x s) as [s'|e]; [|done]. cbn [mbind res_bind]. rewrite IH.
  by replace (n + 1 + Z.of_nat (length l1)) with (n + Z.of_nat (length (x :: l1))) by (cbn [length]; lia).
Qed.

(** [l] is read without an error from the state [s] to [s']. *)
Definition reads (l : list string) (s s' : Scan) : Prop := ∀ n, scan_lines n l s = Ok s'.

Lemma reads_nil s : reads [] s s.
Proof. done. Qed.

Lemma reads_app l1 l2 s s1 s2 : reads l1 s s1 → reads l2 s1 s2 → reads (l1 ++ l2) s s2.
Proof. intros H1 H2 n. rewrite scan_lines_app, H1. apply H2. Qed.

Lemma reads_eq l s s1 s2 : reads l s s1 → s1 = s2 → reads l s s2.
Proof. by intros H <-. Qed.

Lemma reads_cons x l s s1 s2 : (∀ n, parse_line n x s = Ok s1) → reads l s1 s2 → reads (x :: l) s s2.
Proof. intros H1 H2 n. cbn [scan_lines]. rewrite H1. apply H2. Qed.

Definition add_blobs (bs : list buffer) (s : Scan) : Scan :=
  let r := result s in
  let r := match section s with
           | PortsDown => mkSwitchConfig (portsDown r ++ bs) (configure r) (portsUp r)
           | Configure => mkSwitchConfig (portsDown r) (configure r ++ bs) (portsUp r)
           | PortsUp => mkSwitchConfig (portsDown r) (configure r) (portsUp r ++ bs)
           | _ => r
           end in
  mkScan r (expectedPortsDown s) (expectedConfigure s) (expectedPortsUp s)
    (portsDownSizes s) (configureSizes s) (portsUpSizes s) (section s) (metaSub s).

Definition add_sizes (ks : list Z) (s : Scan) : Scan :=
  let '(down, conf, up) :=
    match metaSub s with
    | PortsDownSizes => (portsDownSizes s ++ ks, configureSizes s, portsUpSizes s)
    | ConfigureSizes => (portsDownSizes s, configureSizes s ++ ks, portsUpSizes s)
    | PortsUpSizes => (portsDownSizes s, configureSizes s, portsUpSizes s ++ ks)
    | NoSizes => (portsDownSizes s, configureSizes s, portsUpSizes s)
    end in
  mkScan (result s) (expectedPortsDown s) (expectedConfigure s) (expectedPortsUp s) down conf up (section s) (metaSub s).

Lemma reads_blobs bs s :
  blob_section (section s) = true → blobs_ok bs → reads (print_blob <$> bs) s (add_blobs bs s).
Proof.
  intros Hs [_ Hbs]. revert s Hs. induction Hbs as [|b bs (Hb & Hne & _) _ IH]; intros s Hs.
  - replace (add_blobs [] s) with s; [apply reads_nil|].
    destruct s as [[] ? ? ? ? ? ? [] ?]; unfold add_blobs; cbn; by rewrite ?app_nil_r.
  - apply (reads_cons _ _ _ (add_blob b s)); [intros n; by apply parse_blob|].
    replace (add_blobs (b :: bs) s) with (add_blobs bs (add_blob b s)); [by apply IH|].
    destruct s as [[] ? ? ? ? ? ? [] ?]; unfold add_blobs; cbn; by rewrite <- ?app_assoc.
Qed.

Lemma reads_sizes bs s :
  section s = Metadata → metaSub s ≠ NoSizes → blobs_ok bs →
  reads (print_size ∘ Z.of_nat ∘ length <$> bs) s (add_sizes (Z.of_nat ∘ length <$> bs) s).
Proof.
  intros Hs Hm [_ Hbs]. revert s Hs Hm. induction Hbs as [|b bs (_ & _ & Hb) _ IH]; intros s Hs Hm.
  - replace (add_sizes _ s) with s; [apply reads_nil|].
    destruct s as [[] ? ? ? ? ? ? ? []]; unfold add_sizes; cbn; by rewrite ?app_nil_r.
  - apply (reads_cons _ _ _ (add_size (Z.of_nat (length b)) s)); [intros n; by apply parse_size|].
    cbn [fmap list_fmap].
    replace (add_sizes _ s) with (add_sizes (Z.of_nat ∘ length <$> bs) (add_size (Z.of_nat (length b)) s)).
    + apply IH; by destruct s as [[] ? ? ? ? ? ? ? []].
    + destruct s as [[] ? ? ? ? ? ? ? []]; unfold add_sizes; cbn; by rewrite <- ?app_assoc.
Qed.

Lemma reads_section line sec s :
  (∀ n s, parse_line n line s = Ok (set_section sec s)) → reads [line] s (set_section sec s).
Proof. intros Hl. apply (reads_cons _ _ _ (set_section sec s)); [done|apply reads_nil]. Qed.

(** The count of a section and its sizes. *)
Lemma reads_meta name line sub (counts : Z → Scan → Scan) bs s :
  section s = Metadata → blobs_ok bs → sub ≠ NoSizes →
  (∀ n v, parse_line n ("  " +:+ name +:+ ": " +:+ to_string v) s = metadata_key n name (" " +:+ to_string v) s) →
  (∀ n v x, trimInPlace v = to_string x → from_chars_int (to_string x) = Some x →
    metadata_key n name v s = Ok (counts x s)) →
  (∀ n v, parse_line n line (counts v s) = Ok (set_metaSub sub (counts v s))) →
  (∀ v, section (counts v s) = Metadata) →
  reads (["  " +:+ name +:+ ": " +:+ to_string (Z.of_nat (length bs)); line] ++
         (print_size ∘ Z.of_nat ∘ length <$> bs)) s
    (add_sizes (Z.of_nat ∘ length <$> bs) (set_metaSub sub (counts (Z.of_nat (length bs)) s))).
Proof.
  intros Hs Hbs Hsub Hp Hm Hl Hc. eapply reads_app.
  - apply (reads_cons _ _ _ (counts (Z.of_nat (length bs)) s)).
    + intros n. rewrite Hp. apply Hm; [apply trim_count|apply to_string_small, Hbs].
    + apply (reads_cons _ _ _ (set_metaSub sub (counts (Z.of_nat (length bs)) s))); [done|apply reads_nil].
  - apply reads_sizes; [apply Hc|done|done].
Qed.

Lemma parseCount_ok n x name : from_chars_int (to_string x) = Some x → parseCount n (to_string x) name = Ok x.
Proof. intros Hx. unfold parseCount. by rewrite Hx, bool_decide_false by apply to_string_nonempty. Qed.

Ltac read_meta name sub set :=
  eapply reads_eq; [apply (reads_meta name _ sub set); [done|done|done|..]|unfold add_sizes, set_metaSub, set_counts; cbn; reflexivity];
  [intros n v; match eval compute in (name +:+ ": ") with String ?c ?key => by apply (parse_key n c key name v) end
  |intros n v x Hv Hx; unfold metadata_key; rewrite Hv, !parseCount_ok by done; done
  |done|done].

Lemma reads_lines c :
  config_ok c →
  reads (print_lines c) scan_start
    (mkScan c (Z.of_nat (length (portsDown c))) (Z.of_nat (length (configure c))) (Z.of_nat (length (portsUp c)))
       (Z.of_nat ∘ length <$> portsDown c) (Z.of_nat ∘ length <$> configure c) (Z.of_nat ∘ length <$> portsUp c)
       Metadata PortsUpSizes).
Proof.
  destruct c as [d c u]. intros (Hd & Hc & Hu). unfold print_lines. cbn [portsDown configure portsUp] in *.
  eapply reads_app; [by apply (reads_section _ PortsDown)|].
  eapply reads_app; [by apply reads_blobs|].
  eapply reads_app; [by apply (reads_section _ Configure)|].
  eapply reads_app; [by apply reads_blobs|].
  eapply reads_app; [by apply (reads_section _ PortsUp)|].
  eapply reads_app; [by apply reads_blobs|].
  eapply reads_app; [by apply (reads_section _ Metadata)|].
  change (set_section Metadata _) with (mkScan (mkSwitchConfig d c u) (-1) (-1) (-1) [] [] [] Metadata NoSizes).
  rewrite (app_assoc [_; _]). eapply reads_app.
  { read_meta "ports_down_count" PortsDownSizes (λ v s, set_counts v (expectedConfigure s) (expectedPortsUp s) (set_metaSub NoSizes s)). }
  rewrite (app_assoc [_; _]). eapply reads_app.
  { read_meta "configure_count" ConfigureSizes (λ v s, set_counts (expectedPortsDown s) v (expectedPortsUp s) (set_metaSub NoSizes s)). }
  { read_meta "ports_up_count" PortsUpSizes (λ v s, set_counts (expectedPortsDown s) (expectedConfigure s) v (set_metaSub NoSizes s)). }
Qed.

Lemma int32_small k : small k → int32 (Z.of_nat k) = Z.of_nat k.
Proof. unfold small, int32. intros Hk. rewrite Z.mod_small by lia. lia. Qed.

Lemma check_sizes_ok name i blobs :
  Forall (λ b, bytes_ok b ∧ b ≠ [] ∧ small (length b)) blobs →
  check_sizes name i blobs (Z.of_nat ∘ length <$> blobs) = Ok ().
Proof.
  intros Hb. revert i. induction Hb as [|b blobs (_ & _ & Hb) _ IH]; intros i; [done|].
  cbn [fmap list_fmap check_sizes]. unfold compose at 1. rewrite int32_small, Z.eqb_refl by done. apply IH.
Qed.

Lemma validateSizes_ok name blobs : blobs_ok blobs → validateSizes blobs (Z.of_nat ∘ length <$> blobs) name = Ok ().
Proof.
  intros [_ Hb]. unfold validateSizes. case_bool_decide; [done|].
  rewrite length_fmap, Z.eqb_refl. by apply check_sizes_ok.
Qed.

Lemma check_count_ok name blobs : blobs_ok blobs → check_count name (Z.of_nat (length blobs)) blobs = Ok ().
Proof. intros [Hk _]. unfold check_count. by rewrite int32_small, Z.eqb_refl. Qed.

Lemma print_lines_free c : config_ok c → Forall (λ l, free (is_char newline) l = true) (print_lines c).
Proof.
  assert (Hs : ∀ v, free (is_char newline) (to_string v) = true).
  { intros v. apply to_string_free. intros d Hd. apply bool_decide_eq_false_2.
    by destruct (digit_char d Hd _ eq_refl) as (_ & _ & _ & H). }
  assert (Hb : ∀ bs, blobs_ok bs → Forall (λ l, free (is_char newline) l = true) (print_blob <$> bs)).
  { intros bs [_ Hbs]. apply Forall_fmap. eapply Forall_impl; [exact Hbs|]. intros b (Hb & _).
    unfold compose, print_blob. rewrite free_app. apply andb_true_iff. split; [done|].
    eapply free_impl, hex_space; [|done]. intros ch Hch. apply bool_decide_eq_true_1 in Hch. by subst. }
  assert (Hz : ∀ bs : list buffer, Forall (λ l, free (is_char newline) l = true) (print_size ∘ Z.of_nat ∘ length <$> bs)).
  { intros bs. apply Forall_fmap, Forall_true. intros b. unfold compose, print_size. by rewrite free_app, Hs. }
  intros (Hd & Hc & Hu). unfold print_lines.
  rewrite !Forall_app, !Forall_cons, !Forall_nil. split_and!; try done; try (rewrite free_app; by rewrite Hs); auto.
Qed.

(** C24: A configuration that is printed in the form the code documents is read back. *)
Theorem parse_print c : config_ok c → parseConfigFile (print_config c) = Ok c.
Proof.
  intros Hc. unfold parseConfigFile, print_config. rewrite split_join by (done || by apply print_lines_free).
  rewrite reads_lines by done. destruct Hc as (Hd & Hc & Hu). cbn [mbind res_bind]. unfold conclude.
  cbn [expectedPortsDown expectedConfigure expectedPortsUp result portsDownSizes configureSizes portsUpSizes].
  rewrite !(proj2 (Z.ltb_ge _ _)) by lia. cbn [orb negb guard_ mbind res_bind].
  by rewrite !check_count_ok, !validateSizes_ok.
Qed.

Lemma parse_print_witness :
  parseConfigFile (print_config (mkSwitchConfig [[1; 2]; [255]] [] [[0]])) = Ok (mkSwitchConfig [[1; 2]; [255]] [] [[0]]).
Proof.
  apply parse_print. split_and!; (split; [by vm_compute|]); repeat constructor; try done; lia.
Defined.

(** An entry without digits is passed over: trimmed it is no list item any more, and the
    error that is meant for it is never thrown. *)
Example empty_entry_ignored n s : parse_line n "- " s = Ok s.
Proof. reflexivity. Qed.

(** ** What is accepted *)

Lemma trim_right_length s : (String.length (trim_right s) ≤ String.length s)%nat.
Proof.
  induction s as [|c s IH]; [done|]. cbn [trim_right]. destruct (trim_right s) as [|d t].
  - destruct (is_space c); cbn; lia.
  - cbn [String.length] in *. lia.
Qed.

Lemma trim_left_length s : (String.length (trim_left s) ≤ String.length s)%nat.
Proof. induction s as [|c s IH]; [done|]. cbn [trim_left]. destruct (is_space c); cbn [String.length]; lia. Qed.

Lemma trimInPlace_length s : (String.length (trimInPlace s) ≤ String.length s)%nat.
Proof. unfold trimInPlace. pose proof (trim_left_length (trim_right s)). pose proof (trim_right_length s). lia. Qed.

Lemma substring_length i n s : (String.length (String.substring i n s) ≤ String.length s)%nat.
Proof.
  revert i n. induction s as [|c s IH]; intros [|i] [|n]; cbn [String.substring String.length]; try lia.
  - specialize (IH O n). lia.
  - specialize (IH i O). lia.
  - specialize (IH i (S n)). lia.
Qed.

Lemma drop_return_length s : (String.length (drop_return s) ≤ String.length s)%nat.
Proof.
  induction s as [|c [|d s] IH]; [done|cbn; case_decide; cbn; lia|].
  change (drop_return (String c (String d s))) with (String c (drop_return (String d s))). cbn [String.length] in *. lia.
Qed.

Lemma hex_char_bound c v : hex_char c = Some v → 0 ≤ v < 16.
Proof. unfold hex_char, hex_value. intros Hv. repeat case_match; simplify_eq; bool_to_prop; lia. Qed.

Lemma hex_pairs_ok i s bytes :
  Nat.odd (String.length s) = false → hex_pairs i s = Ok bytes →
  bytes_ok bytes ∧ (2 * length bytes = String.length s)%nat.
Proof.
  revert i bytes. induction s as [s IH] using (induction_ltof1 _ String.length). intros i bytes Ho Hs.
  destruct s as [|hi [|lo s]]; cbn [hex_pairs] in Hs; [injection Hs as <-; by split; [constructor|]|done|].
  destruct (hex_char hi) as [h|] eqn:Hh, (hex_char lo) as [l|] eqn:Hl; try done.
  apply res_bind_ok in Hs as (rest & Hr & [= <-]).
  destruct (IH s) with (i := i + 1) (bytes := rest) as [Hb Hn]; [unfold ltof; cbn; lia|by rewrite <- Ho|done|].
  apply hex_char_bound in Hh, Hl. split; [|cbn [length String.length]; lia].
  constructor; [unfold word; lia|done].
Qed.

Lemma hexStringToBytes_ok s bytes :
  hexStringToBytes s = Ok bytes → bytes_ok bytes ∧ (2 * length bytes = String.length s)%nat.
Proof. unfold hexStringToBytes. destruct (Nat.odd _) eqn:Ho; [done|]. by apply hex_pairs_ok. Qed.

(** The blobs in the order they are sent. *)
Definition all_blobs (c : SwitchConfig) : list buffer := portsDown c ++ configure c ++ portsUp c.

Definition total (bs : list buffer) : nat := sum_list_with length bs.

(** The blobs of [c] are of bytes, not empty, and have come from at most [n] characters. *)
Definition drawn_from (n : nat) (c : SwitchConfig) : Prop :=
  Forall (λ b, bytes_ok b ∧ b ≠ []) (all_blobs c) ∧ (2 * total (all_blobs c) ≤ n)%nat.

Lemma add_blob_drawn n b s :
  drawn_from n (result s) → bytes_ok b → b ≠ [] → drawn_from (2 * length b + n) (result (add_blob b s)).
Proof.
  unfold drawn_from, all_blobs, total. destruct s as [[d c u] ? ? ? ? ? ? sec ?]. cbn. intros [Hb Hn] Hok Hne.
  destruct sec; cbn; rewrite !sum_list_with_app in *; cbn; (split; [|lia]); revert Hb;
    rewrite !Forall_app, ?Forall_singleton; naive_solver.
Qed.

Lemma root_item_ok n stripped s s' :
  root_item n stripped s = Ok s' →
  s' = s ∨ ∃ b, s' = add_blob b s ∧ bytes_ok b ∧ b ≠ [] ∧ (2 * length b ≤ String.length stripped)%nat.
Proof.
  unfold root_item. case_bool_decide; [intros [= <-]; by left|]. case_bool_decide as Hne; [done|].
  intros (b & [Hb Hl]%hexStringToBytes_ok & [= <-])%res_bind_ok. right. exists b. split_and!; [done|done| |].
  - intros ->. destruct (trimInPlace _); done.
  - rewrite Hl. etrans; [apply trimInPlace_length|]. apply substring_length.
Qed.

Lemma root_key_result key s : result (root_key key s) = result s.
Proof. unfold root_key. by repeat case_bool_decide. Qed.

Lemma size_item_result n stripped s s' : size_item n stripped s = Ok s' → result s' = result s.
Proof.
  unfold size_item, add_size. case_bool_decide; [done|]. destruct (from_chars_int _); [|done].
  intros [= <-]. by destruct (metaSub s).
Qed.

Lemma metadata_key_result n key value s s' : metadata_key n key value s = Ok s' → result s' = result s.
Proof.
  unfold metadata_key. intros Hk. repeat (case_bool_decide; [by
    first [injection Hk as <-|apply res_bind_ok in Hk as (v & _ & [= <-])]|]). by injection Hk as <-.
Qed.

Lemma parse_line_drawn n k line s s' :
  drawn_from k (result s) → parse_line n line s = Ok s' → drawn_from (String.length line + k) (result s').
Proof.
  intros [Hb Hn] Hp.
  assert (Hw : result s' = result s → drawn_from (String.length line + k) (result s')) by (intros ->; split; [done|lia]).
  revert Hp. unfold parse_line. destruct (nothing _); [intros [= <-]; auto|].
  destruct (indented _); cbn [negb].
  - case_bool_decide; [intros [= <-]; auto|]. destruct (list_item _).
    { intros Hs. eapply Hw, size_item_result, Hs. }
    destruct (cut_colon _) as [[key value]|]; [|intros [= <-]; auto].
    intros Hs. eapply Hw, metadata_key_result, Hs.
  - destruct (list_item _).
    + intros [->|(b & -> & Hok & Hne & Hl)]%root_item_ok; [auto|].
      destruct (add_blob_drawn k b s) as [Hf Ht]; [done..|]. split; [done|].
      pose proof (trimInPlace_length (drop_return line)). pose proof (drop_return_length line). lia.
    + destruct (cut_colon _) as [[key value]|]; intros [= <-]; apply Hw; [apply root_key_result|done].
Qed.

Lemma scan_lines_drawn n k lines s s' :
  drawn_from k (result s) → scan_lines n lines s = Ok s' → drawn_from (sum_list_with String.length lines + k) (result s').
Proof.
  revert n k s. induction lines as [|line lines IH]; intros n k s Hd Hs; [by injection Hs as <-|].
  cbn [scan_lines] in Hs. apply res_bind_ok in Hs as (s1 & H1 & Hs).
  apply (parse_line_drawn n k) in H1; [|done]. eapply IH in Hs; [|exact H1]. cbn [sum_list_with].
  destruct Hs as [Hf Ht]. split; [done|lia].
Qed.

Lemma split_length c s : (sum_list_with String.length (split c s) ≤ String.length s)%nat.
Proof.
  induction s as [|d s IH]; [done|]. cbn [split]. case_decide; cbn; [lia|].
  destruct (split c s) as [|w l]; cbn in *; lia.
Qed.

(** What is sent for a configuration that has been accepted has no empty blob, and is at
    most half as long as the text of the configuration. *)
Theorem accepted_bounded content c :
  parseConfigFile content = Ok c →
  Forall (λ b, bytes_ok b ∧ b ≠ []) (all_blobs c) ∧ (2 * total (all_blobs c) ≤ String.length content)%nat.
Proof.
  unfold parseConfigFile. intros (s & Hs & Hc)%res_bind_ok.
  assert (result s = c) as <-. { unfold conclude in Hc. by repeat apply res_bind_ok in Hc as (? & _ & Hc); injection Hc as <-. }
  eapply (scan_lines_drawn _ 0) in Hs; [|by split; [constructor|]]. destruct Hs as [Hf Ht]. split; [done|].
  pose proof (split_length newline content). unfold total in *. lia.
Qed.

Lemma accepted_bounded_witness :
  parseConfigFile (print_config (mkSwitchConfig [[1; 2]] [] [[3]])) = Ok (mkSwitchConfig [[1; 2]] [] [[3]]) ∧
  (2 * total (all_blobs (mkSwitchConfig [[1; 2]] [] [[3]])%Z) ≤ String.length (print_config (mkSwitchConfig [[1; 2]] [] [[3]])%Z))%nat.
Proof.
  assert (H : parseConfigFile (print_config (mkSwitchConfig [[1; 2]] [] [[3]])) = Ok (mkSwitchConfig [[1; 2]] [] [[3]]))
    by by vm_compute.
  split; [done|]. exact (proj2 (accepted_bounded _ _ H)).
Defined.
