(* ===== verification/NvManager.v ===== *)
(** * The NVSwitch configuration manager

    src/nvswitch-config/nvswitch_config_manager.cpp: the configuration file, which two
    D-Bus methods store and remove, and its delivery to the devices that ask for it. The
    manager is driven by one event loop: [handle] is what it does with an input, as a
    program of the calls it makes; the asynchronous calls that wait for their answer are
    the list [pending] of its state, each with the context its callback has captured. *)

From stdpp Require Import list gmap strings.
From S2P Require Import Prelude Bytes Text Trace Threads NvConfig.

#[local] Open Scope string_scope.
#[local] Open Scope list_scope.
#[local] Open Scope Z_scope.

(** ** The environment *)

Inductive Call :=
(* files *)
| FileExists (path : string)
| SeekInput (fd : Z)
| ReadInput (fd count : Z)
| CreateDirectories (path : string)
| OpenOutput (path : string)
| WriteOutput (content : string)
| CloseOutput
| RemoveFile (path : string)
| RenameFile (path path' : string)
| OpenInput (path : string)
| ReadAll
(* memfd *)
| MemfdCreate
| WriteMemfd (fd : Z) (data : buffer)
| SeekMemfd (fd : Z)
| CloseFd (fd : Z)
(* asynchronous calls of D-Bus, and the timer *)
| GetSubTree
| GetObject (path : string)
| SetDeviceConfiguration (service path : string) (fd : Z)
| GetStatus (service path : string)
| ExpiresAfter (ms : Z)
(* the reply of a method, and the summary in the journal *)
| MethodReturn (r : res string ())
| Complete (path : string) (successCount total failCount : Z).

(** [exists] answers or throws; [read] has come to what it read or to an error; a
    failure of the file system is its message. [CloseOutput] answers whether what the
    stream had buffered was written. *)
Definition reply (c : Call) : Type :=
  match c with
  | FileExists _ => res string bool
  | ReadInput _ _ => option string
  | CreateDirectories _ | RemoveFile _ | RenameFile _ _ => option string
  | SeekInput _ | SeekMemfd _ | OpenOutput _ | WriteOutput _ | CloseOutput | OpenInput _ => bool
  | ReadAll => res string string
  | MemfdCreate => option Z
  | WriteMemfd _ _ => Z
  | _ => ()
  end.

Abbreviation P := (Prog reply string).
Abbreviation event := (Event (reply := reply)).

Definition exists_ (path : string) : P bool := Step (FileExists path) (λ r, Done r).

(** ** The configuration file *)

(** [nvswitch-config/nvswitch_config_manager.hpp:41-42 configDir, configFileName] *)
Definition configDir : string := "/var/emmc/misc/switch-config".
Definition configFileName : string := "nvswitch-nvlink-config.yaml".

(** [nvswitch-config/nvswitch_config_manager.hpp:45-45 maxConfigFileSize] *)
Definition maxConfigFileSize : Z := 64 * 1024.

(** [nvswitch-config/nvswitch_config_manager.cpp:635-638 getConfigFilePath] *)
Definition getConfigFilePath : string := configDir +:+ "/" +:+ configFileName.

Definition tempPath : string := getConfigFilePath +:+ ".tmp".

Definition size (s : string) : Z := Z.of_nat (String.length s).

(** The loop of [readFromFd]: what has been read is in [content]. *)
Fixpoint read_loop (fuel : nat) (fd : Z) (content : string) : P string :=
  match fuel with
  | O => raise "no fuel"
  | S fuel =>
      r ← act (ReadInput fd 4096);
      match r with
      | None => raise "Failed to read from file descriptor"
      | Some "" => mret content
      | Some buf =>
          if maxConfigFileSize <? size content + size buf
          then raise ("Config file content exceeds maximum allowed size (" +:+ to_string maxConfigFileSize +:+ " bytes).")
          else read_loop fuel fd (content +:+ buf)
      end
  end.

(** [nvswitch-config/nvswitch_config_manager.cpp:640-670 readFromFd]
    Every turn of the loop but the last reads a byte or more. *)
Definition readFromFd (fd : Z) : P string :=
  _ ← act (SeekInput fd);
  read_loop (Z.to_nat (maxConfigFileSize + 2)) fd "".

(** [nvswitch-config/nvswitch_config_manager.cpp:171-185 handleAddConfigFile]
    The stream is written to its buffer; its destructor writes what is left there, and
    nothing tells whether it could. *)
Definition write_temp (content : string) : P () :=
  opened ← act (OpenOutput tempPath);
  if negb opened then raise "Failed to open temp file for writing." else
  written ← act (WriteOutput content);
  _ ← act CloseOutput;
  if negb written then
    _ ← act (RemoveFile tempPath);
    raise "Failed to write config content to disk."
  else mret ().

(** [nvswitch-config/nvswitch_config_manager.cpp:103-196 handleAddConfigFile] *)
Definition handleAddConfigFile (fd : Z) : P () :=
  present ← exists_ getConfigFilePath;
  if present : bool then
    raise ("FileAlreadyExists: Config file already exists. " +:+ "Invoke RemoveConfigFile before adding a new one.")
  else
  content ← readFromFd fd;
  if bool_decide (content = "") then raise "Config file content is empty." else
  if maxConfigFileSize <? size content then raise "Config file exceeds maximum allowed size." else
  _ ← match parseConfigFile content with
      | Ok _ => mret ()
      | Throw e => raise ("Config file validation failed: " +:+ e)
      end;
  ec ← act (CreateDirectories configDir);
  match ec with
  | Some message => raise ("Failed to create config directory: " +:+ message)
  | None =>
      _ ← write_temp content;
      ec ← act (RenameFile tempPath getConfigFilePath);
      match ec with
      | None => mret ()
      | Some message =>
          removed ← act (RemoveFile tempPath);
          match removed with
          | Some error => raise error
          | None => raise ("Failed to store config file: " +:+ message)
          end
      end
  end.

(** [nvswitch-config/nvswitch_config_manager.cpp:198-220 handleRemoveConfigFile] *)
Definition handleRemoveConfigFile : P () :=
  present ← exists_ getConfigFilePath;
  if negb present then raise ("No config file present at " +:+ getConfigFilePath) else
  ec ← act (RemoveFile getConfigFilePath);
  match ec with
  | Some message => raise ("Failed to remove config file: " +:+ message)
  | None => mret ()
  end.

(** [nvswitch-config/nvswitch_config_manager.cpp:1008-1036 createMemfd] *)
Definition createMemfd (data : buffer) : P Z :=
  fd ← act MemfdCreate;
  match fd with
  | None => raise "memfd_create failed"
  | Some fd =>
      written ← (if bool_decide (data = []) then mret true
                 else n ← act (WriteMemfd fd data); mret (n =? Z.of_nat (length data)));
      if negb written then _ ← act (CloseFd fd); raise "write to memfd failed" else
      sought ← act (SeekMemfd fd);
      if negb sought then _ ← act (CloseFd fd); raise "lseek on memfd failed" else
      mret fd
  end.

(** ** The state *)

(** [nvswitch-config/nvswitch_config_manager.cpp:60-65 BlobSendContext::BlobEntry] *)
Record BlobEntry := mkBlobEntry { data : buffer; phase : string; idxInPhase : Z }.

(** [nvswitch-config/nvswitch_config_manager.cpp:55-72 BlobSendContext] *)
Record BlobSendContext := mkContext {
  devicePath : string;
  serviceName : string;
  blobs : list BlobEntry;
  current : nat;
  successCount : Z;
  failCount : Z;
}.

(** An asynchronous call that has not been answered, or a timer that has not expired. *)
Inductive Pending :=
| Discovering
| Resolving (ctx : BlobSendContext)
| Setting (ctx : BlobSendContext)
| Polling (ctx : BlobSendContext) (asyncPath : string) (elapsedMs : Z)
| Waiting (ctx : BlobSendContext) (asyncPath : string) (elapsedMs : Z).

(** [nvswitch-config/nvswitch_config_manager.hpp:127-133 NVSwitchConfigManager]
    [deviceStates] has the flag [inProgress] of a device; [signalMatches] are the paths
    whose signal is watched. *)
Record State := mkState {
  deviceStates : gmap string bool;
  signalMatches : list string;
  pending : list Pending;
}.

Definition begin (p : Pending) (s : State) : State := mkState (deviceStates s) (signalMatches s) (pending s ++ [p]).

Definition set_inProgress (path : string) (b : bool) (s : State) : State :=
  mkState (<[path := b]> (deviceStates s)) (signalMatches s) (pending s).

(** ** Devices *)

Definition requestConfigIface : string := "com.nvidia.DeviceConfiguration.ConfigRequester".

(** [nvswitch-config/nvswitch_config_manager.cpp:276-299 subscribeToDevice] *)
Definition subscribeToDevice (path : string) (s : State) : State :=
  match deviceStates s !! path with
  | Some _ => s
  | None => mkState (<[path := false]> (deviceStates s)) (signalMatches s ++ [path]) (pending s)
  end.

(** [nvswitch-config/nvswitch_config_manager.cpp:244-274 discoverAndSubscribeDevices]
    The callback. *)
Definition onSubTree (r : res string (list string)) (s : State) : State :=
  match r with
  | Throw _ => s
  | Ok paths => foldl (λ s path, subscribeToDevice path s) s paths
  end.

(** [nvswitch-config/nvswitch_config_manager.cpp:301-331 onInterfacesAdded]
    The path of the object and the names of its interfaces, if the message can be read. *)
Definition onInterfacesAdded (msg : res string (string * list string)) (s : State) : State :=
  match msg with
  | Throw _ => s
  | Ok (path, interfaces) => if bool_decide (requestConfigIface ∈ interfaces) then subscribeToDevice path s else s
  end.

(** ** The delivery of a configuration *)

(** [nvswitch-config/nvswitch_config_manager.cpp:618-629 finishApply] *)
Definition finishApply (ctx : BlobSendContext) (s : State) : P State :=
  _ ← act (Complete (devicePath ctx) (successCount ctx) (Z.of_nat (length (blobs ctx))) (failCount ctx));
  mret match deviceStates s !! devicePath ctx with
       | Some _ => set_inProgress (devicePath ctx) false s
       | None => s
       end.

(** [++ctx->current] with one more success or failure. *)
Definition advance (ok : bool) (ctx : BlobSendContext) : BlobSendContext :=
  mkContext (devicePath ctx) (serviceName ctx) (blobs ctx) (S (current ctx))
    (successCount ctx + (if ok then 1 else 0)) (failCount ctx + (if ok then 0 else 1)).

(** The recursion of [sendNextBlob]; [rest] are the blobs from [current] on. *)
Fixpoint send_from (rest : list BlobEntry) (ctx : BlobSendContext) (s : State) : P State :=
  match rest with
  | [] => finishApply ctx s
  | entry :: rest =>
      fd ← try_catch (fd ← createMemfd (data entry); mret (Some fd)) (λ _, mret None);
      match fd with
      | None => send_from rest (advance false ctx) s
      | Some fd =>
          _ ← act (SetDeviceConfiguration (serviceName ctx) (devicePath ctx) fd);
          _ ← act (CloseFd fd);
          mret (begin (Setting ctx) s)
      end
  end.

(** [nvswitch-config/nvswitch_config_manager.cpp:452-530 sendNextBlob] *)
Definition sendNextBlob (ctx : BlobSendContext) (s : State) : P State :=
  send_from (drop (current ctx) (blobs ctx)) ctx s.

(** [nvswitch-config/nvswitch_config_manager.cpp:432-450 applyConfigToDevice]
    The callback of [GetObject]: the services that own the device. *)
Definition onServices (ctx : BlobSendContext) (r : res string (list string)) (s : State) : P State :=
  match r with
  | Throw _ | Ok [] => finishApply ctx s
  | Ok (service :: _) =>
      sendNextBlob (mkContext (devicePath ctx) service (blobs ctx) (current ctx) (successCount ctx) (failCount ctx)) s
  end.

(** [nvswitch-config/nvswitch_config_manager.cpp:532-545 pollBlobStatus] *)
Definition pollBlobStatus (ctx : BlobSendContext) (asyncPath : string) (elapsedMs : Z) (s : State) : P State :=
  _ ← act (GetStatus (serviceName ctx) asyncPath);
  mret (begin (Polling ctx asyncPath elapsedMs) s).

(** [nvswitch-config/nvswitch_config_manager.cpp:501-523 sendNextBlob]
    The callback of [SetDeviceConfiguration]. *)
Definition onSet (ctx : BlobSendContext) (r : res string string) (s : State) : P State :=
  match r with
  | Throw _ => sendNextBlob (advance false ctx) s
  | Ok asyncPath => pollBlobStatus ctx asyncPath 0 s
  end.

Definition inProgressValue : string := "com.nvidia.Async.Status.AsyncOperationStatus.InProgress".
Definition successValue : string := "com.nvidia.Async.Status.AsyncOperationStatus.Success".
Definition pollIntervalMs : Z := 200.
Definition timeoutMs : Z := 30000.

(** [nvswitch-config/nvswitch_config_manager.cpp:532-616 pollBlobStatus]
    The callback. *)
Definition onStatus (ctx : BlobSendContext) (asyncPath : string) (elapsedMs : Z) (r : res string string) (s : State) : P State :=
  match r with
  | Throw _ => sendNextBlob (advance false ctx) s
  | Ok status =>
      if bool_decide (status = inProgressValue) then
        if timeoutMs <=? elapsedMs then sendNextBlob (advance false ctx) s
        else
          _ ← act (ExpiresAfter pollIntervalMs);
          mret (begin (Waiting ctx asyncPath elapsedMs) s)
      else sendNextBlob (advance (bool_decide (status = successValue)) ctx) s
  end.

(** [deviceStates_[devicePath]->inProgress = false]: for a path that is not in the map
    the pointer is null. *)
Definition clear (path : string) (s : State) : P State :=
  match deviceStates s !! path with
  | Some _ => mret (set_inProgress path false s)
  | None => raise "null DeviceState"
  end.

Definition entries (phase : string) (l : list buffer) : list BlobEntry :=
  imap (λ i b, mkBlobEntry b phase (Z.of_nat i)) l.

(** [nvswitch-config/nvswitch_config_manager.cpp:413-422 applyConfigToDevice] *)
Definition context (path : string) (config : SwitchConfig) : BlobSendContext :=
  mkContext path ""
    (entries "ports_down" (portsDown config) ++ entries "configure" (configure config) ++
     entries "ports_up" (portsUp config))
    0 0 0.

(** [nvswitch-config/nvswitch_config_manager.cpp:364-450 applyConfigToDevice] *)
Definition applyConfigToDevice (path : string) (s : State) : P State :=
  present ← exists_ getConfigFilePath;
  if negb present then clear path s else
  opened ← act (OpenInput getConfigFilePath);
  if negb opened then clear path s else
  content ← Step ReadAll (λ r, Done r);
  if bool_decide (content = "") then clear path s else
  match parseConfigFile content with
  | Throw _ => clear path s
  | Ok config =>
      _ ← act (GetObject path);
      mret (begin (Resolving (context path config)) s)
  end.

(** [nvswitch-config/nvswitch_config_manager.cpp:333-358 onConfigUpdateSignal] *)
Definition onConfigUpdateSignal (path : string) (s : State) : P State :=
  match deviceStates s !! path with
  | None => mret s
  | Some true => mret s
  | Some false => applyConfigToDevice path (set_inProgress path true s)
  end.

(** ** The event loop *)

Inductive Input :=
| AddConfigFile (fd : Z)
| RemoveConfigFile
| InterfacesAdded (msg : res string (string * list string))
| DeviceConfigurationRequested (path : string)
(* the answer of the [i]-th call that is pending *)
| SubTree (i : nat) (r : res string (list string))
| Services (i : nat) (r : res string (list string))
| Configured (i : nat) (r : res string string)
| Status (i : nat) (r : res string string)
| Expired (i : nat).

(** A method of D-Bus: an exception is its reply. *)
Definition method (p : P ()) (s : State) : P State :=
  r ← try_catch (_ ← p; mret (Ok ())) (λ e, mret (Throw e));
  _ ← act (MethodReturn r);
  mret s.

Definition take_pending (i : nat) (s : State) : State :=
  mkState (deviceStates s) (signalMatches s) (delete i (pending s)).

(** What the loop does with an input, and the state it comes to. An input that is not
    due changes nothing. *)
Definition handle (input : Input) (s : State) : P State :=
  match input with
  | AddConfigFile fd => method (handleAddConfigFile fd) s
  | RemoveConfigFile => method handleRemoveConfigFile s
  | InterfacesAdded msg => mret (onInterfacesAdded msg s)
  | DeviceConfigurationRequested path =>
      if bool_decide (path ∈ signalMatches s) then onConfigUpdateSignal path s else mret s
  | SubTree i r =>
      match pending s !! i with Some Discovering => mret (onSubTree r (take_pending i s)) | _ => mret s end
  | Services i r =>
      match pending s !! i with Some (Resolving ctx) => onServices ctx r (take_pending i s) | _ => mret s end
  | Configured i r =>
      match pending s !! i with Some (Setting ctx) => onSet ctx r (take_pending i s) | _ => mret s end
  | Status i r =>
      match pending s !! i with
      | Some (Polling ctx asyncPath elapsedMs) => onStatus ctx asyncPath elapsedMs r (take_pending i s)
      | _ => mret s
      end
  | Expired i =>
      match pending s !! i with
      | Some (Waiting ctx asyncPath elapsedMs) => pollBlobStatus ctx asyncPath (elapsedMs + pollIntervalMs) (take_pending i s)
      | _ => mret s
      end
  end.

(** [nvswitch-config/nvswitch_config_manager.cpp:226-242 setupSignalWatchers]
    What the constructor leaves. *)
Definition setupSignalWatchers : P State :=
  _ ← act GetSubTree;
  mret (mkState ∅ [] [Discovering]).

(** What the manager can come to, with the calls made on the way. An exception that no
    handler catches ends it. *)
Inductive reachable : State → list event → Prop :=
| reachable_start es s : steps setupSignalWatchers es (Done (Ok s)) → reachable s es
| reachable_input s es input es' s' :
    reachable s es → steps (handle input s) es' (Done (Ok s')) → reachable s' (es ++ es').

(** ** What is stored *)

(** What a reader of the descriptor has been given. *)
Fixpoint received (es : list event) : string :=
  match es with
  | [] => ""
  | existT c r :: es =>
      match c return reply c → string with
      | ReadInput _ _ => λ r, default "" r +:+ received es
      | _ => λ _, received es
      end r
  end.

(** The reads of a descriptor, with what they have given. *)
Definition read_of (e : event) : option (Z * option string) :=
  let '(existT c r) := e in
  match c return reply c → option (Z * option string) with
  | ReadInput fd _ => λ r, Some (fd, r)
  | _ => λ _, None
  end r.

Definition reads (es : list event) : list (Z * option string) := omap read_of es.

(** All of what is behind [fd] has been read: piece by piece, up to a read that has given
    nothing because nothing was left. *)
Definition read_whole (fd : Z) (es : list event) : Prop :=
  ∃ pieces, reads es = (λ piece, (fd, Some piece)) <$> pieces ++ [""] ∧ "" ∉ pieces.

(** The two files of [configDir]. *)
Record Disk := mkDisk { config_file : option string; temp_file : option string }.

Definition disk_step (d : Disk) (e : event) : Disk :=
  let '(existT c r) := e in
  match c return reply c → Disk with
  | OpenOutput _ => λ b : bool, if b then mkDisk (config_file d) (Some "") else d
  | WriteOutput content => λ b : bool, if b then mkDisk (config_file d) (Some content) else d
  | CloseOutput => λ b : bool, if b then d else mkDisk (config_file d) (Some "")
  | RemoveFile path => λ error : option string,
      match error with
      | None => if bool_decide (path = getConfigFilePath) then mkDisk None (temp_file d) else mkDisk (config_file d) None
      | Some _ => d
      end
  | RenameFile _ _ => λ error : option string, match error with None => mkDisk (temp_file d) None | Some _ => d end
  | _ => λ _, d
  end r.

(** The files after the calls [es]. A stream that could not write its buffer leaves an
    empty file; so it is of a content that is smaller than the buffer. *)
Definition disk (d : Disk) (es : list event) : Disk := foldl disk_step d es.

Definition flushed (es : list event) : Prop :=
  Forall (λ e : event, match e with existT CloseOutput b => b = true | _ => True end) es.

(** Calls that leave the two files as they are. *)
Definition no_write (c : Call) : Prop :=
  match c with OpenOutput _ | WriteOutput _ | CloseOutput | RemoveFile _ | RenameFile _ _ => False | _ => True end.

Lemma disk_app d es es' : disk d (es ++ es') = disk (disk d es) es'.
Proof. apply foldl_app. Qed.

Lemma disk_same d es : Forall (λ e : event, no_write (projT1 e)) es → disk d es = d.
Proof. intros Hes. revert d. induction Hes as [|[c r] es Hc _ IH]; intros d; [done|]. cbn. rewrite IH. by destruct c. Qed.

Lemma received_app es es' : received (es ++ es') = received es +:+ received es'.
Proof.
  induction es as [|[c r] es IH]; [done|]. cbn [app received]. destruct c; try exact IH. rewrite IH. apply string_app_assoc.
Qed.

(** Calls that read the descriptor. *)
Definition reading (c : Call) : Prop := match c with SeekInput _ | ReadInput _ _ => True | _ => False end.

Lemma size_app s t : size (s +:+ t) = size s + size t.
Proof.
  unfold size. induction s as [|c s IH]; [done|]. change (String c s +:+ t) with (String c (s +:+ t)).
  cbn [String.length]. lia.
Qed.

Lemma read_loop_spec fuel fd content :
  size content <= maxConfigFileSize → maxConfigFileSize + 2 <= size content + Z.of_nat fuel →
  wp (read_loop fuel fd content) (λ r es, Forall (λ e : event, reading (projT1 e)) es ∧
    match r with
    | Ok all => all = content +:+ received es ∧ size all <= maxConfigFileSize ∧ read_whole fd es
    | Throw e => e ≠ "no fuel"
    end).
Proof.
  revert content. induction fuel as [|fuel IH]; intros content Hc Hf; [lia|]. cbn [read_loop].
  intros [[|c buf]|]; cbn [prog_bind mbind Prog_bind mret Prog_ret raise wp].
  - split; [by repeat constructor|]. cbn. rewrite string_app_nil. split_and!; [done|done|].
    exists []. split; [done|apply not_elem_of_nil].
  - destruct (maxConfigFileSize <? _) eqn:Hs; [by split; [repeat constructor|]|].
    assert (Hsz : size (content +:+ String c buf) = size content + size (String c buf)) by apply size_app.
    assert (0 < size (String c buf)) by (unfold size; cbn [String.length]; lia).
    eapply wp_impl; [apply IH; bool_to_prop; lia|]. intros r es [Hes Hr]. split; [by constructor|].
    destruct r as [all|e]; [|done]. destruct Hr as (-> & Hr & pieces & Hp & Hnil). split_and!; [|done|].
    + exact (eq_sym (string_app_assoc content (String c buf) (received es))).
    + exists (String c buf :: pieces). split; [|by apply not_elem_of_cons].
      change (reads (_ :: es)) with ((fd, Some (String c buf)) :: reads es). by rewrite Hp.
  - split; [by repeat constructor|done].
Qed.

Lemma readFromFd_spec fd :
  wp (readFromFd fd) (λ r es, Forall (λ e : event, reading (projT1 e)) es ∧
    match r with
    | Ok all => all = received es ∧ size all <= maxConfigFileSize ∧ read_whole fd es
    | Throw e => e ≠ "no fuel"
    end).
Proof.
  unfold readFromFd. intros []; cbn [prog_bind mbind Prog_bind act];
    (eapply wp_impl; [apply read_loop_spec; [done|vm_compute; done]|]; intros r es [Hes Hr]; split; [by constructor|done]).
Qed.

(** Calls that do not read give nothing. *)
Lemma unread es : Forall (λ e : event, ¬ reading (projT1 e)) es → received es = "" ∧ reads es = [].
Proof.
  induction 1 as [|[c r] es Hc _ [IHr IHs]]; [done|]. cbn [received]. unfold reads. cbn [omap list_omap read_of].
  by destruct c; try (split; [exact IHr|exact IHs]); destruct (Hc I).
Qed.

(** A file that may be stored. *)
Definition accepted (content : string) : Prop :=
  content ≠ "" ∧ size content <= maxConfigFileSize ∧ ∃ c, parseConfigFile content = Ok c.

(** [leaves es]: the calls leave the configuration file, whatever happens. *)
Definition leaves (es : list event) : Prop := ∀ d, config_file (disk d es) = config_file d.

Lemma leaves_same es : Forall (λ e : event, no_write (projT1 e)) es → leaves es.
Proof. intros Hes d. by rewrite disk_same. Qed.

Lemma leaves_app es es' : leaves es → leaves es' → leaves (es ++ es').
Proof. intros H H' d. by rewrite disk_app, H', H. Qed.

Lemma leaves_remove error : leaves [existT (P := reply) (RemoveFile tempPath) error].
Proof. intros d. by destruct error. Qed.

Lemma write_temp_spec content :
  wp (write_temp content) (λ r es, leaves es ∧
    match r with
    | Ok _ => Forall (λ e : event, ¬ reading (projT1 e)) es ∧ ∀ d, flushed es → temp_file (disk d es) = Some content
    | Throw _ => True
    end).
Proof.
  unfold write_temp. intros [|]; [|by split]. intros written. intros written_back.
  assert (Hl : leaves [existT (P := reply) (OpenOutput tempPath) true; existT (P := reply) (WriteOutput content) written;
                       existT (P := reply) CloseOutput written_back]).
  { intros d. by destruct written, written_back. }
  destruct written; cbn.
  - split_and!; [exact Hl|by repeat (constructor; [by intros []|])|]. intros d Hf. by repeat apply Forall_cons in Hf as [? Hf]; subst.
  - intros error. split; [|done]. exact (leaves_app _ _ Hl (leaves_remove error)).
Qed.

Lemma flushed_app es es' : flushed (es ++ es') ↔ flushed es ∧ flushed es'.
Proof. apply Forall_app. Qed.

(** What follows once the content is known. *)
Lemma store_spec content pre :
  leaves pre →
  wp (ec ← act (CreateDirectories configDir);
      match ec with
      | Some message => raise ("Failed to create config directory: " +:+ message)
      | None =>
          _ ← write_temp content;
          ec ← act (RenameFile tempPath getConfigFilePath);
          match ec with
          | None => mret ()
          | Some message =>
              removed ← act (RemoveFile tempPath);
              match removed with
              | Some error => raise error
              | None => raise ("Failed to store config file: " +:+ message)
              end
          end
      end : P ()) (λ r es,
    match r with
    | Ok _ => Forall (λ e : event, ¬ reading (projT1 e)) es ∧ ∀ d, flushed es → config_file (disk d (pre ++ es)) = Some content
    | Throw _ => leaves (pre ++ es)
    end).
Proof.
  intros Hpre. intros [message|]; [by apply (leaves_app pre [_])|].
  apply wp_bind. eapply wp_impl; [apply write_temp_spec|]. intros [[]|e] es [Hl Hw].
  2:{ by apply (leaves_app pre (_ :: es)), (leaves_app [_]). }
  destruct Hw as [Hre Hw]. intros [message|].
  - intros removed. assert (leaves (pre ++ [existT (P := reply) (CreateDirectories configDir) None] ++ es ++
      [existT (P := reply) (RenameFile tempPath getConfigFilePath) (Some message)] ++ [existT (P := reply) (RemoveFile tempPath) removed])).
    { apply leaves_app; [done|]. apply leaves_app; [done|]. apply leaves_app; [done|]. by apply (leaves_app [_]), leaves_remove. }
    by destruct removed.
  - split.
    { constructor; [by intros []|]. apply Forall_app. split; [done|]. by constructor; [intros []|]. }
    intros d [_ [Hf _]%flushed_app]%Forall_cons.
    change (?x :: es ++ ?l) with ([x] ++ es ++ l). rewrite !disk_app. cbn [disk foldl disk_step config_file].
    by apply Hw.
Qed.

(** What a method that adds a file leaves. *)
Definition added (fd : Z) (r : res string ()) (es : list event) : Prop :=
  match r with
  | Ok _ => existT (P := reply) (FileExists getConfigFilePath) (Ok false) ∈ es ∧
      read_whole fd es ∧ accepted (received es) ∧
      ∀ d, flushed es → config_file (disk d es) = Some (received es)
  | Throw _ => leaves es
  end.

Lemma add_spec fd : wp (handleAddConfigFile fd) (added fd).
Proof.
  unfold handleAddConfigFile. apply wp_bind. intros [[|]|e]; cbn beta iota; [done| |done].
  apply wp_bind. eapply wp_impl; [apply readFromFd_spec|]. intros content es1 [Hr1 Hc].
  assert (Hl1 : leaves (existT (P := reply) (FileExists getConfigFilePath) (Ok false) :: es1)).
  { apply (leaves_app [_]); [done|]. apply leaves_same. eapply Forall_impl; [exact Hr1|]. intros [c r]. by destruct c. }
  assert (Hq : leaves (existT (P := reply) (FileExists getConfigFilePath) (Ok false) :: es1 ++ [])) by by rewrite app_nil_r.
  destruct content as [content|e]; [|exact Hl1]. destruct Hc as (Hc & Hs & Hw).
  case_bool_decide as Hne; [exact Hq|]. destruct (maxConfigFileSize <? _) eqn:Hm; [exact Hq|].
  destruct (parseConfigFile content) as [c|e] eqn:Hp; [|exact Hq].
  eapply wp_impl; [exact (store_spec content _ Hl1)|]. intros [[]|e] es2 Hr2; [|exact Hr2].
  destruct Hr2 as [[Hre2 Hrd2]%unread Hd].
  assert (Hrec : received ([existT (P := reply) (FileExists getConfigFilePath) (Ok false)] ++ es1 ++ es2) = content)
    by by rewrite !received_app, Hre2, string_app_nil, <- Hc.
  split_and!; [by left| | |].
  - destruct Hw as (pieces & Hw & Hnil). exists pieces. split; [|done]. rewrite <- Hw. unfold reads.
    cbn [omap list_omap read_of app]. rewrite omap_app. unfold reads in Hrd2. by rewrite Hrd2, app_nil_r.
  - replace (received _) with content by (symmetry; exact Hrec). by split_and!; [done|bool_to_prop; lia|exists c].
  - replace (received _) with content by (symmetry; exact Hrec). intros d [_ [_ Hf]%flushed_app]%Forall_cons. by apply Hd.
Qed.


(** What has been stored can be read: as long as nothing but the methods changes the
    file and every stream was written out, the file that is stored is not empty, within
    the limit, and a configuration. *)
Definition valid (d : Disk) : Prop := ∀ content, config_file d = Some content → accepted content.

Lemma remove_spec : wp handleRemoveConfigFile (λ r es, ∀ d, valid d → valid (disk d es)).
Proof.
  unfold handleRemoveConfigFile. apply wp_bind. intros [[|]|e]; cbn beta iota;
    [|exact (λ d Hd, Hd)..].
  intros [message|] d Hd; [exact Hd|]. by intros content.
Qed.

Lemma add_valid fd : wp (handleAddConfigFile fd) (λ r es, flushed es → ∀ d, valid d → valid (disk d es)).
Proof.
  eapply wp_impl; [apply add_spec|]. intros [[]|e] es Hr Hf d Hd content.
  - destruct Hr as (_ & _ & Ha & Hs). rewrite Hs by done. by intros [= <-].
  - cbn [added] in Hr. rewrite Hr. apply Hd.
Qed.

Lemma valid_same d es : Forall (λ e : event, no_write (projT1 e)) es → valid d → valid (disk d es).
Proof. intros Hes. by rewrite disk_same. Qed.

Lemma method_valid p s :
  wp p (λ r es, flushed es → ∀ d, valid d → valid (disk d es)) →
  wp (method p s) (λ r es, flushed es → ∀ d, valid d → valid (disk d es)).
Proof.
  intros Hp. unfold method. eapply wp_bind, (wp_try _ _ (λ r es, flushed es → ∀ d, valid d → valid (disk d es))).
  - apply wp_bind. eapply wp_impl; [exact Hp|]. intros [[]|e] es H; [|exact H].
    cbn. rewrite app_nil_r. exact H.
  - intros r es H []. intros [Hf _]%flushed_app d Hd. rewrite disk_app. by apply H.
  - intros e es H []. rewrite app_nil_r. intros [Hf _]%flushed_app d Hd. rewrite disk_app. by apply H.
Qed.

Lemma send_from_only rest ctx s : only no_write (send_from rest ctx s).
Proof.
  revert ctx. induction rest as [|entry rest IH]; intros ctx; cbn [send_from]; unfold finishApply, createMemfd; only_go; apply IH.
Qed.
#[export] Hint Resolve send_from_only : only.

Lemma handle_valid input s : wp (handle input s) (λ r es, flushed es → ∀ d, valid d → valid (disk d es)).
Proof.
  assert (Honly : ∀ p : P State, only no_write p → wp p (λ r es, flushed es → ∀ d, valid d → valid (disk d es))).
  { intros p Hp. eapply wp_impl; [exact Hp|]. intros r es Hes _ d. by apply valid_same. }
  destruct input as [fd| |msg|path|i r|i r|i r|i r|i]; cbn [handle].
  1: apply method_valid, add_valid.
  1: { apply method_valid. eapply wp_impl; [apply remove_spec|]. intros r es H _. exact H. }
  all: apply Honly; unfold onConfigUpdateSignal, applyConfigToDevice, exists_, clear, onServices, onSet, onStatus, pollBlobStatus,
    sendNextBlob, finishApply; only_go.
Qed.

(** As long as nothing but the two methods changes the file, and what they write reaches
    it, the file that is stored is at any time a configuration that can be read: it is
    not empty and within the limit. *)
Theorem stored_valid s es d :
  reachable s es → flushed es → valid d → valid (disk d es).
Proof.
  intros Hr Hf Hd. induction Hr as [es s Hs|s es input es' s' Hr IH Hs].
  - assert (Ho : only no_write setupSignalWatchers) by (unfold setupSignalWatchers; only_go).
    by apply valid_same; [exact (wp_done _ _ _ _ Ho Hs)|].
  - apply flushed_app in Hf as [Hf Hf']. rewrite disk_app.
    exact (wp_done _ _ _ _ (handle_valid input s) Hs Hf' _ (IH Hf)).
Qed.

(** ** A bench

    A machine on which the manager runs: the pieces that the descriptor of the next
    [AddConfigFile] gives, the two files, and whether streams can be written out. *)
Record Bench := mkBench { pieces : list string; files : Disk; write_back : bool }.

Definition answer (c : Call) (b : Bench) : reply c :=
  match c return reply c with
  | FileExists _ => Ok (bool_decide (is_Some (config_file (files b))))
  | ReadInput _ _ => Some (default "" (head (pieces b)))
  | CreateDirectories _ | RemoveFile _ | RenameFile _ _ => None
  | CloseOutput => write_back b
  | SeekInput _ | SeekMemfd _ | OpenOutput _ | WriteOutput _ | OpenInput _ => true
  | ReadAll => Ok (default "" (config_file (files b)))
  | MemfdCreate => Some 7
  | WriteMemfd _ data => Z.of_nat (length data)
  | _ => ()
  end.

#[export] Instance bench : Env reply := {|
  env_state := Bench;
  respond c b :=
    (answer c b,
     mkBench (match c with ReadInput _ _ => tail (pieces b) | _ => pieces b end) (disk_step (files b) (existT c (answer c b)))
       (write_back b));
|}.

(** A stream that could not be written out is not noticed: the method succeeds, and the
    file that is stored is empty. *)
Example lost_write_unnoticed :
  let config := print_config (mkSwitchConfig [[1; 2]] [] [[3]]) in
  let '(_, r, b) := exec (handleAddConfigFile 3) (mkBench [config] (mkDisk None None) false) in
  r = Ok () ∧ config_file (files b) = Some "".
Proof. by vm_compute. Qed.
