(* ===== verification/NvDelivery.v ===== *)
(** * The NVSwitch manager: what reaches a device

    The memory files, what is offered to a device through them, and the state of the
    delivery to each device. *)

From stdpp Require Import list gmap strings.
From S2P Require Import Prelude Bytes Text Trace Threads NvConfig NvManager.

#[local] Open Scope list_scope.
#[local] Open Scope Z_scope.

(** ** What the devices are offered *)

(** A memory file holds what has been written to it; a device is given the one of the
    descriptor that is sent. *)
Fixpoint offered (mem : gmap Z buffer) (es : list event) : list (string * buffer) :=
  match es with
  | [] => []
  | existT c r :: es =>
      match c return reply c → list (string * buffer) with
      | MemfdCreate => λ r, offered (match r with Some fd => <[fd := []]> mem | None => mem end) es
      | WriteMemfd fd data => λ n, offered (<[fd := mem !!! fd ++ take (Z.to_nat n) data]> mem) es
      | SetDeviceConfiguration _ path fd => λ _, (path, mem !!! fd) :: offered mem es
      | _ => λ _, offered mem es
      end r
  end.

(** The blobs of one device. *)
Definition deliveries (path : string) (es : list event) : list buffer :=
  (filter (λ x, x.1 = path) (offered ∅ es)).*2.

(** A call for a memory file that has failed. *)
Definition memfd_fault (e : event) : Prop :=
  let '(existT c r) := e in
  match c return reply c → Prop with
  | MemfdCreate => λ r, r = None
  | WriteMemfd _ data => λ n, n ≠ Z.of_nat (length data)
  | SeekMemfd _ => λ b, b = false
  | _ => λ _, False
  end r.

Definition faultless (es : list event) : Prop := Forall (λ e, ¬ memfd_fault e) es.

(** [offers es l]: just [l] is offered. *)
Definition offers (es : list event) (l : list (string * buffer)) : Prop :=
  ∀ mem, ∃ mem', ∀ es', offered mem (es ++ es') = l ++ offered mem' es'.

Lemma offers_nil : offers [] [].
Proof. intros mem. by exists mem. Qed.

Lemma offers_app es es' l l' : offers es l → offers es' l' → offers (es ++ es') (l ++ l').
Proof.
  intros H H' mem. destruct (H mem) as [mem1 H1]. destruct (H' mem1) as [mem2 H2]. exists mem2.
  intros es2. by rewrite <- !app_assoc, H1, H2.
Qed.

Lemma offers_offered es l mem : offers es l → offered mem es = l.
Proof. intros H. destruct (H mem) as [mem' H']. specialize (H' []). rewrite app_nil_r in H'. by rewrite H', app_nil_r. Qed.

(** [writes fd d es]: the descriptor [fd] is of a memory file of [d]. *)
Definition writes (fd : Z) (d : buffer) (es : list event) : Prop :=
  ∀ mem es', offered mem (es ++ es') = offered (<[fd := d]> mem) es'.

Lemma createMemfd_spec d :
  wp (createMemfd d) (λ r es, match r with
                              | Ok fd => writes fd d es
                              | Throw _ => offers es [] ∧ Exists memfd_fault es
                              end).
Proof.
  unfold createMemfd. intros [fd|]; cbn.
  2:{ split; [intros mem; by exists mem|by left]. }
  case_bool_decide as Hd; cbn.
  - intros [|]; cbn; [intros mem es'; cbn; by subst|]. intros [].
    split; [intros mem; by eexists|by right; left].
  - intros n. cbn. destruct (n =? _) eqn:Hn; cbn.
    + apply Z.eqb_eq in Hn as ->. intros [|]; cbn.
      * intros mem es'. cbn. rewrite lookup_total_insert_eq, insert_insert_eq.
        by rewrite firstn_all2 by lia.
      * intros []. split; [intros mem; by eexists|]. right. right. by left.
    + intros []. split; [intros mem; by eexists|]. right. left. cbn. by apply Z.eqb_neq.
Qed.

(** ** Sending the next blob *)

(** The blobs that are passed over have no memory file; [n] of them are counted as failed. *)
Definition skip (n : nat) (ctx : BlobSendContext) : BlobSendContext := Nat.iter n (advance false) ctx.

Lemma skip_fields n ctx :
  devicePath (skip n ctx) = devicePath ctx ∧ serviceName (skip n ctx) = serviceName ctx ∧ blobs (skip n ctx) = blobs ctx ∧
  current (skip n ctx) = (n + current ctx)%nat ∧ successCount (skip n ctx) = successCount ctx ∧
  failCount (skip n ctx) = failCount ctx + Z.of_nat n.
Proof.
  induction n as [|n IH]; [unfold skip; cbn; split_and!; try done; lia|]. change (skip (S n) ctx) with (advance false (skip n ctx)).
  unfold advance. cbn [devicePath serviceName blobs current successCount failCount].
  destruct IH as (-> & -> & -> & -> & -> & ->). split_and!; try done; lia.
Qed.

(** What [send_from] comes to: the blob after [skipped] is offered to the device, or
    there is no more and the delivery is over. *)
Inductive sent (rest : list BlobEntry) (ctx : BlobSendContext) (s : State) : res string State → list event → Prop :=
| sent_blob skipped entry rest' es :
    rest = skipped ++ entry :: rest' → skipped = [] ∨ Exists memfd_fault es →
    offers es [(devicePath ctx, data entry)] →
    sent rest ctx s (Ok (begin (Setting (skip (length skipped) ctx)) s)) es
| sent_all es b :
    rest = [] ∨ Exists memfd_fault es → offers es [] →
    deviceStates s !! devicePath ctx = Some b →
    existT (P := reply) (Complete (devicePath ctx) (successCount ctx) (Z.of_nat (length (blobs ctx)))
              (failCount ctx + Z.of_nat (length rest))) () ∈ es →
    sent rest ctx s (Ok (set_inProgress (devicePath ctx) false s)) es.

Lemma offers_quiet (c : Call) (r : reply c) :
  match c with SetDeviceConfiguration _ _ _ => False | _ => True end → offers [existT (P := reply) c r] [].
Proof. destruct c; try done; intros _ mem; by eexists. Qed.

Lemma skip_S n ctx : skip n (advance false ctx) = skip (S n) ctx.
Proof. unfold skip. by rewrite <- Nat.iter_succ_r. Qed.

Lemma send_from_spec rest ctx s :
  is_Some (deviceStates s !! devicePath ctx) → wp (send_from rest ctx s) (sent rest ctx s).
Proof.
  intros [b Hb]. revert ctx Hb. induction rest as [|entry rest IH]; intros ctx Hb; cbn [send_from].
  { intros []. cbn. rewrite Hb. refine (sent_all _ _ _ _ b _ _ Hb _); [by left|by apply offers_quiet|].
    cbn. rewrite Z.add_0_r. by left. }
  eapply wp_bind, (wp_try _ _ (λ r es, match r with
                        | Ok (Some fd) => writes fd (data entry) es
                        | Ok None => False
                        | Throw _ => offers es [] ∧ Exists memfd_fault es
                        end)).
  - apply wp_bind. eapply wp_impl; [apply createMemfd_spec|]. intros [fd|e] es Hes; [|done]. cbn.
    by rewrite app_nil_r.
  - intros [fd|] es Hes; [|done]. intros [] []. cbn.
    refine (sent_blob _ _ _ [] entry rest _ eq_refl _ _); [by left|].
    intros mem. eexists. intros es'. rewrite <- app_assoc, Hes. cbn. rewrite lookup_total_insert_eq. done.
  - intros e es [Hq Hf]. cbn. rewrite app_nil_r. eapply wp_impl; [apply IH, Hb|]. intros r es' Hs.
    destruct Hs as [skipped entry' rest' es' -> Hsk Hoff|es' b' Hr Hoff Hd Hc].
    + rewrite skip_S. refine (sent_blob _ _ _ (entry :: skipped) entry' rest' _ eq_refl _ _);
        [right; apply Exists_app; by left|]. by apply (offers_app _ _ [] _ Hq Hoff).
    + refine (sent_all _ ctx _ _ b' _ _ Hd _); [right; apply Exists_app; by left|by apply (offers_app _ _ [] [] Hq Hoff)|].
      apply elem_of_app. right. cbn -[Z.of_nat] in Hc. cbn [length].
      replace (failCount ctx + Z.of_nat (S (length rest))) with (failCount ctx + 1 + Z.of_nat (length rest)) by lia.
      by rewrite Z.add_0_r in Hc.
Qed.

(** ** The state of a delivery *)

(** The delivery to a device: none; the service of the device is asked for; or what has
    not been offered yet of its blobs. *)
Inductive Phase := Idle | Asked (bs : list buffer) | Offering (bs : list buffer).

Definition datas (l : list BlobEntry) : list buffer := data <$> l.

Definition chain (p : Pending) : option BlobSendContext :=
  match p with
  | Discovering => None
  | Resolving ctx | Setting ctx | Polling ctx _ _ | Waiting ctx _ _ => Some ctx
  end.

Definition phase_of (p : Pending) : Phase :=
  match p with
  | Discovering => Idle
  | Resolving ctx => Asked (datas (blobs ctx))
  | Setting ctx | Polling ctx _ _ | Waiting ctx _ _ => Offering (datas (drop (S (current ctx)) (blobs ctx)))
  end.

(** The calls that wait for the device at [path]. *)
Definition chains (path : string) (l : list Pending) : list Pending :=
  filter (λ p, devicePath <$> chain p = Some path) l.

Definition phase (path : string) (s : State) : Phase :=
  match chains path (pending s) with p :: _ => phase_of p | [] => Idle end.

Definition todo (ph : Phase) : option (list buffer) :=
  match ph with Idle => None | Asked bs | Offering bs => Some bs end.

(** What the bus answers to the question for the service of a device: the services. *)
Abbreviation services := (res string (list string)).

Definition found (r : services) : Prop := match r with Ok (_ :: _) => True | _ => False end.

(** The answers that an input brings to the deliveries, with the device. *)
Definition lookups (input : Input) (s : State) : list (string * services) :=
  match input with
  | Services i r => match pending s !! i with Some (Resolving ctx) => [(devicePath ctx, r)] | _ => [] end
  | _ => []
  end.

(** The answer that lets a delivery in [ph] offer its blobs: its service has been found. *)
Definition resolved (ph : Phase) (answers : list services) : Prop :=
  match ph with Asked _ => ∃ r, answers = [r] ∧ found r | _ => answers = [] end.

(** [moves es answers ph l ph']: with the calls [es], which offer the device [l], and the
    answers to the question for its service, its delivery goes from [ph] to [ph']. *)
Inductive moves (es : list event) : list services → Phase → list buffer → Phase → Prop :=
| moves_none ph : moves es [] ph [] ph
| moves_begin content c :
    existT (P := reply) ReadAll (Ok content) ∈ es → parseConfigFile content = Ok c →
    moves es [] Idle [] (Asked (all_blobs c))
| moves_unresolved r bs : ¬ found r → moves es [r] (Asked bs) [] Idle
| moves_offer answers ph skipped b rest :
    resolved ph answers →
    todo ph = Some (skipped ++ b :: rest) → skipped = [] ∨ Exists memfd_fault es → moves es answers ph [b] (Offering rest)
| moves_over answers ph bs :
    resolved ph answers → todo ph = Some bs → bs = [] ∨ Exists memfd_fault es → moves es answers ph [] Idle.

(** ** The invariant *)

Definition counted (ctx : BlobSendContext) : Prop :=
  0 ≤ successCount ctx ∧ 0 ≤ failCount ctx ∧ successCount ctx + failCount ctx = Z.of_nat (current ctx).

Definition in_flight (ctx : BlobSendContext) : Prop := counted ctx ∧ (current ctx < length (blobs ctx))%nat.

Definition pending_ok (p : Pending) : Prop :=
  match p with
  | Discovering => True
  | Resolving ctx => counted ctx ∧ current ctx = O
  | Setting ctx => in_flight ctx
  | Polling ctx _ elapsedMs => in_flight ctx ∧ ∃ k, elapsedMs = 200 * k ∧ 0 ≤ k ≤ 150
  | Waiting ctx _ elapsedMs => in_flight ctx ∧ ∃ k, elapsedMs = 200 * k ∧ 0 ≤ k < 150
  end.

Record wf (s : State) : Prop := {
  wf_pending : Forall pending_ok (pending s);
  wf_once : NoDup (signalMatches s);
  wf_matches : ∀ path, path ∈ signalMatches s ↔ is_Some (deviceStates s !! path);
}.

Definition busy (path : string) (s : State) : bool := bool_decide (deviceStates s !! path = Some true).

(** One call is pending for a device whose flag is set, and none for another; but for
    the device [but], whose call has just been answered. *)
Definition one_chain (but : option string) (s : State) : Prop :=
  ∀ path, length (chains path (pending s)) = (if bool_decide (but ≠ Some path) && busy path s then 1 else 0)%nat.

Definition inv (s : State) : Prop := wf s ∧ one_chain None s.
Definition inv_but (path : string) (s : State) : Prop := wf s ∧ one_chain (Some path) s ∧ busy path s = true.

Lemma chains_app path l l' : chains path (l ++ l') = chains path l ++ chains path l'.
Proof. apply filter_app. Qed.

Lemma chains_one path p : chains path [p] = if bool_decide (devicePath <$> chain p = Some path) then [p] else [].
Proof. unfold chains. rewrite filter_cons, filter_nil. by repeat case_decide; case_bool_decide. Qed.

Lemma pending_split i (s : State) p :
  pending s !! i = Some p → pending s = take i (pending s) ++ p :: drop (S i) (pending s) ∧
  pending (take_pending i s) = take i (pending s) ++ drop (S i) (pending s).
Proof. intros Hp. split; [by rewrite take_drop_middle|]. cbn. apply delete_take_drop. Qed.

(** A call that is answered leaves the list: its device has no other. *)
Lemma resume i s p ctx :
  inv s → pending s !! i = Some p → chain p = Some ctx →
  inv_but (devicePath ctx) (take_pending i s) ∧ pending_ok p ∧ phase (devicePath ctx) s = phase_of p ∧
  ∀ path, path ≠ devicePath ctx → phase path (take_pending i s) = phase path s.
Proof.
  intros [[Hok Hn Hm] H1] Hp Hc. destruct (pending_split i s p Hp) as [Hl Hd].
  assert (Hch : ∀ path, chains path (pending s) =
    chains path (take i (pending s)) ++ (if bool_decide (devicePath ctx = path) then [p] else []) ++
    chains path (drop (S i) (pending s))).
  { intros path. rewrite Hl at 1. change (p :: drop (S i) (pending s)) with ([p] ++ drop (S i) (pending s)).
    rewrite !chains_app, chains_one, Hc. cbn. repeat case_bool_decide; naive_solver. }
  assert (Hcd : ∀ path, chains path (pending (take_pending i s)) =
    chains path (take i (pending s)) ++ chains path (drop (S i) (pending s))).
  { intros path. by rewrite Hd, chains_app. }
  pose proof (H1 (devicePath ctx)) as Hone. rewrite Hch, bool_decide_true in Hone by done.
  rewrite !length_app in Hone. cbn [length] in Hone.
  destruct (bool_decide _ && busy (devicePath ctx) s) eqn:Hb in Hone; [|lia].
  apply andb_true_iff in Hb as [_ Hb].
  assert (chains (devicePath ctx) (take i (pending s)) = []) as Ht by (apply nil_length_inv; lia).
  assert (chains (devicePath ctx) (drop (S i) (pending s)) = []) as Hdr by (apply nil_length_inv; lia).
  split_and!.
  - split; [|split; [|done]].
    + split; [|done|done]. cbn. by apply Forall_delete.
    + intros path. rewrite Hcd. case_bool_decide as Hne; cbn [andb].
      * rewrite <- Hcd. pose proof (H1 path) as Hq. rewrite Hch, bool_decide_false in Hq by congruence.
        rewrite Hcd. rewrite bool_decide_true in Hq by done. exact Hq.
      * injection Hne as <-. by rewrite Ht, Hdr.
  - rewrite Forall_forall in Hok. apply Hok. by eapply list_elem_of_lookup_2.
  - unfold phase. by rewrite Hch, bool_decide_true, Ht by done.
  - intros path Hne. unfold phase. by rewrite Hcd, Hch, bool_decide_false by congruence.
Qed.

Lemma begin_inv s p ctx :
  inv_but (devicePath ctx) s → chain p = Some ctx → pending_ok p →
  inv (begin p s) ∧ phase (devicePath ctx) (begin p s) = phase_of p ∧
  ∀ path, path ≠ devicePath ctx → phase path (begin p s) = phase path s.
Proof.
  intros ([Hok Hn Hm] & H1 & Hb) Hc Hp.
  assert (Hch : ∀ path, chains path (pending (begin p s)) =
    chains path (pending s) ++ if bool_decide (devicePath ctx = path) then [p] else []).
  { intros path. cbn [pending begin]. rewrite chains_app, chains_one, Hc. cbn. repeat case_bool_decide; naive_solver. }
  assert (chains (devicePath ctx) (pending s) = []) as Hnil.
  { apply nil_length_inv. by rewrite H1, bool_decide_false by naive_solver. }
  split_and!.
  - split; [split; [apply Forall_app; by repeat constructor|done|done]|].
    intros path. rewrite Hch, length_app. change (busy path (begin p s)) with (busy path s). case_bool_decide as Hx.
    + subst path. by rewrite Hnil, Hb, bool_decide_true.
    + rewrite H1, !bool_decide_true by naive_solver. cbn. lia.
  - unfold phase. by rewrite Hch, Hnil, bool_decide_true.
  - intros path Hne. unfold phase. by rewrite Hch, bool_decide_false, app_nil_r by congruence.
Qed.

Lemma finish_inv path s :
  inv_but path s →
  inv (set_inProgress path false s) ∧ phase path (set_inProgress path false s) = Idle ∧
  ∀ path', path' ≠ path → phase path' (set_inProgress path false s) = phase path' s.
Proof.
  intros ([Hok Hn Hm] & H1 & Hb). apply bool_decide_eq_true_1 in Hb.
  assert (chains path (pending s) = []) as Hnil.
  { apply nil_length_inv. by rewrite H1, bool_decide_false by naive_solver. }
  split_and!.
  - split; [split; [done|done|]|].
    + intros path'. cbn. rewrite Hm. destruct (decide (path = path')) as [<-|Hne].
      * rewrite Hb, lookup_insert_eq. split; by eexists.
      * by rewrite lookup_insert_ne.
    + intros path'. cbn [pending set_inProgress]. rewrite H1. unfold busy. cbn [deviceStates set_inProgress].
      destruct (decide (path = path')) as [<-|Hne].
      * by rewrite lookup_insert_eq, bool_decide_false by naive_solver.
      * by rewrite lookup_insert_ne, !bool_decide_true by naive_solver.
  - unfold phase. cbn [pending set_inProgress]. by rewrite Hnil.
  - done.
Qed.

(** How many more answers a delivery can take: for every blob that is left, the one of
    [SetDeviceConfiguration], 151 of its status and 150 of the timer. *)
Definition left_ (ctx : BlobSendContext) : Z := Z.of_nat (length (blobs ctx)) - Z.of_nat (current ctx).

Definition work_of (p : Pending) : Z :=
  match p with
  | Discovering => 1
  | Resolving ctx => 1 + 302 * left_ ctx
  | Setting ctx => 302 * left_ ctx
  | Polling ctx _ elapsedMs => 302 * (left_ ctx - 1) + 1 + 2 * ((timeoutMs - elapsedMs) / pollIntervalMs)
  | Waiting ctx _ elapsedMs => 302 * (left_ ctx - 1) + 2 * ((timeoutMs - elapsedMs) / pollIntervalMs)
  end.

Fixpoint work_all (l : list Pending) : Z := match l with [] => 0 | p :: l => work_of p + work_all l end.

Definition work (s : State) : Z := work_all (pending s).

Lemma work_all_app l l' : work_all (l ++ l') = work_all l + work_all l'.
Proof. induction l as [|p l IH]; [done|]. cbn [app work_all]. rewrite IH. lia. Qed.

Lemma work_begin p s : work (begin p s) = work s + work_of p.
Proof. unfold work. cbn [pending begin]. rewrite work_all_app. cbn [work_all]. lia. Qed.

Lemma work_take i s p : pending s !! i = Some p → work s = work (take_pending i s) + work_of p.
Proof.
  intros Hp. destruct (pending_split i s p Hp) as [Hl Hd]. unfold work. rewrite Hd, Hl at 1.
  rewrite !work_all_app. cbn [work_all]. lia.
Qed.

Lemma elapsed_left k : (timeoutMs - 200 * k) / pollIntervalMs = 150 - k.
Proof. unfold timeoutMs, pollIntervalMs. replace (30000 - 200 * k) with ((150 - k) * 200) by lia. by rewrite Z.div_mul. Qed.

(** [carried path ph n s answers r es]: a handler that resumes the delivery to [path], in
    [ph], from the state [s], has taken it on, to where it takes less than [n] answers. *)
Definition carried (path : string) (ph : Phase) (n : Z) (s : State) (answers : list services)
    (r : res string State) (es : list event) : Prop :=
  ∃ s' l, r = Ok s' ∧ offers es (pair path <$> l) ∧ moves es answers ph l (phase path s') ∧ inv s' ∧ work s' < work s + n ∧
    ∀ path', path' ≠ path → phase path' s' = phase path' s.

Lemma carried_begin ph n s answers p ctx l es :
  inv_but (devicePath ctx) s → chain p = Some ctx → pending_ok p → work_of p < n →
  offers es (pair (devicePath ctx) <$> l) → moves es answers ph l (phase_of p) →
  carried (devicePath ctx) ph n s answers (Ok (begin p s)) es.
Proof.
  intros Hi Hc Hp Hn Ho Hm. destruct (begin_inv s p ctx Hi Hc Hp) as (Hi' & Hph & Hq).
  exists (begin p s), l. rewrite Hph, work_begin. split_and!; done || lia.
Qed.

Lemma carried_finish ph n s answers path es :
  inv_but path s → 0 < n → offers es [] → moves es answers ph [] Idle →
  carried path ph n s answers (Ok (set_inProgress path false s)) es.
Proof.
  intros Hi Hn Ho Hm. destruct (finish_inv path s Hi) as (Hi' & Hph & Hq).
  exists (set_inProgress path false s), []. rewrite Hph. split_and!; try done.
  change (work s < work s + n). lia.
Qed.

Lemma counted_skip n ctx : counted ctx → counted (skip n ctx).
Proof. unfold counted. destruct (skip_fields n ctx) as (_ & _ & _ & -> & -> & ->). lia. Qed.

Lemma counted_advance ok ctx : counted ctx → counted (advance ok ctx).
Proof. unfold counted. destruct ok; cbn -[Z.of_nat]; lia. Qed.

Lemma inv_but_known path s : inv_but path s → is_Some (deviceStates s !! path).
Proof. intros (_ & _ & Hb). apply bool_decide_eq_true_1 in Hb. by eexists. Qed.

Lemma sendNextBlob_carried ph n ctx s answers :
  inv_but (devicePath ctx) s → counted ctx → 302 * left_ ctx < n → 0 < n → resolved ph answers →
  todo ph = Some (datas (drop (current ctx) (blobs ctx))) →
  wp (sendNextBlob ctx s) (carried (devicePath ctx) ph n s answers).
Proof.
  intros Hi Hc Hn H0 Hans Hph. eapply wp_impl; [apply send_from_spec; by apply inv_but_known|].
  intros r es [skipped entry rest es' Hr Hsk Ho|es' b Hr Ho _ _].
  - destruct (skip_fields (length skipped) ctx) as (Hpa & _ & Hbl & Hcu & _).
    rewrite <- Hpa in *. apply (carried_begin _ _ _ _ _ (skip (length skipped) ctx) [data entry]); [done|done| | |done|].
    + split; [by apply counted_skip|]. rewrite Hbl, Hcu. apply (f_equal length) in Hr.
      rewrite length_drop, length_app in Hr. cbn [length] in Hr. lia.
    + unfold work_of, left_ in *. rewrite Hbl, Hcu. lia.
    + cbn [phase_of]. rewrite Hbl, Hcu.
      replace (drop (S (length skipped + current ctx)) (blobs ctx)) with rest.
      * apply (moves_offer _ _ _ (datas skipped)); [done|by rewrite Hph, Hr; unfold datas; rewrite fmap_app|].
        destruct Hsk as [->|?]; [by left|by right].
      * replace (S (length skipped + current ctx)) with (current ctx + S (length skipped))%nat by lia.
        rewrite <- drop_drop, Hr. by rewrite drop_app_ge, Nat.sub_succ_l, Nat.sub_diag by lia.
  - apply carried_finish; [done|done|done|]. apply (moves_over _ _ _ _ Hans Hph). destruct Hr as [->|?]; [by left|by right].
Qed.

(** ** The callbacks *)

Section Callbacks.
Context (ctx : BlobSendContext) (s : State) (Hi : inv_but (devicePath ctx) s).

(** One more blob has been dealt with. *)
Lemma next_carried ok n :
  in_flight ctx → 302 * (left_ ctx - 1) < n → 0 < n →
  wp (sendNextBlob (advance ok ctx) s) (carried (devicePath ctx) (phase_of (Setting ctx)) n s []).
Proof.
  intros [Hc _] Hn H0. apply (sendNextBlob_carried _ n (advance ok ctx)); [done|by apply counted_advance| |done|done|done].
  unfold left_ in *. cbn [blobs current advance]. lia.
Qed.

Lemma onServices_carried r :
  pending_ok (Resolving ctx) →
  wp (onServices ctx r s) (carried (devicePath ctx) (phase_of (Resolving ctx)) (work_of (Resolving ctx)) s [r]).
Proof.
  intros [Hc Hz].
  assert (Hf : ¬ found r → wp (finishApply ctx s) (carried (devicePath ctx) (phase_of (Resolving ctx)) (work_of (Resolving ctx)) s [r])).
  { intros Hr []. cbn. destruct (inv_but_known _ _ Hi) as [b ->].
    apply carried_finish; [done| |by apply offers_quiet|by apply moves_unresolved]. unfold work_of, left_. rewrite Hz. lia. }
  destruct r as [[|service l]|e]; [by apply Hf; intros []| |by apply Hf; intros []]. cbn [onServices].
  apply (sendNextBlob_carried _ _ (mkContext (devicePath ctx) service (blobs ctx) (current ctx) (successCount ctx) (failCount ctx)));
    [done|done| | | |].
  - unfold work_of, left_. cbn [blobs current]. lia.
  - unfold work_of, left_. rewrite Hz. lia.
  - by exists (Ok (service :: l)).
  - cbn. by rewrite Hz.
Qed.

Lemma pollBlobStatus_carried asyncPath k n :
  in_flight ctx → 0 ≤ k ≤ 150 → 302 * (left_ ctx - 1) + 1 + 2 * (150 - k) < n →
  wp (pollBlobStatus ctx asyncPath (200 * k) s) (carried (devicePath ctx) (phase_of (Setting ctx)) n s []).
Proof.
  intros Hf Hk Hn []. cbn.
  apply (carried_begin _ _ _ _ (Polling ctx asyncPath (200 * k)) ctx []); [done|done| | |by apply offers_quiet|constructor].
  - split; [done|]. by exists k.
  - cbn [work_of]. by rewrite elapsed_left.
Qed.

Lemma onSet_carried r :
  in_flight ctx → wp (onSet ctx r s) (carried (devicePath ctx) (phase_of (Setting ctx)) (work_of (Setting ctx)) s []).
Proof.
  intros Hf. assert (0 < left_ ctx) by (destruct Hf; unfold left_; lia). cbn [work_of]. destruct r as [asyncPath|e]; cbn [onSet].
  - apply (pollBlobStatus_carried asyncPath 0); [done|lia|lia].
  - apply next_carried; [done|lia|lia].
Qed.

Lemma onStatus_carried asyncPath elapsedMs r :
  pending_ok (Polling ctx asyncPath elapsedMs) →
  wp (onStatus ctx asyncPath elapsedMs r s)
    (carried (devicePath ctx) (phase_of (Setting ctx)) (work_of (Polling ctx asyncPath elapsedMs)) s []).
Proof.
  intros [Hf (k & -> & Hk)]. assert (0 < left_ ctx) by (destruct Hf; unfold left_; lia). cbn [work_of]. rewrite elapsed_left.
  destruct r as [status|e]; cbn [onStatus]; [|apply next_carried; done || lia].
  case_bool_decide; [|apply next_carried; done || lia].
  destruct (timeoutMs <=? 200 * k) eqn:Ht; [apply next_carried; done || lia|]. unfold timeoutMs in Ht.
  intros []. cbn.
  apply (carried_begin _ _ _ _ (Waiting ctx asyncPath (200 * k)) ctx []); [done|done| | |by apply offers_quiet|constructor].
  - split; [done|]. exists k. bool_to_prop. lia.
  - cbn [work_of]. rewrite elapsed_left. lia.
Qed.

Lemma expired_carried asyncPath elapsedMs :
  pending_ok (Waiting ctx asyncPath elapsedMs) →
  wp (pollBlobStatus ctx asyncPath (elapsedMs + pollIntervalMs) s)
    (carried (devicePath ctx) (phase_of (Setting ctx)) (work_of (Waiting ctx asyncPath elapsedMs)) s []).
Proof.
  intros [Hf (k & -> & Hk)]. cbn [work_of]. rewrite elapsed_left. unfold pollIntervalMs.
  replace (200 * k + 200) with (200 * (k + 1)) by lia. apply pollBlobStatus_carried; [done|lia|lia].
Qed.
End Callbacks.

(** ** Every input *)

(** What is about one device of what is about all of them. *)
Definition of_device {A} (path : string) (l : list (string * A)) : list A := (filter (λ x, x.1 = path) l).*2.

(** [progress answers s es s']: the invariant holds of [s'], and the calls [es] offer the
    devices what the moves of their deliveries account for. *)
Definition progress (answers : list (string * services)) (s : State) (es : list event) (s' : State) : Prop :=
  inv s' ∧ ∃ l, offers es l ∧
    ∀ path, moves es (of_device path answers) (phase path s) (of_device path l) (phase path s').

Lemma of_device_pair {A} (path path' : string) (l : list A) :
  of_device path' (pair path <$> l) = if decide (path = path') then l else [].
Proof.
  unfold of_device. induction l as [|b l IH]; [by case_decide|]. cbn [fmap list_fmap]. rewrite filter_cons. cbn [fst].
  case_decide; cbn [fmap list_fmap]; rewrite IH; by rewrite ?decide_True, ?decide_False.
Qed.

Lemma of_device_app {A} path (l l' : list (string * A)) : of_device path (l ++ l') = of_device path l ++ of_device path l'.
Proof. unfold of_device. by rewrite filter_app, fmap_app. Qed.

Lemma carried_progress path n s s0 answers r es :
  (∀ path', path' ≠ path → phase path' s0 = phase path' s) → carried path (phase path s) n s0 answers r es →
  ∃ s', r = Ok s' ∧ progress (pair path <$> answers) s es s' ∧ work s' < work s0 + n.
Proof.
  intros Hq (s' & l & -> & Ho & Hm & Hi & Hw & Hq'). exists s'. split_and!; [done| |done]. split; [done|].
  exists (pair path <$> l). split; [done|]. intros path'. rewrite !of_device_pair. case_decide as Hp; [by subst|].
  rewrite Hq', Hq by done. constructor.
Qed.

Lemma progress_still s es s' :
  inv s' → offers es [] → (∀ path, phase path s' = phase path s) → progress [] s es s'.
Proof. intros Hi Ho Hp. split; [done|]. exists []. split; [done|]. intros path. rewrite Hp. constructor. Qed.

Lemma subscribe_inv path s : inv s → inv (subscribeToDevice path s).
Proof.
  intros [[Hok Hn Hm] H1]. unfold subscribeToDevice. destruct (deviceStates s !! path) as [b|] eqn:Hp; [done|].
  split; [split|]; cbn.
  - done.
  - apply NoDup_app. split_and!; [done| |apply NoDup_singleton]. intros q Hq ->%list_elem_of_singleton.
    apply Hm in Hq as [b Hb]. by rewrite Hb in Hp.
  - intros q. rewrite elem_of_app, list_elem_of_singleton, Hm. destruct (decide (q = path)) as [->|Hne].
    + rewrite lookup_insert_eq. split; [by eexists|by right].
    + rewrite lookup_insert_ne by done. naive_solver.
  - intros q. cbn [pending]. rewrite H1. unfold busy. cbn [deviceStates]. destruct (decide (q = path)) as [->|Hne].
    + by rewrite lookup_insert_eq, Hp.
    + by rewrite lookup_insert_ne.
Qed.

Lemma subscribe_pending path s : pending (subscribeToDevice path s) = pending s.
Proof. unfold subscribeToDevice. by destruct (deviceStates s !! path). Qed.

Lemma subscribe_all paths s :
  inv s → inv (foldl (λ s path, subscribeToDevice path s) s paths) ∧
  pending (foldl (λ s path, subscribeToDevice path s) s paths) = pending s.
Proof.
  revert s. induction paths as [|path paths IH]; intros s Hs; [done|]. cbn [foldl].
  destruct (IH (subscribeToDevice path s)) as [Hi Hp]; [by apply subscribe_inv|]. by rewrite Hp, subscribe_pending.
Qed.

(** The answer of the discovery. *)
Lemma discovered_inv i s :
  inv s → pending s !! i = Some Discovering →
  inv (take_pending i s) ∧ ∀ path, phase path (take_pending i s) = phase path s.
Proof.
  intros [[Hok Hn Hm] H1] Hp. destruct (pending_split i s _ Hp) as [Hl Hd].
  assert (Hch : ∀ path, chains path (pending (take_pending i s)) = chains path (pending s)).
  { intros path. transitivity (chains path (take i (pending s) ++ Discovering :: drop (S i) (pending s))); [|by rewrite <- Hl].
    by rewrite Hd, !chains_app. }
  split; [split; [split; [by apply Forall_delete|done|done]|]|].
  - intros path. by rewrite Hch, H1.
  - intros path. unfold phase. by rewrite Hch.
Qed.

(** A device that asks for its configuration. *)
Lemma start_inv path s :
  inv s → deviceStates s !! path = Some false →
  inv_but path (set_inProgress path true s) ∧ phase path s = Idle.
Proof.
  intros [[Hok Hn Hm] H1] Hp.
  assert (chains path (pending s) = []) as Hnil.
  { apply nil_length_inv. rewrite H1. unfold busy. by rewrite Hp. }
  split_and!.
  - split; [split; [done|done|]|split].
    + intros path'. cbn. rewrite Hm. destruct (decide (path = path')) as [<-|Hne].
      * rewrite Hp, lookup_insert_eq. split; by eexists.
      * by rewrite lookup_insert_ne.
    + intros path'. cbn [pending set_inProgress]. unfold busy. cbn [deviceStates set_inProgress].
      destruct (decide (path = path')) as [<-|Hne].
      * by rewrite Hnil, bool_decide_false by naive_solver.
      * rewrite H1, lookup_insert_ne, !bool_decide_true by naive_solver. done.
    + unfold busy. cbn. by rewrite lookup_insert_eq.
  - unfold phase. by rewrite Hnil.
Qed.

Lemma entries_data phase l : data <$> entries phase l = l.
Proof. unfold entries. rewrite fmap_imap. etrans; [apply (imap_const id)|apply list_fmap_id]. Qed.

Lemma context_blobs path c : datas (blobs (context path c)) = all_blobs c.
Proof. unfold datas. cbn. by rewrite !fmap_app, !entries_data. Qed.

Lemma apply_progress path s :
  inv s → deviceStates s !! path = Some false →
  wp (applyConfigToDevice path (set_inProgress path true s)) (λ r es, ∀ s', r = Ok s' → progress [] s es s').
Proof.
  intros Hi Hp. destruct (start_inv path s Hi Hp) as [Hb Hph].
  assert (Hclear : wp (clear path (set_inProgress path true s)) (λ r es', es' = [] ∧ ∀ s' es, r = Ok s' →
    offers es [] → progress [] s es s')).
  { unfold clear. cbn [deviceStates set_inProgress]. rewrite lookup_insert_eq. split; [done|].
    intros s' es [= <-] Ho. destruct (finish_inv _ _ Hb) as (Hi' & Hph' & Hq). apply progress_still; [done|done|].
    intros path'. destruct (decide (path' = path)) as [->|Hne]; [by rewrite Hph, Hph'|by apply Hq]. }
  assert (Hquit : ∀ pre, offers pre [] →
    wp (clear path (set_inProgress path true s)) (λ r es, ∀ s', r = Ok s' → progress [] s (pre ++ es) s')).
  { intros pre Hpre. eapply wp_impl; [exact Hclear|]. intros r es [-> Hs'] s' Hr. rewrite app_nil_r. by apply Hs'. }
  unfold applyConfigToDevice, exists_. intros [present|e]; [|done]. cbn.
  destruct present; cbn; [|by apply (Hquit [_]), offers_quiet].
  intros opened. cbn. destruct opened; cbn; [|by apply (Hquit [_; _]), (offers_app [_] [_] [] []); apply offers_quiet].
  intros [content|e]; [|done]. cbn.
  assert (Ho : ∀ e1 e2 : bool, offers [existT (P := reply) (FileExists getConfigFilePath) (Ok e1);
    existT (P := reply) (OpenInput getConfigFilePath) e2; existT (P := reply) ReadAll (Ok content)] []).
  { intros e1 e2 mem. by eexists. }
  case_bool_decide; [by apply (Hquit [_; _; _])|].
  destruct (parseConfigFile content) as [c|e] eqn:Hparse; [|by apply (Hquit [_; _; _])].
  intros [] s' [= <-].
  destruct (begin_inv (set_inProgress path true s) (Resolving (context path c)) (context path c)) as (Hi' & Hph' & Hq);
    [done|done|done|].
  split; [done|]. exists []. split; [intros mem; by eexists|]. intros path'. cbn [filter list_filter fmap list_fmap].
  destruct (decide (path' = path)) as [->|Hne].
  - change (devicePath (context path c)) with path in *. rewrite Hph, Hph'. cbn [phase_of]. rewrite context_blobs.
    apply (moves_begin _ content); [set_solver|done].
  - rewrite Hq by done. constructor.
Qed.

(** The input is the answer of a call that is pending. *)
Definition due (input : Input) (s : State) : Prop :=
  match input with
  | SubTree i _ => pending s !! i = Some Discovering
  | Services i _ => ∃ ctx, pending s !! i = Some (Resolving ctx)
  | Configured i _ => ∃ ctx, pending s !! i = Some (Setting ctx)
  | Status i _ => ∃ ctx a e, pending s !! i = Some (Polling ctx a e)
  | Expired i => ∃ ctx a e, pending s !! i = Some (Waiting ctx a e)
  | _ => False
  end.

(** A call of a delivery is answered by [p]. *)
Lemma answered i s pd ctx answers (p : P State) :
  inv s → pending s !! i = Some pd → chain pd = Some ctx →
  (inv_but (devicePath ctx) (take_pending i s) → pending_ok pd →
   wp p (carried (devicePath ctx) (phase_of pd) (work_of pd) (take_pending i s) answers)) →
  wp p (λ r es, ∃ s', r = Ok s' ∧ progress (pair (devicePath ctx) <$> answers) s es s' ∧ work s' < work s).
Proof.
  intros Hi Hp Hc Hcar. destruct (resume i s pd ctx Hi Hp Hc) as (Hb & Hok & Hph & Hq).
  eapply wp_impl; [by apply Hcar|]. intros r es Hr. rewrite <- Hph in Hr.
  destruct (carried_progress _ _ s _ _ _ _ Hq Hr) as (s' & -> & Hpr & Hw). exists s'. split_and!; [done|done|].
  by rewrite (work_take i s pd).
Qed.

Lemma due_progress input s :
  inv s → due input s → wp (handle input s) (λ r es, ∃ s', r = Ok s' ∧ progress (lookups input s) s es s' ∧ work s' < work s).
Proof.
  intros Hi Hd. destruct input as [| | | |i r|i r|i r|i r|i]; try done; cbn in Hd.
  - cbn [handle]. rewrite Hd. destruct (discovered_inv i s Hi Hd) as [Hi' Hph]. exists (onSubTree r (take_pending i s)).
    pose proof (work_take i s _ Hd) as Hw. cbn [work_of] in Hw.
    destruct r as [paths|e]; cbn [onSubTree].
    + destruct (subscribe_all paths _ Hi') as [Hi2 Hp2]. split_and!; [done| |unfold work in *; rewrite Hp2; lia].
      apply progress_still; [done|apply offers_nil|]. intros path. rewrite <- Hph. unfold phase. by rewrite Hp2.
    + split_and!; [done| |lia]. by apply progress_still; [|apply offers_nil|].
  - destruct Hd as [ctx Hp]. cbn [handle lookups]. rewrite Hp. apply (answered i s (Resolving ctx) ctx [r]); [done..|]. intros Hb Hok. by apply onServices_carried.
  - destruct Hd as [ctx Hp]. cbn [handle]. rewrite Hp. apply (answered i s (Setting ctx) ctx []); [done..|]. intros Hb Hok. by apply onSet_carried.
  - destruct Hd as (ctx & a & e & Hp). cbn [handle]. rewrite Hp. apply (answered i s (Polling ctx a e) ctx []); [done..|]. intros Hb Hok. by apply onStatus_carried.
  - destruct Hd as (ctx & a & e & Hp). cbn [handle]. rewrite Hp. apply (answered i s (Waiting ctx a e) ctx []); [done..|]. intros Hb Hok. by apply expired_carried.
Qed.

(** The two methods offer nothing. *)
Definition files_only (c : Call) : Prop := match c with SetDeviceConfiguration _ _ _ => False | _ => True end.

Lemma files_only_offers es : Forall (λ e : event, files_only (projT1 e)) es → offers es [].
Proof.
  induction 1 as [|[c r] es Hc _ IH]; [apply offers_nil|]. by apply (offers_app [existT (P := reply) c r] es [] []); [apply offers_quiet|].
Qed.

Lemma read_loop_only fuel fd content : only files_only (read_loop fuel fd content).
Proof. revert content. induction fuel as [|fuel IH]; intros content; cbn [read_loop]; only_go; apply IH. Qed.
#[export] Hint Resolve read_loop_only : only.

Lemma add_only fd : only files_only (handleAddConfigFile fd).
Proof. unfold handleAddConfigFile, exists_, readFromFd, write_temp. only_go. Qed.

Lemma remove_only : only files_only handleRemoveConfigFile.
Proof. unfold handleRemoveConfigFile, exists_. only_go. Qed.

Lemma wp_true {A} (p : P A) : wp p (λ _ _, True).
Proof. induction p as [r|c k IH]; [done|]. intros r. apply IH. Qed.

Lemma method_state p s : wp (method p s) (λ r _, r = Ok s).
Proof.
  unfold method. eapply wp_bind, (wp_try _ _ (λ _ _, True)); [apply wp_true|by intros a es _ []|by intros e es _ []].
Qed.

Lemma method_progress p s :
  only files_only p → inv s → wp (method p s) (λ r es, ∀ s', r = Ok s' → progress [] s es s').
Proof.
  intros Hp Hi. assert (Ho : only files_only (method p s)) by (unfold method; only_go; done).
  eapply wp_impl; [exact (wp_and _ _ _ Ho (method_state p s))|]. intros r es [Hes ->] s' [= <-].
  apply progress_still; [done|by apply files_only_offers|done].
Qed.

Lemma handle_progress input s : inv s → wp (handle input s) (λ r es, ∀ s', r = Ok s' → progress (lookups input s) s es s').
Proof.
  intros Hi.
  assert (Hidle : wp (mret s : P State) (λ r es, ∀ s', r = Ok s' → progress [] s es s')).
  { intros s' [= <-]. by apply progress_still; [|apply offers_nil|]. }
  assert (Hdue : due input s → wp (handle input s) (λ r es, ∀ s', r = Ok s' → progress (lookups input s) s es s')).
  { intros Hd. eapply wp_impl; [by apply due_progress|]. intros r es (s' & -> & Hs' & _) s'' [= <-]. done. }
  destruct input as [fd| |msg|path|i r|i r|i r|i r|i]; cbn [handle due lookups] in *.
  1: by apply method_progress; [apply add_only|].
  1: by apply method_progress; [apply remove_only|].
  1: { intros s' [= <-]. unfold onInterfacesAdded. destruct msg as [[path ifs]|e]; [case_bool_decide|];
         apply progress_still; try done; try apply offers_nil; [by apply subscribe_inv|].
       intros q. unfold phase. by rewrite subscribe_pending. }
  1: { case_bool_decide; [|exact Hidle]. unfold onConfigUpdateSignal.
       destruct (deviceStates s !! path) as [[]|] eqn:Hp; [exact Hidle|by apply apply_progress|exact Hidle]. }
  all: destruct (pending s !! i) as [[]|]; first [exact Hidle|apply Hdue; eauto].
Qed.

Lemma start_progress : wp setupSignalWatchers (λ r es, ∃ s, r = Ok s ∧ inv s ∧ offers es [] ∧ ∀ path, phase path s = Idle).
Proof.
  intros []. eexists. split_and!; [done| |by apply offers_quiet|done]. split; [split|].
  - by repeat constructor.
  - constructor.
  - intros path. cbn. split; [by intros ?%not_elem_of_nil|by intros [? ?]].
  - intros path. done.
Qed.

Lemma manager_inv s es : reachable s es → inv s.
Proof.
  induction 1 as [es s Hs|s es input es' s' _ IH Hs].
  - by destruct (wp_done _ _ _ _ start_progress Hs) as (s' & [= <-] & Hi & _).
  - exact (proj1 (wp_done _ _ _ _ (handle_progress input s IH) Hs _ eq_refl)).
Qed.

(** ** One delivery at a time *)

(** C22: In every state of the manager exactly one call or timer is pending for a device
    whose configuration is being applied, and none for any other; and the signal of a
    device that is known is watched exactly once. *)
Theorem one_delivery_each s es path :
  reachable s es →
  length (chains path (pending s)) = (if bool_decide (deviceStates s !! path = Some true) then 1 else 0)%nat ∧
  NoDup (signalMatches s) ∧ (path ∈ signalMatches s ↔ is_Some (deviceStates s !! path)).
Proof. intros [[_ Hn Hm] H1]%manager_inv. split_and!; [apply H1|done|apply Hm]. Qed.

(** ** What a device has been offered *)

(** The configuration [c] has been read on the way. *)
Definition was_read (es : list event) (c : SwitchConfig) : Prop :=
  ∃ content, existT (P := reply) ReadAll (Ok content) ∈ es ∧ parseConfigFile content = Ok c.

(** A delivery that is over: of a configuration, with the answer to the question for the
    service of the device, and what it has offered. *)
Record Delivery := mkDelivery { config : SwitchConfig; answer : services; given : list buffer }.

Definition finished (es : list event) (x : Delivery) : Prop :=
  was_read es (config x) ∧
  match answer x with
  | Ok (_ :: _) => given x `sublist_of` all_blobs (config x) ∧ (faultless es → given x = all_blobs (config x))
  | Ok [] | Throw _ => given x = []
  end.

(** A delivery in [ph] has had [answers] and offered [d]. *)
Definition ongoing (es : list event) (ph : Phase) (answers : list services) (d : list buffer) : Prop :=
  match ph with
  | Idle => answers = [] ∧ d = []
  | Asked bs => answers = [] ∧ d = [] ∧ ∃ c, was_read es c ∧ bs = all_blobs c
  | Offering rest =>
      ∃ service others c done, answers = [Ok (service :: others)] ∧
        was_read es c ∧ all_blobs c = done ++ rest ∧ d `sublist_of` done ∧ (faultless es → d = done)
  end.

(** All that was answered and offered to a device: the deliveries that are over, and the
    one that goes on. *)
Definition account (es : list event) (ph : Phase) (answers : list services) (ds : list buffer) : Prop :=
  ∃ deliveries last d, answers = (answer <$> deliveries) ++ last ∧ ds = concat (given <$> deliveries) ++ d ∧
    Forall (finished es) deliveries ∧ ongoing es ph last d.

Lemma was_read_app es es' c : was_read es c → was_read (es ++ es') c.
Proof. intros (content & Hc & Hp). exists content. split; [apply elem_of_app; by left|done]. Qed.

Lemma finished_app es es' x : finished es x → finished (es ++ es') x.
Proof.
  intros [Hr Hx]. split; [by apply was_read_app|]. destruct (answer x) as [[|? ?]|?]; [done| |done].
  destruct Hx as [Hs Hf]. split; [done|]. intros [Hes _]%Forall_app. by apply Hf.
Qed.

Lemma ongoing_app es es' ph answers d : ongoing es ph answers d → ongoing (es ++ es') ph answers d.
Proof.
  destruct ph as [|bs|rest]; cbn; [done| |].
  - intros (-> & -> & c & Hr & ->). split_and!; [done|done|]. exists c. split; [by apply was_read_app|done].
  - intros (v & vs & c & done & -> & Hr & Hc & Hs & Hf). exists v, vs, c, done. split_and!; [done|by apply was_read_app|done..|].
    intros [Hes _]%Forall_app. by apply Hf.
Qed.

Lemma account_app es es' ph answers ds : account es ph answers ds → account (es ++ es') ph answers ds.
Proof.
  intros (fin & last & d & -> & -> & Hf & Ho). exists fin, last, d. split_and!; [done|done| |by apply ongoing_app].
  eapply Forall_impl; [exact Hf|]. intros x. apply finished_app.
Qed.

Lemma not_faultless es es' : Exists memfd_fault es' → ¬ faultless (es ++ es').
Proof.
  intros He [_ Hes]%Forall_app. apply Exists_exists in He as (e & Hin & He). rewrite Forall_forall in Hes. by apply (Hes e).
Qed.

(** A delivery that is over joins those that are. *)
Lemma account_over es answers ds fin x :
  answers = (answer <$> fin) ++ [answer x] → ds = concat (given <$> fin) ++ given x → Forall (finished es) fin →
  finished es x → account es Idle answers ds.
Proof.
  intros -> -> Hf Hx. exists (fin ++ [x]), [], []. split_and!; [| |apply Forall_app; split; [done|by apply Forall_singleton]|done].
  - by rewrite fmap_app, app_nil_r.
  - by rewrite fmap_app, concat_app; cbn; rewrite !app_nil_r.
Qed.

Lemma account_moves es es' ph ph' answers answers' ds l :
  account es ph answers ds → moves es' answers' ph l ph' → account (es ++ es') ph' (answers ++ answers') (ds ++ l).
Proof.
  intros Ha%(account_app es es') Hm. destruct Ha as (fin & last & d & Has & Hds & Hf & Ho).
  destruct Hm as [ph|content c Hin Hp|r bs Hr|answers' ph skipped b rest Hv Ht Hsk|answers' ph bs Hv Ht Hbs]; rewrite ?app_nil_r.
  - by exists fin, last, d.
  - exists fin, last, d. split_and!; [done..|]. destruct Ho as [-> ->]. split_and!; [done|done|]. exists c. split; [|done].
    exists content. split; [apply elem_of_app; by right|done].
  - destruct Ho as (-> & -> & c & Hc & _). rewrite app_nil_r in Has. subst answers.
    apply (account_over _ _ _ fin (mkDelivery c r [])); [done|done|done|]. split; [done|].
    destruct r as [[|? ?]|?]; [done|by destruct Hr|done].
  - destruct ph as [|all|before]; [done| |]; injection Ht as ->.
    + destruct Ho as (-> & -> & c & Hr & Hc). destruct Hv as (r & -> & Hfd). destruct r as [[|v vs]|?]; [done| |done].
      rewrite app_nil_r in Has, Hds. exists fin, [Ok (v :: vs)], [b]. split_and!; [by rewrite Has|by rewrite Hds|done|].
      exists v, vs, c, (skipped ++ [b]). split_and!; [done|done|by rewrite <- Hc, <- app_assoc|by apply sublist_inserts_l|].
      intros Hno. destruct Hsk as [->|He]; [done|]. by destruct (not_faultless es es' He).
    + cbn [resolved] in Hv. subst answers'. rewrite app_nil_r.
      destruct Ho as (v & vs & c & past & -> & Hr & Hc & Hs & Hd). exists fin, [Ok (v :: vs)], (d ++ [b]).
      split_and!; [done|by rewrite Hds, <- app_assoc|done|].
      exists v, vs, c, (past ++ skipped ++ [b]). split_and!; [done|done|by rewrite Hc, <- !app_assoc| |].
      * apply sublist_app; [done|by apply sublist_inserts_l].
      * intros Hno. destruct Hsk as [->|He]; [by rewrite Hd|]. by destruct (not_faultless es es' He).
  - destruct ph as [|all|rest]; [done| |]; injection Ht as ->.
    + destruct Ho as (-> & -> & c & Hr & Hc). destruct Hv as (r & -> & Hfd). rewrite app_nil_r in Has. subst answers.
      apply (account_over _ _ _ fin (mkDelivery c r [])); [done|done|done|]. split; [done|].
      destruct r as [[|? ?]|?]; [done| |done]. cbn [given config]. split; [apply sublist_nil_l|].
      intros Hno. destruct Hbs as [->|He]; [done|]. by destruct (not_faultless es es' He).
    + cbn [resolved] in Hv. subst answers'. rewrite app_nil_r.
      destruct Ho as (v & vs & c & past & -> & Hr & Hc & Hs & Hd).
      apply (account_over _ _ _ fin (mkDelivery c (Ok (v :: vs)) d)); [done|done|done|]. split; [done|]. cbn [answer given config].
      rewrite Hc. split; [by apply sublist_inserts_r|].
      intros Hno. rewrite Hd by done. destruct Hbs as [->|He]; [by rewrite app_nil_r|]. by destruct (not_faultless es es' He).
Qed.

(** What the manager can come to, with the calls made on the way and the answers to the
    questions for the services of the devices. *)
Inductive reachable_by : list (string * services) → State → list event → Prop :=
| reachable_by_start es s : steps setupSignalWatchers es (Done (Ok s)) → reachable_by [] s es
| reachable_by_input answers s es input es' s' :
    reachable_by answers s es → steps (handle input s) es' (Done (Ok s')) →
    reachable_by (answers ++ lookups input s) s' (es ++ es').

Lemma reachable_answers s es : reachable s es ↔ ∃ answers, reachable_by answers s es.
Proof.
  split; [|intros [answers Hr]].
  - induction 1 as [es s Hs|s es input es' s' _ [answers IH] Hs]; eexists; [by constructor|by econstructor].
  - induction Hr; [by constructor|by econstructor].
Qed.

(** C20: At any time what a device has been offered is one delivery after another, as many
    as the bus has answered for its service, and one that may go on. A delivery has
    offered the blobs of a configuration that was read, in their order: all of them when
    the service was found and no memory file has failed, and none when it was not found;
    the last has offered those up to where it stands. *)
Theorem deliveries_in_order answers s es path :
  reachable_by answers s es → account es (phase path s) (of_device path answers) (deliveries path es).
Proof.
  intros Hr.
  assert (H : ∃ l, offers es l ∧ ∀ path, account es (phase path s) (of_device path answers) (of_device path l)).
  { induction Hr as [es s Hs|answers s es input es' s' Hr (l & Ho & Ha) Hs].
    - destruct (wp_done _ _ _ _ start_progress Hs) as (s' & [= <-] & _ & Ho & Hph). exists []. split; [done|].
      intros q. rewrite Hph. by exists [], [], [].
    - assert (Hi : inv s) by by eapply manager_inv, reachable_answers; eexists.
      destruct (wp_done _ _ _ _ (handle_progress input s Hi) Hs _ eq_refl) as (_ & l' & Ho' & Hm).
      exists (l ++ l'). split; [by apply offers_app|]. intros q. rewrite !of_device_app.
      eapply account_moves; [apply Ha|apply Hm]. }
  destruct H as (l & Ho & Ha). unfold deliveries. rewrite (offers_offered es l) by done. apply Ha.
Qed.

(** ** Deliveries end *)

(** [answers s n s']: from [s], [n] pending calls and timers in a row are answered, with
    no other input, and the manager is in [s']. *)
Inductive answers : State → nat → State → Prop :=
| answers_none s : answers s 0 s
| answers_one s input es s1 n s2 :
    due input s → steps (handle input s) es (Done (Ok s1)) → answers s1 n s2 → answers s (S n) s2.

Lemma work_nonneg s : wf s → 0 ≤ work s.
Proof.
  intros [Hok _ _]. unfold work. induction Hok as [|p l Hp _ IH]; [done|]. cbn [work_all].
  assert (0 ≤ work_of p); [|lia].
  destruct p as [|ctx|ctx|ctx a e|ctx a e]; cbn [pending_ok work_of] in *; unfold left_.
  - done.
  - destruct Hp as [_ ->]. lia.
  - destruct Hp as [_ Hc]. lia.
  - destruct Hp as [[_ Hc] (k & -> & Hk)]. rewrite elapsed_left. lia.
  - destruct Hp as [[_ Hc] (k & -> & Hk)]. rewrite elapsed_left. lia.
Qed.

(** C21: Whatever is answered, the calls that are pending are followed by no more than [work]
    answers: 302 for every blob that is left, and one to ask for the service. No handler
    of an answer throws; and when nothing is pending any more no device is in progress. *)
Theorem deliveries_end s es n s' :
  reachable s es → answers s n s' →
  Z.of_nat n ≤ work s ∧
  (∀ input, due input s' → wp (handle input s') (λ r _, ∃ s2, r = Ok s2)) ∧
  (pending s' = [] → ∀ path, deviceStates s' !! path ≠ Some true).
Proof.
  intros Hi%manager_inv Ha.
  assert (H : Z.of_nat n + work s' ≤ work s ∧ inv s').
  { induction Ha as [s|s input es' s1 n s2 Hd Hs Ha IH]; [by split; [lia|]|].
    destruct (wp_done _ _ _ _ (due_progress input s Hi Hd) Hs) as (s3 & [= <-] & [Hi1 _] & Hw).
    destruct (IH Hi1) as [Hn Hi2]. split; [lia|done]. }
  destruct H as [Hn [Hwf H1]]. pose proof (work_nonneg s' Hwf). split_and!; [lia| |].
  - intros input Hd. eapply wp_impl; [by apply due_progress|]. intros r es' (s2 & -> & _). by eexists.
  - intros Hnil path Hp. specialize (H1 path). rewrite Hnil in H1. unfold busy in H1. by rewrite Hp in H1.
Qed.

(** ** On the bench *)

(** The manager on the bench, input by input. *)
Fixpoint drive (inputs : list Input) (answers : list (string * services)) (s : State) (es : list event) (b : Bench)
    : option (list (string * services) * State * list event) :=
  match inputs with
  | [] => Some (answers, s, es)
  | input :: inputs =>
      let '(es', r, b) := exec (handle input s) b in
      match r with Ok s' => drive inputs (answers ++ lookups input s) s' (es ++ es') b | Throw _ => None end
  end.

Lemma drive_reachable inputs answers s es b answers' s' es' :
  reachable_by answers s es → drive inputs answers s es b = Some (answers', s', es') → reachable_by answers' s' es'.
Proof.
  revert answers s es b. induction inputs as [|input inputs IH]; intros answers s es b Hr Hd; cbn [drive] in Hd; [by simplify_eq|].
  pose proof (@exec_steps _ _ bench _ _ (handle input s) b) as Hs.
  destruct (@exec _ _ bench _ _ (handle input s) b) as [[es1 r] b'].
  destruct r as [s1|e]; [|done]. eapply IH; [|exact Hd]. by eapply reachable_by_input.
Qed.

Definition example_config : SwitchConfig := mkSwitchConfig [[1; 2]] [[0xAB]] [[3]].

Definition example_inputs : list Input :=
  [AddConfigFile 3; SubTree 0 (Ok ["/switch"]); DeviceConfigurationRequested "/switch";
   DeviceConfigurationRequested "/switch"; Services 0 (Ok ["nsm"]);
   Configured 0 (Ok "/async/1"); Status 0 (Ok inProgressValue); Expired 0; Status 0 (Ok successValue);
   Configured 0 (Throw "busy"); Configured 0 (Ok "/async/2")]%string.

Definition example_start : State := mkState ∅ [] [Discovering].
Definition example_bench : Bench := mkBench [print_config example_config] (mkDisk None None) true.

Definition run_inputs (inputs : list Input) : list (string * services) * State * list event :=
  default ([], example_start, []) (drive inputs [] example_start [existT (P := reply) GetSubTree ()] example_bench).

Definition example_state : State := (run_inputs example_inputs).1.2.
Definition example_trace : list event := (run_inputs example_inputs).2.
Definition example_answers : list (string * services) := [("/switch", Ok ["nsm"])]%string.

Lemma example_reachable_by : reachable_by example_answers example_state example_trace.
Proof.
  apply (drive_reachable example_inputs [] example_start [existT (P := reply) GetSubTree ()] example_bench).
  - apply reachable_by_start. repeat constructor.
  - by vm_compute.
Qed.

Lemma example_reachable : reachable example_state example_trace.
Proof. apply reachable_answers. eexists. exact example_reachable_by. Qed.

(** What is added is what is offered, in order; the last blob is waited for. *)
Example example_offered :
  deliveries "/switch" example_trace = all_blobs example_config ∧ phase "/switch" example_state = Offering [] ∧
  disk (mkDisk None None) example_trace = mkDisk (Some (print_config example_config)) None.
Proof. vm_compute. by split_and!. Qed.

Lemma one_delivery_each_witness :
  length (chains "/switch" (pending example_state)) = 1%nat ∧ "/switch" ∈ signalMatches example_state.
Proof.
  destruct (one_delivery_each _ _ "/switch" example_reachable) as (H1 & _ & H2). split.
  - rewrite H1. by vm_compute.
  - apply H2. by vm_compute; eexists.
Defined.

Lemma deliveries_in_order_witness :
  account example_trace (Offering []) [Ok ["nsm"]]%string [[1; 2]; [0xAB]; [3]].
Proof.
  pose proof (deliveries_in_order _ _ _ "/switch" example_reachable_by) as H.
  replace (deliveries "/switch" example_trace) with [[1; 2]; [0xAB]; [3]] in H by by vm_compute.
  replace (phase "/switch" example_state) with (Offering []) in H by by vm_compute. exact H.
Defined.

(** The last answer ends the delivery. *)
Lemma deliveries_end_witness :
  (∃ s, answers example_state 1 s ∧ pending s = [] ∧ deviceStates s !! "/switch" ≠ Some true) ∧ 1 ≤ work example_state.
Proof.
  assert (Ha : answers example_state 1 (mkState {["/switch" := false]} ["/switch"] [])).
  { apply (answers_one _ (Status 0 (Ok successValue)) [existT (P := reply) (Complete "/switch" 2 3 1) ()]
      (mkState {["/switch" := false]} ["/switch"] [])); [by vm_compute; eauto| |constructor].
    vm_compute. repeat constructor. }
  destruct (deliveries_end _ _ _ _ example_reachable Ha) as (Hn & _ & Hd). split; [|exact Hn].
  eexists. split; [exact Ha|]. split; [done|]. by apply Hd.
Defined.

Lemma stored_valid_witness :
  accepted (print_config example_config).
Proof.
  apply (stored_valid example_state example_trace (mkDisk None None) example_reachable); [|done|by vm_compute].
  vm_compute. repeat constructor.
Defined.

(** A device whose service is not found: the journal has it that the delivery is complete
    with no failure, where nothing was sent. *)
Example unresolved_reads_complete :
  let '(_, s, es) := run_inputs [AddConfigFile 3; SubTree 0 (Ok ["/switch"]); DeviceConfigurationRequested "/switch"; Services 0 (Throw "gone")]%string in
  pending s = [] ∧ deliveries "/switch" es = [] ∧ last es = Some (existT (P := reply) (Complete "/switch" 0 3 0) ()).
Proof. vm_compute. by split_and!. Qed.
